(* ===== verification/_CoqProject ===== *)
-Q . S2P
Prelude.v
CString.v
Spinlock.v
Params.v
Bio.v
Disk.v
Log.v
Fs.v
FsFormat.v
FsOps.v
FsData.v
Dir.v
Kernel.v
File.v
Proc.v
Alloc.v
Wp.v
Syscall.v
SyscallFacts.v
Vm.v
VmFacts.v
Shell.v
ShellFacts.v
Grep.v
Format.v
Console.v
Mux.v
Ide.v
Exec.v
ExecFacts.v
Mkproto.v
MkprotoFacts.v
MkprotoBuild.v
MkprotoImage.v
Dispatch.v
Steady.v
DispatchFacts.v
Privilege.v
Boot.v
BootFacts.v
Start.v
Keyboard.v
Devices.v
Args.v
Ulock.v
Usermsg.v
Devd.v
Mp.v
Interrupts.v
Uart.v
Rawdisk.v
Programs.v
Uthread.v
Segments.v
