(* ===== verification/Prelude.v ===== *)
(** * xv6-vsd: a model of the kernel, its file system and its main programs

    The system is a small Unix in C for 32-bit x86.  The boot record loads a
    loader, the loader the kernel ([newboot/]), and [main.c] hands the machine's
    memory to the allocator.  The kernel, from the disk up:

    - the IDE driver serves a queue of block requests ([ide.c]); the buffer cache
      keeps up to thirty blocks in memory and lends each to one client at a time
      ([bio.c]); the log makes the changes of a group of system calls reach the
      disk together or not at all ([log.c]); the file system keeps the free
      bitmap, inodes, file contents, directories, mounts and path names over the
      cache and the log ([fs.c]); the disk table says which drive and which log
      belong to a device ([disk.c]);
    - open files and pipes give processes access to inodes and to each other
      ([file.c], [pipe.c]); the process table holds processes, threads and their
      mailboxes ([proc.c]); users and permissions decide who may do what
      ([users.c], [checkfileperm] of [file.c]);
    - the page allocator and the kernel heap supply memory ([kalloc.c]), page
      tables give each process its address space ([vm.c]), spin locks guard every
      table ([spinlock.c]);
    - traps and system calls enter through [trap.c] and the table of [syscall.c];
      they check their arguments and call the above ([sysfile.c], [sysproc.c],
      [syschroot.c]); [exec.c] replaces a process's memory by a program's;
    - the keyboard and the console, the terminal multiplexer, the small devices
      and the system parameters are devices behind the same file interface
      ([kbd.c], [console.c], [mux.c], [bitbucket.c], [devsysctl.c], [kfields.c]);
    - user programs are linked with a C library ([ulib.c], [user_string.c],
      [umalloc.c], [printf.c], [sprintf.c], [formatting.c], [args.c], [ulocks.c],
      [message.c]); the shell ([sh.c]), [grep.c] and the device daemon ([devd.c])
      are the programs with logic of their own;
    - [Tools/mkproto.c] builds, on another system, the disk image this one boots
      from.

    ** How the code is modelled

    A C integer is a [Z] with the wrap-around of its type written out ([u8], [u32],
    [s32], ... below); flags are tested and set with [Z.land] and [Z.lor].
    A routine that changes state is a function in the monad [M S] of this file,
    whose outcome is [Ok], [Panic] (the kernel's [panic], with its message),
    [Blocked] (the routine went to sleep) or [PowerFail].  Routines that use the
    buffer cache are [prog]s (Bio.v): trees of cache calls over their own memory,
    so that one simulation theorem moves every result about them from the cache's
    specification to the cache.  Library routines over raw memory return [option],
    [None] being a stray access.  Tables are lists and pointers to their entries
    are indices; heap objects are keys of a finite map, so a freed object is an
    absent key.  The words of page tables and allocators live in a map from word
    addresses to 32-bit values.

    ** Files

    - Prelude.v: integers, the monad, arrays, little-endian numbers, table scans,
      flags; the tactics and hint databases.
    - CString.v: [string.c], [ulib.c], [user_string.c] on a byte array with
      possibly overlapping ranges.
    - Spinlock.v: [spinlock.c] as functions, and the atomic actions of all CPUs as
      a step relation.
    - Params.v: the constants of the headers.
    - Bio.v: [bio.c]; [Cache] is the code, [Spec] what it promises, [Refinement]
      the simulation.
    - Disk.v: [disk.c]; the file system's memory.
    - Log.v: [log.c].
    - Fs.v: [fs.c], every routine.  FsFormat.v: inode and bitmap formats, pieces of
      a transfer, path elements.  FsOps.v: transactions and what the allocator,
      inode and cache routines do inside them.  FsData.v: file contents.  Dir.v:
      directories and path names, over the disk as a graph.
    - Kernel.v: the kernel's tables.  File.v: [file.c], [pipe.c].  Proc.v:
      [users.c], [proc.c].
    - Alloc.v: [kalloc.c] and [umalloc.c]; the two heaps are one algorithm over the
      class [Core].
    - Wp.v: weakest preconditions for kernel routines.  Syscall.v: [syscall.c],
      [sysfile.c], [sysproc.c].  SyscallFacts.v: their properties.
    - Vm.v, VmFacts.v: [vm.c].
    - Shell.v, ShellFacts.v: [sh.c].  Grep.v: [grep.c].
    - Format.v: [printf.c], [sprintf.c], [formatting.c], [cprintf].
    - Console.v: [console.c].  Keyboard.v: [kbd.c], [kbd.h].  Mux.v: [mux.c].
      Ide.v: [ide.c].  Devices.v: [bitbucket.c], [devsysctl.c], [kfields.c].
    - Exec.v: [exec.c] and [loaduvm], over the kernel's tables and the page tables
      together.  ExecFacts.v: their properties.
    - Dispatch.v: the forwarding calls, error strings, [syschroot.c], the table of
      system calls and [trap.c].  Steady.v: what every routine preserves, compiled
      once per routine.  DispatchFacts.v, Privilege.v: properties of all system
      calls.
    - Mkproto.v: [Tools/mkproto.c].  MkprotoFacts.v: its text routines and formats.
      MkprotoBuild.v: the invariant of the image under construction.
      MkprotoImage.v: reading the finished image back.
    - Boot.v, BootFacts.v: [newboot/mbrmain.c], [newboot/bootelf.c],
      [newboot/bootbin.c], [newboot/smalloc.c].  Start.v: the memory set-up of
      [main.c] and the page tables it is entered with.
    - Args.v: [args.c].  Ulock.v: [ulocks.c].  Usermsg.v: [message.c].
      Uthread.v: [uthread.c].  Devd.v: [devd.c].  Programs.v: the small programs,
      and the input of the shell.
    - Mp.v: [mp.c].  Interrupts.v: [picirq.c], [ioapic.c], [timer.c], [lapic.c].
      Uart.v: [uart.c].  Segments.v: the descriptors of [mmu.h], [seginit],
      [switchuvm], [tvinit], [mycpu], [sched], the start of the other processors.
      Rawdisk.v: [bdisk_read] and [bdisk_write] of [bio.c]; [memide.c].

    ** What is shown

    - Crash safety (Log.v): a power failure at any disk write of [commit], on the
      real cache, followed by recovery, leaves all of the transaction or none of
      it; recovery can itself be interrupted; what a crash leaves is a prefix of
      the writes; the reservation of [begin_op] keeps the log's header from
      overflowing, and the log on disk exactly when it has more than [LOGSIZE]
      blocks.
    - Refinement: the LRU cache implements a map of pinned blocks, for every
      client, including panics and sleeping (Bio.v); the interrupt-driven driver
      implements the atomic disk operation the cache is built on, in the order of
      the requests, and loses the operations whose command failed (Ide.v); the
      console's ring buffer implements the line discipline (Console.v); messages
      between processes arrive in the order they are sent (Proc.v); the shell's
      system calls give each program the descriptors its command asks for, when
      [fork] and [pipe] succeed (ShellFacts.v).
    - Files: a file is the list of its bytes; [readi] returns them, [writei]
      splices them, growing the file with fresh blocks, and every other file of
      the disk keeps its own (FsData.v); the allocator takes the first
      free block and records it in the log (FsOps.v); inodes survive the trip to
      disk (FsFormat.v).
    - Paths: the directories of a disk are a graph with named edges; [namex]
      resolves a path in it whatever the inode cache holds, gives back every
      reference but the result's, and leaves the disk alone; [dirlink] adds one
      edge and moves no other; the cache [fsinit] leaves, with the root mounted on
      itself, is one the walks start from (Dir.v).
    - Memory: blocks of the heaps never overlap and none is lost, whatever the
      sequence of calls, for requests of at most a page in the kernel (Alloc.v);
      [copyuvm] makes an address space that shares nothing with its parent,
      [allocuvm] maps zeroed pages when there are two free pages for each new one,
      [freevm] gives back every page once, [copyout] writes inside user pages only
      and stops at the first page that is not the user's (VmFacts.v).
    - Concurrency: no interleaving lets two CPUs own a lock (Spinlock.v).
    - Processes and files: [fork], [wait], [exit], [kill] and the scheduler's
      waiting rounds (Proc.v); which pointers the kernel accepts
      (SyscallFacts.v); pipes and permissions (File.v).
    - Program loading: after a successful [exec] the new address space holds the
      segments of the file, zeroes behind them, and the arguments where [main]
      looks for them; after a failed one the process runs on unchanged
      (ExecFacts.v).
    - All system calls at once: after any sequence of them the reference counts of
      open files equal the descriptors that name them (DispatchFacts.v); no sequence
      of calls of processes that are not superusers of the machine makes one, and
      a process changes its user only as a superuser of its system or, out of the
      global system, by [chsystem] (Privilege.v).
    - Boot: from a disk with the loaders and a kernel file on it, the chain ends at
      the kernel's entry with its segments in memory, if they lie in the whole
      blocks of its file (BootFacts.v); [main] hands out the pages behind the
      kernel up to [lowmem] and from 16 MB to the address [highmem], each once, so
      that it establishes the invariant of Alloc.v and VmFacts.v (Start.v).
    - The image builder's output is read back, file by file, by the inode and
      directory formats of the kernel, for images of at most [FSSIZE] blocks that
      use none from 4096 on (MkprotoImage.v).
    - Devices: the scan codes of the keyboard arrive at the console's line
      discipline as the characters of the pressed keys (Keyboard.v); the multiplexer
      never leaves its interrupt handler, and in it gives each line the characters
      that are addressed to it (Mux.v); a write to the
      parameter file changes the parameter it names and no other, and only for a
      superuser of the machine (Devices.v).
    - User library: mailboxes are lists with a scan position, which a new message
      sets to the start (Usermsg.v); locks
      exclude, for threads that unlock only what they locked (Ulock.v); options set
      the flags they name (Args.v); the first scan of the device daemon makes the
      nodes of its file (Devd.v); threads have slots of their own (Uthread.v).
    - The machine: the firmware's tables are read as they are laid out (Mp.v); the
      interrupts that were enabled arrive, at the processor named, and no others,
      and the clock is read when it is steady (Interrupts.v); the serial ports have
      the console's line discipline, each its own (Uart.v); a user program can enter
      the kernel by the system call gate alone (Segments.v); what is written to a
      raw disk is read back (Rawdisk.v).
    - Small programs: [cat] copies, [wc] counts, [sysctl] sets the parameter it
      names, the shell takes its input line by line (Programs.v).
    - Programs: the shell's parser ends on every line and reads back the grammar
      (ShellFacts.v); [grep]'s matcher decides its pattern language (Grep.v); the
      formatters print numbers that read back and agree with each other but for
      [%%] and texts with a NUL (Format.v).

    Where the code does not do what it means to, a theorem about a concrete state
    shows it.

    ** Fuel

    Loops whose bound is not a list or a number of the code take fuel.  It is the
    number of pages of the range in Vm.v, of headers in memory in Alloc.v (each
    round of a list walk visits another header), of pieces of a transfer in Fs.v,
    of characters left in Shell.v and Grep.v, of entries of the prototype file in
    Mkproto.v, of program headers in Exec.v and Boot.v.  Running out of it is a [Panic] or
    [None], and the theorems show that the routines return a result, so the fuel
    is enough.

    ** Not modelled

    - [oldboot/], [oldfs/], [Tools/mkfs*.c], [Other/mkfs.c]: the boot loader, file
      system and image builders that the ones modelled here replaced.
    - [sysauth.c], which is not compiled and would not compile.
    - Commands that are one system call with its messages ([rm.c], [kill.c], ...),
      [init.c], and the test programs.
    - The assembly files.  [entry.S] appears in Start.v through the directory it
      fills in, [vectors.S] in Segments.v as the list of its entries; the context
      switch ([swtch.S]) is left out.
    - Sleeping and waking across processes: a routine that sleeps ends in
      [Blocked]; the theorems say in which state.
    - Waiting for hardware; messages on the console. *)

From Stdlib Require Export ZArith Lia.
From stdpp Require Export base list gmap strings option.
#[export] Set Default Goal Selector "!".

Declare Scope kernel_scope.
Delimit Scope kernel_scope with kernel.
Open Scope kernel_scope.
Open Scope Z_scope.

(** ** Machine integers

    C integers are [Z] values; [uN] and [sN] write the wrap-around of the
    unsigned and signed N-bit types out. *)

Definition u8 (x : Z) : Z := x mod 2 ^ 8.
Definition u16 (x : Z) : Z := x mod 2 ^ 16.
Definition u32 (x : Z) : Z := x mod 2 ^ 32.
Definition signed (w x : Z) : Z := (x + 2 ^ (w - 1)) mod 2 ^ w - 2 ^ (w - 1).
Definition s8 (x : Z) : Z := signed 8 x.
Definition s16 (x : Z) : Z := signed 16 x.
Definition s32 (x : Z) : Z := signed 32 x.

Abbreviation in_u32 x := (0 <= x < 2 ^ 32).
Abbreviation in_s32 x := (- 2 ^ 31 <= x < 2 ^ 31).
Abbreviation in_s16 x := (- 2 ^ 15 <= x < 2 ^ 15).

(** Linear arithmetic with division and remainder by constants. *)
Ltac dlia := Z.to_euclidean_division_equations; lia.

Create HintDb ints.
Create Rewrite HintDb ints.

Lemma u8_range x : 0 <= u8 x < 256.
Proof. unfold u8. apply Z.mod_pos_bound. lia. Qed.
Lemma u32_range x : in_u32 (u32 x).
Proof. unfold u32. apply Z.mod_pos_bound. lia. Qed.
Lemma u8_small x : 0 <= x < 256 -> u8 x = x.
Proof. intros. unfold u8. apply Z.mod_small. lia. Qed.
Lemma u16_small x : 0 <= x < 65536 -> u16 x = x.
Proof. intros. unfold u16. apply Z.mod_small. lia. Qed.
Lemma u32_small x : in_u32 x -> u32 x = x.
Proof. intros. unfold u32. apply Z.mod_small. lia. Qed.
Lemma s32_small x : in_s32 x -> s32 x = x.
Proof. intros. unfold s32, signed. rewrite Z.mod_small; lia. Qed.
Lemma s32_range x : in_s32 (s32 x).
Proof.
  unfold s32, signed.
  pose proof (Z.mod_pos_bound (x + 2 ^ (32 - 1)) (2 ^ 32)). lia.
Qed.
Lemma s16_mod x : in_s16 x -> s16 (x mod 2 ^ 16) = x.
Proof. intros. unfold s16, signed. dlia. Qed.
Lemma u32_idem x : u32 (u32 x) = u32 x.
Proof. unfold u32. apply Z.mod_mod. lia. Qed.
Lemma u32_add_l x y : u32 (u32 x + y) = u32 (x + y).
Proof. unfold u32. apply Zplus_mod_idemp_l. Qed.
Lemma u32_add_r x y : u32 (x + u32 y) = u32 (x + y).
Proof. unfold u32. apply Zplus_mod_idemp_r. Qed.

#[export] Hint Resolve u8_range u32_range s32_range : ints.
#[export] Hint Rewrite u32_idem u32_add_l u32_add_r : ints.

(** ** The kernel monad

    A kernel routine runs on a state and either returns, panics, blocks (it
    reached a [sleep] whose condition only another context can change), or is
    cut off by a power failure between two disk writes. *)

Inductive res (S A : Type) : Type :=
| Ok (a : A) (s : S)
| Panic (msg : string) (s : S)
| Blocked (s : S)
| PowerFail (s : S).
Arguments Ok {S A} _ _.
Arguments Panic {S A} _ _.
Arguments Blocked {S A} _.
Arguments PowerFail {S A} _.

Definition M (S A : Type) : Type := S -> res S A.

#[export] Instance M_ret S : MRet (M S) := fun A a s => Ok a s.
#[export] Instance M_bind S : MBind (M S) := fun A B k c s =>
  match c s with
  | Ok a s' => k a s'
  | Panic m s' => Panic m s'
  | Blocked s' => Blocked s'
  | PowerFail s' => PowerFail s'
  end.

Definition panic {S A} (msg : string) : M S A := fun s => Panic msg s.
Definition blocked {S A} : M S A := fun s => Blocked s.
Definition get {S} : M S S := fun s => Ok s s.
Definition gets {S A} (f : S -> A) : M S A := fun s => Ok (f s) s.
Definition modify {S} (f : S -> S) : M S unit := fun s => Ok tt (f s).
Definition assert_or {S} (b : bool) (msg : string) : M S unit :=
  if b then mret tt else panic msg.

(** [for_each l f] is the C loop [for(x in l) f(x)]. *)
Fixpoint for_each {S A} (l : list A) (f : A -> M S unit) : M S unit :=
  match l with
  | [] => mret tt
  | x :: l' => f x ;; for_each l' f
  end.

Lemma bind_ok {S A B} (c : M S A) (k : A -> M S B) s a s' :
  c s = Ok a s' -> (x ← c; k x) s = k a s'.
Proof. intros H. cbv [mbind M_bind]. by rewrite H. Qed.

Lemma bind_inv {S A B} (c : M S A) (k : A -> M S B) s b s' :
  (x ← c; k x) s = Ok b s' ->
  exists a s1, c s = Ok a s1 /\ k a s1 = Ok b s'.
Proof. cbv [mbind M_bind]. destruct (c s); naive_solver. Qed.

Lemma bind_assoc {S A B C} (c : M S A) (k : A -> M S B) (h : B -> M S C) s :
  (y ← (x ← c; k x); h y) s = (x ← c; y ← k x; h y) s.
Proof. cbv [mbind M_bind]. by destruct (c s). Qed.

(** Evaluate the monad's plumbing. *)
Ltac mred :=
  cbv [mbind M_bind mret M_ret panic blocked get gets modify assert_or] in *; simpl in *.

(** Split a successful run of a sequence into the runs of its parts. *)
Ltac mstep H :=
  let a := fresh "a" in let s := fresh "s" in
  let H1 := fresh H in
  apply bind_inv in H as (a & s & H1 & H).

(** [for_each] preserves what each iteration preserves. *)
Lemma for_each_inv {S A} (P : S -> Prop) (l : list A) (f : A -> M S unit) s u s' :
  (forall x s u s', x ∈ l -> P s -> f x s = Ok u s' -> P s') ->
  P s -> for_each l f s = Ok u s' -> P s'.
Proof.
  revert s. induction l as [|x l IH]; intros s Hf HP H; simpl in H.
  { by injection H as <- <-. }
  apply bind_inv in H as ([] & s1 & H1 & H2).
  eapply IH; [|eapply Hf; [constructor| |]|]; eauto.
  intros. eapply Hf; eauto. by constructor.
Qed.

(** ** Arrays *)

(** [splice l i v] overwrites [l] from index [i] with [v]; it is meant for
    [i + length v <= length l]. *)
Definition splice {A} (l : list A) (i : nat) (v : list A) : list A :=
  take i l ++ v ++ drop (i + length v) l.

(** [slice l i n] is the [n] elements of [l] from index [i]. *)
Definition slice {A} (l : list A) (i n : nat) : list A := take n (drop i l).

Section arrays.
Context {A : Type}.
Implicit Types (l v : list A) (i n : nat).
Local Open Scope nat_scope.

Lemma length_splice l i v :
  i + length v <= length l -> length (splice l i v) = length l.
Proof. intros. unfold splice. rewrite !length_app, length_take, length_drop. lia. Qed.

Lemma length_slice l i n : i + n <= length l -> length (slice l i n) = n.
Proof. intros. unfold slice. rewrite length_take, length_drop. lia. Qed.

Lemma lookup_splice_in l i v j :
  i + length v <= length l -> i <= j < i + length v ->
  splice l i v !! j = v !! (j - i).
Proof.
  intros. unfold splice. rewrite lookup_app_r; rewrite length_take; [|lia].
  rewrite lookup_app_l by lia. f_equal; lia.
Qed.

Lemma lookup_splice_out l i v j :
  i + length v <= length l -> j < i \/ i + length v <= j ->
  splice l i v !! j = l !! j.
Proof.
  intros ? [?|?]; unfold splice.
  - rewrite lookup_app_l by (rewrite length_take; lia).
    by rewrite lookup_take_lt.
  - rewrite !lookup_app_r; rewrite ?length_take; try lia.
    rewrite lookup_drop. f_equal; lia.
Qed.

Lemma lookup_slice l i n j : j < n -> slice l i n !! j = l !! (i + j).
Proof. intros. unfold slice. rewrite lookup_take_lt by lia. by rewrite lookup_drop. Qed.

Lemma lookup_slice_ge l i n j : n <= j -> slice l i n !! j = None.
Proof. intros. unfold slice. apply lookup_take_ge. lia. Qed.

(** Reading back what was written. *)
Lemma slice_splice l i v :
  i + length v <= length l -> slice (splice l i v) i (length v) = v.
Proof.
  intros. apply list_eq. intros j. destruct (decide (j < length v)).
  - rewrite lookup_slice, lookup_splice_in by lia. f_equal; lia.
  - rewrite lookup_slice_ge, lookup_ge_None_2 by lia. done.
Qed.

(** A write leaves a disjoint range alone. *)
Lemma slice_splice_disjoint l i v j n :
  i + length v <= length l -> j + n <= i \/ i + length v <= j ->
  slice (splice l i v) j n = slice l j n.
Proof.
  intros. apply list_eq. intros k. destruct (decide (k < n)).
  - rewrite !lookup_slice, lookup_splice_out by lia. done.
  - by rewrite !lookup_slice_ge by lia.
Qed.

Lemma splice_slice_id l i n : i + n <= length l -> splice l i (slice l i n) = l.
Proof.
  intros. apply list_eq. intros j.
  assert (length (slice l i n) = n) by (apply length_slice; lia).
  destruct (decide (i <= j < i + n)).
  - rewrite lookup_splice_in, lookup_slice by lia. f_equal; lia.
  - rewrite lookup_splice_out by lia. done.
Qed.

Lemma splice_nil l i : splice l i [] = l.
Proof. unfold splice. simpl. rewrite Nat.add_0_r. apply take_drop. Qed.

Lemma slice_all l : slice l 0 (length l) = l.
Proof. unfold slice. rewrite drop_0. by apply take_ge. Qed.
End arrays.

(** ** Little-endian integers in byte arrays *)

Fixpoint le_bytes (n : nat) (x : Z) : list Z :=
  match n with
  | O => []
  | S n' => x mod 256 :: le_bytes n' (x / 256)
  end.

Fixpoint le_num (bs : list Z) : Z :=
  match bs with
  | [] => 0
  | b :: bs' => b + 256 * le_num bs'
  end.

Lemma length_le_bytes n x : length (le_bytes n x) = n.
Proof. revert x. induction n; intros; simpl; auto. Qed.

Lemma le_num_bytes n x : le_num (le_bytes n x) = x mod 256 ^ Z.of_nat n.
Proof.
  revert x. induction n as [|n IH]; intros x; cbn [le_num le_bytes].
  - change (256 ^ Z.of_nat 0) with 1. by rewrite Z.mod_1_r.
  - rewrite IH, Nat2Z.inj_succ, Z.pow_succ_r by lia.
    pose proof (Z.pow_pos_nonneg 256 (Z.of_nat n)).
    rewrite Z.rem_mul_r by lia. lia.
Qed.

Definition is_byte (b : Z) : Prop := 0 <= b < 256.

Lemma le_bytes_num bs : Forall is_byte bs -> le_bytes (length bs) (le_num bs) = bs.
Proof.
  induction 1 as [|b bs Hb _ IH]; cbn [le_num le_bytes length]; [done|].
  unfold is_byte in Hb.
  rewrite (Z.mul_comm 256), Z.mod_add, Z.mod_small by lia.
  rewrite Z.div_add, (Z.div_small b), Z.add_0_l by lia. by rewrite IH.
Qed.

Lemma le_bytes_is_byte n x : Forall is_byte (le_bytes n x).
Proof.
  revert x. induction n; intros; simpl; constructor; auto.
  apply Z.mod_pos_bound. lia.
Qed.

(** Load and store an [n]-byte unsigned integer at byte offset [i]. *)
Definition load_le (l : list Z) (i n : nat) : Z := le_num (slice l i n).
Definition store_le (l : list Z) (i n : nat) (x : Z) : list Z := splice l i (le_bytes n x).

Section load_store.
Local Open Scope nat_scope.
Implicit Types (l : list Z) (i j n m : nat).

Lemma length_store_le l i n x : i + n <= length l -> length (store_le l i n x) = length l.
Proof. intros. unfold store_le. apply length_splice. by rewrite length_le_bytes. Qed.

Lemma load_store_eq l i n x :
  i + n <= length l -> load_le (store_le l i n x) i n = Z.modulo x (256 ^ Z.of_nat n).
Proof.
  intros. unfold load_le, store_le. rewrite <- (length_le_bytes n x) at 2.
  rewrite slice_splice by (rewrite length_le_bytes; lia). apply le_num_bytes.
Qed.

Lemma load_store_ne l i n x j m :
  i + n <= length l -> j + m <= i \/ i + n <= j ->
  load_le (store_le l i n x) j m = load_le l j m.
Proof.
  intros. unfold load_le, store_le. f_equal.
  apply slice_splice_disjoint; rewrite ?length_le_bytes; lia.
Qed.
End load_store.

(** ** Table scans

    [for(p = table; p < &table[N]; p++) if(cond(p)) goto found;] is stdpp's
    [list_find]: the index and value of the first entry that satisfies the
    condition.  These are its two faces for boolean conditions. *)

Definition scan {A} (P : A -> bool) (l : list A) : option (nat * A) :=
  list_find (fun x => Is_true (P x)) l.

Lemma scan_Some {A} (P : A -> bool) l i x :
  scan P l = Some (i, x) <->
  l !! i = Some x /\ P x = true /\
  (forall j y, l !! j = Some y -> (j < i)%nat -> P y = false).
Proof.
  unfold scan. rewrite list_find_Some. split; intros (H1 & H2 & H3); (split; [done|split; [by apply Is_true_true|]]).
  - intros j y Hj Hlt. apply not_true_is_false. rewrite <- Is_true_true. eauto.
  - intros j y Hj Hlt. rewrite Is_true_true. rewrite (H3 j y Hj Hlt). done.
Qed.

Lemma scan_None {A} (P : A -> bool) l :
  scan P l = None <-> (forall j y, l !! j = Some y -> P y = false).
Proof.
  unfold scan. rewrite list_find_None, Forall_lookup. split.
  - intros H j y Hj. apply not_true_is_false. rewrite <- Is_true_true. eauto.
  - intros H j y Hj. rewrite Is_true_true. by rewrite (H j y Hj).
Qed.

(** A finite check. *)
Lemma every (n : Z) (P : Z -> bool) : forallb P (seqZ 0 n) = true -> forall b, 0 <= b < n -> P b = true.
Proof. intros H b Hb. rewrite forallb_forall in H. apply H, list_elem_of_In, elem_of_seqZ. lia. Qed.

Lemma scan_lt {A} (P : A -> bool) l i x : scan P l = Some (i, x) -> (i < length l)%nat.
Proof. intros (H & _ & _)%scan_Some. by eapply lookup_lt_Some. Qed.

Lemma filter_all {A} (P : A -> Prop) `{!forall x, Decision (P x)} (l : list A) :
  Forall P l -> filter P l = l.
Proof.
  induction 1 as [|x l Hx _ IH]; [done|]. rewrite filter_cons_True by done. by f_equal.
Qed.

(** A list update touches one index. *)
Lemma list_insert_inv {A} (l : list A) i x j y :
  <[i := x]> l !! j = Some y -> (j = i /\ y = x) \/ (j <> i /\ l !! j = Some y).
Proof.
  intros H. apply list_lookup_insert_Some in H as [(-> & -> & _)|(Hne & H)]; auto.
Qed.

(** A pass over a whole table, each entry rewritten with its index. *)
Lemma lookup_imap_Some {A B} (f : nat -> A -> B) l i y :
  imap f l !! i = Some y <-> exists x, l !! i = Some x /\ y = f i x.
Proof.
  rewrite list_lookup_imap. destruct (l !! i) as [x|]; simpl; split.
  - intros [= <-]. eauto.
  - intros (? & [= <-] & ->). done.
  - done.
  - intros (? & ? & ?). done.
Qed.

(** ** Bits and flags *)

Definition has (flags bit : Z) : bool := negb (Z.land flags bit =? 0).
Definition setf (flags bit : Z) : Z := Z.lor flags bit.
Definition clrf (flags bit : Z) : Z := Z.ldiff flags bit.

Lemma has_pow2 x n : 0 <= n -> has x (2 ^ n) = Z.testbit x n.
Proof.
  intros Hn. unfold has. destruct (Z.testbit x n) eqn:E.
  - apply negb_true_iff, Z.eqb_neq. intros H.
    assert (Z.testbit (Z.land x (2 ^ n)) n = true) as Ht.
    { rewrite Z.land_spec, E, Z.pow2_bits_true by lia. done. }
    rewrite H, Z.bits_0 in Ht. done.
  - apply negb_false_iff, Z.eqb_eq. apply Z.bits_inj'. intros m Hm.
    rewrite Z.land_spec, Z.bits_0, Z.pow2_bits_eqb by lia.
    destruct (Z.eqb_spec n m) as [->|]; [by rewrite E|apply andb_false_r].
Qed.

Lemma has_setf x n m : 0 <= n -> 0 <= m ->
  has (setf x (2 ^ n)) (2 ^ m) = (n =? m) || has x (2 ^ m).
Proof.
  intros. rewrite !has_pow2 by lia. unfold setf.
  rewrite Z.lor_spec, Z.pow2_bits_eqb by lia. apply orb_comm.
Qed.

Lemma has_clrf x n m : 0 <= n -> 0 <= m ->
  has (clrf x (2 ^ n)) (2 ^ m) = negb (n =? m) && has x (2 ^ m).
Proof.
  intros. rewrite !has_pow2 by lia. unfold clrf.
  rewrite Z.ldiff_spec, Z.pow2_bits_eqb by lia. apply andb_comm.
Qed.

Lemma land_pow2 x n : 0 <= n -> Z.land x (2 ^ n) = if has x (2 ^ n) then 2 ^ n else 0.
Proof.
  intros Hn. rewrite has_pow2 by done. apply Z.bits_inj'. intros m Hm.
  rewrite Z.land_spec, Z.pow2_bits_eqb by lia. destruct (Z.eqb_spec n m) as [->|Hne].
  - rewrite andb_true_r. destruct (Z.testbit x m); [|by rewrite Z.bits_0].
    by rewrite Z.pow2_bits_true.
  - rewrite andb_false_r. destruct (Z.testbit x n); [|by rewrite Z.bits_0].
    by rewrite Z.pow2_bits_false.
Qed.
