(* ===== verification/CString.v ===== *)
(** The kernel's memory and string routines ([string.c]) and the user
    library's counterparts ([ulib.c], [user_string.c]).

    Memory is one byte array; a pointer is an index into it and an access
    outside the array is a fault ([None]).  Source and destination of the
    copying routines therefore may overlap, as in C. *)

From S2P Require Import Prelude.
Local Open Scope nat_scope.

Abbreviation mem := (list Z).

Definition store (m : mem) (p : nat) (v : Z) : option mem :=
  if decide (p < length m) then Some (<[p := v]> m) else None.

(** ** Kernel: [string.c] *)
Module Kernel.

(** [rep stosl]: store the 32-bit word [w] at [p], [k] times. *)
Fixpoint stosl (m : mem) (p : nat) (w : Z) (k : nat) : option mem :=
  match k with
  | O => Some m
  | S k' =>
    if decide (p + 4 <= length m)
    then stosl (splice m p (le_bytes 4 w)) (p + 4) w k'
    else None
  end.

(** [rep stosb]: store the low byte of [c] at [p], [k] times. *)
Fixpoint stosb (m : mem) (p : nat) (c : Z) (k : nat) : option mem :=
  match k with
  | O => Some m
  | S k' => m' ← store m p (u8 c); stosb m' (S p) c k'
  end.

Definition memset (m : mem) (dst : nat) (c : Z) (n : nat) : option mem :=
  if (dst mod 4 =? 0) && (n mod 4 =? 0)
  then let c := Z.land c 255 in
       stosl m dst
         (Z.lor (Z.lor (Z.lor (Z.shiftl c 24) (Z.shiftl c 16)) (Z.shiftl c 8)) c)
         (n / 4)
  else stosb m dst c n.

Fixpoint memcmp_loop (s1 s2 : list Z) (n : nat) {struct n} : option Z :=
  match n with
  | O => Some 0%Z
  | S n' =>
    match s1, s2 with
    | a :: s1', b :: s2' =>
      if (a =? b)%Z then memcmp_loop s1' s2' n' else Some (a - b)%Z
    | _, _ => None
    end
  end.

Definition memcmp (m : mem) (v1 v2 n : nat) : option Z :=
  memcmp_loop (drop v1 m) (drop v2 m) n.

(** The forward loop [*d++ = *s++]. *)
Fixpoint copy_fwd (m : mem) (d s n : nat) : option mem :=
  match n with
  | O => Some m
  | S n' => c ← m !! s; m' ← store m d c; copy_fwd m' (S d) (S s) n'
  end.

(** The backward loop [*--d = *--s]. *)
Fixpoint copy_bwd (m : mem) (d s n : nat) : option mem :=
  match n with
  | O => Some m
  | S n' =>
    c ← m !! pred s; m' ← store m (pred d) c; copy_bwd m' (pred d) (pred s) n'
  end.

Definition memmove (m : mem) (dst src n : nat) : option mem :=
  if (src <? dst) && (dst <? src + n)
  then copy_bwd m (dst + n) (src + n) n
  else copy_fwd m dst src n.

Definition memcpy (m : mem) (dst src n : nat) : option mem := memmove m dst src n.

Fixpoint strncmp_loop (p q : list Z) (n : nat) {struct n} : option Z :=
  match n with
  | O => Some 0%Z
  | S n' =>
    match p, q with
    | a :: p', b :: q' =>
      if negb (a =? 0)%Z && (a =? b)%Z then strncmp_loop p' q' n' else Some (a - b)%Z
    | _, _ => None
    end
  end.

Definition strncmp (m : mem) (p q n : nat) : option Z :=
  strncmp_loop (drop p m) (drop q m) n.

(** [while(n-- > 0) *s++ = 0;] *)
Fixpoint zfill (m : mem) (s n : nat) : option mem :=
  match n with
  | O => Some m
  | S n' => m' ← store m s 0%Z; zfill m' (S s) n'
  end.

Fixpoint strncpy (m : mem) (s t n : nat) : option mem :=
  match n with
  | O => Some m
  | S n' =>
    c ← m !! t; m' ← store m s c;
    if (c =? 0)%Z then zfill m' (S s) n' else strncpy m' (S s) (S t) n'
  end.

(** The copying loop of [safestrcpy] and its final store of NUL, with [n]
    already decremented once by the caller. *)
Fixpoint safestrcpy_loop (m : mem) (s t n : nat) : option mem :=
  match n with
  | O => store m s 0%Z
  | S n' =>
    c ← m !! t; m' ← store m s c;
    if (c =? 0)%Z then store m' (S s) 0%Z else safestrcpy_loop m' (S s) (S t) n'
  end.

Definition safestrcpy (m : mem) (s t : nat) (n : Z) : option mem :=
  if (n <=? 0)%Z then Some m else safestrcpy_loop m s t (pred (Z.to_nat n)).

Fixpoint strcmp_loop (p q : list Z) : option Z :=
  match p, q with
  | a :: p', b :: q' =>
    if negb (a =? 0)%Z && (a =? b)%Z then strcmp_loop p' q' else Some (a - b)%Z
  | _, _ => None
  end.

Definition strcmp (m : mem) (p q : nat) : option Z :=
  strcmp_loop (drop p m) (drop q m).

Fixpoint strlen_loop (s : list Z) : option nat :=
  match s with
  | [] => None
  | c :: s' => if (c =? 0)%Z then Some 0 else S <$> strlen_loop s'
  end.

Definition strlen (m : mem) (s : nat) : option nat := strlen_loop (drop s m).

End Kernel.

(** ** User library: [ulib.c], [user_string.c] *)
Module User.

(** [for(i = 0; i < n; i++) *(bf+i) = (char)c;] *)
Fixpoint memset_loop (m : mem) (dst : nat) (c : Z) (i n : nat) : option mem :=
  match n with
  | O => Some m
  | S n' => m' ← store m (dst + i) (u8 c); memset_loop m' dst c (S i) n'
  end.
Definition memset (m : mem) (dst : nat) (c : Z) (n : nat) : option mem :=
  memset_loop m dst c 0 n.

(** [for(int i = 0; i < n; i++) *(pdst+i) = *(psrc+i);] *)
Fixpoint memmove_loop (m : mem) (dst src i n : nat) : option mem :=
  match n with
  | O => Some m
  | S n' =>
    c ← m !! (src + i); m' ← store m (dst + i) c; memmove_loop m' dst src (S i) n'
  end.
Definition memmove (m : mem) (dst src n : nat) : option mem :=
  memmove_loop m dst src 0 n.

Fixpoint strcpy_loop (m : mem) (s t : nat) (fuel : nat) : option mem :=
  match fuel with
  | O => None
  | S fuel' =>
    c ← m !! t; m' ← store m s c;
    if (c =? 0)%Z then Some m' else strcpy_loop m' (S s) (S t) fuel'
  end.
(** Each iteration advances [s], which faults at the end of memory. *)
Definition strcpy (m : mem) (s t : nat) : option mem := strcpy_loop m s t (S (length m)).

Fixpoint strchr_loop (s : list Z) (p : nat) (c : Z) : option (option nat) :=
  match s with
  | [] => None
  | x :: s' =>
    if (x =? 0)%Z then Some None
    else if (x =? c)%Z then Some (Some p) else strchr_loop s' (S p) c
  end.
Definition strchr (m : mem) (s : nat) (c : Z) : option (option nat) :=
  strchr_loop (drop s m) s c.

(** [while('0' <= *s && *s <= '9') n = n*10 + *s++ - '0';] *)
Fixpoint atoi_loop (s : list Z) (n : Z) : option Z :=
  match s with
  | [] => None
  | c :: s' =>
    if (48 <=? s8 c)%Z && (s8 c <=? 57)%Z
    then atoi_loop s' (s32 (n * 10 + s8 c - 48))
    else Some n
  end.
Definition atoi (m : mem) (s : nat) : option Z := atoi_loop (drop s m) 0%Z.

Definition digit_lower (d : Z) : Z := if (d <? 10)%Z then (48 + d)%Z else (87 + d)%Z.

(** [while(d){ *--se = "0123456789abcdef"[d%base]; d = d/base; }] on the
    scratch buffer; the result is the text written, first digit first. *)
Fixpoint itoa_loop (fuel : nat) (d base : Z) (acc : list Z) : list Z :=
  match fuel with
  | O => acc
  | S f =>
    if (d =? 0)%Z then acc
    else itoa_loop f (d / base) base (digit_lower (d mod base) :: acc)
  end.
(** [u64int] is [unsigned long], 32 bits wide on this target: at most 32
    iterations.  The zero test precedes the test of the base. *)
Definition itoa (d base : Z) : option (list Z) :=
  let d := u32 d in
  if (d =? 0)%Z then Some [48%Z]
  else if negb (base =? 10)%Z && negb (base =? 16)%Z then None
  else Some (itoa_loop 32 d base []).

(** These are the kernel's routines word for word. *)
Definition memcmp (m : mem) (v1 v2 n : nat) : option Z := Kernel.memcmp m v1 v2 n.
Definition strncmp (m : mem) (p q n : nat) : option Z := Kernel.strncmp m p q n.
Definition strncpy (m : mem) (s t n : nat) : option mem := Kernel.strncpy m s t n.
Definition strlcpy (m : mem) (s t : nat) (n : Z) : option mem := Kernel.safestrcpy m s t n.
Definition strcmp (m : mem) (p q : nat) : option Z := Kernel.strcmp m p q.
Definition strlen (m : mem) (s : nat) : option nat := Kernel.strlen m s.
Definition memcpy (m : mem) (dst src n : nat) : option mem := memmove m dst src n.

End User.

(** ** Specifications *)

(** The NUL-terminated string at [p]. *)
Definition cstr_at (m : mem) (p : nat) (s : list Z) : Prop :=
  Forall (fun c => c <> 0%Z) s /\ exists rest, drop p m = s ++ 0%Z :: rest.

Lemma store_Some m p v : p < length m -> store m p v = Some (<[p := v]> m).
Proof. intros. unfold store. by rewrite decide_True. Qed.

Lemma store_splice m p v : p < length m -> store m p v = Some (splice m p [v]).
Proof.
  intros H. rewrite store_Some by done. f_equal. unfold splice. simpl.
  replace (p + 1) with (S p) by lia. by rewrite insert_take_drop.
Qed.

Lemma lookup_slice_Some (m : mem) s n j x :
  slice m s n !! j = Some x -> j < n /\ m !! (s + j) = Some x.
Proof.
  intros H. destruct (decide (j < n)).
  - split; [done|]. by rewrite lookup_slice in H.
  - by rewrite lookup_slice_ge in H by lia.
Qed.

Lemma slice_S (m : mem) s n c : m !! s = Some c -> slice m s (S n) = c :: slice m (S s) n.
Proof. intros H. unfold slice. by rewrite (drop_S _ _ _ H). Qed.

(** Writing [c] and then [v] right after it is writing [c :: v]. *)
Lemma splice_cons (m : mem) d c v :
  d + S (length v) <= length m -> splice (<[d := c]> m) (S d) v = splice m d (c :: v).
Proof.
  intros. apply list_eq. intros j.
  assert (length (<[d:=c]> m) = length m) by apply length_insert.
  destruct (decide (j = d)) as [->|].
  { rewrite lookup_splice_out by lia. rewrite list_lookup_insert_eq by lia.
    rewrite lookup_splice_in by (simpl; lia). by rewrite Nat.sub_diag. }
  destruct (decide (S d <= j < S d + length v)).
  - rewrite !lookup_splice_in by (simpl; lia).
    replace (j - d) with (S (j - S d)) by lia. done.
  - rewrite !lookup_splice_out by (simpl; lia). by rewrite list_lookup_insert_ne by lia.
Qed.

Lemma splice_app (m : mem) d v w :
  d + length v + length w <= length m ->
  splice (splice m d v) (d + length v) w = splice m d (v ++ w).
Proof.
  intros. apply list_eq. intros j.
  pose proof (length_splice m d v ltac:(lia)).
  destruct (decide (d <= j < d + length v)).
  { rewrite lookup_splice_out, !lookup_splice_in by (rewrite ?length_app; lia).
    by rewrite lookup_app_l by lia. }
  destruct (decide (d + length v <= j < d + length v + length w)).
  - rewrite !lookup_splice_in by (rewrite ?length_app; lia).
    rewrite lookup_app_r by lia. f_equal; lia.
  - by rewrite !lookup_splice_out by (rewrite ?length_app; lia).
Qed.

Lemma stosb_spec m p c k :
  p + k <= length m -> Kernel.stosb m p c k = Some (splice m p (replicate k (u8 c))).
Proof.
  revert m p. induction k as [|k IH]; intros m p H; simpl.
  { by rewrite splice_nil. }
  rewrite store_Some by lia. simpl. rewrite IH by (rewrite length_insert; lia).
  by rewrite splice_cons by (rewrite length_replicate; lia).
Qed.

Lemma stosl_spec m p w k :
  p + 4 * k <= length m ->
  Kernel.stosl m p w k = Some (splice m p (concat (replicate k (le_bytes 4 w)))).
Proof.
  revert m p. induction k as [|k IH]; intros m p H; cbn [Kernel.stosl].
  { cbn. by rewrite splice_nil. }
  rewrite decide_True by lia.
  rewrite IH by (rewrite length_splice; rewrite ?length_le_bytes; lia).
  rewrite replicate_S; cbn [concat]; f_equal.
  assert (length (concat (replicate k (le_bytes 4 w))) = 4 * k) as Hl.
  { clear. induction k as [|k IHk]; [done|].
    rewrite replicate_S; cbn [concat]; rewrite length_app, IHk, length_le_bytes. lia. }
  pose proof (length_le_bytes 4 w) as H4. rewrite <- H4 at 1.
  apply splice_app. lia.
Qed.

(** The word [memset] builds repeats the byte four times. *)
Lemma lor_shiftl_add x y k :
  (0 <= k -> 0 <= y < 2 ^ k -> Z.lor (Z.shiftl x k) y = x * 2 ^ k + y)%Z.
Proof.
  intros Hk Hy. rewrite <- Z.shiftl_mul_pow2 by lia.
  assert (Z.land (Z.shiftl x k) y = 0)%Z as Hl.
  { apply Z.bits_inj'. intros n Hn. rewrite Z.land_spec, Z.bits_0.
    destruct (Z.ltb_spec n k).
    - by rewrite Z.shiftl_spec_low.
    - rewrite <- (Z.mod_small y (2 ^ k)) by lia.
      rewrite Z.mod_pow2_bits_high by lia. apply andb_false_r. }
  rewrite Z.add_nocarry_lxor, Z.lxor_lor by done. done.
Qed.

Lemma memset_word c :
  let b := Z.land c 255 in
  le_bytes 4 (Z.lor (Z.lor (Z.lor (Z.shiftl b 24) (Z.shiftl b 16)) (Z.shiftl b 8)) b)
  = replicate 4 (u8 c).
Proof.
  cbv zeta. change 255%Z with (Z.ones 8). rewrite Z.land_ones by lia.
  fold (u8 c). pose proof (u8_range c) as Hb. generalize dependent (u8 c).
  intros b Hb. rewrite <- !Z.lor_assoc.
  rewrite (lor_shiftl_add b b 8), (lor_shiftl_add b _ 16), (lor_shiftl_add b _ 24) by lia.
  cbn [le_bytes replicate]. repeat f_equal; dlia.
Qed.

(** [memset] stores the low byte of [c] in the [n] bytes at [dst] and
    changes nothing else, whether it takes the word-at-a-time path (aligned
    destination and length) or the byte path. *)
Theorem memset_correct m dst c n :
  dst + n <= length m ->
  Kernel.memset m dst c n = Some (splice m dst (replicate n (u8 c))).
Proof.
  intros H. unfold Kernel.memset. destruct (_ && _) eqn:E.
  - apply andb_true_iff in E as [_ E%Nat.eqb_eq].
    pose proof (Nat.div_mod_eq n 4) as Hn.
    rewrite stosl_spec by lia. f_equal. f_equal.
    rewrite memset_word, E, Nat.add_0_r in *. set (k := n / 4) in *. clearbody k. subst n.
    clear. induction k as [|k IH]; [done|].
    rewrite replicate_S; cbn [concat]. rewrite IH, <- replicate_add. f_equal. lia.
  - by apply stosb_spec.
Qed.
Example memset_correct_witness :
  4 + 8 <= length (replicate 16 7%Z) /\
  Kernel.memset (replicate 16 7%Z) 4 258 8
  = Some (splice (replicate 16 7%Z) 4 (replicate 8 (u8 258))).
Proof. split; [simpl; lia|apply memset_correct; simpl; lia]. Defined.

Lemma copy_fwd_spec m d s n :
  d + n <= length m -> s + n <= length m -> d <= s \/ s + n <= d ->
  Kernel.copy_fwd m d s n = Some (splice m d (slice m s n)).
Proof.
  revert m d s. induction n as [|n IH]; intros m d s Hd Hs Hov; simpl.
  { unfold slice. by rewrite take_0, splice_nil. }
  destruct (lookup_lt_is_Some_2 m s) as [c Hc]; [lia|].
  rewrite Hc. simpl. rewrite store_Some by lia. simpl.
  rewrite IH by (rewrite ?length_insert; lia).
  rewrite (slice_S m s n c Hc). f_equal.
  assert (slice (<[d:=c]> m) (S s) n = slice m (S s) n) as ->.
  { unfold slice. apply list_eq. intros j. destruct (decide (j < n)).
    - rewrite !lookup_take_lt, !lookup_drop by lia. rewrite list_lookup_insert_ne by lia. done.
    - by rewrite !lookup_take_ge by lia. }
  apply splice_cons. rewrite length_slice by lia. lia.
Qed.

Lemma copy_bwd_spec m d s n :
  d + n <= length m -> s + n <= length m -> s <= d ->
  Kernel.copy_bwd m (d + n) (s + n) n = Some (splice m d (slice m s n)).
Proof.
  revert m. induction n as [|n IH]; intros m Hd Hs Hov; simpl.
  { unfold slice. by rewrite take_0, splice_nil. }
  replace (pred (s + S n)) with (s + n) by lia.
  replace (pred (d + S n)) with (d + n) by lia.
  destruct (lookup_lt_is_Some_2 m (s + n)) as [c Hc]; [lia|].
  rewrite Hc. simpl. rewrite store_Some by lia. simpl.
  rewrite IH by (rewrite ?length_insert; lia). f_equal.
  assert (length (<[d + n:=c]> m) = length m) by apply length_insert.
  pose proof (length_slice m s (S n)). pose proof (length_slice (<[d + n:=c]> m) s n).
  apply list_eq. intros j. destruct (decide (d <= j < d + n)).
  { rewrite !lookup_splice_in by lia. rewrite !lookup_slice by lia.
    by rewrite list_lookup_insert_ne by lia. }
  rewrite lookup_splice_out by lia. destruct (decide (j = d + n)) as [->|].
  - rewrite list_lookup_insert_eq by lia. rewrite lookup_splice_in by lia.
    rewrite lookup_slice by lia. rewrite <- Hc. f_equal; lia.
  - rewrite lookup_splice_out by lia. by rewrite list_lookup_insert_ne by lia.
Qed.

Lemma memmove_spec m dst src n :
  dst + n <= length m -> src + n <= length m ->
  Kernel.memmove m dst src n = Some (splice m dst (slice m src n)).
Proof.
  intros. unfold Kernel.memmove. destruct (_ && _) eqn:E.
  - apply andb_true_iff in E as [?%Nat.ltb_lt ?%Nat.ltb_lt]. by apply copy_bwd_spec; lia.
  - apply andb_false_iff in E as [?%Nat.ltb_ge|?%Nat.ltb_ge]; apply copy_fwd_spec; lia.
Qed.

(** [memmove] copies the [n] bytes at [src] to [dst] for every overlap of
    the two regions: byte [i] of the destination ends up holding what byte [i]
    of the source held before the call, and no other byte changes. *)
Theorem memmove_correct m dst src n :
  dst + n <= length m -> src + n <= length m ->
  exists m', Kernel.memmove m dst src n = Some m' /\ length m' = length m /\
    (forall i, i < n -> m' !! (dst + i) = m !! (src + i)) /\
    (forall j, j < dst \/ dst + n <= j -> m' !! j = m !! j).
Proof.
  intros. pose proof (length_slice m src n ltac:(lia)) as Hl.
  eexists. split; [by apply memmove_spec|]. split; [apply length_splice; lia|]. split.
  - intros i Hi. rewrite lookup_splice_in by lia.
    replace (dst + i - dst) with i by lia. by apply lookup_slice.
  - intros j Hj. apply lookup_splice_out; lia.
Qed.
Lemma memmove_correct_witness :
  exists m', Kernel.memmove [1;2;3;4;5;6]%Z 2 1 3 = Some m' /\ length m' = 6 /\
    (forall i, i < 3 -> m' !! (2 + i) = [1;2;3;4;5;6]%Z !! (1 + i)) /\
    (forall j, j < 2 \/ 2 + 3 <= j -> m' !! j = [1;2;3;4;5;6]%Z !! j).
Proof. apply (memmove_correct [1;2;3;4;5;6]%Z 2 1 3); simpl; lia. Defined.

(** The user library's [memmove] only ever copies forward. *)
Lemma user_memmove_fwd m dst src i n :
  User.memmove_loop m dst src i n = Kernel.copy_fwd m (dst + i) (src + i) n.
Proof.
  revert m i. induction n as [|n IH]; intros m i; simpl; [done|].
  destruct (m !! (src + i)); simpl; [|done]. destruct (store m (dst + i) z); simpl; [|done].
  rewrite IH. f_equal; lia.
Qed.

(** The user library's [memmove] agrees with the kernel's exactly as long
    as the destination does not start inside the source. *)
Theorem user_memmove_agrees m dst src n :
  dst + n <= length m -> src + n <= length m -> dst <= src \/ src + n <= dst ->
  User.memmove m dst src n = Kernel.memmove m dst src n.
Proof.
  intros. rewrite memmove_spec by lia. unfold User.memmove.
  rewrite user_memmove_fwd, !Nat.add_0_r. by apply copy_fwd_spec.
Qed.
Example user_memmove_agrees_witness :
  User.memmove [1;2;3;4;5;6]%Z 1 2 3 = Kernel.memmove [1;2;3;4;5;6]%Z 1 2 3.
Proof. apply user_memmove_agrees; simpl; lia. Defined.

(** When the destination starts inside the source the forward copy reads bytes
    it has already overwritten. *)
Example user_memmove_overlap :
  User.memmove [1;2;3;4;5;6]%Z 1 0 4 = Some [1;1;1;1;1;6]%Z /\
  Kernel.memmove [1;2;3;4;5;6]%Z 1 0 4 = Some [1;1;2;3;4;6]%Z.
Proof. split; reflexivity. Qed.

(** ** Strings *)

(** The text of a fixed-size field: the bytes before the first NUL. *)
Fixpoint until0 (l : list Z) : list Z :=
  match l with
  | [] => []
  | c :: l' => if (c =? 0)%Z then [] else c :: until0 l'
  end.

Lemma until0_app s rest : Forall (fun c => c <> 0%Z) s -> until0 (s ++ 0%Z :: rest) = s.
Proof.
  induction 1 as [|c s Hc _ IH]; [done|]. simpl.
  rewrite (proj2 (Z.eqb_neq c 0) Hc). by f_equal.
Qed.

Lemma until0_nonzero l : Forall (fun c => c <> 0%Z) (until0 l).
Proof.
  induction l as [|c l IH]; simpl; [constructor|].
  destruct (Z.eqb_spec c 0); by constructor.
Qed.

(** [strlen] is total on a terminated string and returns its length. *)
Theorem strlen_correct m p s : cstr_at m p s -> Kernel.strlen m p = Some (length s).
Proof.
  intros (Hnz & rest & Hd). unfold Kernel.strlen. rewrite Hd. clear Hd.
  induction Hnz as [|c s Hc _ IH]; [done|]. simpl.
  rewrite (proj2 (Z.eqb_neq c 0) Hc), IH. done.
Qed.
Lemma strlen_correct_witness : Kernel.strlen [9; 104; 105; 0; 7]%Z 1 = Some 2.
Proof.
  apply (strlen_correct _ 1 [104; 105]%Z). split; [repeat constructor; done|].
  exists [7%Z]. done.
Defined.

Lemma strncmp_loop_zero n : forall p q,
  n <= length p -> n <= length q ->
  exists r, Kernel.strncmp_loop p q n = Some r /\
    (r = 0%Z <-> until0 (take n p) = until0 (take n q)).
Proof.
  induction n as [|n IH]; intros p q Hp Hq; simpl.
  { exists 0%Z. done. }
  destruct p as [|a p], q as [|b q]; simpl in *; try lia.
  destruct (Z.eqb_spec a 0) as [->|Ha]; simpl.
  { exists (0 - b)%Z. split; [done|]. destruct (Z.eqb_spec b 0); simpl; split; try lia; done. }
  destruct (Z.eqb_spec a b) as [->|Hab]; simpl.
  - destruct (IH p q) as (r & -> & Hr); [lia..|]. exists r. split; [done|].
    rewrite Hr, (proj2 (Z.eqb_neq b 0) Ha). split; [intros ->; done|by intros [= ->]].
  - exists (a - b)%Z. split; [done|].
    destruct (Z.eqb_spec b 0); split; intros; simplify_eq; lia.
Qed.

(** [strncmp] over fields of at least [n] bytes always returns, and
    returns 0 exactly when the two fields hold the same text: the bytes before
    the first NUL among the first [n], with no terminator required. *)
Theorem strncmp_zero m p q n :
  p + n <= length m -> q + n <= length m ->
  exists r, Kernel.strncmp m p q n = Some r /\
    (r = 0%Z <-> until0 (slice m p n) = until0 (slice m q n)).
Proof.
  intros Hp Hq. apply strncmp_loop_zero; rewrite length_drop; lia.
Qed.
Example strncmp_zero_witness :
  exists r, Kernel.strncmp [97;98;0;1;97;98;0;2]%Z 0 4 4 = Some r /\
    (r = 0%Z <-> until0 (slice [97;98;0;1;97;98;0;2]%Z 0 4)
               = until0 (slice [97;98;0;1;97;98;0;2]%Z 4 4)).
Proof. apply strncmp_zero; simpl; lia. Defined.

Lemma zfill_spec m s n :
  s + n <= length m -> Kernel.zfill m s n = Some (splice m s (replicate n 0%Z)).
Proof.
  revert m s. induction n as [|n IH]; intros m s H; simpl.
  { by rewrite splice_nil. }
  rewrite store_Some by lia. simpl. rewrite IH by (rewrite length_insert; lia).
  by rewrite splice_cons by (rewrite length_replicate; lia).
Qed.

(** A string that lies outside the byte just written is still there. *)
Lemma cstr_at_cons m p c s :
  cstr_at m p (c :: s) -> m !! p = Some c /\ c <> 0%Z /\ cstr_at m (S p) s.
Proof.
  intros (Hnz & rest & Hd). apply Forall_cons_iff in Hnz as [Hc Hs]. split; [|split; [done|]].
  - rewrite <- (Nat.add_0_r p), <- lookup_drop, Hd. done.
  - split; [done|]. exists rest. replace (S p) with (p + 1) by lia.
    rewrite <- drop_drop, Hd. done.
Qed.
Lemma cstr_at_nil m p : cstr_at m p [] -> m !! p = Some 0%Z.
Proof.
  intros (_ & rest & Hd). rewrite <- (Nat.add_0_r p), <- lookup_drop, Hd. done.
Qed.
Lemma cstr_at_insert m p s d v :
  d < p \/ p + length s < d -> cstr_at m p s -> cstr_at (<[d := v]> m) p s.
Proof.
  intros Hd (Hnz & rest & Hr). split; [done|].
  destruct Hd as [Hd|Hd].
  - exists rest. by rewrite drop_insert_lt.
  - exists (<[d - p - length s - 1 := v]> rest).
    rewrite drop_insert_ge by lia. rewrite Hr.
    rewrite insert_app_r_alt by lia. f_equal.
    destruct (d - p - length s) as [|k] eqn:E; [lia|]. simpl. do 2 f_equal. lia.
Qed.
Lemma cstr_at_length m p s : cstr_at m p s -> p + length s < length m.
Proof.
  intros (_ & rest & Hd). apply (f_equal length) in Hd.
  rewrite length_drop, length_app in Hd. simpl in Hd. lia.
Qed.

(** [strncpy] fills the [n]-byte destination with the first [n] bytes of
    the source string and pads it with NULs, when the two do not overlap; the
    result is unterminated exactly when the string has [n] bytes or more. *)
Theorem strncpy_correct m d p s n :
  cstr_at m p s -> d + n <= length m -> d + n <= p \/ p + length s < d ->
  Kernel.strncpy m d p n = Some (splice m d (take n (s ++ replicate n 0%Z))).
Proof.
  revert m d p s. induction n as [|n IH]; intros m d p s Hs Hd Hov; simpl.
  { cbn. rewrite take_0. by rewrite splice_nil. }
  destruct s as [|c s].
  - rewrite (cstr_at_nil _ _ Hs). simpl. rewrite store_Some by lia. simpl.
    rewrite zfill_spec by (rewrite length_insert; lia).
    rewrite splice_cons by (rewrite length_replicate; lia).
    rewrite take_ge by (rewrite length_replicate; lia). done.
  - apply cstr_at_cons in Hs as (Hc & Hnz & Hs). rewrite Hc. simpl.
    rewrite store_Some by lia. simpl. rewrite (proj2 (Z.eqb_neq c 0) Hnz). simpl in Hov.
    rewrite (IH _ (S d) (S p) s); [|apply cstr_at_insert; [lia|done]|rewrite length_insert; lia|lia].
    rewrite splice_cons by (rewrite length_take; lia). do 3 f_equal.
    change (0%Z :: replicate n 0%Z) with (replicate (S n) 0%Z).
    rewrite replicate_S_end, app_assoc.
    rewrite (take_app_le _ [0%Z]) by (rewrite length_app, length_replicate; lia). done.
Qed.
Lemma strncpy_correct_witness :
  Kernel.strncpy [104;105;0;9;9;9;9]%Z 3 0 4
  = Some (splice [104;105;0;9;9;9;9]%Z 3 (take 4 ([104;105]%Z ++ replicate 4 0%Z))).
Proof.
  apply strncpy_correct; simpl; [|lia..].
  split; [repeat constructor; done|]. exists [9;9;9;9]%Z. done.
Defined.

Lemma until0_take_cons c n l : c <> 0%Z -> until0 (take (S n) (c :: l)) = c :: until0 (take n l).
Proof. intros Hc. simpl. by rewrite (proj2 (Z.eqb_neq c 0) Hc). Qed.

Lemma safestrcpy_loop_spec m d p s n :
  cstr_at m p s -> d + S n <= length m -> d + S n <= p \/ p + length s < d ->
  exists m', Kernel.safestrcpy_loop m d p n = Some m' /\ length m' = length m /\
    cstr_at m' d (take n s) /\
    (forall j, j < d \/ d + S n <= j -> m' !! j = m !! j).
Proof.
  revert m d p s. induction n as [|n IH]; intros m d p s Hs Hd Hov; simpl.
  { rewrite store_Some by lia. eexists. split; [done|]. rewrite length_insert.
    split; [done|]. split.
    - split; [constructor|]. eexists. apply drop_S.
      by rewrite list_lookup_insert_eq by lia.
    - intros j Hj. by rewrite list_lookup_insert_ne by lia. }
  destruct s as [|c s].
  - rewrite (cstr_at_nil _ _ Hs). simpl. rewrite store_Some by lia. simpl.
    rewrite store_Some by (rewrite length_insert; lia).
    eexists. split; [done|]. rewrite !length_insert. split; [done|]. split.
    + split; [constructor|]. eexists. apply drop_S.
      rewrite list_lookup_insert_ne by lia. by rewrite list_lookup_insert_eq by lia.
    + intros j Hj. by rewrite !list_lookup_insert_ne by lia.
  - apply cstr_at_cons in Hs as (Hc & Hnz & Hs). rewrite Hc. simpl.
    rewrite store_Some by lia. simpl. rewrite (proj2 (Z.eqb_neq c 0) Hnz). simpl in Hov.
    destruct (IH (<[d:=c]> m) (S d) (S p) s) as (m' & -> & Hl & (Hz & rest & Hr) & Ho);
      [apply cstr_at_insert; [lia|done]|rewrite length_insert; lia|lia|].
    eexists. split; [done|]. rewrite length_insert in Hl. split; [done|]. split.
    + split; [by constructor|]. exists rest. simpl. rewrite <- Hr. apply drop_S.
      rewrite Ho by lia. by rewrite list_lookup_insert_eq by lia.
    + intros j Hj. rewrite Ho by lia. by rewrite list_lookup_insert_ne by lia.
Qed.

(** [safestrcpy] always leaves a terminated string in an [n]-byte
    destination, the first [n-1] bytes of the source, and never writes outside
    those [n] bytes (it may store a second NUL after the first). *)
Theorem safestrcpy_correct m d p s n :
  cstr_at m p s -> (0 < n)%Z -> d + Z.to_nat n <= length m ->
  d + Z.to_nat n <= p \/ p + length s < d ->
  exists m', Kernel.safestrcpy m d p n = Some m' /\ length m' = length m /\
    cstr_at m' d (take (pred (Z.to_nat n)) s) /\
    (forall j, j < d \/ d + Z.to_nat n <= j -> m' !! j = m !! j).
Proof.
  intros Hs Hn Hd Hov. unfold Kernel.safestrcpy.
  rewrite (proj2 (Z.leb_gt n 0)) by lia.
  destruct (Z.to_nat n) as [|k] eqn:E; [lia|]. by apply safestrcpy_loop_spec.
Qed.
Lemma safestrcpy_correct_witness :
  exists m', Kernel.safestrcpy [104;105;106;0;9;9;9;9]%Z 4 0 3 = Some m' /\ length m' = 8 /\
    cstr_at m' 4 [104;105]%Z /\
    (forall j, j < 4 \/ 4 + 3 <= j -> m' !! j = [104;105;106;0;9;9;9;9]%Z !! j).
Proof.
  apply (safestrcpy_correct [104;105;106;0;9;9;9;9]%Z 4 0 [104;105;106]%Z 3);
    [|simpl; lia..].
  split; [repeat constructor; done|]. exists [9;9;9;9]%Z. done.
Defined.

(** ** Numbers in text *)

(** The number a list of decimal digits denotes, most significant first. *)
Fixpoint dec_value (acc : Z) (s : list Z) : Z :=
  match s with
  | [] => acc
  | c :: s' => dec_value (acc * 10 + (c - 48)) s'
  end.

Definition is_digit (c : Z) : Prop := (48 <= c <= 57)%Z.

Lemma dec_value_mono acc s : (0 <= acc)%Z -> Forall is_digit s -> (acc <= dec_value acc s)%Z.
Proof.
  intros Ha Hs. revert acc Ha. induction Hs as [|c s Hc _ IH]; intros acc Ha; simpl; [lia|].
  unfold is_digit in Hc. specialize (IH (acc * 10 + (c - 48))%Z). lia.
Qed.

Lemma s8_digit c : is_digit c -> s8 c = c.
Proof. unfold is_digit, s8, signed. intros. rewrite Z.mod_small; lia. Qed.

Lemma atoi_loop_digits s rest acc :
  Forall is_digit s -> (0 <= acc)%Z -> (dec_value acc s < 2 ^ 31)%Z ->
  User.atoi_loop (s ++ 0%Z :: rest) acc = Some (dec_value acc s).
Proof.
  intros Hs. revert acc. induction Hs as [|c s Hc Hs IH]; intros acc Ha Hv; simpl; [done|].
  rewrite s8_digit by done. pose proof Hc as Hc'. unfold is_digit in Hc'.
  rewrite (proj2 (Z.leb_le 48 c)), (proj2 (Z.leb_le c 57)) by lia. simpl.
  pose proof (dec_value_mono (acc * 10 + (c - 48)) s ltac:(lia) Hs) as Hm. simpl in Hv.
  rewrite s32_small by lia.
  replace (acc * 10 + c - 48)%Z with (acc * 10 + (c - 48))%Z by lia. apply IH; lia.
Qed.

Lemma dec_value_app acc s t : dec_value acc (s ++ t) = dec_value (dec_value acc s) t.
Proof. revert acc. induction s; intros; simpl; auto. Qed.

Lemma itoa_loop_acc f d base acc :
  User.itoa_loop f d base acc = User.itoa_loop f d base [] ++ acc.
Proof.
  revert d acc. induction f as [|f IH]; intros d acc; simpl; [done|].
  destruct (d =? 0)%Z; [done|]. rewrite IH, (IH _ [_]). by rewrite <- app_assoc.
Qed.

Lemma itoa_loop_dec f d :
  (0 <= d < 10 ^ Z.of_nat f)%Z ->
  Forall is_digit (User.itoa_loop f d 10 []) /\ dec_value 0 (User.itoa_loop f d 10 []) = d.
Proof.
  revert d. induction f as [|f IH]; intros d Hd; simpl.
  { simpl in Hd. split; [constructor|]. lia. }
  rewrite Nat2Z.inj_succ, Z.pow_succ_r in Hd by lia.
  destruct (Z.eqb_spec d 0) as [->|Hd0]; [done|].
  rewrite itoa_loop_acc. destruct (IH (d / 10)%Z) as [IH1 IH2]; [dlia|].
  unfold User.digit_lower. rewrite (proj2 (Z.ltb_lt (d mod 10) 10)) by dlia. split.
  - apply Forall_app. split; [done|]. constructor; [|constructor]. unfold is_digit. dlia.
  - rewrite dec_value_app, IH2. simpl. dlia.
Qed.

(** [atoi] reads back every number [itoa] prints in base 10 that fits an
    [int]: the 32 iterations and the decimal text are enough. *)
Theorem atoi_itoa d s rest :
  (0 <= d < 2 ^ 31)%Z -> User.itoa d 10 = Some s ->
  User.atoi (s ++ 0%Z :: rest) 0 = Some d.
Proof.
  intros Hd Hs. unfold User.itoa in Hs. rewrite u32_small in Hs by lia.
  unfold User.atoi. rewrite drop_0.
  destruct (Z.eqb_spec d 0) as [->|Hd0]; [by injection Hs as <-|].
  destruct (itoa_loop_dec 32 d) as [H1 H2]; [lia|].
  change (Some (User.itoa_loop 32 d 10 []) = Some s) in Hs.
  generalize dependent (User.itoa_loop 32 d 10 []). intros t H1 H2 Hs. simplify_eq.
  rewrite atoi_loop_digits by (done || lia). done.
Qed.
Lemma atoi_itoa_witness :
  User.itoa 4096 10 = Some [52;48;57;54]%Z /\
  User.atoi ([52;48;57;54]%Z ++ [0%Z]) 0 = Some 4096%Z.
Proof. split; [reflexivity|]. apply (atoi_itoa 4096); [lia|reflexivity]. Defined.
