(* ===== verification/Spinlock.v ===== *)
(** Spin locks and interrupt nesting ([spinlock.c], [spinlock.h], the per-CPU
    fields of [proc.h]).

    The routines are executable functions on a machine of CPUs and locks; the
    concurrent reading is a step relation whose steps are the atomic actions
    between which another CPU can run: entering [acquire], each [xchg],
    recording the owner, the two halves of [release], and [popcli]. *)

From S2P Require Import Prelude.

Module Spinlock.

(** The part of [struct cpu] the locks use; [eflags_if] is the FL_IF bit of
    the CPU's EFLAGS register. *)
Record cpu := Cpu { eflags_if : bool; ncli : Z; intena : bool }.

Record spinlock := Lock {
  locked : Z;              (* Is the lock held? *)
  lk_name : string;        (* Name of lock. *)
  lk_cpu : option nat;     (* The cpu holding the lock. *)
  pcs : list Z             (* The call stack that locked the lock. *)
}.

Record machine := Machine { cpus : list cpu; locks : list spinlock }.

#[export] Instance cpu_eq_dec : EqDecision cpu.
Proof. solve_decision. Defined.
#[export] Instance spinlock_eq_dec : EqDecision spinlock.
Proof. solve_decision. Defined.

Definition initlock (lk : spinlock) (name : string) : spinlock :=
  {| locked := 0; lk_name := name; lk_cpu := None; pcs := pcs lk |}.

(** Record the current call stack by following the %ebp chain; [rd] reads a
    word of kernel memory and [v] is the address of the first argument. *)
Fixpoint getcallerpcs_loop (rd : Z -> Z) (ebp : Z) (i : nat) : list Z :=
  match i with
  | O => []
  | S i' =>
    if (ebp =? 0) || (ebp <? 0x80000000) || (ebp =? 0xffffffff)
    then replicate i 0
    else rd (ebp + 4) :: getcallerpcs_loop rd (rd ebp) i'
  end.
Definition getcallerpcs (rd : Z -> Z) (v : Z) : list Z :=
  getcallerpcs_loop rd (v - 8) 10.

(** Check whether cpu [c] is holding the lock. *)
Definition holding (c : nat) (lk : spinlock) : bool :=
  negb (locked lk =? 0) && bool_decide (lk_cpu lk = Some c).

Definition pushcli (p : cpu) : cpu :=
  {| eflags_if := false; ncli := ncli p + 1;
     intena := if ncli p =? 0 then eflags_if p else intena p |}.

Definition popcli (p : cpu) : res cpu unit :=
  if eflags_if p then Panic "popcli - interruptible" p else
  let p1 := {| eflags_if := false; ncli := ncli p - 1; intena := intena p |} in
  if ncli p1 <? 0 then Panic "popcli" p1 else
  Ok tt {| eflags_if := (ncli p1 =? 0) && intena p1;
           ncli := ncli p1; intena := intena p1 |}.

Definition set_cpu (c : nat) (p : cpu) (m : machine) : machine :=
  {| cpus := <[c := p]> (cpus m); locks := locks m |}.
Definition set_lock (l : nat) (lk : spinlock) (m : machine) : machine :=
  {| cpus := cpus m; locks := <[l := lk]> (locks m) |}.

(** The two halves of [acquire]: everything before the [xchg] loop, and the
    bookkeeping after it. *)
Definition acquire_enter (c l : nat) : M machine unit := fun m =>
  match cpus m !! c, locks m !! l with
  | Some p, Some lk =>
    let m1 := set_cpu c (pushcli p) m in
    if holding c lk then Panic "acquire" m1 else Ok tt m1
  | _, _ => Panic "no such cpu or lock" m
  end.

(** [xchg(&lk->locked, v)]: store [v], return the old value. *)
Definition xchg (l : nat) (v : Z) : M machine Z := fun m =>
  match locks m !! l with
  | Some lk => Ok (locked lk)
      (set_lock l {| locked := v; lk_name := lk_name lk; lk_cpu := lk_cpu lk; pcs := pcs lk |} m)
  | None => Panic "no such lock" m
  end.

Definition acquire_record (c l : nat) (stack : list Z) : M machine unit := fun m =>
  match locks m !! l with
  | Some lk => Ok tt
      (set_lock l {| locked := locked lk; lk_name := lk_name lk; lk_cpu := Some c; pcs := stack |} m)
  | None => Panic "no such lock" m
  end.

(** [acquire] on a machine where no other CPU runs: if the lock is taken the
    loop spins for ever. *)
Definition acquire (c l : nat) (stack : list Z) : M machine unit :=
  acquire_enter c l ;;
  old ← xchg l 1;
  if negb (old =? 0) then blocked else acquire_record c l stack.

Definition release_enter (c l : nat) : M machine unit := fun m =>
  match locks m !! l with
  | Some lk =>
    if negb (holding c lk) then Panic "release" m else
    Ok tt (set_lock l {| locked := locked lk; lk_name := lk_name lk; lk_cpu := None;
                         pcs := <[0%nat := 0]> (pcs lk) |} m)
  | None => Panic "no such lock" m
  end.

Definition release_popcli (c : nat) : M machine unit := fun m =>
  match cpus m !! c with
  | Some p =>
    match popcli p with
    | Ok _ p' => Ok tt (set_cpu c p' m)
    | Panic msg p' => Panic msg (set_cpu c p' m)
    | Blocked p' => Blocked (set_cpu c p' m)
    | PowerFail p' => PowerFail (set_cpu c p' m)
    end
  | None => Panic "no such cpu" m
  end.

Definition release (c l : nat) : M machine unit :=
  release_enter c l ;; xchg l 0 ;; release_popcli c.

(** ** Interrupt nesting *)

Fixpoint pops (n : nat) (p : cpu) : res cpu unit :=
  match n with
  | O => Ok tt p
  | S n' => match popcli p with Ok _ p' => pops n' p' | r => r end
  end.

Lemma push_state n p :
  Nat.iter (S n) pushcli p =
  {| eflags_if := false; ncli := ncli p + Z.of_nat (S n);
     intena := intena (Nat.iter (S n) pushcli p) |}.
Proof.
  induction n as [|n IH]; [done|]. rewrite Nat.iter_succ, IH. unfold pushcli at 1. simpl.
  f_equal. lia.
Qed.

Lemma push_intena n p :
  0 <= ncli p ->
  intena (Nat.iter (S n) pushcli p) = if ncli p =? 0 then eflags_if p else intena p.
Proof.
  intros Hp. induction n as [|n IH]; [done|].
  rewrite Nat.iter_succ. unfold pushcli at 1. rewrite push_state. cbn [intena ncli].
  rewrite (proj2 (Z.eqb_neq (ncli p + Z.of_nat (S n)) 0)) by lia. apply IH.
Qed.

Lemma pops_down n p :
  eflags_if p = false -> Z.of_nat (S n) <= ncli p ->
  pops (S n) p = Ok tt {| eflags_if := (ncli p =? Z.of_nat (S n)) && intena p;
                          ncli := ncli p - Z.of_nat (S n); intena := intena p |}.
Proof.
  revert p. induction n as [|n IH]; intros p Hif Hn; cbn [pops].
  - unfold popcli. rewrite Hif. cbn [ncli intena].
    rewrite (proj2 (Z.ltb_ge (ncli p - 1) 0)) by lia.
    replace (ncli p - 1 =? 0) with (ncli p =? 1); [done|].
    destruct (Z.eqb_spec (ncli p) 1), (Z.eqb_spec (ncli p - 1) 0); lia.
  - unfold popcli. rewrite Hif. cbn [ncli intena].
    rewrite (proj2 (Z.ltb_ge (ncli p - 1) 0)), (proj2 (Z.eqb_neq (ncli p - 1) 0)) by lia.
    cbn [andb]. change (pops (S n) {| eflags_if := false; ncli := ncli p - 1; intena := intena p |}
      = Ok tt {| eflags_if := (ncli p =? Z.of_nat (S (S n))) && intena p;
                 ncli := ncli p - Z.of_nat (S (S n)); intena := intena p |}).
    rewrite IH; cbn [ncli intena eflags_if]; [|done|lia]. do 2 f_equal; [|lia].
    destruct (Z.eqb_spec (ncli p - 1) (Z.of_nat (S n))),
      (Z.eqb_spec (ncli p) (Z.of_nat (S (S n)))); (done || lia).
Qed.

(** [pushcli]/[popcli] are matched: after [n] pushes interrupts are off,
    and [n] pops from there bring back the nesting depth and, at the outermost
    level, the interrupt flag the CPU had before the first push; inside an
    outer section they leave interrupts off. *)
Theorem pushcli_popcli_matched n p :
  0 <= ncli p -> (0 < ncli p -> eflags_if p = false) ->
  eflags_if (Nat.iter (S n) pushcli p) = false /\
  exists p', pops (S n) (Nat.iter (S n) pushcli p) = Ok tt p' /\
    ncli p' = ncli p /\ eflags_if p' = eflags_if p /\
    (0 < ncli p -> intena p' = intena p).
Proof.
  intros Hp Hoff. pose proof (push_intena n p Hp) as Hi. rewrite push_state in *.
  cbn [intena] in Hi. split; [done|]. eexists. split.
  { apply pops_down; cbn [eflags_if ncli]; [done|lia]. }
  cbn [ncli intena eflags_if]. rewrite Hi.
  split; [lia|]. destruct (Z.eqb_spec (ncli p) 0) as [E|E].
  - rewrite E. rewrite Z.add_0_l, Z.eqb_refl. split; [done|lia].
  - rewrite (proj2 (Z.eqb_neq (ncli p + Z.of_nat (S n)) (Z.of_nat (S n)))) by lia.
    split; [rewrite Hoff by lia|]; done.
Qed.
Lemma pushcli_popcli_matched_witness :
  let p := {| eflags_if := true; ncli := 0; intena := false |} in
  eflags_if (Nat.iter 3 pushcli p) = false /\
  exists p', pops 3 (Nat.iter 3 pushcli p) = Ok tt p' /\
    ncli p' = ncli p /\ eflags_if p' = eflags_if p /\ (0 < ncli p -> intena p' = intena p).
Proof. apply (pushcli_popcli_matched 2); simpl; [lia|]. intros; lia. Defined.

Lemma acquire_free c l stack m p lk :
  cpus m !! c = Some p -> locks m !! l = Some lk -> locked lk = 0 ->
  acquire c l stack m =
  Ok tt {| cpus := <[c := pushcli p]> (cpus m);
           locks := <[l := {| locked := 1; lk_name := lk_name lk; lk_cpu := Some c; pcs := stack |}]>
                      (locks m) |}.
Proof.
  intros Hc Hl Hfree. pose proof (lookup_lt_Some _ _ _ Hl).
  unfold acquire, acquire_enter, xchg, acquire_record, holding, set_cpu, set_lock.
  mred. rewrite Hc, Hl, Hfree. simpl. rewrite Hl. simpl. rewrite Hfree. simpl.
  rewrite list_lookup_insert_eq by done. by rewrite list_insert_insert_eq.
Qed.

Lemma release_held c l m p p' lk :
  cpus m !! c = Some p -> locks m !! l = Some lk -> holding c lk = true ->
  popcli p = Ok tt p' ->
  release c l m =
  Ok tt {| cpus := <[c := p']> (cpus m);
           locks := <[l := {| locked := 0; lk_name := lk_name lk; lk_cpu := None;
                              pcs := <[0%nat := 0]> (pcs lk) |}]> (locks m) |}.
Proof.
  intros Hc Hl Hh Hp. pose proof (lookup_lt_Some _ _ _ Hl).
  unfold release, release_enter, xchg, release_popcli, set_cpu, set_lock.
  mred. rewrite Hl, Hh. simpl. rewrite list_lookup_insert_eq by done. simpl.
  rewrite Hc, Hp. by rewrite list_insert_insert_eq.
Qed.

Lemma popcli_pushcli p :
  0 <= ncli p -> (0 < ncli p -> eflags_if p = false) ->
  popcli (pushcli p) = Ok tt {| eflags_if := eflags_if p; ncli := ncli p;
                                intena := if ncli p =? 0 then eflags_if p else intena p |}.
Proof.
  intros Hn Hoff. unfold popcli, pushcli. simpl. rewrite (proj2 (Z.ltb_ge _ 0)) by lia.
  replace (ncli p + 1 - 1) with (ncli p) by lia.
  destruct (Z.eqb_spec (ncli p) 0); simpl; [done|]. by rewrite Hoff by lia.
Qed.

(** Taking a free lock and releasing it is balanced: [acquire] and then
    [release] both return, in between the CPU holds the lock, and afterwards
    the lock is free with no owner and the CPU has the interrupt state and
    nesting depth it started with. *)
Theorem acquire_release_balanced c l stack m p lk :
  cpus m !! c = Some p -> locks m !! l = Some lk ->
  locked lk = 0 -> 0 <= ncli p -> (0 < ncli p -> eflags_if p = false) ->
  exists m1 m2 p2 lk1 lk2,
    acquire c l stack m = Ok tt m1 /\ locks m1 !! l = Some lk1 /\ holding c lk1 = true /\
    release c l m1 = Ok tt m2 /\
    cpus m2 !! c = Some p2 /\ ncli p2 = ncli p /\ eflags_if p2 = eflags_if p /\
    locks m2 !! l = Some lk2 /\ locked lk2 = 0 /\ lk_cpu lk2 = None.
Proof.
  intros Hc Hl Hfree Hn Hoff.
  pose proof (lookup_lt_Some _ _ _ Hc). pose proof (lookup_lt_Some _ _ _ Hl).
  do 5 eexists. split; [by apply acquire_free|].
  split; [simpl; by apply list_lookup_insert_eq|].
  split; [unfold holding; simpl; by rewrite bool_decide_true|].
  split.
  { eapply release_held; simpl; [by apply list_lookup_insert_eq..| |by apply popcli_pushcli].
    unfold holding. simpl. by rewrite bool_decide_true. }
  simpl. split; [apply list_lookup_insert_eq; by rewrite length_insert|].
  do 2 (split; [done|]). split; [apply list_lookup_insert_eq; by rewrite length_insert|]. done.
Qed.
Lemma acquire_release_balanced_witness :
  let m := {| cpus := [{| eflags_if := true; ncli := 0; intena := false |}];
              locks := [{| locked := 0; lk_name := "ptable"; lk_cpu := None; pcs := replicate 10 0 |}] |} in
  exists m1 m2 p2 lk1 lk2,
    acquire 0 0 (replicate 10 0) m = Ok tt m1 /\ locks m1 !! 0%nat = Some lk1 /\
    holding 0 lk1 = true /\
    release 0 0 m1 = Ok tt m2 /\
    cpus m2 !! 0%nat = Some p2 /\ ncli p2 = 0 /\ eflags_if p2 = true /\
    locks m2 !! 0%nat = Some lk2 /\ locked lk2 = 0 /\ lk_cpu lk2 = None.
Proof.
  intros m.
  eapply (acquire_release_balanced 0 0 (replicate 10 0) m
            {| eflags_if := true; ncli := 0; intena := false |});
    [reflexivity|reflexivity|reflexivity|simpl; lia|simpl; intros; lia].
Defined.

(** ** Several CPUs

    Where each CPU is inside [acquire] or [release]. *)
Inductive pc :=
| Run                  (* outside both *)
| Spin (l : nat)       (* in acquire, before a successful xchg *)
| Got (l : nat)        (* in acquire, xchg returned 0, owner not recorded *)
| Dropped (l : nat)    (* in release, owner cleared, lock still set *)
| Unlocked (l : nat).  (* in release, lock cleared, popcli still to run *)

Record config := Config { mach : machine; pcof : list pc }.

(** One atomic action of one CPU.  A CPU outside the lock routines may change
    its interrupt flag as long as it is in no [pushcli] section. *)
Inductive step : config -> config -> Prop :=
| step_env m q c p b :
    cpus m !! c = Some p -> q !! c = Some Run -> ncli p = 0 ->
    step {| mach := m; pcof := q |}
         {| mach := set_cpu c {| eflags_if := b; ncli := ncli p; intena := intena p |} m; pcof := q |}
| step_enter m q c l m' :
    q !! c = Some Run -> acquire_enter c l m = Ok tt m' ->
    step {| mach := m; pcof := q |} {| mach := m'; pcof := <[c := Spin l]> q |}
| step_xchg m q c l old m' :
    q !! c = Some (Spin l) -> xchg l 1 m = Ok old m' ->
    step {| mach := m; pcof := q |}
         {| mach := m'; pcof := if old =? 0 then <[c := Got l]> q else q |}
| step_record m q c l stack m' :
    q !! c = Some (Got l) -> acquire_record c l stack m = Ok tt m' ->
    step {| mach := m; pcof := q |} {| mach := m'; pcof := <[c := Run]> q |}
| step_release m q c l m' :
    q !! c = Some Run -> release_enter c l m = Ok tt m' ->
    step {| mach := m; pcof := q |} {| mach := m'; pcof := <[c := Dropped l]> q |}
| step_unlock m q c l old m' :
    q !! c = Some (Dropped l) -> xchg l 0 m = Ok old m' ->
    step {| mach := m; pcof := q |} {| mach := m'; pcof := <[c := Unlocked l]> q |}
| step_popcli m q c l m' :
    q !! c = Some (Unlocked l) -> release_popcli c m = Ok tt m' ->
    step {| mach := m; pcof := q |} {| mach := m'; pcof := <[c := Run]> q |}.

(** CPU [c] is between a successful [xchg] of [acquire] and the [xchg] of
    [release] on lock [l]. *)
Definition owns (g : config) (c l : nat) : Prop :=
  pcof g !! c = Some (Got l) \/ pcof g !! c = Some (Dropped l) \/
  (exists lk, locks (mach g) !! l = Some lk /\ lk_cpu lk = Some c).

(** The lock invariant: owners are unique, an owned lock is set, a half-taken
    or half-dropped lock has no recorded owner. *)
Record lock_inv (g : config) : Prop := {
  li_excl c c' l : owns g c l -> owns g c' l -> c = c';
  li_set c l lk : owns g c l -> locks (mach g) !! l = Some lk -> locked lk = 1;
  li_half c l lk : pcof g !! c = Some (Got l) \/ pcof g !! c = Some (Dropped l) ->
    locks (mach g) !! l = Some lk -> lk_cpu lk = None
}.

Definition initial (g : config) : Prop :=
  Forall (fun lk => locked lk = 0 /\ lk_cpu lk = None) (locks (mach g)) /\
  Forall (eq Run) (pcof g).

Lemma initial_inv g : initial g -> lock_inv g.
Proof.
  intros [Hl Hq]. assert (forall c l, ~ owns g c l) as Hno.
  { intros c l [H|[H|(lk & H & Ho)]].
    - by apply (Forall_lookup_1 _ _ _ _ Hq) in H.
    - by apply (Forall_lookup_1 _ _ _ _ Hq) in H.
    - apply (Forall_lookup_1 _ _ _ _ Hl) in H as [_ H]. congruence. }
  split; intros.
  - exfalso. eapply Hno; eauto.
  - exfalso. eapply Hno; eauto.
  - exfalso. eapply (Hno c l). unfold owns. tauto.
Qed.

Definition half (q : list pc) (c l : nat) : Prop :=
  q !! c = Some (Got l) \/ q !! c = Some (Dropped l).

(** Steps that neither take nor drop a lock. *)
Lemma inv_frame g g' :
  lock_inv g ->
  (forall c l, half (pcof g') c l -> half (pcof g) c l) ->
  (forall l lk', locks (mach g') !! l = Some lk' -> exists lk,
     locks (mach g) !! l = Some lk /\ lk_cpu lk' = lk_cpu lk /\
     (locked lk = 1 -> locked lk' = 1)) ->
  lock_inv g'.
Proof.
  intros [Hex Hset Hhalf] Hpc Hlk.
  assert (forall c l, owns g' c l -> owns g c l) as Ho.
  { intros c l [H|[H|(lk & H & E)]].
    - destruct (Hpc c l); unfold half, owns in *; tauto.
    - destruct (Hpc c l); unfold half, owns in *; tauto.
    - apply Hlk in H as (lk0 & H & E' & _). right. right. exists lk0. split; congruence. }
  split.
  - eauto.
  - intros c l lk Hc H. apply Hlk in H as (lk0 & H & _ & E). eauto.
  - intros c l lk Hc H. apply Hpc in Hc. apply Hlk in H as (lk0 & H & E & _).
    rewrite E. eapply Hhalf; eauto.
Qed.

Lemma half_insert q c x c' l :
  half (<[c := x]> q) c' l ->
  (c' = c /\ (x = Got l \/ x = Dropped l)) \/ (c' <> c /\ half q c' l).
Proof.
  intros [H|H]; apply list_insert_inv in H as [[-> E]|[Hne H]]; unfold half; auto.
Qed.

(** A CPU that is not half-way through lock [l] owns it iff it is recorded. *)
Lemma owns_alt g c l :
  owns g c l <-> half (pcof g) c l \/
  (exists lk, locks (mach g) !! l = Some lk /\ lk_cpu lk = Some c).
Proof. unfold owns, half. tauto. Qed.

(** A step that moves CPU [c] to [x] and rewrites lock [l] keeps the invariant
    if nobody else owns [l] before or after. *)
Lemma inv_update m q c x l lk lk' :
  lock_inv {| mach := m; pcof := q |} ->
  locks m !! l = Some lk ->
  (forall l', half q c l' -> l' = l) ->
  (forall c', c' <> c -> ~ owns {| mach := m; pcof := q |} c' l) ->
  (forall l', x = Got l' \/ x = Dropped l' -> l' = l /\ locked lk' = 1 /\ lk_cpu lk' = None) ->
  (lk_cpu lk' = None \/ (lk_cpu lk' = Some c /\ locked lk' = 1)) ->
  lock_inv {| mach := set_lock l lk' m; pcof := <[c := x]> q |}.
Proof.
  intros [Hex Hset Hhalf] Hl Hc Hno Hx Hlk'.
  assert (forall c' l', owns {| mach := set_lock l lk' m; pcof := <[c := x]> q |} c' l' ->
            (l' = l /\ c' = c /\ locked lk' = 1) \/
            (l' <> l /\ owns {| mach := m; pcof := q |} c' l')) as Ho.
  { intros c' l' [H|(k & H & E)]%owns_alt; simpl in *.
    - apply half_insert in H as [[-> H]|[Hne H]].
      + apply Hx in H as (-> & ? & _). auto.
      + destruct (decide (l' = l)) as [->|].
        * exfalso. apply (Hno c' Hne). apply owns_alt. auto.
        * right. split; [done|]. apply owns_alt. auto.
    - apply list_insert_inv in H as [[-> ->]|[Hne H]].
      + left. destruct Hlk' as [H|[H ?]]; [congruence|]. split; [done|]. split; [congruence|done].
      + right. split; [done|]. apply owns_alt. right. eauto. }
  split.
  - intros c1 c2 l1 H1%Ho H2%Ho. destruct H1 as [(-> & -> & _)|[? H1]], H2 as [(? & -> & _)|[? H2]];
      (done || eauto).
  - intros c1 l1 lk1 H1%Ho H. simpl in H. apply list_insert_inv in H as [[-> ->]|[Hne H]].
    + destruct H1 as [(_ & _ & ?)|[? _]]; done.
    + destruct H1 as [(? & _ & _)|[_ H1]]; [done|]. by eapply (Hset c1 l1).
  - intros c1 l1 lk1 H1 H. simpl in *. apply list_insert_inv in H as [[-> ->]|[Hne H]].
    + apply half_insert in H1 as [[-> H1]|[Hne H1]].
      * apply Hx in H1 as (_ & _ & ?). done.
      * exfalso. apply (Hno c1 Hne). apply owns_alt. auto.
    + apply half_insert in H1 as [[-> H1]|[Hne' H1]].
      * apply Hx in H1 as (-> & _). done.
      * eapply (Hhalf c1 l1); eauto.
Qed.

Lemma step_preserves g g' : step g g' -> lock_inv g -> lock_inv g'.
Proof.
  intros Hs Hinv. pose proof Hinv as [Hex Hset Hhalf].
  inversion Hs as [m q c p b Hc Hq Hn|m q c l m' Hq H|m q c l old m' Hq H|m q c l st m' Hq H
    |m q c l m' Hq H|m q c l old m' Hq H|m q c l m' Hq H]; subst; clear Hs.
  - apply (inv_frame _ _ Hinv); simpl; eauto.
  - unfold acquire_enter in H. repeat case_match; simplify_eq.
    apply (inv_frame _ _ Hinv); simpl; [|eauto].
    intros c' l' [[-> [?|?]]|[_ ?]]%half_insert; done.
  - unfold xchg in H. destruct (locks m !! l) as [s|] eqn:Hl; [|done]. injection H as <- <-.
    assert (locked s = 0 -> lk_cpu s = None) as Hfree.
    { intros E. destruct (lk_cpu s) as [c'|] eqn:Ec; [|done].
      rewrite (Hset c' l s) in E; [done|apply owns_alt; right; eauto|done]. }
    destruct (Z.eqb_spec (locked s) 0) as [E|E].
    + eapply inv_update; [done|eassumption|..]; simpl.
      * intros l' [?|?]; congruence.
      * intros c' _ Ho. rewrite (Hset c' l s Ho) in E; done.
      * intros l' [[= ->]|?]; [|done]. split; [done|]. split; [done|]. by apply Hfree.
      * left. by apply Hfree.
    + apply (inv_frame _ _ Hinv); simpl; [done|].
      intros l' lk' [[-> ->]|[_ H']]%list_insert_inv; eauto.
  - unfold acquire_record in H. repeat case_match; simplify_eq.
    assert (owns {| mach := m; pcof := q |} c l) as Hown by (apply owns_alt; left; by left).
    eapply inv_update; [done|eassumption|..]; simpl.
    + intros l' [?|?]; congruence.
    + intros c' Hne Ho. apply Hne. eauto.
    + intros l' [?|?]; done.
    + right. split; [done|]. by eapply (Hset c l).
  - unfold release_enter in H. repeat case_match; simplify_eq.
    match goal with H : negb (holding _ _) = false |- _ =>
      apply negb_false_iff, andb_true_iff in H as [_ Hc%bool_decide_eq_true] end.
    assert (owns {| mach := m; pcof := q |} c l) as Hown by (apply owns_alt; right; eauto).
    eapply inv_update; [done|eassumption|..]; simpl.
    + intros l' [?|?]; congruence.
    + intros c' Hne Ho. apply Hne. eauto.
    + intros l' [?|[= <-]]; [done|]. split; [done|]. split; [by eapply (Hset c l)|done].
    + by left.
  - unfold xchg in H. destruct (locks m !! l) as [s|] eqn:Hl; [|done]. injection H as <- <-.
    assert (owns {| mach := m; pcof := q |} c l) as Hown by (apply owns_alt; left; by right).
    eapply inv_update; [done|eassumption|..]; simpl.
    + intros l' [?|?]; congruence.
    + intros c' Hne Ho. apply Hne. eauto.
    + intros l' [?|?]; done.
    + left. eapply (Hhalf c l); eauto.
  - unfold release_popcli in H. repeat case_match; simplify_eq.
    apply (inv_frame _ _ Hinv); simpl; [|eauto].
    intros c' l' [[-> [?|?]]|[_ ?]]%half_insert; done.
Qed.

(** C14: mutual exclusion.  In every interleaving of the CPUs' atomic actions,
    starting with all locks free, no two CPUs are ever between [acquire] and
    [release] of the same lock, and a lock some CPU is in is set. *)
Theorem mutual_exclusion g g' c c' l :
  initial g -> rtc step g g' ->
  owns g' c l -> owns g' c' l ->
  c = c' /\ (forall lk, locks (mach g') !! l = Some lk -> locked lk = 1).
Proof.
  intros Hi Hs Hc Hc'. assert (lock_inv g') as [Hex Hset _].
  { apply initial_inv in Hi. induction Hs; eauto using step_preserves. }
  split; [eauto|]. intros lk. by apply (Hset c).
Qed.

(** Two CPUs and one lock: CPU 0 takes it, CPU 1 spins. *)
Definition p0 := {| eflags_if := true; ncli := 0; intena := false |}.
Definition g0 := {| mach := {| cpus := [p0; p0];
                        locks := [{| locked := 0; lk_name := "ptable"; lk_cpu := None;
                                     pcs := replicate 10 0 |}] |};
             pcof := [Run; Run] |}.
Lemma contended_run :
  exists g', initial g0 /\ rtc step g0 g' /\ owns g' 0 0 /\ pcof g' !! 1%nat = Some (Spin 0).
Proof.
  eexists. split; [split; repeat constructor|]. split.
  { eapply rtc_l; [eapply (step_enter _ _ 0 0); reflexivity|].
    eapply rtc_l; [eapply (step_enter _ _ 1 0); reflexivity|].
    eapply rtc_l; [eapply (step_xchg _ _ 0 0); reflexivity|].
    eapply rtc_l; [eapply (step_xchg _ _ 1 0); reflexivity|].
    apply rtc_refl. }
  split; [left; reflexivity|reflexivity].
Qed.
Lemma mutual_exclusion_witness :
  exists g', rtc step g0 g' /\ owns g' 0 0 /\ pcof g' !! 1%nat = Some (Spin 0) /\
    0%nat = 0%nat /\ (forall lk, locks (mach g') !! 0%nat = Some lk -> locked lk = 1).
Proof.
  destruct contended_run as (g' & Hi & Hs & Ho & Hp). exists g'.
  do 3 (split; [done|]). eapply (mutual_exclusion g0 g' 0 0 0); eassumption.
Defined.

End Spinlock.
