(* ===== verification/Params.v ===== *)
(** Constants of [param.h], [fs.h], [buf.h], [file.h], [stat.h] and
    [mmu.h]/[memlayout.h] that the components share. *)

From S2P Require Import Prelude.

(** ** [param.h] *)
Definition NPROC : nat := 64.
Definition NOFILE : nat := 16.
Definition NFILE : nat := 100.
Definition NINODE : nat := 50.
Definition NDEV : Z := 256.
Definition ROOTDEV : Z := 0.
Definition MAXOPBLOCKS : Z := 10.
Definition LOGSIZE : Z := MAXOPBLOCKS * 3.
Definition NBUF : nat := 30.   (* MAXOPBLOCKS*3 *)
Definition FSSIZE : Z := 5000.
Definition THREADMAX : nat := 32.
Definition DISKMAX : nat := 32.

(** ** [fs.h] *)
Definition ROOTINO : Z := 1.
Definition BSIZE : nat := 512.
Definition NDIRECT : nat := 12.
Definition NINDIRECT : Z := 128.   (* BSIZE / sizeof(uint) *)
Definition MAXFILE : Z := NINDIRECT * 12.
Definition DINODE_SIZE : nat := 64.   (* sizeof(struct dinode) *)
Definition IPB : Z := 8.   (* BSIZE / sizeof(struct dinode) *)
Definition BPB : Z := 4096.   (* BSIZE*8 *)
Definition DIRSIZ : nat := 14.
Definition DIRENT_SIZE : nat := 16.   (* sizeof(struct dirent) *)

(** ** [buf.h] *)
Definition B_BUSY : Z := 2 ^ 0.
Definition B_VALID : Z := 2 ^ 1.
Definition B_DIRTY : Z := 2 ^ 2.

(** ** [file.h] *)
Definition I_BUSY : Z := 2 ^ 0.
Definition I_VALID : Z := 2 ^ 1.
Definition I_MOUNTPOINT : Z := 2 ^ 2.
Definition I_MOUNTROOT : Z := 2 ^ 3.
Definition U_READ : Z := 2 ^ 0.
Definition U_WRITE : Z := 2 ^ 1.
Definition U_EXEC : Z := 2 ^ 2.
Definition U_HIDDEN : Z := 2 ^ 3.
Definition W_READ : Z := 2 ^ 4.
Definition W_WRITE : Z := 2 ^ 5.
Definition W_EXEC : Z := 2 ^ 6.
Definition W_HIDDEN : Z := 2 ^ 7.

(** ** [stat.h] *)
Definition T_DIR : Z := 1.
Definition T_FILE : Z := 2.
Definition T_DEV : Z := 3.

(** ** [mmu.h], [memlayout.h] *)
Definition PGSIZE : Z := 4096.
Definition KERNBASE : Z := 0x80000000.
Definition PHYSTOP : Z := 0xE000000.

(** A disk block: its bytes. *)
Abbreviation block := (list Z).
Definition zero_block : block := replicate BSIZE 0.

(** A disk block's address: device number and block number. *)
Abbreviation key := (Z * Z)%type.
