(* ===== verification/Bio.v ===== *)
(** The buffer cache ([bio.c]) over the disk driver ([iderw] of [ide.c]
    reached through [diskrw] of [disk.c]).

    Three layers:
    - [Cache]: the code, on an array of [NBUF] buffers and the MRU list;
    - [BlockIO]: the program syntax clients are written in.  A client ([log.c],
      [fs.c]) is a [prog]: a tree of buffer-cache calls and updates of its own
      memory, so one proof covers every client;
    - [Spec]: what the cache promises, on a map of drive contents and the map of
      pinned (busy or dirty) blocks, with no buffers and no eviction.
    The simulation theorem says that every [prog] behaves the same on both,
    panics, blocking and power failures included.

    A power failure can happen at any disk write: the state counts down the
    writes the drive will still accept. *)

From S2P Require Import Prelude Params.

(** ** The code *)
Module Cache.

(** [struct buf] without the list links, which [lru] below holds. *)
Record buf := Buf { flags : Z; dev : Z; blockno : Z; data : block }.

Record bstate := BState {
  bufs : list buf;             (* bcache.buf *)
  lru : list nat;              (* the list from bcache.head, most recent first *)
  media : gmap key block;      (* what the drives hold; absent blocks are zero *)
  budget : option nat          (* disk writes left before the power fails *)
}.

Definition b_key (b : buf) : key := (dev b, blockno b).

Definition set_buf (i : nat) (b : buf) (s : bstate) : bstate :=
  {| bufs := <[i := b]> (bufs s); lru := lru s; media := media s; budget := budget s |}.
Definition set_flags (f : Z) (b : buf) : buf :=
  {| flags := f; dev := dev b; blockno := blockno b; data := data b |}.
Definition set_data (d : block) (b : buf) : buf :=
  {| flags := flags b; dev := dev b; blockno := blockno b; data := d |}.

(** The linked list after [binit]: each buffer is pushed at the front, and
    every buffer has device -1. *)
Definition binit (m : gmap key block) (bud : option nat) : bstate :=
  {| bufs := replicate NBUF {| flags := 0; dev := 2 ^ 32 - 1; blockno := 0; data := zero_block |};
     lru := reverse (seq 0 NBUF); media := m; budget := bud |}.

(** Walk the list for the first buffer that satisfies [P]. *)
Fixpoint walk (bs : list buf) (P : buf -> bool) (order : list nat) : option nat :=
  match order with
  | [] => None
  | i :: order' =>
    match bs !! i with
    | Some b => if P b then Some i else walk bs P order'
    | None => walk bs P order'
    end
  end.

Section driver.
(** Which disk numbers have a registered driver ([disks[dev].diskrw]). *)
Context (present : Z -> bool).

(** [diskrw]/[iderw], as its caller sees it: it returns when the interrupt
    handler has completed the request. *)
Definition diskrw (i : nat) : M bstate unit := fun s =>
  match bufs s !! i with
  | None => Panic "no such buffer" s
  | Some b =>
    if negb (present (dev b)) then Panic "no such disk" s else
    if negb (has (flags b) B_BUSY) then Panic "iderw: buf not busy" s else
    if Z.land (flags b) (Z.lor B_VALID B_DIRTY) =? B_VALID then Panic "iderw: nothing to do" s else
    if FSSIZE <=? blockno b then Panic "incorrect blockno" s else
    let done b := set_flags (clrf (setf (flags b) B_VALID) B_DIRTY) b in
    if has (flags b) B_DIRTY
    then match budget s with
         | Some O => PowerFail s
         | _ => Ok tt {| bufs := <[i := done b]> (bufs s); lru := lru s;
                         media := <[b_key b := data b]> (media s);
                         budget := pred <$> budget s |}
         end
    else Ok tt (set_buf i (done (set_data (default zero_block (media s !! b_key b)) b)) s)
  end.

(** Look through the cache for the block; if it is not there recycle the
    least recently used buffer that is neither busy nor dirty.  A busy
    buffer makes the caller sleep. *)
Definition bget (d bn : Z) : M bstate nat := fun s =>
  match walk (bufs s) (fun b => (dev b =? d) && (blockno b =? bn)) (lru s) with
  | Some i =>
    match bufs s !! i with
    | Some b =>
      if negb (has (flags b) B_BUSY)
      then Ok i (set_buf i (set_flags (setf (flags b) B_BUSY) b) s)
      else Blocked s
    | None => Panic "no such buffer" s
    end
  | None =>
    match walk (bufs s) (fun b => negb (has (flags b) B_BUSY) && negb (has (flags b) B_DIRTY))
            (reverse (lru s)) with
    | Some i =>
      match bufs s !! i with
      | Some b => Ok i (set_buf i {| flags := B_BUSY; dev := d; blockno := bn; data := data b |} s)
      | None => Panic "no such buffer" s
      end
    | None => Panic "bget: no buffers" s
    end
  end.

Definition bread (d bn : Z) : M bstate nat :=
  i ← bget d bn;
  s ← get;
  match bufs s !! i with
  | Some b => if negb (has (flags b) B_VALID) then diskrw i ;; mret i else mret i
  | None => panic "no such buffer"
  end.

Definition bwrite (i : nat) : M bstate unit := fun s =>
  match bufs s !! i with
  | Some b =>
    if negb (has (flags b) B_BUSY) then Panic "bwrite" s
    else diskrw i (set_buf i (set_flags (setf (flags b) B_DIRTY) b) s)
  | None => Panic "no such buffer" s
  end.

Definition brelse (i : nat) : M bstate unit := fun s =>
  match bufs s !! i with
  | Some b =>
    if negb (has (flags b) B_BUSY) then Panic "brelse" s
    else Ok tt {| bufs := <[i := set_flags (clrf (flags b) B_BUSY) b]> (bufs s);
                  lru := i :: filter (fun j => j <> i) (lru s);
                  media := media s; budget := budget s |}
  | None => Panic "no such buffer" s
  end.

(** [b->flags |= B_DIRTY], the pin [log_write] puts on a buffer. *)
Definition pin_dirty (i : nat) : M bstate unit := fun s =>
  match bufs s !! i with
  | Some b => Ok tt (set_buf i (set_flags (setf (flags b) B_DIRTY) b) s)
  | None => Panic "no such buffer" s
  end.

End driver.
End Cache.

(** ** Client programs *)
Module BlockIO.

(** A routine over its own memory [K] and the buffer cache.  A held buffer is
    named by its block: while it is busy no other buffer has that key. *)
Inductive prog (K A : Type) : Type :=
| Ret (a : A)
| Get (k : K -> prog K A)
| Put (x : K) (p : prog K A)
| Bread (d bn : Z) (p : prog K A)
| Data (h : key) (k : block -> prog K A)
| SetData (h : key) (d : block) (p : prog K A)
| Bwrite (h : key) (p : prog K A)
| Pin (h : key) (p : prog K A)
| Brelse (h : key) (p : prog K A)
| Fail (msg : string)
| Sleep.
Arguments Ret {K A} _.
Arguments Get {K A} _.
Arguments Put {K A} _ _.
Arguments Bread {K A} _ _ _.
Arguments Data {K A} _ _.
Arguments SetData {K A} _ _ _.
Arguments Bwrite {K A} _ _.
Arguments Pin {K A} _ _.
Arguments Brelse {K A} _ _.
Arguments Fail {K A} _.
Arguments Sleep {K A}.

#[global] Instance prog_ret K : MRet (prog K) := fun A => Ret.
#[global] Instance prog_bind K : MBind (prog K) := fun A B f =>
  fix go (p : prog K A) : prog K B :=
  match p with
  | Ret a => f a
  | Get k => Get (fun x => go (k x))
  | Put x p => Put x (go p)
  | Bread d bn p => Bread d bn (go p)
  | Data h k => Data h (fun x => go (k x))
  | SetData h d p => SetData h d (go p)
  | Bwrite h p => Bwrite h (go p)
  | Pin h p => Pin h (go p)
  | Brelse h p => Brelse h (go p)
  | Fail m => Fail m
  | Sleep => Sleep
  end.

(** The calls, as the clients write them. *)
Definition kget {K A} (f : K -> A) : prog K A := Get (fun x => Ret (f x)).
Definition kmodify {K} (f : K -> K) : prog K unit := Get (fun x => Put (f x) (Ret tt)).
Definition bread {K} (d bn : Z) : prog K key := Bread d bn (Ret (d, bn)).
Definition bdata {K} (h : key) : prog K block := Data h Ret.
Definition bset {K} (h : key) (d : block) : prog K unit := SetData h d (Ret tt).
Definition bwrite {K} (h : key) : prog K unit := Bwrite h (Ret tt).
Definition bpin {K} (h : key) : prog K unit := Pin h (Ret tt).
Definition brelse {K} (h : key) : prog K unit := Brelse h (Ret tt).
Definition fail {K A} (msg : string) : prog K A := Fail msg.
Definition sleep {K A} : prog K A := Sleep.

Fixpoint pfor {K A} (l : list A) (f : A -> prog K unit) : prog K unit :=
  match l with
  | [] => Ret tt
  | x :: l' => f x ;; pfor l' f
  end.

(** Pair the routine's memory with the state the cache runs on. *)
Definition lift_res {K S A B} (x : K) (r : res S A) (k : A -> S -> res (K * S) B) : res (K * S) B :=
  match r with
  | Ok a s => k a s
  | Panic m s => Panic m (x, s)
  | Blocked s => Blocked (x, s)
  | PowerFail s => PowerFail (x, s)
  end.

Section run.
Context (present : Z -> bool).
Import Cache.

(** The buffer a client holds under this name. *)
Definition held (h : key) (s : bstate) : option (nat * buf) :=
  i ← walk (bufs s) (fun b => (dev b =? h.1) && (blockno b =? h.2)) (lru s);
  b ← bufs s !! i;
  if has (flags b) B_BUSY then Some (i, b) else None.

Definition with_held {A} (h : key) (f : nat -> buf -> M bstate A) : M bstate A := fun s =>
  match held h s with
  | Some (i, b) => f i b s
  | None => Panic "buffer not held" s
  end.

(** Run a client on the real cache. *)
Fixpoint run {K A} (p : prog K A) (x : K) (s : bstate) : res (K * bstate) A :=
  match p with
  | Ret a => Ok a (x, s)
  | Get k => run (k x) x s
  | Put x' p => run p x' s
  | Bread d bn p => lift_res x (Cache.bread present d bn s) (fun _ s' => run p x s')
  | Data h k => lift_res x (with_held h (fun _ b s => Ok (data b) s) s) (fun d s' => run (k d) x s')
  | SetData h d p =>
    lift_res x (with_held h (fun i b s => Ok tt (set_buf i (set_data d b) s)) s) (fun _ s' => run p x s')
  | Bwrite h p => lift_res x (with_held h (fun i _ => Cache.bwrite present i) s) (fun _ s' => run p x s')
  | Pin h p => lift_res x (with_held h (fun i _ => Cache.pin_dirty i) s) (fun _ s' => run p x s')
  | Brelse h p => lift_res x (with_held h (fun i _ => Cache.brelse i) s) (fun _ s' => run p x s')
  | Fail m => Panic m (x, s)
  | Sleep => Blocked (x, s)
  end.
End run.
End BlockIO.

(** ** What the cache promises *)
Module Spec.

Record pinned := Pinned { p_dirty : bool; p_busy : bool; p_data : block }.

Record astate := AState {
  amedia : gmap key block;
  pin : gmap key pinned;
  abudget : option nat
}.

Definition on_media (a : astate) (h : key) : block := default zero_block (amedia a !! h).
(** What a reader of the block sees. *)
Definition view (a : astate) (h : key) : block :=
  match pin a !! h with Some v => p_data v | None => on_media a h end.

Definition set_pin (h : key) (v : pinned) (a : astate) : astate :=
  {| amedia := amedia a; pin := <[h := v]> (pin a); abudget := abudget a |}.

Definition with_busy {A} (h : key) (f : pinned -> M astate A) : M astate A := fun a =>
  match pin a !! h with
  | Some v => if p_busy v then f v a else Panic "buffer not held" a
  | None => Panic "buffer not held" a
  end.

Section ops.
Context (present : Z -> bool).

(** A pinned block is found; another needs one of the [NBUF] buffers. *)
Definition bread (h : key) : M astate unit := fun a =>
  match pin a !! h with
  | Some v =>
    if p_busy v then Blocked a
    else Ok tt (set_pin h {| p_dirty := p_dirty v; p_busy := true; p_data := p_data v |} a)
  | None =>
    if (size (pin a) <? NBUF)%nat then
      if negb (present h.1) then Panic "no such disk" a else
      if FSSIZE <=? h.2 then Panic "incorrect blockno" a else
      Ok tt (set_pin h {| p_dirty := false; p_busy := true; p_data := on_media a h |} a)
    else Panic "bget: no buffers" a
  end.

Definition bdata (h : key) : M astate block := with_busy h (fun v a => Ok (p_data v) a).
Definition bset (h : key) (d : block) : M astate unit := with_busy h (fun v a =>
  Ok tt (set_pin h {| p_dirty := p_dirty v; p_busy := true; p_data := d |} a)).
Definition bpin (h : key) : M astate unit := with_busy h (fun v a =>
  Ok tt (set_pin h {| p_dirty := true; p_busy := true; p_data := p_data v |} a)).
Definition bwrite (h : key) : M astate unit := with_busy h (fun v a =>
  match abudget a with
  | Some O => PowerFail a
  | _ => Ok tt {| amedia := <[h := p_data v]> (amedia a);
                  pin := <[h := {| p_dirty := false; p_busy := true; p_data := p_data v |}]> (pin a);
                  abudget := pred <$> abudget a |}
  end).
(** A released clean block is forgotten, so it must hold what the drive has;
    the cache would otherwise serve the stale copy until it is evicted. *)
Definition brelse (h : key) : M astate unit := with_busy h (fun v a =>
  if p_dirty v
  then Ok tt (set_pin h {| p_dirty := true; p_busy := false; p_data := p_data v |} a)
  else if bool_decide (p_data v = on_media a h)
  then Ok tt {| amedia := amedia a; pin := delete h (pin a); abudget := abudget a |}
  else Panic "modified buffer released without a write" a).

Fixpoint run {K A} (p : BlockIO.prog K A) (x : K) (a : astate) : res (K * astate) A :=
  match p with
  | BlockIO.Ret r => Ok r (x, a)
  | BlockIO.Get k => run (k x) x a
  | BlockIO.Put x' p => run p x' a
  | BlockIO.Bread d bn p => BlockIO.lift_res x (bread (d, bn) a) (fun _ a' => run p x a')
  | BlockIO.Data h k => BlockIO.lift_res x (bdata h a) (fun d a' => run (k d) x a')
  | BlockIO.SetData h d p => BlockIO.lift_res x (bset h d a) (fun _ a' => run p x a')
  | BlockIO.Bwrite h p => BlockIO.lift_res x (bwrite h a) (fun _ a' => run p x a')
  | BlockIO.Pin h p => BlockIO.lift_res x (bpin h a) (fun _ a' => run p x a')
  | BlockIO.Brelse h p => BlockIO.lift_res x (brelse h a) (fun _ a' => run p x a')
  | BlockIO.Fail m => Panic m (x, a)
  | BlockIO.Sleep => Blocked (x, a)
  end.

Lemma run_bind {K A B} (p : BlockIO.prog K A) (f : A -> BlockIO.prog K B) x a :
  run (p ≫= f) x a =
  match run p x a with
  | Ok r (x', a') => run (f r) x' a'
  | Panic m s => Panic m s
  | Blocked s => Blocked s
  | PowerFail s => PowerFail s
  end.
Proof.
  revert x a. induction p; intros y b; cbn [run mbind BlockIO.prog_bind]; auto;
    unfold BlockIO.lift_res; case_match; auto.
Qed.
End ops.
End Spec.

(** ** The cache keeps its promise *)
Module Refinement.
Import Cache Spec.

(** Evaluate the flag tests of updated flags. *)
Ltac flags :=
  unfold B_BUSY, B_VALID, B_DIRTY in *;
  repeat match goal with
  | |- context [has (setf _ _) _] => rewrite has_setf by lia
  | |- context [has (clrf _ _) _] => rewrite has_clrf by lia
  | H : context [has (setf _ _) _] |- _ => rewrite has_setf in H by lia
  | H : context [has (clrf _ _) _] |- _ => rewrite has_clrf in H by lia
  end;
  cbn [Z.eqb Pos.eqb negb orb andb] in *.

Lemma nothing_to_do f :
  (Z.land f (Z.lor B_VALID B_DIRTY) =? B_VALID) = has f B_VALID && negb (has f B_DIRTY).
Proof.
  rewrite Z.land_lor_distr_r. unfold B_VALID, B_DIRTY. rewrite !land_pow2 by lia.
  by destruct (has f (2 ^ 1)), (has f (2 ^ 2)).
Qed.

Section refinement.
Context (present : Z -> bool).

Definition is_pinned (b : buf) : bool := has (flags b) B_BUSY || has (flags b) B_DIRTY.
Definition pin_of (b : buf) : pinned :=
  {| p_dirty := has (flags b) B_DIRTY; p_busy := has (flags b) B_BUSY; p_data := data b |}.

(** The cache invariant: every buffer is on the MRU list once; no block is
    cached twice; a buffer of a real disk is valid, in range, and, when it is
    neither busy nor dirty, holds what the drive has; the others are unused. *)
Record wf (s : bstate) : Prop := {
  wf_len : length (bufs s) = NBUF;
  wf_lru : lru s ≡ₚ seq 0 NBUF;
  wf_uniq i j b c : bufs s !! i = Some b -> bufs s !! j = Some c ->
    present (dev b) = true -> b_key b = b_key c -> i = j;
  wf_used i b : bufs s !! i = Some b -> present (dev b) = true ->
    has (flags b) B_VALID = true /\ blockno b < FSSIZE /\
    (is_pinned b = false -> data b = default zero_block (media s !! b_key b));
  wf_unused i b : bufs s !! i = Some b -> present (dev b) = false ->
    is_pinned b = false /\ has (flags b) B_VALID = false
}.

Record R (s : bstate) (a : astate) : Prop := {
  R_wf : wf s;
  R_media : amedia a = media s;
  R_budget : abudget a = budget s;
  R_pin h v : pin a !! h = Some v <->
    exists i b, bufs s !! i = Some b /\ b_key b = h /\ is_pinned b = true /\ v = pin_of b
}.

Lemma pinned_present s i b : wf s -> bufs s !! i = Some b -> is_pinned b = true ->
  present (dev b) = true.
Proof.
  intros W Hb Hp. destruct (present (dev b)) eqn:E; [done|].
  destruct (wf_unused s W i b Hb E). congruence.
Qed.

Lemma walk_Some bs P o i : walk bs P o = Some i -> i ∈ o /\ exists b, bs !! i = Some b /\ P b = true.
Proof.
  induction o as [|j o IH]; simpl; [done|]. intros H.
  assert (walk bs P o = Some i -> i ∈ j :: o /\ exists b, bs !! i = Some b /\ P b = true) as Hrec.
  { intros [? ?]%IH. split; [by right|done]. }
  destruct (bs !! j) as [b|] eqn:E; [|by apply Hrec].
  destruct (P b) eqn:Hp; [|by apply Hrec].
  injection H as <-. split; [by left|eauto].
Qed.

Lemma walk_None bs P o i b : walk bs P o = None -> i ∈ o -> bs !! i = Some b -> P b = false.
Proof.
  induction o as [|j o IH]; simpl; intros H Hi Hb; [by apply not_elem_of_nil in Hi|].
  apply elem_of_cons in Hi as [->|Hi].
  - rewrite Hb in H. destruct (P b); [done|done].
  - apply IH; [|done..]. destruct (bs !! j); [|done]. by destruct (P b0).
Qed.

Lemma wf_index s i b : wf s -> bufs s !! i = Some b -> i ∈ lru s.
Proof.
  intros W Hb. rewrite (wf_lru s W), elem_of_seq. apply lookup_lt_Some in Hb.
  rewrite (wf_len s W) in Hb. lia.
Qed.

Definition match_key (h : key) (b : buf) : bool := (dev b =? h.1) && (blockno b =? h.2).
Lemma match_key_spec h b : match_key h b = true <-> b_key b = h.
Proof.
  unfold match_key, b_key. destruct h as [d n]; simpl.
  rewrite andb_true_iff, !Z.eqb_eq. split; [intros [-> ->]|intros [= -> ->]]; done.
Qed.

(** Looking a block up finds its only buffer. *)
Lemma walk_found s h i b : wf s -> bufs s !! i = Some b -> b_key b = h -> present h.1 = true ->
  walk (bufs s) (match_key h) (lru s) = Some i.
Proof.
  intros W Hb Hk Hp. destruct (walk _ _ _) as [j|] eqn:E.
  - apply walk_Some in E as (_ & c & Hc & E%match_key_spec). f_equal. subst h.
    eapply (wf_uniq s W j i c b); eauto. injection E as -> _. done.
  - eapply walk_None in E; [|by eapply wf_index|done].
    apply match_key_spec in Hk. congruence.
Qed.

(** Counting: the pinned map is full exactly when every buffer is pinned. *)
Definition at_ (s : bstate) (i : nat) : buf :=
  default {| flags := 0; dev := 0; blockno := 0; data := [] |} (bufs s !! i).
Lemma at_lookup s i b : bufs s !! i = Some b -> at_ s i = b.
Proof. unfold at_. by intros ->. Qed.
Definition pinned_idx (s : bstate) : list nat :=
  filter (fun i => is_pinned (at_ s i) = true) (seq 0 NBUF).

Lemma lookup_at s i : wf s -> (i < NBUF)%nat -> bufs s !! i = Some (at_ s i).
Proof.
  intros W Hi. destruct (lookup_lt_is_Some_2 (bufs s) i) as [b Hb]; [by rewrite (wf_len s W)|].
  by rewrite (at_lookup _ _ _ Hb).
Qed.

Lemma size_pin s a : R s a -> size (pin a) = length (pinned_idx s).
Proof.
  intros [W _ _ Hpin].
  assert (Hidx : forall i, i ∈ pinned_idx s <->
            exists b, bufs s !! i = Some b /\ is_pinned b = true).
  { intros i. unfold pinned_idx. rewrite list_elem_of_filter, elem_of_seq. split.
    - intros [Hp Hi]. exists (at_ s i). split; [apply lookup_at; [done|lia]|done].
    - intros (b & Hb & Hp). rewrite (at_lookup _ _ _ Hb). split; [done|].
      apply lookup_lt_Some in Hb. rewrite (wf_len s W) in Hb. lia. }
  rewrite <- size_dom.
  assert (dom (pin a) = list_to_set ((fun i => b_key (at_ s i)) <$> pinned_idx s)) as ->.
  { apply set_eq. intros h. rewrite elem_of_dom, elem_of_list_to_set, list_elem_of_fmap. split.
    - intros [v (i & b & Hb & Hk & Hp & _)%Hpin]. exists i.
      rewrite (at_lookup _ _ _ Hb). split; [done|]. apply Hidx. eauto.
    - intros (i & Hk & (b & Hb & Hp)%Hidx). rewrite (at_lookup _ _ _ Hb) in Hk.
      exists (pin_of b). apply Hpin. exists i, b. eauto. }
  rewrite size_list_to_set.
  - apply length_fmap.
  - apply NoDup_fmap_2_strong.
    + intros i j (b & Hb & Hp)%Hidx (c & Hc & _)%Hidx.
      rewrite (at_lookup _ _ _ Hb), (at_lookup _ _ _ Hc). intros Hk.
      eapply (wf_uniq s W i j b c); eauto. by eapply pinned_present.
    + apply list.NoDup_filter, NoDup_seq.
Qed.

Lemma free_buffer s a :
  R s a -> (size (pin a) < NBUF)%nat <-> exists i b, bufs s !! i = Some b /\ is_pinned b = false.
Proof.
  intros HR. pose proof (R_wf _ _ HR) as W. rewrite (size_pin s a HR). split.
  - intros Hlt. destruct (decide (Exists (fun i => is_pinned (at_ s i) = false) (seq 0 NBUF))) as [He|He].
    + apply list.Exists_exists in He as (i & Hi%elem_of_seq & Hp).
      exists i, (at_ s i). split; [apply lookup_at; [done|lia]|done].
    + exfalso. apply not_Exists_Forall in He; [|intros ?; apply _].
      unfold pinned_idx in Hlt. rewrite filter_all in Hlt.
      * rewrite length_seq in Hlt. lia.
      * apply (list.Forall_impl _ _ _ He). intros i Hi. simpl in Hi. by destruct (is_pinned _).
  - intros (i & b & Hb & Hp). unfold pinned_idx. rewrite <- (length_seq NBUF 0) at 2.
    apply length_filter_lt with i.
    + apply elem_of_seq. apply lookup_lt_Some in Hb. rewrite (wf_len s W) in Hb. lia.
    + rewrite (at_lookup _ _ _ Hb). congruence.
Qed.

(** One buffer is rewritten to [b'], which caches block [h]. *)
Lemma R_put s a i b b' h med' bud' lru' :
  R s a -> bufs s !! i = Some b -> b_key b' = h -> present h.1 = true -> h.2 < FSSIZE ->
  has (flags b') B_VALID = true ->
  (forall j c, bufs s !! j = Some c -> b_key c = h -> j = i) ->
  (is_pinned b = true -> b_key b = h) ->
  (forall k, k <> h -> med' !! k = media s !! k) ->
  lru' ≡ₚ lru s ->
  (is_pinned b' = false -> data b' = default zero_block (med' !! h)) ->
  R {| bufs := <[i := b']> (bufs s); lru := lru'; media := med'; budget := bud' |}
    {| amedia := med';
       pin := if is_pinned b' then <[h := pin_of b']> (pin a) else delete h (pin a);
       abudget := bud' |}.
Proof.
  intros [W Hm Hb Hpin] Hi Hk Hpr Hrange Hv Hu Hold Hmed Hlru Hclean.
  pose proof (lookup_lt_Some _ _ _ Hi) as Hlt.
  split; [split|done|done|]; simpl.
  - rewrite length_insert. apply (wf_len s W).
  - rewrite Hlru. apply (wf_lru s W).
  - intros j1 j2 c1 c2 H1 H2 Hp1 Hkk.
    apply list_insert_inv in H1 as [[-> ->]|[Hn1 H1]], H2 as [[-> ->]|[Hn2 H2]]; try done.
    + symmetry. eapply Hu; [exact H2|congruence].
    + eapply Hu; [exact H1|congruence].
    + eapply (wf_uniq s W); eauto.
  - intros j c H Hp. apply list_insert_inv in H as [[-> ->]|[Hn H]].
    + split; [done|]. subst h. split; [exact Hrange|]. exact Hclean.
    + destruct (wf_used s W j c H Hp) as (? & ? & Hd). split; [done|]. split; [done|].
      intros Hnp. rewrite Hmed; [by apply Hd|]. intros E. apply Hn. eauto.
  - intros j c H Hp. apply list_insert_inv in H as [[-> ->]|[Hn H]].
    + subst h. simpl in Hpr. congruence.
    + eapply (wf_unused s W); eauto.
  - intros k v. destruct (decide (k = h)) as [->|Hne].
    + transitivity (is_pinned b' = true /\ v = pin_of b').
      { destruct (is_pinned b').
        - rewrite lookup_insert_eq. split; [intros [= <-]; done|intros [_ ->]; done].
        - rewrite lookup_delete_eq. split; [done|intros [? _]; done]. }
      split.
      * intros [Hp ->]. exists i, b'. rewrite list_lookup_insert_eq by done. eauto.
      * intros (j & c & H & Hck & Hp & ->).
        apply list_insert_inv in H as [[-> ->]|[Hn H]]; [done|]. exfalso. apply Hn. eauto.
    + transitivity (pin a !! k = Some v).
      { destruct (is_pinned b'); [by rewrite lookup_insert_ne|by rewrite lookup_delete_ne]. }
      rewrite Hpin. split.
      * intros (j & c & H & Hck & Hp & ->). exists j, c. split; [|eauto].
        rewrite list_lookup_insert_ne; [done|]. intros ->. rewrite Hi in H.
        injection H as <-. apply Hne. rewrite <- Hck. by apply Hold.
      * intros (j & c & H & Hck & Hp & ->).
        apply list_insert_inv in H as [[-> ->]|[Hn H]]; [congruence|]. eauto 6.
Qed.

(** Outcomes agree: same result, same panic, both blocked, or both cut off by
    the power with the same drive contents.  Releasing a modified buffer that
    was never written is the client's fault. *)
Definition agrees {A} (r1 : res bstate A) (r2 : res astate A) : Prop :=
  match r2 with
  | Ok v a => exists s, r1 = Ok v s /\ R s a
  | Panic m _ => m = "modified buffer released without a write" \/ exists s, r1 = Panic m s
  | Blocked _ => exists s, r1 = Blocked s
  | PowerFail a => exists s, r1 = PowerFail s /\ media s = amedia a
  end.

Definition ignore {S A} (r : res S A) : res S unit :=
  match r with
  | Ok _ s => Ok tt s | Panic m s => Panic m s | Blocked s => Blocked s | PowerFail s => PowerFail s
  end.

Lemma R_pin_same s a s' a' :
  R s a -> bufs s' = bufs s -> lru s' = lru s -> media s' = media s -> budget s' = budget s ->
  a' = a -> R s' a'.
Proof. destruct s, s'; simpl; intros; subst; done. Qed.

(** The buffer of a pinned block. *)
Lemma pinned_buf s a h v :
  R s a -> pin a !! h = Some v ->
  exists i b, bufs s !! i = Some b /\ b_key b = h /\ is_pinned b = true /\ v = pin_of b /\
    walk (bufs s) (match_key h) (lru s) = Some i /\ present h.1 = true /\ h.2 < FSSIZE /\
    has (flags b) B_VALID = true /\
    (forall j c, bufs s !! j = Some c -> b_key c = h -> j = i).
Proof.
  intros [W Hm Hb Hpin] Hp. apply Hpin in Hp as (i & b & Hi & Hk & Hp & ->).
  pose proof (pinned_present s i b W Hi Hp) as Hpr.
  destruct (wf_used s W i b Hi Hpr) as (Hv & Hr & _).
  exists i, b. do 4 (split; [done|]). subst h. split; [by eapply walk_found|].
  do 3 (split; [done|]). intros j c Hc Hk. symmetry. by eapply (wf_uniq s W i j b c).
Qed.

Lemma held_iff s a h v :
  R s a -> pin a !! h = Some v -> p_busy v = true ->
  exists i b, BlockIO.held h s = Some (i, b) /\ bufs s !! i = Some b /\ b_key b = h /\
    has (flags b) B_BUSY = true /\ v = pin_of b /\ present h.1 = true /\ h.2 < FSSIZE /\
    has (flags b) B_VALID = true /\
    (forall j c, bufs s !! j = Some c -> b_key c = h -> j = i).
Proof.
  intros HR Hp Hbusy. destruct (pinned_buf s a h v HR Hp)
    as (i & b & Hi & Hk & Hpi & -> & Hw & Hpr & Hr & Hv & Hu).
  exists i, b. simpl in Hbusy. split; [|eauto 12].
  unfold BlockIO.held. change (fun b : buf => (dev b =? h.1) && (blockno b =? h.2)) with (match_key h).
  rewrite Hw. simpl. rewrite Hi. simpl. by rewrite Hbusy.
Qed.

Lemma held_none s a h :
  R s a -> (forall v, pin a !! h = Some v -> p_busy v = false) -> BlockIO.held h s = None.
Proof.
  intros HR Hno. unfold BlockIO.held.
  destruct (walk _ _ _) as [i|] eqn:Hw; simpl; [|done].
  apply walk_Some in Hw as (_ & b & Hb & Hk). rewrite Hb. simpl.
  destruct (has (flags b) B_BUSY) eqn:E; [|done]. exfalso.
  specialize (Hno (pin_of b)). simpl in Hno. rewrite E in Hno.
  enough (true = false) by done. apply Hno. apply (R_pin _ _ HR). exists i, b.
  apply (match_key_spec h b) in Hk. unfold is_pinned. rewrite E. eauto.
Qed.

Lemma sim_data s a h : R s a ->
  agrees (BlockIO.with_held h (fun _ b s => Ok (data b) s) s) (Spec.bdata h a).
Proof.
  intros HR. unfold Spec.bdata, with_busy, BlockIO.with_held.
  destruct (pin a !! h) as [v|] eqn:Hp; [destruct (p_busy v) eqn:Hbusy|].
  - destruct (held_iff s a h v HR Hp Hbusy) as (i & b & -> & Hi & Hk & Hb & -> & _).
    simpl. eauto.
  - rewrite (held_none s a h HR); [simpl; eauto|]. intros w. rewrite Hp. by intros [= <-].
  - rewrite (held_none s a h HR); [simpl; eauto|]. intros w. by rewrite Hp.
Qed.

(** Calls that rewrite the held buffer: the shared part of the argument. *)
Lemma sim_held {A} s a h (f : nat -> buf -> M bstate A) (g : pinned -> M astate A) :
  R s a ->
  (forall i b, bufs s !! i = Some b -> b_key b = h -> has (flags b) B_BUSY = true ->
     pin a !! h = Some (pin_of b) -> present h.1 = true -> h.2 < FSSIZE ->
     has (flags b) B_VALID = true ->
     (forall j c, bufs s !! j = Some c -> b_key c = h -> j = i) ->
     agrees (f i b s) (g (pin_of b) a)) ->
  agrees (BlockIO.with_held h f s) (with_busy h g a).
Proof.
  intros HR Hf. unfold with_busy, BlockIO.with_held.
  destruct (pin a !! h) as [v|] eqn:Hp; [destruct (p_busy v) eqn:Hbusy|].
  - destruct (held_iff s a h v HR Hp Hbusy)
      as (i & b & -> & Hi & Hk & Hb & -> & Hpr & Hr & Hv & Hu). by apply Hf.
  - rewrite (held_none s a h HR); [simpl; eauto|]. intros w. rewrite Hp. by intros [= <-].
  - rewrite (held_none s a h HR); [simpl; eauto|]. intros w. by rewrite Hp.
Qed.

Lemma sim_set s a h d : R s a ->
  agrees (BlockIO.with_held h (fun i b s => Ok tt (set_buf i (set_data d b) s)) s) (Spec.bset h d a).
Proof.
  intros HR. apply sim_held; [done|]. intros i b Hi Hk Hb Hp Hpr Hr Hv Hu. simpl.
  eexists. split; [done|]. unfold set_pin, set_buf. rewrite (R_media _ _ HR), (R_budget _ _ HR).
  pose proof (R_put s a i b (set_data d b) h (media s) (budget s) (lru s) HR Hi) as HP.
  unfold is_pinned, pin_of in HP. simpl in HP. rewrite Hb in HP. simpl in HP. apply HP; auto. done.
Qed.

Lemma sim_pin s a h : R s a ->
  agrees (BlockIO.with_held h (fun i _ => Cache.pin_dirty i) s) (Spec.bpin h a).
Proof.
  intros HR. apply sim_held; [done|]. intros i b Hi Hk Hb Hp Hpr Hr Hv Hu.
  unfold pin_dirty. rewrite Hi. simpl.
  eexists. split; [done|]. unfold set_pin, set_buf. rewrite (R_media _ _ HR), (R_budget _ _ HR).
  pose proof (R_put s a i b (set_flags (setf (flags b) B_DIRTY) b) h (media s) (budget s) (lru s) HR Hi) as HP.
  unfold is_pinned, pin_of in HP. simpl in HP. flags. rewrite Hb in HP. simpl in HP. apply HP; auto. done.
Qed.

Lemma sim_write s a h : R s a ->
  agrees (BlockIO.with_held h (fun i _ => Cache.bwrite present i) s) (Spec.bwrite h a).
Proof.
  intros HR. apply sim_held; [done|]. intros i b Hi Hk Hb Hp Hpr Hr Hv Hu.
  unfold Cache.bwrite. rewrite Hi, Hb. simpl. unfold diskrw. simpl.
  rewrite list_lookup_insert_eq by (by eapply lookup_lt_Some). cbn [dev flags blockno set_flags].
  assert (dev b = h.1 /\ blockno b = h.2) as [-> ->] by (by subst h).
  rewrite Hpr, nothing_to_do. flags. rewrite Hb, Hv. cbn [negb andb].
  rewrite (proj2 (Z.leb_gt FSSIZE h.2)) by lia. rewrite (R_budget _ _ HR).
  destruct (budget s) as [[|n]|] eqn:Ebu.
  { simpl. eexists. split; [done|]. symmetry. apply (R_media _ _ HR). }
  all: simpl; eexists; (split; [done|]);
    rewrite list_insert_insert_eq, (R_media _ _ HR);
    (replace (b_key (set_flags (setf (flags b) (2 ^ 2)) b)) with h by done);
    match goal with |- R {| bufs := <[_ := ?x]> _; lru := _; media := ?m; budget := ?bu |} _ =>
      pose proof (R_put s a i b x h m bu (lru s) HR Hi) as HP end;
    unfold is_pinned, pin_of in HP; simpl in HP; flags; rewrite Hb in HP; simpl in HP;
    apply HP; auto; try done;
    intros k Hne; by rewrite lookup_insert_ne.
Qed.

Lemma sim_brelse s a h : R s a ->
  agrees (BlockIO.with_held h (fun i _ => Cache.brelse i) s) (Spec.brelse h a).
Proof.
  intros HR. apply sim_held; [done|]. intros i b Hi Hk Hb Hp Hpr Hr Hv Hu.
  pose proof (R_wf _ _ HR) as W.
  unfold Cache.brelse. rewrite Hi, Hb. cbn [negb p_dirty p_data pin_of].
  assert (i :: filter (fun j => j <> i) (lru s) ≡ₚ lru s) as Hperm.
  { apply NoDup_Permutation.
    - constructor; [rewrite list_elem_of_filter; tauto|]. apply list.NoDup_filter.
      rewrite (wf_lru s W). apply NoDup_seq.
    - rewrite (wf_lru s W). apply NoDup_seq.
    - intros j. rewrite elem_of_cons, list_elem_of_filter.
      pose proof (wf_index s i b W Hi). destruct (decide (j = i)) as [->|]; tauto. }
  pose proof (R_put s a i b (set_flags (clrf (flags b) B_BUSY) b) h (media s) (budget s)
    (i :: filter (fun j => j <> i) (lru s)) HR Hi Hk Hpr Hr) as HP.
  unfold is_pinned, pin_of in HP. cbn [flags set_flags data] in HP. flags.
  specialize (HP Hv Hu (fun _ => Hk) (fun _ _ => eq_refl) Hperm).
  destruct (has (flags b) (2 ^ 2)) eqn:Hd.
  - eexists. split; [done|]. unfold set_pin. rewrite (R_media _ _ HR), (R_budget _ _ HR).
    by apply HP.
  - case_bool_decide as Hdata; [|by left]. eexists. split; [done|].
    rewrite (R_media _ _ HR), (R_budget _ _ HR). apply HP. intros _. rewrite Hdata.
    unfold on_media. by rewrite (R_media _ _ HR).
Qed.

(** A cached block that is not pinned is handed out as it is: the buffer is
    clean, so its contents are the drive's. *)
Lemma sim_bread_cached s a h i b :
  R s a -> bufs s !! i = Some b -> b_key b = h -> pin a !! h = None ->
  present h.1 = true ->
  exists s', Cache.bread present h.1 h.2 s = Ok i s' /\
    R s' (set_pin h {| p_dirty := false; p_busy := true; p_data := on_media a h |} a).
Proof.
  intros HR Hi Hk Hp Hpr. pose proof (R_wf _ _ HR) as W.
  assert (present (dev b) = true) as Hpr' by (by subst h).
  destruct (wf_used s W i b Hi Hpr') as (Hv & Hr & Hd).
  assert (is_pinned b = false) as Hnp.
  { destruct (is_pinned b) eqn:E; [|done]. exfalso.
    assert (pin a !! h = Some (pin_of b)) by (apply (R_pin _ _ HR); eauto 6). congruence. }
  pose proof Hnp as Hnp'. unfold is_pinned in Hnp'. apply orb_false_iff in Hnp' as [Hb Hdi].
  eexists. split.
  { unfold Cache.bread, bget. mred.
    change (fun b : buf => (dev b =? h.1) && (blockno b =? h.2)) with (match_key h).
    rewrite (walk_found s h i b W Hi Hk Hpr), Hi, Hb. simpl.
    rewrite list_lookup_insert_eq by (by eapply lookup_lt_Some). simpl. flags. by rewrite Hv. }
  unfold set_pin, set_buf. rewrite (R_media _ _ HR), (R_budget _ _ HR).
  pose proof (R_put s a i b (set_flags (setf (flags b) B_BUSY) b) h (media s) (budget s) (lru s) HR Hi Hk) as HP.
  unfold is_pinned, pin_of in HP. simpl in HP. flags. rewrite Hdi in HP.
  unfold on_media. rewrite (R_media _ _ HR). rewrite Hk in Hd. rewrite <- Hd by done.
  apply HP; auto; try done.
  - by subst h.
  - intros j c Hc Hkc. symmetry. eapply (wf_uniq s W i j b c); eauto. congruence.
Qed.

(** An uncached block takes over a buffer that is neither busy nor dirty. *)
Lemma sim_bread_recycle s a h :
  R s a -> (forall i b, bufs s !! i = Some b -> b_key b <> h \/ present h.1 = false) ->
  pin a !! h = None ->
  agrees (ignore (Cache.bread present h.1 h.2 s)) (Spec.bread present h a).
Proof.
  intros HR Hnc Hp. pose proof (R_wf _ _ HR) as W. unfold Spec.bread. rewrite Hp.
  destruct h as [d n]. change ((d, n).1) with d in *. change ((d, n).2) with n in *. set (h := (d, n)) in *.
  destruct (Nat.ltb_spec (size (pin a)) NBUF) as [Hsz|Hsz].
  - apply (free_buffer s a HR) in Hsz as (i0 & b0 & Hi0 & Hnp0).
    unfold Cache.bread, bget. mred.
    change (fun b : buf => (dev b =? d) && (blockno b =? n)) with (match_key h).
    destruct (walk (bufs s) (match_key h) (lru s)) as [i|] eqn:Hw.
    { apply walk_Some in Hw as (_ & b & Hb & Hk%match_key_spec).
      destruct (Hnc i b Hb) as [?|Hpr]; [done|].
      assert (dev b = d) as Hdev by (by injection Hk).
      destruct (wf_unused s W i b Hb) as [Hnp Hnv]; [congruence|].
      unfold is_pinned in Hnp. apply orb_false_iff in Hnp as [Hbz Hdz].
      rewrite Hb, Hbz. simpl. rewrite list_lookup_insert_eq by (by eapply lookup_lt_Some).
      simpl. flags. rewrite Hnv. simpl. unfold diskrw. simpl.
      rewrite list_lookup_insert_eq by (by eapply lookup_lt_Some).
      cbn [dev set_flags]. rewrite Hdev, Hpr. simpl. eauto. }
    destruct (walk _ _ (reverse (lru s))) as [i|] eqn:Hw2.
    2:{ eapply walk_None in Hw2; [|rewrite elem_of_reverse; by eapply wf_index|exact Hi0].
        unfold is_pinned in Hnp0. by destruct (has (flags b0) B_BUSY), (has (flags b0) B_DIRTY). }
    apply walk_Some in Hw2 as (_ & b & Hb & Hcl). rewrite Hb. simpl.
    pose proof (lookup_lt_Some _ _ _ Hb) as Hlt.
    rewrite list_lookup_insert_eq by done. simpl.
    unfold diskrw. simpl. rewrite list_lookup_insert_eq by done. simpl.
    destruct (present d) eqn:Hpr; simpl; [|eauto].
    destruct (FSSIZE <=? n) eqn:Hr; simpl; [eauto|]. apply Z.leb_gt in Hr.
    eexists. split; [done|]. unfold set_buf. simpl. rewrite list_insert_insert_eq.
    unfold set_pin. rewrite (R_media _ _ HR), (R_budget _ _ HR).
    assert (is_pinned b = false) as Hnp.
    { unfold is_pinned. by destruct (has (flags b) B_BUSY), (has (flags b) B_DIRTY). }
    match goal with |- R {| bufs := <[_ := ?x]> _; lru := _; media := ?m; budget := ?bu |} _ =>
      pose proof (R_put s a i b x h m bu (lru s) HR Hb) as HP end.
    unfold is_pinned, pin_of in HP. simpl in HP.
    unfold on_media. rewrite (R_media _ _ HR). apply HP; try done.
    + intros j c Hc Hk. destruct (Hnc j c Hc); congruence.
    + intros Hp'. unfold is_pinned in Hnp. congruence.
  - unfold Cache.bread, bget. mred.
    change (fun b : buf => (dev b =? d) && (blockno b =? n)) with (match_key h).
    assert (forall i b, bufs s !! i = Some b -> is_pinned b = true) as Hall.
    { intros i b Hb. destruct (is_pinned b) eqn:E; [done|]. exfalso.
      assert (size (pin a) < NBUF)%nat; [|lia]. apply (free_buffer s a HR). eauto. }
    destruct (walk (bufs s) (match_key h) (lru s)) as [i|] eqn:Hw.
    { apply walk_Some in Hw as (_ & b & Hb & Hk%match_key_spec). exfalso.
      assert (pin a !! h = Some (pin_of b)); [|congruence].
      apply (R_pin _ _ HR). exists i, b. eauto. }
    destruct (walk _ _ (reverse (lru s))) as [i|] eqn:Hw2; [|simpl; eauto].
    apply walk_Some in Hw2 as (_ & b & Hb & Hcl). apply Hall in Hb. unfold is_pinned in Hb.
    by destruct (has (flags b) B_BUSY), (has (flags b) B_DIRTY).
Qed.

Lemma sim_bread s a h :
  R s a -> agrees (ignore (Cache.bread present h.1 h.2 s)) (Spec.bread present h a).
Proof.
  intros HR. pose proof (R_wf _ _ HR) as W. destruct (pin a !! h) as [v|] eqn:Hp.
  - unfold Spec.bread. rewrite Hp.
    destruct (pinned_buf s a h v HR Hp) as (i & b & Hi & Hk & Hpi & -> & Hw & Hpr & Hr & Hv & Hu).
    unfold Cache.bread, bget. mred.
    change (fun b : buf => (dev b =? h.1) && (blockno b =? h.2)) with (match_key h).
    rewrite Hw, Hi. destruct (has (flags b) B_BUSY) eqn:Hb; simpl; [eauto|].
    rewrite list_lookup_insert_eq by (by eapply lookup_lt_Some). simpl. flags. rewrite Hv. simpl.
    eexists. split; [done|]. unfold set_pin, set_buf.
    rewrite (R_media _ _ HR), (R_budget _ _ HR).
    pose proof (R_put s a i b (set_flags (setf (flags b) B_BUSY) b) h (media s) (budget s) (lru s) HR Hi Hk) as HP.
    unfold is_pinned, pin_of in HP. simpl in HP. flags. apply HP; auto; done.
  - destruct (walk (bufs s) (match_key h) (lru s)) as [i|] eqn:Hw.
    + apply walk_Some in Hw as (_ & b & Hb & Hk%match_key_spec).
      destruct (present h.1) eqn:Hpr.
      * destruct (sim_bread_cached s a h i b HR Hb Hk Hp Hpr) as (s' & -> & HR').
        unfold Spec.bread. rewrite Hp, Hpr.
        assert (dev b = h.1 /\ blockno b = h.2) as [Hd Hn] by (by subst h).
        destruct (wf_used s W i b Hb) as (_ & Hr & _); [congruence|].
        assert (size (pin a) < NBUF)%nat as Hsz.
        { apply (free_buffer s a HR). exists i, b. split; [done|].
          destruct (is_pinned b) eqn:E; [|done].
          assert (pin a !! h = Some (pin_of b)) by (apply (R_pin _ _ HR); eauto 6). congruence. }
        rewrite (proj2 (Nat.ltb_lt _ _) Hsz), (proj2 (Z.leb_gt FSSIZE h.2)) by lia. simpl. eauto.
      * apply sim_bread_recycle; [done| |done]. auto.
    + apply sim_bread_recycle; [done| |done]. intros i b Hb. left.
      intros Hk%match_key_spec. eapply walk_None in Hw; [|by eapply wf_index|done]. congruence.
Qed.

(** A client run on the cache ended as on the specification: the same value
    and client memory with the correspondence re-established, the same panic,
    blocking alike, or cut off by the power with the same drive contents. *)
Definition same_outcome {K A} (r1 : res (K * bstate) A) (r2 : res (K * astate) A) : Prop :=
  match r2 with
  | Ok v (y, a') => exists s', r1 = Ok v (y, s') /\ R s' a'
  | Panic m (y, _) => m = "modified buffer released without a write" \/
      exists s', r1 = Panic m (y, s')
  | Blocked (y, _) => exists s', r1 = Blocked (y, s')
  | PowerFail (y, a') => exists s', r1 = PowerFail (y, s') /\ media s' = amedia a'
  end.

Lemma same_lift {K A B} (x : K) (r1 : res bstate B) (r2 : res astate B)
    (k1 : B -> bstate -> res (K * bstate) A) (k2 : B -> astate -> res (K * astate) A) :
  agrees r1 r2 ->
  (forall v s a, R s a -> same_outcome (k1 v s) (k2 v a)) ->
  same_outcome (BlockIO.lift_res x r1 k1) (BlockIO.lift_res x r2 k2).
Proof.
  intros Hag Hk. destruct r2 as [v a|m a|a|a]; simpl in *.
  - destruct Hag as (s & -> & HR). by apply Hk.
  - destruct Hag as [->|[s ->]]; [by left|right]. simpl. eauto.
  - destruct Hag as [s ->]. simpl. eauto.
  - destruct Hag as (s & -> & H). simpl. eauto.
Qed.

Lemma lift_ignore {K S A B} (x : K) (r : res S A) (k : unit -> S -> res (K * S) B) :
  BlockIO.lift_res x r (fun _ s => k tt s) = BlockIO.lift_res x (ignore r) (fun _ s => k tt s).
Proof. by destruct r. Qed.

Lemma run_refines {K A} (p : BlockIO.prog K A) (x : K) s a :
  R s a -> same_outcome (BlockIO.run present p x s) (Spec.run present p x a).
Proof.
  revert x s a. induction p as [v|k IH|y p IH|d bn p IH|h k IH|h d p IH|h p IH|h p IH|h p IH|m|];
    intros x s a HR; cbn [BlockIO.run Spec.run].
  - simpl. eauto.
  - apply IH, HR.
  - apply IH, HR.
  - rewrite (lift_ignore x (Cache.bread present d bn s) (fun _ s' => BlockIO.run present p x s')).
    apply same_lift; [by apply (sim_bread s a (d, bn))|]. intros _ s' a' HR'. by apply IH.
  - apply same_lift; [by apply sim_data|]. intros v s' a' HR'. by apply IH.
  - apply same_lift; [by apply sim_set|]. intros _ s' a' HR'. by apply IH.
  - apply same_lift; [by apply sim_write|]. intros _ s' a' HR'. by apply IH.
  - apply same_lift; [by apply sim_pin|]. intros _ s' a' HR'. by apply IH.
  - apply same_lift; [by apply sim_brelse|]. intros _ s' a' HR'. by apply IH.
  - simpl. eauto.
  - simpl. eauto.
Qed.

(** C2: the buffer cache implements its specification.  Any client program,
    run on the [NBUF]-buffer cache with its LRU eviction, ends the way it ends
    on the specification, where reading a block returns the pinned contents or
    else what the drive holds. *)
Theorem cache_refines_spec {K A} (p : BlockIO.prog K A) (x : K) s a :
  R s a -> same_outcome (BlockIO.run present p x s) (Spec.run present p x a).
Proof. apply run_refines. Qed.

(** The cache [binit] builds is in the correspondence, with nothing pinned. *)
Lemma binit_R m bud :
  present (2 ^ 32 - 1) = false ->
  R (binit m bud) {| amedia := m; pin := ∅; abudget := bud |}.
Proof.
  intros Hno. assert (forall i b, bufs (binit m bud) !! i = Some b ->
    b = {| flags := 0; dev := 2 ^ 32 - 1; blockno := 0; data := zero_block |}) as Hb.
  { intros i b [-> _]%lookup_replicate. done. }
  split; [split|done|done|].
  - apply length_replicate.
  - apply reverse_Permutation.
  - intros i j b c Hi _ Hp _. apply Hb in Hi as ->. simpl in Hp. congruence.
  - intros i b Hi Hp. apply Hb in Hi as ->. simpl in Hp. congruence.
  - intros i b Hi _. apply Hb in Hi as ->. done.
  - intros h v. cbn [pin]. rewrite lookup_empty. split; [done|].
    intros (i & b & Hi & _ & Hp & _). apply Hb in Hi as ->. done.
Qed.
End refinement.

(** Read block 7 of disk 0, change a byte, write it through, and read it back. *)
Definition demo : BlockIO.prog unit Z :=
  b ← BlockIO.bread 0 7;
  d ← BlockIO.bdata b;
  BlockIO.bset b (<[3%nat := 42]> d) ;;
  BlockIO.bwrite b ;;
  BlockIO.brelse b ;;
  b ← BlockIO.bread 0 7;
  d ← BlockIO.bdata b;
  BlockIO.brelse b ;;
  mret (default 0 (d !! 3%nat)).

Lemma cache_refines_spec_witness :
  same_outcome (fun d => d =? 0) (BlockIO.run (fun d => d =? 0) demo tt (binit ∅ None))
    (Spec.run (fun d => d =? 0) demo tt {| amedia := ∅; pin := ∅; abudget := None |}).
Proof. apply cache_refines_spec, binit_R. reflexivity. Defined.
End Refinement.
