(* ===== verification/Disk.v ===== *)
(** The disk table ([disk.c]) and the in-memory state of the file system the
    buffer cache's clients run on: disks with their superblocks and logs
    ([fs.h]) and the inode cache ([file.h]). *)

From S2P Require Import Prelude Params Bio.
Import BlockIO.

(** ** Data *)

(** [struct superblock]. *)
Record superblock := Superblock {
  label : list Z; version : Z; bootable : Z; system : Z;
  sb_size : Z; nblocks : Z; ninodes : Z; nlog : Z;
  logstart : Z; inodestart : Z; bmapstart : Z; bootinode : Z; kerninode : Z
}.

(** Its image in block 1: [char label[11]], three [uchar]s, two bytes of
    padding, nine [uint]s. *)
Definition decode_sb (b : block) : superblock :=
  {| label := slice b 0 11; version := load_le b 11 1; bootable := load_le b 12 1;
     system := load_le b 13 1; sb_size := load_le b 16 4; nblocks := load_le b 20 4;
     ninodes := load_le b 24 4; nlog := load_le b 28 4; logstart := load_le b 32 4;
     inodestart := load_le b 36 4; bmapstart := load_le b 40 4; bootinode := load_le b 44 4;
     kerninode := load_le b 48 4 |}.

(** [struct log] with its [struct logheader]; the lock is left out. *)
Record log := Log {
  l_start : Z; l_size : Z; outstanding : Z; committing : Z; l_dev : Z;
  lh_n : Z; lh_block : list Z
}.
(** What [kmallocz(sizeof(struct log))] holds. *)
Definition log_zero : log :=
  {| l_start := 0; l_size := 0; outstanding := 0; committing := 0; l_dev := 0;
     lh_n := 0; lh_block := replicate (Z.to_nat LOGSIZE) 0 |}.

(** [struct disk]; [diskrw] is whether a driver function is registered, and
    pointers to inodes are indices into the inode cache. *)
Record disk := Disk {
  d_flags : Z; driver_flags : Z; d_type : Z; driver_device : Z;
  d_mountroot : option nat; d_sb : superblock; d_log : option log
}.

Definition DRIVER_INUSE : Z := 2 ^ 0.
Definition DISK_MOUNTED : Z := 2 ^ 1.
Definition DISK_INITIALIZED : Z := 2 ^ 2.

Definition set_d_flags (f : Z) (d : disk) : disk :=
  {| d_flags := f; driver_flags := driver_flags d; d_type := d_type d;
     driver_device := driver_device d; d_mountroot := d_mountroot d; d_sb := d_sb d; d_log := d_log d |}.
Definition set_d_mountroot (r : option nat) (d : disk) : disk :=
  {| d_flags := d_flags d; driver_flags := driver_flags d; d_type := d_type d;
     driver_device := driver_device d; d_mountroot := r; d_sb := d_sb d; d_log := d_log d |}.
Definition set_d_sb (sb : superblock) (d : disk) : disk :=
  {| d_flags := d_flags d; driver_flags := driver_flags d; d_type := d_type d;
     driver_device := driver_device d; d_mountroot := d_mountroot d; d_sb := sb; d_log := d_log d |}.
Definition set_d_log (l : option log) (d : disk) : disk :=
  {| d_flags := d_flags d; driver_flags := driver_flags d; d_type := d_type d;
     driver_device := driver_device d; d_mountroot := d_mountroot d; d_sb := d_sb d; d_log := l |}.

(** ** The table's operations *)

Section table.
Implicit Types (ds : list disk).

Definition disk_at ds (dev : Z) : option disk := ds !! Z.to_nat dev.
Definition upd_disk (dev : Z) (f : disk -> disk) ds : list disk := alter f (Z.to_nat dev) ds.

Definition realdisk_exists ds (devid : Z) : Z :=
  if Z.of_nat DISKMAX <=? devid then -1 else
  match disk_at ds devid with
  | Some d => if negb (has (d_flags d) DRIVER_INUSE) then -2 else 0
  | None => -1
  end.

Definition realdisk ds (devid : Z) : option Z := driver_device <$> disk_at ds devid.
Definition diskflags ds (devid : Z) : option Z := driver_flags <$> disk_at ds devid.

(** The first slot without a driver is claimed; 0 when there is none. *)
Definition register_disk ds (type rdev : Z) : list disk * Z :=
  match scan (fun d => negb (has (d_flags d) DRIVER_INUSE)) ds with
  | Some (i, d) =>
    (<[i := {| d_flags := setf (d_flags d) DRIVER_INUSE; driver_flags := driver_flags d;
               d_type := type; driver_device := rdev; d_mountroot := d_mountroot d;
               d_sb := d_sb d; d_log := d_log d |}]> ds, Z.of_nat i)
  | None => (ds, 0)
  end.

Definition disktype ds (devid : Z) : Z :=
  if Z.of_nat DISKMAX <=? devid then -1 else
  match disk_at ds devid with
  | Some d => if negb (has (d_flags d) DRIVER_INUSE) then -2 else d_type d
  | None => -1
  end.

Definition diskmounted ds (dev : Z) : bool :=
  match disk_at ds dev with Some d => has (d_flags d) DISK_MOUNTED | None => false end.

Definition diskmount0 ds (dev : Z) (sb : superblock) : list disk * Z :=
  if diskmounted ds dev then (ds, -1) else
  (upd_disk dev (fun d =>
     set_d_log (Some log_zero) (set_d_sb sb (set_d_flags (setf (d_flags d) DISK_MOUNTED) d))) ds, 0).

Definition diskmount1 ds (dev : Z) (root : option nat) : list disk * Z :=
  if negb (diskmounted ds dev) then (ds, -1) else
  (upd_disk dev (fun d =>
     set_d_flags (setf (d_flags d) DISK_INITIALIZED) (set_d_mountroot root d)) ds, 0).

Definition diskmount ds (dev : Z) (root : option nat) (sb : superblock) : list disk * Z :=
  if diskmounted ds dev then (ds, -1) else
  (upd_disk dev (fun d =>
     set_d_sb sb (set_d_flags (setf (d_flags d) DISK_MOUNTED) (set_d_mountroot root d))) ds, 0).

(** [kmfree(disks[disk].log)] leaves the pointer in place; what it points to
    is gone. *)
Definition diskunmount ds (dev : Z) : list disk :=
  if diskmounted ds dev then
    upd_disk dev (fun d =>
      set_d_log None
        (set_d_flags (clrf (clrf (d_flags d) DISK_MOUNTED) DISK_INITIALIZED)
          (set_d_mountroot None d))) ds
  else ds.

Definition diskroot ds (dev : Z) : option nat :=
  if diskmounted ds dev then d ← disk_at ds dev; d_mountroot d else None.
Definition getsuperblock_of ds (dev : Z) : option superblock :=
  if diskmounted ds dev then d_sb <$> disk_at ds dev else None.
Definition setsuperblock ds (dev : Z) (sb : superblock) : list disk :=
  if diskmounted ds dev then upd_disk dev (set_d_sb sb) ds else ds.
Definition getlog_of ds (dev : Z) : option log :=
  if diskmounted ds dev then d ← disk_at ds dev; d_log d else None.
End table.

(** ** The file system's memory *)

(** [struct inode], the in-memory copy. *)
Record inode := Inode {
  i_dev : Z; i_inum : Z; i_ref : Z; i_flags : Z;
  mountroot : option nat; mountparent : option nat; mountpoint : option nat;
  i_type : Z; i_major : Z; i_minor : Z; i_owner : Z; i_perms : Z; i_attrib : Z;
  i_nlink : Z; i_size : Z; i_addrs : list Z
}.
Definition inode_zero : inode :=
  {| i_dev := 0; i_inum := 0; i_ref := 0; i_flags := 0; mountroot := None; mountparent := None;
     mountpoint := None; i_type := 0; i_major := 0; i_minor := 0; i_owner := 0; i_perms := 0;
     i_attrib := 0; i_nlink := 0; i_size := 0; i_addrs := replicate NDIRECT 0 |}.

Record kfs := KFS {
  disks : list disk;
  icache : list inode;           (* icache.inode *)
  rootdir : option nat;
  havesysfs : bool
}.

Definition set_disks (ds : list disk) (x : kfs) : kfs :=
  {| disks := ds; icache := icache x; rootdir := rootdir x; havesysfs := havesysfs x |}.
Definition set_icache (ic : list inode) (x : kfs) : kfs :=
  {| disks := disks x; icache := ic; rootdir := rootdir x; havesysfs := havesysfs x |}.

(** Dereferencing what [getsuperblock]/[getlog] return: nil is a fault. *)
Definition getsuperblock (dev : Z) : prog kfs superblock :=
  o ← kget (fun x => getsuperblock_of (disks x) dev);
  match o with Some sb => mret sb | None => fail "nil superblock" end.
Definition getlog (dev : Z) : prog kfs log :=
  o ← kget (fun x => getlog_of (disks x) dev);
  match o with Some l => mret l | None => fail "nil log" end.
Definition putlog (dev : Z) (l : log) : prog kfs unit :=
  kmodify (fun x => set_disks (upd_disk dev (set_d_log (Some l)) (disks x)) x).

(** ** Facts *)

Lemma disk_at_upd ds dev f d :
  disk_at ds dev = Some d -> disk_at (upd_disk dev f ds) dev = Some (f d).
Proof. unfold disk_at, upd_disk. intros H. by rewrite list_lookup_alter_eq, H. Qed.

Lemma getlog_putlog ds dev l l' :
  getlog_of ds dev = Some l -> getlog_of (upd_disk dev (set_d_log (Some l')) ds) dev = Some l'.
Proof.
  unfold getlog_of, diskmounted. destruct (disk_at ds dev) as [d|] eqn:E; [|done].
  rewrite (disk_at_upd _ _ _ _ E). simpl. by destruct (has _ _).
Qed.

Lemma diskmount0_fresh ds dev sb :
  diskmounted ds dev = false ->
  diskmount0 ds dev sb =
  (upd_disk dev (fun d =>
     set_d_log (Some log_zero) (set_d_sb sb (set_d_flags (setf (d_flags d) DISK_MOUNTED) d))) ds, 0).
Proof. unfold diskmount0. by intros ->. Qed.

(** A mounted disk's superblock and a fresh, empty log are what
    [getsuperblock] and [getlog] return after [diskmount0]; mounting it again is
    refused and changes nothing; [diskunmount] makes both nil again. *)
Theorem diskmount0_roundtrip ds dev sb d :
  disk_at ds dev = Some d -> diskmounted ds dev = false ->
  let ds' := (diskmount0 ds dev sb).1 in
  (diskmount0 ds dev sb).2 = 0 /\
  getsuperblock_of ds' dev = Some sb /\ getlog_of ds' dev = Some log_zero /\
  diskmount0 ds' dev sb = (ds', -1) /\
  getsuperblock_of (diskunmount ds' dev) dev = None /\ getlog_of (diskunmount ds' dev) dev = None.
Proof.
  intros Hd Hm. rewrite (diskmount0_fresh ds dev sb Hm). cbn [fst snd]. split; [done|].
  set (ds' := upd_disk _ _ _).
  assert (disk_at ds' dev = Some (set_d_log (Some log_zero) (set_d_sb sb
    (set_d_flags (setf (d_flags d) DISK_MOUNTED) d)))) as Hd' by exact (disk_at_upd ds dev _ d Hd).
  assert (diskmounted ds' dev = true) as Hm'.
  { unfold diskmounted. rewrite Hd'. simpl. unfold DISK_MOUNTED. by rewrite has_setf by lia. }
  unfold diskmount0, getsuperblock_of, getlog_of, diskunmount. rewrite Hm', Hd'.
  do 3 (split; [done|]).
  assert (diskmounted (upd_disk dev (fun d => set_d_log None
          (set_d_flags (clrf (clrf (d_flags d) DISK_MOUNTED) DISK_INITIALIZED)
            (set_d_mountroot None d))) ds') dev = false) as ->; [|done].
  unfold diskmounted. rewrite (disk_at_upd _ _ _ _ Hd'). simpl.
  unfold DISK_MOUNTED, DISK_INITIALIZED. by rewrite !has_clrf by lia.
Qed.
Definition blank_sb : superblock := decode_sb zero_block.
Definition blank_disk : disk :=
  {| d_flags := 0; driver_flags := 0; d_type := 0; driver_device := 0; d_mountroot := None;
     d_sb := blank_sb; d_log := None |}.
Definition blank_disks : list disk := replicate DISKMAX blank_disk.
Lemma diskmount0_roundtrip_witness :
  let ds' := (diskmount0 blank_disks 0 blank_sb).1 in
  (diskmount0 blank_disks 0 blank_sb).2 = 0 /\
  getsuperblock_of ds' 0 = Some blank_sb /\ getlog_of ds' 0 = Some log_zero /\
  diskmount0 ds' 0 blank_sb = (ds', -1) /\
  getsuperblock_of (diskunmount ds' 0) 0 = None /\ getlog_of (diskunmount ds' 0) 0 = None.
Proof. apply (diskmount0_roundtrip blank_disks 0 blank_sb blank_disk); reflexivity. Defined.

(** [register_disk] claims the first slot without a driver and no other;
    with every slot taken it returns 0, the number of the boot disk, and the
    table is unchanged. *)
Theorem register_disk_spec ds type rdev ds' n :
  register_disk ds type rdev = (ds', n) ->
  (exists d, ds !! Z.to_nat n = Some d /\ has (d_flags d) DRIVER_INUSE = false /\
     (forall j e, (j < Z.to_nat n)%nat -> ds !! j = Some e -> has (d_flags e) DRIVER_INUSE = true) /\
     (exists d', ds' !! Z.to_nat n = Some d' /\ has (d_flags d') DRIVER_INUSE = true /\
        driver_device d' = rdev /\ d_type d' = type) /\
     (forall j, j <> Z.to_nat n -> ds' !! j = ds !! j)) \/
  (n = 0 /\ ds' = ds /\ forall j e, ds !! j = Some e -> has (d_flags e) DRIVER_INUSE = true).
Proof.
  unfold register_disk. destruct (scan _ ds) as [[i d]|] eqn:E; intros [= <- <-].
  - left. apply scan_Some in E as (Hi & Hp%negb_true_iff & Hbefore). rewrite Nat2Z.id.
    exists d. split; [done|]. split; [done|]. split; [|split].
    + intros j e Hj He. by apply negb_false_iff, (Hbefore j e).
    + eexists. rewrite list_lookup_insert_eq by (by eapply lookup_lt_Some).
      split; [done|]. simpl. unfold DRIVER_INUSE. by rewrite has_setf by lia.
    + intros j Hj. by rewrite list_lookup_insert_ne by done.
  - right. split; [done|]. split; [done|]. intros j e He.
    rewrite scan_None in E. by apply negb_false_iff, (E j e).
Qed.
Lemma register_disk_spec_witness :
  let r := register_disk blank_disks 0 1 in
  (exists d, blank_disks !! Z.to_nat r.2 = Some d /\ has (d_flags d) DRIVER_INUSE = false /\
     (forall j e, (j < Z.to_nat r.2)%nat -> blank_disks !! j = Some e -> has (d_flags e) DRIVER_INUSE = true) /\
     (exists d', r.1 !! Z.to_nat r.2 = Some d' /\ has (d_flags d') DRIVER_INUSE = true /\
        driver_device d' = 1 /\ d_type d' = 0) /\
     (forall j, j <> Z.to_nat r.2 -> r.1 !! j = blank_disks !! j)) \/
  (r.2 = 0 /\ r.1 = blank_disks /\
   forall j e, blank_disks !! j = Some e -> has (d_flags e) DRIVER_INUSE = true).
Proof. apply register_disk_spec. reflexivity. Defined.
