(* ===== verification/Log.v ===== *)
(** The write-ahead log ([log.c]), written as programs over the buffer cache.

    The disk layout: block [start] is the header (the count [n] and the home
    block numbers), blocks [start+1 .. start+n] hold the logged contents.
    [commit] writes the log, then the header (the commit point), installs the
    blocks at home and clears the header; [recover_from_log] redoes the install
    after a crash. *)

From S2P Require Import Prelude Params Bio Disk.
Import BlockIO.

(** ** The code *)

Section fields.
Implicit Types l : log.
Definition set_outstanding (v : Z) l : log :=
  {| l_start := l_start l; l_size := l_size l; outstanding := v; committing := committing l;
     l_dev := l_dev l; lh_n := lh_n l; lh_block := lh_block l |}.
Definition set_committing (v : Z) l : log :=
  {| l_start := l_start l; l_size := l_size l; outstanding := outstanding l; committing := v;
     l_dev := l_dev l; lh_n := lh_n l; lh_block := lh_block l |}.
Definition set_lh (n : Z) (bs : list Z) l : log :=
  {| l_start := l_start l; l_size := l_size l; outstanding := outstanding l;
     committing := committing l; l_dev := l_dev l; lh_n := n; lh_block := bs |}.
Definition set_place (st sz d : Z) l : log :=
  {| l_start := st; l_size := sz; outstanding := outstanding l; committing := committing l;
     l_dev := d; lh_n := lh_n l; lh_block := lh_block l |}.
End fields.

(** [log->lh.block[i]]; an index beyond the array is a fault. *)
Definition lh_at (l : log) (i : nat) : prog kfs Z :=
  match lh_block l !! i with Some b => mret b | None => fail "lh.block index" end.

(** Copy committed blocks from log to their home location. *)
Definition install_one (l : log) (tail : nat) : prog kfs unit :=
  lbuf ← bread (l_dev l) (l_start l + Z.of_nat tail + 1);
  b ← lh_at l tail;
  dbuf ← bread (l_dev l) b;
  x ← bdata lbuf;
  bset dbuf x ;;
  bwrite dbuf ;;
  brelse lbuf ;;
  brelse dbuf.

Definition install_trans (dev : Z) : prog kfs unit :=
  l ← getlog dev;
  pfor (seq 0 (Z.to_nat (lh_n l))) (install_one l).

(** The header block: [int n] and [int block[LOGSIZE]]. *)
Definition decode_n (hd : block) : Z := s32 (load_le hd 0 4).
Definition decode_block (hd : block) (i : nat) : Z := load_le hd (4 + 4 * i) 4.
Fixpoint encode_blocks (hd : block) (i : nat) (bs : list Z) : block :=
  match bs with
  | [] => hd
  | b :: bs' => encode_blocks (store_le hd (4 + 4 * i) 4 b) (S i) bs'
  end.
Definition encode_head (hd : block) (n : Z) (bs : list Z) : block :=
  encode_blocks (store_le hd 0 4 n) 0 (take (Z.to_nat n) bs).

(** Read the log header from disk into the in-memory log header. *)
Definition read_head (dev : Z) : prog kfs unit :=
  l ← getlog dev;
  buf ← bread (l_dev l) (l_start l);
  hd ← bdata buf;
  let n := decode_n hd in
  (if n <=? LOGSIZE then mret tt else fail "lh.block index") ;;
  putlog dev (set_lh n
    ((decode_block hd <$> seq 0 (Z.to_nat n)) ++ drop (Z.to_nat n) (lh_block l)) l) ;;
  brelse buf.

(** Write in-memory log header to disk: the point at which the transaction
    commits. *)
Definition write_head (dev : Z) : prog kfs unit :=
  l ← getlog dev;
  buf ← bread (l_dev l) (l_start l);
  hd ← bdata buf;
  bset buf (encode_head hd (lh_n l) (lh_block l)) ;;
  bwrite buf ;;
  brelse buf.

Definition clear_lh (dev : Z) : prog kfs unit :=
  l ← getlog dev; putlog dev (set_lh 0 (lh_block l) l).

Definition recover_from_log (dev : Z) : prog kfs unit :=
  read_head dev ;;
  install_trans dev ;;
  clear_lh dev ;;
  write_head dev.

Definition initlog (dev : Z) : prog kfs unit :=
  sb ← getsuperblock dev;
  l ← getlog dev;
  if nlog sb =? 0 then mret tt else
  putlog dev (set_place (logstart sb) (nlog sb) dev l) ;;
  recover_from_log dev.

(** Called at the start of each FS system call: one pass of the loop, which
    sleeps while a commit runs or the log might fill up. *)
Definition begin_op (dev : Z) : prog kfs unit :=
  l ← getlog dev;
  if l_size l =? 0 then mret tt else
  if negb (committing l =? 0) then sleep else
  if LOGSIZE <? lh_n l + (outstanding l + 1) * MAXOPBLOCKS then sleep else
  putlog dev (set_outstanding (outstanding l + 1) l).

(** Copy modified blocks from cache to log. *)
Definition write_log_one (l : log) (tail : nat) : prog kfs unit :=
  to ← bread (l_dev l) (l_start l + Z.of_nat tail + 1);
  b ← lh_at l tail;
  from ← bread (l_dev l) b;
  x ← bdata from;
  bset to x ;;
  bwrite to ;;
  brelse from ;;
  brelse to.

Definition write_log (dev : Z) : prog kfs unit :=
  l ← getlog dev;
  pfor (seq 0 (Z.to_nat (lh_n l))) (write_log_one l).

Definition commit (dev : Z) : prog kfs unit :=
  l ← getlog dev;
  if 0 <? lh_n l then
    write_log dev ;;
    write_head dev ;;
    install_trans dev ;;
    clear_lh dev ;;
    write_head dev
  else mret tt.

(** Called at the end of each FS system call; commits if this was the last
    outstanding operation. *)
Definition end_op (dev : Z) : prog kfs unit :=
  l ← getlog dev;
  if l_size l =? 0 then mret tt else
  let l1 := set_outstanding (outstanding l - 1) l in
  putlog dev l1 ;;
  if negb (committing l1 =? 0) then fail "log->committing" else
  if outstanding l1 =? 0 then
    putlog dev (set_committing 1 l1) ;;
    commit dev ;;
    l2 ← getlog dev;
    putlog dev (set_committing 0 l2)
  else mret tt.

(** Index of the logged block, or [n] (log absorption). *)
Definition absorb (l : log) (b : Z) : nat :=
  match scan (fun x => x =? b) (take (Z.to_nat (lh_n l)) (lh_block l)) with
  | Some (i, _) => i
  | None => Z.to_nat (lh_n l)
  end.

(** Caller has modified the buffer and is done with it: record the block number
    and pin the buffer in the cache. *)
Definition log_write (b : key) : prog kfs unit :=
  l ← getlog b.1;
  if l_size l =? 0 then bwrite b else
  if (LOGSIZE <=? lh_n l) || (l_size l - 1 <=? lh_n l) then fail "too big a transaction" else
  if outstanding l <? 1 then fail "log_write outside of trans" else
  let i := absorb l b.2 in
  putlog b.1 (set_lh (if (Z.of_nat i =? lh_n l) then lh_n l + 1 else lh_n l)
                     (<[i := b.2]> (lh_block l)) l) ;;
  bpin b.

(** ** Crashes

    The writes a program sends to the drive, in order, when nothing cuts it
    off. *)
Section trace.
Import Spec.
Context (present : Z -> bool).

Definition lift_trace {A} (r : res astate A) (k : A -> astate -> list (key * block)) :=
  match r with Ok v a => k v a | _ => [] end.

Fixpoint trace {K A} (p : prog K A) (x : K) (a : astate) : list (key * block) :=
  match p with
  | Ret _ | Fail _ | Sleep => []
  | Get k => trace (k x) x a
  | Put y p => trace p y a
  | Bread d bn p => lift_trace (Spec.bread present (d, bn) a) (fun _ a' => trace p x a')
  | Data h k => lift_trace (Spec.bdata h a) (fun d a' => trace (k d) x a')
  | SetData h d p => lift_trace (Spec.bset h d a) (fun _ a' => trace p x a')
  | Bwrite h p =>
    lift_trace (Spec.bwrite h a) (fun _ a' => (h, view a h) :: trace p x a')
  | Pin h p => lift_trace (Spec.bpin h a) (fun _ a' => trace p x a')
  | Brelse h p => lift_trace (Spec.brelse h a) (fun _ a' => trace p x a')
  end.

Definition apply_writes (ws : list (key * block)) (m : gmap key block) : gmap key block :=
  foldl (fun m w => <[w.1 := w.2]> m) m ws.

Definition with_budget (n : option nat) (a : astate) : astate :=
  {| amedia := amedia a; pin := pin a; abudget := n |}.

Lemma with_budget_id a : with_budget (abudget a) a = a.
Proof. by destruct a. Qed.

(** The budget only matters to writes. *)
Definition same_but_budget {A} (f : M astate A) : Prop := forall n a,
  match f (with_budget None a) with
  | Ok v b => abudget b = None /\ amedia b = amedia a /\ f (with_budget n a) = Ok v (with_budget n b)
  | _ => True
  end.

Lemma budget_bread h : same_but_budget (Spec.bread present h).
Proof.
  intros n a. unfold Spec.bread. cbn [pin with_budget].
  destruct (pin a !! h) as [v|]; [by destruct (p_busy v)|].
  destruct (_ <? _)%nat; [|done]. destruct (negb _); [done|]. by destruct (_ <=? _).
Qed.
Lemma budget_busy {A} h (f : pinned -> M astate A) :
  (forall v, same_but_budget (f v)) -> same_but_budget (with_busy h f).
Proof.
  intros Hf n a. unfold with_busy. cbn [pin with_budget].
  destruct (pin a !! h) as [v|]; [|done]. destruct (p_busy v); [apply Hf|done].
Qed.
Lemma budget_bdata h : same_but_budget (Spec.bdata h).
Proof. apply budget_busy. by intros v n a. Qed.
Lemma budget_bset h d : same_but_budget (Spec.bset h d).
Proof. apply budget_busy. by intros v n a. Qed.
Lemma budget_bpin h : same_but_budget (Spec.bpin h).
Proof. apply budget_busy. by intros v n a. Qed.
Lemma budget_brelse h : same_but_budget (Spec.brelse h).
Proof.
  apply budget_busy. intros v n a. unfold on_media. cbn [amedia with_budget].
  destruct (p_dirty v); [done|]. by case_bool_decide.
Qed.

Definition prefix_spec {K A} (p : prog K A) (x : K) (a : astate) : Prop :=
  forall v y a' n,
  Spec.run present p x (with_budget None a) = Ok v (y, a') ->
  let ws := trace p x (with_budget None a) in
  amedia a' = apply_writes ws (amedia a) /\
  if (n <? length ws)%nat
  then exists z b, Spec.run present p x (with_budget (Some n) a) = PowerFail (z, b) /\
         amedia b = apply_writes (take n ws) (amedia a)
  else Spec.run present p x (with_budget (Some n) a)
       = Ok v (y, with_budget (Some (n - length ws)%nat) a').

Lemma prefix_lift {K A B} (f : M astate B) (k : B -> prog K A) x a v y a' n :
  same_but_budget f ->
  (forall r b, prefix_spec (k r) x b) ->
  lift_res x (f (with_budget None a)) (fun r b => Spec.run present (k r) x b) = Ok v (y, a') ->
  let ws := lift_trace (f (with_budget None a)) (fun r b => trace (k r) x b) in
  amedia a' = apply_writes ws (amedia a) /\
  if (n <? length ws)%nat
  then exists z b, lift_res x (f (with_budget (Some n) a)) (fun r b => Spec.run present (k r) x b)
         = PowerFail (z, b) /\ amedia b = apply_writes (take n ws) (amedia a)
  else lift_res x (f (with_budget (Some n) a)) (fun r b => Spec.run present (k r) x b)
       = Ok v (y, with_budget (Some (n - length ws)%nat) a').
Proof.
  intros Hf Hk H. specialize (Hf (Some n) a).
  destruct (f (with_budget None a)) as [r b| | |]; try done. simpl in *.
  destruct Hf as (Hb & Hm & ->). simpl. rewrite <- Hm.
  assert (b = with_budget None b) as Eb by (rewrite <- Hb; by rewrite with_budget_id).
  pose proof (Hk r b v y a' n) as HP. rewrite <- Eb in HP. exact (HP H).
Qed.

Lemma run_prefix {K A} (p : prog K A) x a : prefix_spec p x a.
Proof.
  revert x a. induction p as [r|k IH|z p IH|d bn p IH|h k IH|h d p IH|h p IH|h p IH|h p IH|m|];
    intros x a v y a' n H; cbn [Spec.run trace] in *; try done.
  - injection H as <- <- <-. simpl. by rewrite Nat.sub_0_r.
  - by apply IH.
  - by apply IH.
  - apply (prefix_lift (Spec.bread present (d, bn)) (fun _ => p)); auto using budget_bread.
  - apply (prefix_lift (Spec.bdata h) k); auto using budget_bdata.
  - apply (prefix_lift (Spec.bset h d) (fun _ => p)); auto using budget_bset.
  - unfold Spec.bwrite, with_busy, view in *. cbn [pin with_budget abudget amedia] in *.
    destruct (pin a !! h) as [w|] eqn:Hw; [|done]. destruct (p_busy w) eqn:Hb; [|done].
    cbn [lift_res lift_trace fmap option_fmap option_map] in *.
    set (b := {| amedia := <[h:=p_data w]> (amedia a);
      pin := <[h:={| p_dirty := false; p_busy := true; p_data := p_data w |}]> (pin a);
      abudget := None |}) in *.
    destruct n as [|n]; cbn [length Nat.ltb Nat.leb lift_res].
    + split; [by destruct (IH x b v y a' 0%nat H)|]. eexists _, _. done.
    + destruct (IH x b v y a' n H) as [H1 H2]. split; [done|]. exact H2.
  - apply (prefix_lift (Spec.bpin h) (fun _ => p)); auto using budget_bpin.
  - apply (prefix_lift (Spec.brelse h) (fun _ => p)); auto using budget_brelse.
Qed.

Lemma trace_bind {K A B} (p : prog K A) (f : A -> prog K B) x a v y a' :
  Spec.run present p x a = Ok v (y, a') ->
  trace (p ≫= f) x a = trace p x a ++ trace (f v) y a'.
Proof.
  revert x a. induction p as [r|k IH|z p IH|d bn p IH|h k IH|h d p IH|h p IH|h p IH|h p IH|m|];
    intros x a H; cbn [Spec.run trace mbind prog_bind] in *; try done; eauto.
  - by injection H as <- <- <-.
  - unfold lift_res, lift_trace in *. destruct (Spec.bread _ _ _); try done. by apply IH.
  - unfold lift_res, lift_trace in *. destruct (Spec.bdata _ _); try done. by apply IH.
  - unfold lift_res, lift_trace in *. destruct (Spec.bset _ _ _); try done. by apply IH.
  - unfold lift_res, lift_trace in *. destruct (Spec.bwrite _ _); try done.
    simpl. f_equal. by apply IH.
  - unfold lift_res, lift_trace in *. destruct (Spec.bpin _ _); try done. by apply IH.
  - unfold lift_res, lift_trace in *. destruct (Spec.brelse _ _); try done. by apply IH.
Qed.

(** A power failure cuts a program off between two disk writes.  If the
    program returns when the power stays on, then with [n] writes left it
    returns the same result when it needs no more than [n], and otherwise
    stops with exactly its first [n] writes on the drive. *)
Theorem crash_is_prefix {K A} (p : prog K A) x m q v y a' n :
  let a := {| amedia := m; pin := q; abudget := None |} in
  Spec.run present p x a = Ok v (y, a') ->
  let ws := trace p x a in
  amedia a' = apply_writes ws m /\
  if (n <? length ws)%nat
  then exists z b, Spec.run present p x (with_budget (Some n) a) = PowerFail (z, b) /\
         amedia b = apply_writes (take n ws) m
  else Spec.run present p x (with_budget (Some n) a)
       = Ok v (y, with_budget (Some (n - length ws)%nat) a').
Proof. intros a H. apply (run_prefix p x a v y a' n H). Qed.
End trace.

(** ** The log's steps on the specification *)
Local Abbreviation st m p := {| Spec.amedia := m; Spec.pin := p; Spec.abudget := None |}.
Local Abbreviation media_at m h := (default zero_block (m !! h)).
Local Abbreviation busy_clean x :=
  {| Spec.p_dirty := false; Spec.p_busy := true; Spec.p_data := x |}.

Section steps.
Import Spec.
Context (present : Z -> bool).
Implicit Types (m : gmap key block) (p : gmap key pinned) (h : key).


Lemma spec_bread_fresh m p h :
  p !! h = None -> (size p < NBUF)%nat -> present h.1 = true -> h.2 < FSSIZE ->
  Spec.bread present h (st m p) = Ok tt (st m (<[h := busy_clean (media_at m h)]> p)).
Proof.
  intros Hp Hs Hd Hr. unfold Spec.bread. cbn [pin]. rewrite Hp.
  rewrite (proj2 (Nat.ltb_lt _ _) Hs), Hd, (proj2 (Z.leb_gt FSSIZE h.2)) by lia. done.
Qed.
Lemma spec_bread_dirty m p h x :
  p !! h = Some {| p_dirty := true; p_busy := false; p_data := x |} ->
  Spec.bread present h (st m p) =
  Ok tt (st m (<[h := {| p_dirty := true; p_busy := true; p_data := x |}]> p)).
Proof. intros Hp. unfold Spec.bread. cbn [pin]. by rewrite Hp. Qed.

(** The contents of a block as a reader sees them. *)
Definition seen m p h : block := match p !! h with Some v => p_data v | None => media_at m h end.

Definition unheld p h : Prop := p !! h = None \/ exists x, p !! h = Some {| p_dirty := true; p_busy := false; p_data := x |}.

Lemma spec_bread_any m p h :
  unheld p h -> (p !! h = None -> size p < NBUF)%nat -> present h.1 = true -> h.2 < FSSIZE ->
  exists dirty, (p !! h = None -> dirty = false) /\
    (is_Some (p !! h) -> dirty = true) /\
    Spec.bread present h (st m p) =
    Ok tt (st m (<[h := {| p_dirty := dirty; p_busy := true; p_data := seen m p h |}]> p)).
Proof.
  intros Hu Hs Hd Hr. unfold seen. destruct Hu as [Hn|[x Hx]].
  - exists false. rewrite Hn. split; [done|]. split; [by intros [? ?]|].
    apply spec_bread_fresh; auto.
  - exists true. rewrite Hx. split; [done|]. split; [done|]. by apply spec_bread_dirty.
Qed.

(** [write_log]'s iteration: the home block stays pinned as it was. *)
Lemma write_log_one_ok x m p l tail b v :
  lh_block l !! tail = Some b ->
  p !! (l_dev l, b) = Some {| p_dirty := true; p_busy := false; p_data := v |} ->
  p !! (l_dev l, l_start l + Z.of_nat tail + 1) = None ->
  (size p < NBUF)%nat -> present (l_dev l) = true ->
  l_start l + Z.of_nat tail + 1 < FSSIZE ->
  let lg := (l_dev l, l_start l + Z.of_nat tail + 1) in
  Spec.run present (write_log_one l tail) x (st m p) = Ok tt (x, st (<[lg := v]> m) p) /\
  trace present (write_log_one l tail) x (st m p) = [(lg, v)].
Proof.
  intros Hb Hp Hl Hs Hd Hr lg. unfold write_log_one, lh_at. rewrite Hb.
  set (home := (l_dev l, b)) in *. fold lg in Hl |- *.
  assert (lg <> home) as Hne by (intros E; rewrite E in Hl; congruence).
  cbn [Spec.run trace BlockIO.bread BlockIO.bdata BlockIO.bset BlockIO.bwrite BlockIO.brelse mbind prog_bind mret prog_ret]. fold lg home.
  rewrite (spec_bread_fresh m p lg) by done. cbn [lift_res lift_trace].
  rewrite (spec_bread_dirty m _ home v) by (by rewrite lookup_insert_ne). cbn [lift_res lift_trace].
  unfold Spec.bdata, Spec.bset, Spec.bwrite, Spec.brelse, with_busy, set_pin, view, on_media.
  cbn [pin amedia abudget].
  repeat (rewrite ?lookup_insert_eq, ?(lookup_insert_ne _ lg home), ?(lookup_insert_ne _ home lg) by done;
          cbn [p_busy p_data p_dirty lift_res lift_trace pin amedia abudget fmap option_fmap option_map default]).
  rewrite bool_decide_true by done. cbn [lift_res lift_trace].
  split; [|done]. do 3 f_equal.
  apply map_eq. intros k. destruct (decide (k = lg)) as [->|]; [by rewrite lookup_delete_eq, Hl|].
  rewrite lookup_delete_ne by done. destruct (decide (k = home)) as [->|].
  - by rewrite lookup_insert_eq, Hp.
  - by rewrite !lookup_insert_ne by done.
Qed.

(** [install_trans]'s iteration: the home block is written and unpinned. *)
Lemma install_one_ok x m p l tail b :
  lh_block l !! tail = Some b ->
  b <> l_start l + Z.of_nat tail + 1 ->
  unheld p (l_dev l, b) ->
  p !! (l_dev l, l_start l + Z.of_nat tail + 1) = None ->
  (S (size (delete (l_dev l, b) p)) < NBUF)%nat -> present (l_dev l) = true ->
  l_start l + Z.of_nat tail + 1 < FSSIZE -> b < FSSIZE ->
  let lg := (l_dev l, l_start l + Z.of_nat tail + 1) in
  let v := media_at m lg in
  Spec.run present (install_one l tail) x (st m p)
    = Ok tt (x, st (<[(l_dev l, b) := v]> m) (delete (l_dev l, b) p)) /\
  trace present (install_one l tail) x (st m p) = [((l_dev l, b), v)].
Proof.
  intros Hb Hne' Hu Hl Hs Hd Hr Hr' lg v. unfold install_one, lh_at. rewrite Hb.
  set (home := (l_dev l, b)) in *. fold lg in Hl |- *.
  assert (lg <> home) as Hne by (intros [= E]; congruence).
  assert (size p < NBUF)%nat as Hsp.
  { destruct (p !! home) eqn:E.
    - rewrite (map_size_delete_Some home p) in Hs by eauto.
      assert (size p <> 0%nat); [|lia]. intros E0. apply map_size_empty_inv in E0 as ->. done.
    - rewrite delete_id in Hs by done. lia. }
  cbn [Spec.run trace BlockIO.bread BlockIO.bdata BlockIO.bset BlockIO.bwrite BlockIO.brelse mbind prog_bind mret prog_ret]. fold lg home.
  rewrite (spec_bread_fresh m p lg) by done. cbn [lift_res lift_trace].
  destruct (spec_bread_any m (<[lg := busy_clean (media_at m lg)]> p) home)
    as (dirty & _ & _ & ->).
  { unfold unheld. by rewrite lookup_insert_ne. }
  { rewrite lookup_insert_ne by done. intros E. rewrite map_size_insert_None by done.
    rewrite delete_id in Hs by done. lia. }
  { done. }
  { done. }
  cbn [lift_res lift_trace].
  unfold Spec.bdata, Spec.bset, Spec.bwrite, Spec.brelse, with_busy, set_pin, view, on_media.
  cbn [pin amedia abudget].
  repeat (rewrite ?lookup_insert_eq, ?(lookup_insert_ne _ lg home), ?(lookup_insert_ne _ home lg),
            ?(lookup_delete_ne _ lg home) by done;
          cbn [p_busy p_data p_dirty lift_res lift_trace pin amedia abudget fmap option_fmap option_map default]).
  rewrite (bool_decide_true (media_at m lg = media_at m lg)) by done. cbn [lift_res lift_trace pin amedia abudget].
  repeat (rewrite ?lookup_insert_eq, ?(lookup_insert_ne _ lg home), ?(lookup_insert_ne _ home lg),
            ?(lookup_delete_ne _ lg home) by done;
          cbn [p_busy p_data p_dirty lift_res lift_trace pin amedia abudget fmap option_fmap option_map default]).
  rewrite (bool_decide_true) by done. cbn [lift_res lift_trace].
  split; [|done]. do 3 f_equal.
  apply map_eq. intros k. destruct (decide (k = home)) as [->|]; [by rewrite !lookup_delete_eq|].
  rewrite !(lookup_delete_ne _ home) by done. destruct (decide (k = lg)) as [->|].
  - by rewrite lookup_delete_eq, Hl.
  - by rewrite lookup_delete_ne, !lookup_insert_ne by done.
Qed.
End steps.

(** ** Whole passes over the log *)

Lemma apply_writes_app ws1 ws2 m :
  apply_writes (ws1 ++ ws2) m = apply_writes ws2 (apply_writes ws1 m).
Proof. apply foldl_app. Qed.

Lemma apply_writes_out ws m h : h ∉ ws.*1 -> apply_writes ws m !! h = m !! h.
Proof.
  revert m. induction ws as [|[k v] ws IH]; intros m Hn; [done|].
  cbn in Hn. apply not_elem_of_cons in Hn as [Hk Hn].
  change (apply_writes ws (<[k := v]> m) !! h = m !! h). rewrite IH by done.
  by rewrite lookup_insert_ne.
Qed.

Lemma apply_writes_in ws m h v :
  NoDup ws.*1 -> (h, v) ∈ ws -> apply_writes ws m !! h = Some v.
Proof.
  revert m. induction ws as [|[k w] ws IH]; intros m Hnd Hin; [by apply not_elem_of_nil in Hin|].
  change (apply_writes ws (<[k := w]> m) !! h = Some v).
  cbn in Hnd. apply list.NoDup_cons in Hnd as [Hk Hnd]. apply elem_of_cons in Hin as [[= -> ->]|Hin].
  - rewrite apply_writes_out by done. by rewrite lookup_insert_eq.
  - by apply IH.
Qed.

Lemma map_size_delete_le {A} (k : key) (m : gmap key A) : (size (delete k m) <= size m)%nat.
Proof. rewrite map_size_delete. destruct (m !! k); simpl; lia. Qed.

Section passes.
Import Spec.
Context (present : Z -> bool).
Implicit Types (m : gmap key block) (p : gmap key pinned) (l : log).

Definition blk l (j : nat) : Z := default 0 (lh_block l !! j).
Definition log_key l (j : nat) : key := (l_dev l, l_start l + Z.of_nat j + 1).
Definition head_key l : key := (l_dev l, l_start l).
Definition home_key l (j : nat) : key := (l_dev l, blk l j).
Definition in_log l (h : key) : Prop :=
  h.1 = l_dev l /\ l_start l <= h.2 < l_start l + l_size l.

(** A log whose first [n] entries are distinct blocks outside its own area,
    all of it within the drive. *)
Record log_shape l (n : nat) : Prop := {
  ls_present : present (l_dev l) = true;
  ls_len : length (lh_block l) = Z.to_nat LOGSIZE;
  ls_n : (n <= Z.to_nat LOGSIZE)%nat;
  ls_room : Z.of_nat n < l_size l;
  ls_fit : l_start l + l_size l <= FSSIZE;
  ls_home j : (j < n)%nat -> 0 <= blk l j < FSSIZE /\ ~ in_log l (home_key l j);
  ls_nodup i j : (i < n)%nat -> (j < n)%nat -> blk l i = blk l j -> i = j
}.

Lemma log_key_in l n j : log_shape l n -> (j < n)%nat -> in_log l (log_key l j).
Proof. intros S Hj. pose proof (ls_room _ _ S). split; simpl; [done|lia]. Qed.
Lemma head_key_in l n : log_shape l n -> in_log l (head_key l).
Proof. intros S. pose proof (ls_room _ _ S). split; simpl; [done|lia]. Qed.
Lemma blk_lookup l n j : log_shape l n -> (j < n)%nat -> lh_block l !! j = Some (blk l j).
Proof.
  intros S Hj. pose proof (ls_len _ _ S). pose proof (ls_n _ _ S). unfold blk.
  destruct (lookup_lt_is_Some_2 (lh_block l) j) as [b ->]; [lia|done].
Qed.
Lemma log_home_ne l n i j : log_shape l n -> (i < n)%nat -> (j < n)%nat -> log_key l i <> home_key l j.
Proof.
  intros S Hi Hj E. pose proof (log_key_in l n i S Hi) as H. rewrite E in H.
  by apply (ls_home _ _ S j Hj).
Qed.

Definition log_writes l p (i k : nat) : list (key * block) :=
  (fun j => (log_key l j, seen ∅ p (home_key l j))) <$> seq i k.
Definition home_writes l m (i k : nat) : list (key * block) :=
  (fun j => (home_key l j, default zero_block (m !! log_key l j))) <$> seq i k.

Lemma write_log_pass x m p l n i k :
  log_shape l n -> (i + k <= n)%nat ->
  (forall j, (j < n)%nat -> exists v,
     p !! home_key l j = Some {| p_dirty := true; p_busy := false; p_data := v |}) ->
  (forall h, in_log l h -> p !! h = None) -> (size p < NBUF)%nat ->
  Spec.run present (pfor (seq i k) (write_log_one l)) x (st m p)
    = Ok tt (x, st (apply_writes (log_writes l p i k) m) p) /\
  trace present (pfor (seq i k) (write_log_one l)) x (st m p) = log_writes l p i k.
Proof.
  intros S Hik Hpin Hfree Hsz. revert i m Hik.
  induction k as [|k IH]; intros i m Hik; [done|].
  destruct (Hpin i) as [v Hv]; [lia|].
  destruct (write_log_one_ok present x m p l i (blk l i) v) as [H1 H2];
    [apply (blk_lookup l n); [done|lia]|done|apply Hfree, (log_key_in l n); [done|lia]|done
    |apply (ls_present _ _ S)|pose proof (ls_room _ _ S); pose proof (ls_fit _ _ S); lia|].
  destruct (IH (Datatypes.S i) (<[log_key l i := v]> m)) as [H3 H4]; [lia|].
  fold (log_key l i) in *.
  cbn [seq pfor]. rewrite run_bind, H1. rewrite H3.
  rewrite (trace_bind _ _ _ _ _ _ _ _ H1), H2, H4.
  assert (seen ∅ p (home_key l i) = v) as Es by (unfold seen; by rewrite Hv).
  unfold log_writes. cbn [seq fmap list_fmap]. rewrite Es. done.
Qed.

Lemma install_pass x m p l n i k :
  log_shape l n -> (i + k <= n)%nat ->
  (forall j, (j < n)%nat -> unheld p (home_key l j)) ->
  (forall h, in_log l h -> p !! h = None) ->
  (S (size (delete (home_key l i) p)) < NBUF)%nat ->
  Spec.run present (pfor (seq i k) (install_one l)) x (st m p)
    = Ok tt (x, st (apply_writes (home_writes l m i k) m)
                   (foldl (fun q j => delete (home_key l j) q) p (seq i k))) /\
  trace present (pfor (seq i k) (install_one l)) x (st m p) = home_writes l m i k.
Proof.
  intros S. revert i m p. induction k as [|k IH]; intros i m p Hik Hpin Hfree Hsz; [done|].
  pose proof (ls_home _ _ S i ltac:(lia)) as [Hb Hnl].
  destruct (install_one_ok present x m p l i (blk l i)) as [H1 H2];
    [apply (blk_lookup l n); [done|lia]| |apply Hpin; lia|apply Hfree, (log_key_in l n); [done|lia]|done
    |apply (ls_present _ _ S)|pose proof (ls_room _ _ S); pose proof (ls_fit _ _ S); lia|lia|].
  { intros E. apply Hnl. pose proof (log_key_in l n i S ltac:(lia)) as H. unfold log_key, home_key in *.
    by rewrite E. }
  fold (home_key l i) (log_key l i) in *. set (v := default zero_block (m !! log_key l i)) in *.
  destruct (IH (Datatypes.S i) (<[home_key l i := v]> m) (delete (home_key l i) p)) as [H3 H4]; [lia| | | |].
  { intros j Hj. unfold unheld. destruct (decide (home_key l j = home_key l i)) as [E|E].
    - left. rewrite E. by rewrite lookup_delete_eq.
    - rewrite lookup_delete_ne by done. by apply Hpin. }
  { intros h Hh. destruct (decide (h = home_key l i)) as [->|]; [done|].
    rewrite lookup_delete_ne by done. by apply Hfree. }
  { pose proof (map_size_delete_le (home_key l (Datatypes.S i)) (delete (home_key l i) p)). lia. }
  assert (home_writes l (<[home_key l i:=v]> m) (Datatypes.S i) k
          = home_writes l m (Datatypes.S i) k) as Hw.
  { unfold home_writes. apply list_fmap_ext. intros ? j Hj.
    apply list_elem_of_lookup_2, elem_of_seq in Hj. f_equal. rewrite lookup_insert_ne; [done|].
    intros E. symmetry in E. by apply (log_home_ne l n j i S) in E; [|lia|lia]. }
  cbn [seq pfor]. rewrite run_bind, H1. rewrite H3.
  rewrite (trace_bind _ _ _ _ _ _ _ _ H1), H2, H4, Hw. done.
Qed.
End passes.

(** ** The header block *)

Section header.
Local Open Scope nat_scope.

Lemma length_encode_blocks hd i bs :
  4 + 4 * (i + length bs) <= length hd -> length (encode_blocks hd i bs) = length hd.
Proof.
  revert hd i. induction bs as [|b bs IH]; intros hd i H; cbn [encode_blocks length] in *; [done|].
  rewrite IH; rewrite length_store_le; lia.
Qed.

(** Words below the ones being written are kept. *)
Lemma load_encode_below hd i bs j k :
  4 + 4 * (i + length bs) <= length hd -> j + k <= 4 + 4 * i ->
  load_le (encode_blocks hd i bs) j k = load_le hd j k.
Proof.
  revert hd i. induction bs as [|b bs IH]; intros hd i H Hj; cbn [encode_blocks length] in *; [done|].
  rewrite IH; [apply load_store_ne; lia|rewrite length_store_le; lia|lia].
Qed.

Lemma decode_encode_blocks hd i bs j b :
  4 + 4 * (i + length bs) <= length hd -> bs !! j = Some b ->
  decode_block (encode_blocks hd i bs) (i + j) = u32 b.
Proof.
  revert hd i j. induction bs as [|c bs IH]; intros hd i j H Hj; cbn [encode_blocks length] in *; [done|].
  destruct j as [|j]; simpl in Hj.
  - injection Hj as ->. unfold decode_block. rewrite Nat.add_0_r, load_encode_below;
      [|rewrite length_store_le; lia|lia].
    rewrite load_store_eq by lia. done.
  - rewrite Nat.add_succ_r. apply (IH _ (S i)); [rewrite length_store_le; lia|done].
Qed.

Lemma encode_head_spec hd n bs :
  length hd = BSIZE -> (0 <= n <= LOGSIZE)%Z -> Z.to_nat n <= length bs ->
  length (encode_head hd n bs) = BSIZE /\ decode_n (encode_head hd n bs) = n /\
  forall j b, j < Z.to_nat n -> bs !! j = Some b -> decode_block (encode_head hd n bs) j = u32 b.
Proof.
  intros Hl Hn Hb. unfold encode_head.
  assert (Hr : 4 + 4 * (0 + length (take (Z.to_nat n) bs)) <= length (store_le hd 0 4 n)).
  { rewrite length_store_le, length_take, Hl by (rewrite Hl; vm_compute; lia).
    change BSIZE with 512. unfold LOGSIZE, MAXOPBLOCKS in Hn. lia. }
  assert (H4 : (0 + 4 <= length hd)%nat) by (rewrite Hl; vm_compute; lia).
  split; [|split].
  - rewrite length_encode_blocks by done. by rewrite length_store_le.
  - unfold decode_n. rewrite load_encode_below by (done || lia).
    rewrite load_store_eq by done. change (256 ^ Z.of_nat 4)%Z with (2 ^ 32)%Z.
    rewrite Z.mod_small by (unfold LOGSIZE, MAXOPBLOCKS in Hn; lia).
    apply s32_small. unfold LOGSIZE, MAXOPBLOCKS in Hn. lia.
  - intros j b Hj Hjb. change j with (0 + j) at 1. apply decode_encode_blocks; [done|].
    by rewrite lookup_take_lt.
Qed.
End header.

(** ** Runs of the whole routines *)

Definition with_log (dev : Z) (l : log) (x : kfs) : kfs :=
  set_disks (upd_disk dev (set_d_log (Some l)) (disks x)) x.

Lemma with_log_get dev l l' x :
  getlog_of (disks x) dev = Some l -> getlog_of (disks (with_log dev l' x)) dev = Some l'.
Proof. apply getlog_putlog. Qed.

Section runs.
Import Spec.
Context (present : Z -> bool).
Implicit Types (m : gmap key block) (p : gmap key pinned) (l : log) (x : kfs).

(** [returns c x a y b ws]: the routine returns and sends [ws] to the drive. *)
Definition returns (c : prog kfs unit) x (a : astate) (y : kfs) (b : astate)
    (ws : list (key * block)) : Prop :=
  Spec.run present c x a = Ok tt (y, b) /\ trace present c x a = ws.

Lemma returns_seq c d x a y b ws z e vs :
  returns c x a y b ws -> returns d y b z e vs -> returns (c ;; d) x a z e (ws ++ vs).
Proof.
  intros [H1 H2] [H3 H4]. split.
  - rewrite run_bind, H1. exact H3.
  - rewrite (trace_bind _ _ _ _ _ _ _ _ H1), H2. by rewrite H4.
Qed.

Lemma getlog_step {A} dev l x (f : log -> prog kfs A) a :
  getlog_of (disks x) dev = Some l ->
  Spec.run present (getlog dev ≫= f) x a = Spec.run present (f l) x a /\
  trace present (getlog dev ≫= f) x a = trace present (f l) x a.
Proof.
  intros H. unfold getlog, kget.
  cbn [Spec.run trace mbind prog_bind mret prog_ret]. by rewrite H.
Qed.
Lemma returns_getlog dev l x (f : log -> prog kfs unit) a y b ws :
  getlog_of (disks x) dev = Some l ->
  returns (f l) x a y b ws -> returns (getlog dev ≫= f) x a y b ws.
Proof.
  intros H [H1 H2]. destruct (getlog_step dev l x f a H) as [E1 E2].
  split; [by rewrite E1|by rewrite E2].
Qed.

Lemma clear_lh_ok dev l x a :
  getlog_of (disks x) dev = Some l ->
  returns (clear_lh dev) x a (with_log dev (set_lh 0 (lh_block l) l) x) a [].
Proof. intros H. by eapply returns_getlog. Qed.

Definition new_head l m : block := encode_head (media_at m (head_key l)) (lh_n l) (lh_block l).

Lemma write_head_ok dev l x m p :
  getlog_of (disks x) dev = Some l ->
  p !! head_key l = None -> (size p < NBUF)%nat -> present (l_dev l) = true -> l_start l < FSSIZE ->
  returns (write_head dev) x (st m p) x (st (<[head_key l := new_head l m]> m) p)
    [(head_key l, new_head l m)].
Proof.
  intros H Hp Hs Hd Hr. eapply returns_getlog; [done|].
  unfold returns. set (h := head_key l) in *. unfold head_key in h.
  cbn [Spec.run trace BlockIO.bread BlockIO.bdata BlockIO.bset BlockIO.bwrite BlockIO.brelse mbind prog_bind mret prog_ret].
  fold h. rewrite (spec_bread_fresh present m p h) by done. cbn [lift_res lift_trace].
  unfold Spec.bdata, Spec.bset, Spec.bwrite, Spec.brelse, with_busy, set_pin, view, on_media.
  cbn [pin amedia abudget].
  repeat (rewrite ?lookup_insert_eq; cbn [p_busy p_data p_dirty lift_res lift_trace pin amedia abudget fmap option_fmap option_map default]).
  rewrite bool_decide_true by done. cbn [lift_res lift_trace].
  split; [|done]. do 3 f_equal. rewrite !insert_insert_eq. by rewrite delete_insert_id.
Qed.

(** The in-memory header after [read_head]. *)
Definition hdr_log l m : log :=
  let hd := media_at m (head_key l) in
  let n := decode_n hd in
  set_lh n ((decode_block hd <$> seq 0 (Z.to_nat n)) ++ drop (Z.to_nat n) (lh_block l)) l.

Lemma read_head_ok dev l x m p :
  getlog_of (disks x) dev = Some l ->
  p !! head_key l = None -> (size p < NBUF)%nat -> present (l_dev l) = true -> l_start l < FSSIZE ->
  lh_n (hdr_log l m) <= LOGSIZE ->
  returns (read_head dev) x (st m p) (with_log dev (hdr_log l m) x) (st m p) [].
Proof.
  intros H Hp Hs Hd Hr Hn. eapply returns_getlog; [done|].
  unfold returns. set (h := head_key l) in *. unfold head_key in h.
  cbn [Spec.run trace BlockIO.bread BlockIO.bdata mbind prog_bind mret prog_ret].
  fold h. rewrite (spec_bread_fresh present m p h) by done. cbn [lift_res lift_trace].
  unfold Spec.bdata, with_busy, set_pin. cbn [pin amedia abudget].
  rewrite lookup_insert_eq. cbn [p_busy p_data lift_res lift_trace].
  rewrite (proj2 (Z.leb_le _ _)) by exact Hn.
  unfold putlog, kmodify.
  cbn [Spec.run trace BlockIO.brelse mbind prog_bind mret prog_ret].
  unfold Spec.brelse, with_busy, on_media. cbn [pin amedia abudget].
  rewrite lookup_insert_eq. cbn [p_busy p_data p_dirty amedia].
  rewrite bool_decide_true by done. cbn [lift_res lift_trace].
  split; [|done]. rewrite delete_insert_id by done. done.
Qed.

Definition unpin l (n : nat) p : gmap key pinned :=
  foldl (fun q j => delete (home_key l j) q) p (seq 0 n).

Lemma foldl_delete_lookup (f : nat -> key) js p h :
  p !! h = None -> foldl (fun q j => delete (f j) q) p js !! h = None.
Proof.
  revert p. induction js as [|j js IH]; intros p H; simpl; [done|]. apply IH.
  destruct (decide (f j = h)) as [->|]; [by rewrite lookup_delete_eq|by rewrite lookup_delete_ne].
Qed.
Lemma foldl_delete_size (f : nat -> key) js p :
  (size (foldl (fun q j => delete (f j) q) p js) <= size p)%nat.
Proof.
  revert p. induction js as [|j js IH]; intros p; simpl; [done|].
  etransitivity; [apply IH|apply map_size_delete_le].
Qed.

Lemma install_trans_ok dev l x m p n :
  getlog_of (disks x) dev = Some l -> lh_n l = Z.of_nat n -> log_shape present l n ->
  (forall j, (j < n)%nat -> unheld p (home_key l j)) ->
  (forall h, in_log l h -> p !! h = None) ->
  ((0 < n)%nat -> S (size (delete (home_key l 0) p)) < NBUF)%nat ->
  returns (install_trans dev) x (st m p)
    x (st (apply_writes (home_writes l m 0 n) m) (unpin l n p)) (home_writes l m 0 n).
Proof.
  intros H Hn Hs Hu Hf Hz. eapply returns_getlog; [done|]. rewrite Hn, Nat2Z.id.
  destruct n as [|n]; [done|]. apply (install_pass present x m p l (S n) 0 (S n)); auto; lia.
Qed.

Lemma recover_from_log_ok dev l x m n :
  getlog_of (disks x) dev = Some l ->
  let l1 := hdr_log l m in
  lh_n l1 = Z.of_nat n -> log_shape present l1 n ->
  let m1 := apply_writes (home_writes l1 m 0 n) m in
  let l2 := set_lh 0 (lh_block l1) l1 in
  returns (recover_from_log dev) x (st m ∅)
    (with_log dev l2 (with_log dev l1 x)) (st (<[head_key l2 := new_head l2 m1]> m1) ∅)
    (home_writes l1 m 0 n ++ [(head_key l2, new_head l2 m1)]).
Proof.
  intros H l1 Hn Hs m1 l2.
  pose proof (ls_room _ _ _ Hs) as R1. pose proof (ls_fit _ _ _ Hs) as R2.
  change (l_start l1) with (l_start l) in *. change (l_size l1) with (l_size l) in *.
  assert (Hg : getlog_of (disks (with_log dev l1 x)) dev = Some l1) by (by eapply with_log_get).
  change (home_writes l1 m 0 n ++ [(head_key l2, new_head l2 m1)])
    with ([] ++ home_writes l1 m 0 n ++ [] ++ [(head_key l2, new_head l2 m1)]).
  unfold recover_from_log.
  eapply returns_seq; [apply (read_head_ok dev l x m ∅ H); try done|].
  { unfold NBUF. rewrite map_size_empty. vm_compute. lia. }
  { apply (ls_present _ _ _ Hs). }
  { lia. }
  { fold l1. pose proof (ls_n _ _ _ Hs). unfold LOGSIZE, MAXOPBLOCKS in *. lia. }
  eapply returns_seq; [apply (install_trans_ok dev l1 _ m ∅ n Hg Hn Hs)|].
  { intros j _. left. apply lookup_empty. }
  { intros h _. apply lookup_empty. }
  { rewrite delete_empty, map_size_empty. vm_compute. lia. }
  assert (unpin l1 n ∅ = ∅) as ->.
  { apply map_empty. intros h. apply foldl_delete_lookup, lookup_empty. }
  eapply returns_seq; [apply (clear_lh_ok dev l1 _ _ Hg)|].
  apply write_head_ok; try done.
  - by eapply with_log_get.
  - rewrite map_size_empty. vm_compute. lia.
  - apply (ls_present _ _ _ Hs).
  - change (l_start l2) with (l_start l). lia.
Qed.

Lemma commit_ok dev l x m p n :
  getlog_of (disks x) dev = Some l -> lh_n l = Z.of_nat n -> (0 < n)%nat ->
  log_shape present l n ->
  (forall j, (j < n)%nat -> exists v,
     p !! home_key l j = Some {| p_dirty := true; p_busy := false; p_data := v |}) ->
  (forall h, in_log l h -> p !! h = None) -> (size p < NBUF)%nat ->
  let m1 := apply_writes (log_writes l p 0 n) m in
  let m2 := <[head_key l := new_head l m1]> m1 in
  let m3 := apply_writes (home_writes l m2 0 n) m2 in
  let l2 := set_lh 0 (lh_block l) l in
  returns (commit dev) x (st m p)
    (with_log dev l2 x) (st (<[head_key l := new_head l2 m3]> m3) (unpin l n p))
    (log_writes l p 0 n ++ [(head_key l, new_head l m1)] ++ home_writes l m2 0 n ++
     [(head_key l, new_head l2 m3)]).
Proof.
  intros H Hn Hpos Hs Hpin Hfree Hsz m1 m2 m3 l2.
  pose proof (ls_room _ _ _ Hs) as R1. pose proof (ls_fit _ _ _ Hs) as R2.
  pose proof (head_key_in _ _ _ Hs) as Hh.
  eapply returns_getlog; [done|]. rewrite (proj2 (Z.ltb_lt 0 (lh_n l))) by lia.
  eapply returns_seq.
  { eapply returns_getlog; [done|]. rewrite Hn, Nat2Z.id.
    apply (write_log_pass present x m p l n 0 n Hs); auto. }
  eapply returns_seq.
  { apply (write_head_ok dev l); try done; [by apply Hfree|apply (ls_present _ _ _ Hs)|lia]. }
  eapply returns_seq.
  { apply (install_trans_ok dev l x _ p n H Hn Hs); auto.
    - intros j Hj. right. by apply Hpin.
    - intros _. destruct (Hpin 0%nat Hpos) as [v Hv].
      rewrite (map_size_delete_Some (home_key l 0) p) by (by rewrite Hv).
      assert (size p <> 0%nat); [|lia]. intros E. apply map_size_empty_inv in E as ->. done. }
  eapply (returns_seq _ _ _ _ _ _ []).
  { by apply clear_lh_ok. }
  apply (write_head_ok dev l2).
  - by eapply with_log_get.
  - apply foldl_delete_lookup. by apply Hfree.
  - pose proof (foldl_delete_size (home_key l) (seq 0 n) p). unfold unpin. lia.
  - apply (ls_present _ _ _ Hs).
  - change (l_start l2) with (l_start l). lia.
Qed.
End runs.

(** ** Crash safety *)

Section crash.
Import Spec.
Context (present : Z -> bool).
Implicit Types (m : gmap key block) (p : gmap key pinned) (l : log) (x : kfs).

(** The header on the drive records the first [n] entries of [l]. *)
Record committed l (n : nat) m : Prop := {
  cm_len : length (media_at m (head_key l)) = BSIZE;
  cm_n : decode_n (media_at m (head_key l)) = Z.of_nat n;
  cm_block j : (j < n)%nat -> decode_block (media_at m (head_key l)) j = blk l j
}.

(** The log as a rebooted kernel finds it: placed where it was, contents
    irrelevant. *)
Record rebooted l (l' : log) : Prop := {
  rb_dev : l_dev l' = l_dev l; rb_start : l_start l' = l_start l; rb_size : l_size l' = l_size l;
  rb_len : length (lh_block l') = Z.to_nat LOGSIZE
}.

Definition off_log_eq l m m' : Prop := forall h, ~ in_log l h -> m !! h = m' !! h.

Lemma log_shape_le l n k : log_shape present l n -> (k <= n)%nat -> log_shape present l k.
Proof.
  intros S Hk. destruct S as [A B C D E F G]. split; auto; try lia.
  - intros j Hj. apply F. lia.
  - intros i j Hi Hj. apply G; lia.
Qed.

Lemma committed_keep l n m m' :
  committed l n m -> m' !! head_key l = m !! head_key l -> committed l n m'.
Proof. intros [A B C] E. split; by rewrite E. Qed.

Lemma committed_encode l m n k : log_shape present l n ->
  length (media_at m (head_key l)) = BSIZE -> (k <= n)%nat ->
  committed l k (<[head_key l := encode_head (media_at m (head_key l)) (Z.of_nat k) (lh_block l)]> m).
Proof.
  intros S Hl Hk. pose proof (ls_n _ _ _ S) as Hn. pose proof (ls_len _ _ _ S) as Hlen.
  destruct (encode_head_spec (media_at m (head_key l)) (Z.of_nat k) (lh_block l)) as (A & B & C); [done| |lia|].
  { unfold LOGSIZE, MAXOPBLOCKS in *. lia. }
  split; rewrite lookup_insert_eq; [done..|]. intros j Hj. simpl.
  rewrite (C j (blk l j)); [|lia|apply (blk_lookup present l n); [done|lia]].
  destruct (ls_home _ _ _ S j) as [Hr _]; [lia|]. apply u32_small. unfold FSSIZE in Hr. lia.
Qed.

Lemma hdr_log_spec l l' n m : log_shape present l n -> rebooted l l' -> committed l n m ->
  lh_n (hdr_log l' m) = Z.of_nat n /\ (forall j, (j < n)%nat -> blk (hdr_log l' m) j = blk l j) /\
  length (lh_block (hdr_log l' m)) = Z.to_nat LOGSIZE.
Proof.
  intros S [Ed Es Ez Hl'] [A B C]. pose proof (ls_n _ _ _ S) as Hn.
  assert (head_key l' = head_key l) as Eh by (unfold head_key; by rewrite Ed, Es).
  unfold hdr_log. rewrite Eh, B, Nat2Z.id. split; [done|]. split.
  - intros j Hj. unfold blk at 1. cbn [lh_block set_lh].
    rewrite lookup_app_l by (rewrite length_fmap, length_seq; lia).
    rewrite list_lookup_fmap, lookup_seq_lt by lia. cbn. by apply C.
  - cbn [lh_block set_lh]. rewrite length_app, length_fmap, length_seq, length_drop. lia.
Qed.

Lemma home_writes_ext l l' m m' i k :
  l_dev l' = l_dev l -> l_start l' = l_start l ->
  (forall j, (i <= j < i + k)%nat -> blk l' j = blk l j /\ m' !! log_key l j = m !! log_key l j) ->
  home_writes l' m' i k = home_writes l m i k.
Proof.
  intros Ed Es H. unfold home_writes. apply list_fmap_ext. intros ? j Hj.
  apply list_elem_of_lookup_2, elem_of_seq in Hj. destruct (H j Hj) as [Hb Hm].
  unfold home_key, log_key in *. by rewrite Ed, Es, Hb, Hm.
Qed.

(** Recovery replays exactly the recorded blocks and empties the log. *)
Lemma recover_committed dev l l' x m n :
  log_shape present l n -> committed l n m -> rebooted l l' ->
  getlog_of (disks x) dev = Some l' ->
  let m1 := apply_writes (home_writes l m 0 n) m in
  exists y b h0,
    returns present (recover_from_log dev) x (st m ∅) y b (home_writes l m 0 n ++ [(head_key l, h0)]) /\
    b = st (<[head_key l := h0]> m1) ∅ /\ committed l 0 (amedia b).
Proof.
  intros S Hc Hrb Hg m1. destruct (hdr_log_spec l l' n m S Hrb Hc) as (Hn & Hb & Hlen).
  destruct Hrb as [Ed Es Ez Hl'].
  assert (log_shape present (hdr_log l' m) n) as S'.
  { destruct S as [A B C D E F G]. split; cbn [l_dev l_start l_size hdr_log set_lh]; rewrite ?Ed, ?Es, ?Ez; auto.
    - intros j Hj. rewrite Hb by done. destruct (F j Hj) as [F1 F2]. split; [done|].
      unfold in_log, home_key in *. cbn [l_dev l_start l_size hdr_log set_lh fst snd] in *. rewrite Hb, Ed, Es, Ez by done. done.
    - intros i j Hi Hj. rewrite !Hb by done. by apply G. }
  pose proof (recover_from_log_ok present dev l' x m n Hg Hn S') as Hr. cbv zeta in Hr.
  rewrite (home_writes_ext l (hdr_log l' m) m m 0 n) in Hr; [|exact Ed|exact Es|intros j Hj; split; [apply Hb; lia|done]].
  fold m1 in Hr. eexists _, _, _.
  replace (head_key (set_lh 0 _ _)) with (head_key l) in Hr
    by (unfold head_key; cbn [l_dev l_start hdr_log set_lh]; by rewrite Ed, Es).
  split; [exact Hr|]. split; [done|]. cbn [amedia].
  unfold new_head.
  replace (head_key (set_lh 0 _ _)) with (head_key l)
    by (unfold head_key; cbn [l_dev l_start hdr_log set_lh]; by rewrite Ed, Es).
  assert (m1 !! head_key l = m !! head_key l) as Em.
  { apply apply_writes_out. unfold home_writes. rewrite <- list_fmap_compose.
    intros (j & E & Hj%elem_of_seq)%list_elem_of_fmap. cbn in E.
    apply (ls_home _ _ _ S j); [lia|]. rewrite <- E. by eapply head_key_in. }
  assert (length (media_at m1 (head_key l)) = BSIZE) as Hl1 by (rewrite Em; apply (cm_len _ _ _ Hc)).
  destruct (encode_head_spec (media_at m1 (head_key l)) 0 (lh_block (hdr_log l' m))) as (A & B & _); [done|unfold LOGSIZE, MAXOPBLOCKS; lia|apply Nat.le_0_l|].
  split; rewrite ?lookup_insert_eq; [done..|]. intros j Hj. lia.
Qed.

(** *** Replaying is idempotent *)

Lemma home_writes_keys l m n : (home_writes l m 0 n).*1 = home_key l <$> seq 0 n.
Proof. unfold home_writes. by rewrite <- list_fmap_compose. Qed.
Lemma log_writes_keys l p n : (log_writes l p 0 n).*1 = log_key l <$> seq 0 n.
Proof. unfold log_writes. by rewrite <- list_fmap_compose. Qed.

Lemma home_keys_nodup l n : log_shape present l n -> NoDup (home_key l <$> seq 0 n).
Proof.
  intros S. apply NoDup_fmap_2_strong; [|apply NoDup_seq].
  intros i j Hi%elem_of_seq Hj%elem_of_seq [= E]. apply (ls_nodup _ _ _ S); lia.
Qed.
Lemma log_keys_nodup l n : NoDup (log_key l <$> seq 0 n).
Proof.
  apply NoDup_fmap_2_strong; [|apply NoDup_seq].
  intros i j Hi%elem_of_seq Hj%elem_of_seq [= E]. lia.
Qed.

Lemma not_home_key l n h : log_shape present l n -> in_log l h -> h ∉ home_key l <$> seq 0 n.
Proof.
  intros S Hh (j & -> & Hj%elem_of_seq)%list_elem_of_fmap.
  by apply (ls_home _ _ _ S j); [lia|].
Qed.

Lemma take_keys_out (ws : list (key * block)) k h : h ∉ ws.*1 -> h ∉ (take k ws).*1.
Proof.
  intros Hn (w & -> & Hw)%list_elem_of_fmap. apply Hn, list_elem_of_fmap.
  exists w. split; [done|]. apply list_elem_of_lookup in Hw as [i Hi].
  apply lookup_take_Some in Hi as [Hi _]. by apply list_elem_of_lookup_2 in Hi.
Qed.

Lemma apply_writes_redo ws k m : NoDup ws.*1 ->
  apply_writes ws (apply_writes (take k ws) m) = apply_writes ws m.
Proof.
  intros Hnd. apply map_eq. intros h. destruct (decide (h ∈ ws.*1)) as [Hin|Hin].
  - apply list_elem_of_fmap in Hin as ([h' v] & -> & Hin).
    by rewrite !(apply_writes_in ws _ h' v).
  - rewrite !(apply_writes_out ws) by done. apply apply_writes_out. by apply take_keys_out.
Qed.

(** A header left in place by a partial replay still leads to the same end. *)
Lemma recover_partial dev l l' x m n k :
  log_shape present l n -> committed l n m -> rebooted l l' ->
  getlog_of (disks x) dev = Some l' ->
  exists y b, Spec.run present (recover_from_log dev) x
      (st (apply_writes (take k (home_writes l m 0 n)) m) ∅) = Ok tt (y, b) /\
    off_log_eq l (amedia b) (apply_writes (home_writes l m 0 n) m).
Proof.
  intros S Hc Hrb Hg. set (mk := apply_writes _ m).
  assert (forall h, in_log l h -> mk !! h = m !! h) as Hk.
  { intros h Hh. apply apply_writes_out, take_keys_out. rewrite home_writes_keys.
    by apply not_home_key. }
  assert (committed l n mk) as Hck by (eapply committed_keep; [done|]; apply Hk; by eapply head_key_in).
  destruct (recover_committed dev l l' x mk n S Hck Hrb Hg) as (y & b & h0 & [Hr _] & -> & _).
  eexists y, _. split; [exact Hr|]. intros h Hh. cbn [amedia].
  rewrite lookup_insert_ne by (intros <-; apply Hh; by eapply head_key_in).
  assert (home_writes l mk 0 n = home_writes l m 0 n) as ->.
  { apply home_writes_ext; [done|done|]. intros j Hj. split; [done|].
    apply Hk. eapply (log_key_in present l n); [done|lia]. }
  unfold mk. rewrite apply_writes_redo; [done|]. rewrite home_writes_keys.
  by apply home_keys_nodup.
Qed.

(** With an empty header recovery changes nothing outside the log. *)
Lemma recover_empty dev l l' x m n :
  log_shape present l n -> committed l 0 m -> rebooted l l' ->
  getlog_of (disks x) dev = Some l' ->
  exists y b, Spec.run present (recover_from_log dev) x (st m ∅) = Ok tt (y, b) /\
    off_log_eq l (amedia b) m.
Proof.
  intros S Hc Hrb Hg.
  apply (recover_partial dev l l' x m 0 0 (log_shape_le l n 0 S ltac:(lia)) Hc Hrb Hg).
Qed.

(** The routine returns with the drive as [D] says, or the power goes; either
    way the drive is as [Q] says. *)
Definition cut_at {A} (r : res (kfs * astate) A) (D Q : gmap key block -> Prop) : Prop :=
  match r with
  | Ok _ (_, a) => D (amedia a) /\ Q (amedia a)
  | PowerFail (_, a) => Q (amedia a)
  | _ => False
  end.

Lemma returns_cut (c : prog kfs unit) x m p (y : kfs) (b : astate) (ws : list (key * block)) (bud : option nat) (D Q : gmap key block -> Prop) :
  returns present c x (st m p) y b ws -> D (apply_writes ws m) ->
  (forall k, (k <= length ws)%nat -> Q (apply_writes (take k ws) m)) ->
  cut_at (Spec.run present c x {| amedia := m; pin := p; abudget := bud |}) D Q.
Proof.
  intros [H1 H2] HD HQ. destruct bud as [k|].
  - destruct (run_prefix present c x (st m p) tt y b k H1) as [E Hk].
    unfold with_budget in *. cbn [amedia pin] in *. rewrite H2 in E, Hk.
    destruct (Nat.ltb_spec k (length ws)).
    + destruct Hk as (z & b' & -> & E'). simpl. rewrite E'. apply HQ. lia.
    + rewrite Hk. simpl. rewrite E. specialize (HQ (length ws)).
      rewrite firstn_all in HQ. auto.
  - destruct (run_prefix present c x (st m p) tt y b 0%nat H1) as [E _].
    cbn [amedia with_budget] in E. unfold with_budget in E. cbn [amedia pin] in E.
    rewrite H2 in E. rewrite H1. simpl. rewrite E. specialize (HQ (length ws)).
    rewrite firstn_all in HQ. auto.
Qed.

(** *** Interrupted recovery and interrupted commit *)

Definition recovers_to (dev : Z) l m' (Q : gmap key block -> Prop) : Prop :=
  forall l' x', rebooted l l' -> getlog_of (disks x') dev = Some l' ->
  exists y b, Spec.run present (recover_from_log dev) x' (st m' ∅) = Ok tt (y, b) /\ Q (amedia b).

Lemma recovery_cut dev l l0 x m n (bud : option nat) :
  log_shape present l n -> committed l n m -> rebooted l l0 ->
  getlog_of (disks x) dev = Some l0 ->
  cut_at (Spec.run present (recover_from_log dev) x {| amedia := m; pin := ∅; abudget := bud |})
    (fun m' => off_log_eq l m' (apply_writes (home_writes l m 0 n) m))
    (fun m' => recovers_to dev l m' (fun mr => off_log_eq l mr (apply_writes (home_writes l m 0 n) m))).
Proof.
  intros S Hc Hrb Hg.
  destruct (recover_committed dev l l0 x m n S Hc Hrb Hg) as (y & b & h0 & Hr & -> & Hc0).
  eapply returns_cut; [exact Hr| |].
  { intros h Hh. rewrite apply_writes_app. apply (lookup_insert_ne _ (head_key l)).
    intros <-. apply Hh. by eapply head_key_in. }
  intros k Hk l' x' Hrb' Hg'.
  rewrite take_app. rewrite length_app in Hk. cbn [length] in Hk.
  destruct (decide (k <= length (home_writes l m 0 n))%nat) as [Hle|Hgt].
  - rewrite (proj2 (Nat.sub_0_le _ _)) by done. cbn [take]. rewrite app_nil_r.
    by apply (recover_partial dev l l' x' m n k S Hc Hrb' Hg').
  - rewrite (take_ge (home_writes l m 0 n)) by lia.
    replace (k - _)%nat with 1%nat by lia. cbn [take]. rewrite apply_writes_app.
    change (apply_writes [(head_key l, h0)] ?z) with (<[head_key l := h0]> z).
    destruct (recover_empty dev l l' x' _ n S Hc0 Hrb' Hg') as (z & b & Hz & Hb).
    exists z, b. split; [exact Hz|]. intros h Hh. rewrite (Hb h Hh). cbn [amedia].
    rewrite lookup_insert_ne; [done|]. intros <-. apply Hh. by eapply head_key_in.
Qed.

(** The transaction's blocks are at home and nothing else has changed. *)
Definition all_new l (n : nat) p m m' : Prop :=
  (forall j, (j < n)%nat -> m' !! home_key l j = Some (seen ∅ p (home_key l j))) /\
  (forall h, ~ in_log l h -> (forall j, (j < n)%nat -> h <> home_key l j) -> m' !! h = m !! h).

Lemma lookup_log_writes l p m n j : (j < n)%nat ->
  apply_writes (log_writes l p 0 n) m !! log_key l j = Some (seen ∅ p (home_key l j)).
Proof.
  intros Hj. apply apply_writes_in; [rewrite log_writes_keys; apply log_keys_nodup|].
  apply list_elem_of_fmap. exists j. split; [done|]. apply elem_of_seq. lia.
Qed.

Lemma log_writes_off l p m n k h : log_shape present l n -> ~ in_log l h ->
  apply_writes (take k (log_writes l p 0 n)) m !! h = m !! h.
Proof.
  intros S Hh. apply apply_writes_out, take_keys_out. rewrite log_writes_keys.
  intros (j & -> & Hj%elem_of_seq)%list_elem_of_fmap. apply Hh.
  eapply (log_key_in present l n); [done|lia].
Qed.

Lemma log_writes_head l p m n k :
  apply_writes (take k (log_writes l p 0 n)) m !! head_key l = m !! head_key l.
Proof.
  apply apply_writes_out, take_keys_out. rewrite log_writes_keys.
  intros (j & [= E] & Hj%elem_of_seq)%list_elem_of_fmap. lia.
Qed.

Lemma all_new_replay l n p m m2 m' : log_shape present l n ->
  (forall j, (j < n)%nat -> m2 !! log_key l j = Some (seen ∅ p (home_key l j))) ->
  off_log_eq l m2 m ->
  off_log_eq l m' (apply_writes (home_writes l m2 0 n) m2) -> all_new l n p m m'.
Proof.
  intros S Hl Hm2 Hm'. split.
  - intros j Hj. rewrite (Hm' _ (proj2 (ls_home _ _ _ S j Hj))).
    apply apply_writes_in; [rewrite home_writes_keys; by apply home_keys_nodup|].
    apply list_elem_of_fmap. exists j. rewrite (Hl j Hj). split; [done|]. apply elem_of_seq. lia.
  - intros h Hh Hne. rewrite (Hm' h Hh), apply_writes_out; [by apply Hm2|].
    rewrite home_writes_keys. intros (j & -> & Hj%elem_of_seq)%list_elem_of_fmap.
    apply (Hne j); [lia|done].
Qed.

Lemma commit_cut dev l x m p n (bud : option nat) :
  getlog_of (disks x) dev = Some l -> lh_n l = Z.of_nat n -> (0 < n)%nat ->
  log_shape present l n -> committed l 0 m ->
  (forall j, (j < n)%nat -> exists v,
     p !! home_key l j = Some {| p_dirty := true; p_busy := false; p_data := v |}) ->
  (forall h, in_log l h -> p !! h = None) -> (size p < NBUF)%nat ->
  cut_at (Spec.run present (commit dev) x {| amedia := m; pin := p; abudget := bud |})
    (all_new l n p m)
    (fun m' => recovers_to dev l m' (fun mr => off_log_eq l mr m \/ all_new l n p m mr)).
Proof.
  intros Hg Hn Hpos S Hc Hpin Hfree Hsz.
  pose proof (commit_ok present dev l x m p n Hg Hn Hpos S Hpin Hfree Hsz) as Hr. cbv zeta in Hr.
  set (m1 := apply_writes (log_writes l p 0 n) m) in *.
  set (m2 := <[head_key l:=new_head l m1]> m1) in *.
  set (m3 := apply_writes (home_writes l m2 0 n) m2) in *.
  pose proof (log_writes_head l p m n n) as Eh1.
  rewrite (take_ge (log_writes l p 0 n)) in Eh1
    by (unfold log_writes; rewrite length_fmap, length_seq; lia).
  assert (length (media_at m1 (head_key l)) = BSIZE) as Hlen.
  { unfold m1. rewrite Eh1. apply (cm_len _ _ _ Hc). }
  assert (committed l n m2) as Hc2.
  { unfold m2, new_head. rewrite Hn. by apply (committed_encode l m1 n n S Hlen). }
  assert (forall j, (j < n)%nat -> m2 !! log_key l j = Some (seen ∅ p (home_key l j))) as Hl2.
  { intros j Hj. unfold m2. rewrite lookup_insert_ne; [by apply lookup_log_writes|].
    intros [= E]. lia. }
  assert (off_log_eq l m2 m) as Hm2.
  { intros h Hh. unfold m2. rewrite lookup_insert_ne by (intros <-; apply Hh; by eapply head_key_in).
    pose proof (log_writes_off l p m n n h S Hh) as E.
    rewrite take_ge in E by (unfold log_writes; rewrite length_fmap, length_seq; lia). exact E. }
  eapply returns_cut; [exact Hr| |]; clear Hr.
  { rewrite apply_writes_app. apply (all_new_replay l n p m m2); [done..|].
    intros h Hh. fold m1. change (apply_writes ([(head_key l, new_head l m1)] ++ ?w) m1) with (apply_writes w m2).
    rewrite apply_writes_app. apply (lookup_insert_ne _ (head_key l)).
    intros <-. apply Hh. by eapply head_key_in. }
  intros k Hk l' x' Hrb Hg'.
  rewrite take_app.
  destruct (decide (k <= length (log_writes l p 0 n))%nat) as [Hle|Hgt].
  { (* before the header: the old state *)
    rewrite (proj2 (Nat.sub_0_le _ _)) by done. cbn [take]. rewrite app_nil_r.
    destruct (recover_empty dev l l' x' (apply_writes (take k (log_writes l p 0 n)) m) n S)
      as (y & b & Hy & Hb); [|done|done|].
    - eapply committed_keep; [done|]. apply log_writes_head.
    - exists y, b. split; [exact Hy|]. left. intros h Hh. rewrite (Hb h Hh). by apply (log_writes_off l p m n). }
  rewrite (take_ge (log_writes l p 0 n)) by lia. rewrite apply_writes_app. fold m1.
  set (k1 := (k - _)%nat). destruct k1 as [|k2] eqn:Ek1; [lia|]. cbn [take app].
  change (apply_writes ((head_key l, new_head l m1) :: ?w) m1) with (apply_writes w m2).
  rewrite take_app. destruct (decide (k2 <= length (home_writes l m2 0 n))%nat) as [Hle|Hgt2].
  { (* while installing: the new state *)
    rewrite (proj2 (Nat.sub_0_le _ _)) by done. cbn [take]. rewrite app_nil_r.
    destruct (recover_partial dev l l' x' m2 n k2 S Hc2 Hrb Hg') as (y & b & Hy & Hb).
    exists y, b. split; [exact Hy|]. right. by apply (all_new_replay l n p m m2). }
  rewrite (take_ge (home_writes l m2 0 n)) by lia. rewrite apply_writes_app. fold m3.
  rewrite !length_app in Hk. cbn [length] in Hk.
  replace (k2 - _)%nat with 1%nat by lia. cbn [take].
  change (apply_writes [(head_key l, ?hd)] m3) with (<[head_key l := hd]> m3).
  assert (m3 !! head_key l = m2 !! head_key l) as Eh3.
  { apply apply_writes_out. rewrite home_writes_keys. apply not_home_key; [done|by eapply head_key_in]. }
  destruct (recover_empty dev l l' x'
    (<[head_key l := new_head (set_lh 0 (lh_block l) l) m3]> m3) n S) as (y & b & Hy & Hb); [|done|done|].
  - apply (committed_encode l m3 n 0 S); [|lia]. rewrite Eh3. apply (cm_len _ _ _ Hc2).
  - exists y, b. split; [exact Hy|]. right. apply (all_new_replay l n p m m2); auto.
    intros h Hh. rewrite (Hb h Hh). rewrite lookup_insert_ne; [done|].
    intros <-. apply Hh. by eapply head_key_in.
Qed.
End crash.

(** ** Crash safety of the real cache *)

Section real.
Import Cache Refinement.
Context (present : Z -> bool).
Implicit Types (m : gmap key block) (l : log) (x : kfs).

(** What can be said of a run on the specification, said of the cache. *)
Lemma cut_real {A} (c : prog kfs A) x (s : bstate) (a : Spec.astate) (D Q : gmap key block -> Prop) :
  R present s a -> cut_at (Spec.run present c x a) D Q ->
  match BlockIO.run present c x s with
  | Ok _ (_, s') => D (media s')
  | PowerFail (_, s') => Q (media s')
  | _ => False
  end.
Proof.
  intros HR Hc. pose proof (run_refines present c x s a HR) as H. unfold same_outcome in H.
  destruct (Spec.run present c x a) as [v [y a']|? [? ?]|[? ?]|[y a']]; try done.
  - destruct H as (s' & -> & HR'). rewrite <- (R_media _ _ _ HR'). apply Hc.
  - destruct H as (s' & -> & ->). exact Hc.
Qed.

(** Booting again: a fresh cache on what the drive holds, and recovery. *)
Definition reboots_to (dev : Z) l m' (Q : gmap key block -> Prop) : Prop :=
  forall l' x', rebooted l l' -> getlog_of (disks x') dev = Some l' ->
  exists y s, BlockIO.run present (recover_from_log dev) x' (binit m' None) = Ok tt (y, s) /\
    Q (media s).

Lemma reboots_real (dev : Z) l m' (Q : gmap key block -> Prop) : present (2 ^ 32 - 1) = false ->
  recovers_to present dev l m' Q -> reboots_to dev l m' Q.
Proof.
  intros Hno Hr l' x' Hrb Hg. destruct (Hr l' x' Hrb Hg) as (y & b & Hb & HQ).
  pose proof (run_refines present (recover_from_log dev) x' _ _ (binit_R present m' None Hno)) as H.
  rewrite Hb in H. destruct H as (s & Hs & HR). exists y, s. split; [done|].
  by rewrite <- (R_media _ _ _ HR).
Qed.

(** C1: commit is atomic with respect to power failures.  A transaction of
    [n] logged, pinned blocks either returns with all of them at home, or the
    power fails at one of its disk writes; whichever write that was, the
    recovery that runs at the next boot succeeds and leaves the file system
    either exactly as it was before or with the whole transaction applied. *)
Theorem commit_crash_safe (dev : Z) l x m (p : gmap key Spec.pinned) (n : nat) (bud : option nat) (s : bstate) :
  present (2 ^ 32 - 1) = false ->
  R present s {| Spec.amedia := m; Spec.pin := p; Spec.abudget := bud |} ->
  getlog_of (disks x) dev = Some l -> lh_n l = Z.of_nat n -> (0 < n)%nat ->
  log_shape present l n -> committed l 0 m ->
  (forall j, (j < n)%nat -> exists v,
     p !! home_key l j = Some {| Spec.p_dirty := true; Spec.p_busy := false; Spec.p_data := v |}) ->
  (forall h, in_log l h -> p !! h = None) -> (size p < NBUF)%nat ->
  match BlockIO.run present (commit dev) x s with
  | Ok _ (_, s') => all_new l n p m (media s')
  | PowerFail (_, s') =>
    reboots_to dev l (media s') (fun m' => off_log_eq l m' m \/ all_new l n p m m')
  | _ => False
  end.
Proof.
  intros Hno HR Hg Hn Hpos S Hc Hpin Hfree Hsz.
  apply (cut_real (commit dev) x s _ (all_new l n p m) (fun ms =>
    reboots_to dev l ms (fun m' => off_log_eq l m' m \/ all_new l n p m m')) HR).
  pose proof (commit_cut present dev l x m p n bud Hg Hn Hpos S Hc Hpin Hfree Hsz) as H.
  unfold cut_at in *. destruct (Spec.run _ _ _ _) as [v [y a']|? [? ?]|[? ?]|[y a']]; try done.
  - destruct H as [H1 H2]. split; [done|]. by apply reboots_real.
  - by apply reboots_real.
Qed.

(** C3: recovery is idempotent and restartable.  When it returns, the blocks
    the header records are at home; when the power fails during it, running it
    again at the next boot gives the same result, however often that
    happens. *)
Theorem recovery_crash_safe (dev : Z) l l0 x m (n : nat) (bud : option nat) :
  present (2 ^ 32 - 1) = false ->
  log_shape present l n -> committed l n m -> rebooted l l0 ->
  getlog_of (disks x) dev = Some l0 ->
  let replayed := apply_writes (home_writes l m 0 n) m in
  match BlockIO.run present (recover_from_log dev) x (binit m bud) with
  | Ok _ (_, s') => off_log_eq l (media s') replayed
  | PowerFail (_, s') => reboots_to dev l (media s') (fun m' => off_log_eq l m' replayed)
  | _ => False
  end.
Proof.
  intros Hno S Hc Hrb Hg replayed.
  apply (cut_real (recover_from_log dev) x _ _ (fun ms => off_log_eq l ms replayed) (fun ms =>
    reboots_to dev l ms (fun m' => off_log_eq l m' replayed)) (binit_R present m bud Hno)).
  pose proof (recovery_cut present dev l l0 x m n bud S Hc Hrb Hg) as H.
  unfold cut_at in *. destruct (Spec.run _ _ _ _) as [v [y a']|? [? ?]|[? ?]|[y a']]; try done.
  - destruct H as [H1 H2]. split; [done|]. by apply reboots_real.
  - by apply reboots_real.
Qed.
End real.
(** ** Absorption *)

(** The log after block [bn] is recorded. *)
Definition logged (l : log) (bn : Z) : log :=
  let i := absorb l bn in
  set_lh (if Z.of_nat i =? lh_n l then lh_n l + 1 else lh_n l) (<[i := bn]> (lh_block l)) l.

(** The recorded block numbers. *)
Definition entries (l : log) : list Z := take (Z.to_nat (lh_n l)) (lh_block l).

Section absorption.
Context (present : Z -> bool).
Implicit Types (l : log) (x : kfs).

Lemma log_write_ok l x a b v :
  getlog_of (disks x) b.1 = Some l -> Spec.pin a !! b = Some v -> Spec.p_busy v = true ->
  l_size l <> 0 -> lh_n l < LOGSIZE -> lh_n l < l_size l - 1 -> 1 <= outstanding l ->
  Spec.run present (log_write b) x a =
  Ok tt (with_log b.1 (logged l b.2) x,
         Spec.set_pin b {| Spec.p_dirty := true; Spec.p_busy := true; Spec.p_data := Spec.p_data v |} a).
Proof.
  intros Hg Hv Hb Hs H1 H2 H3. unfold log_write.
  rewrite (proj1 (getlog_step present b.1 l x _ a Hg)).
  rewrite (proj2 (Z.eqb_neq _ _) Hs), (proj2 (Z.leb_gt _ _) H1).
  rewrite (proj2 (Z.leb_gt (l_size l - 1) (lh_n l))) by lia.
  rewrite (proj2 (Z.ltb_ge (outstanding l) 1)) by lia. cbn [orb].
  unfold putlog, kmodify, bpin. cbn [Spec.run mbind prog_bind].
  unfold Spec.bpin, Spec.with_busy. rewrite Hv, Hb. done.
Qed.

Lemma log_write_full l x a b :
  getlog_of (disks x) b.1 = Some l -> l_size l <> 0 ->
  LOGSIZE <= lh_n l \/ l_size l - 1 <= lh_n l ->
  Spec.run present (log_write b) x a = Panic "too big a transaction" (x, a).
Proof.
  intros Hg Hs H. unfold log_write. rewrite (proj1 (getlog_step present b.1 l x _ a Hg)).
  rewrite (proj2 (Z.eqb_neq _ _) Hs).
  replace ((LOGSIZE <=? lh_n l) || (l_size l - 1 <=? lh_n l)) with true; [done|].
  symmetry. apply orb_true_iff. rewrite !Z.leb_le. done.
Qed.

Definition full_bound l : Prop := 0 <= lh_n l < Z.of_nat (length (lh_block l)).

Lemma logged_old l bn : full_bound l -> bn ∈ entries l ->
  lh_n (logged l bn) = lh_n l /\ entries (logged l bn) = entries l.
Proof.
  unfold full_bound, logged, absorb, entries. intros Hb Hin.
  destruct (scan _ _) as [[i y]|] eqn:E.
  - apply scan_Some in E as (Hi & ->%Z.eqb_eq & _).
    pose proof (lookup_lt_Some _ _ _ Hi) as Hlt. rewrite length_take in Hlt.
    rewrite (proj2 (Z.eqb_neq (Z.of_nat i) (lh_n l))) by lia. cbn [lh_n lh_block set_lh].
    split; [done|]. rewrite lookup_take_lt in Hi by lia. by rewrite list_insert_id.
  - apply list_elem_of_lookup in Hin as [i Hi]. rewrite scan_None in E.
    specialize (E i bn Hi). rewrite Z.eqb_refl in E. done.
Qed.

Lemma logged_new l bn : full_bound l -> bn ∉ entries l ->
  lh_n (logged l bn) = lh_n l + 1 /\ entries (logged l bn) = entries l ++ [bn].
Proof.
  unfold full_bound, logged, absorb, entries. intros Hb Hn.
  destruct (scan _ _) as [[i y]|] eqn:E.
  - apply scan_Some in E as (Hi & ->%Z.eqb_eq & _). by apply list_elem_of_lookup_2 in Hi.
  - rewrite Z2Nat.id, Z.eqb_refl by lia. cbn [lh_n lh_block set_lh]. split; [done|].
    replace (Z.to_nat (lh_n l + 1)) with (S (Z.to_nat (lh_n l))) by lia.
    rewrite (take_S_r _ _ bn) by (apply list_lookup_insert_eq; lia).
    by rewrite take_insert_ge by lia.
Qed.

Lemma logged_rest l bn :
  l_size (logged l bn) = l_size l /\ outstanding (logged l bn) = outstanding l /\
  committing (logged l bn) = committing l /\
  length (lh_block (logged l bn)) = length (lh_block l).
Proof. unfold logged. simpl. by rewrite length_insert. Qed.

(** [log_write] records each block once.  Inside a transaction with room
    left it pins the buffer, keeps the recorded block numbers distinct, adds
    its own and loses none; a block already recorded takes no new slot, and a
    full log is a panic that changes nothing. *)
Theorem log_write_absorbs l x a b v :
  getlog_of (disks x) b.1 = Some l -> Spec.pin a !! b = Some v -> Spec.p_busy v = true ->
  length (lh_block l) = Z.to_nat LOGSIZE -> 0 <= lh_n l -> 0 < l_size l -> 1 <= outstanding l ->
  NoDup (entries l) ->
  if (lh_n l <? LOGSIZE) && (lh_n l <? l_size l - 1) then
    exists l',
      Spec.run present (log_write b) x a =
      Ok tt (with_log b.1 l' x,
        Spec.set_pin b {| Spec.p_dirty := true; Spec.p_busy := true; Spec.p_data := Spec.p_data v |} a) /\
      NoDup (entries l') /\ (forall c, c ∈ entries l' <-> c = b.2 \/ c ∈ entries l) /\
      lh_n l' = lh_n l + (if bool_decide (b.2 ∈ entries l) then 0 else 1)
  else Spec.run present (log_write b) x a = Panic "too big a transaction" (x, a).
Proof.
  intros Hg Hv Hbusy Hlen Hn0 Hs Ho Hnd.
  destruct (_ && _) eqn:E.
  - apply andb_true_iff in E as [H1%Z.ltb_lt H2%Z.ltb_lt]. exists (logged l b.2).
    split; [apply (log_write_ok l x a b v); auto; lia|].
    assert (full_bound l) as Hf by (unfold full_bound; rewrite Hlen; lia).
    case_bool_decide as Hin.
    + destruct (logged_old l b.2 Hf Hin) as [-> ->]. split; [done|]. split; [|lia].
      intros c. split; [by right|]. by intros [->|].
    + destruct (logged_new l b.2 Hf Hin) as [-> ->]. split; [|split; [|done]].
      * apply list.NoDup_app. split; [done|]. split; [|apply NoDup_singleton].
        by intros c Hc ->%list_elem_of_singleton.
      * intros c. rewrite elem_of_app, list_elem_of_singleton. tauto.
  - apply (log_write_full l); [done|lia|]. apply andb_false_iff in E.
    rewrite !Z.ltb_ge in E. done.
Qed.
End absorption.

(** ** The reservation

    [begin_op] admits an operation only while [MAXOPBLOCKS] slots remain for
    every operation outstanding.  The log's life is a sequence of
    [begin_op]s, [log_write]s and [end_op]s that return, interleaved with
    anything that leaves the log alone; [rem] holds, for each outstanding
    operation, how many blocks it may still write. *)

Section reservation.
Context (present : Z -> bool) (dev : Z).
Implicit Types (l : log) (x : kfs) (a : Spec.astate) (rem : list nat).

Inductive op_step : (kfs * Spec.astate * list nat) -> (kfs * Spec.astate * list nat) -> Prop :=
| step_begin x a rem x' a' :
    Spec.run present (begin_op dev) x a = Ok tt (x', a') ->
    op_step (x, a, rem) (x', a', Z.to_nat MAXOPBLOCKS :: rem)
| step_write x a rem i k b x' a' :
    b.1 = dev -> rem !! i = Some (S k) ->
    Spec.run present (log_write b) x a = Ok tt (x', a') ->
    op_step (x, a, rem) (x', a', <[i := k]> rem)
| step_end x a rem i k x' a' :
    rem !! i = Some k ->
    Spec.run present (end_op dev) x a = Ok tt (x', a') ->
    op_step (x, a, rem) (x', a', delete i rem)
| step_other x a rem x' a' :
    getlog_of (disks x') dev = getlog_of (disks x) dev ->
    op_step (x, a, rem) (x', a', rem).

Record reserved x rem l : Prop := {
  rs_log : getlog_of (disks x) dev = Some l;
  rs_len : length (lh_block l) = Z.to_nat LOGSIZE;
  rs_size : 0 < l_size l;
  rs_out : outstanding l = Z.of_nat (length rem);
  rs_idle : committing l = 0;
  rs_n : 0 <= lh_n l;
  rs_max i k : rem !! i = Some k -> Z.of_nat k <= MAXOPBLOCKS;
  rs_sum : lh_n l + Z.of_nat (sum_list rem) <= LOGSIZE
}.

(** Routines that never write the file system's memory. *)
Definition keeps {A} (c : prog kfs A) : Prop := forall x a v y b,
  Spec.run present c x a = Ok v (y, b) -> y = x.

Lemma keeps_ret {A} (v : A) : keeps (mret v).
Proof. by intros x a w y b [= _ <- _]. Qed.
Lemma keeps_fail {A} msg : keeps (fail (A:=A) msg).
Proof. by intros x a w y b H. Qed.
Lemma keeps_bind {A B} (c : prog kfs A) (f : A -> prog kfs B) :
  keeps c -> (forall v, keeps (f v)) -> keeps (c ≫= f).
Proof.
  intros Hc Hf x a v y b. rewrite Spec.run_bind.
  destruct (Spec.run present c x a) as [w [z e]| | |] eqn:E; try done.
  intros H. rewrite (Hf _ _ _ _ _ _ H). by apply (Hc _ _ _ _ _ E).
Qed.
Lemma keeps_pfor {A} (js : list A) (f : A -> prog kfs unit) :
  (forall i, keeps (f i)) -> keeps (pfor js f).
Proof. intros Hf. induction js as [|i js IH]; [apply (keeps_ret tt)|]. by apply keeps_bind. Qed.
Lemma keeps_kget {A} (f : kfs -> A) : keeps (kget f).
Proof. by intros x a v y b [= _ <- _]. Qed.
Lemma keeps_call {A B} (p : prog kfs A) (r : Spec.astate -> res Spec.astate B) (f : B -> A) :
  (forall x a, Spec.run present p x a = lift_res x (r a) (fun v b => Ok (f v) (x, b))) -> keeps p.
Proof.
  intros E x a v y b. rewrite E. unfold lift_res. destruct (r a); try done. by intros [= _ <- _].
Qed.
Lemma keeps_bread d bn : keeps (bread d bn).
Proof. by apply (keeps_call _ (Spec.bread present (d, bn)) (fun _ => (d, bn))). Qed.
Lemma keeps_bdata h : keeps (bdata h).
Proof. by apply (keeps_call _ (Spec.bdata h) id). Qed.
Lemma keeps_bset h d : keeps (bset h d).
Proof. apply (keeps_call _ (Spec.bset h d) id). by intros x a; simpl; destruct (Spec.bset h d a) as [[]| | |]. Qed.
Lemma keeps_bwrite h : keeps (bwrite h).
Proof. apply (keeps_call _ (Spec.bwrite h) id). by intros x a; simpl; destruct (Spec.bwrite h a) as [[]| | |]. Qed.
Lemma keeps_brelse h : keeps (brelse h).
Proof. apply (keeps_call _ (Spec.brelse h) id). by intros x a; simpl; destruct (Spec.brelse h a) as [[]| | |]. Qed.
Lemma keeps_getlog d : keeps (getlog d).
Proof. apply keeps_bind; [apply keeps_kget|]. intros [l|]; [apply keeps_ret|apply keeps_fail]. Qed.
Lemma keeps_lh_at l i : keeps (lh_at l i).
Proof. unfold lh_at. destruct (_ !! _); [apply keeps_ret|apply keeps_fail]. Qed.
End reservation.

Create HintDb keeps.
#[export] Hint Resolve keeps_ret keeps_fail keeps_kget keeps_bread keeps_bdata keeps_bset keeps_bwrite
  keeps_brelse keeps_getlog keeps_lh_at : keeps.
#[export] Hint Extern 2 (keeps _ (_ ≫= _)) => (apply keeps_bind; [|intros ?]) : keeps.
#[export] Hint Extern 2 (keeps _ (pfor _ _)) => (apply keeps_pfor; intros ?) : keeps.

Section reservation_proof.
Context (present : Z -> bool) (dev : Z).
Implicit Types (l : log) (x : kfs) (a : Spec.astate) (rem : list nat).

Lemma keeps_write_log : keeps present (write_log dev).
Proof. unfold write_log, write_log_one. auto 20 with keeps. Qed.
Lemma keeps_install : keeps present (install_trans dev).
Proof. unfold install_trans, install_one. auto 20 with keeps. Qed.
Lemma keeps_write_head : keeps present (write_head dev).
Proof. unfold write_head. auto 20 with keeps. Qed.

Lemma run_seq {A B} (c : prog kfs A) (f : A -> prog kfs B) x a v y b :
  Spec.run present (c ≫= f) x a = Ok v (y, b) ->
  exists w z e, Spec.run present c x a = Ok w (z, e) /\ Spec.run present (f w) z e = Ok v (y, b).
Proof.
  rewrite Spec.run_bind. destruct (Spec.run present c x a) as [w [z e]| | |]; try done. eauto.
Qed.

(** A commit that returns empties the log and touches nothing else of it. *)
Lemma commit_clears l x a x' a' :
  getlog_of (disks x) dev = Some l -> 0 <= lh_n l ->
  Spec.run present (commit dev) x a = Ok tt (x', a') ->
  exists l', getlog_of (disks x') dev = Some l' /\ l' = set_lh 0 (lh_block l) l.
Proof.
  intros Hg Hn. unfold commit. rewrite (proj1 (getlog_step present dev l x _ a Hg)).
  destruct (0 <? lh_n l) eqn:E; intros H.
  - apply run_seq in H as ([] & x1 & a1 & E1 & H). apply keeps_write_log in E1 as ->.
    apply run_seq in H as ([] & x2 & a2 & E2 & H). apply keeps_write_head in E2 as ->.
    apply run_seq in H as ([] & x3 & a3 & E3 & H). apply keeps_install in E3 as ->.
    apply run_seq in H as ([] & x4 & a4 & E4 & H). apply keeps_write_head in H as ->.
    rewrite (proj1 (clear_lh_ok present dev l x a3 Hg)) in E4. injection E4 as <- <-.
    eexists. split; [by eapply with_log_get|done].
  - injection H as <- <-. exists l. split; [done|]. apply Z.ltb_ge in E.
    replace 0 with (lh_n l) by lia. by destruct l.
Qed.

Lemma sum_list_delete rem i k : rem !! i = Some k -> sum_list rem = (k + sum_list (delete i rem))%nat.
Proof.
  revert i. induction rem as [|r rem IH]; intros [|i] H; simpl in *; [done..|by injection H as ->|].
  rewrite (IH i H). lia.
Qed.
Lemma sum_list_update rem i k k' : rem !! i = Some k ->
  (sum_list (<[i := k']> rem) + k = sum_list rem + k')%nat.
Proof.
  revert i. induction rem as [|r rem IH]; intros [|i] H; simpl in *; [done..|injection H as ->; lia|].
  specialize (IH i H). lia.
Qed.
Lemma sum_list_max rem : (forall i k, rem !! i = Some k -> Z.of_nat k <= MAXOPBLOCKS) ->
  Z.of_nat (sum_list rem) <= Z.of_nat (length rem) * MAXOPBLOCKS.
Proof.
  induction rem as [|r rem IH]; intros H; simpl; [lia|].
  pose proof (H 0%nat r eq_refl). specialize (IH (fun i k E => H (S i) k E)). lia.
Qed.

Lemma reserved_begin x a rem l x' a' : reserved dev x rem l ->
  Spec.run present (begin_op dev) x a = Ok tt (x', a') ->
  exists l', reserved dev x' (Z.to_nat MAXOPBLOCKS :: rem) l' /\ l_size l' = l_size l.
Proof.
  intros [Hg Hl Hs Ho Hi Hn Hm Hsum]. unfold begin_op.
  rewrite (proj1 (getlog_step present dev l x _ a Hg)), Hi.
  rewrite (proj2 (Z.eqb_neq (l_size l) 0)) by lia.
  cbn [negb Z.eqb]. destruct (Z.ltb_spec LOGSIZE (lh_n l + (outstanding l + 1) * MAXOPBLOCKS)); [done|].
  intros [= <- <-]. exists (set_outstanding (outstanding l + 1) l). split; [|reflexivity]. split; [by eapply getlog_putlog|cbn..].
  - done. - done. - lia. - done. - done.
  - intros [|i] k E; [injection E as <-; unfold MAXOPBLOCKS; lia|by eapply Hm].
  - pose proof (sum_list_max rem Hm). unfold MAXOPBLOCKS in *. lia.
Qed.

Lemma reserved_write x a rem l i k b x' a' : reserved dev x rem l -> b.1 = dev ->
  rem !! i = Some (S k) -> Spec.run present (log_write b) x a = Ok tt (x', a') ->
  exists l', reserved dev x' (<[i := k]> rem) l' /\ l_size l' = l_size l.
Proof.
  intros [Hg Hl Hs Ho Hi Hn Hm Hsum] Hd Hk H.
  pose proof (sum_list_update rem i (S k) k Hk) as Hu.
  pose proof (sum_list_delete rem i (S k) Hk) as Hdel.
  pose proof (lookup_lt_Some _ _ _ Hk) as Hlt.
  unfold log_write in H. rewrite Hd in H. rewrite (proj1 (getlog_step present dev l x _ a Hg)) in H.
  rewrite (proj2 (Z.eqb_neq (l_size l) 0)) in H by lia.
  rewrite (proj2 (Z.leb_gt LOGSIZE (lh_n l))) in H by lia. cbn [orb] in H. destruct (l_size l - 1 <=? lh_n l); [done|].
  rewrite (proj2 (Z.ltb_ge (outstanding l) 1)) in H by lia.
  apply run_seq in H as ([] & x1 & a1 & E1 & H). injection E1 as <- <-.
  assert (x' = with_log dev (logged l b.2) x) as ->.
  { cbn [Spec.run bpin] in H. unfold lift_res in H. destruct (Spec.bpin b a); [|done..].
    by injection H as <- _. }
  destruct (logged_rest l b.2) as (E1 & E2 & E3 & E4).
  exists (logged l b.2). split; [|exact E1]. split; [by eapply with_log_get|..]; rewrite ?E1, ?E2, ?E3, ?E4; try done.
  - by rewrite length_insert.
  - unfold logged. cbn. case_match; lia.
  - intros j k' Hj. apply list_insert_inv in Hj as [[-> ->]|[_ Hj]]; [|by eapply Hm].
    specialize (Hm i (S k) Hk). lia.
  - assert (lh_n (logged l b.2) <= lh_n l + 1); [|lia]. unfold logged. cbn. case_match; lia.
Qed.

Lemma reserved_end x a rem l i k x' a' : reserved dev x rem l -> rem !! i = Some k ->
  Spec.run present (end_op dev) x a = Ok tt (x', a') ->
  exists l', reserved dev x' (delete i rem) l' /\ l_size l' = l_size l.
Proof.
  intros [Hg Hl Hs Ho Hi Hn Hm Hsum] Hk H.
  pose proof (lookup_lt_Some _ _ _ Hk) as Hlt.
  pose proof (sum_list_delete rem i k Hk) as Hdel.
  pose proof (length_delete rem i (ex_intro _ k Hk)) as Hld.
  assert (forall j k', delete i rem !! j = Some k' -> Z.of_nat k' <= MAXOPBLOCKS) as Hm'.
  { intros j k' Hj. destruct (decide (j < i)%nat).
    - rewrite list_lookup_delete_lt in Hj by done. eauto.
    - rewrite list_lookup_delete_ge in Hj by lia. eauto. }
  unfold end_op in H. rewrite (proj1 (getlog_step present dev l x _ a Hg)) in H.
  rewrite (proj2 (Z.eqb_neq (l_size l) 0)) in H by lia.
  apply run_seq in H as ([] & x1 & a1 & E1 & H). injection E1 as <- <-.
  cbn [committing set_outstanding] in H. rewrite Hi in H. cbn [negb Z.eqb outstanding] in H.
  fold (with_log dev (set_outstanding (outstanding l - 1) l) x) in H.
  assert (Hg1 := with_log_get dev l (set_outstanding (outstanding l - 1) l) x Hg).
  change (outstanding (set_outstanding ?v l)) with v in H.
  destruct (Z.eqb_spec (outstanding l - 1) 0) as [E0|E0].
  - apply run_seq in H as ([] & x2 & a2 & E2 & H). injection E2 as <- <-.
    match type of H with context [Spec.run present _ ?z a] =>
      change z with (with_log dev (set_committing 1 (set_outstanding (outstanding l - 1) l))
        (with_log dev (set_outstanding (outstanding l - 1) l) x)) in H end.
    assert (Hg2 := with_log_get dev _ (set_committing 1 (set_outstanding (outstanding l - 1) l)) _ Hg1).
    apply run_seq in H as ([] & x3 & a3 & E3 & H).
    destruct (commit_clears _ _ _ _ _ Hg2 Hn E3) as (l3 & Hg3 & ->).
    rewrite (proj1 (getlog_step present dev _ x3 _ a3 Hg3)) in H. injection H as <- <-.
    eexists. split; [split; [by eapply with_log_get|cbn..]; try done; lia|reflexivity].
  - injection H as <- <-. eexists. split; [split; [done|cbn..]; try done; lia|reflexivity].
Qed.

(** The write of an operation that is within its reservation fails exactly when
    the log's blocks, less the header, are used up. *)
Lemma reserved_panics x a rem l i k b : reserved dev x rem l -> b.1 = dev -> rem !! i = Some (S k) ->
  (Spec.run present (log_write b) x a = Panic "too big a transaction" (x, a) <-> l_size l <= lh_n l + 1) /\ lh_n l + 1 <= LOGSIZE.
Proof.
  intros [Hg Hl Hs Ho Hi Hn Hm Hsum] Hb Hk. pose proof (sum_list_delete _ i _ Hk). split; [|lia].
  split; [|intros Hf; apply (log_write_full present l); rewrite ?Hb; try done; lia].
  intros E. unfold log_write in E. rewrite Hb in E. rewrite (proj1 (getlog_step present dev l _ _ _ Hg)) in E.
  rewrite (proj2 (Z.eqb_neq (l_size l) 0)) in E by lia. rewrite (proj2 (Z.leb_gt LOGSIZE (lh_n l))) in E by lia. cbn [orb] in E.
  destruct (Z.leb_spec (l_size l - 1) (lh_n l)) as [|_]; [lia|]. exfalso.
  destruct (outstanding l <? 1); [cbn [Spec.run fail] in E; discriminate E|]. unfold putlog, kmodify, bpin in E.
  cbn [Spec.run mbind prog_bind] in E. unfold Spec.bpin, Spec.with_busy, lift_res in E. repeat case_match; simplify_eq.
Qed.

(** C18: what the reservation of [begin_op] is worth.  However [begin_op],
    [log_write] and [end_op] calls are interleaved, with commits by the last
    [end_op], as long as no operation writes more than [MAXOPBLOCKS] blocks, the
    blocks recorded and the blocks the running operations may still write are
    together at most [LOGSIZE].  So a [log_write] finds a place in the header, and
    panics with "too big a transaction" exactly when the recorded blocks fill the
    log on disk but for its header block: never on a log of more than [LOGSIZE]
    blocks; on one of [LOGSIZE] blocks, which the image builders make, exactly for
    the write that comes with [LOGSIZE] - 1 blocks recorded. *)
Theorem reservation_suffices c c' : rtc (op_step present dev) c c' ->
  forall l, reserved dev c.1.1 c.2 l ->
  exists l', reserved dev c'.1.1 c'.2 l' /\ l_size l' = l_size l /\ lh_n l' + Z.of_nat (sum_list c'.2) <= LOGSIZE /\
    forall i k b, b.1 = dev -> c'.2 !! i = Some (S k) -> lh_n l' < LOGSIZE /\
      (Spec.run present (log_write b) c'.1.1 c'.1.2 = Panic "too big a transaction" c'.1 <-> l_size l <= lh_n l' + 1).
Proof.
  induction 1 as [c|c1 c2 c3 H _ IH]; intros l Hr.
  - exists l. split; [done|]. split; [done|]. split; [apply Hr|]. intros i k b Hb Hk.
    destruct (reserved_panics _ c.1.2 _ _ i k b Hr Hb Hk) as [E Hlt]. split; [lia|]. by destruct c as [[x a] rem].
  - assert (exists l1, reserved dev c2.1.1 c2.2 l1 /\ l_size l1 = l_size l) as (l1 & Hr1 & E1).
    { destruct H as [x a rem x' a' H|x a rem i k b x' a' Hb Hk H|x a rem i k x' a' Hk H|x a rem x' a' Hg]; cbn in *.
      + exact (reserved_begin _ _ _ _ _ _ Hr H).
      + exact (reserved_write _ _ _ _ _ _ _ _ _ Hr Hb Hk H).
      + exact (reserved_end _ _ _ _ _ _ _ _ Hr Hk H).
      + exists l. split; [|done]. destruct Hr as [Hl1 ? ? ? ? ? ? ?]. split; [by rewrite Hg|done..]. }
    rewrite <- E1. by apply IH.
Qed.
End reservation_proof.


(** ** Concrete runs *)

Module Concrete.
Import Refinement.

Definition only0 (d : Z) : bool := d =? 0.

(** One mounted disk whose log has [sz] blocks from block 2 and [out]
    operations outstanding. *)
Definition log0 (sz out : Z) : log :=
  {| l_start := 2; l_size := sz; outstanding := out; committing := 0; l_dev := 0;
     lh_n := 0; lh_block := replicate (Z.to_nat LOGSIZE) 0 |}.
Definition mem0 (sz out : Z) : kfs :=
  {| disks := [set_d_log (Some (log0 sz out)) (set_d_flags (Z.lor DRIVER_INUSE DISK_MOUNTED) blank_disk)];
     icache := []; rootdir := None; havesysfs := false |}.
Definition st0 (bud : option nat) : Spec.astate :=
  {| Spec.amedia := ∅; Spec.pin := ∅; Spec.abudget := bud |}.

(** Modify block [bn] inside a transaction. *)
Definition touch (bn v : Z) : prog kfs unit :=
  b ← bread 0 bn; bset b (replicate BSIZE v) ;; log_write b ;; brelse b.
Definition tx : prog kfs unit := touch 100 7 ;; touch 101 8.

Definition mem1 : kfs :=
  match Spec.run only0 tx (mem0 40 1) (st0 None) with Ok _ (x, _) => x | _ => mem0 40 1 end.
Definition log1 : log := default log_zero (getlog_of (disks mem1) 0).
Definition pin1 : gmap key Spec.pinned :=
  match Spec.run only0 tx (mem0 40 1) (st0 None) with Ok _ (_, a) => Spec.pin a | _ => ∅ end.
Definition cache1 (bud : option nat) : Cache.bstate :=
  match BlockIO.run only0 tx (mem0 40 1) (Cache.binit ∅ bud) with Ok _ (_, s) => s | _ => Cache.binit ∅ bud end.

Lemma cache1_R : R only0 (cache1 (Some 3%nat))
  {| Spec.amedia := ∅; Spec.pin := pin1; Spec.abudget := Some 3%nat |}.
Proof.
  pose proof (run_refines only0 tx (mem0 40 1) _ _ (binit_R only0 ∅ (Some 3%nat) eq_refl)) as H.
  assert (Spec.run only0 tx (mem0 40 1) (st0 (Some 3%nat)) =
    Ok tt (mem1, {| Spec.amedia := ∅; Spec.pin := pin1; Spec.abudget := Some 3%nat |})) as E
    by (vm_compute; reflexivity).
  unfold st0 in E. rewrite E in H. destruct H as (s & Hs & HR).
  unfold cache1. rewrite Hs. exact HR.
Qed.

Lemma two j : (j < 2)%nat -> j = 0%nat \/ j = 1%nat.
Proof. lia. Qed.

Lemma log1_shape : log_shape only0 log1 2.
Proof.
  split; try (vm_compute; (reflexivity || lia)).
  - vm_compute. intros [=].
  - intros j [-> | ->]%two; (split; [vm_compute; split; [intros [=]|reflexivity]|]);
      intros [_ [H1 H2]]; vm_compute in H1, H2; congruence.
  - intros i j [-> | ->]%two [-> | ->]%two; vm_compute; congruence.
Qed.
Lemma log1_empty : committed log1 0 ∅.
Proof. split; [vm_compute; reflexivity..|]. intros j Hj. lia. Qed.

Lemma commit_crash_safe_witness :
  match BlockIO.run only0 (commit 0) mem1 (cache1 (Some 3%nat)) with
  | Ok _ (_, s') => all_new log1 2 pin1 ∅ (Cache.media s')
  | PowerFail (_, s') =>
    reboots_to only0 0 log1 (Cache.media s') (fun m' => off_log_eq log1 m' ∅ \/ all_new log1 2 pin1 ∅ m')
  | _ => False
  end.
Proof.
  apply (commit_crash_safe only0 0 log1 mem1 ∅ pin1 2 (Some 3%nat) (cache1 (Some 3%nat))).
  - reflexivity.
  - exact cache1_R.
  - vm_compute. reflexivity.
  - vm_compute. reflexivity.
  - lia.
  - exact log1_shape.
  - exact log1_empty.
  - intros j [-> | ->]%two; eexists; vm_compute; reflexivity.
  - intros [d bn] [H1 H2]. cbn in H1, H2. destruct (pin1 !! (d, bn)) eqn:E; [|done].
    assert ((d, bn) ∈ dom pin1) as Hin by (apply elem_of_dom; eauto).
    assert (dom pin1 = {[ (0, 100); (0, 101) ]}) as Ed by (vm_compute; reflexivity).
    rewrite Ed, elem_of_union, !elem_of_singleton in Hin.
    change (l_start log1) with 2 in H2. change (l_size log1) with 40 in H2.
    destruct Hin as [[= _ ->]|[= _ ->]]; lia.
  - vm_compute. lia.
Defined.

(** A header that records blocks 100 and 101, their contents in the log. *)
Definition media2 : gmap key block :=
  <[(0, 2) := encode_head zero_block 2 [100; 101]]>
    (<[(0, 3) := replicate BSIZE 7]> (<[(0, 4) := replicate BSIZE 8]> ∅)).
Lemma recovery_crash_safe_witness :
  match BlockIO.run only0 (recover_from_log 0) (mem0 40 0) (Cache.binit media2 (Some 1%nat)) with
  | Ok _ (_, s') => off_log_eq log1 (Cache.media s') (apply_writes (home_writes log1 media2 0 2) media2)
  | PowerFail (_, s') => reboots_to only0 0 log1 (Cache.media s')
      (fun m' => off_log_eq log1 m' (apply_writes (home_writes log1 media2 0 2) media2))
  | _ => False
  end.
Proof.
  apply (recovery_crash_safe only0 0 log1 (log0 40 0) (mem0 40 0) media2 2 (Some 1%nat)).
  - reflexivity.
  - exact log1_shape.
  - split; [vm_compute; reflexivity..|]. intros j [-> | ->]%two; vm_compute; reflexivity.
  - split; vm_compute; reflexivity.
  - vm_compute. reflexivity.
Defined.

Definition write5 : prog unit unit :=
  b ← bread 0 5; bset b (replicate BSIZE 9) ;; bwrite b ;; brelse b.
Lemma crash_is_prefix_witness :
  exists z b, Spec.run only0 write5 tt (with_budget (Some 0%nat) (st0 None)) = PowerFail (z, b) /\
    Spec.amedia b = apply_writes [] ∅.
Proof.
  refine (proj2 (crash_is_prefix only0 write5 tt ∅ ∅ tt tt
    {| Spec.amedia := {[ (0, 5) := replicate BSIZE 9 ]}; Spec.pin := ∅; Spec.abudget := None |} 0 _)).
  vm_compute. reflexivity.
Defined.

Lemma log_write_absorbs_witness : exists l',
  Spec.run only0 (log_write (0, 100)) mem1
    (Spec.set_pin (0, 100) {| Spec.p_dirty := true; Spec.p_busy := true; Spec.p_data := [] |} (st0 None)) =
  Ok tt (with_log 0 l' mem1, Spec.set_pin (0, 100) {| Spec.p_dirty := true; Spec.p_busy := true; Spec.p_data := [] |}
    (Spec.set_pin (0, 100) {| Spec.p_dirty := true; Spec.p_busy := true; Spec.p_data := [] |} (st0 None))) /\
  NoDup (entries l') /\ (forall c, c ∈ entries l' <-> c = 100 \/ c ∈ entries log1) /\
  lh_n l' = lh_n log1 + 0.
Proof.
  apply (log_write_absorbs only0 log1 mem1
    (Spec.set_pin (0, 100) {| Spec.p_dirty := true; Spec.p_busy := true; Spec.p_data := [] |} (st0 None))
    (0, 100) {| Spec.p_dirty := true; Spec.p_busy := true; Spec.p_data := [] |});
    try (vm_compute; (reflexivity || lia || congruence)).
  replace (entries log1) with [100; 101] by (vm_compute; reflexivity).
  apply (bool_decide_unpack _). vm_compute. exact I.
Defined.

(** Two operations on a log of [LOGSIZE] blocks: both begin, one writes a block
    and ends, the other writes and the next write of it is to come. *)
Definition then_ {A} (p : prog kfs A) (s : kfs * Spec.astate) : kfs * Spec.astate := match Spec.run only0 p s.1 s.2 with Ok _ s' => s' | _ => s end.
Definition r1 := then_ (begin_op 0) (mem0 LOGSIZE 0, st0 None).
Definition r2 := then_ (begin_op 0) r1.
Definition r3 := then_ (bread 0 100) r2.
Definition r4 := then_ (log_write (0, 100)) r3.
Definition r5 := then_ (brelse (0, 100)) r4.
Definition r6 := then_ (end_op 0) r5.
Definition r7 := then_ (bread 0 101) r6.
Definition r8 := then_ (log_write (0, 101)) r7.
Lemma two_ops : rtc (op_step only0 0) (mem0 LOGSIZE 0, st0 None, []) (r8, [9%nat]).
Proof.
  apply rtc_l with (r1, [10%nat]); [apply (step_begin _ _ _ _ [] r1.1 r1.2); vm_compute; reflexivity|].
  apply rtc_l with (r2, [10%nat; 10%nat]); [apply (step_begin _ _ r1.1 r1.2 [10%nat] r2.1 r2.2); vm_compute; reflexivity|].
  apply rtc_l with (r3, [10%nat; 10%nat]); [apply (step_other _ _ r2.1 r2.2 _ r3.1 r3.2); vm_compute; reflexivity|].
  apply rtc_l with (r4, [9%nat; 10%nat]); [apply (step_write _ _ r3.1 r3.2 [10%nat; 10%nat] 0 9 (0, 100) r4.1 r4.2); vm_compute; reflexivity|].
  apply rtc_l with (r5, [9%nat; 10%nat]); [apply (step_other _ _ r4.1 r4.2 _ r5.1 r5.2); vm_compute; reflexivity|].
  apply rtc_l with (r6, [10%nat]); [apply (step_end _ _ r5.1 r5.2 [9%nat; 10%nat] 0 9 r6.1 r6.2); vm_compute; reflexivity|].
  apply rtc_l with (r7, [10%nat]); [apply (step_other _ _ r6.1 r6.2 _ r7.1 r7.2); vm_compute; reflexivity|].
  apply rtc_once. apply (step_write _ _ r7.1 r7.2 [10%nat] 0 9 (0, 101) r8.1 r8.2); vm_compute; reflexivity.
Qed.
Lemma two_recorded : lh_n <$> getlog_of (disks r8.1) 0 = Some 2.
Proof. vm_compute. reflexivity. Qed.
Lemma reservation_suffices_witness :
  exists l', getlog_of (disks r8.1) 0 = Some l' /\ lh_n l' = 2 /\ l_size l' = LOGSIZE /\ lh_n l' + 9 <= LOGSIZE /\
    forall b, b.1 = 0 -> Spec.run only0 (log_write b) r8.1 r8.2 <> Panic "too big a transaction" r8.
Proof.
  destruct (reservation_suffices only0 0 _ _ two_ops (log0 LOGSIZE 0)) as (l' & Hr & Es & Hs & Hw).
  - split; try (vm_compute; (reflexivity || congruence || lia)).
  - cbn [fst snd] in Hr, Hs, Hw. pose proof (rs_log _ _ _ _ Hr) as Hg. pose proof two_recorded as En. rewrite Hg in En. injection En as En.
    exists l'. split; [exact Hg|]. split; [exact En|]. split; [exact Es|]. split; [cbn in Hs; lia|].
    intros b Hb E. destruct (Hw 0%nat 8%nat b Hb eq_refl) as [_ HP]. apply HP in E. rewrite En in E. cbn [l_size log0] in E.
    unfold LOGSIZE, MAXOPBLOCKS in E. lia.
Defined.

(** The log [mkfs] lays out has [LOGSIZE] blocks, one of them the header:
    three operations that stay within their reservation overflow it. *)
Definition three_ops : prog kfs unit :=
  begin_op 0 ;; begin_op 0 ;; begin_op 0 ;;
  pfor (seq 0 30) (fun i => touch (100 + Z.of_nat i) 1).
Lemma mkfs_log_overflows :
  exists x s, BlockIO.run only0 three_ops (mem0 LOGSIZE 0) (Cache.binit ∅ None)
    = Panic "too big a transaction" (x, s).
Proof. eexists _, _. vm_compute. reflexivity. Qed.

(** With a larger log the same transaction pins all [NBUF] buffers, and the
    commit finds none left for the log blocks. *)
Lemma full_transaction_no_buffers :
  exists x s, BlockIO.run only0 (three_ops ;; end_op 0 ;; end_op 0 ;; end_op 0) (mem0 40 0) (Cache.binit ∅ None)
    = Panic "bget: no buffers" (x, s).
Proof. eexists _, _. vm_compute. reflexivity. Qed.
End Concrete.
