(* ===== verification/Fs.v ===== *)
(** The file system ([fs.c]), written as programs over the buffer cache and the
    file system's memory: block allocator, inodes, mounts, file contents,
    directories and path names.

    An inode pointer is an index into [icache]; nil is [None].  The routines
    run between the [ilock] and [iunlock] of their callers; [wakeup] and the
    messages printed by [cprintf] are left out.  A [sleep] ends the run in
    [Blocked]. *)

From S2P Require Import Prelude Params Bio Disk Log CString.
Import BlockIO.

(** ** Records *)

Definition iat (i : nat) : prog kfs inode :=
  o ← kget (fun x => icache x !! i);
  match o with Some ip => mret ip | None => fail "bad inode pointer" end.
Definition iset (i : nat) (f : inode -> inode) : prog kfs unit :=
  kmodify (fun x => set_icache (alter f i (icache x)) x).

Definition set_ref (r : Z) (ip : inode) : inode :=
  {| i_dev := i_dev ip; i_inum := i_inum ip; i_ref := r; i_flags := i_flags ip;
     mountroot := mountroot ip; mountparent := mountparent ip; mountpoint := mountpoint ip;
     i_type := i_type ip; i_major := i_major ip; i_minor := i_minor ip; i_owner := i_owner ip;
     i_perms := i_perms ip; i_attrib := i_attrib ip; i_nlink := i_nlink ip; i_size := i_size ip;
     i_addrs := i_addrs ip |}.
Definition set_flags (f : Z) (ip : inode) : inode :=
  {| i_dev := i_dev ip; i_inum := i_inum ip; i_ref := i_ref ip; i_flags := f;
     mountroot := mountroot ip; mountparent := mountparent ip; mountpoint := mountpoint ip;
     i_type := i_type ip; i_major := i_major ip; i_minor := i_minor ip; i_owner := i_owner ip;
     i_perms := i_perms ip; i_attrib := i_attrib ip; i_nlink := i_nlink ip; i_size := i_size ip;
     i_addrs := i_addrs ip |}.
Definition set_mount (r p : option nat) (ip : inode) : inode :=
  {| i_dev := i_dev ip; i_inum := i_inum ip; i_ref := i_ref ip; i_flags := i_flags ip;
     mountroot := r; mountparent := p; mountpoint := mountpoint ip;
     i_type := i_type ip; i_major := i_major ip; i_minor := i_minor ip; i_owner := i_owner ip;
     i_perms := i_perms ip; i_attrib := i_attrib ip; i_nlink := i_nlink ip; i_size := i_size ip;
     i_addrs := i_addrs ip |}.
Definition set_type (t : Z) (ip : inode) : inode :=
  {| i_dev := i_dev ip; i_inum := i_inum ip; i_ref := i_ref ip; i_flags := i_flags ip;
     mountroot := mountroot ip; mountparent := mountparent ip; mountpoint := mountpoint ip;
     i_type := t; i_major := i_major ip; i_minor := i_minor ip; i_owner := i_owner ip;
     i_perms := i_perms ip; i_attrib := i_attrib ip; i_nlink := i_nlink ip; i_size := i_size ip;
     i_addrs := i_addrs ip |}.
Definition set_size (n : Z) (ip : inode) : inode :=
  {| i_dev := i_dev ip; i_inum := i_inum ip; i_ref := i_ref ip; i_flags := i_flags ip;
     mountroot := mountroot ip; mountparent := mountparent ip; mountpoint := mountpoint ip;
     i_type := i_type ip; i_major := i_major ip; i_minor := i_minor ip; i_owner := i_owner ip;
     i_perms := i_perms ip; i_attrib := i_attrib ip; i_nlink := i_nlink ip; i_size := n;
     i_addrs := i_addrs ip |}.
Definition set_addr (k : nat) (b : Z) (ip : inode) : inode :=
  {| i_dev := i_dev ip; i_inum := i_inum ip; i_ref := i_ref ip; i_flags := i_flags ip;
     mountroot := mountroot ip; mountparent := mountparent ip; mountpoint := mountpoint ip;
     i_type := i_type ip; i_major := i_major ip; i_minor := i_minor ip; i_owner := i_owner ip;
     i_perms := i_perms ip; i_attrib := i_attrib ip; i_nlink := i_nlink ip; i_size := i_size ip;
     i_addrs := <[k := b]> (i_addrs ip) |}.

(** [struct dinode] in a byte array: shorts at 0 (type), 2 (major), 4 (minor),
    6 (owner), bytes at 8 (perms) and 9 (attrib), a short at 10 (nlink), the
    size at 12 and twelve block addresses from 16. *)
Definition load_addrs (d : list Z) : list Z := (fun k => load_le d (16 + 4 * k) 4) <$> seq 0 NDIRECT.
Fixpoint store_addrs (d : list Z) (k : nat) (l : list Z) : list Z :=
  match l with
  | [] => d
  | a :: l' => store_addrs (store_le d (16 + 4 * k) 4 a) (S k) l'
  end.

(** What [ilock] copies out of the disk inode. *)
Definition decode_dinode (d : list Z) (ip : inode) : inode :=
  {| i_dev := i_dev ip; i_inum := i_inum ip; i_ref := i_ref ip; i_flags := i_flags ip;
     mountroot := mountroot ip; mountparent := mountparent ip; mountpoint := mountpoint ip;
     i_type := s16 (load_le d 0 2); i_major := s16 (load_le d 2 2); i_minor := s16 (load_le d 4 2);
     i_owner := s16 (load_le d 6 2); i_perms := load_le d 8 1; i_attrib := i_attrib ip;
     i_nlink := s16 (load_le d 10 2); i_size := load_le d 12 4; i_addrs := load_addrs d |}.

(** What [iupdate1] writes over the disk inode. *)
Definition encode_dinode (d : list Z) (ip : inode) : list Z :=
  store_addrs
    (store_le (store_le (store_le (store_le (store_le (store_le (store_le d
      0 2 (i_type ip)) 2 2 (i_major ip)) 4 2 (i_minor ip)) 10 2 (i_nlink ip)) 6 2 (i_owner ip))
      8 1 (i_perms ip)) 12 4 (i_size ip)) 0 (i_addrs ip).

(** Where an inode and a block's bit are.  The sums are taken without wrap-around:
    they are block numbers of a disk of [FSSIZE] blocks. *)
Definition IBLOCK (i : Z) (sb : superblock) : Z := i / IPB + inodestart sb.
Definition BBLOCK (b : Z) (sb : superblock) : Z := b / BPB + bmapstart sb.
(** Byte offset of inode [inum] in its block. *)
Definition ioff (inum : Z) : nat := DINODE_SIZE * Z.to_nat (inum mod IPB).
Definition get_dinode (d : block) (inum : Z) : list Z := slice d (ioff inum) DINODE_SIZE.
Definition put_dinode (d : block) (inum : Z) (di : list Z) : block := splice d (ioff inum) di.

(** ** Blocks *)

Definition readsb (dev : Z) : prog kfs superblock :=
  bp ← bread dev 1; d ← bdata bp; brelse bp ;; mret (decode_sb d).

Definition bzero (dev bno : Z) : prog kfs unit :=
  bp ← bread dev bno; bset bp zero_block ;; log_write bp ;; brelse bp.

(** Bit [bi] of the bitmap block: [data[bi/8] & (1 << (bi%8))]. *)
Definition bit (d : block) (bi : nat) : bool :=
  has (default 0 (d !! (bi / 8)%nat)) (2 ^ Z.of_nat (bi mod 8)).
Definition mark (d : block) (bi : nat) : block :=
  alter (fun w => setf w (2 ^ Z.of_nat (bi mod 8))) (bi / 8)%nat d.
Definition unmark (d : block) (bi : nat) : block :=
  alter (fun w => clrf w (2 ^ Z.of_nat (bi mod 8))) (bi / 8)%nat d.
(** The inner loop: the first free bit, within the block and the disk. *)
Definition find_free (d : block) (b sz : Z) : option nat :=
  fst <$> scan (fun bi => negb (bit d bi)) (seq 0 (Z.to_nat (Z.min BPB (sz - b)))).

Fixpoint balloc_loop (dev : Z) (sb : superblock) (bs : list Z) : prog kfs Z :=
  match bs with
  | [] => mret 0
  | b :: bs' =>
    bp ← bread dev (BBLOCK b sb);
    d ← bdata bp;
    match find_free d b (sb_size sb) with
    | Some bi =>
      bset bp (mark d bi) ;;
      log_write bp ;;
      brelse bp ;;
      bzero dev (b + Z.of_nat bi) ;;
      mret (b + Z.of_nat bi)
    | None => brelse bp ;; balloc_loop dev sb bs'
    end
  end.

(** The values of [b] in [for(b = 0; b < sb->size; b += BPB)]. *)
Definition bitmap_bases (sz : Z) : list Z :=
  (fun k => Z.of_nat k * BPB) <$> seq 0 (Z.to_nat ((sz + BPB - 1) / BPB)).

(** Allocate a zeroed disk block; 0 when the disk is full. *)
Definition balloc (dev : Z) : prog kfs Z :=
  sb ← getsuperblock dev;
  balloc_loop dev sb (bitmap_bases (sb_size sb)).

Definition bfree (dev b : Z) : prog kfs unit :=
  sb ← getsuperblock dev;
  bp ← bread dev (BBLOCK b sb);
  d ← bdata bp;
  bset bp (unmark d (Z.to_nat (b mod BPB))) ;;
  log_write bp ;;
  brelse bp.

(** ** Inodes *)

(** The cached copy, or a recycled slot; a mount point leads to the root
    mounted on it. *)
Definition iget (dev inum : Z) : prog kfs nat :=
  ic ← kget icache;
  match scan (fun ip => (0 <? i_ref ip) && (i_dev ip =? dev) && (i_inum ip =? inum)) ic with
  | Some (i, ip) =>
    let j := if has (i_flags ip) I_MOUNTPOINT then mountroot ip else Some i in
    match j with
    | Some j => jp ← iat j; iset j (fun _ => set_ref (i_ref jp + 1) jp) ;; mret j
    | None => fail "nil mountroot"
    end
  | None =>
    match scan (fun ip => i_ref ip =? 0) ic with
    | Some (i, ip) =>
      iset i (fun _ =>
        {| i_dev := dev; i_inum := inum; i_ref := 1; i_flags := 0;
           mountroot := mountroot ip; mountparent := mountparent ip; mountpoint := mountpoint ip;
           i_type := i_type ip; i_major := i_major ip; i_minor := i_minor ip; i_owner := i_owner ip;
           i_perms := i_perms ip; i_attrib := i_attrib ip; i_nlink := i_nlink ip;
           i_size := i_size ip; i_addrs := i_addrs ip |}) ;;
      mret i
    | None => fail "iget: no inodes"
    end
  end.

Definition incref (i : nat) : prog kfs unit := iset i (fun ip => set_ref (i_ref ip + 1) ip).

Definition idup (oi : option nat) : prog kfs (option nat) :=
  match oi with Some i => _ ← iat i; incref i ;; mret (Some i) | None => mret None end.
Definition iref (oi : option nat) : prog kfs unit :=
  match oi with Some i => _ ← iat i; incref i | None => mret tt end.
Definition iunref (oi : option nat) : prog kfs unit :=
  match oi with
  | Some i => ip ← iat i; if i_ref ip <? 1 then mret tt else iset i (fun ip => set_ref (i_ref ip - 1) ip)
  | None => mret tt
  end.

Fixpoint ialloc_loop (dev : Z) (sb : superblock) (type : Z) (inums : list Z) : prog kfs (option nat) :=
  match inums with
  | [] => mret None
  | inum :: rest =>
    bp ← bread dev (IBLOCK inum sb);
    d ← bdata bp;
    let di := get_dinode d inum in
    if s16 (load_le di 0 2) =? 0 then
      bset bp (put_dinode d inum (store_le (replicate DINODE_SIZE 0) 0 2 type)) ;;
      log_write bp ;;
      brelse bp ;;
      i ← iget dev inum;
      mret (Some i)
    else brelse bp ;; ialloc_loop dev sb type rest
  end.
Definition ialloc (dev type : Z) : prog kfs (option nat) :=
  sb ← getsuperblock dev;
  ialloc_loop dev sb type (Z.of_nat <$> seq 1 (Z.to_nat (ninodes sb) - 1)).

(** Copy a modified in-memory inode to disk. *)
Definition iupdate1 (i : nat) (direct : bool) : prog kfs unit :=
  ip ← iat i;
  sb ← getsuperblock (i_dev ip);
  bp ← bread (i_dev ip) (IBLOCK (i_inum ip) sb);
  d ← bdata bp;
  bset bp (put_dinode d (i_inum ip) (encode_dinode (get_dinode d (i_inum ip)) ip)) ;;
  (if direct then bwrite bp else log_write bp) ;;
  brelse bp.
Definition iupdate (i : nat) : prog kfs unit := iupdate1 i false.
Definition iupdate_direct (i : nat) : prog kfs unit := iupdate1 i true.

(** Lock the inode; reads it from disk if necessary. *)
Definition ilock (oi : option nat) : prog kfs unit :=
  match oi with
  | None => mret tt
  | Some i =>
    ip ← iat i;
    if i_ref ip <? 1 then mret tt else
    if has (i_flags ip) I_BUSY then sleep else
    iset i (fun ip => set_flags (setf (i_flags ip) I_BUSY) ip) ;;
    if has (i_flags ip) I_VALID then mret tt else
    sb ← getsuperblock (i_dev ip);
    bp ← bread (i_dev ip) (IBLOCK (i_inum ip) sb);
    d ← bdata bp;
    iset i (decode_dinode (get_dinode d (i_inum ip))) ;;
    brelse bp ;;
    iset i (fun ip => set_flags (setf (i_flags ip) I_VALID) ip)
  end.

Definition iunlock (oi : option nat) : prog kfs unit :=
  match oi with
  | None => mret tt
  | Some i =>
    ip ← iat i;
    if i_ref ip <? 1 then mret tt else
    if negb (has (i_flags ip) I_BUSY) then mret tt else
    iset i (fun ip => set_flags (clrf (i_flags ip) I_BUSY) ip)
  end.

(** ** Block addresses *)

(** [offset2real]. *)
Definition offset2real (off : Z) : nat * nat := (Z.to_nat (off / NINDIRECT), Z.to_nat (off mod NINDIRECT)).
Definition addr_at (ip : inode) (k : nat) : Z := default 0 (i_addrs ip !! k).

(** The disk address of the [bn]th block of the inode, or -1.  On the failing
    paths after [bread] the buffer stays busy. *)
Definition bmap_g (i : nat) (bn : Z) (create : bool) : prog kfs Z :=
  if MAXFILE <=? bn then fail "newbmap: block out of range" else
  let '(bk, pt) := offset2real bn in
  ip ← iat i;
  go ← (if (addr_at ip bk =? 0) && create then
          nb ← balloc (i_dev ip);
          if nb =? 0 then mret false else iset i (set_addr bk nb) ;; mret true
        else mret create);
  if negb go then mret (-1) else
  ip ← iat i;
  bp ← bread (i_dev ip) (addr_at ip bk);
  d ← bdata bp;
  let w := load_le d (4 * pt) 4 in
  if (w =? 0) && create then
    nb ← balloc (i_dev ip);
    if nb =? 0 then mret (-1) else
    bset bp (store_le d (4 * pt) 4 nb) ;;
    log_write bp ;;
    brelse bp ;;
    mret (s32 nb)
  else if negb create then mret (-1)
  else brelse bp ;; mret (s32 w).
Definition bmap (i : nat) (bn : Z) : prog kfs Z := bmap_g i bn true.

Definition bfreeref (i : nat) (addr : Z) : prog kfs unit :=
  let '(bk, pt) := offset2real addr in
  ip ← iat i;
  match i_addrs ip !! bk with
  | None => fail "addrs index"
  | Some a =>
    if a =? 0 then mret tt else
    bp ← bread (i_dev ip) a;
    d ← bdata bp;
    bset bp (store_le d (4 * pt) 4 0) ;;
    log_write bp ;;
    brelse bp
  end.

Definition itrunc_one (i : nat) (k : nat) : prog kfs unit :=
  a ← bmap_g i (Z.of_nat k) false;
  let addr := u32 a in
  if addr =? 2 ^ 32 - 1 then mret tt else
  ip ← iat i;
  bfree (i_dev ip) addr ;;
  bfreeref i addr.

(** Truncate inode (discard contents). *)
Definition itrunc (i : nat) : prog kfs unit :=
  ip ← iat i;
  pfor (seq 0 (Z.to_nat (i_size ip / Z.of_nat BSIZE))) (itrunc_one i) ;;
  iset i (set_size 0) ;;
  iupdate i.

(** Drop a reference; the last one to an unlinked inode frees it. *)
Definition iput1 (oi : option nat) (direct : bool) : prog kfs unit :=
  match oi with
  | None => fail "nil inode"
  | Some i =>
    ip ← iat i;
    (if (i_ref ip =? 1) && has (i_flags ip) I_VALID && (i_nlink ip =? 0) then
       if has (i_flags ip) I_BUSY then fail "iput busy" else
       iset i (fun ip => set_flags (setf (i_flags ip) I_BUSY) ip) ;;
       itrunc i ;;
       iset i (set_type 0) ;;
       iupdate1 i direct ;;
       iset i (set_flags 0)
     else mret tt) ;;
    iset i (fun ip => set_ref (i_ref ip - 1) ip)
  end.
Definition iput (oi : option nat) : prog kfs unit := iput1 oi false.
Definition iput_direct (oi : option nat) : prog kfs unit := iput1 oi true.
Definition iunlockput (oi : option nat) : prog kfs unit := iunlock oi ;; iput oi.
Definition iunlockput_direct (oi : option nat) : prog kfs unit := iunlock oi ;; iput_direct oi.

(** ** Contents *)

(** [struct stat], as [stati] fills it in. *)
Record stat := Stat { st_type : Z; st_dev : Z; st_ino : Z; st_nlink : Z; st_size : Z; st_owner : Z; st_perms : Z }.
Definition stati (ip : inode) : stat :=
  {| st_type := i_type ip; st_dev := i_dev ip; st_ino := i_inum ip; st_nlink := i_nlink ip;
     st_size := i_size ip; st_owner := i_owner ip; st_perms := i_perms ip |}.

(** The iterations of [for(tot=0; tot<n; tot+=m, off+=m)] with
    [m = min(n - tot, BSIZE - off%BSIZE)]: the offset and length of each. *)
Fixpoint chunks (fuel : nat) (off n : Z) : list (Z * Z) :=
  match fuel with
  | O => []
  | S fuel' =>
    if n <=? 0 then [] else
    let m := Z.min n (Z.of_nat BSIZE - off mod Z.of_nat BSIZE) in
    (off, m) :: chunks fuel' (off + m) (n - m)
  end.
Definition chunk_fuel (n : Z) : nat := Z.to_nat (n / Z.of_nat BSIZE) + 2.

Section contents.
(** The device table [devsw]: the functions registered for a major number. *)
Context (devsw_read : Z -> option (nat -> Z -> Z -> prog kfs (Z * list Z))).
Context (devsw_write : Z -> option (nat -> list Z -> Z -> Z -> prog kfs Z)).

Definition dev_slot {A} (tbl : Z -> option A) (ip : inode) : option A :=
  if (i_major ip <? 0) || (NDEV <=? i_major ip) then None else tbl (i_major ip).

Fixpoint readi_loop (i : nat) (cs : list (Z * Z)) : prog kfs (list Z) :=
  match cs with
  | [] => mret []
  | (off, m) :: cs' =>
    addr ← bmap i (off / Z.of_nat BSIZE);
    ip ← iat i;
    bp ← bread (i_dev ip) (u32 addr);
    d ← bdata bp;
    brelse bp ;;
    rest ← readi_loop i cs';
    mret (slice d (Z.to_nat (off mod Z.of_nat BSIZE)) (Z.to_nat m) ++ rest)
  end.

(** The return value and the bytes stored at [dst]. *)
Definition readi (i : nat) (off n : Z) : prog kfs (Z * list Z) :=
  ip ← iat i;
  if i_type ip =? T_DEV then
    match dev_slot devsw_read ip with Some f => f i n off | None => mret (-1, []) end
  else
  if (i_size ip <? off) || (u32 (off + n) <? off) then mret (-1, []) else
  let n := if i_size ip <? u32 (off + n) then i_size ip - off else n in
  bs ← readi_loop i (chunks (chunk_fuel n) off n);
  mret (s32 n, bs).

(** Whether all chunks were written, and the offset reached. *)
Fixpoint writei_loop (i : nat) (src : list Z) (off : Z) (cs : list (Z * Z)) : prog kfs (bool * Z) :=
  match cs with
  | [] => mret (true, off)
  | (o, m) :: cs' =>
    bnum ← bmap i (o / Z.of_nat BSIZE);
    if bnum <? 0 then mret (false, off) else
    ip ← iat i;
    bp ← bread (i_dev ip) bnum;
    d ← bdata bp;
    bset bp (splice d (Z.to_nat (o mod Z.of_nat BSIZE)) (take (Z.to_nat m) src)) ;;
    log_write bp ;;
    brelse bp ;;
    writei_loop i (drop (Z.to_nat m) src) (o + m) cs'
  end.

Definition writei (i : nat) (src : list Z) (off n : Z) : prog kfs Z :=
  ip ← iat i;
  if i_type ip =? T_DEV then
    match dev_slot devsw_write ip with Some f => f i src n off | None => mret (-1) end
  else
  if (i_size ip <? off) || (u32 (off + n) <? off) then mret (-1) else
  if MAXFILE * Z.of_nat BSIZE <? u32 (off + n) then mret (-1) else
  '(full, off') ← writei_loop i src off (chunks (chunk_fuel n) off n);
  let r := if full : bool then n else -2 in
  ip ← iat i;
  (if ((0 <? n) || negb full) && (i_size ip <? off')
   then iset i (set_size off') ;; iupdate i
   else mret tt) ;;
  mret (s32 r).

(** ** Directories *)

Definition namecmp (s t : list Z) : option Z := Kernel.strncmp_loop s t DIRSIZ.
Definition dotdot : list Z := [46; 46; 0].
Definition de_inum (de : list Z) : Z := load_le de 0 2.
Definition de_name (de : list Z) : list Z := slice de 2 DIRSIZ.

(** The values of [off] in [for(off = 0; off < dp->size; off += sizeof(de))]. *)
Definition dir_offs (sz : Z) : list Z :=
  (fun k => Z.of_nat (DIRENT_SIZE * k)) <$> seq 0 (Z.to_nat ((sz + Z.of_nat DIRENT_SIZE - 1) / Z.of_nat DIRENT_SIZE)).

Definition read_dirent (dp : nat) (off : Z) : prog kfs (list Z) :=
  '(r, de) ← readi dp off (Z.of_nat DIRENT_SIZE);
  if r =? Z.of_nat DIRENT_SIZE then mret de else fail "dirlink read".

(** The entry of that name: the inode and the entry's offset. *)
Fixpoint dirlookup_loop (dp : nat) (name : list Z) (offs : list Z) : prog kfs (option (nat * Z)) :=
  match offs with
  | [] => mret None
  | off :: offs' =>
    de ← read_dirent dp off;
    if de_inum de =? 0 then dirlookup_loop dp name offs' else
    match namecmp name (de_name de), namecmp dotdot (de_name de) with
    | Some c, Some dd =>
      if c =? 0 then
        ip ← iat dp;
        if (dd =? 0) && has (i_flags ip) I_MOUNTROOT then
          match mountparent ip with
          | Some mp => mpi ← iat mp; j ← iget (i_dev mpi) (i_inum mpi); mret (Some (j, off))
          | None => fail "nil mountparent"
          end
        else j ← iget (i_dev ip) (de_inum de); mret (Some (j, off))
      else dirlookup_loop dp name offs'
    | _, _ => fail "name fault"
    end
  end.
Definition dirlookup (dp : nat) (name : list Z) : prog kfs (option (nat * Z)) :=
  ip ← iat dp;
  if negb (i_type ip =? T_DIR) then fail "dirlookup not DIR" else
  dirlookup_loop dp name (dir_offs (i_size ip)).

(** The offset of the first empty entry, or the end of the directory. *)
Fixpoint free_dirent (dp : nat) (last : Z) (offs : list Z) : prog kfs Z :=
  match offs with
  | [] => mret last
  | off :: offs' =>
    de ← read_dirent dp off;
    if de_inum de =? 0 then mret off else free_dirent dp (off + Z.of_nat DIRENT_SIZE) offs'
  end.

(** [strncpy(de.name, name, DIRSIZ); de.inum = inum]. *)
Definition make_dirent (name : list Z) (inum : Z) : list Z :=
  le_bytes 2 inum ++ take DIRSIZ (until0 name ++ replicate DIRSIZ 0).

Definition dirlink (dp : nat) (name : list Z) (inum : Z) : prog kfs Z :=
  r ← dirlookup dp name;
  match r with
  | Some (j, _) => iput (Some j) ;; mret (-1)
  | None =>
    ip ← iat dp;
    off ← free_dirent dp 0 (dir_offs (i_size ip));
    w ← writei dp (make_dirent name inum) off (Z.of_nat DIRENT_SIZE);
    if w =? Z.of_nat DIRENT_SIZE then mret 0 else fail "dirlink"
  end.

(** ** Mounts *)

Definition imount0 (mroot mpoint parent : nat) : prog kfs unit :=
  ilock (Some mroot) ;;
  (if bool_decide (parent = mroot) then mret tt else ilock (Some parent)) ;;
  (if bool_decide (mpoint = mroot) then mret tt else ilock (Some mpoint)) ;;
  iref (Some parent) ;; iref (Some mpoint) ;; iref (Some mroot) ;;
  iset mpoint (fun ip => set_flags (setf (i_flags ip) I_MOUNTPOINT) ip) ;;
  iset mroot (fun ip => set_flags (setf (i_flags ip) I_MOUNTROOT) ip) ;;
  iset mpoint (fun ip => set_mount (Some mroot) (mountparent ip) ip) ;;
  iset mroot (fun ip => set_mount (mountroot ip) (Some parent) ip) ;;
  iunlock (Some mroot) ;;
  (if bool_decide (parent = mroot) then mret tt else iunlock (Some parent)) ;;
  (if bool_decide (mpoint = mroot) then mret tt else iunlock (Some mpoint)).

Definition imount (mroot mpoint : nat) : prog kfs Z :=
  ip ← iat mpoint;
  if negb (i_type ip =? T_DIR) then mret (-1) else
  r ← dirlookup mpoint dotdot;
  match r with
  | None => mret (-1)
  | Some (parent, _) => imount0 mroot mpoint parent ;; mret 0
  end.

Definition iunmount (mroot : nat) : prog kfs unit :=
  ip ← iat mroot;
  let parent := mountparent ip in
  let mpoint := mountpoint ip in
  ilock (Some mroot) ;; ilock mpoint ;; ilock parent ;;
  iunref (Some mroot) ;; iunref mpoint ;; iunref parent ;;
  match mpoint with
  | None => fail "nil mountpoint"
  | Some mp =>
    iset mp (fun ip => set_flags (clrf (i_flags ip) I_MOUNTPOINT) ip) ;;
    iset mroot (fun ip => set_flags (clrf (i_flags ip) I_MOUNTROOT) ip) ;;
    iunlock (Some mroot) ;; iunlock mpoint ;; iunlock parent
  end.

(** ** Start-up *)

(** Only the check of [iinit] matters to the state: the first file system must
    be a system one. *)
Definition iinit (dev : Z) : prog kfs unit :=
  sb ← readsb dev;
  h ← kget havesysfs;
  if (system sb =? 0) && negb h then fail "given disk is not a system disk" else
  kmodify (fun x => {| disks := disks x; icache := icache x; rootdir := rootdir x; havesysfs := true |}).

Definition fsinit (dev : Z) : prog kfs unit :=
  sb ← readsb dev;
  kmodify (fun x => set_disks (diskmount0 (disks x) dev sb).1 x) ;;
  iinit dev ;;
  initlog dev ;;
  r ← iget dev ROOTINO;
  kmodify (fun x => {| disks := disks x; icache := icache x; rootdir := Some r; havesysfs := havesysfs x |}) ;;
  imount0 r r r ;;
  kmodify (fun x => set_disks (diskmount1 (disks x) dev (Some r)).1 x).
End contents.

(** ** Paths *)

Definition is_slash (c : Z) : bool := c =? 47.
Fixpoint skip_slashes (p : list Z) : list Z :=
  match p with c :: p' => if is_slash c then skip_slashes p' else p | [] => [] end.
Fixpoint take_elem (p : list Z) : list Z * list Z :=
  match p with
  | [] => ([], [])
  | c :: p' => if is_slash c then ([], p) else let '(e, r) := take_elem p' in (c :: e, r)
  end.

(** [path] is the string up to its NUL; [name] the caller's [DIRSIZ] bytes. *)
Definition skipelem (path name : list Z) : option (list Z * list Z) :=
  match skip_slashes path with
  | [] => None
  | p =>
    let '(s, rest) := take_elem p in
    let name' :=
      if (DIRSIZ <=? length s)%nat then splice name 0 (take DIRSIZ s)
      else splice name 0 (s ++ [0]) in
    Some (skip_slashes rest, name')
  end.

(** The results of the successive [skipelem] calls: each name, and whether the
    rest of the path is empty. *)
Fixpoint path_elems (fuel : nat) (path name : list Z) : list (list Z * bool) :=
  match fuel with
  | O => []
  | S fuel' =>
    match skipelem path name with
    | None => []
    | Some (rest, name') => (name', bool_decide (rest = [])) :: path_elems fuel' rest name'
    end
  end.

Section names.
Context (devsw_read : Z -> option (nat -> Z -> Z -> prog kfs (Z * list Z))).

Definition unlockput (direct : bool) (i : nat) : prog kfs unit :=
  if direct then iunlockput_direct (Some i) else iunlockput (Some i).

(** Returns the inode and the contents of the [name] buffer. *)
Fixpoint namex_loop (ip : nat) (parent direct : bool) (name : list Z) (es : list (list Z * bool)) :
    prog kfs (option nat * list Z) :=
  match es with
  | [] =>
    if parent
    then (if direct then iput_direct (Some ip) else iput (Some ip)) ;; mret (None, name)
    else mret (Some ip, name)
  | (nm, last) :: es' =>
    ilock (Some ip) ;;
    v ← iat ip;
    if negb (i_type v =? T_DIR) then unlockput direct ip ;; mret (None, nm) else
    if parent && last then iunlock (Some ip) ;; mret (Some ip, nm) else
    r ← dirlookup devsw_read ip nm;
    match r with
    | None => unlockput direct ip ;; mret (None, nm)
    | Some (next, _) => unlockput direct ip ;; namex_loop next parent direct nm es'
    end
  end.

(** The current process: its root and working directory. *)
Record where_ := Where { p_rootdir : option nat; p_cwd : option nat }.

Definition namex (proc : option where_) (path : list Z) (parent : bool) (name : list Z) (direct : bool) :
    prog kfs (option nat * list Z) :=
  root ← kget rootdir;
  let start :=
    match proc with
    | None => root
    | Some pr =>
      match path with
      | c :: _ => if is_slash c
                  then match p_rootdir pr with None => root | Some r => Some r end
                  else p_cwd pr
      | [] => p_cwd pr
      end
    end in
  o ← idup start;
  match o with
  | Some ip => namex_loop ip parent direct name (path_elems (S (length path)) path name)
  | None => match path_elems 1 path name with
            | [] => if parent then fail "nil inode" else mret (None, name)
            | _ => fail "nil inode"
            end
  end.

Definition name_buf : list Z := replicate DIRSIZ 0.
Definition namei (proc : option where_) (path : list Z) : prog kfs (option nat) :=
  r ← namex proc path false name_buf false; mret r.1.
Definition nameiparent (proc : option where_) (path name : list Z) : prog kfs (option nat * list Z) :=
  namex proc path true name false.
Definition namei_direct (proc : option where_) (path : list Z) : prog kfs (option nat) :=
  r ← namex proc path false name_buf true; mret r.1.
Definition nameiparent_direct (proc : option where_) (path name : list Z) : prog kfs (option nat * list Z) :=
  namex proc path true name true.
End names.
