(* ===== verification/FsFormat.v ===== *)
(** Facts about the file system's formats and pure computations ([fs.c],
    [fs.h]): disk inodes, the free bitmap, the block-sized pieces of a transfer
    and path elements. *)

From S2P Require Import Prelude Params Bio Disk Log CString Fs.

(** ** Disk inodes *)

Section dinode.
Local Open Scope nat_scope.
Implicit Types (d : list Z) (l : list Z).

Lemma length_store_addrs d k l :
  16 + 4 * (k + length l) <= length d -> length (store_addrs d k l) = length d.
Proof.
  revert d k. induction l as [|a l IH]; intros d k H; cbn [store_addrs length] in *; [done|].
  rewrite IH; rewrite length_store_le; lia.
Qed.

Lemma load_store_addrs_below d k l j n :
  16 + 4 * (k + length l) <= length d -> j + n <= 16 + 4 * k ->
  load_le (store_addrs d k l) j n = load_le d j n.
Proof.
  revert d k. induction l as [|a l IH]; intros d k H Hj; cbn [store_addrs length] in *; [done|].
  rewrite IH; [apply load_store_ne; lia|rewrite length_store_le; lia|lia].
Qed.

Lemma load_store_addrs d k l j a :
  16 + 4 * (k + length l) <= length d -> l !! j = Some a ->
  load_le (store_addrs d k l) (16 + 4 * (k + j)) 4 = u32 a.
Proof.
  revert d k j. induction l as [|c l IH]; intros d k j H Hj; cbn [store_addrs length] in *; [done|].
  destruct j as [|j]; simpl in Hj.
  - injection Hj as ->. rewrite Nat.add_0_r, load_store_addrs_below;
      [|rewrite length_store_le; lia|lia]. by rewrite load_store_eq by lia.
  - rewrite Nat.add_succ_r. apply (IH _ (S k)); [rewrite length_store_le; lia|done].
Qed.
End dinode.

(** The values a disk inode can represent. *)
Record storable (ip : inode) : Prop := {
  so_type : in_s16 (i_type ip); so_major : in_s16 (i_major ip); so_minor : in_s16 (i_minor ip);
  so_owner : in_s16 (i_owner ip); so_nlink : in_s16 (i_nlink ip);
  so_perms : is_byte (i_perms ip); so_size : in_u32 (i_size ip);
  so_addrs : Forall (fun a => in_u32 a) (i_addrs ip); so_len : length (i_addrs ip) = NDIRECT
}.

(** Sizes of updated arrays, and loads from them. *)
Ltac len := repeat rewrite length_store_le by len; lia.
Ltac ldst :=
  repeat first [rewrite load_store_addrs_below by len | rewrite load_store_ne by len
               | rewrite load_store_eq by len].

Lemma length_encode_dinode d ip :
  length d = DINODE_SIZE -> length (i_addrs ip) = NDIRECT -> length (encode_dinode d ip) = DINODE_SIZE.
Proof.
  intros Hd Ha. unfold encode_dinode, DINODE_SIZE, NDIRECT in *.
  rewrite length_store_addrs by (rewrite Ha; len). len.
Qed.

Lemma load_addrs_encode d ip : length d = DINODE_SIZE -> storable ip ->
  load_addrs (encode_dinode d ip) = i_addrs ip.
Proof.
  intros Hd S. pose proof (so_len ip S) as Hl. unfold DINODE_SIZE, NDIRECT in *.
  apply list_eq. intros j. unfold load_addrs. rewrite list_lookup_fmap.
  destruct (i_addrs ip !! j) as [a|] eqn:E.
  - pose proof (lookup_lt_Some _ _ _ E). rewrite lookup_seq_lt by (unfold NDIRECT; lia). cbn [fmap option_fmap option_map].
    f_equal. unfold encode_dinode. transitivity (u32 a); [|apply u32_small].
    + apply (load_store_addrs _ 0 (i_addrs ip) j a); [rewrite Hl; len|done].
    + by apply (Forall_lookup_1 _ _ _ _ (so_addrs ip S) E).
  - apply lookup_ge_None in E. rewrite lookup_seq_ge by (unfold NDIRECT; lia). done.
Qed.

Lemma decode_encode d ip jp : length d = DINODE_SIZE -> storable ip ->
  let r := decode_dinode (encode_dinode d ip) jp in
  i_type r = i_type ip /\ i_major r = i_major ip /\ i_minor r = i_minor ip /\
  i_owner r = i_owner ip /\ i_perms r = i_perms ip /\ i_nlink r = i_nlink ip /\
  i_size r = i_size ip /\ i_addrs r = i_addrs ip.
Proof.
  intros Hd S. pose proof (load_addrs_encode d ip Hd S) as Ha.
  destruct S as [H1 H2 H3 H4 H5 H6 H7 H8 H9]. unfold DINODE_SIZE, NDIRECT in *.
  cbv zeta. unfold decode_dinode. cbn [i_type i_major i_minor i_owner i_perms i_nlink i_size i_addrs].
  rewrite Ha. clear Ha. unfold encode_dinode.
  ldst. change (256 ^ Z.of_nat 2) with (2 ^ 16). change (256 ^ Z.of_nat 1) with 256.
  change (256 ^ Z.of_nat 4) with (2 ^ 32). unfold is_byte in *.
  rewrite !s16_mod by done. rewrite !Z.mod_small by lia. done.
Qed.

Lemma get_put_dinode blk inum di :
  length blk = BSIZE -> length di = DINODE_SIZE -> get_dinode (put_dinode blk inum di) inum = di.
Proof.
  intros Hb Hd. unfold get_dinode, put_dinode. rewrite <- Hd. apply slice_splice.
  unfold ioff, IPB, BSIZE, DINODE_SIZE in *. pose proof (Z.mod_pos_bound inum 8). lia.
Qed.

Lemma get_put_dinode_ne blk inum inum' di :
  length blk = BSIZE -> length di = DINODE_SIZE -> inum mod IPB <> inum' mod IPB ->
  get_dinode (put_dinode blk inum di) inum' = get_dinode blk inum'.
Proof.
  intros Hb Hd Hne. unfold get_dinode, put_dinode. apply slice_splice_disjoint;
    unfold ioff, IPB, BSIZE, DINODE_SIZE in *;
    pose proof (Z.mod_pos_bound inum 8); pose proof (Z.mod_pos_bound inum' 8); lia.
Qed.

(** Inodes survive the trip to disk.  What [iupdate] stores in an inode
    block is what [ilock] later loads, for every inode whose fields fit their
    types; the other seven inodes of the block are untouched. *)
Theorem dinode_roundtrip blk ip jp inum' :
  length blk = BSIZE -> storable ip -> i_inum ip mod IPB <> inum' mod IPB ->
  let blk' := put_dinode blk (i_inum ip) (encode_dinode (get_dinode blk (i_inum ip)) ip) in
  let r := decode_dinode (get_dinode blk' (i_inum ip)) jp in
  (i_type r = i_type ip /\ i_major r = i_major ip /\ i_minor r = i_minor ip /\
   i_owner r = i_owner ip /\ i_perms r = i_perms ip /\ i_nlink r = i_nlink ip /\
   i_size r = i_size ip /\ i_addrs r = i_addrs ip) /\
  get_dinode blk' inum' = get_dinode blk inum'.
Proof.
  intros Hb S Hne. assert (length (get_dinode blk (i_inum ip)) = DINODE_SIZE) as Hg.
  { apply length_slice. unfold ioff, IPB, BSIZE, DINODE_SIZE in *.
    pose proof (Z.mod_pos_bound (i_inum ip) 8). lia. }
  pose proof (length_encode_dinode _ ip Hg (so_len ip S)) as He.
  cbv zeta. rewrite get_put_dinode by done. split; [by apply decode_encode|].
  by apply get_put_dinode_ne.
Qed.
Definition sample_inode : inode :=
  {| i_dev := 0; i_inum := 17; i_ref := 1; i_flags := 3; mountroot := None; mountparent := None;
     mountpoint := None; i_type := T_FILE; i_major := 0; i_minor := -1; i_owner := 500; i_perms := 17;
     i_attrib := 0; i_nlink := 1; i_size := 70000; i_addrs := 99 :: replicate 11 0 |}.
Lemma dinode_roundtrip_witness :
  let blk' := put_dinode zero_block 17 (encode_dinode (get_dinode zero_block 17) sample_inode) in
  let r := decode_dinode (get_dinode blk' 17) inode_zero in
  (i_type r = T_FILE /\ i_major r = 0 /\ i_minor r = -1 /\
   i_owner r = 500 /\ i_perms r = 17 /\ i_nlink r = 1 /\
   i_size r = 70000 /\ i_addrs r = 99 :: replicate 11 0) /\
  get_dinode blk' 18 = get_dinode zero_block 18.
Proof.
  apply (dinode_roundtrip zero_block sample_inode inode_zero 18); [reflexivity| |discriminate].
  split; unfold is_byte; cbn; try lia.
  all: repeat first [done | lia | constructor].
Defined.

(** ** The bitmap *)

Lemma lookup_alter_byte (d : list Z) i j (f : Z -> Z) :
  (i < length d)%nat ->
  default 0 (alter f i d !! j) = if decide (i = j) then f (default 0 (d !! j)) else default 0 (d !! j).
Proof.
  intros Hi. destruct (decide (i = j)) as [<-|Hne].
  - rewrite list_lookup_alter_eq. destruct (lookup_lt_is_Some_2 d i Hi) as [v ->]. done.
  - by rewrite list_lookup_alter_ne.
Qed.

Lemma bit_index bi bj : (bi / 8 = bj / 8 -> bi mod 8 = bj mod 8 -> bi = bj)%nat.
Proof.
  intros H1 H2. rewrite (Nat.div_mod_eq bi 8), (Nat.div_mod_eq bj 8). lia.
Qed.

Lemma bit_mark d bi bj : (bi / 8 < length d)%nat ->
  bit (mark d bi) bj = bool_decide (bi = bj) || bit d bj.
Proof.
  intros Hi. unfold bit, mark. rewrite lookup_alter_byte by done.
  destruct (decide (bi / 8 = bj / 8)%nat) as [E|E].
  - rewrite has_setf by lia. case_bool_decide as Eb; [subst; by rewrite Z.eqb_refl|].
    rewrite (proj2 (Z.eqb_neq _ _)); [done|]. intros Em. apply Eb. apply bit_index; [done|lia].
  - rewrite bool_decide_false by congruence. done.
Qed.

Lemma bit_unmark d bi bj : (bi / 8 < length d)%nat ->
  bit (unmark d bi) bj = negb (bool_decide (bi = bj)) && bit d bj.
Proof.
  intros Hi. unfold bit, unmark. rewrite lookup_alter_byte by done.
  destruct (decide (bi / 8 = bj / 8)%nat) as [E|E].
  - rewrite has_clrf by lia. case_bool_decide as Eb; [subst; by rewrite Z.eqb_refl|].
    rewrite (proj2 (Z.eqb_neq _ _)); [done|]. intros Em. apply Eb. apply bit_index; [done|lia].
  - rewrite bool_decide_false by congruence. done.
Qed.

Lemma find_free_Some d b sz bi : find_free d b sz = Some bi ->
  (bi < Z.to_nat BPB)%nat /\ b + Z.of_nat bi < sz /\ bit d bi = false /\
  forall bj, (bj < bi)%nat -> bit d bj = true.
Proof.
  unfold find_free. destruct (scan _ _) as [[k v]|] eqn:E; [|done]. intros [= <-].
  apply scan_Some in E as (Hk & Hv & Hlow).
  apply lookup_seq in Hk as [-> Hk]. cbn [Nat.add fst] in *. apply negb_true_iff in Hv.
  unfold BPB in *. split; [lia|]. split; [lia|]. split; [done|].
  intros bj Hj. apply negb_false_iff, (Hlow bj bj); [|lia]. apply lookup_seq. lia.
Qed.

Lemma find_free_None d b sz : find_free d b sz = None ->
  forall bi, (bi < Z.to_nat BPB)%nat -> b + Z.of_nat bi < sz -> bit d bi = true.
Proof.
  unfold find_free. destruct (scan _ _) as [|] eqn:E; [done|]. intros _ bi H1 H2.
  rewrite scan_None in E. apply negb_false_iff, (E bi bi). apply lookup_seq. unfold BPB in *. lia.
Qed.

(** ** Pieces of a transfer *)

(** Consecutive non-empty pieces, each inside one block, that make up the range
    of [n] bytes from [off]. *)
Inductive tiles : Z -> Z -> list (Z * Z) -> Prop :=
| tiles_nil off : tiles off 0 []
| tiles_cons off n m cs :
    0 < m -> off mod Z.of_nat BSIZE + m <= Z.of_nat BSIZE ->
    tiles (off + m) (n - m) cs -> tiles off n ((off, m) :: cs).

Lemma chunks_tiles fuel off n : 0 <= off -> 0 <= n ->
  n = 0 \/ n + off mod Z.of_nat BSIZE <= Z.of_nat BSIZE * Z.of_nat fuel -> tiles off n (chunks fuel off n).
Proof.
  change (Z.of_nat BSIZE) with 512.
  revert off n. induction fuel as [|fuel IH]; intros off n Ho Hn Hf; cbn [chunks].
  { replace n with 0 by (pose proof (Z.mod_pos_bound off 512); lia). constructor. }
  destruct (Z.leb_spec n 0) as [|Hpos]; [replace n with 0 by lia; constructor|].
  pose proof (Z.mod_pos_bound off 512) as Hm. change (Z.of_nat BSIZE) with 512.
  set (m := Z.min n (512 - off mod 512)).
  constructor; change (Z.of_nat BSIZE) with 512; [unfold m; lia|unfold m; lia|].
  apply IH; [unfold m; lia..|].
  unfold m. destruct (Z.min_spec n (512 - off mod 512)) as [[_ ->]|[_ ->]].
  - left. lia.
  - right. assert ((off + (512 - off mod 512)) mod 512 = 0) as -> by dlia. lia.
Qed.

(** The transfer loops of [readi] and [writei] terminate and cover exactly
    the requested range: their iterations are non-empty pieces that follow each
    other without gap or overlap, and none crosses a block boundary. *)
Theorem transfer_tiles off n : 0 <= off -> 0 <= n -> tiles off n (chunks (chunk_fuel n) off n).
Proof.
  intros Ho Hn. apply chunks_tiles; [done..|]. unfold chunk_fuel. change (Z.of_nat BSIZE) with 512.
  right. pose proof (Z.mod_pos_bound off 512). dlia.
Qed.
Lemma transfer_tiles_witness : tiles 500 1040 [(500, 12); (512, 512); (1024, 512); (1536, 4)].
Proof. apply (transfer_tiles 500 1040); lia. Defined.

(** ** Path elements *)

Fixpoint split_on (p cur : list Z) : list (list Z) :=
  match p with
  | [] => [cur]
  | c :: p' => if is_slash c then cur :: split_on p' [] else split_on p' (cur ++ [c])
  end.
(** The elements of a path: what is between slashes, the empty ones left out. *)
Definition components (p : list Z) : list (list Z) := filter (fun s => s <> []) (split_on p []).

Lemma components_skip p : components (skip_slashes p) = components p.
Proof.
  induction p as [|c p IH]; [done|]. cbn [skip_slashes]. destruct (is_slash c) eqn:E; [|done].
  rewrite IH. unfold components. cbn [split_on]. by rewrite E, filter_cons_False by (intros H; by apply H).
Qed.

Lemma skip_slashes_head p c r : skip_slashes p = c :: r -> is_slash c = false.
Proof.
  induction p as [|b p IH]; cbn [skip_slashes]; [done|]. destruct (is_slash b) eqn:E; [done|].
  by intros [= <- _].
Qed.
Lemma skip_slashes_length p : (length (skip_slashes p) <= length p)%nat.
Proof. induction p as [|b p IH]; cbn [skip_slashes]; [done|]. destruct (is_slash b); cbn [length]; lia. Qed.

Lemma take_elem_spec p s rest : take_elem p = (s, rest) ->
  p = s ++ rest /\ Forall (fun c => is_slash c = false) s /\
  (rest = [] \/ exists c r, rest = c :: r /\ is_slash c = true).
Proof.
  revert s rest. induction p as [|c p IH]; intros s rest H; cbn [take_elem] in H.
  { injection H as <- <-. auto. }
  destruct (is_slash c) eqn:E.
  - injection H as <- <-. split; [done|]. split; [constructor|]. right. eauto.
  - destruct (take_elem p) as [e r] eqn:Et. injection H as <- <-.
    destruct (IH e r eq_refl) as (-> & Hs & Hr). split; [done|]. split; [by constructor|done].
Qed.

Lemma split_on_elem s rest cur : Forall (fun c => is_slash c = false) s ->
  split_on (s ++ rest) cur = split_on rest (cur ++ s).
Proof.
  intros H. revert cur. induction H as [|c s Hc _ IH]; intros cur; [by rewrite app_nil_r|].
  cbn [app split_on]. rewrite Hc, IH. by rewrite <- app_assoc.
Qed.

Lemma components_elem s rest : s <> [] -> Forall (fun c => is_slash c = false) s ->
  (rest = [] \/ exists c r, rest = c :: r /\ is_slash c = true) ->
  components (s ++ rest) = s :: components (skip_slashes rest).
Proof.
  intros Hs Hf Hr. rewrite components_skip. unfold components. rewrite split_on_elem by done. cbn [app].
  destruct Hr as [->|(c & r & -> & Hc)]; cbn [split_on].
  - rewrite filter_cons_True by done. by rewrite filter_cons_False by (intros H; by apply H).
  - rewrite Hc. rewrite filter_cons_True by done. by rewrite filter_cons_False by (intros H; by apply H).
Qed.

Lemma until0_name s name : length name = DIRSIZ -> Forall (fun c => c <> 0) s ->
  until0 (if (DIRSIZ <=? length s)%nat then splice name 0 (take DIRSIZ s) else splice name 0 (s ++ [0]))
  = take DIRSIZ s /\
  length (if (DIRSIZ <=? length s)%nat then splice name 0 (take DIRSIZ s) else splice name 0 (s ++ [0])) = DIRSIZ.
Proof.
  intros Hn Hs. destruct (Nat.leb_spec DIRSIZ (length s)) as [Hl|Hl].
  - split; [|rewrite length_splice; rewrite ?length_take; lia].
    unfold splice. rewrite length_take, drop_ge, app_nil_r by lia. cbn [take app].
    assert (forall l : list Z, Forall (fun c => c <> 0) l -> until0 l = l) as H0.
    { induction 1 as [|c l Hc _ IH]; [done|]. cbn [until0]. by rewrite (proj2 (Z.eqb_neq c 0) Hc), IH. }
    apply H0. by apply list.Forall_take.
  - split; [|rewrite length_splice; rewrite ?length_app; cbn; lia].
    rewrite take_ge by lia. unfold splice. change (take 0 name) with (@nil Z). cbn [app].
    rewrite <- app_assoc. by apply until0_app.
Qed.

Lemma path_elems_spec fuel path name :
  (length path < fuel)%nat -> length name = DIRSIZ -> Forall (fun c => c <> 0) path ->
  (fun e => until0 e.1) <$> path_elems fuel path name = take DIRSIZ <$> components path /\
  forall i e, path_elems fuel path name !! i = Some e ->
    e.2 = bool_decide (S i = length (components path)).
Proof.
  revert path name. induction fuel as [|fuel IH]; intros path name Hf Hn Hz; [lia|].
  cbn [path_elems]. unfold skipelem. rewrite <- (components_skip path).
  destruct (skip_slashes path) as [|c p] eqn:E; [done|].
  destruct (take_elem (c :: p)) as [s rest] eqn:Et.
  pose proof (skip_slashes_head _ _ _ E) as Hc. pose proof (skip_slashes_length path) as Hlen.
  assert (s <> []) as Hs.
  { intros ->. cbn [take_elem] in Et. rewrite Hc in Et. by destruct (take_elem p). }
  destruct (take_elem_spec _ _ _ Et) as (Ep & Hsl & Hr).
  assert (Forall (fun c : Z => c <> 0) (s ++ rest)) as Hz'.
  { rewrite <- Ep, <- E. clear -Hz. induction Hz as [|b l Hb H IH]; [done|]. cbn [skip_slashes].
    destruct (is_slash b); [done|by constructor]. }
  apply Forall_app in Hz' as [Hzs Hzr].
  rewrite Ep, components_elem by done.
  destruct (until0_name s name Hn Hzs) as [Hu Hl].
  set (name' := if (DIRSIZ <=? length s)%nat then splice name 0 (take DIRSIZ s) else splice name 0 (s ++ [0])) in *.
  assert (length rest < length path)%nat as Hlr.
  { rewrite E, Ep, length_app in Hlen. destruct s; [done|]. cbn [length] in Hlen. lia. }
  pose proof (skip_slashes_length rest) as Hlr'.
  assert (Forall (fun c : Z => c <> 0) (skip_slashes rest)) as Hzr'.
  { clear -Hzr. induction Hzr as [|b l Hb H IH]; [done|]. cbn [skip_slashes].
    destruct (is_slash b); [done|by constructor]. }
  destruct (IH (skip_slashes rest) name') as [H1 H2]; [lia|done|done|].
  split; [cbn [fmap list_fmap fst]; by rewrite Hu, H1|].
  intros [|i] e; cbn [lookup list_lookup].
  - intros [= <-]. cbn [snd length]. apply bool_decide_ext. split.
    + intros Hnil. by rewrite Hnil.
    + intros [= Hlc]. destruct (skip_slashes rest) as [|b r] eqn:Er; [done|].
      exfalso. pose proof (skip_slashes_head _ _ _ Er) as Hb.
      destruct (take_elem (b :: r)) as [s2 r2] eqn:Et2.
      destruct (take_elem_spec _ _ _ Et2) as (Ep2 & Hsl2 & Hr2).
      assert (s2 <> []) as Hs2 by (intros ->; cbn [take_elem] in Et2; rewrite Hb in Et2; by destruct (take_elem r)).
      rewrite Ep2, components_elem in Hlc by done. done.
  - intros He. rewrite (H2 i e He). cbn [length]. apply bool_decide_ext. lia.
Qed.

(** The successive [skipelem] calls of a path walk yield exactly the path's
    non-empty components, each cut to [DIRSIZ] bytes, and flag as last exactly
    the last one; so [skipelem] agrees with splitting at slashes. *)
Theorem skipelem_walks path name :
  length name = DIRSIZ -> Forall (fun c => c <> 0) path ->
  let es := path_elems (S (length path)) path name in
  (fun e => until0 e.1) <$> es = take DIRSIZ <$> components path /\
  forall i e, es !! i = Some e -> e.2 = bool_decide (S i = length (components path)).
Proof. intros Hn Hz. apply path_elems_spec; [lia|done|done]. Qed.
(** "/usr//bin/a". *)
Definition sample_path : list Z := [47; 117; 115; 114; 47; 47; 98; 105; 110; 47; 97].
Lemma skipelem_walks_witness :
  let es := path_elems 12 sample_path (replicate 14 0) in
  (fun e => until0 e.1) <$> es = take DIRSIZ <$> [[117; 115; 114]; [98; 105; 110]; [97]] /\
  forall i e, es !! i = Some e -> e.2 = bool_decide (S i = 3%nat).
Proof.
  apply (skipelem_walks sample_path (replicate 14 0)); [reflexivity|].
  unfold sample_path. repeat first [done | constructor].
Defined.
