(* ===== verification/FsOps.v ===== *)
(** What the file system's routines do ([fs.c]): the block allocator, inode
    updates and truncation, the inode cache and its reference counts.

    Runs are on the cache's specification, from states in which no buffer is
    held and inside a transaction with room in the log. *)

From S2P Require Import Prelude Params Bio Disk Log CString Fs FsFormat.
Import BlockIO.

(** ** Blocks inside a transaction *)

Section blocks.
Import Spec BlockIO.
Context (present : Z -> bool).
Implicit Types (a : astate) (h : key) (x : kfs) (l : log).

(** Nobody holds a buffer but those in [H]: what else is pinned is dirty and
    released. *)
Definition quiet (H : list key) a : Prop := forall h v, pin a !! h = Some v -> (h ∉ H) -> p_dirty v = true /\ p_busy v = false.

Definition is_dirty a h : bool := match pin a !! h with Some _ => true | None => false end.
(** The block [h] held by the running routine. *)
Definition hold h a : astate :=
  set_pin h {| p_dirty := is_dirty a h; p_busy := true; p_data := view a h |} a.
(** The block [h] logged with new contents. *)
Definition dirty h (d : block) a : astate :=
  set_pin h {| p_dirty := true; p_busy := false; p_data := d |} a.

Lemma view_dirty h d a k : view (dirty h d a) k = if decide (k = h) then d else view a k.
Proof.
  unfold view, dirty, set_pin, on_media. cbn [pin amedia]. destruct (decide (k = h)) as [->|].
  - by rewrite lookup_insert_eq.
  - by rewrite lookup_insert_ne.
Qed.
Lemma view_hold h a k : view (hold h a) k = view a k.
Proof.
  unfold view, hold, set_pin, on_media. cbn [pin amedia]. destruct (decide (k = h)) as [->|].
  - by rewrite lookup_insert_eq.
  - by rewrite lookup_insert_ne.
Qed.
Lemma quiet_dirty H h d a : quiet H a -> quiet H (dirty h d a).
Proof.
  intros Hq k v. unfold dirty, set_pin. cbn [pin].
  intros [[<- <-]|[_ E]]%lookup_insert_Some; [done|by apply (Hq k)].
Qed.
Lemma quiet_hold H h a : quiet H a -> quiet (h :: H) (hold h a).
Proof.
  intros Hq k v. unfold hold, set_pin. cbn [pin]. intros E Hn. apply not_elem_of_cons in Hn as [Hne Hn].
  rewrite lookup_insert_ne in E by done. by apply (Hq k).
Qed.
Lemma size_dirty h d a : (size (pin (dirty h d a)) <= S (size (pin a)))%nat.
Proof.
  unfold dirty, set_pin. cbn [pin]. rewrite map_size_insert. destruct (pin a !! h); simpl; lia.
Qed.
(** A held block and another one that is logged do not interfere. *)
Lemma dirty_hold h h' d a : h <> h' -> dirty h' d (hold h a) = hold h (dirty h' d a).
Proof.
  intros Hne. unfold dirty, hold, set_pin, is_dirty, view, on_media. cbn [pin amedia abudget].
  rewrite lookup_insert_ne by done. by rewrite insert_insert_ne.
Qed.

Lemma run_bread {A} H d bn (f : key -> prog kfs A) x a :
  quiet H a -> ((d, bn) ∉ H) -> (size (pin a) < NBUF)%nat -> present d = true -> bn < FSSIZE ->
  Spec.run present (bread d bn ≫= f) x a = Spec.run present (f (d, bn)) x (hold (d, bn) a).
Proof.
  intros Hq Hn Hs Hd Hr. cbn [BlockIO.bread mbind prog_bind Spec.run].
  unfold Spec.bread, hold, is_dirty, view. destruct (pin a !! (d, bn)) as [v|] eqn:E.
  - destruct (Hq _ _ E Hn) as [-> ->]. cbn [lift_res]. done.
  - rewrite (proj2 (Nat.ltb_lt _ _) Hs). cbn [fst snd]. rewrite Hd. cbn [negb].
    rewrite (proj2 (Z.leb_gt FSSIZE bn)) by lia. done.
Qed.

Lemma run_bdata {A} h (f : block -> prog kfs A) x a :
  Spec.run present (bdata h ≫= f) x (hold h a) = Spec.run present (f (view a h)) x (hold h a).
Proof.
  cbn [BlockIO.bdata mbind prog_bind Spec.run]. unfold Spec.bdata, with_busy, hold, set_pin. cbn [pin].
  by rewrite lookup_insert_eq.
Qed.

Lemma run_brelse {A} H h (k : prog kfs A) x a : quiet H a -> (h ∉ H) ->
  Spec.run present (brelse h ;; k) x (hold h a) = Spec.run present k x a.
Proof.
  intros Hq Hn. cbn [BlockIO.brelse mbind prog_bind Spec.run].
  unfold Spec.brelse, with_busy, hold, set_pin, is_dirty, view, on_media. cbn [pin amedia abudget].
  rewrite lookup_insert_eq. cbn [p_busy p_dirty p_data].
  destruct (pin a !! h) as [v|] eqn:E.
  - cbn [lift_res]. destruct (Hq h v E Hn) as [Hd Hb]. rewrite insert_insert_eq.
    rewrite insert_id by (rewrite E; destruct v; cbn in *; congruence). by destruct a.
  - rewrite bool_decide_true by done. cbn [lift_res]. rewrite delete_insert_id by done. by destruct a.
Qed.

(** The blocks of the log. *)
Definition log_keys (dev : Z) l : gset key := list_to_set ((fun b => (dev, b)) <$> entries l).
(** A transaction on [dev], with the buffers [H] held, that can still log the
    blocks of the set [R] and [k] more.  A recorded block takes no new slot, but
    [log_write] wants a free one all the same. *)
Record txg (H : list key) (R : gset key) x a (dev : Z) l (k : nat) : Prop := {
  tx_log : getlog_of (disks x) dev = Some l;
  tx_size : lh_n l + Z.of_nat (size (R ∖ log_keys dev l) + k) < l_size l;
  tx_len : length (lh_block l) = Z.to_nat LOGSIZE;
  tx_n : 0 <= lh_n l;
  tx_room : lh_n l + Z.of_nat (size (R ∖ log_keys dev l) + k) <= LOGSIZE;
  tx_out : 1 <= outstanding l;
  tx_quiet : quiet H a;
  tx_bufs : (size (pin a) + size (R ∖ dom (pin a)) + k < NBUF)%nat;
  tx_present : present dev = true
}.

Lemma tx_le H R x a dev l k k' : txg H R x a dev l k -> (k' <= k)%nat -> txg H R x a dev l k'.
Proof. intros [? ? ? ? ? ? ? ? ?] Hk. split; try done; lia. Qed.

Lemma tx_sub H R R' x a dev l k : txg H R x a dev l k -> R' ⊆ R -> txg H R' x a dev l k.
Proof.
  intros [? ? ? ? ? ? ? ? ?] Hs.
  assert (size (R' ∖ log_keys dev l) <= size (R ∖ log_keys dev l))%nat by (apply subseteq_size; set_solver).
  assert (size (R' ∖ dom (pin a)) <= size (R ∖ dom (pin a)))%nat by (apply subseteq_size; set_solver).
  split; try done; lia.
Qed.

(** One of the [k] becomes a particular block. *)
Lemma size_add_difference (h : key) (R X : gset key) : (size (({[h]} ∪ R) ∖ X) <= S (size (R ∖ X)))%nat.
Proof.
  transitivity (size ({[h]} ∪ R ∖ X)); [apply subseteq_size; set_solver|]. rewrite size_union_alt, size_singleton.
  pose proof (subseteq_size ((R ∖ X) ∖ {[h]}) (R ∖ X) ltac:(set_solver)). lia.
Qed.
Lemma tx_reserve H R x a dev l k h : txg H R x a dev l (S k) -> txg H ({[h]} ∪ R) x a dev l k.
Proof.
  intros [? ? ? ? ? ? ? ? ?].
  pose proof (size_add_difference h R (log_keys dev l)). pose proof (size_add_difference h R (dom (pin a))).
  split; try done; lia.
Qed.

Lemma logged_keys l dev bn k : length (lh_block l) = Z.to_nat LOGSIZE -> 0 <= lh_n l -> lh_n l + Z.of_nat (S k) <= LOGSIZE ->
  lh_n (logged l bn) = lh_n l + (if decide ((dev, bn) ∈ log_keys dev l) then 0 else 1) /\
  log_keys dev (logged l bn) = {[(dev, bn)]} ∪ log_keys dev l.
Proof.
  intros H1 H2 H3. assert (full_bound l) as Hf by (unfold full_bound; rewrite H1; lia).
  assert ((dev, bn) ∈ log_keys dev l <-> bn ∈ entries l) as E.
  { unfold log_keys. rewrite elem_of_list_to_set, list_elem_of_fmap. split; [by intros (? & [= ->] & ?)|eauto]. }
  case_decide as Hd; rewrite E in Hd.
  - destruct (logged_old l bn Hf Hd) as [-> E2]. split; [lia|]. unfold log_keys. rewrite E2.
    apply E in Hd. fold (log_keys dev l). set_solver.
  - destruct (logged_new l bn Hf Hd) as [-> E2]. split; [lia|]. unfold log_keys. rewrite E2, fmap_app, list_to_set_app_L. set_solver.
Qed.
Lemma size_remove (h : key) (R X : gset key) :
  (size (R ∖ ({[h]} ∪ X)) = size (R ∖ X) - (if decide (h ∈ R) then if decide (h ∈ X) then 0 else 1 else 0))%nat.
Proof.
  destruct (decide (h ∈ X)) as [Hx|Hx]; [|destruct (decide (h ∈ R)) as [Hr|Hr]].
  - assert (R ∖ ({[h]} ∪ X) = R ∖ X) as -> by set_solver. case_decide; lia.
  - assert (R ∖ ({[h]} ∪ X) = (R ∖ X) ∖ {[h]}) as -> by set_solver. rewrite size_difference, size_singleton by set_solver. lia.
  - assert (R ∖ ({[h]} ∪ X) = R ∖ X) as -> by set_solver. lia.
Qed.
Lemma size_some (h : key) (R X : gset key) : h ∈ R -> (h ∉ X) -> (1 <= size (R ∖ X))%nat.
Proof. intros. rewrite <- (size_singleton (C := gset key) h). apply subseteq_size. set_solver. Qed.

(** Logging a block takes one of the [k], unless it is reserved. *)
Lemma tx_logged H R x a dev l k bn d : txg H R x a dev l (S k) ->
  txg H R (with_log dev (logged l bn) x) (dirty (dev, bn) d a) dev (logged l bn) (if decide ((dev, bn) ∈ R) then S k else k).
Proof.
  intros [H1 H2 H3 H4 H5 H6 H7 H8 H9].
  destruct (logged_keys l dev bn k H3 H4 ltac:(lia)) as [En Ek].
  destruct (logged_rest l bn) as (E1 & E2 & E3 & E4).
  assert (dom (pin (dirty (dev, bn) d a)) = {[(dev, bn)]} ∪ dom (pin a)) as Ed by (cbn; by rewrite dom_insert_L).
  assert (size (pin (dirty (dev, bn) d a)) = size (pin a) + if decide ((dev, bn) ∈ (dom (pin a) : gset key)) then 0 else 1)%nat as Es.
  { unfold dirty, set_pin. cbn [pin]. rewrite map_size_insert. destruct (pin a !! (dev, bn)) eqn:E; cbn.
    - rewrite decide_True by (apply elem_of_dom; eauto). lia.
    - rewrite decide_False by (rewrite elem_of_dom, E; by intros [? ?]). lia. }
  pose proof (size_some (dev, bn) R (log_keys dev l)) as Hl. pose proof (size_some (dev, bn) R (dom (pin a))) as Hp.
  split; rewrite ?E1, ?E2, ?E3, ?E4, ?Ek, ?Ed, ?En, ?Es, ?size_remove; try done; try (by eapply with_log_get); try (by apply quiet_dirty).
  all: clear En Ek Ed Es; destruct (decide ((dev, bn) ∈ R)) as [Hr|]; try specialize (Hl Hr); try specialize (Hp Hr).
  all: destruct (decide ((dev, bn) ∈ log_keys dev l)); try lia; destruct (decide ((dev, bn) ∈ dom (pin a))); try lia.
  all: by (specialize (Hl ltac:(done)); lia) || (specialize (Hp ltac:(done)); lia).
Qed.
Lemma tx_step H R x a dev l k bn d : txg H R x a dev l (S k) ->
  txg H R (with_log dev (logged l bn) x) (dirty (dev, bn) d a) dev (logged l bn) k.
Proof. intros T. eapply tx_le; [by apply tx_logged|]. case_decide; lia. Qed.

(** The last slot goes to a block that stays reserved. *)
Lemma tx_spend H R x a dev l bn d : txg H R x a dev l 1 ->
  txg H ({[(dev, bn)]} ∪ R) (with_log dev (logged l bn) x) (dirty (dev, bn) d a) dev (logged l bn) 0.
Proof.
  intros T. destruct (tx_step _ _ _ _ _ _ _ bn d T) as [H1 H2 H3 H4 H5 H6 H7 H8 H9].
  destruct (logged_keys l dev bn 0 (tx_len _ _ _ _ _ _ _ T) (tx_n _ _ _ _ _ _ _ T)) as [_ Ek].
  { pose proof (tx_room _ _ _ _ _ _ _ T). lia. }
  assert (({[(dev, bn)]} ∪ R) ∖ log_keys dev (logged l bn) = R ∖ log_keys dev (logged l bn)) as E1 by (rewrite Ek; clear; set_solver).
  assert (({[(dev, bn)]} ∪ R) ∖ dom (pin (dirty (dev, bn) d a)) = R ∖ dom (pin (dirty (dev, bn) d a))) as E2.
  { cbn [dirty set_pin pin]. rewrite dom_insert_L. clear; set_solver. }
  by split; rewrite ?E1, ?E2.
Qed.

Lemma run_update {A} H R dev bn d (k : prog kfs A) x a l n : txg H R x a dev l (S n) ->
  Spec.run present (bset (dev, bn) d ;; log_write (dev, bn) ;; brelse (dev, bn) ;; k) x (hold (dev, bn) a) =
  Spec.run present k (with_log dev (logged l bn) x) (dirty (dev, bn) d a).
Proof.
  intros T. set (h := (dev, bn)). rewrite Spec.run_bind.
  cbn [BlockIO.bset Spec.run]. unfold Spec.bset, with_busy, hold, set_pin. cbn [pin].
  rewrite lookup_insert_eq. cbn [p_busy p_dirty lift_res amedia abudget].
  rewrite insert_insert_eq, Spec.run_bind.
  pose proof (tx_size _ _ _ _ _ _ _ T). pose proof (tx_n _ _ _ _ _ _ _ T). pose proof (tx_room _ _ _ _ _ _ _ T).
  rewrite (log_write_ok present l x _ h {| p_dirty := is_dirty a h; p_busy := true; p_data := d |});
    [| apply T | cbn [pin]; by rewrite lookup_insert_eq | done | lia | lia | lia | apply T].
  cbn [fst snd h]. fold h. rewrite Spec.run_bind. cbn [BlockIO.brelse Spec.run].
  unfold Spec.brelse, with_busy, set_pin. cbn [pin p_data].
  rewrite lookup_insert_eq. cbn [p_busy p_dirty lift_res p_data amedia abudget].
  rewrite !insert_insert_eq. done.
Qed.

Lemma getsuperblock_with_log dev dev' l x :
  getsuperblock_of (disks (with_log dev l x)) dev' = getsuperblock_of (disks x) dev'.
Proof.
  unfold getsuperblock_of, diskmounted, disk_at, with_log, upd_disk. cbn [disks set_disks].
  destruct (decide (Z.to_nat dev = Z.to_nat dev')) as [E|E].
  - rewrite E, list_lookup_alter_eq. by destruct (disks x !! Z.to_nat dev').
  - by rewrite list_lookup_alter_ne.
Qed.
Lemma icache_with_log dev l x : icache (with_log dev l x) = icache x.
Proof. done. Qed.

Lemma run_getsuperblock {A} dev sb (f : superblock -> prog kfs A) x a :
  getsuperblock_of (disks x) dev = Some sb ->
  Spec.run present (getsuperblock dev ≫= f) x a = Spec.run present (f sb) x a.
Proof.
  intros H. unfold getsuperblock, kget. cbn [Spec.run mbind prog_bind mret prog_ret]. by rewrite H.
Qed.
End blocks.
(** A transaction with no buffer held and room for [k] blocks. *)
Abbreviation tx present := (txg present [] ∅).

(** ** The block allocator *)

Section balloc.
Import Spec BlockIO.
Context (present : Z -> bool).
Implicit Types (a : astate) (h : key) (x : kfs) (l : log).

(** The bitmap, as readers of the cache see it. *)
Definition in_use a (dev : Z) (sb : superblock) (b : Z) : bool :=
  bit (view a (dev, BBLOCK b sb)) (Z.to_nat (b mod BPB)).

Lemma bzero_ok H R dev bno x a l n : txg present H R x a dev l (S n) -> ((dev, bno) ∉ H) -> bno < FSSIZE ->
  Spec.run present (bzero dev bno) x a =
  Ok tt (with_log dev (logged l bno) x, dirty (dev, bno) zero_block a).
Proof.
  intros T Hn Hb. unfold bzero. rewrite (run_bread _ H); [|apply T|done|pose proof (tx_bufs _ _ _ _ _ _ _ _ T); lia|apply T|done].
  transitivity (Spec.run present (bset (dev, bno) zero_block ;; log_write (dev, bno) ;; brelse (dev, bno) ;; Ret tt)
    x (hold (dev, bno) a)).
  - rewrite !Spec.run_bind. done.
  - by erewrite run_update.
Qed.

(** The state after block [r] is allocated. *)
Definition allocated a (dev : Z) (sb : superblock) (r : Z) : astate :=
  let bm := (dev, BBLOCK r sb) in
  dirty (dev, r) zero_block (dirty bm (mark (view a bm) (Z.to_nat (r mod BPB))) a).

(** What a routine that only logs blocks leaves alone. *)
Definition same_mem x x' (dev : Z) : Prop :=
  icache x' = icache x /\ rootdir x' = rootdir x /\
  getsuperblock_of (disks x') dev = getsuperblock_of (disks x) dev.

Lemma same_mem_log x dev l : same_mem x (with_log dev l x) dev.
Proof. split; [done|]. split; [done|]. apply getsuperblock_with_log. Qed.
Lemma same_mem_trans x y z dev : same_mem x y dev -> same_mem y z dev -> same_mem x z dev.
Proof. intros (E1 & E2 & E3) (F1 & F2 & F3). split; [congruence|split; congruence]. Qed.

(** Everything the scan of the bitmap blocks [bs] passes before [r] is in use. *)
Definition first_in a (dev : Z) (sb : superblock) (bs : list Z) (r : Z) : Prop :=
  exists pre c post, bs = pre ++ c :: post /\ c <= r < c + BPB /\
    (forall b bi, b ∈ pre -> (bi < Z.to_nat BPB)%nat -> b + Z.of_nat bi < sb_size sb -> in_use a dev sb (b + Z.of_nat bi) = true) /\
    (forall b, c <= b < r -> in_use a dev sb b = true).

Lemma balloc_loop_ok H R dev sb bs x a l n :
  txg present H R x a dev l (S n) -> sb_size sb <= FSSIZE ->
  (forall b, (dev, b) ∈ H -> in_use a dev sb b = true) ->
  (forall b, b ∈ bs -> (exists q, b = q * BPB /\ 0 <= q) /\ BBLOCK b sb < FSSIZE /\ ((dev, BBLOCK b sb) ∉ H)) ->
  (forall b d, b ∈ bs -> txg present H R (with_log dev (logged l (BBLOCK b sb)) x) (dirty (dev, BBLOCK b sb) d a) dev (logged l (BBLOCK b sb)) (S n)) ->
  exists r x' a', Spec.run present (balloc_loop dev sb bs) x a = Ok r (x', a') /\ same_mem x x' dev /\
  ((r = 0 /\ x' = x /\ a' = a /\ (forall b bi, b ∈ bs -> (bi < Z.to_nat BPB)%nat ->
       b + Z.of_nat bi < sb_size sb -> in_use a dev sb (b + Z.of_nat bi) = true)) \/
   (0 <= r < sb_size sb /\ in_use a dev sb r = false /\ a' = allocated a dev sb r /\
    txg present H ({[(dev, r)]} ∪ R) x' a' dev (logged (logged l (BBLOCK r sb)) r) n /\ first_in a dev sb bs r)).
Proof.
  intros T Hsz HH. induction bs as [|b bs IH]; intros Hbs Hlog; cbn [balloc_loop].
  { exists 0, x, a. split; [done|]. split; [done|]. left. do 3 (split; [done|]).
    intros b bi Hb. by apply not_elem_of_nil in Hb. }
  destruct (Hbs b) as ((q & -> & Hq) & Hr & Hn); [by left|].
  assert (forall bi, (bi < Z.to_nat BPB)%nat ->
    BBLOCK (q * BPB + Z.of_nat bi) sb = BBLOCK (q * BPB) sb /\
    Z.to_nat ((q * BPB + Z.of_nat bi) mod BPB) = bi) as Hbi.
  { intros bi Hbi. unfold BBLOCK, BPB in *. dlia. }
  rewrite (run_bread _ H); [|apply T|done|pose proof (tx_bufs _ _ _ _ _ _ _ _ T); lia|apply T|done].
  rewrite run_bdata. destruct (find_free _ _ _) as [bi|] eqn:E.
  - apply find_free_Some in E as (H1 & H2 & H3 & Hlow). destruct (Hbi bi H1) as [Eb Em].
    rewrite (run_update present H R dev _ _ _ x a l n T). rewrite Spec.run_bind.
    pose proof (Hlog (q * BPB) (mark (view a (dev, BBLOCK (q * BPB) sb)) bi) ltac:(by left)) as T1.
    assert (in_use a dev sb (q * BPB + Z.of_nat bi) = false) as Hu by (unfold in_use; by rewrite Eb, Em).
    erewrite bzero_ok; [|exact T1| |lia]; [|intros Hin%HH; congruence]. cbn [Spec.run mret prog_ret].
    eexists _, _, _. split; [done|]. split; [eapply same_mem_trans; apply same_mem_log|].
    right. split; [unfold BPB in *; lia|]. split; [done|]. unfold allocated. rewrite Eb, Em. split; [done|].
    split.
    { eapply (tx_sub _ _ ({[(dev, q * BPB + Z.of_nat bi)]} ∪ R)); [|done]. destruct n as [|n].
      + eapply tx_spend, T1.
      + eapply tx_le; [apply tx_logged, tx_reserve, T1|]. rewrite decide_True by (apply elem_of_union_l, elem_of_singleton; reflexivity). done. }
    exists [], (q * BPB), bs. split; [done|]. split; [unfold BPB in *; lia|]. split; [intros b' bj Hb'; by apply not_elem_of_nil in Hb'|].
    intros b' Hb'. destruct (Hbi (Z.to_nat (b' - q * BPB))) as [Eb' Em']; [lia|]. unfold in_use.
    replace (q * BPB + Z.of_nat (Z.to_nat (b' - q * BPB))) with b' in Eb', Em' by lia. rewrite Eb', Em'. apply Hlow. lia.
  - rewrite (run_brelse _ H) by (first [apply T|done]).
    destruct IH as (r & x' & a' & Hrun & Hs & Hcase); [intros b' Hb'; apply Hbs; by right|intros b' d Hb'; apply Hlog; by right|].
    exists r, x', a'. split; [done|]. split; [done|].
    assert (forall bi, (bi < Z.to_nat BPB)%nat -> q * BPB + Z.of_nat bi < sb_size sb -> in_use a dev sb (q * BPB + Z.of_nat bi) = true) as Hfull.
    { intros bi H1 H2. unfold in_use. destruct (Hbi bi H1) as [-> ->]. eapply find_free_None; [exact E|done|done]. }
    destruct Hcase as [(-> & -> & -> & Hall)|(Hrr & Hu & Ha & Ht & pre & c & post & -> & Hc & Hp & Hb0)]; [left|right].
    + do 3 (split; [done|]). intros b' bi Hb' H1 H2. apply elem_of_cons in Hb' as [->|Hb']; [by apply Hfull|by apply Hall].
    + do 4 (split; [done|]). exists (q * BPB :: pre), c, post. do 2 (split; [done|]). split; [|done].
      intros b' bi Hb' H1 H2. apply elem_of_cons in Hb' as [->|Hb']; [by apply Hfull|by apply Hp].
Qed.

Lemma bitmap_bases_spec sz b : b ∈ bitmap_bases sz -> exists q, b = q * BPB /\ 0 <= q /\ b < sz.
Proof.
  unfold bitmap_bases. intros (k & -> & Hk%elem_of_seq)%list_elem_of_fmap.
  exists (Z.of_nat k). split; [done|]. unfold BPB in *. dlia.
Qed.
Lemma bitmap_bases_cover sz b : 0 <= b < sz -> exists c bi, c ∈ bitmap_bases sz /\
  (bi < Z.to_nat BPB)%nat /\ b = c + Z.of_nat bi.
Proof.
  intros Hb. exists (b / BPB * BPB), (Z.to_nat (b mod BPB)). unfold BPB. split; [|dlia].
  apply list_elem_of_fmap. exists (Z.to_nat (b / 4096)). split; [unfold BPB; dlia|].
  apply elem_of_seq. unfold BPB. dlia.
Qed.

Lemma first_in_all a dev sb r : first_in a dev sb (bitmap_bases (sb_size sb)) r -> r < sb_size sb -> forall b, 0 <= b < r -> in_use a dev sb b = true.
Proof.
  intros (pre & c & post & E & Hc & Hp & Hr) Hrs b Hb. destruct (decide (c <= b)) as [Hle|Hlt]; [apply Hr; lia|].
  assert (forall k v, bitmap_bases (sb_size sb) !! k = Some v -> v = Z.of_nat k * BPB) as Hat.
  { intros k v. unfold bitmap_bases. rewrite list_lookup_fmap. intros (j & [-> _]%lookup_seq & ->)%fmap_Some. done. }
  assert (bitmap_bases (sb_size sb) !! length pre = Some c) as Ec by (rewrite E, lookup_app_r, Nat.sub_diag by done; done).
  destruct (bitmap_bases_cover (sb_size sb) b) as (d & bi & Hd & Hbi & ->); [lia|]. apply Hp; [|done|lia].
  apply list_elem_of_lookup in Hd as [k Hk]. apply Hat in Ec. pose proof (Hat _ _ Hk) as Ek. rewrite E in Hk.
  destruct (decide (k < length pre)%nat) as [Hkl|Hkl]; [rewrite lookup_app_l in Hk by done; by eapply list_elem_of_lookup_2|].
  exfalso. assert (Z.of_nat (length pre) * BPB <= Z.of_nat k * BPB) by (unfold BPB; lia). lia.
Qed.

(** The file system fits the drive. *)
Record sb_fits (sb : superblock) : Prop := {
  sf_size : sb_size sb <= FSSIZE;
  sf_bmap b : 0 <= b < sb_size sb -> BBLOCK b sb < FSSIZE
}.

(** The bitmap blocks of the disk. *)
Definition is_bitmap (sb : superblock) (bn : Z) : Prop := exists b, 0 <= b < sb_size sb /\ bn = BBLOCK b sb.

Lemma balloc_held H R dev sb x a l n :
  txg present H R x a dev l (S n) -> getsuperblock_of (disks x) dev = Some sb -> sb_fits sb ->
  (forall b, (dev, b) ∈ H -> in_use a dev sb b = true /\ ~ is_bitmap sb b) ->
  (forall b d, is_bitmap sb b -> txg present H R (with_log dev (logged l b) x) (dirty (dev, b) d a) dev (logged l b) (S n)) ->
  exists r x' a', Spec.run present (balloc dev) x a = Ok r (x', a') /\ same_mem x x' dev /\
  ((r = 0 /\ x' = x /\ a' = a /\ (forall b, 0 <= b < sb_size sb -> in_use a dev sb b = true)) \/
   (0 <= r < sb_size sb /\ in_use a dev sb r = false /\ a' = allocated a dev sb r /\
    txg present H ({[(dev, r)]} ∪ R) x' a' dev (logged (logged l (BBLOCK r sb)) r) n /\ (forall b, 0 <= b < r -> in_use a dev sb b = true))).
Proof.
  intros T Hsb [F1 F2] HH Hlog. unfold balloc. rewrite (run_getsuperblock present dev sb) by done.
  assert (forall b, b ∈ bitmap_bases (sb_size sb) -> is_bitmap sb (BBLOCK b sb)) as Hbm.
  { intros b (q & -> & Hq & Hlt)%bitmap_bases_spec. exists (q * BPB). unfold BPB in *. split; [lia|done]. }
  destruct (balloc_loop_ok H R dev sb (bitmap_bases (sb_size sb)) x a l n T F1) as (r & x' & a' & Hrun & Hs & Hcase).
  { intros b Hb. by apply HH. }
  { intros b Hb. pose proof (Hbm b Hb) as Hi. apply bitmap_bases_spec in Hb as (q & -> & Hq & Hlt). split; [eauto|].
    split; [apply F2; unfold BPB in *; lia|]. by intros [_ Hn]%HH. }
  { intros b d Hb. by apply Hlog, Hbm. }
  exists r, x', a'. split; [done|]. split; [done|].
  destruct Hcase as [(-> & -> & -> & Hall)|(H1 & H2 & H3 & H4 & H5)]; [left|right].
  - do 3 (split; [done|]). intros b Hb.
    destruct (bitmap_bases_cover (sb_size sb) b Hb) as (c & bi & Hc & Hbi & ->). apply Hall; [done..|lia].
  - do 4 (split; [done|]). apply first_in_all; [done|lia].
Qed.
Lemma balloc_ok dev sb x a l n :
  tx present x a dev l (S (S n)) -> getsuperblock_of (disks x) dev = Some sb -> sb_fits sb ->
  exists r x' a', Spec.run present (balloc dev) x a = Ok r (x', a') /\ same_mem x x' dev /\
  ((r = 0 /\ x' = x /\ a' = a /\ (forall b, 0 <= b < sb_size sb -> in_use a dev sb b = true)) \/
   (0 <= r < sb_size sb /\ in_use a dev sb r = false /\ a' = allocated a dev sb r /\
    tx present x' a' dev (logged (logged l (BBLOCK r sb)) r) n /\ (forall b, 0 <= b < r -> in_use a dev sb b = true))).
Proof.
  intros T Hsb F. destruct (balloc_held [] ∅ dev sb x a l n) as (r & x' & a' & Hrun & Hs & Hcase); try done.
  { eapply tx_le; [done|lia]. }
  { intros b Hb. by apply not_elem_of_nil in Hb. }
  { intros b d _. by apply tx_step. }
  exists r, x', a'. split; [done|]. split; [done|]. destruct Hcase as [?|(? & ? & ? & T' & Hf)]; [by left|right].
  do 3 (split; [done|]). split; [|done]. eapply tx_sub; [done|]. apply empty_subseteq.
Qed.

(** The numbers a [log_write] leaves recorded. *)
Lemma entries_logged l bn c : full_bound l -> c ∈ entries (logged l bn) <-> c = bn \/ c ∈ entries l.
Proof.
  intros Hb. destruct (decide (bn ∈ entries l)) as [Hi|Hi].
  - rewrite (proj2 (logged_old l bn Hb Hi)). split; [by right|]. by intros [->|].
  - rewrite (proj2 (logged_new l bn Hb Hi)), elem_of_app, list_elem_of_singleton. tauto.
Qed.

(** C19: [balloc] takes the first free block and nothing else.  Inside a
    transaction with room for two more blocks it returns either the first block of
    the disk whose bitmap bit is clear: the bit is then set, the block reads as
    zeros, every other block reads as before, and what the log of the transaction
    has recorded is what it had and these two blocks, so the change is committed
    with it; or 0, with nothing changed, and then every block is in use. *)
Theorem balloc_correct dev sb x a l n :
  tx present x a dev l (S (S n)) -> getsuperblock_of (disks x) dev = Some sb -> sb_fits sb ->
  exists r x' a', Spec.run present (balloc dev) x a = Ok r (x', a') /\
  ((r = 0 /\ x' = x /\ a' = a /\ (forall b, 0 <= b < sb_size sb -> in_use a dev sb b = true)) \/
   (0 <= r < sb_size sb /\ in_use a dev sb r = false /\ (forall b, 0 <= b < r -> in_use a dev sb b = true) /\
    (forall h, view a' h =
      if decide (h = (dev, r)) then zero_block
      else if decide (h = (dev, BBLOCK r sb)) then mark (view a h) (Z.to_nat (r mod BPB))
      else view a h) /\
    exists l', getlog_of (disks x') dev = Some l' /\ forall c, c ∈ entries l' <-> c = r \/ c = BBLOCK r sb \/ c ∈ entries l)).
Proof.
  intros T Hsb F. destruct (balloc_ok dev sb x a l n T Hsb F) as (r & x' & a' & Hrun & _ & Hcase).
  exists r, x', a'. split; [done|]. destruct Hcase as [H|(H1 & H2 & -> & T' & Hf)]; [by left|right].
  do 3 (split; [done|]). split.
  - intros h. unfold allocated. rewrite !view_dirty. repeat case_decide; subst; done.
  - eexists. split; [apply (tx_log _ _ _ _ _ _ _ _ T')|]. intros c. destruct T as [_ _ Tl Tn Tr _ _ _ _]. rewrite !entries_logged; [done| |].
    + unfold full_bound in *. lia.
    + unfold full_bound. rewrite (proj2 (proj2 (proj2 (logged_rest _ _)))). destruct (decide (BBLOCK r sb ∈ entries l)) as [Hi|Hi].
      * rewrite (proj1 (logged_old l _ ltac:(unfold full_bound; lia) Hi)). lia.
      * rewrite (proj1 (logged_new l _ ltac:(unfold full_bound; lia) Hi)). lia.
Qed.

Lemma bfree_ok dev b sb x a l n :
  tx present x a dev l (S n) -> getsuperblock_of (disks x) dev = Some sb -> BBLOCK b sb < FSSIZE ->
  Spec.run present (bfree dev b) x a =
  Ok tt (with_log dev (logged l (BBLOCK b sb)) x,
         dirty (dev, BBLOCK b sb) (unmark (view a (dev, BBLOCK b sb)) (Z.to_nat (b mod BPB))) a).
Proof.
  intros T Hsb Hb. unfold bfree. rewrite (run_getsuperblock present dev sb) by done.
  rewrite (run_bread _ []); [|apply T|apply not_elem_of_nil|pose proof (tx_bufs _ _ _ _ _ _ _ _ T); lia|apply T|done].
  rewrite run_bdata.
  transitivity (Spec.run present (bset (dev, BBLOCK b sb) (unmark (view a (dev, BBLOCK b sb)) (Z.to_nat (b mod BPB))) ;;
    log_write (dev, BBLOCK b sb) ;; brelse (dev, BBLOCK b sb) ;; Ret tt) x (hold (dev, BBLOCK b sb) a)).
  - rewrite !Spec.run_bind. done.
  - by erewrite run_update.
Qed.

(** [bfree] clears the block's bit in the bitmap and no other, so the block
    can be allocated again and no other block's state changes. *)
Theorem bfree_correct dev b sb x a l n :
  tx present x a dev l (S n) -> getsuperblock_of (disks x) dev = Some sb ->
  0 <= b -> BBLOCK b sb < FSSIZE -> length (view a (dev, BBLOCK b sb)) = BSIZE ->
  exists x' a', Spec.run present (bfree dev b) x a = Ok tt (x', a') /\
    (forall c, 0 <= c -> in_use a' dev sb c = negb (bool_decide (c = b)) && in_use a dev sb c) /\
    (forall h, h <> (dev, BBLOCK b sb) -> view a' h = view a h).
Proof.
  intros T Hsb Hb0 Hb Hlen. rewrite (bfree_ok dev b sb x a l n T Hsb Hb). eexists _, _. split; [done|].
  split; [|intros h Hh; rewrite view_dirty; by rewrite decide_False].
  intros c Hc. unfold in_use. rewrite view_dirty. destruct (decide _) as [[= E]|E].
  - rewrite E, bit_unmark; [do 2 f_equal; apply bool_decide_ext|].
    + unfold BBLOCK, BPB in *. dlia.
    + rewrite Hlen. unfold BPB, BSIZE. apply Nat.Div0.div_lt_upper_bound.
      pose proof (Z.mod_pos_bound b 4096). lia.
  - rewrite bool_decide_false; [done|]. intros ->. done.
Qed.
End balloc.

(** ** Inodes on disk *)

Section inodes.
Import Spec BlockIO.
Context (present : Z -> bool).
Implicit Types (a : astate) (x : kfs) (l : log).

Lemma run_iat {A} i ip (f : inode -> prog kfs A) x a : icache x !! i = Some ip ->
  Spec.run present (iat i ≫= f) x a = Spec.run present (f ip) x a.
Proof. intros H. unfold iat, kget. cbn [Spec.run mbind prog_bind mret prog_ret]. by rewrite H. Qed.

Definition upd_inode (i : nat) (f : inode -> inode) x : kfs := set_icache (alter f i (icache x)) x.
Lemma run_iset {A} i f (k : prog kfs A) x a :
  Spec.run present (iset i f ;; k) x a = Spec.run present k (upd_inode i f x) a.
Proof. done. Qed.
Lemma upd_inode_lookup i f x ip : icache x !! i = Some ip -> icache (upd_inode i f x) !! i = Some (f ip).
Proof. intros H. unfold upd_inode, set_icache. cbn [icache]. by rewrite list_lookup_alter_eq, H. Qed.

(** The inode's block after [iupdate]. *)
Definition written a (ip : inode) (sb : superblock) : astate :=
  let h := (i_dev ip, IBLOCK (i_inum ip) sb) in
  dirty h (put_dinode (view a h) (i_inum ip) (encode_dinode (get_dinode (view a h) (i_inum ip)) ip)) a.

Lemma iupdate_ok H R i ip sb x a l n :
  icache x !! i = Some ip -> txg present H R x a (i_dev ip) l (S n) -> ((i_dev ip, IBLOCK (i_inum ip) sb) ∉ H) ->
  getsuperblock_of (disks x) (i_dev ip) = Some sb -> IBLOCK (i_inum ip) sb < FSSIZE ->
  Spec.run present (iupdate i) x a =
  Ok tt (with_log (i_dev ip) (logged l (IBLOCK (i_inum ip) sb)) x, written a ip sb).
Proof.
  intros Hi T Hn Hsb Hb. unfold iupdate, iupdate1. rewrite (run_iat _ ip) by done.
  rewrite (run_getsuperblock present _ sb) by done.
  rewrite (run_bread _ H); [|apply T|done|pose proof (tx_bufs _ _ _ _ _ _ _ _ T); lia|apply T|done].
  rewrite run_bdata. set (h := (i_dev ip, IBLOCK (i_inum ip) sb)).
  transitivity (Spec.run present (bset h
    (put_dinode (view a h) (i_inum ip) (encode_dinode (get_dinode (view a h) (i_inum ip)) ip)) ;;
    log_write h ;; brelse h ;; Ret tt) x (hold h a)).
  - rewrite !Spec.run_bind. done.
  - subst h. by erewrite run_update.
Qed.

(** The look-up that must not allocate never finds a block. *)
Lemma bmap_g_lookup i bn x a ip : icache x !! i = Some ip -> bn < MAXFILE ->
  Spec.run present (bmap_g i bn false) x a = Ok (-1) (x, a).
Proof.
  intros Hi Hb. unfold bmap_g. rewrite (proj2 (Z.leb_gt _ _)) by done. cbn [offset2real].
  rewrite (run_iat _ ip) by done. rewrite andb_false_r. done.
Qed.

Lemma itrunc_loop i ks x a ip : icache x !! i = Some ip ->
  (forall k, k ∈ ks -> Z.of_nat k < MAXFILE) ->
  Spec.run present (pfor ks (itrunc_one i)) x a = Ok tt (x, a).
Proof.
  intros Hi. induction ks as [|k ks IH]; intros Hk; cbn [pfor]; [done|].
  rewrite Spec.run_bind. unfold itrunc_one. rewrite Spec.run_bind.
  rewrite (bmap_g_lookup i _ x a ip Hi) by (apply Hk; by left). cbn [Spec.run mret prog_ret].
  apply IH. intros k' Hk'. apply Hk. by right.
Qed.

(** [itrunc] frees no block.  Since [bmap_g] with [create] off always
    answers -1, truncating an inode only zeroes its size and writes the inode
    back: the bitmap, the indirect blocks and the inode's block addresses stay
    as they are. *)
Theorem itrunc_frees_nothing i ip sb x a l n :
  icache x !! i = Some ip -> tx present x a (i_dev ip) l (S n) ->
  getsuperblock_of (disks x) (i_dev ip) = Some sb -> IBLOCK (i_inum ip) sb < FSSIZE ->
  0 <= i_size ip <= MAXFILE * Z.of_nat BSIZE ->
  exists x' a', Spec.run present (itrunc i) x a = Ok tt (x', a') /\
    icache x' !! i = Some (set_size 0 ip) /\
    (forall h, h <> (i_dev ip, IBLOCK (i_inum ip) sb) -> view a' h = view a h).
Proof.
  intros Hi T Hsb Hb Hsz. unfold itrunc. rewrite (run_iat _ ip) by done.
  rewrite Spec.run_bind. rewrite (itrunc_loop i _ x a ip Hi).
  - rewrite run_iset.
    rewrite (iupdate_ok [] ∅ i (set_size 0 ip) sb (upd_inode i (set_size 0) x) a l n).
    + eexists _, _. split; [done|]. split.
      * cbn [icache with_log set_disks]. by apply upd_inode_lookup.
      * intros h Hh. unfold written. rewrite view_dirty. by rewrite decide_False.
    + by apply upd_inode_lookup.
    + destruct T as [? ? ? ? ? ? ? ? ?]. split; done.
    + apply not_elem_of_nil.
    + done.
    + done.
  - intros k Hk%elem_of_seq. unfold MAXFILE, NINDIRECT in *. change (Z.of_nat BSIZE) with 512 in *. dlia.
Qed.
End inodes.

(** ** The inode cache *)

Section icache.
Import Spec BlockIO.
Context (present : Z -> bool).
Implicit Types (a : astate) (x : kfs) (ic : list inode).

Definition names (dev inum : Z) (ip : inode) : bool :=
  (0 <? i_ref ip) && (i_dev ip =? dev) && (i_inum ip =? inum).

(** No inode is cached twice, and reference counts are not negative. *)
Definition icache_ok ic : Prop :=
  (forall i ip, ic !! i = Some ip -> 0 <= i_ref ip) /\
  (forall i j ip jp, ic !! i = Some ip -> ic !! j = Some jp -> 0 < i_ref ip -> 0 < i_ref jp ->
     i_dev ip = i_dev jp -> i_inum ip = i_inum jp -> i = j).

Lemma names_true dev inum ip : names dev inum ip = true <->
  0 < i_ref ip /\ i_dev ip = dev /\ i_inum ip = inum.
Proof. unfold names. rewrite !andb_true_iff, Z.ltb_lt, !Z.eqb_eq. tauto. Qed.

Lemma icache_ok_ref ic i ip r : icache_ok ic -> ic !! i = Some ip -> 0 < i_ref ip -> 0 <= r ->
  icache_ok (alter (fun _ => set_ref r ip) i ic).
Proof.
  intros [H1 H2] Hi Hr Hr0.
  assert (forall j jp, alter (fun _ => set_ref r ip) i ic !! j = Some jp ->
    exists kp, ic !! j = Some kp /\ i_dev kp = i_dev jp /\ i_inum kp = i_inum jp /\ 0 <= i_ref jp /\
      (0 < i_ref jp -> 0 < i_ref kp)) as H.
  { intros j jp Hj. destruct (decide (i = j)) as [<-|Hne].
    - rewrite list_lookup_alter_eq, Hi in Hj. injection Hj as <-. exists ip. done.
    - rewrite list_lookup_alter_ne in Hj by done. exists jp. split; [done|]. eauto. }
  split.
  - intros j jp Hj. by destruct (H j jp Hj) as (kp & _ & _ & _ & Hk & _).
  - intros j k jp kp Hj Hk Pj Pk Ed En.
    destruct (H j jp Hj) as (jp' & Hj' & Ed1 & En1 & _ & Q1). destruct (H k kp Hk) as (kp' & Hk' & Ed2 & En2 & _ & Q2).
    apply (H2 j k jp' kp'); auto; congruence.
Qed.

(** [iget] keeps one cache entry per inode.  If the inode is cached and not
    a mount point, its entry gains a reference and is returned; if it is not,
    a free slot becomes its entry with one reference and invalid contents; with
    no free slot the kernel panics.  No other entry changes, and the cache still
    holds every referenced inode once. *)
Theorem iget_spec dev inum x a :
  icache_ok (icache x) ->
  (forall i ip, icache x !! i = Some ip -> names dev inum ip = true -> has (i_flags ip) I_MOUNTPOINT = false) ->
  match Spec.run present (iget dev inum) x a with
  | Ok i (x', a') =>
    a' = a /\ disks x' = disks x /\ icache_ok (icache x') /\
    (exists ip, icache x' !! i = Some ip /\ i_dev ip = dev /\ i_inum ip = inum /\
       ((exists op, icache x !! i = Some op /\ names dev inum op = true /\ ip = set_ref (i_ref op + 1) op) \/
        ((forall j jp, icache x !! j = Some jp -> names dev inum jp = false) /\
         i_ref ip = 1 /\ i_flags ip = 0 /\ exists op, icache x !! i = Some op /\ i_ref op = 0))) /\
    (forall j, j <> i -> icache x' !! j = icache x !! j)
  | Panic m (x', a') => m = "iget: no inodes" /\ x' = x /\
    (forall j jp, icache x !! j = Some jp -> names dev inum jp = false /\ i_ref jp <> 0)
  | _ => False
  end.
Proof.
  intros Hok Hmp. unfold iget, kget. cbn [Spec.run mbind prog_bind].
  fold (names dev inum). destruct (scan (names dev inum) (icache x)) as [[i ip]|] eqn:E.
  - apply scan_Some in E as (Hi & Hn & _). rewrite (Hmp i ip Hi Hn).
    rewrite (run_iat present i ip) by done. rewrite run_iset. cbn [Spec.run mret prog_ret].
    apply names_true in Hn as (Hr & Hd & Hin).
    split; [done|]. split; [done|]. split; [apply icache_ok_ref; [done..|lia]|]. split.
    + exists (set_ref (i_ref ip + 1) ip). split; [by erewrite upd_inode_lookup|].
      split; [done|]. split; [done|]. left. exists ip. split; [done|]. split; [|done]. by apply names_true.
    + intros j Hj. cbn. by rewrite list_lookup_alter_ne.
  - rewrite scan_None in E. destruct (scan _ (icache x)) as [[i ip]|] eqn:E2.
    + apply scan_Some in E2 as (Hi & Hz%Z.eqb_eq & _). rewrite run_iset. cbn [Spec.run mret prog_ret].
      split; [done|]. split; [done|]. destruct Hok as [H1 H2]. split; [|split].
      * split; cbn [icache upd_inode set_icache].
        -- intros j jp Hj. destruct (decide (i = j)) as [<-|Hne].
           ++ rewrite list_lookup_alter_eq, Hi in Hj. injection Hj as <-. cbn. lia.
           ++ rewrite list_lookup_alter_ne in Hj by done. by apply (H1 j).
        -- intros j k jp kp Hj Hk Pj Pk Ed En.
           destruct (decide (i = j)) as [<-|Hij]; destruct (decide (i = k)) as [<-|Hik]; [done| | |].
           ++ rewrite list_lookup_alter_eq, Hi in Hj. injection Hj as <-. cbn in Ed, En.
              rewrite list_lookup_alter_ne in Hk by done. specialize (E k kp Hk).
              rewrite (proj2 (names_true dev inum kp)) in E by auto. done.
           ++ rewrite list_lookup_alter_eq, Hi in Hk. injection Hk as <-. cbn in Ed, En.
              rewrite list_lookup_alter_ne in Hj by done. specialize (E j jp Hj).
              rewrite (proj2 (names_true dev inum jp)) in E by auto. done.
           ++ rewrite list_lookup_alter_ne in Hj, Hk by done. by apply (H2 j k jp kp).
      * eexists. split; [by erewrite upd_inode_lookup|]. cbn. split; [done|]. split; [done|].
        right. split; [done|]. split; [done|]. split; [done|]. eauto.
      * intros j Hj. cbn. by rewrite list_lookup_alter_ne.
    + rewrite scan_None in E2. split; [done|]. split; [done|]. intros j jp Hj.
      split; [by apply (E j)|]. by apply Z.eqb_neq, (E2 j).
Qed.
End icache.

(** ** A small file system *)

Module Sample.
Import Spec BlockIO.

Definition sb0 : superblock :=
  {| label := []; version := 1; bootable := 0; system := 1; sb_size := 100; nblocks := 50; ninodes := 40;
     nlog := 40; logstart := 2; inodestart := 42; bmapstart := 47; bootinode := 0; kerninode := 0 |}.
Definition ip0 : inode := sample_inode.
Definition fs0 : kfs :=
  {| disks := [set_d_sb sb0 (set_d_log (Some (Concrete.log0 40 1))
                 (set_d_flags (Z.lor DRIVER_INUSE DISK_MOUNTED) blank_disk))];
     icache := ip0 :: replicate 3 inode_zero; rootdir := None; havesysfs := true |}.
Definition drive0 : astate :=
  {| amedia := {[ (0, 47) := replicate 6 255 ++ replicate 506 0 ]}; pin := ∅; abudget := None |}.

Lemma tx0 : tx Concrete.only0 fs0 drive0 0 (Concrete.log0 40 1) 4.
Proof.
  split; try (vm_compute; (reflexivity || congruence || lia)).
Qed.
Lemma sb0_fits : sb_fits sb0.
Proof. split; [vm_compute; congruence|]. intros b Hb. unfold BBLOCK, BPB, FSSIZE in *. cbn in *. dlia. Qed.

Lemma balloc_correct_witness :
  exists r x' a', Spec.run Concrete.only0 (balloc 0) fs0 drive0 = Ok r (x', a') /\
  ((r = 0 /\ x' = fs0 /\ a' = drive0 /\ (forall b, 0 <= b < 100 -> in_use drive0 0 sb0 b = true)) \/
   (0 <= r < 100 /\ in_use drive0 0 sb0 r = false /\ (forall b, 0 <= b < r -> in_use drive0 0 sb0 b = true) /\
    (forall h, view a' h =
      if decide (h = (0, r)) then zero_block
      else if decide (h = (0, BBLOCK r sb0)) then mark (view drive0 h) (Z.to_nat (r mod BPB))
      else view drive0 h) /\
    exists l', getlog_of (disks x') 0 = Some l' /\ forall c, c ∈ entries l' <-> c = r \/ c = BBLOCK r sb0 \/ c ∈ entries (Concrete.log0 40 1))).
Proof. exact (balloc_correct Concrete.only0 0 sb0 fs0 drive0 (Concrete.log0 40 1) 2 tx0 eq_refl sb0_fits). Defined.

Lemma bfree_correct_witness :
  exists x' a', Spec.run Concrete.only0 (bfree 0 20) fs0 drive0 = Ok tt (x', a') /\
    (forall c, 0 <= c -> in_use a' 0 sb0 c = negb (bool_decide (c = 20)) && in_use drive0 0 sb0 c) /\
    (forall h, h <> (0, 47) -> view a' h = view drive0 h).
Proof.
  apply (bfree_correct Concrete.only0 0 20 sb0 fs0 drive0 (Concrete.log0 40 1) 3 tx0); vm_compute; congruence.
Defined.

Lemma itrunc_frees_nothing_witness :
  exists x' a', Spec.run Concrete.only0 (itrunc 0) fs0 drive0 = Ok tt (x', a') /\
    icache x' !! 0%nat = Some (set_size 0 ip0) /\
    (forall h, h <> (0, 44) -> view a' h = view drive0 h).
Proof.
  apply (itrunc_frees_nothing Concrete.only0 0 ip0 sb0 fs0 drive0 (Concrete.log0 40 1) 3); try exact tx0; vm_compute; try split; congruence.
Defined.

Lemma iget_spec_witness :
  match Spec.run Concrete.only0 (iget 0 17) fs0 drive0 with
  | Ok i (x', a') =>
    a' = drive0 /\ disks x' = disks fs0 /\ icache_ok (icache x') /\
    (exists ip, icache x' !! i = Some ip /\ i_dev ip = 0 /\ i_inum ip = 17 /\
       ((exists op, icache fs0 !! i = Some op /\ names 0 17 op = true /\ ip = set_ref (i_ref op + 1) op) \/
        ((forall j jp, icache fs0 !! j = Some jp -> names 0 17 jp = false) /\
         i_ref ip = 1 /\ i_flags ip = 0 /\ exists op, icache fs0 !! i = Some op /\ i_ref op = 0))) /\
    (forall j, j <> i -> icache x' !! j = icache fs0 !! j)
  | Panic m (x', a') => m = "iget: no inodes" /\ x' = fs0 /\
    (forall j jp, icache fs0 !! j = Some jp -> names 0 17 jp = false /\ i_ref jp <> 0)
  | _ => False
  end.
Proof.
  apply iget_spec.
  - split.
    + intros [|[|[|[|]]]] ip [= <-]; vm_compute; congruence.
    + intros [|[|[|[|]]]] [|[|[|[|]]]] ip jp [= <-] [= <-]; vm_compute; congruence.
  - intros [|[|[|[|]]]] ip [= <-]; vm_compute; congruence.
Defined.
End Sample.
