(* ===== verification/FsData.v ===== *)
(** File contents ([bmap], [readi] and [writei] of [fs.c]).

    A file is the bytes of the blocks its inode's address table leads to.
    [readi] returns them and changes nothing; [writei] overwrites a range,
    allocating blocks where the file grows, and leaves every other block of the
    disk that is in use alone. *)

From S2P Require Import Prelude Params Bio Disk Log CString Fs FsFormat FsOps.
Import BlockIO.

(** ** Files on disk *)

Section files.
Import Spec BlockIO.
Implicit Types (a : astate) (ip : inode) (sb : superblock).

(** The block that holds the [bn]th block of the file, 0 when there is none. *)
Definition ptr a ip (bn : Z) : Z :=
  let '(bk, pt) := offset2real bn in
  if addr_at ip bk =? 0 then 0 else load_le (view a (i_dev ip, addr_at ip bk)) (4 * pt) 4.
Definition byte_at a ip (o : Z) : Z :=
  default 0 (view a (i_dev ip, ptr a ip (o / 512)) !! Z.to_nat (o mod 512)).
(** [n] bytes of the file from [off]. *)
Definition bytes a ip (off n : Z) : list Z := byte_at a ip <$> seqZ off n.
Definition contents a ip : list Z := bytes a ip 0 (i_size ip).

(** Blocks for file data: on the disk, past the superblock, outside the bitmap,
    the log and the inodes. *)
Record data_block sb (b : Z) : Prop := {
  db_range : 1 < b < sb_size sb;
  db_bitmap : ~ is_bitmap sb b;
  db_log : ~ (logstart sb <= b < logstart sb + nlog sb);
  db_inode : forall inum, 0 <= inum < ninodes sb -> b <> IBLOCK inum sb
}.

(** The disk: blocks have their size and the blocks that are not for data are
    marked in the bitmap. *)
Record fs_ok a (dev : Z) sb : Prop := {
  fk_fits : sb_fits sb;
  fk_len : forall b, length (view a (dev, b)) = BSIZE;
  fk_meta : forall b, 0 <= b < sb_size sb -> ~ data_block sb b -> in_use a dev sb b = true;
  fk_inodes : forall inum, 0 <= inum < ninodes sb -> 0 <= IBLOCK inum sb < sb_size sb /\ ~ is_bitmap sb (IBLOCK inum sb)
}.

(** The file: its address blocks and data blocks are for data, marked in the
    bitmap, and all different; the bytes before its size are there. *)
Record file_ok a sb ip : Prop := {
  fo_len : length (i_addrs ip) = NDIRECT;
  fo_inum : 0 <= i_inum ip < ninodes sb;
  fo_size : 0 <= i_size ip <= MAXFILE * 512;
  fo_addr : forall k, addr_at ip k <> 0 -> data_block sb (addr_at ip k) /\ in_use a (i_dev ip) sb (addr_at ip k) = true;
  fo_ptr : forall bn, 0 <= bn < MAXFILE -> ptr a ip bn <> 0 -> data_block sb (ptr a ip bn) /\ in_use a (i_dev ip) sb (ptr a ip bn) = true;
  fo_addr_inj : forall j k, addr_at ip j = addr_at ip k -> addr_at ip j <> 0 -> j = k;
  fo_ptr_inj : forall b c, 0 <= b < MAXFILE -> 0 <= c < MAXFILE -> ptr a ip b = ptr a ip c -> ptr a ip b <> 0 -> b = c;
  fo_apart : forall k b, 0 <= b < MAXFILE -> addr_at ip k <> 0 -> ptr a ip b <> addr_at ip k;
  fo_mapped : forall bn, 0 <= bn -> bn * 512 < i_size ip -> ptr a ip bn <> 0
}.

Lemma ptr_addr a ip bn : ptr a ip bn <> 0 -> addr_at ip (offset2real bn).1 <> 0.
Proof. unfold ptr, offset2real. cbn [fst]. destruct (Z.eqb_spec (addr_at ip (Z.to_nat (bn / NINDIRECT))) 0) as [->|]; done. Qed.

Lemma length_bytes a ip off n : length (bytes a ip off n) = Z.to_nat n.
Proof. unfold bytes. by rewrite length_fmap, length_seqZ. Qed.
Lemma length_contents a ip : 0 <= i_size ip -> Z.of_nat (length (contents a ip)) = i_size ip.
Proof. intros. unfold contents. rewrite length_bytes. lia. Qed.
Lemma lookup_bytes a ip off n k : (k < Z.to_nat n)%nat -> bytes a ip off n !! k = Some (byte_at a ip (off + Z.of_nat k)).
Proof. intros H. unfold bytes. rewrite list_lookup_fmap, (lookup_seqZ_lt) by lia. cbn. do 2 f_equal. Qed.
Lemma bytes_app a ip off n m : 0 <= n -> 0 <= m -> bytes a ip off (n + m) = bytes a ip off n ++ bytes a ip (off + n) m.
Proof. intros. unfold bytes. by rewrite seqZ_app, fmap_app by lia. Qed.

(** A piece inside one block. *)
Lemma bytes_block a ip off m : 0 <= off -> 0 <= m -> off mod 512 + m <= 512 -> length (view a (i_dev ip, ptr a ip (off / 512))) = BSIZE ->
  bytes a ip off m = slice (view a (i_dev ip, ptr a ip (off / 512))) (Z.to_nat (off mod 512)) (Z.to_nat m).
Proof.
  intros Ho Hm Hb Hl. apply list_eq. intros k. pose proof (Z.mod_pos_bound off 512).
  destruct (decide (k < Z.to_nat m)%nat) as [Hk|Hk].
  - rewrite lookup_bytes, lookup_slice by lia. unfold byte_at.
    assert ((off + Z.of_nat k) / 512 = off / 512) as -> by dlia.
    assert (Z.to_nat ((off + Z.of_nat k) mod 512) = (Z.to_nat (off mod 512) + k)%nat) as -> by dlia.
    destruct (lookup_lt_is_Some_2 (view a (i_dev ip, ptr a ip (off / 512))) (Z.to_nat (off mod 512) + k)) as [v ->]; [|done].
    rewrite Hl. unfold BSIZE. lia.
  - rewrite lookup_slice_ge by lia. apply lookup_ge_None_2. rewrite length_bytes. lia.
Qed.
Lemma slice_contents a ip off n : 0 <= off -> 0 <= n -> off + n <= i_size ip ->
  slice (contents a ip) (Z.to_nat off) (Z.to_nat n) = bytes a ip off n.
Proof.
  intros Ho Hn Hs. apply list_eq. intros k. destruct (decide (k < Z.to_nat n)%nat) as [Hk|Hk].
  - unfold contents. rewrite lookup_slice, !lookup_bytes by lia. do 2 f_equal. lia.
  - rewrite lookup_slice_ge by lia. symmetry. apply lookup_ge_None_2. rewrite length_bytes. lia.
Qed.
End files.

(** ** Reading *)

Section reading.
Import Spec BlockIO.
Context (present : Z -> bool).
Context (devsw_read : Z -> option (nat -> Z -> Z -> prog kfs (Z * list Z))).
Implicit Types (a : astate) (x : kfs) (ip : inode) (sb : superblock).

(** The disk can be read: nobody holds a buffer and one is free. *)
Record readable a (dev : Z) : Prop := {
  rd_quiet : quiet [] a;
  rd_bufs : (size (pin a) < NBUF)%nat;
  rd_present : present dev = true
}.

Lemma run_read {A} d bn (f : block -> prog kfs A) x a : readable a d -> bn < FSSIZE ->
  Spec.run present (bp ← bread d bn; w ← bdata bp; brelse bp ;; f w) x a = Spec.run present (f (view a (d, bn))) x a.
Proof.
  intros [H1 H2 H3] Hb. rewrite (run_bread _ []); [|done|apply not_elem_of_nil|done..].
  rewrite run_bdata. by rewrite (run_brelse _ []) by (first [done|apply not_elem_of_nil]).
Qed.

Lemma tiles_nonneg off n cs : tiles off n cs -> 0 <= n.
Proof. induction 1; lia. Qed.
Lemma fits_small sb b : sb_fits sb -> b < sb_size sb -> b < FSSIZE.
Proof. intros [H _] Hb. lia. Qed.

(** The block is there: [bmap] finds it. *)
Lemma bmap_mapped i bn x a ip sb : icache x !! i = Some ip -> readable a (i_dev ip) -> fs_ok a (i_dev ip) sb -> file_ok a sb ip ->
  0 <= bn < MAXFILE -> ptr a ip bn <> 0 -> Spec.run present (bmap i bn) x a = Ok (ptr a ip bn) (x, a).
Proof.
  intros Hi Hr Hfs Hf Hbn Hp. pose proof (ptr_addr a ip bn Hp) as Ha. unfold bmap, bmap_g. rewrite (proj2 (Z.leb_gt _ _)) by lia.
  destruct (fo_addr _ _ _ Hf _ Ha) as [Hda _]. destruct (fo_ptr _ _ _ Hf bn Hbn Hp) as [Hdp _].
  revert Hp Ha Hda Hdp. unfold ptr, offset2real. cbn [fst]. set (bk := Z.to_nat (bn / NINDIRECT)). set (pt := Z.to_nat (bn mod NINDIRECT)).
  intros Hp Ha Hda Hdp. rewrite (proj2 (Z.eqb_neq _ _) Ha) in *. rewrite !(run_iat present i ip) by done. rewrite (proj2 (Z.eqb_neq _ _) Ha).
  cbn [andb].
  rewrite !Spec.run_bind. cbn [Spec.run mret prog_ret negb]. rewrite (run_iat present i ip) by done.
  assert (forall b, b < sb_size sb -> b < FSSIZE) as Hsm by (intros b; apply fits_small, Hfs).
  rewrite (run_bread _ []); [|apply Hr|apply not_elem_of_nil|apply Hr..|apply Hsm, Hda]. rewrite run_bdata.
  rewrite (proj2 (Z.eqb_neq _ _) Hp). cbn [andb negb]. rewrite (run_brelse _ []) by (first [apply Hr|apply not_elem_of_nil]).
  cbn [Spec.run mret prog_ret]. rewrite s32_small; [done|]. pose proof (db_range _ _ Hdp). pose proof (Hsm _ (proj2 (db_range _ _ Hdp))).
  unfold FSSIZE in *. lia.
Qed.

Lemma readi_loop_ok i x a ip sb : icache x !! i = Some ip -> readable a (i_dev ip) -> fs_ok a (i_dev ip) sb -> file_ok a sb ip ->
  forall off n cs, tiles off n cs -> 0 <= off -> off + n <= i_size ip ->
  Spec.run present (readi_loop i cs) x a = Ok (bytes a ip off n) (x, a).
Proof.
  intros Hi Hr Hfs Hf. induction 1 as [off|off n m cs Hm Hb Ht IH]; intros Ho Hs; cbn [readi_loop].
  { unfold bytes. by rewrite seqZ_nil by lia. }
  change (Z.of_nat BSIZE) with 512 in *. pose proof (Z.mod_pos_bound off 512).
  assert (0 <= n - m) as Hn by (by eapply tiles_nonneg).
  assert (off / 512 * 512 < i_size ip) as Hlt by dlia. pose proof (fo_size _ _ _ Hf).
  assert (0 <= off / 512 < MAXFILE) as Hbn by (unfold MAXFILE, NINDIRECT in *; dlia).
  pose proof (fo_mapped _ _ _ Hf (off / 512) ltac:(lia) Hlt) as Hp. destruct (fo_ptr _ _ _ Hf _ Hbn Hp) as [Hd _].
  rewrite Spec.run_bind, (bmap_mapped i _ x a ip sb) by done. rewrite (run_iat present i ip) by done.
  assert (u32 (ptr a ip (off / 512)) = ptr a ip (off / 512)) as -> by (apply u32_small; pose proof (db_range _ _ Hd); pose proof (sf_size _ (fk_fits _ _ _ Hfs)); unfold FSSIZE in *; lia).
  rewrite run_read; [|done|by apply (fits_small sb), (db_range _ _ Hd); apply Hfs]. rewrite Spec.run_bind, IH by lia. cbn [Spec.run mret prog_ret].
  rewrite <- (bytes_block a ip off m) by (first [lia|apply (fk_len _ _ _ Hfs)]). rewrite <- bytes_app by lia. by replace (m + (n - m)) with n by lia.
Qed.

(** What [readi] returns for a file. *)
Definition read_result (c : list Z) (off n : Z) : Z * list Z :=
  if Z.of_nat (length c) <? off then (-1, []) else
  let m := Z.min n (Z.of_nat (length c) - off) in (m, slice c (Z.to_nat off) (Z.to_nat m)).

Lemma readi_ok i x a ip sb off n : icache x !! i = Some ip -> readable a (i_dev ip) -> fs_ok a (i_dev ip) sb -> file_ok a sb ip ->
  i_type ip <> T_DEV -> 0 <= off -> 0 <= n -> off + n < 2 ^ 32 ->
  Spec.run present (readi devsw_read i off n) x a = Ok (read_result (contents a ip) off n) (x, a).
Proof.
  intros Hi Hr Hfs Hf Ht Ho Hn Hw. unfold readi, read_result. rewrite (run_iat present i ip) by done. rewrite (proj2 (Z.eqb_neq _ _) Ht).
  pose proof (fo_size _ _ _ Hf) as Hsz. rewrite !length_contents by lia. rewrite u32_small by lia.
  rewrite (proj2 (Z.ltb_ge (off + n) off)), orb_false_r by lia. destruct (Z.ltb_spec (i_size ip) off) as [|Hle]; [done|].
  assert ((if i_size ip <? off + n then i_size ip - off else n) = Z.min n (i_size ip - off)) as ->.
  { destruct (Z.ltb_spec (i_size ip) (off + n)); lia. }
  set (m := Z.min n (i_size ip - off)). assert (0 <= m <= i_size ip - off) as Hm by lia.
  rewrite Spec.run_bind, (readi_loop_ok i x a ip sb Hi Hr Hfs Hf off m) by (first [apply transfer_tiles; lia|lia]).
  cbn [Spec.run mret prog_ret]. rewrite slice_contents by lia. rewrite s32_small; [done|]. unfold MAXFILE, NINDIRECT in *. lia.
Qed.
End reading.

(** ** What allocation and stores do to a file *)

Section changes.
Import Spec BlockIO.
Implicit Types (a : astate) (ip : inode) (sb : superblock).

Lemma length_mark d bi : length (mark d bi) = length d.
Proof. apply length_alter. Qed.
Lemma bitmap_byte b : 0 <= b -> (Z.to_nat (b mod BPB) / 8 < BSIZE)%nat.
Proof. intros. unfold BPB, BSIZE. apply Nat.Div0.div_lt_upper_bound. pose proof (Z.mod_pos_bound b 4096). lia. Qed.

(** The free block [r] is taken. *)
Lemma allocated_use a dev sb r b : fs_ok a dev sb -> 0 <= r < sb_size sb -> data_block sb r -> 0 <= b < sb_size sb ->
  in_use (allocated a dev sb r) dev sb b = bool_decide (b = r) || in_use a dev sb b.
Proof.
  intros Hf Hr Hd Hb. unfold in_use, allocated. rewrite !view_dirty.
  rewrite (decide_False (P := (dev, BBLOCK b sb) = (dev, r))) by (intros [= E]; apply (db_bitmap _ _ Hd); by exists b).
  destruct (decide ((dev, BBLOCK b sb) = (dev, BBLOCK r sb))) as [[= E]|E].
  - rewrite E, bit_mark by (rewrite (fk_len _ _ _ Hf); apply bitmap_byte; lia). f_equal. apply bool_decide_ext. unfold BBLOCK, BPB in *. dlia.
  - rewrite bool_decide_false; [done|]. by intros ->.
Qed.
Lemma allocated_view a dev sb r h : h <> (dev, r) -> (forall b, h = (dev, b) -> ~ is_bitmap sb b) -> 0 <= r < sb_size sb -> view (allocated a dev sb r) h = view a h.
Proof.
  intros H1 H2 Hr. unfold allocated. rewrite !view_dirty, decide_False by done. rewrite decide_False; [done|].
  intros ->. apply (H2 _ eq_refl). by exists r.
Qed.
Lemma allocated_zero a dev sb r : view (allocated a dev sb r) (dev, r) = zero_block.
Proof. unfold allocated. by rewrite view_dirty, decide_True. Qed.
Lemma data_free a dev sb r : fs_ok a dev sb -> 0 <= r < sb_size sb -> in_use a dev sb r = false -> data_block sb r.
Proof.
  intros Hf Hr Hu. destruct (decide (1 < r)) as [Hp|Hp].
  - assert (~ ~ data_block sb r) as Hnn by (intros Hn; rewrite (fk_meta _ _ _ Hf r Hr Hn) in Hu; done).
    split; [lia|..].
    + intros Hb. apply Hnn. intros [_ Hd _ _]. done.
    + intros Hb. apply Hnn. intros [_ _ Hd _]. done.
    + intros inum Hi ->. apply Hnn. intros [_ _ _ Hd]. by apply (Hd inum).
  - rewrite (fk_meta _ _ _ Hf r Hr) in Hu; [done|]. intros [? _ _ _]. lia.
Qed.
Lemma allocated_fs a dev sb r : fs_ok a dev sb -> 0 <= r < sb_size sb -> data_block sb r -> fs_ok (allocated a dev sb r) dev sb.
Proof.
  intros Hf Hr Hd. split; [apply Hf| | |apply Hf].
  - intros b. unfold allocated. rewrite !view_dirty. repeat case_decide; try apply (fk_len _ _ _ Hf); [done|].
    rewrite length_mark. apply (fk_len _ _ _ Hf).
  - intros b Hb Hn. rewrite allocated_use by done. rewrite (fk_meta _ _ _ Hf b Hb Hn). apply orb_true_r.
Qed.

(** A block of data gets new contents. *)
Lemma dirty_use a dev sb d v b : data_block sb d -> 0 <= b < sb_size sb -> in_use (dirty (dev, d) v a) dev sb b = in_use a dev sb b.
Proof.
  intros Hd Hb. unfold in_use. rewrite view_dirty, decide_False; [done|]. intros [= E]. apply (db_bitmap _ _ Hd). by exists b.
Qed.
Lemma dirty_fs a dev sb d v : fs_ok a dev sb -> data_block sb d -> length v = BSIZE -> fs_ok (dirty (dev, d) v a) dev sb.
Proof.
  intros Hf Hd Hv. split; [apply Hf| | |apply Hf].
  - intros b. rewrite view_dirty. case_decide; [done|apply Hf].
  - intros b Hb Hn. rewrite dirty_use by done. by apply Hf.
Qed.

(** A file whose address blocks read as before. *)
Lemma ptr_frame a a' ip : (forall k, addr_at ip k <> 0 -> view a' (i_dev ip, addr_at ip k) = view a (i_dev ip, addr_at ip k)) ->
  forall bn, ptr a' ip bn = ptr a ip bn.
Proof. intros H bn. unfold ptr, offset2real. destruct (Z.eqb_spec (addr_at ip (Z.to_nat (bn / NINDIRECT))) 0); [done|]. by rewrite H. Qed.
Lemma file_frame a a' sb ip : file_ok a sb ip -> (forall b, 0 <= b < sb_size sb -> in_use a (i_dev ip) sb b = true -> in_use a' (i_dev ip) sb b = true) ->
  (forall bn, ptr a' ip bn = ptr a ip bn) -> file_ok a' sb ip.
Proof.
  intros [F1 F2 F3 F4 F5 F6 F7 F8 F9] Hu E. split; try done.
  - intros k Hk. destruct (F4 k Hk) as [Hd H]. split; [done|]. apply Hu; [|done]. pose proof (db_range _ _ Hd). lia.
  - intros bn Hb. rewrite E. intros Hp. destruct (F5 bn Hb Hp) as [Hd H]. split; [done|]. apply Hu; [|done]. pose proof (db_range _ _ Hd). lia.
  - intros b c. rewrite !E. apply F7.
  - intros k b. rewrite E. apply F8.
  - intros bn. rewrite E. apply F9.
Qed.

(** The inode with another address table. *)
Definition with_addrs (l : list Z) ip : inode :=
  {| i_dev := i_dev ip; i_inum := i_inum ip; i_ref := i_ref ip; i_flags := i_flags ip;
     mountroot := mountroot ip; mountparent := mountparent ip; mountpoint := mountpoint ip;
     i_type := i_type ip; i_major := i_major ip; i_minor := i_minor ip; i_owner := i_owner ip;
     i_perms := i_perms ip; i_attrib := i_attrib ip; i_nlink := i_nlink ip; i_size := i_size ip;
     i_addrs := l |}.
(** The blocks of the file. *)
Definition owns a ip (b : Z) : Prop := b <> 0 /\ ((exists k, addr_at ip k = b) \/ exists bn, 0 <= bn < MAXFILE /\ ptr a ip bn = b).
(** The blocks that belong to others: of other disks, or in use, not of the
    bitmap and not of the file. *)
Definition spared a sb ip (h : key) : Prop :=
  h.1 <> i_dev ip \/ (0 <= h.2 < sb_size sb /\ in_use a (i_dev ip) sb h.2 = true /\ ~ is_bitmap sb h.2 /\ ~ owns a ip h.2).

(** The file grew, taking free blocks and changing its own. *)
Record grown sb a ip a' ip' : Prop := {
  gr_ip : exists l, ip' = with_addrs l ip;
  gr_use : forall b, 0 <= b < sb_size sb -> in_use a (i_dev ip) sb b = true -> in_use a' (i_dev ip) sb b = true;
  gr_ptr : forall bn, 0 <= bn < MAXFILE -> ptr a ip bn <> 0 -> ptr a' ip' bn = ptr a ip bn;
  gr_addr : forall k, addr_at ip k <> 0 -> addr_at ip' k = addr_at ip k;
  gr_view : forall h, spared a sb ip h -> view a' h = view a h;
  gr_owns : forall b, owns a' ip' b -> owns a ip b \/ (0 <= b < sb_size sb /\ in_use a (i_dev ip) sb b = false)
}.

Lemma grown_refl sb a ip : grown sb a ip a ip.
Proof. split; try done; [exists (i_addrs ip); by destruct ip|by left]. Qed.
Lemma spared_grown sb a ip a' ip' h : grown sb a ip a' ip' -> spared a sb ip h -> spared a' sb ip' h.
Proof.
  intros [[l ->] Hu _ _ _ Ho] [Hd|(Hr & Hin & Hb & Hn)]; [by left|right]. cbn [i_dev with_addrs].
  split; [done|]. split; [by apply Hu|]. split; [done|]. intros [H|[_ H]]%Ho; [done|congruence].
Qed.
Lemma grown_trans sb a1 ip1 a2 ip2 a3 ip3 : grown sb a1 ip1 a2 ip2 -> grown sb a2 ip2 a3 ip3 -> grown sb a1 ip1 a3 ip3.
Proof.
  intros G1 G2. pose proof (fun h => spared_grown sb a1 ip1 a2 ip2 h G1) as Hs.
  destruct G1 as [[l1 ->] U1 P1 A1 V1 O1], G2 as [[l2 ->] U2 P2 A2 V2 O2]. cbn [i_dev with_addrs] in *. split.
  - by exists l2.
  - intros b Hb H. by apply U2, U1.
  - intros bn Hb Hp. rewrite P2; [by apply P1|done|]. by rewrite P1.
  - intros k Hk. rewrite A2; [by apply A1|]. by rewrite A1.
  - intros h Hh. rewrite V2; [by apply V1|]. by apply Hs.
  - intros b Hb. destruct (O2 b Hb) as [H|[Hr H]]; [by apply O1|]. right. split; [done|].
    destruct (in_use a1 (i_dev ip1) sb b) eqn:E; [|done]. rewrite (U1 b Hr E) in H. done.
Qed.

(** *** A new address block *)
Section new_address.
Context (a : astate) (sb : superblock) (ip : inode) (bk : nat) (r : Z).
Hypothesis Hfs : fs_ok a (i_dev ip) sb.
Hypothesis Hf : file_ok a sb ip.
Hypothesis Hbk : (bk < NDIRECT)%nat.
Hypothesis Hz : addr_at ip bk = 0.
Hypothesis Hr : 0 <= r < sb_size sb.
Hypothesis Hu : in_use a (i_dev ip) sb r = false.
Let a' := allocated a (i_dev ip) sb r.
Let ip' := set_addr bk r ip.

Lemma na_data : data_block sb r.
Proof. by eapply data_free. Qed.
Lemma na_addr k : addr_at ip' k = if decide (k = bk) then r else addr_at ip k.
Proof.
  unfold addr_at, ip'. cbn [i_addrs set_addr]. case_decide as E; [subst k|by rewrite list_lookup_insert_ne].
  rewrite list_lookup_insert_eq; [done|]. by rewrite (fo_len _ _ _ Hf).
Qed.
(** Blocks in use are not affected. *)
Lemma na_view b : data_block sb b -> in_use a (i_dev ip) sb b = true -> view a' (i_dev ip, b) = view a (i_dev ip, b).
Proof.
  intros Hd H. apply allocated_view; [|intros b' [= ->]; apply Hd|done]. intros [= ->]. congruence.
Qed.
Lemma na_ptr bn : ptr a' ip' bn = ptr a ip bn.
Proof.
  unfold ptr, offset2real. rewrite na_addr. case_decide as E.
  - rewrite E, Hz. cbn [Z.eqb]. case_match; [done|]. change (i_dev ip') with (i_dev ip). unfold a'. rewrite allocated_zero.
    assert (bn mod NINDIRECT < 128) as Hp by (apply Z.mod_pos_bound; done).
    unfold load_le, slice, zero_block. rewrite drop_replicate, take_replicate.
    by destruct (4 `min` (BSIZE - 4 * Z.to_nat (bn mod NINDIRECT)))%nat as [|[|[|[|[|n]]]]] eqn:En; [..|lia].
  - case_match eqn:Ez; [done|]. apply Z.eqb_neq in Ez. destruct (fo_addr _ _ _ Hf _ Ez) as [Hd H]. change (i_dev ip') with (i_dev ip).
    by rewrite na_view.
Qed.
Lemma na_mono b : 0 <= b < sb_size sb -> in_use a (i_dev ip) sb b = true -> in_use a' (i_dev ip) sb b = true.
Proof. intros Hb H. unfold a'. rewrite allocated_use by (first [done|apply na_data]). rewrite H. apply orb_true_r. Qed.
Lemma na_file : file_ok a' sb ip'.
Proof.
  destruct Hf as [F1 F2 F3 F4 F5 F6 F7 F8 F9]. pose proof na_data as Hd.
  assert (in_use a' (i_dev ip) sb r = true) as Hr' by (unfold a'; rewrite allocated_use, bool_decide_true by done; done).
  assert (forall b, data_block sb b -> in_use a (i_dev ip) sb b = true -> b <> r) as Hne by (intros b _ H ->; congruence).
  assert (forall b, data_block sb b /\ in_use a (i_dev ip) sb b = true -> data_block sb b /\ in_use a' (i_dev ip) sb b = true) as Hup.
  { intros b [H1 H2]. split; [done|]. apply na_mono; [|done]. pose proof (db_range _ _ H1). lia. }
  split; try done; change (i_dev ip') with (i_dev ip).
  - unfold ip'. cbn [i_addrs set_addr]. by rewrite length_insert.
  - intros k. rewrite na_addr. case_decide; [done|]. intros Hk. by apply Hup, F4.
  - intros bn Hb. rewrite na_ptr. intros Hp. by apply Hup, F5.
  - intros j k. rewrite !na_addr. destruct (decide (j = bk)) as [->|], (decide (k = bk)) as [->|]; intros E Hn; try done; [exfalso..|by apply F6].
    + rewrite E in Hn. destruct (F4 k Hn) as [D U]. by apply (Hne _ D U).
    + destruct (F4 j Hn) as [D U]. by apply (Hne _ D U).
  - intros b c. rewrite !na_ptr. apply F7.
  - intros k b Hb. rewrite na_addr, na_ptr. case_decide as E; [|by apply F8]. intros Hn Ep. rewrite <- Ep in Hn. destruct (F5 b Hb Hn) as [D U].
    by apply (Hne _ D U).
  - intros bn. rewrite na_ptr. apply F9.
Qed.
Lemma na_grown : grown sb a ip a' ip'.
Proof.
  split.
  - by exists (<[bk := r]> (i_addrs ip)).
  - apply na_mono.
  - intros bn _ _. apply na_ptr.
  - intros k Hk. rewrite na_addr, decide_False; [done|]. by intros ->.
  - intros [d b] [Hd|(Hb & H & Hm & _)]; cbn [fst snd] in *; apply allocated_view; try done; first [congruence|by intros b' [= -> ->]].
  - intros b [Hb [[k Hk]|(bn & Hbn & Hp)]].
    + rewrite na_addr in Hk. case_decide; [right; by subst|left]. split; [done|]. left. by exists k.
    + rewrite na_ptr in Hp. left. split; [done|]. right. by exists bn.
Qed.
End new_address.

(** Pointers of an address block. *)
Lemma load_ptr d p q r : length d = BSIZE -> 0 <= p < 128 -> 0 <= q < 128 -> 0 <= r < 2 ^ 32 ->
  load_le (store_le d (4 * Z.to_nat p) 4 r) (4 * Z.to_nat q) 4 = if decide (q = p) then r else load_le d (4 * Z.to_nat q) 4.
Proof.
  intros Hl Hp Hq Hr. case_decide as E.
  - subst q. rewrite load_store_eq by (rewrite Hl; unfold BSIZE; lia). change (256 ^ Z.of_nat 4) with (2 ^ 32). apply Z.mod_small. lia.
  - rewrite load_store_ne by (rewrite ?Hl; unfold BSIZE; lia). done.
Qed.

(** *** A new block of data *)
Section new_data.
Context (a : astate) (sb : superblock) (ip : inode) (bn r : Z).
Hypothesis Hfs : fs_ok a (i_dev ip) sb.
Hypothesis Hf : file_ok a sb ip.
Hypothesis Hbn : 0 <= bn < MAXFILE.
Let bk := (offset2real bn).1.
Let pt := (offset2real bn).2.
Let ind := addr_at ip bk.
Hypothesis Hi : ind <> 0.
Hypothesis Hz : ptr a ip bn = 0.
Hypothesis Hr : 0 <= r < sb_size sb.
Hypothesis Hu : in_use a (i_dev ip) sb r = false.
Let a1 := allocated a (i_dev ip) sb r.
Let a' := dirty (i_dev ip, ind) (store_le (view a (i_dev ip, ind)) (4 * pt) 4 r) a1.

Lemma nd_ind : data_block sb ind /\ in_use a (i_dev ip) sb ind = true.
Proof. by apply (fo_addr _ _ _ Hf). Qed.
Lemma nd_fs : fs_ok a' (i_dev ip) sb.
Proof.
  destruct nd_ind as [Hd _]. apply dirty_fs; [|done|].
  - apply allocated_fs; [done..|]. by eapply data_free.
  - rewrite length_store_le; rewrite (fk_len _ _ _ Hfs); [done|]. unfold pt, offset2real, BSIZE, NINDIRECT. cbn [snd].
    pose proof (Z.mod_pos_bound bn 128). lia.
Qed.
Lemma nd_use b : 0 <= b < sb_size sb -> in_use a' (i_dev ip) sb b = bool_decide (b = r) || in_use a (i_dev ip) sb b.
Proof. intros Hb. unfold a'. rewrite dirty_use by (first [apply nd_ind|done]). apply allocated_use; try done. by eapply data_free. Qed.
Lemma nd_view b : b <> ind -> data_block sb b -> in_use a (i_dev ip) sb b = true -> view a' (i_dev ip, b) = view a (i_dev ip, b).
Proof.
  intros Hne Hd H. unfold a'. rewrite view_dirty, decide_False by congruence.
  apply (na_view a sb ip r); done.
Qed.
Lemma nd_zero : view a' (i_dev ip, r) = zero_block.
Proof.
  unfold a'. rewrite view_dirty, decide_False; [apply allocated_zero|]. intros [= E]. destruct nd_ind as [_ H]. rewrite <- E in H. congruence.
Qed.
Lemma nd_ptr c : 0 <= c < MAXFILE -> ptr a' ip c = if decide (c = bn) then r else ptr a ip c.
Proof.
  intros Hc. unfold ptr. destruct (offset2real c) as [ck ct] eqn:Ec. injection Ec as Ek Et.
  assert (r < 2 ^ 32) as Hr32 by (pose proof (sf_size _ (fk_fits _ _ _ Hfs)); unfold FSSIZE in *; lia).
  pose proof (Z.mod_pos_bound c 128 ltac:(lia)). pose proof (Z.mod_pos_bound bn 128 ltac:(lia)). pose proof (fk_len _ _ _ Hfs ind) as Hl.
  destruct (decide (ck = bk)) as [E|E].
  - rewrite E. fold ind. rewrite (proj2 (Z.eqb_neq _ _) Hi). unfold a'. rewrite view_dirty, decide_True by done. subst ct.
    unfold pt, offset2real, NINDIRECT in *. cbn [snd]. rewrite load_ptr by (first [done|lia]).
    assert (c mod 128 = bn mod 128 <-> c = bn) as Hiff. { subst ck. unfold bk, offset2real, NINDIRECT in E. cbn [fst] in E. dlia. }
    destruct (decide (c = bn)) as [Ecb|Ecb]; [by rewrite decide_True by tauto|by rewrite decide_False by tauto].
  - rewrite decide_False by (intros ->; unfold bk, offset2real in E; cbn [fst] in E; congruence).
    destruct (Z.eqb_spec (addr_at ip ck) 0) as [|Hn]; [done|].
    destruct (fo_addr _ _ _ Hf ck Hn) as [Hd Hin]. rewrite nd_view; [done| |done..]. intros Ea. apply E. by apply (fo_addr_inj _ _ _ Hf).
Qed.
Lemma nd_file : file_ok a' sb ip.
Proof.
  pose proof Hf as [F1 F2 F3 F4 F5 F6 F7 F8 F9]. pose proof (data_free a _ sb r Hfs Hr Hu) as Hd.
  assert (forall b, data_block sb b -> in_use a (i_dev ip) sb b = true -> b <> r) as Hne by (intros b _ H ->; congruence).
  assert (forall b, data_block sb b /\ in_use a (i_dev ip) sb b = true -> data_block sb b /\ in_use a' (i_dev ip) sb b = true) as Hup.
  { intros b [H1 H2]. split; [done|]. rewrite nd_use, H2 by (pose proof (db_range _ _ H1); lia). apply orb_true_r. }
  assert (0 < r) as Hpos by (pose proof (db_range _ _ Hd); lia).
  split; try done.
  - intros k Hk. by apply Hup, F4.
  - intros c Hc. rewrite nd_ptr by done. case_decide; [|intros Hp; by apply Hup, F5]. intros _. split; [done|]. by rewrite nd_use, bool_decide_true.
  - intros b c Hb Hc. rewrite !nd_ptr by done.
    destruct (decide (b = bn)) as [->|], (decide (c = bn)) as [->|]; intros E Hn; try done; [exfalso..|by apply F7].
    + rewrite E in Hn. destruct (F5 c Hc Hn) as [D U]. by apply (Hne _ D U).
    + destruct (F5 b Hb Hn) as [D U]. by apply (Hne _ D U).
  - intros k b Hb Hk. rewrite nd_ptr by done. case_decide; [|by apply F8]. intros E. destruct (F4 k Hk) as [D U]. by apply (Hne _ D U).
  - intros c Hc Hs. assert (0 <= c < MAXFILE) as Hc' by (unfold MAXFILE, NINDIRECT in *; lia). rewrite nd_ptr by done. case_decide; [lia|by apply F9].
Qed.
Lemma nd_grown : grown sb a ip a' ip.
Proof.
  split; try done.
  - exists (i_addrs ip). by destruct ip.
  - intros b Hb H. rewrite nd_use, H by done. apply orb_true_r.
  - intros c Hc Hp. rewrite nd_ptr, decide_False; [done| |done]. by intros ->.
  - intros [d b] Hs. unfold a'. rewrite view_dirty, decide_False.
    + destruct Hs as [Hd|(Hb & H & Hm & _)]; cbn [fst snd] in *; apply allocated_view; try done; first [congruence|by intros b' [= -> ->]].
    + intros [= -> ->]. destruct Hs as [Hd|(_ & _ & _ & Hn)]; [done|]. apply Hn. split; [done|]. left. by exists bk.
  - intros b [Hb [[k Hk]|(c & Hc & Hp)]]; [left; split; [done|]; left; by exists k|]. rewrite nd_ptr in Hp by done.
    case_decide; [right; by subst|left]. split; [done|]. right. by exists c.
Qed.
End new_data.

(** *** New bytes in a block of data *)
Section store.
Context (a : astate) (sb : superblock) (ip : inode) (bn : Z) (v : block).
Hypothesis Hfs : fs_ok a (i_dev ip) sb.
Hypothesis Hf : file_ok a sb ip.
Hypothesis Hbn : 0 <= bn < MAXFILE.
Let p := ptr a ip bn.
Hypothesis Hp : p <> 0.
Hypothesis Hv : length v = BSIZE.
Let a' := dirty (i_dev ip, p) v a.

Lemma st_data : data_block sb p.
Proof. by apply (fo_ptr _ _ _ Hf). Qed.
Lemma st_ptr c : ptr a' ip c = ptr a ip c.
Proof.
  apply ptr_frame. intros k Hk. unfold a'. rewrite view_dirty, decide_False; [done|]. intros [= E]. by apply (fo_apart _ _ _ Hf k bn Hbn Hk).
Qed.
Lemma st_file : file_ok a' sb ip.
Proof. apply (file_frame a); [done| |apply st_ptr]. intros b Hb H. unfold a'. rewrite dirty_use; [done|apply st_data|done]. Qed.
Lemma st_grown : grown sb a ip a' ip.
Proof.
  split; try done.
  - exists (i_addrs ip). by destruct ip.
  - intros b Hb H. unfold a'. rewrite dirty_use; [done|apply st_data|done].
  - intros c _ _. apply st_ptr.
  - intros [d b] Hs. unfold a'. rewrite view_dirty, decide_False; [done|]. intros [= -> ->].
    destruct Hs as [Hd|(_ & _ & _ & Hn)]; [done|]. apply Hn. split; [done|]. right. by exists bn.
  - intros b [Hb [[k Hk]|(c & Hc & Hq)]]; left; split; try done; [left; by exists k|]. rewrite st_ptr in Hq. right. by exists c.
Qed.
Lemma st_byte o : 0 <= o < MAXFILE * 512 -> ptr a ip (o / 512) <> 0 ->
  byte_at a' ip o = if decide (o / 512 = bn) then default 0 (v !! Z.to_nat (o mod 512)) else byte_at a ip o.
Proof.
  intros Ho Hn. unfold byte_at. rewrite st_ptr. unfold a'. rewrite view_dirty. case_decide as E.
  - injection E as E. rewrite decide_True; [done|]. apply (fo_ptr_inj _ _ _ Hf); try done. dlia.
  - rewrite decide_False; [done|]. intros E2. apply E. by rewrite E2.
Qed.
End store.
End changes.

(** ** Allocating blocks *)

Section writing.
Import Spec BlockIO.
Context (present : Z -> bool).
Implicit Types (a : astate) (x : kfs) (ip : inode) (sb : superblock) (l : log) (R : gset key).

Lemma pin_room (h : key) (v : pinned) (P : gmap key pinned) R : h ∈ R ->
  (size (<[h := v]> P) + size (R ∖ dom (<[h := v]> P)) = size P + size (R ∖ dom P))%nat.
Proof.
  intros Hh. rewrite dom_insert_L, size_remove, decide_True by done. rewrite map_size_insert.
  pose proof (size_some h R (dom P) Hh) as Hs. destruct (P !! h) eqn:E; cbn.
  - rewrite decide_True by (by apply elem_of_dom_2 in E). lia.
  - apply not_elem_of_dom in E. rewrite decide_False by done. specialize (Hs E). lia.
Qed.
Lemma tx_hold H R x a dev l k h : txg present H R x a dev l k -> h ∈ R -> txg present (h :: H) R x (hold h a) dev l k.
Proof.
  intros [? ? ? ? ? ? ? ? ?] Hh. split; try done; [by apply quiet_hold|]. cbn [hold set_pin pin]. rewrite pin_room by done. done.
Qed.
Lemma tx_unhold H R x a dev l k h : txg present (h :: H) R x (hold h a) dev l k -> h ∈ R -> quiet H a -> txg present H R x a dev l k.
Proof.
  intros [? ? ? ? ? ? ? Hb ?] Hh Hq. split; try done. cbn [hold set_pin pin] in Hb. by rewrite pin_room in Hb.
Qed.
Lemma tx_icache H R x y a dev l k : disks y = disks x -> txg present H R x a dev l k -> txg present H R y a dev l k.
Proof. intros E [? ? ? ? ? ? ? ? ?]. split; try done. by rewrite E. Qed.
(** Logging a reserved block costs nothing. *)
Lemma tx_reserved H R x a dev l k bn d : txg present H R x a dev l (S k) -> (dev, bn) ∈ R ->
  txg present H R (with_log dev (logged l bn) x) (dirty (dev, bn) d a) dev (logged l bn) (S k).
Proof. intros T Hin. pose proof (tx_logged present _ _ _ _ _ _ _ bn d T) as T'. by rewrite decide_True in T'. Qed.

(** A file and the transaction that works on it. *)
Record world (H : list key) R (k : nat) x a i ip sb l : Prop := {
  w_ip : icache x !! i = Some ip;
  w_tx : txg present H R x a (i_dev ip) l k;
  w_sb : getsuperblock_of (disks x) (i_dev ip) = Some sb;
  w_fs : fs_ok a (i_dev ip) sb;
  w_file : file_ok a sb ip;
  w_maps : forall b, is_bitmap sb b -> (i_dev ip, b) ∈ R
}.

(** Allocation while [H] is held. *)
Lemma world_balloc H R n x a i ip sb l : world H R (S n) x a i ip sb l ->
  (forall b, (i_dev ip, b) ∈ H -> data_block sb b /\ in_use a (i_dev ip) sb b = true) ->
  exists r x' a', Spec.run present (balloc (i_dev ip)) x a = Ok r (x', a') /\ same_mem x x' (i_dev ip) /\
  ((r = 0 /\ x' = x /\ a' = a /\ (forall b, 0 <= b < sb_size sb -> in_use a (i_dev ip) sb b = true)) \/
   (0 < r < sb_size sb /\ in_use a (i_dev ip) sb r = false /\ a' = allocated a (i_dev ip) sb r /\
    exists l', txg present H ({[(i_dev ip, r)]} ∪ R) x' a' (i_dev ip) l' n)).
Proof.
  intros [W1 W2 W3 W4 W5 W6] HH. destruct (balloc_held present H R (i_dev ip) sb x a l n) as (r & x' & a' & E1 & E2 & Hc); try done.
  - apply W4.
  - intros b Hb. destruct (HH b Hb) as [Hd Hu]. split; [done|]. apply Hd.
  - intros b d Hb. by apply tx_reserved, W6.
  - exists r, x', a'. split; [done|]. split; [done|]. destruct Hc as [?|(Hr & Hu & Ha & Ht & _)]; [by left|right].
    pose proof (db_range _ _ (data_free a _ sb r W4 Hr Hu)). split; [lia|]. do 2 (split; [done|]). by eexists.
Qed.

(** The part of [bmap_g] after the address block is there. *)
Definition bmap_tail (i bk pt : nat) : prog kfs Z :=
  ip ← iat i;
  bp ← bread (i_dev ip) (addr_at ip bk);
  d ← bdata bp;
  let w := load_le d (4 * pt) 4 in
  if (w =? 0) && true then
    nb ← balloc (i_dev ip);
    if nb =? 0 then mret (-1) else
    bset bp (store_le d (4 * pt) 4 nb) ;;
    log_write bp ;;
    brelse bp ;;
    mret (s32 nb)
  else if negb true then mret (-1)
  else brelse bp ;; mret (s32 w).

Definition no_space a ip sb : Prop := forall b, 0 <= b < sb_size sb -> in_use a (i_dev ip) sb b = true.
(** Blocks of data keep their bytes. *)
Definition same_data a ip a' : Prop := forall c, 0 <= c < MAXFILE -> ptr a ip c <> 0 ->
  view a' (i_dev ip, ptr a ip c) = view a (i_dev ip, ptr a ip c).

Lemma bmap_tail_ok R n x a i ip sb l bn : let '(bk, pt) := offset2real bn in
  world [] R (S ((if decide (ptr a ip bn = 0) then 1 else 0) + n)) x a i ip sb l -> 0 <= bn < MAXFILE -> addr_at ip bk <> 0 -> (i_dev ip, addr_at ip bk) ∈ R ->
  exists v x' a' R' l', Spec.run present (bmap_tail i bk pt) x a = Ok v (x', a') /\ icache x' = icache x /\ grown sb a ip a' ip /\ R ⊆ R' /\ same_data a ip a' /\
   ((v = ptr a' ip bn /\ v <> 0 /\ world [] R' (S n) x' a' i ip sb l' /\ (ptr a ip bn = 0 -> (i_dev ip, v) ∈ R' /\ view a' (i_dev ip, v) = zero_block)) \/
    (v = -1 /\ world [(i_dev ip, addr_at ip bk)] R' (S n) x' a' i ip sb l' /\ no_space a' ip sb)).
Proof.
  destruct (offset2real bn) as [bk pt] eqn:Eo. intros W Hbn Ha HR. pose proof W as [W1 W2 W3 W4 W5 W6].
  destruct (fo_addr _ _ _ W5 bk Ha) as [Hda Hua]. set (ind := addr_at ip bk) in *. set (h := (i_dev ip, ind)) in *.
  assert (forall b, b < sb_size sb -> b < FSSIZE) as Hsm by (intros b; apply fits_small, W4).
  unfold bmap_tail. rewrite (run_iat present i ip) by done.
  rewrite (run_bread present []); [|apply W2|apply not_elem_of_nil|pose proof (tx_bufs _ _ _ _ _ _ _ _ W2); lia|apply W2|apply Hsm, Hda]. fold ind h.
  rewrite run_bdata. assert (load_le (view a h) (4 * pt) 4 = ptr a ip bn) as Ew by (unfold ptr; rewrite Eo; fold ind; by rewrite (proj2 (Z.eqb_neq _ _) Ha)).
  rewrite Ew, andb_true_r. destruct (Z.eqb_spec (ptr a ip bn) 0) as [Hz|Hz]; cbn [negb].
  2:{ rewrite (run_brelse present []) by (first [apply W2|apply not_elem_of_nil]). rewrite decide_False in W by done.
  destruct (fo_ptr _ _ _ W5 bn Hbn Hz) as [Hdp _].
      cbn [Spec.run mret prog_ret]. eexists _, _, _, R, l. split; [done|]. split; [done|]. split; [apply grown_refl|]. split; [done|].
      split; [by intros c|]. left.
      rewrite s32_small; [done|]. pose proof (db_range _ _ Hdp). pose proof (Hsm _ (proj2 (db_range _ _ Hdp))). unfold FSSIZE in *. lia. }
  rewrite decide_True in W by done.
  assert (world [h] R (S (S n)) x (hold h a) i ip sb l) as Wh.
  { split; try done; [apply tx_hold; [apply W|done]| |].
    - split; [apply W4|intros b; rewrite view_hold; apply W4| |apply W4]. intros b Hb Hn. unfold in_use. rewrite view_hold. by apply W4.
    - apply (file_frame a); [done|intros b Hb; unfold in_use; by rewrite view_hold|]. intros c. apply ptr_frame. intros k _. apply view_hold. }
  assert (forall b, in_use (hold h a) (i_dev ip) sb b = in_use a (i_dev ip) sb b) as Euse by (intros b; unfold in_use; by rewrite view_hold).
  rewrite Spec.run_bind. destruct (world_balloc [h] R (S n) x (hold h a) i ip sb l Wh) as (r & x1 & a1 & -> & (Es1 & Es2 & Es3) & Hc).
  { intros b [= ->]%list_elem_of_singleton. by rewrite Euse. }
  destruct Hc as [(-> & -> & -> & Hfull)|(Hr & Hu & -> & l1 & T1)].
  { cbn [Z.eqb Spec.run mret prog_ret]. eexists _, _, _, R, l. split; [done|]. split; [done|]. split; [|split; [done|split]].
    - split; try done; [exists (i_addrs ip); by destruct ip|by intros b Hb; rewrite Euse|..].
      + intros c _ _. apply ptr_frame. intros k _. apply view_hold.
      + intros h' _. apply view_hold.
      + intros b [Hb [Hk|(c & Hc & Hp)]]; left; (split; [done|]); [by left|right]. exists c. split; [done|]. rewrite <- Hp. symmetry. apply ptr_frame.
        intros k _. apply view_hold.
    - intros c _ _. apply view_hold.
    - right. split; [done|]. split; [|done]. destruct Wh as [Z1 Z2 Z3 Z4 Z5 Z6]. split; try done. eapply tx_le; [done|lia]. }
  rewrite (proj2 (Z.eqb_neq r 0)) by lia. rewrite Euse in Hu. assert (ind <> r) as Hir by (intros E; rewrite <- E in Hu; congruence).
  set (a2 := allocated a (i_dev ip) sb r). assert (allocated (hold h a) (i_dev ip) sb r = hold h a2) as Ea.
  { unfold a2, allocated. rewrite view_hold, !dirty_hold; [done|unfold h; congruence|]. unfold h. intros [= E]. apply (db_bitmap _ _ Hda). exists r.
    split; [lia|done]. }
  rewrite Ea in T1 |- *. assert (h ∈ {[(i_dev ip, r)]} ∪ R) as HR' by (by apply elem_of_union_r).
  assert (txg present [] ({[(i_dev ip, r)]} ∪ R) x1 a2 (i_dev ip) l1 (S n)) as T2.
  { apply (tx_unhold [] _ x1 a2 _ _ _ h); [done..|]. do 2 apply quiet_dirty. apply W2. }
  rewrite (run_update present [] _ (i_dev ip) ind _ _ x1 a2 l1 n T2). cbn [Spec.run mret prog_ret].
  assert (pt = (offset2real bn).2 /\ bk = (offset2real bn).1) as [-> ->] by (by rewrite Eo).
  assert (0 <= r < sb_size sb) as Hr0 by lia. fold h in Euse.
  eexists _, _, _, ({[(i_dev ip, r)]} ∪ R), (logged l1 ind). split; [done|]. split; [done|].
  split; [by apply nd_grown|]. split; [apply union_subseteq_r|]. split; [|left].
  - intros c Hc Hp. destruct (fo_ptr _ _ _ W5 c Hc Hp) as [D U]. apply nd_view; try done. intros E.
    by apply (fo_apart _ _ _ W5 (offset2real bn).1 c Hc Ha).
  - rewrite s32_small by (pose proof (Hsm r); unfold FSSIZE in *; lia).
    split; [symmetry; transitivity (if decide (bn = bn) then r else ptr a ip bn); [by apply nd_ptr|by rewrite decide_True]|].
    split; [lia|]. split.
    + split; [by cbn; rewrite Es1|by apply tx_reserved| |by apply nd_fs|by apply nd_file|intros b Hb; apply elem_of_union_r; by apply W6].
      rewrite getsuperblock_with_log. by rewrite Es3.
    + intros _. split; [apply elem_of_union_l, elem_of_singleton; done|]. by apply nd_zero.
Qed.

(** The inode's entry changes, the others stay. *)
Definition others (i : nat) x x' : Prop := forall j, j <> i -> icache x' !! j = icache x !! j.
Definition missing (p : Z) : nat := if decide (p = 0) then 1 else 0.

Lemma bmap_ok R n x a i ip sb l bn : let bk := (offset2real bn).1 in
  world [] R (S (missing (addr_at ip bk) + (missing (ptr a ip bn) + n))) x a i ip sb l -> 0 <= bn < MAXFILE -> (addr_at ip bk <> 0 -> (i_dev ip, addr_at ip bk) ∈ R) ->
  exists v x' a' ip' R' l', Spec.run present (bmap i bn) x a = Ok v (x', a') /\ others i x x' /\ grown sb a ip a' ip' /\ R ⊆ R' /\ same_data a ip a' /\
   (forall k, k <> bk -> addr_at ip' k = addr_at ip k) /\ (addr_at ip bk <> 0 -> ip' = ip) /\
   ((v = ptr a' ip' bn /\ v <> 0 /\ world [] R' (S n) x' a' i ip' sb l' /\ addr_at ip' bk <> 0 /\ (i_dev ip, addr_at ip' bk) ∈ R' /\
      (ptr a ip bn = 0 -> (i_dev ip, v) ∈ R' /\ view a' (i_dev ip, v) = zero_block)) \/
    (v = -1 /\ no_space a' ip sb /\ exists H, (forall h, h ∈ H -> data_block sb h.2) /\ world H R' (S n) x' a' i ip' sb l')).
Proof.
  intros bk W Hbn HR. unfold bmap, bmap_g. rewrite (proj2 (Z.leb_gt _ _)) by lia. destruct (offset2real bn) as [bk' pt] eqn:Eo. cbn [fst] in bk.
  subst bk. rename bk' into bk.
  pose proof W as [W1 W2 W3 W4 W5 W6]. rewrite (run_iat present i ip) by done. rewrite andb_true_r. cbn [fst].
  assert (bk < NDIRECT)%nat as Hbk by (injection Eo as <- <-; unfold NDIRECT, MAXFILE, NINDIRECT in *; dlia).
  destruct (Z.eqb_spec (addr_at ip bk) 0) as [Hz|Hz].
  2:{ rewrite Spec.run_bind. cbn [Spec.run mret prog_ret negb]. change (Spec.run present _ x a) with (Spec.run present (bmap_tail i bk pt) x a).
      pose proof (bmap_tail_ok R n x a i ip sb l bn) as Ht. rewrite Eo in Ht. unfold missing at 1 in W. rewrite decide_False in W by done.
      destruct (Ht W Hbn Hz (HR Hz)) as (v & x' & a' & R' & l' & E & Ei & G & Hs & Hd & Hc). exists v, x', a', ip, R', l'.
      split; [done|]. split; [by intros j _; rewrite Ei|]. do 3 (split; [done|]). split; [done|]. split; [done|].
      destruct Hc as [(-> & Hn & W' & Hnew)|(-> & W' & Hfull)]; [left|right].
      - do 3 (split; [done|]). split; [done|]. split; [by apply Hs, HR|done].
      - split; [done|]. split; [done|]. eexists. split; [|exact W']. intros h ->%list_elem_of_singleton. by apply (fo_addr _ _ _ W5). }
  unfold missing at 1 in W. rewrite decide_True in W by done.
  rewrite Spec.run_bind, Spec.run_bind. destruct (world_balloc [] R _ x a i ip sb l W) as (r & x1 & a1 & -> & (Es1 & Es2 & Es3) & Hc).
  { intros b Hb. by apply not_elem_of_nil in Hb. }
  destruct Hc as [(-> & -> & -> & Hfull)|(Hr & Hu & -> & l1 & T1)].
  { cbn [Z.eqb Spec.run mret prog_ret negb]. eexists _, _, _, ip, R, l. split; [done|]. split; [by intros j|]. split; [apply grown_refl|].
    split; [done|].
    split; [by intros c|]. split; [done|]. split; [done|]. right. split; [done|]. split; [done|]. exists [].
    split; [intros h Hh; by apply not_elem_of_nil in Hh|].
    split; try done. eapply tx_le; [apply W2|]. unfold missing. repeat case_decide; lia. }
  assert (0 <= r < sb_size sb) as Hr0 by lia. rewrite (proj2 (Z.eqb_neq r 0)) by lia. rewrite run_iset. cbn [Spec.run mret prog_ret negb].
  set (ip1 := set_addr bk r ip). set (a1 := allocated a (i_dev ip) sb r) in *. set (x2 := upd_inode i (set_addr bk r) x1).
  change (Spec.run present _ x2 a1) with (Spec.run present (bmap_tail i bk pt) x2 a1).
  assert (icache x2 !! i = Some ip1) as Hi2 by (apply upd_inode_lookup; by rewrite Es1).
  assert (forall c, ptr a1 ip1 c = ptr a ip c) as Ep by (intros c; by apply na_ptr).
  assert (addr_at ip1 bk = r) as Er by (unfold ip1; rewrite (na_addr a sb ip bk r) by done; by rewrite decide_True).
  assert (world [] ({[(i_dev ip, r)]} ∪ R) (S (missing (ptr a1 ip1 bn) + n)) x2 a1 i ip1 sb l1) as W'.
  { rewrite Ep. split; [done|by apply (tx_icache _ _ x1)|cbn; by rewrite Es3|apply allocated_fs; [done..|by apply (na_data a sb ip r)]|by apply na_file|].
    intros b Hb. apply elem_of_union_r. by apply W6. }
  pose proof (bmap_tail_ok ({[(i_dev ip, r)]} ∪ R) n x2 a1 i ip1 sb l1 bn) as Ht. rewrite Eo, Er in Ht.
  destruct (Ht W' Hbn) as (v & x' & a' & R' & l' & E & Ei & G & Hs & Hd & Hc); [lia|apply elem_of_union_l, elem_of_singleton; done|].
  exists v, x', a', ip1, R', l'. split; [done|]. split; [|split; [|split; [|split; [|split; [|split]]]]].
  - intros j Hj. rewrite Ei. cbn. rewrite list_lookup_alter_ne by done. by rewrite Es1.
  - eapply grown_trans; [|exact G]. by apply na_grown.
  - etransitivity; [apply union_subseteq_r|exact Hs].
  - intros c Hcr Hp. destruct (fo_ptr _ _ _ W5 c Hcr Hp) as [D U]. rewrite <- (na_view a sb ip r) by done. fold a1. rewrite <- Ep. apply Hd; [done|].
    by rewrite Ep.
  - intros k Hk. unfold ip1. rewrite (na_addr a sb ip bk r) by done. by rewrite decide_False.
  - done.
  - destruct Hc as [(-> & Hn & W'' & Hnew)|(-> & W'' & Hfull)]; [left|right].
    + do 3 (split; [done|]). rewrite Er. split; [lia|]. split; [apply Hs, elem_of_union_l, elem_of_singleton; done|]. rewrite Ep in Hnew. exact Hnew.
    + split; [done|]. split; [done|]. eexists. split; [|exact W'']. intros h ->%list_elem_of_singleton. by apply (na_data a sb ip r).
Qed.

(** ** Writing *)

(** The address blocks a transfer needs and the file does not have. *)
Definition bk_of (c : Z * Z) : nat := (offset2real (c.1 / 512)).1.
Definition fresh_addrs ip (cs : list (Z * Z)) : gset nat := filter (fun k => addr_at ip k = 0) (list_to_set (bk_of <$> cs)).

Lemma fresh_addrs_step ip ip' c cs : (forall k, k <> bk_of c -> addr_at ip' k = addr_at ip k) -> addr_at ip' (bk_of c) <> 0 ->
  (missing (addr_at ip (bk_of c)) + size (fresh_addrs ip' cs) <= size (fresh_addrs ip (c :: cs)))%nat.
Proof.
  intros Ho Hn. unfold missing. assert (fresh_addrs ip' cs ⊆ fresh_addrs ip (c :: cs) ∖ {[bk_of c]}) as Hs.
  { intros k. unfold fresh_addrs. rewrite elem_of_difference, !elem_of_filter, fmap_cons, list_to_set_cons, elem_of_union, elem_of_singleton.
    intros [H1 H2]. destruct (decide (k = bk_of c)) as [->|Hk]; [done|]. rewrite <- Ho by done. auto. }
  apply subseteq_size in Hs. case_decide as Hz.
  - assert (bk_of c ∈ fresh_addrs ip (c :: cs)) as Hin.
    { unfold fresh_addrs. rewrite elem_of_filter, fmap_cons, list_to_set_cons, elem_of_union, elem_of_singleton. auto. }
    rewrite size_difference, size_singleton in Hs by (intros k ->%elem_of_singleton; done).
    assert (size ({[bk_of c]} : gset nat) <= size (fresh_addrs ip (c :: cs)))%nat as H1 by (apply subseteq_size; intros k ->%elem_of_singleton; done).
    rewrite size_singleton in H1. lia.
  - etransitivity; [exact Hs|]. apply subseteq_size, subseteq_difference_l. done.
Qed.

(** The bytes of the range are those of [src]; the others the file had are kept. *)
Definition stored a ip a' ip' (off n : Z) (src : list Z) : Prop := forall o, 0 <= o < MAXFILE * 512 ->
  if decide (off <= o < off + n) then ptr a' ip' (o / 512) <> 0 /\ byte_at a' ip' o = default 0 (src !! Z.to_nat (o - off))
  else ptr a ip (o / 512) <> 0 -> byte_at a' ip' o = byte_at a ip o.

(** One block of the transfer: the bytes of [src] go into the block of [off]. *)
Lemma stored_block a sb ip a1 ip1 off m src : fs_ok a1 (i_dev ip1) sb -> file_ok a1 sb ip1 -> grown sb a ip a1 ip1 -> same_data a ip a1 ->
  let p := ptr a1 ip1 (off / 512) in p <> 0 -> 0 <= off -> 0 < m -> off mod 512 + m <= 512 -> off + m <= MAXFILE * 512 -> m <= Z.of_nat (length src) ->
  let v := splice (view a1 (i_dev ip1, p)) (Z.to_nat (off mod 512)) (take (Z.to_nat m) src) in
  length v = BSIZE /\ stored a ip (dirty (i_dev ip1, p) v a1) ip1 off m src.
Proof.
  intros Hfs Hf G Hd p Hp Ho Hm Hb Hmax Hs v. pose proof (Z.mod_pos_bound off 512 ltac:(lia)) as Hom. pose proof (fk_len _ _ _ Hfs p) as Hl.
  assert (length (take (Z.to_nat m) src) = Z.to_nat m) as Ht by (rewrite length_take; lia).
  assert (Z.to_nat (off mod 512) + length (take (Z.to_nat m) src) <= length (view a1 (i_dev ip1, p)))%nat as Hfit by (rewrite Hl, Ht; unfold BSIZE; lia).
  assert (length v = BSIZE) as Hv by (unfold v; by rewrite length_splice). split; [done|]. intros o Hor.
  assert (0 <= off / 512 < MAXFILE) as Hbn by (unfold MAXFILE, NINDIRECT in *; dlia).
  assert (0 <= o / 512 < MAXFILE) as Hon by (unfold MAXFILE, NINDIRECT in *; dlia).
  pose proof (Z.mod_pos_bound o 512 ltac:(lia)) as Hoo.
  pose proof (st_ptr a1 sb ip1 (off / 512) v Hf Hbn) as Ep. fold p in Ep. case_decide as Hin.
  - assert (o / 512 = off / 512) as Eo by dlia. rewrite Ep, Eo. split; [done|].
    unfold p. rewrite (st_byte a1 sb ip1 (off / 512) v) by (rewrite ?Eo; done). rewrite decide_True by done. unfold v.
    rewrite lookup_splice_in by (rewrite ?Ht; first [done|dlia]). rewrite lookup_take_lt by dlia. do 2 f_equal. dlia.
  - intros Hn. pose proof (gr_ptr _ _ _ _ _ G (o / 512) Hon Hn) as Eg. assert (ptr a1 ip1 (o / 512) <> 0) as Hn1 by (by rewrite Eg).
    assert (byte_at a1 ip1 o = byte_at a ip o) as Eb.
    { unfold byte_at. rewrite Eg. destruct (gr_ip _ _ _ _ _ G) as [l ->]. cbn [i_dev with_addrs]. by rewrite Hd. }
    unfold p. rewrite (st_byte a1 sb ip1 (off / 512) v) by done. case_decide as E; [|done]. rewrite <- Eb. unfold byte_at. rewrite E. fold p.
    unfold v.
    rewrite lookup_splice_out by (rewrite ?Ht; first [done|dlia]). done.
Qed.

Lemma stored_app sb a ip a1 ip1 a2 ip2 off m n src : stored a ip a1 ip1 off m src -> stored a1 ip1 a2 ip2 (off + m) (n - m) (drop (Z.to_nat m) src) ->
  grown sb a ip a1 ip1 -> grown sb a1 ip1 a2 ip2 -> 0 <= off -> 0 <= m <= n -> stored a ip a2 ip2 off n src.
Proof.
  intros S1 S2 G1 G2 Ho Hm o Hor. specialize (S1 o Hor). specialize (S2 o Hor).
  assert (0 <= o / 512 < MAXFILE) as Hon by (unfold MAXFILE, NINDIRECT in *; dlia).
  destruct (decide (off <= o < off + m)) as [H1|H1].
  - rewrite decide_False in S2 by lia. rewrite decide_True by lia. destruct S1 as [Hp1 Hb1]. split; [by rewrite (gr_ptr _ _ _ _ _ G2)|].
    rewrite S2; done.
  - destruct (decide (off + m <= o < off + m + (n - m))) as [H2|H2].
    + rewrite decide_True by lia. destruct S2 as [Hp2 ->]. split; [done|]. rewrite lookup_drop. do 2 f_equal. lia.
    + rewrite decide_False by lia. intros Hp. rewrite S2; [by apply S1|]. by rewrite (gr_ptr _ _ _ _ _ G1).
Qed.

(** The address blocks of the transfer are reserved. *)
Definition reserved R ip (cs : list (Z * Z)) : Prop := forall c, c ∈ cs -> addr_at ip (bk_of c) <> 0 -> (i_dev ip, addr_at ip (bk_of c)) ∈ R.

Lemma writei_loop_ok i sb off n cs : tiles off n cs -> 0 <= off -> off + n <= MAXFILE * 512 ->
  forall R n0 x a ip l src, world [] R (S (length cs + size (fresh_addrs ip cs) + n0)) x a i ip sb l -> reserved R ip cs -> Z.of_nat (length src) = n ->
  exists full off' x' a' ip' R' l' H', Spec.run present (writei_loop i src off cs) x a = Ok (full, off') (x', a') /\
    others i x x' /\ grown sb a ip a' ip' /\ (forall h, h ∈ H' -> data_block sb h.2) /\ world H' R' (S n0) x' a' i ip' sb l' /\
    ((forall c, c ∈ cs -> addr_at ip (bk_of c) <> 0) -> ip' = ip) /\
    off <= off' <= off + n /\ stored a ip a' ip' off (off' - off) src /\
    ((full = true /\ off' = off + n /\ H' = []) \/ (full = false /\ no_space a' ip sb /\ off' < off + n)).
Proof.
  induction 1 as [off|off n m cs Hm Hb Ht IH]; intros Ho Hmax R n0 x a ip l src W HR Hlen; cbn [writei_loop].
  { cbn [Spec.run mret prog_ret]. exists true, off, x, a, ip, R, l, []. split; [done|]. split; [by intros j|]. split; [apply grown_refl|].
    split; [intros h Hh; by apply not_elem_of_nil in Hh|]. split; [destruct W as [? T ? ? ? ?]; split; try done; try (eapply tx_le; [done|lia])|].
    split; [done|]. split; [lia|]. split; [|left; split; [done|]; split; [lia|done]]. intros o Hr. rewrite decide_False by lia. done. }
  change (Z.of_nat BSIZE) with 512 in *. pose proof (tiles_nonneg _ _ _ Ht) as Hn. pose proof (Z.mod_pos_bound off 512 ltac:(lia)) as Hom.
  set (bn := off / 512). set (c := (off, m)) in *. assert (0 <= bn < MAXFILE) as Hbn by (unfold bn, MAXFILE, NINDIRECT in *; dlia).
  set (rest := (length cs + (size (fresh_addrs ip (c :: cs)) - missing (addr_at ip (bk_of c))) + n0)%nat).
  assert (missing (addr_at ip (bk_of c)) <= size (fresh_addrs ip (c :: cs)))%nat as Hmiss.
  { unfold missing. case_decide as Hz; [|lia]. rewrite <- (size_singleton (C := gset nat) (bk_of c)). apply subseteq_size.
    intros k ->%elem_of_singleton.
    unfold fresh_addrs. rewrite elem_of_filter, fmap_cons, list_to_set_cons, elem_of_union, elem_of_singleton. auto. }
  assert (missing (ptr a ip bn) <= 1)%nat as Hm1 by (unfold missing; case_decide; lia).
  rewrite Spec.run_bind.
  destruct (bmap_ok R ((1 - missing (ptr a ip bn)) + rest)%nat x a i ip sb l bn) as (v & x1 & a1 & ip1 & R1 & l1 & -> & Ho1 & G1 & Hs1 & Hd1 & Ha1 & Hsame1 & Hc).
  { destruct W as [? T ? ? ? ?]; split; try done. eapply tx_le; [done|]. cbn [length]. unfold rest. fold (bk_of c).
    change (offset2real bn).1 with (bk_of c). lia. }
  { done. }
  { apply (HR c). by left. }
  change (offset2real bn).1 with (bk_of c) in *. destruct Hc as [(-> & Hp & W1 & Hnz & HRa & Hnew)|(-> & Hfull & H & HH & W1)].
  2:{ cbn [Z.ltb Z.compare Spec.run mret prog_ret]. exists false, off, x1, a1, ip1, R1, l1, H.
  split_and!; try done; [| |lia..| |right; split; [done|]; split; [done|lia]].
      - destruct W1 as [? T ? ? ? ?]; split; try done. eapply tx_le; [done|]. unfold rest. lia.
      - intros Hall. apply Hsame1, Hall. by left.
      - intros o Hor. rewrite decide_False by lia. intros Hpo. assert (0 <= o / 512 < MAXFILE) as Hon by (unfold MAXFILE, NINDIRECT in *; dlia).
        unfold byte_at. rewrite (gr_ptr _ _ _ _ _ G1) by done. destruct (gr_ip _ _ _ _ _ G1) as [adr ->]. cbn [i_dev with_addrs]. by rewrite Hd1. }
  pose proof W1 as [V1 V2 V3 V4 V5 V6]. destruct (fo_ptr _ _ _ V5 bn Hbn Hp) as [Hdp _]. set (p := ptr a1 ip1 bn) in *.
  destruct (gr_ip _ _ _ _ _ G1) as [adr Eip].
  assert (i_dev ip1 = i_dev ip) as Edev by (by rewrite Eip).
  rewrite (proj2 (Z.ltb_ge p 0)) by (pose proof (db_range _ _ Hdp); lia). rewrite (run_iat present i ip1) by done.
  rewrite (run_bread present []); [|apply V2|apply not_elem_of_nil|pose proof (tx_bufs _ _ _ _ _ _ _ _ V2); lia|apply V2|apply (fits_small sb); [apply V4|apply Hdp]].
  rewrite run_bdata, (run_update present [] R1 _ _ _ _ x1 a1 l1 _ V2).
  destruct (stored_block a sb ip a1 ip1 off m src) as [Hv Hst]; try done; [lia..|]. fold bn p in Hv, Hst.
  set (v := splice (view a1 (i_dev ip1, p)) (Z.to_nat (off mod 512)) (take (Z.to_nat m) src)) in *. set (a2 := dirty (i_dev ip1, p) v a1) in *.
  assert (world [] R1 (S rest) (with_log (i_dev ip1) (logged l1 p) x1) a2 i ip1 sb (logged l1 p)) as W2.
  { split; [done| |by rewrite getsuperblock_with_log|by apply dirty_fs|by apply st_file|done].
    unfold missing in V2, Hnew. destruct (decide (ptr a ip bn = 0)) as [Hz|Hz].
    - apply tx_reserved; [eapply tx_le; [done|lia]|]. rewrite Edev. by apply Hnew.
    - apply tx_step. eapply tx_le; [done|lia]. }
  assert (grown sb a ip a2 ip1) as G2 by (eapply grown_trans; [done|by apply st_grown]).
  destruct (IH ltac:(lia) ltac:(lia) R1 n0 (with_log (i_dev ip1) (logged l1 p) x1) a2 ip1 (logged l1 p) (drop (Z.to_nat m) src)) as (full & off' & x' & a' & ip' & R' & l' & H' & E & Ho' & G' & HH' & W' & Hsame & Hof & Hst2 & Hc).
  { destruct W2 as [? T ? ? ? ?]; split; try done. eapply tx_le; [done|]. unfold rest. pose proof (fresh_addrs_step ip ip1 c cs Ha1 Hnz). lia. }
  { intros c' Hc' Hn'. destruct (decide (bk_of c' = bk_of c)) as [Eb|Eb]; [rewrite Eb, Edev; done|]. rewrite Ha1 in Hn' |- * by done. rewrite Edev.
    apply Hs1, HR; [by right|done]. }
  { rewrite length_drop. lia. }
  rewrite E. exists full, off', x', a', ip', R', l', H'. split; [done|]. split; [intros j Hj; rewrite (Ho' j Hj); by apply Ho1|].
  split; [by eapply grown_trans|]. split; [done|]. split; [done|].
  split; [intros Hall; assert (ip1 = ip) as E1 by (apply Hsame1, Hall; by left); rewrite E1 in Hsame; apply Hsame; intros c' Hc'; apply Hall; by right|].
  split; [lia|]. split; [eapply stored_app; [done|by replace (off' - off - m) with (off' - (off + m)) by lia|done|done|lia|lia]|].
  destruct Hc as [(-> & -> & ->)|(-> & Hf & Hlt)]; [left; split; [done|]; split; [lia|done]|right]. split; [done|]. split; [|lia].
  unfold no_space in *. by rewrite <- Edev.
Qed.

(** *** The inode *)

(** The inode's disk copy says what the cached one says. *)
Definition synced a sb ip : Prop :=
  decode_dinode (get_dinode (view a (i_dev ip, IBLOCK (i_inum ip) sb)) (i_inum ip)) ip = ip.

Lemma tiles_range off n cs c : tiles off n cs -> c ∈ cs -> off <= c.1 < off + n.
Proof.
  induction 1 as [|off n m cs Hm Hb Ht IH]; intros Hc; [by apply not_elem_of_nil in Hc|]. pose proof (tiles_nonneg _ _ _ Ht).
  apply elem_of_cons in Hc as [->|Hc]; [cbn; lia|]. specialize (IH Hc). lia.
Qed.
Lemma file_sized a sb ip s : file_ok a sb ip -> 0 <= s <= MAXFILE * 512 -> (forall bn, 0 <= bn -> bn * 512 < s -> ptr a ip bn <> 0) -> file_ok a sb (set_size s ip).
Proof. intros [F1 F2 F3 F4 F5 F6 F7 F8 F9] Hs Hm. by split. Qed.
Lemma get_dinode_len (d : block) inum : length d = BSIZE -> length (get_dinode d inum) = DINODE_SIZE.
Proof. intros Hb. apply length_slice. unfold ioff, IPB, BSIZE, DINODE_SIZE in *. pose proof (Z.mod_pos_bound inum 8). lia. Qed.
Lemma put_dinode_len (d : block) inum e : length d = BSIZE -> length e = DINODE_SIZE -> length (put_dinode d inum e) = BSIZE.
Proof.
  intros Hb He. unfold put_dinode. rewrite length_splice; [done|]. unfold ioff, IPB, BSIZE, DINODE_SIZE in *. pose proof (Z.mod_pos_bound inum 8).
  lia.
Qed.

(** [iupdate] changes no other block and makes the two copies agree. *)
Lemma written_ok a sb ip : fs_ok a (i_dev ip) sb -> 0 <= i_inum ip < ninodes sb -> length (i_addrs ip) = NDIRECT ->
  let h := (i_dev ip, IBLOCK (i_inum ip) sb) in
  fs_ok (written a ip sb) (i_dev ip) sb /\ (forall k, k <> h -> view (written a ip sb) k = view a k) /\
  (forall b, 0 <= b < sb_size sb -> in_use (written a ip sb) (i_dev ip) sb b = in_use a (i_dev ip) sb b) /\
  (storable ip -> synced (written a ip sb) sb ip).
Proof.
  intros Hfs Hi Hl h. destruct (fk_inodes _ _ _ Hfs _ Hi) as [Hr Hnb]. pose proof (fk_len _ _ _ Hfs (IBLOCK (i_inum ip) sb)) as Hb.
  pose proof (length_encode_dinode _ ip (get_dinode_len _ (i_inum ip) Hb) Hl) as He.
  assert (forall b, 0 <= b < sb_size sb -> in_use (written a ip sb) (i_dev ip) sb b = in_use a (i_dev ip) sb b) as Hu.
  { intros b Hbr. unfold in_use, written. rewrite view_dirty, decide_False; [done|]. intros [= E]. apply Hnb. by exists b. }
  split; [|split; [intros k Hk; unfold written; rewrite view_dirty; by rewrite decide_False|split; [done|]]].
  - split; [apply Hfs| |intros b Hbr Hn; rewrite Hu by done; by apply Hfs|apply Hfs]. intros b. unfold written. rewrite view_dirty.
    case_decide; [|apply Hfs]. by apply put_dinode_len.
  - intros Hs. unfold synced, written. rewrite view_dirty, decide_True by done. rewrite get_put_dinode by done.
    pose proof (decode_encode (get_dinode (view a h) (i_inum ip)) ip ip (get_dinode_len _ _ Hb) Hs) as D. cbv zeta in D. fold h.
    destruct D as (E1 & E2 & E3 & E4 & E5 & E6 & E7 & E8). unfold decode_dinode in *.
    cbn [i_type i_major i_minor i_owner i_perms i_nlink i_size i_addrs] in *.
    rewrite E1, E2, E3, E4, E5, E6, E7, E8. by destruct ip.
Qed.
Lemma written_file a sb ip jp : fs_ok a (i_dev ip) sb -> 0 <= i_inum ip < ninodes sb -> length (i_addrs ip) = NDIRECT -> i_dev jp = i_dev ip ->
  file_ok a sb jp -> file_ok (written a ip sb) sb jp /\ contents (written a ip sb) jp = contents a jp /\ forall b, owns (written a ip sb) jp b <-> owns a jp b.
Proof.
  intros Hfs Hi Hl Ed Hf. destruct (written_ok a sb ip Hfs Hi Hl) as (_ & Hv & Hu & _).
  assert (forall b, data_block sb b -> view (written a ip sb) (i_dev jp, b) = view a (i_dev jp, b)) as Hd.
  { intros b Hb. apply Hv. intros [= _ E]. by apply (db_inode _ _ Hb (i_inum ip)). }
  assert (forall bn, ptr (written a ip sb) jp bn = ptr a jp bn) as Ep.
  { apply ptr_frame. intros k Hk. apply Hd. by apply (fo_addr _ _ _ Hf). }
  split; [|split].
  - apply (file_frame a); [done| |done]. intros b Hb. rewrite Ed. by rewrite Hu.
  - unfold contents, bytes. apply list_fmap_ext. intros k o Ho%lookup_seqZ. unfold byte_at. rewrite Ep. pose proof (fo_size _ _ _ Hf).
    rewrite Hd; [done|].
    apply (fo_ptr _ _ _ Hf); [unfold MAXFILE, NINDIRECT in *; dlia|]. apply (fo_mapped _ _ _ Hf); dlia.
  - intros b. unfold owns.
    split; intros [Hb [H|(bn & H1 & H2)]]; (split; [done|]); [by left|right; exists bn; rewrite <- Ep; done|by left|right; exists bn; rewrite Ep; done].
Qed.

(** *** Other files *)

Definition disjoint_files a ip jp : Prop := forall b, owns a ip b -> ~ owns a jp b.
Lemma owns_data a sb ip b : file_ok a sb ip -> owns a ip b -> data_block sb b /\ in_use a (i_dev ip) sb b = true.
Proof.
  intros Hf [Hb [[k Hk]|(bn & Hn & Hp)]]; [rewrite <- Hk in *; by apply (fo_addr _ _ _ Hf)|rewrite <- Hp in *; by apply (fo_ptr _ _ _ Hf)].
Qed.
Lemma grown_other sb a ip a' ip' jp : grown sb a ip a' ip' -> file_ok a sb jp -> i_dev jp = i_dev ip -> disjoint_files a ip jp ->
  file_ok a' sb jp /\ contents a' jp = contents a jp /\ disjoint_files a' ip' jp.
Proof.
  intros G Hf Ed Hdis.
  assert (forall b, owns a jp b -> view a' (i_dev jp, b) = view a (i_dev jp, b)) as Hv.
  { intros b Hb. destruct (owns_data a sb jp b Hf Hb) as [Hd Hu]. apply (gr_view _ _ _ _ _ G). right. cbn [fst snd]. pose proof (db_range _ _ Hd).
    rewrite <- Ed. split_and!; [lia..|done|apply Hd|]. intros Ho. by apply (Hdis b). }
  assert (forall bn, ptr a' jp bn = ptr a jp bn) as Ep.
  { apply ptr_frame. intros k Hk. apply Hv. split; [done|]. left. by exists k. }
  split; [|split].
  - apply (file_frame a); [done| |done]. intros b Hb. rewrite Ed. by apply (gr_use _ _ _ _ _ G).
  - unfold contents, bytes. apply list_fmap_ext. intros k o Ho%lookup_seqZ. unfold byte_at. rewrite Ep. pose proof (fo_size _ _ _ Hf).
    assert (ptr a jp (o / 512) <> 0) as Hn by (apply (fo_mapped _ _ _ Hf); dlia).
    rewrite Hv; [done|]. split; [done|]. right. exists (o / 512). split; [|done]. unfold MAXFILE, NINDIRECT in *. dlia.
  - intros b Ho Hj. assert (owns a jp b) as Hja.
    { destruct Hj as [Hb [Hk|(bn & Hn & Hp)]]; (split; [done|]); [by left|right]. exists bn. by rewrite <- Ep. }
    destruct (gr_owns _ _ _ _ _ G b Ho) as [H|[_ H]]; [by apply (Hdis b)|]. destruct (owns_data a sb jp b Hf Hja) as [_ Hu]. rewrite Ed in Hu.
    congruence.
Qed.

(** The bytes of the grown file. *)
Lemma contents_stored a sb ip a' ip' off n src : file_ok a sb ip -> stored a ip a' ip' off n src -> 0 <= off <= i_size ip -> Z.of_nat (length src) = n ->
  off + n <= MAXFILE * 512 -> i_size ip' = Z.max (i_size ip) (off + n) -> contents a' ip' = splice (contents a ip) (Z.to_nat off) src.
Proof.
  intros Hf Hst Ho Hn Hmax Hs. pose proof (fo_size _ _ _ Hf) as Hsz. pose proof (length_contents a ip ltac:(lia)) as Hl.
  apply list_eq. intros k. destruct (decide (Z.of_nat k < i_size ip')) as [Hk|Hk].
  2:{ rewrite !lookup_ge_None_2; [done| |]; [unfold splice; rewrite !length_app, length_take, length_drop; lia|].
      unfold contents. rewrite length_bytes. lia. }
  unfold contents at 1. rewrite lookup_bytes by lia. rewrite Z.add_0_l. specialize (Hst (Z.of_nat k) ltac:(lia)).
  assert (forall j, Z.of_nat j < i_size ip -> contents a ip !! j = Some (byte_at a ip (Z.of_nat j))) as Hold.
  { intros j Hj. unfold contents. rewrite lookup_bytes by lia. by rewrite Z.add_0_l. }
  assert (Z.of_nat k < i_size ip -> ptr a ip (Z.of_nat k / 512) <> 0) as Hmp by (intros; apply (fo_mapped _ _ _ Hf); dlia).
  unfold splice. case_decide as Hin.
  - destruct Hst as [_ ->]. rewrite lookup_app_r by (rewrite length_take; lia). rewrite length_take. rewrite lookup_app_l by lia.
    replace (k - Z.to_nat off `min` length (contents a ip))%nat with (Z.to_nat (Z.of_nat k - off)) by lia.
    destruct (lookup_lt_is_Some_2 src (Z.to_nat (Z.of_nat k - off))) as [v ->]; [lia|done].
  - destruct (decide (Z.of_nat k < off)) as [Hlt|Hge].
    + rewrite lookup_app_l by (rewrite length_take; lia). rewrite lookup_take_lt by lia. rewrite Hold by lia. f_equal. apply Hst, Hmp. lia.
    + rewrite !lookup_app_r by (rewrite ?length_take; lia). rewrite length_take, lookup_drop.
      replace (Z.to_nat off + length src + (k - Z.to_nat off `min` length (contents a ip) - length src))%nat with k by lia. rewrite Hold by lia.
      f_equal. apply Hst, Hmp. lia.
Qed.

(** *** [writei] *)

Context (devsw_write : Z -> option (nat -> list Z -> Z -> Z -> prog kfs Z)).

(** What other files of the disk have to do with it. *)
Definition leaves_alone a sb ip a' ip' : Prop := forall jp, i_dev jp = i_dev ip -> file_ok a sb jp -> disjoint_files a ip jp ->
  file_ok a' sb jp /\ contents a' jp = contents a jp /\ disjoint_files a' ip' jp.

(** Storing the new size. *)
Lemma size_update H R n x a i ip sb l s : world H R (S n) x a i ip sb l -> (forall h, h ∈ H -> data_block sb h.2) -> 0 <= s <= MAXFILE * 512 ->
  (forall bn, 0 <= bn -> bn * 512 < s -> ptr a ip bn <> 0) ->
  exists x' a', Spec.run present (iset i (set_size s) ;; iupdate i) x a = Ok tt (x', a') /\ others i x x' /\
    icache x' !! i = Some (set_size s ip) /\ fs_ok a' (i_dev ip) sb /\ file_ok a' sb (set_size s ip) /\ (storable (set_size s ip) -> synced a' sb (set_size s ip)) /\
    (forall jp, i_dev jp = i_dev ip -> file_ok a sb jp -> file_ok a' sb jp /\ contents a' jp = contents a jp /\ forall b, owns a' jp b <-> owns a jp b) /\
    (forall o, 0 <= o < s -> byte_at a' ip o = byte_at a ip o) /\ (forall b, owns a' (set_size s ip) b <-> owns a ip b) /\
    (forall b, 0 <= b < sb_size sb -> in_use a' (i_dev ip) sb b = in_use a (i_dev ip) sb b) /\ exists l', txg present H R x' a' (i_dev ip) l' n.
Proof.
  intros [W1 W2 W3 W4 W5 W6] HH Hs Hm. rewrite run_iset. set (ip' := set_size s ip). set (x' := upd_inode i (set_size s) x).
  pose proof (file_sized a sb ip s W5 Hs Hm) as Hf. fold ip' in Hf. destruct (fk_inodes _ _ _ W4 _ (fo_inum _ _ _ W5)) as [Hr Hnb].
  rewrite (iupdate_ok present H R i ip' sb x' a l n); [| |by apply (tx_icache _ _ x)| | |].
  - destruct (written_ok a sb ip' W4 (fo_inum _ _ _ Hf) (fo_len _ _ _ Hf)) as (V1 & V2 & V3 & V4).
    destruct (written_file a sb ip' ip' W4 (fo_inum _ _ _ Hf) (fo_len _ _ _ Hf) eq_refl Hf) as (U1 & U2 & U3).
    eexists _, _. split; [done|]. split; [intros j Hj; cbn; by rewrite list_lookup_alter_ne|]. split; [by apply upd_inode_lookup|].
    split; [done|]. split; [done|]. split; [done|]. split; [|split; [|split; [done|split; [exact V3|]]]].
    + intros jp Ed Hj. by apply (written_file a sb ip' jp W4 (fo_inum _ _ _ Hf) (fo_len _ _ _ Hf)).
    + intros o Ho. assert (contents (written a ip' sb) ip' !! Z.to_nat o = contents a ip' !! Z.to_nat o) as E by (by rewrite U2).
      unfold contents in E. rewrite !lookup_bytes in E by (cbn; lia). injection E as E. rewrite Z2Nat.id, Z.add_0_l in E by lia. exact E.
    + eexists. apply tx_step. by apply (tx_icache _ _ x).
  - by apply upd_inode_lookup.
  - intros Hh%HH. by apply (db_inode _ _ Hh (i_inum ip) (fo_inum _ _ _ W5)).
  - done.
  - apply (fits_small sb); [apply W4|cbn; lia].
Qed.

Definition transfer (off n : Z) : list (Z * Z) := chunks (chunk_fuel n) off n.

Lemma stored_take a ip a' ip' off k src : stored a ip a' ip' off k src -> stored a ip a' ip' off k (take (Z.to_nat k) src).
Proof. intros Hs o Ho. specialize (Hs o Ho). case_decide; [|done]. by rewrite lookup_take_lt by lia. Qed.
Lemma storable_grown a sb ip ip' : storable ip -> (exists adr, ip' = with_addrs adr ip) -> forall s, fs_ok a (i_dev ip) sb -> file_ok a sb (set_size s ip') -> storable (set_size s ip').
Proof.
  intros [? ? ? ? ? ? ? ? ?] [adr ->] s Hfs Hf. assert (MAXFILE * 512 = 786432) as Emax by done. pose proof (fo_size _ _ _ Hf).
  split; try done; [lia| |apply Hf]. apply list.Forall_forall. intros b (k & Hk)%list_elem_of_lookup.
  assert (addr_at (set_size s (with_addrs adr ip)) k = b) as Hb by (unfold addr_at; by rewrite Hk).
  destruct (decide (b = 0)) as [->|Hnz]; [lia|]. rewrite <- Hb in Hnz |- *. destruct (fo_addr _ _ _ Hf k Hnz) as [Hd _].
  pose proof (db_range _ _ Hd). pose proof (sf_size _ (fk_fits _ _ _ Hfs)). unfold FSSIZE in *. lia.
Qed.

(** The end of [writei], after [k] bytes were stored: the size is brought up to
    date if the file grew. *)
Lemma writei_size i off k src H R x a ip sb l x1 a1 ip1 (full : bool) n : world H R 1 x1 a1 i ip1 sb l -> (forall h, h ∈ H -> data_block sb h.2) ->
  fs_ok a (i_dev ip) sb -> file_ok a sb ip -> grown sb a ip a1 ip1 -> others i x x1 -> stored a ip a1 ip1 off k src -> (k = n <-> full = true) ->
  (off + n <= i_size ip -> ip1 = ip) -> 0 <= off <= i_size ip -> 0 <= k <= n -> Z.of_nat (length src) = n -> off + n <= MAXFILE * 512 ->
  exists x' a' ip', Spec.run present (if ((0 <? n) || negb full) && (i_size ip1 <? off + k) then iset i (set_size (off + k)) ;; iupdate i else mret tt) x1 a1 = Ok tt (x', a') /\
    others i x x' /\ icache x' !! i = Some ip' /\ fs_ok a' (i_dev ip) sb /\ file_ok a' sb ip' /\
    contents a' ip' = splice (contents a ip) (Z.to_nat off) (take (Z.to_nat k) src) /\ (i_dev ip' = i_dev ip /\ i_type ip' = i_type ip) /\
    (k = n -> synced a sb ip -> storable ip -> synced a' sb ip') /\ leaves_alone a sb ip a' ip' /\ (no_space a1 ip sb -> no_space a' ip sb) /\
    (H = [] -> readable present a' (i_dev ip)).
Proof.
  intros V HH W4 W5 G1 O1 Hst Hfull Hsame Ho Hk Hn Hmax. pose proof V as [V1 V2 V3 V4 V5 V6]. pose proof (fo_size _ _ _ W5) as Hsz.
  assert (MAXFILE * 512 = 786432) as Emax by done.
  pose proof (gr_ip _ _ _ _ _ G1) as [adr Eip]. assert (i_dev ip1 = i_dev ip /\ i_size ip1 = i_size ip) as [Edev Esz] by (by rewrite Eip).
  rewrite Esz.
  apply stored_take in Hst. assert (Z.of_nat (length (take (Z.to_nat k) src)) = k) as Hlk by (rewrite length_take; lia).
  assert (((0 <? n) || negb full) && (i_size ip <? off + k) = (i_size ip <? off + k)) as ->.
  { destruct (Z.ltb_spec (i_size ip) (off + k)); [|by rewrite andb_false_r]. rewrite (proj2 (Z.ltb_lt 0 n)) by lia. done. }
  destruct (Z.ltb_spec (i_size ip) (off + k)) as [Hgrow|Hfit].
  - destruct (size_update H R 0 x1 a1 i ip1 sb l (off + k) V HH) as (x2 & a2 & -> & O2 & I2 & F2 & FO2 & S2 & J2 & B2 & Ow2 & Us2 & l2 & T2); [lia| |].
    { intros bn Hb Hs. destruct (decide (bn * 512 < i_size ip)) as [Hlt|Hge].
      - rewrite (gr_ptr _ _ _ _ _ G1); [by apply (fo_mapped _ _ _ W5)|unfold MAXFILE, NINDIRECT in *; lia|by apply (fo_mapped _ _ _ W5)].
      - specialize (Hst (bn * 512) ltac:(lia)). rewrite decide_True in Hst by lia. rewrite Z.div_mul in Hst by lia. apply Hst. }
    exists x2, a2, (set_size (off + k) ip1). split; [done|]. split; [intros j Hj; rewrite (O2 j Hj); by apply O1|]. split; [done|].
    rewrite <- Edev in *. split; [done|]. split; [done|].
    split; [|split; [by rewrite Eip|split; [|split; [|split]]]].
    + rewrite <- (contents_stored a sb ip a1 (set_size (off + k) ip1) off k _ W5 Hst); try done; [|lia|cbn; lia].
      unfold contents, bytes. apply list_fmap_ext. intros j o Hj%lookup_seqZ. cbn [set_size i_size] in Hj. apply B2. lia.
    + intros _ _ Hsto. apply S2. rewrite Edev in *. eapply storable_grown; eauto using gr_ip.
    + intros jp Ej Hj Hdis. rewrite Edev in *. destruct (grown_other sb a ip a1 ip1 jp G1 Hj Ej Hdis) as (J & Jc & Jd).
      destruct (J2 jp) as (K & Kc & Ko); [congruence|done|]. split; [done|]. split; [congruence|]. intros b Hb Hjb. rewrite Ow2 in Hb.
      rewrite Ko in Hjb. by apply (Jd b).
    + intros Hns b Hb. rewrite <- Edev, Us2 by done. rewrite Edev. by apply Hns.
    + intros ->. pose proof (tx_bufs _ _ _ _ _ _ _ _ T2). split; [apply T2|lia|apply T2].
  - exists x1, a1, ip1. split; [done|]. split; [done|]. split; [done|]. rewrite Edev in *. split; [done|]. split; [done|].
    split; [eapply contents_stored; try done; lia|]. split; [by rewrite Eip|].
    split; [|split; [intros jp Ej Hj Hdis; by apply (grown_other sb a ip)|split; [done|intros ->; pose proof (tx_bufs _ _ _ _ _ _ _ _ V2); split; [apply V2|lia|apply V2]]]].
    intros -> Hsy _. rewrite Hsame by lia. unfold synced in *. rewrite (gr_view _ _ _ _ _ G1); [done|].
    destruct (fk_inodes _ _ _ W4 _ (fo_inum _ _ _ W5)) as [Hr Hnb]. right. cbn [fst snd].
    assert (~ data_block sb (IBLOCK (i_inum ip) sb)) as Hnd by (intros Hd; by apply (db_inode _ _ Hd (i_inum ip) (fo_inum _ _ _ W5))).
    split; [done|]. split; [by apply W4|]. split; [done|]. by intros [Hd _]%(owns_data a sb ip _ W5).
Qed.

Lemma writei_ok i off n src R x a ip sb l :
  world [] R (S (length (transfer off n) + size (fresh_addrs ip (transfer off n)))) x a i ip sb l -> reserved R ip (transfer off n) ->
  i_type ip <> T_DEV -> 0 <= off <= i_size ip -> Z.of_nat (length src) = n -> off + n <= MAXFILE * 512 ->
  exists k x' a' ip', 0 <= k <= n /\ Spec.run present (writei devsw_write i src off n) x a = Ok (if decide (k = n) then n else -2) (x', a') /\
    others i x x' /\ icache x' !! i = Some ip' /\ fs_ok a' (i_dev ip) sb /\ file_ok a' sb ip' /\
    contents a' ip' = splice (contents a ip) (Z.to_nat off) (take (Z.to_nat k) src) /\ (i_dev ip' = i_dev ip /\ i_type ip' = i_type ip) /\
    (k = n -> synced a sb ip -> storable ip -> synced a' sb ip') /\ leaves_alone a sb ip a' ip' /\ (k = n -> readable present a' (i_dev ip)) /\ (k < n -> no_space a' ip sb).
Proof.
  intros W HR Ht Ho Hn Hmax. pose proof W as [W1 W2 W3 W4 W5 W6]. pose proof (fo_size _ _ _ W5) as Hsz.
  assert (MAXFILE * 512 = 786432) as Emax by done. unfold writei. rewrite (run_iat present i ip) by done. rewrite (proj2 (Z.eqb_neq _ _) Ht).
  rewrite u32_small by lia. rewrite (proj2 (Z.ltb_ge (i_size ip) off)), (proj2 (Z.ltb_ge (off + n) off)) by lia. cbn [orb].
  change (MAXFILE * Z.of_nat BSIZE) with (MAXFILE * 512). rewrite (proj2 (Z.ltb_ge (MAXFILE * 512) (off + n))) by lia. rewrite Spec.run_bind.
  pose proof (transfer_tiles off n ltac:(lia) ltac:(lia)) as Htl. fold (transfer off n) in Htl.
  destruct (writei_loop_ok i sb off n _ Htl ltac:(lia) Hmax R 0 x a ip l src) as (full & off' & x1 & a1 & ip1 & R1 & l1 & H1 & E & O1 & G1 & HH & V & Hsame & Hof & Hst & Hc); try done.
  { by rewrite Nat.add_0_r. }
  fold (transfer off n) in E |- *. rewrite E. clear E. rewrite (run_iat present i ip1) by apply V. rewrite Spec.run_bind.
  set (k := off' - off) in *. replace off' with (off + k) in * by lia.
  assert (k = n <-> full = true) as Hkf by (destruct Hc as [(-> & ? & _)|(-> & _ & ?)]; split; try done; lia).
  destruct (writei_size i off k src H1 R1 x a ip sb l1 x1 a1 ip1 full n V HH W4 W5 G1 O1 Hst Hkf) as (x2 & a2 & ip2 & -> & Q1 & Q2 & Q3 & Q4 & Q5 & Q6 & Q7 & Q8 & Q9 & Q10); try done; try lia.
  { intros Hfit. apply Hsame. intros c Hcin. pose proof (tiles_range _ _ _ c Htl Hcin). apply (ptr_addr a ip). apply (fo_mapped _ _ _ W5); dlia. }
  cbn [Spec.run mret prog_ret]. exists k, x2, a2, ip2. split; [lia|]. split.
  { do 2 f_equal. destruct (decide (k = n)) as [Hk|Hk]; [rewrite (proj1 Hkf Hk); apply s32_small; lia|].
    destruct full; [by destruct Hk; apply Hkf|done]. }
  do 8 (split; [done|]). split; destruct Hc as [(Hf & Hk & HHe)|(Hf & Hns & Hk)]; intros Hkn; try (apply Q10; done); try (apply Q9; done); lia.
Qed.

End writing.

(** ** The contract of [readi] and [writei] *)

Section contract.
Import Spec BlockIO.
Context (present : Z -> bool).
Context (devsw_read : Z -> option (nat -> Z -> Z -> prog kfs (Z * list Z))).
Context (devsw_write : Z -> option (nat -> list Z -> Z -> Z -> prog kfs Z)).
Implicit Types (a : astate) (x : kfs) (ip : inode) (sb : superblock) (l : log) (R : gset key).

Lemma read_splice (c : list Z) off src : 0 <= off <= Z.of_nat (length c) ->
  read_result (splice c (Z.to_nat off) src) off (Z.of_nat (length src)) = (Z.of_nat (length src), src).
Proof.
  intros Ho. unfold read_result, splice. rewrite !length_app, length_take, length_drop. rewrite (proj2 (Z.ltb_ge _ _)) by lia. f_equal; [lia|].
  replace (Z.to_nat (Z.min _ _)) with (length src) by lia. unfold slice. rewrite drop_app_length' by (rewrite length_take; lia).
  by rewrite take_app_length.
Qed.

(** C35: [readi] returns the bytes of the file and changes nothing.  On a file
    whose blocks are there, [readi(ip, dst, off, n)] stores the bytes from [off]
    up to [off+n] or the end of the file and returns how many they are; it
    returns -1 when [off] is past the end.  Neither the disk nor the cache nor
    any inode changes. *)
Theorem readi_correct i x a ip sb off n : icache x !! i = Some ip -> readable present a (i_dev ip) -> fs_ok a (i_dev ip) sb -> file_ok a sb ip ->
  i_type ip <> T_DEV -> 0 <= off -> 0 <= n -> off + n < 2 ^ 32 ->
  Spec.run present (readi devsw_read i off n) x a =
  Ok (if i_size ip <? off then (-1, [])
      else (Z.min n (i_size ip - off), slice (contents a ip) (Z.to_nat off) (Z.to_nat (Z.min n (i_size ip - off))))) (x, a).
Proof.
  intros Hi Hr Hfs Hf Ht Ho Hn Hw. rewrite (readi_ok present devsw_read i x a ip sb off n) by done.
  unfold read_result. rewrite length_contents by apply Hf. done.
Qed.

(** C6: [writei] overwrites the range and nothing else.  Inside a transaction
    with room, [writei(ip, src, off, n)] stores the first [k] bytes of [src] at
    [off], growing the file to [off+k] when that is past its end, and every other
    byte of the file stays.  It returns [n] when [k = n]; otherwise -2, and then
    the disk has no free block left.  The disk and the file stay well-formed, the
    inode on disk agrees with the cached one again, the other cached inodes do
    not change, and every other file of the disk keeps its blocks and bytes. *)
Theorem writei_correct i off n src R x a ip sb l :
  world present [] R (S (length (transfer off n) + size (fresh_addrs ip (transfer off n)))) x a i ip sb l -> reserved R ip (transfer off n) ->
  i_type ip <> T_DEV -> 0 <= off <= i_size ip -> Z.of_nat (length src) = n -> off + n <= MAXFILE * 512 ->
  exists k x' a' ip', 0 <= k <= n /\ Spec.run present (writei devsw_write i src off n) x a = Ok (if decide (k = n) then n else -2) (x', a') /\
    (k < n -> no_space a' ip sb) /\ others i x x' /\ icache x' !! i = Some ip' /\ fs_ok a' (i_dev ip) sb /\ file_ok a' sb ip' /\
    contents a' ip' = splice (contents a ip) (Z.to_nat off) (take (Z.to_nat k) src) /\
    (k = n -> synced a sb ip -> storable ip -> synced a' sb ip') /\
    (forall jp, i_dev jp = i_dev ip -> file_ok a sb jp -> disjoint_files a ip jp ->
       file_ok a' sb jp /\ contents a' jp = contents a jp /\ disjoint_files a' ip' jp).
Proof.
  intros W HR Ht Ho Hn Hmax.
  destruct (writei_ok present devsw_write i off n src R x a ip sb l W HR Ht Ho Hn Hmax) as (k & x' & a' & ip' & H1 & H2 & H3 & H4 & H5 & H6 & H7 & (H8 & H8') & H9 & H10 & H11 & H12).
  by exists k, x', a', ip'.
Qed.

(** What was written is read back.  A [writei] inside a transaction with
    room, followed by a [readi] of the same range, returns the number and the
    bytes written, unless the disk is full, in which case [writei] returned -2. *)
Theorem write_read_back i off n src R x a ip sb l :
  world present [] R (S (length (transfer off n) + size (fresh_addrs ip (transfer off n)))) x a i ip sb l -> reserved R ip (transfer off n) ->
  i_type ip <> T_DEV -> 0 <= off <= i_size ip -> Z.of_nat (length src) = n -> off + n <= MAXFILE * 512 ->
  match Spec.run present (r ← writei devsw_write i src off n; if r =? n then readi devsw_read i off n else mret (r, [])) x a with
  | Ok (r, bs) (x', a') => (r = n /\ bs = src) \/ (r = -2 /\ no_space a' ip sb)
  | _ => False
  end.
Proof.
  intros W HR Ht Ho Hn Hmax.
  destruct (writei_ok present devsw_write i off n src R x a ip sb l W HR Ht Ho Hn Hmax) as (k & x' & a' & ip' & H1 & H2 & H3 & H4 & H5 & H6 & H7 & (H8 & H8') & H9 & H10 & H11 & H12).
  rewrite Spec.run_bind, H2. destruct (decide (k = n)) as [->|Hk].
  - rewrite Z.eqb_refl. assert (MAXFILE * 512 = 786432) as Emax by done.
    rewrite (readi_ok present devsw_read i x' a' ip' sb off n); try done; rewrite ?H8, ?H8'; try done; [|by apply H11|lia..].
    rewrite H7, take_ge by lia. rewrite <- Hn, read_splice; [by left|]. rewrite length_contents; [lia|apply W].
  - rewrite (proj2 (Z.eqb_neq (-2) n)) by lia. cbn [Spec.run mret prog_ret]. right. split; [done|]. apply H12. lia.
Qed.
End contract.

(** ** A small file *)

Module DataSample.
Import Spec BlockIO Sample.

(** Blocks 0 to 49 are in use; the file has the address block 48 and the [n]
    first bytes of the data block 49. *)
Definition one_block (n : Z) : inode := set_size n (with_addrs (48 :: replicate 11 0) sample_inode).
Definition fs_one (n : Z) : kfs := {| disks := disks fs0; icache := one_block n :: replicate 3 inode_zero; rootdir := None; havesysfs := true |}.
Definition drive_one (bs : list Z) : astate :=
  {| amedia := {[ (0, 47) := replicate 6 255 ++ 3 :: replicate 505 0; (0, 48) := store_le zero_block 0 4 49; (0, 49) := bs ]};
     pin := ∅; abudget := None |}.
Definition greeting : list Z := [104; 101; 108; 108; 111].
Definition ip1 : inode := one_block 5.
Definition fs1 : kfs := fs_one 5.
Definition drive1 : astate := drive_one (greeting ++ replicate 507 0).
Definition room : gset key := {[ (0, 47); (0, 48) ]}.

Lemma is_bitmap_sb0 b : is_bitmap sb0 b <-> b = 47.
Proof.
  unfold is_bitmap, BBLOCK, BPB. cbn [bmapstart sb_size sb0]. split; [intros (c & Hc & ->); dlia|]. intros ->. exists 0. split; [lia|done].
Qed.
(** Facts about every block, by evaluation. *)

Section one.
Context (bs : list Z) (Hbs : length bs = BSIZE) (n : Z) (Hn : 0 <= n <= 512).
Lemma len1 b : length (view (drive_one bs) (0, b)) = BSIZE.
Proof.
  unfold view, on_media, drive_one. cbn [pin amedia]. rewrite lookup_empty.
  destruct (decide (b = 47)) as [->|H1]; [done|]. destruct (decide (b = 48)) as [->|H2]; [done|]. destruct (decide (b = 49)) as [->|H3]; [done|].
  rewrite !lookup_insert_ne by congruence. rewrite lookup_singleton_ne by congruence. done.
Qed.
Lemma fs_one_ok : fs_ok (drive_one bs) 0 sb0.
Proof.
  split; [apply sb0_fits|apply len1| |].
  - intros b Hb Hd. destruct (decide (b < 50)) as [Hlt|Hge]; [apply (every 50 (in_use (drive_one bs) 0 sb0)); [vm_compute; reflexivity|lia]|].
    destruct Hd. cbn [sb_size sb0] in Hb. split; [cbn; lia|rewrite is_bitmap_sb0; lia|cbn; lia|]. intros inum Hi. unfold IBLOCK, IPB.
    cbn [ninodes inodestart sb0] in *. dlia.
  - intros inum Hi. rewrite is_bitmap_sb0. unfold IBLOCK, IPB. cbn [ninodes inodestart sb_size sb0] in *. dlia.
Qed.
Lemma addr1 k : addr_at (one_block n) k = if decide (k = 0%nat) then 48 else 0.
Proof. do 12 (destruct k as [|k]; [done|]). done. Qed.
Lemma ptr1 bn : 0 <= bn < MAXFILE -> ptr (drive_one bs) (one_block n) bn = if decide (bn = 0) then 49 else 0.
Proof.
  intros Hb. assert ((ptr (drive_one bs) (one_block n) bn =? if bn =? 0 then 49 else 0) = true) as E%Z.eqb_eq.
  { apply (every MAXFILE (fun bn => ptr (drive_one bs) (one_block n) bn =? if bn =? 0 then 49 else 0)); [vm_compute; reflexivity|done]. }
  rewrite E. by destruct (Z.eqb_spec bn 0); case_decide.
Qed.
Lemma data1 b : b = 48 \/ b = 49 -> data_block sb0 b /\ in_use (drive_one bs) 0 sb0 b = true.
Proof.
  intros Hb. split; [|by destruct Hb as [-> | ->]; vm_compute]. split; [cbn; lia|rewrite is_bitmap_sb0; lia|cbn; lia|]. intros inum Hi.
  unfold IBLOCK, IPB. cbn [ninodes inodestart sb0] in *. dlia.
Qed.
Lemma file_one_ok : file_ok (drive_one bs) sb0 (one_block n).
Proof.
  split; try done; try (cbn; unfold MAXFILE, NINDIRECT; lia).
  - intros k. rewrite addr1. case_decide; [|done]. intros _. apply data1. by left.
  - intros bn Hb. rewrite ptr1 by done. case_decide; [|done]. intros _. apply data1. by right.
  - intros j k. rewrite !addr1. repeat case_decide; subst; done.
  - intros b c Hb Hc. rewrite !ptr1 by done. repeat case_decide; subst; done.
  - intros k b Hb. rewrite addr1, ptr1 by done. repeat case_decide; lia.
  - intros bn Hb Hs. cbn in Hs. rewrite ptr1 by (unfold MAXFILE, NINDIRECT; lia). case_decide; lia.
Qed.
End one.
Lemma readable_one bs : readable Concrete.only0 (drive_one bs) 0.
Proof. split; [intros h v; cbn [drive_one pin]; by rewrite lookup_empty|vm_compute; lia|done]. Qed.
Lemma fs1_ok : fs_ok drive1 0 sb0.
Proof. by apply fs_one_ok. Qed.
Lemma file1_ok : file_ok drive1 sb0 ip1.
Proof. by apply file_one_ok. Qed.
Definition more : list Z := replicate 600 7.
Lemma world1 : world Concrete.only0 [] room (S (length (transfer 3 600) + size (fresh_addrs ip1 (transfer 3 600)))) fs1 drive1 0 ip1 sb0 (Concrete.log0 40 1).
Proof.
  split; [done| |done|apply fs1_ok|apply file1_ok|].
  - split; try (vm_compute; (reflexivity || congruence || lia)).
  - intros b ->%is_bitmap_sb0. apply elem_of_union_l, elem_of_singleton. done.
Qed.
Lemma reserved1 : reserved room ip1 (transfer 3 600).
Proof. intros c _. unfold ip1. rewrite addr1. case_decide; [|done]. intros _. apply elem_of_union_r, elem_of_singleton. done. Qed.

Lemma readi_correct_witness : Spec.run Concrete.only0 (readi (fun _ => None) 0 1 100) fs1 drive1 = Ok (4, [101; 108; 108; 111]) (fs1, drive1).
Proof.
  rewrite (readi_correct Concrete.only0 (fun _ => None) 0 fs1 drive1 ip1 sb0 1 100);
    [vm_compute; reflexivity|done|apply readable_one|apply fs1_ok|apply file1_ok|done|lia..].
Defined.
Lemma writei_correct_witness : exists k x' a' ip', 0 <= k <= 600 /\
  Spec.run Concrete.only0 (writei (fun _ => None) 0 more 3 600) fs1 drive1 = Ok (if decide (k = 600) then 600 else -2) (x', a') /\
  (k < 600 -> no_space a' ip1 sb0) /\ contents a' ip' = splice (contents drive1 ip1) 3 (take (Z.to_nat k) more).
Proof.
  destruct (writei_correct Concrete.only0 (fun _ => None) 0 3 600 more room fs1 drive1 ip1 sb0 (Concrete.log0 40 1) world1 reserved1)
    as (k & x' & a' & ip' & H1 & H2 & H3 & _ & _ & _ & _ & H4 & _); [done|cbn; lia|done|unfold MAXFILE, NINDIRECT; lia|].
  exists k, x', a', ip'. exact (conj H1 (conj H2 (conj H3 H4))).
Defined.
Lemma write_read_back_witness :
  match Spec.run Concrete.only0 (r ← writei (fun _ => None) 0 more 3 600; if r =? 600 then readi (fun _ => None) 0 3 600 else mret (r, [])) fs1 drive1 with
  | Ok (r, bs) (x', a') => (r = 600 /\ bs = more) \/ (r = -2 /\ no_space a' ip1 sb0)
  | _ => False
  end.
Proof.
  apply (write_read_back Concrete.only0 (fun _ => None) (fun _ => None) 0 3 600 more room fs1 drive1 ip1 sb0 (Concrete.log0 40 1) world1 reserved1);
    [done|cbn; lia|done|unfold MAXFILE, NINDIRECT; lia].
Defined.
End DataSample.
