(* ===== verification/Dir.v ===== *)
(** Directories and path names ([dirlookup], [dirlink], [namex] of [fs.c]).

    A directory is the list of entries its contents decode to, and the disk as a
    whole a graph of inodes with named edges.  [dirlookup] finds the first entry of
    a name and [dirlink] adds one; a path walk follows the edges the path names, in
    the disk's graph, whatever the inode cache holds: the cache only decides which
    slot answers. *)

From S2P Require Import Prelude Params CString Bio Disk Log Fs FsFormat FsOps FsData.
Import Spec BlockIO.
Local Open Scope Z_scope.

(** ** Entries *)

(** Inode number and name of each entry; 0 marks a free one. *)
Definition entry_at (c : list Z) (k : nat) : Z * list Z :=
  let de := slice c (16 * k) 16 in (de_inum de, until0 (de_name de)).
Definition dirents (c : list Z) : list (Z * list Z) := entry_at c <$> seq 0 (length c / 16).
Definition is_entry (n : list Z) (e : Z * list Z) : bool := negb (e.1 =? 0) && bool_decide (e.2 = n).
(** The first entry of that name. *)
Definition dir_find (c n : list Z) : option (nat * Z) := (fun ke => (ke.1, ke.2.1)) <$> scan (is_entry n) (dirents c).
Definition c_dotdot : list Z := [46; 46].

Lemma namecmp_zero name de : length name = DIRSIZ -> length de = 16%nat ->
  exists c, namecmp name (de_name de) = Some c /\ (c = 0 <-> until0 (de_name de) = until0 name).
Proof.
  intros Hn Hd. unfold namecmp, DIRSIZ in *. assert (length (de_name de) = 14%nat) as Hl by (unfold de_name, DIRSIZ; rewrite length_slice; lia).
  destruct (strncmp_loop_zero 14 name (de_name de)) as (r & E & H); [lia|lia|]. exists r. split; [done|].
  rewrite H, !take_ge by lia. split; intros E'; by rewrite E'.
Qed.
Lemma dotdot_cmp de : length de = 16%nat -> exists c, namecmp dotdot (de_name de) = Some c /\ (c = 0 -> until0 (de_name de) = c_dotdot).
Proof.
  intros Hd. assert (length (de_name de) = 14%nat) as Hl by (unfold de_name, DIRSIZ; rewrite length_slice; lia).
  destruct (de_name de) as [|p [|q [|r l]]]; try discriminate Hl. unfold namecmp, dotdot, DIRSIZ. cbn [Kernel.strncmp_loop].
  change (46 =? 0) with false. change (0 =? 0) with true. cbn [negb andb].
  destruct (Z.eqb_spec 46 p) as [<-|Hp]; [|exists (46 - p); split; [reflexivity|lia]].
  destruct (Z.eqb_spec 46 q) as [<-|Hq]; [|exists (46 - q); split; [reflexivity|lia]].
  exists (0 - r). split; [reflexivity|]. intros Hr. assert (r = 0) as -> by lia. reflexivity.
Qed.

Lemma seq_S k m : seq k (S m) = k :: seq (S k) m.
Proof. done. Qed.
Lemma scan_cons {A} (P : A -> bool) y l : scan P (y :: l) = if P y then Some (0%nat, y) else (fun ke => (S ke.1, ke.2)) <$> scan P l.
Proof. unfold scan. cbn [list_find]. destruct (P y); cbn; [done|]. by destruct (list_find P l) as [[? ?]|]. Qed.

Lemma dir_offs_eq sz : sz mod 16 = 0 -> 0 <= sz -> dir_offs sz = (fun k => Z.of_nat (DIRENT_SIZE * k)) <$> seq 0 (Z.to_nat sz / 16).
Proof.
  intros Hm Hs. unfold dir_offs, DIRENT_SIZE. f_equal. f_equal. change (Z.of_nat 16) with 16.
  change (Z.to_nat sz / 16)%nat with (Z.to_nat sz / Z.to_nat 16)%nat.
  rewrite <- Z2Nat.inj_div by lia. f_equal. dlia. Qed.

Section lookup.
Context (present : Z -> bool).
Context (devsw_read : Z -> option (nat -> Z -> Z -> prog kfs (Z * list Z))).
Implicit Types (a : astate) (x : kfs) (ip : inode) (sb : superblock).

(** A directory of the disk, through an inode. *)
Record is_dir a sb ip : Prop := {
  id_fs : fs_ok a (i_dev ip) sb;
  id_file : file_ok a sb ip;
  id_type : i_type ip = T_DIR;
  id_size : i_size ip mod 16 = 0 }.

Lemma dir_length a sb ip : is_dir a sb ip -> Z.of_nat (length (contents a ip)) = i_size ip.
Proof. intros [_ F _ _]. apply length_contents. apply (fo_size _ _ _ F). Qed.
Lemma dir_small a sb ip : is_dir a sb ip -> i_size ip < 2 ^ 31.
Proof. intros [_ F _ _]. pose proof (fo_size _ _ _ F). unfold MAXFILE, NINDIRECT in *. lia. Qed.

Lemma read_dirent_ok {A} dp k x a ip sb (f : list Z -> prog kfs A) : icache x !! dp = Some ip -> readable present a (i_dev ip) -> is_dir a sb ip ->
  16 * Z.of_nat k + 16 <= i_size ip ->
  Spec.run present (read_dirent devsw_read dp (16 * Z.of_nat k) ≫= f) x a = Spec.run present (f (slice (contents a ip) (16 * k) 16)) x a.
Proof.
  intros Hi Hr Hd Hk. unfold read_dirent. rewrite Spec.run_bind, Spec.run_bind. pose proof (dir_small _ _ _ Hd).
  pose proof (dir_length _ _ _ Hd) as Hl.
  destruct Hd as [Hfs Hf Ht _]. assert (i_type ip <> T_DEV) as Ht' by (rewrite Ht; done).
  rewrite (readi_ok present devsw_read dp x a ip sb (16 * Z.of_nat k) (Z.of_nat DIRENT_SIZE) Hi Hr Hfs Hf Ht'); try (unfold DIRENT_SIZE; lia).
  unfold read_result. rewrite Hl, (proj2 (Z.ltb_ge _ _)) by lia. unfold DIRENT_SIZE. rewrite Z.min_l by lia. cbn [Z.of_nat].
  change (Z.of_nat 16) with 16. rewrite Z.eqb_refl. cbn [Spec.run mret prog_ret]. do 2 f_equal. f_equal; lia.
Qed.

(** The mounted root's parent directory is the root itself. *)
Definition rooted a dp ip : Prop := has (i_flags ip) I_MOUNTROOT = true ->
  mountparent ip = Some dp /\ (exists k, dir_find (contents a ip) c_dotdot = Some (k, i_inum ip)).

(** The loop from the [k]th entry on. *)
Lemma dirlookup_loop_ok dp name x a ip sb m : icache x !! dp = Some ip -> readable present a (i_dev ip) -> is_dir a sb ip -> length name = DIRSIZ -> forall k,
  16 * Z.of_nat (k + m) <= i_size ip ->
  (forall j e, scan (is_entry (until0 name)) (entry_at (contents a ip) <$> seq k m) = Some (j, e) -> until0 name = c_dotdot ->
     has (i_flags ip) I_MOUNTROOT = true -> mountparent ip = Some dp /\ e.1 = i_inum ip) ->
  Spec.run present (dirlookup_loop devsw_read dp name ((fun k => Z.of_nat (DIRENT_SIZE * k)) <$> seq k m)) x a =
  match scan (is_entry (until0 name)) (entry_at (contents a ip) <$> seq k m) with
  | Some (j, e) => Spec.run present (i ← iget (i_dev ip) e.1; mret (Some (i, 16 * Z.of_nat (k + j)))) x a
  | None => Ok None (x, a)
  end.
Proof.
  intros Hi Hr Hd Hn. induction m as [|m IH]; intros k Hk Hdd; [done|]. rewrite seq_S in *. cbn [fmap list_fmap dirlookup_loop] in *.
  rewrite scan_cons in *.
  replace (Z.of_nat (DIRENT_SIZE * k)) with (16 * Z.of_nat k) by (unfold DIRENT_SIZE; lia).
  rewrite (read_dirent_ok dp k x a ip sb _ Hi Hr Hd) by lia. set (de := slice (contents a ip) (16 * k) 16).
  assert (is_entry (until0 name) (entry_at (contents a ip) k) = negb (de_inum de =? 0) && bool_decide (until0 (de_name de) = until0 name)) as EI by done.
  assert ((entry_at (contents a ip) k).1 = de_inum de) as E1 by done.
  assert (length de = 16%nat) as Hde by (unfold de; rewrite length_slice; [done|pose proof (dir_length _ _ _ Hd); lia]). clearbody de.
  set (rest := scan (is_entry (until0 name)) (entry_at (contents a ip) <$> seq (S k) m)) in *.
  assert (match (fun ke => (S ke.1, ke.2)) <$> rest with
      | Some (j, e) => Spec.run present (i ← iget (i_dev ip) e.1; mret (Some (i, 16 * Z.of_nat (k + j)))) x a | None => Ok None (x, a) end =
    match rest with Some (j, e) => Spec.run present (i ← iget (i_dev ip) e.1; mret (Some (i, 16 * Z.of_nat (S k + j)))) x a | None => Ok None (x, a) end) as Hsh.
  { destruct rest as [[j e]|]; [|done]. cbn. by rewrite Nat.add_succ_r. }
  assert (is_entry (until0 name) (entry_at (contents a ip) k) = false -> Spec.run present (dirlookup_loop devsw_read dp name
      ((fun k => Z.of_nat (DIRENT_SIZE * k)) <$> seq (S k) m)) x a = match (fun ke => (S ke.1, ke.2)) <$> rest with
      | Some (j, e) => Spec.run present (i ← iget (i_dev ip) e.1; mret (Some (i, 16 * Z.of_nat (k + j)))) x a | None => Ok None (x, a) end) as Hgo.
  { intros EF. rewrite Hsh. apply IH; [lia|]. intros j e E. fold rest in E. apply (Hdd (S j) e). by rewrite EF, E. }
  destruct (Z.eqb_spec (de_inum de) 0) as [E0|E0]; cbn [negb andb] in EI.
  { rewrite EI. by apply Hgo. }
  destruct (namecmp_zero name de Hn Hde) as (c & -> & Hc). destruct (dotdot_cmp de Hde) as (dd & -> & Hdot).
  destruct (Z.eqb_spec c 0) as [->|Hc0].
  - rewrite bool_decide_eq_true_2 in EI by (by apply Hc). rewrite EI in Hdd |- *. rewrite (run_iat present dp ip) by done. rewrite Nat.add_0_r, E1.
    destruct ((dd =? 0) && has (i_flags ip) I_MOUNTROOT) eqn:Em; [|done]. apply andb_prop in Em as [Ed%Z.eqb_eq Em].
    destruct (Hdd 0%nat _ eq_refl) as [-> Ee]; [rewrite <- (proj1 Hc eq_refl); by apply Hdot|done|].
    rewrite (run_iat present dp ip) by done. by rewrite <- E1, Ee.
  - rewrite bool_decide_eq_false_2 in EI by (by intros ?%Hc). rewrite EI. by apply Hgo.
Qed.

(** [dirlookup] finds the first entry of the name and returns its inode. *)
Lemma dirlookup_ok dp name x a ip sb : icache x !! dp = Some ip -> readable present a (i_dev ip) -> is_dir a sb ip -> length name = DIRSIZ -> rooted a dp ip ->
  Spec.run present (dirlookup devsw_read dp name) x a =
  match dir_find (contents a ip) (until0 name) with
  | Some (k, inum) => Spec.run present (i ← iget (i_dev ip) inum; mret (Some (i, 16 * Z.of_nat k))) x a
  | None => Ok None (x, a)
  end.
Proof.
  intros Hi Hr Hd Hn Hroot. unfold dirlookup. rewrite (run_iat present dp ip) by done. pose proof (dir_length _ _ _ Hd) as Hl.
  pose proof Hd as [_ _ Ht Hm]. rewrite Ht.
  cbn [Z.eqb Pos.eqb negb]. change (T_DIR =? T_DIR) with true. cbn [negb]. rewrite dir_offs_eq by lia.
  assert (Z.to_nat (i_size ip) = length (contents a ip)) as -> by lia.
  rewrite (dirlookup_loop_ok dp name x a ip sb _ Hi Hr Hd Hn).
  - unfold dir_find, dirents. by destruct (scan _ _) as [[k e]|].
  - rewrite Nat.add_0_l. pose proof (Nat.Div0.mul_div_le (length (contents a ip)) 16). lia.
  - intros j e E Hdd Hmr. destruct (Hroot Hmr) as [Hp (k & Ek)]. split; [done|]. unfold dir_find, dirents in Ek. rewrite <- Hdd, E in Ek.
    by injection Ek.
Qed.
End lookup.

(** ** Adding an entry *)

(** The first free entry, or the end. *)
Definition free_place (c : list Z) : nat := match scan (fun e => e.1 =? 0) (dirents c) with Some (k, _) => k | None => length (dirents c) end.

Lemma length_dirents c : length (dirents c) = (length c / 16)%nat.
Proof. unfold dirents. by rewrite length_fmap, length_seq. Qed.
Lemma lookup_dirents c k : dirents c !! k = if decide (k < length c / 16)%nat then Some (entry_at c k) else None.
Proof.
  unfold dirents. rewrite list_lookup_fmap. case_decide as H; [by rewrite lookup_seq_lt by done|]. by rewrite lookup_seq_ge by lia.
Qed.
Lemma free_place_le c : (free_place c <= length c / 16)%nat.
Proof.
  unfold free_place. rewrite <- length_dirents. destruct (scan _ _) as [[k e]|] eqn:E; [|done]. apply scan_Some in E as (H & _).
  apply lookup_lt_Some in H. lia.
Qed.
Lemma free_place_free c e : dirents c !! free_place c = Some e -> e.1 = 0.
Proof.
  unfold free_place. destruct (scan _ _) as [[k f]|] eqn:E.
  - apply scan_Some in E as (H & H0%Z.eqb_eq & _). rewrite H. by intros [= <-].
  - rewrite lookup_ge_None_2 by done. done.
Qed.

(** A new entry in a directory. *)
Lemma slice_entry (c de : list Z) k j : length de = 16%nat -> (16 * k <= length c)%nat ->
  slice (splice c (16 * k) de) (16 * j) 16 = if decide (j = k) then de else slice c (16 * j) 16.
Proof.
  intros Hd Hk. unfold slice, splice. rewrite Hd. case_decide as Hj.
  - subst j. rewrite drop_app_length' by (rewrite length_take; lia). by rewrite take_app_length'.
  - apply list_eq. intros o. destruct (decide (o < 16)%nat) as [Ho|Ho]; [|by rewrite !lookup_take_ge by lia].
    rewrite !lookup_take_lt, !lookup_drop by lia.
    destruct (decide (j < k)%nat) as [Hlt|Hge].
    + rewrite lookup_app_l by (rewrite length_take; lia). by rewrite lookup_take_lt by lia.
    + rewrite lookup_app_r by (rewrite length_take; lia). rewrite length_take, lookup_app_r by lia. rewrite lookup_drop. f_equal. lia.
Qed.
Lemma dirents_splice (c de : list Z) k : length de = 16%nat -> (length c mod 16 = 0)%nat -> (k <= length c / 16)%nat -> forall j,
  dirents (splice c (16 * k) de) !! j = if decide (j = k) then Some (de_inum de, until0 (de_name de)) else dirents c !! j.
Proof.
  intros Hd Hm Hk j. rewrite !lookup_dirents. pose proof (Nat.div_mod_eq (length c) 16) as Hq. assert (16 * k <= length c)%nat as Hkc by lia.
  assert (length (splice c (16 * k) de) = Nat.max (length c) (16 * (k + 1)))%nat as ->.
  { unfold splice. rewrite !length_app, length_take, length_drop. lia. }
  assert (Nat.max (length c) (16 * (k + 1)) / 16 = Nat.max (length c / 16) (k + 1))%nat as ->.
  { assert (Nat.max (length c) (16 * (k + 1)) = Nat.max (length c / 16) (k + 1) * 16)%nat as -> by lia. by apply Nat.div_mul. }
  unfold entry_at. rewrite (slice_entry c de k j Hd Hkc). repeat case_decide; subst; try done; lia.
Qed.

(** A search sees only what passes its test. *)
Lemma scan_ext {A} (P : A -> bool) l l' : (forall j y, P y = true -> l !! j = Some y <-> l' !! j = Some y) -> scan P l = scan P l'.
Proof.
  intros H. destruct (scan P l) as [[k y]|] eqn:E; symmetry.
  - apply scan_Some in E as (Hk & Hy & Hf). apply scan_Some. split; [by apply H|]. split; [done|]. intros j z Hj Hlt. destruct (P z) eqn:Ez; [|done].
    rewrite <- (Hf j z); [done|by apply H|done].
  - rewrite scan_None in E. apply scan_None. intros j z Hj. destruct (P z) eqn:Ez; [|done]. rewrite <- (E j z); [done|by apply H].
Qed.
Lemma dir_find_added c de : length de = 16%nat -> (length c mod 16 = 0)%nat -> de_inum de <> 0 -> let c' := splice c (16 * free_place c) de in let n := until0 (de_name de) in
  (dir_find c n = None -> dir_find c' n = Some (free_place c, de_inum de)) /\ forall n', n' <> n -> dir_find c' n' = dir_find c n'.
Proof.
  intros Hd Hm H0 c' n. pose proof (dirents_splice c de (free_place c) Hd Hm (free_place_le c)) as HL. fold c' n in HL. split.
  - unfold dir_find. intros E%fmap_None. rewrite scan_None in E.
    assert (scan (is_entry n) (dirents c') = Some (free_place c, (de_inum de, n))) as ->; [|done].
    apply scan_Some. rewrite HL, decide_True by done. split; [done|]. split.
    + unfold is_entry. cbn [fst snd]. rewrite bool_decide_eq_true_2 by done. by rewrite (proj2 (Z.eqb_neq _ _)).
    + intros j y Hj Hlt. rewrite HL, decide_False in Hj by lia. by apply (E j).
  - intros n' Hn. unfold dir_find. f_equal. apply scan_ext. intros j y [Hy0 Hy%bool_decide_eq_true]%andb_prop. rewrite HL. case_decide as Hj; [|done].
    subst j. split; [intros [= <-]; done|]. intros Hf%free_place_free. rewrite Hf in Hy0. done.
Qed.

(** The entry that [dirlink] stores. *)
Lemma make_dirent_fields name inum : length name = DIRSIZ -> 0 <= inum < 65536 ->
  length (make_dirent name inum) = 16%nat /\ de_inum (make_dirent name inum) = inum /\ until0 (de_name (make_dirent name inum)) = until0 name.
Proof.
  intros Hn Hi. assert (length (until0 name) <= 14)%nat as Hu.
  { unfold DIRSIZ in Hn. rewrite <- Hn. clear. induction name as [|c l IH]; cbn; [lia|]. destruct (c =? 0); cbn; lia. }
  unfold make_dirent, de_inum, de_name, load_le, slice, DIRSIZ.
  assert (length (take 14 (until0 name ++ replicate 14 0)) = 14%nat) as Hl by (rewrite length_take, length_app, length_replicate; lia). split_and!.
  - rewrite length_app, length_le_bytes, Hl. done.
  - rewrite drop_0, take_app_length' by (by rewrite length_le_bytes). rewrite le_num_bytes. apply Z.mod_small. exact Hi.
  - rewrite drop_app_length' by (by rewrite length_le_bytes). rewrite take_take, Nat.min_id.
    destruct (decide (length (until0 name) = 14%nat)) as [E|E].
    + rewrite take_app_length' by done. clear. pose proof (until0_nonzero name) as H. induction H as [|c l Hc _ IH]; cbn; [done|].
      rewrite (proj2 (Z.eqb_neq c 0) Hc). by f_equal.
    + assert (exists r, take 14 (until0 name ++ replicate 14 0) = until0 name ++ 0 :: r) as [r ->]; [|apply until0_app, until0_nonzero].
      rewrite take_app_ge by lia. exists (replicate (13 - length (until0 name)) 0). f_equal.
      rewrite take_replicate. replace (14 - length (until0 name))%nat with (S (13 - length (until0 name))) by lia. rewrite Nat.min_l by lia. done.
Qed.

Section link.
Context (present : Z -> bool).
Context (devsw_read : Z -> option (nat -> Z -> Z -> prog kfs (Z * list Z))).
Context (devsw_write : Z -> option (nat -> list Z -> Z -> Z -> prog kfs Z)).
Implicit Types (a : astate) (x : kfs) (ip : inode) (sb : superblock).

Lemma free_dirent_loop dp x a ip sb m : icache x !! dp = Some ip -> readable present a (i_dev ip) -> is_dir a sb ip -> forall k,
  16 * Z.of_nat (k + m) <= i_size ip ->
  Spec.run present (free_dirent devsw_read dp (16 * Z.of_nat k) ((fun k => Z.of_nat (DIRENT_SIZE * k)) <$> seq k m)) x a =
  Ok (16 * Z.of_nat (k + match scan (fun e => e.1 =? 0) (entry_at (contents a ip) <$> seq k m) with Some (j, _) => j | None => m end)) (x, a).
Proof.
  intros Hi Hr Hd. induction m as [|m IH]; intros k Hk; [by rewrite Nat.add_0_r|]. rewrite seq_S. cbn [fmap list_fmap free_dirent]. rewrite scan_cons.
  replace (Z.of_nat (DIRENT_SIZE * k)) with (16 * Z.of_nat k) by (unfold DIRENT_SIZE; lia).
  rewrite (read_dirent_ok present devsw_read dp k x a ip sb _ Hi Hr Hd) by lia. unfold entry_at at 1. cbn [fst].
  destruct (de_inum (slice (contents a ip) (16 * k) 16) =? 0); [by rewrite Nat.add_0_r|].
  replace (16 * Z.of_nat k + Z.of_nat DIRENT_SIZE) with (16 * Z.of_nat (S k)) by (unfold DIRENT_SIZE; lia).
  unfold fmap in IH. rewrite IH by lia. do 2 f_equal. destruct (scan _ _) as [[j e]|]; cbn [fmap option_fmap option_map fst snd]; lia.
Qed.
Lemma free_dirent_ok dp x a ip sb : icache x !! dp = Some ip -> readable present a (i_dev ip) -> is_dir a sb ip ->
  Spec.run present (free_dirent devsw_read dp 0 (dir_offs (i_size ip))) x a = Ok (16 * Z.of_nat (free_place (contents a ip))) (x, a).
Proof.
  intros Hi Hr Hd. pose proof (dir_length _ _ _ Hd) as Hl. pose proof (id_size _ _ _ Hd) as Hm. rewrite dir_offs_eq by lia.
  assert (Z.to_nat (i_size ip) = length (contents a ip)) as -> by lia.
  rewrite (free_dirent_loop dp x a ip sb _ Hi Hr Hd 0); [|pose proof (Nat.Div0.mul_div_le (length (contents a ip)) 16); lia].
  unfold free_place. rewrite length_dirents. unfold dirents. by destruct (scan _ _) as [[? ?]|].
Qed.

(** C40: a link that is made is found.  In a directory without the name,
    [dirlink] inside a transaction with room stores the entry in the first free
    place or at the end: afterwards the name leads to the inode, every other name
    leads where it did, the directory is in order and every other file keeps its
    blocks and bytes; or the disk is full, and the kernel panics. *)
Theorem dirlink_adds dp name inum R x a ip sb l : let k := free_place (contents a ip) in let off := 16 * Z.of_nat k in
  world present [] R (S (length (transfer off 16) + size (fresh_addrs ip (transfer off 16)))) x a dp ip sb l -> reserved R ip (transfer off 16) ->
  readable present a (i_dev ip) -> is_dir a sb ip -> rooted a dp ip -> length name = DIRSIZ -> 0 < inum < 65536 -> off + 16 <= MAXFILE * 512 ->
  dir_find (contents a ip) (until0 name) = None ->
  (exists x' a' ip', Spec.run present (dirlink devsw_read devsw_write dp name inum) x a = Ok 0 (x', a') /\ icache x' !! dp = Some ip' /\ others dp x x' /\
     is_dir a' sb ip' /\ dir_find (contents a' ip') (until0 name) = Some (k, inum) /\
     (forall n, n <> until0 name -> dir_find (contents a' ip') n = dir_find (contents a ip) n) /\ leaves_alone a sb ip a' ip') \/
  (exists x' a', Spec.run present (dirlink devsw_read devsw_write dp name inum) x a = Panic "dirlink" (x', a') /\ no_space a' ip sb).
Proof.
  intros k off W HR Hr Hd Hroot Hn Hi Hmax Hnone. pose proof (w_ip _ _ _ _ _ _ _ _ _ _ W) as Hip. pose proof (dir_length _ _ _ Hd) as Hl.
  destruct (make_dirent_fields name inum Hn) as (Hdl & Hdi & Hdn); [lia|]. set (de := make_dirent name inum) in *.
  assert (length (contents a ip) mod 16 = 0)%nat as Hm.
  { pose proof (id_size _ _ _ Hd) as Hs. rewrite <- Hl in Hs. apply Nat2Z.inj. rewrite Nat2Z.inj_mod. exact Hs. }
  pose proof (free_place_le (contents a ip)) as Hk. fold k in Hk. pose proof (Nat.div_mod_eq (length (contents a ip)) 16) as Hq.
  assert (i_type ip <> T_DEV) as Ht by (rewrite (id_type _ _ _ Hd); done).
  destruct (writei_ok present devsw_write dp off 16 de R x a ip sb l W HR Ht) as (w & x' & a' & ip' & H1 & H2 & H3 & H4 & H5 & H6 & H7 & (H8 & H8') & _ & H10 & _ & H12); [lia|by rewrite Hdl|lia|].
  assert (Spec.run present (dirlink devsw_read devsw_write dp name inum) x a =
    if decide (w = 16) then Ok 0 (x', a') else Panic "dirlink" (x', a')) as ER.
  { unfold dirlink. rewrite Spec.run_bind, (dirlookup_ok present devsw_read dp name x a ip sb Hip Hr Hd Hn Hroot), Hnone.
    rewrite (run_iat present dp ip) by done.
    rewrite Spec.run_bind, (free_dirent_ok dp x a ip sb Hip Hr Hd). fold k off de. change (Z.of_nat DIRENT_SIZE) with 16. rewrite Spec.run_bind, H2.
    by case_decide. }
  rewrite ER. case_decide as Hw; [left|right].
  - subst w. exists x', a', ip'. change (Z.to_nat 16) with 16%nat in H7. rewrite take_ge in H7 by (rewrite Hdl; lia).
    replace (Z.to_nat off) with (16 * k)%nat in H7 by lia. destruct (dir_find_added (contents a ip) de Hdl Hm) as [F1 F2]; [lia|]. fold k in F1, F2.
    rewrite <- H7, Hdn in *.
    rewrite Hdi in F1. split_and!; try done; [|by apply F1].
    split; [by rewrite H8|done|by rewrite H8', (id_type _ _ _ Hd)|]. rewrite <- (length_contents a' ip') by apply (fo_size _ _ _ H6). rewrite H7.
    unfold splice. rewrite !length_app, length_take, length_drop, Hdl. dlia.
  - exists x', a'. split; [done|]. apply H12. lia.
Qed.
End link.

(** ** The disk as a graph of directories *)

Section graph.
Context (present : Z -> bool).
Context (devsw_read : Z -> option (nat -> Z -> Z -> prog kfs (Z * list Z))).
Context (a : astate) (dev : Z) (sb : superblock).
Implicit Types (x : kfs) (ip : inode).

(** The inode as the disk has it. *)
Definition disk_inode (inum : Z) : inode :=
  decode_dinode (get_dinode (view a (dev, IBLOCK inum sb)) inum) (Inode dev inum 0 0 None None None 0 0 0 0 0 0 0 0 []).
Definition dir_of (inum : Z) : list Z := contents a (disk_inode inum).
Record graph : Prop := {
  gr_fs : fs_ok a dev sb;
  gr_readable : readable present a dev;
  gr_dir inum : 0 <= inum < ninodes sb -> i_type (disk_inode inum) = T_DIR -> file_ok a sb (disk_inode inum) /\ i_size (disk_inode inum) mod 16 = 0;
  gr_edge inum k e n : 0 <= inum < ninodes sb -> i_type (disk_inode inum) = T_DIR -> dirents (dir_of inum) !! k = Some (e, n) -> e <> 0 ->
    0 < e < ninodes sb /\ i_nlink (disk_inode e) <> 0 }.

(** Where the names of a path lead from an inode. *)
Fixpoint follow (inum : Z) (ns : list (list Z)) : option Z :=
  match ns with
  | [] => Some inum
  | n :: ns' => if i_type (disk_inode inum) =? T_DIR then '(_, e) ← dir_find (dir_of inum) n; follow e ns' else None
  end.

(** ** The inode cache over it *)

Definition agrees ip : Prop :=
  let d := disk_inode (i_inum ip) in i_type ip = i_type d /\ i_nlink ip = i_nlink d /\ i_size ip = i_size d /\ i_addrs ip = i_addrs d.
(** A referenced entry [i] of the cache; [lk] is the entry that is locked.  Only
    the root is mounted, on itself. *)
Record inode_in (lk : option nat) (i : nat) ip : Prop := {
  in_range : 0 <= i_inum ip < ninodes sb;
  in_busy : has (i_flags ip) I_BUSY = bool_decide (lk = Some i);
  in_point : has (i_flags ip) I_MOUNTPOINT = true -> mountroot ip = Some i;
  in_root : has (i_flags ip) I_MOUNTROOT = true -> mountparent ip = Some i /\ exists k, dir_find (dir_of (i_inum ip)) c_dotdot = Some (k, i_inum ip);
  in_valid : has (i_flags ip) I_VALID = true -> agrees ip }.
Record cached (lk : option nat) x : Prop := {
  ca_ok : icache_ok (icache x);
  ca_sb : getsuperblock_of (disks x) dev = Some sb;
  ca_in i ip : icache x !! i = Some ip -> 0 < i_ref ip -> i_dev ip = dev -> inode_in lk i ip;
  ca_lk c : lk = Some c -> exists cp, icache x !! c = Some cp /\ 0 < i_ref cp /\ i_dev cp = dev }.
Definition refs x : list Z := i_ref <$> icache x.
(** What had a reference in [x] is still in its place. *)
Definition kept x x' : Prop := disks x' = disks x /\ rootdir x' = rootdir x /\ havesysfs x' = havesysfs x /\
  forall i ip, icache x !! i = Some ip -> 0 < i_ref ip -> exists ip', icache x' !! i = Some ip' /\ i_dev ip' = i_dev ip /\ i_inum ip' = i_inum ip.
Definition points x (j : nat) (inum : Z) : Prop := exists jp, icache x !! j = Some jp /\ 0 < i_ref jp /\ i_dev jp = dev /\ i_inum jp = inum.

Lemma agrees_dir ip : graph -> agrees ip -> i_dev ip = dev -> 0 <= i_inum ip < ninodes sb -> i_type ip = T_DIR -> is_dir a sb ip /\ contents a ip = dir_of (i_inum ip).
Proof.
  intros G (E1 & E2 & E3 & E4) Hd Hr Ht. rewrite E1 in Ht. destruct (gr_dir G _ Hr Ht) as [F M].
  assert (forall bn, ptr a ip bn = ptr a (disk_inode (i_inum ip)) bn) as EP by (intros bn; unfold ptr, addr_at; by rewrite E4, Hd).
  assert (forall k, addr_at ip k = addr_at (disk_inode (i_inum ip)) k) as EA by (intros k; unfold addr_at; by rewrite E4).
  split.
  - split; [rewrite Hd; apply G| |by rewrite E1|by rewrite E3]. destruct F as [F1 F2 F3 F4 F5 F6 F7 F8 F9].
    split; [by rewrite E4|done|by rewrite E3|..].
    + intros k. rewrite EA, Hd. apply F4.
    + intros bn. rewrite EP, Hd. apply F5.
    + intros j k. rewrite !EA. apply F6.
    + intros b c. rewrite !EP. apply F7.
    + intros k b. rewrite EA, EP. apply F8.
    + intros bn. rewrite E3, EP. apply F9.
  - unfold dir_of, contents, bytes. rewrite E3. apply list_fmap_ext. intros _ o _. unfold byte_at. by rewrite EP, Hd.
Qed.

Lemma refs_alter x i f g ip : icache x !! i = Some ip -> i_ref (f ip) = g (i_ref ip) -> refs (upd_inode i f x) = alter g i (refs x).
Proof.
  intros Hi E. unfold refs. cbn [icache upd_inode set_icache]. apply list_eq. intros j. rewrite list_lookup_fmap.
  destruct (decide (i = j)) as [<-|Hne].
  - rewrite !list_lookup_alter_eq, list_lookup_fmap, Hi. cbn. by rewrite E.
  - by rewrite !list_lookup_alter_ne, list_lookup_fmap by done.
Qed.
Lemma refs_lookup x i ip : icache x !! i = Some ip -> refs x !! i = Some (i_ref ip).
Proof. intros H. unfold refs. by rewrite list_lookup_fmap, H. Qed.
Lemma kept_upd x i f ip : icache x !! i = Some ip -> i_dev (f ip) = i_dev ip -> i_inum (f ip) = i_inum ip -> kept x (upd_inode i f x).
Proof.
  intros Hi Ed En. split_and!; try done. intros j jp Hj Hr. cbn [icache upd_inode set_icache]. destruct (decide (i = j)) as [<-|Hne].
  - rewrite list_lookup_alter_eq, Hj. eexists. split; [done|]. by simplify_eq.
  - rewrite list_lookup_alter_ne by done. eauto.
Qed.
Lemma kept_steps x y z : kept x y -> (forall i ip iq, icache x !! i = Some ip -> 0 < i_ref ip -> icache y !! i = Some iq -> 0 < i_ref iq) -> kept y z -> kept x z.
Proof.
  intros (D1 & R1 & S1 & K1) Hp (D2 & R2 & S2 & K2). split_and!; [congruence..|]. intros i ip Hi Hr. destruct (K1 i ip Hi Hr) as (iq & Hq & E1 & E2).
  destruct (K2 i iq Hq (Hp i ip iq Hi Hr Hq)) as (ir & Hir & E3 & E4). exists ir. split; [done|]. split; congruence.
Qed.

(** One entry changed, to something that is still in order. *)
Lemma cached_upd lk lk' x i f ip : cached lk x -> icache x !! i = Some ip -> 0 < i_ref ip -> i_dev ip = dev -> 0 <= i_ref (f ip) ->
  i_dev (f ip) = i_dev ip -> i_inum (f ip) = i_inum ip -> (0 < i_ref (f ip) -> inode_in lk' i (f ip)) ->
  (lk' = lk \/ (lk = None /\ lk' = Some i) \/ (lk = Some i /\ lk' = None)) -> (lk' = Some i -> 0 < i_ref (f ip)) ->
  cached lk' (upd_inode i f x).
Proof.
  intros [O S I L] Hi Hr Hd Hr' Ed En Hin Hlk Hpos.
  assert (icache (upd_inode i f x) = alter f i (icache x)) as EC by done.
  assert (forall j jp, icache (upd_inode i f x) !! j = Some jp -> (j = i /\ jp = f ip) \/ (j <> i /\ icache x !! j = Some jp)) as Hcase.
  { intros j jp. rewrite EC. destruct (decide (i = j)) as [<-|Hne]; [rewrite list_lookup_alter_eq, Hi; intros [= <-]; by left|].
    rewrite list_lookup_alter_ne by done. right. split; [congruence|done]. }
  split.
  - destruct O as [O1 O2]. split.
    + intros j jp [[-> ->]|[_ Hj]]%Hcase; [done|by apply (O1 j)].
    + intros j k jp kp [[-> ->]|[Hj Ej]]%Hcase [[-> ->]|[Hk Ek]]%Hcase Pj Pk E1 E2; [done| | |by apply (O2 j k jp kp)].
      * apply (O2 i k ip kp); [done|done|done|done|congruence|congruence].
      * apply (O2 j i jp ip); [done|done|done|done|congruence|congruence].
  - done.
  - intros j jp [[-> ->]|[Hj Ej]]%Hcase Pj Dj; [by apply Hin|]. destruct (I j jp Ej Pj Dj) as [A1 A2 A3 A4 A5]. split; try done.
    rewrite A2. apply bool_decide_ext. destruct Hlk as [->|[[-> ->]|[-> ->]]]; [done|split; [done|congruence]|split; [congruence|done]].
  - intros c Ec. destruct (decide (c = i)) as [->|Hne].
    + exists (f ip). split; [by erewrite upd_inode_lookup|]. split; [by apply Hpos|congruence].
    + destruct Hlk as [->|[[-> ->]|[-> ->]]]; [|congruence|done]. destruct (L c Ec) as (cp & Hc & ? & ?). exists cp.
      rewrite EC, list_lookup_alter_ne by done. done.
Qed.

(** The entries with references are as they were, but for their counts. *)
Definition unmoved x x' : Prop := disks x' = disks x /\ rootdir x' = rootdir x /\ havesysfs x' = havesysfs x /\
  forall i ip, icache x !! i = Some ip -> 0 < i_ref ip -> exists r, 0 < r /\ icache x' !! i = Some (set_ref r ip).
Lemma unmoved_kept x x' : unmoved x x' -> kept x x'.
Proof. intros (D & R & S & H). split_and!; try done. intros i ip Hi Hr. destruct (H i ip Hi Hr) as (r & _ & E). eauto. Qed.

(** A slot that is free becomes the entry of an inode. *)
Definition fresh_entry (e : Z) ip : inode :=
  {| i_dev := dev; i_inum := e; i_ref := 1; i_flags := 0; mountroot := mountroot ip; mountparent := mountparent ip; mountpoint := mountpoint ip;
     i_type := i_type ip; i_major := i_major ip; i_minor := i_minor ip; i_owner := i_owner ip; i_perms := i_perms ip; i_attrib := i_attrib ip;
     i_nlink := i_nlink ip; i_size := i_size ip; i_addrs := i_addrs ip |}.
Lemma cached_fresh lk x i ip e : cached lk x -> icache x !! i = Some ip -> i_ref ip = 0 -> 0 <= e < ninodes sb ->
  (forall j jp, icache x !! j = Some jp -> names dev e jp = false) -> cached lk (upd_inode i (fun _ => fresh_entry e ip) x).
Proof.
  intros [[O1 O2] S I L] Hi Hz He Hno.
  assert (forall j jp, icache (upd_inode i (fun _ => fresh_entry e ip) x) !! j = Some jp -> (j = i /\ jp = fresh_entry e ip) \/ (j <> i /\ icache x !! j = Some jp)) as Hcase.
  { intros j jp. cbn [icache upd_inode set_icache].
    destruct (decide (i = j)) as [<-|Hne]; [rewrite list_lookup_alter_eq, Hi; intros [= <-]; by left|].
    rewrite list_lookup_alter_ne by done. right. split; [congruence|done]. }
  assert (forall j jp, icache x !! j = Some jp -> 0 < i_ref jp -> i_dev jp = dev -> i_inum jp = e -> False) as Hno'.
  { intros j jp Hj Hr Hd Hn. specialize (Hno j jp Hj). by rewrite (proj2 (names_true present dev e jp)) in Hno. }
  split; [split|done| |].
  - intros j jp [[-> ->]|[_ Hj]]%Hcase; [done|by apply (O1 j)].
  - intros j k jp kp [[-> ->]|[Hj Ej]]%Hcase [[-> ->]|[Hk Ek]]%Hcase Pj Pk E1 E2; [done| | |by apply (O2 j k jp kp)].
    + destruct (Hno' k kp Ek Pk); cbn in *; congruence.
    + destruct (Hno' j jp Ej Pj); cbn in *; congruence.
  - intros j jp [[-> ->]|[Hj Ej]]%Hcase Pj Dj; [|by apply I]. split; cbn; try done.
    symmetry. apply bool_decide_eq_false. intros ->. destruct (L i eq_refl) as (cp & Hcp & Hr & _). rewrite Hi in Hcp. injection Hcp as <-. lia.
  - intros c Ec. destruct (L c Ec) as (cp & Hcp & Hr & Hd). exists cp. cbn [icache upd_inode set_icache]. rewrite list_lookup_alter_ne; [done|].
    intros ->. rewrite Hi in Hcp. injection Hcp as <-. lia.
Qed.

Lemma iget_cached lk x e : cached lk x -> 0 <= e < ninodes sb -> (exists p, refs x !! p = Some 0) -> exists j x',
  Spec.run present (iget dev e) x a = Ok j (x', a) /\ cached lk x' /\ refs x' = alter Z.succ j (refs x) /\ points x' j e /\ unmoved x x'.
Proof.
  intros Hc He (p & Hp). unfold iget, kget. cbn [Spec.run mbind prog_bind]. fold (names dev e). pose proof Hc as [O S I L].
  destruct (scan (names dev e) (icache x)) as [[i ip]|] eqn:E.
  - apply scan_Some in E as (Hi & (Hr & Hd & Hn)%(names_true present) & _). pose proof (I i ip Hi Hr Hd) as Hin.
    assert ((if has (i_flags ip) I_MOUNTPOINT then mountroot ip else Some i) = Some i) as ->.
    { destruct (has (i_flags ip) I_MOUNTPOINT) eqn:Em; [by apply Hin|done]. }
    exists i, (upd_inode i (fun _ => set_ref (i_ref ip + 1) ip) x). split; [by rewrite (run_iat present i ip) by done|]. split_and!.
    + apply (cached_upd lk lk x i _ ip Hc Hi Hr Hd); cbn; [lia|done|done| |by left|lia]. intros _. destruct Hin. by split.
    + apply (refs_alter x i _ Z.succ ip Hi). cbn. lia.
    + exists (set_ref (i_ref ip + 1) ip). split; [by erewrite upd_inode_lookup|]. cbn. lia.
    + split_and!; try done. intros k kp Hk Hkr. cbn [icache upd_inode set_icache]. destruct (decide (i = k)) as [<-|Hne].
      * rewrite list_lookup_alter_eq, Hk. exists (i_ref ip + 1). split; [lia|]. by simplify_eq.
      * rewrite list_lookup_alter_ne, Hk by done. exists (i_ref kp). split; [done|]. by destruct kp.
  - rewrite scan_None in E. destruct (scan (fun ip => i_ref ip =? 0) (icache x)) as [[i ip]|] eqn:E2; cycle 1.
    { exfalso. unfold refs in Hp. rewrite list_lookup_fmap in Hp. destruct (icache x !! p) as [pp|] eqn:Epp; [|done]. injection Hp as Hp.
      rewrite scan_None in E2. specialize (E2 p pp Epp). apply Z.eqb_neq in E2. done. }
    apply scan_Some in E2 as (Hi & Hz%Z.eqb_eq & _). exists i, (upd_inode i (fun _ => fresh_entry e ip) x). split; [done|]. split_and!.
    + by apply cached_fresh.
    + apply (refs_alter x i _ Z.succ ip Hi). cbn. lia.
    + exists (fresh_entry e ip). split; [by erewrite upd_inode_lookup|]. by cbn.
    + split_and!; try done. intros k kp Hk Hkr. cbn [icache upd_inode set_icache].
      assert (i <> k) by (intros ->; rewrite Hk in Hi; injection Hi as ->; lia).
      rewrite list_lookup_alter_ne, Hk by done. exists (i_ref kp). split; [done|]. by destruct kp.
Qed.

Lemma inode_in_ref lk i ip r : inode_in lk i ip -> inode_in lk i (set_ref r ip).
Proof. intros [? ? ? ? ?]. by split. Qed.
(** Changing the lock of an entry. *)
Lemma inode_in_lock i ip : inode_in None i ip -> inode_in (Some i) i (set_flags (setf (i_flags ip) I_BUSY) ip).
Proof.
  intros [A1 A2 A3 A4 A5]. split; cbn [i_flags set_flags i_inum mountroot mountparent]; unfold I_BUSY, I_VALID, I_MOUNTPOINT, I_MOUNTROOT in *.
  - done.
  - rewrite has_setf, bool_decide_eq_true_2 by done. done.
  - by rewrite has_setf by done.
  - by rewrite has_setf by done.
  - rewrite has_setf by done. exact A5.
Qed.
Lemma inode_in_unlock i ip : inode_in (Some i) i ip -> inode_in None i (set_flags (clrf (i_flags ip) I_BUSY) ip).
Proof.
  intros [A1 A2 A3 A4 A5]. split; cbn [i_flags set_flags i_inum mountroot mountparent]; unfold I_BUSY, I_VALID, I_MOUNTPOINT, I_MOUNTROOT in *.
  - done.
  - by rewrite has_clrf by done.
  - by rewrite has_clrf by done.
  - by rewrite has_clrf by done.
  - rewrite has_clrf by done. exact A5.
Qed.
(** The entry is read from the disk. *)
Lemma inode_in_load i ip lk : i_dev ip = dev -> inode_in lk i ip ->
  inode_in lk i (set_flags (setf (i_flags ip) I_VALID) (decode_dinode (get_dinode (view a (dev, IBLOCK (i_inum ip) sb)) (i_inum ip)) ip)).
Proof.
  intros Hd [A1 A2 A3 A4 A5].
  split; cbn [i_flags set_flags i_inum mountroot mountparent decode_dinode]; unfold I_BUSY, I_VALID, I_MOUNTPOINT, I_MOUNTROOT in *.
  - done.
  - by rewrite has_setf by done.
  - by rewrite has_setf by done.
  - by rewrite has_setf by done.
  - intros _. by unfold agrees.
Qed.

Definition locked_valid x (i : nat) ip : Prop := icache x !! i = Some ip /\ 0 < i_ref ip /\ i_dev ip = dev /\ has (i_flags ip) I_VALID = true.
Lemma upd_upd i f g x : upd_inode i g (upd_inode i f x) = upd_inode i (fun ip => g (f ip)) x.
Proof. unfold upd_inode, set_icache. cbn. f_equal. apply list_eq. intros k.
  destruct (decide (i = k)) as [<-|Hne]; [rewrite !list_lookup_alter_eq; by destruct (icache x !! i)|by rewrite !list_lookup_alter_ne]. Qed.

Lemma ilock_ok x i ip : graph -> cached None x -> icache x !! i = Some ip -> 0 < i_ref ip -> i_dev ip = dev -> exists x' ip',
  Spec.run present (ilock (Some i)) x a = Ok tt (x', a) /\ cached (Some i) x' /\ refs x' = refs x /\ kept x x' /\
  locked_valid x' i ip' /\ i_inum ip' = i_inum ip.
Proof.
  intros G Hc Hi Hr Hd. pose proof (ca_in _ _ Hc i ip Hi Hr Hd) as Hin. unfold ilock. rewrite (run_iat present i ip) by done.
  rewrite (proj2 (Z.ltb_ge _ _)) by lia. rewrite (in_busy _ _ _ Hin), bool_decide_eq_false_2 by done. rewrite run_iset.
  set (lockf := fun ip => set_flags (setf (i_flags ip) I_BUSY) ip).
  destruct (has (i_flags ip) I_VALID) eqn:Ev.
  - exists (upd_inode i lockf x), (lockf ip). split; [done|]. split_and!.
    + apply (cached_upd None (Some i) x i lockf ip Hc Hi Hr Hd); [cbn; lia|done|done|intros _; by apply inode_in_lock|by right; left|done].
    + rewrite (refs_alter x i _ id ip Hi) by done. apply list_eq. intros k. destruct (decide (i = k)) as [<-|]; [|by rewrite list_lookup_alter_ne].
      rewrite list_lookup_alter_eq. by destruct (refs x !! i).
    + by apply (kept_upd x i _ ip Hi).
    + split_and!; [by erewrite upd_inode_lookup|done|done|]. cbn [i_flags lockf set_flags]. unfold I_BUSY, I_VALID in *. by rewrite has_setf, Ev.
    + done.
  - set (x1 := upd_inode i lockf x). assert (cached (Some i) x1) as Hc1.
    { apply (cached_upd None (Some i) x i lockf ip Hc Hi Hr Hd); [cbn; lia|done|done|intros _; by apply inode_in_lock|by right; left|done]. }
    rewrite (run_getsuperblock present _ sb) by (rewrite Hd; apply Hc).
    destruct (gr_readable G) as [Q1 Q2 Q3]. destruct (fk_inodes _ _ _ (gr_fs G) (i_inum ip) (in_range _ _ _ Hin)) as [Hb _].
    rewrite (run_bread present []); [|done|apply not_elem_of_nil|done|by rewrite Hd|apply (fits_small sb); [apply (gr_fs G)|apply Hb]].
    rewrite run_bdata, run_iset. rewrite (run_brelse present []) by (first [done|apply not_elem_of_nil]). rewrite Hd.
    set (dec := decode_dinode (get_dinode (view a (dev, IBLOCK (i_inum ip) sb)) (i_inum ip))).
    set (x2 := upd_inode i (fun ip => set_flags (setf (i_flags ip) I_VALID) (dec ip)) x1).
    assert (Spec.run present (iset i (fun ip => set_flags (setf (i_flags ip) I_VALID) ip)) (upd_inode i dec x1) a = Ok tt (x2, a)) as ->.
    { unfold x2. change (Ok tt (upd_inode i (fun ip => set_flags (setf (i_flags ip) I_VALID) ip) (upd_inode i dec x1), a) = Ok tt (upd_inode i (fun ip => set_flags (setf (i_flags ip) I_VALID) (dec ip)) x1, a)).
      by rewrite upd_upd. }
    assert (icache x1 !! i = Some (lockf ip)) as Hi1 by (unfold x1; by erewrite upd_inode_lookup).
    exists x2, (set_flags (setf (i_flags (lockf ip)) I_VALID) (dec (lockf ip))). split; [done|]. split_and!.
    + apply (cached_upd (Some i) (Some i) x1 i _ (lockf ip) Hc1 Hi1); [done|done|cbn; lia|done|done| |by left|done]. intros _.
      unfold dec. apply (inode_in_load i (lockf ip) (Some i)); [done|]. by apply (ca_in _ _ Hc1).
    + unfold x2, x1. rewrite upd_upd, (refs_alter x i _ id ip Hi) by done. apply list_eq. intros k.
      destruct (decide (i = k)) as [<-|]; [|by rewrite list_lookup_alter_ne]. rewrite list_lookup_alter_eq. by destruct (refs x !! i).
    + unfold x2, x1. rewrite upd_upd. by apply (kept_upd x i _ ip Hi).
    + split_and!; [unfold x2; by erewrite upd_inode_lookup|done|done|]. cbn [i_flags set_flags]. unfold I_VALID. by rewrite has_setf.
    + done.
Qed.

Lemma iput_ok direct x i ip : cached None x -> icache x !! i = Some ip -> 0 < i_ref ip -> i_dev ip = dev -> i_nlink (disk_inode (i_inum ip)) <> 0 -> exists x',
  Spec.run present (iput1 (Some i) direct) x a = Ok tt (x', a) /\ cached None x' /\ refs x' = alter Z.pred i (refs x) /\ kept x x'.
Proof.
  intros Hc Hi Hr Hd Hn. pose proof (ca_in _ _ Hc i ip Hi Hr Hd) as Hin. unfold iput1. rewrite (run_iat present i ip) by done.
  assert ((i_ref ip =? 1) && has (i_flags ip) I_VALID && (i_nlink ip =? 0) = false) as ->.
  { destruct (has (i_flags ip) I_VALID) eqn:Ev; [|by rewrite andb_false_r]. destruct (in_valid _ _ _ Hin Ev) as (_ & En & _).
    rewrite (proj2 (Z.eqb_neq (i_nlink ip) 0)), andb_false_r by congruence. done. }
  exists (upd_inode i (fun ip => set_ref (i_ref ip - 1) ip) x). split; [done|]. split_and!.
  - apply (cached_upd None None x i _ ip Hc Hi Hr Hd); [cbn; lia|done|done|intros _; by apply inode_in_ref|by left|done].
  - apply (refs_alter x i _ Z.pred ip Hi). cbn. lia.
  - by apply (kept_upd x i _ ip Hi).
Qed.
Lemma iunlock_ok x i ip : cached (Some i) x -> locked_valid x i ip -> exists x' ip',
  Spec.run present (iunlock (Some i)) x a = Ok tt (x', a) /\ cached None x' /\ refs x' = refs x /\ kept x x' /\
  icache x' !! i = Some ip' /\ i_ref ip' = i_ref ip /\ i_dev ip' = dev /\ i_inum ip' = i_inum ip.
Proof.
  intros Hc (Hi & Hr & Hd & Hv). pose proof (ca_in _ _ Hc i ip Hi Hr Hd) as Hin. unfold iunlock. rewrite (run_iat present i ip) by done.
  rewrite (proj2 (Z.ltb_ge _ _)) by lia. rewrite (in_busy _ _ _ Hin), bool_decide_eq_true_2 by done. cbn [negb].
  set (f := fun ip => set_flags (clrf (i_flags ip) I_BUSY) ip). exists (upd_inode i f x), (f ip). split; [done|]. split_and!.
  - apply (cached_upd (Some i) None x i f ip Hc Hi Hr Hd); [cbn; lia|done|done|intros _; by apply inode_in_unlock|by right; right|done].
  - rewrite (refs_alter x i _ id ip Hi) by done. apply list_eq. intros k. destruct (decide (i = k)) as [<-|]; [|by rewrite list_lookup_alter_ne].
    rewrite list_lookup_alter_eq. by destruct (refs x !! i).
  - by apply (kept_upd x i _ ip Hi).
  - by erewrite upd_inode_lookup.
  - done.
  - done.
  - done.
Qed.
Lemma unlockput_ok direct x i ip : cached (Some i) x -> locked_valid x i ip -> i_nlink (disk_inode (i_inum ip)) <> 0 -> exists x',
  Spec.run present (unlockput direct i) x a = Ok tt (x', a) /\ cached None x' /\ refs x' = alter Z.pred i (refs x) /\ kept x x'.
Proof.
  intros Hc Hv Hn. destruct (iunlock_ok x i ip Hc Hv) as (x1 & ip1 & E1 & C1 & R1 & K1 & I1 & Q1 & D1 & N1).
  destruct (iput_ok direct x1 i ip1 C1 I1) as (x2 & E2 & C2 & R2 & K2); [rewrite Q1; apply Hv|done|by rewrite N1|].
  exists x2. split_and!; [|done|by rewrite R2, R1|].
  - unfold unlockput, iunlockput, iunlockput_direct, iput, iput_direct in *. destruct direct; rewrite Spec.run_bind, E1; exact E2.
  - eapply kept_steps; [exact K1| |exact K2]. intros k kp kq Hk Hkr Hq. apply refs_lookup in Hk, Hq. rewrite R1, Hk in Hq. by injection Hq as <-.
Qed.

(** ** Walking *)

(** What [namex_loop] computes, over the disk: the inode found, and the name
    buffer. *)
Fixpoint walk_elems (parent : bool) (inum : Z) (nm : list Z) (es : list (list Z * bool)) : option Z * list Z :=
  match es with
  | [] => (if parent then None else Some inum, nm)
  | (n, last) :: es' =>
    if negb (i_type (disk_inode inum) =? T_DIR) then (None, n)
    else if parent && last then (Some inum, n)
    else match dir_find (dir_of inum) (until0 n) with None => (None, n) | Some (_, e) => walk_elems parent e n es' end
  end.
(** Two slots of the cache are free. *)
Definition two_free (R : list Z) : Prop := exists p q, p <> q /\ R !! p = Some 0 /\ R !! q = Some 0.
Lemma free_left R i : two_free R -> exists p, alter Z.succ i R !! p = Some 0.
Proof.
  intros (p & q & Hne & Hp & Hq). destruct (decide (i = p)) as [->|Hi]; [exists q|exists p]; rewrite list_lookup_alter_ne; done || congruence.
Qed.
Lemma alter_pred_succ (i j : nat) (R : list Z) : alter Z.pred i (alter Z.succ j (alter Z.succ i R)) = alter Z.succ j R.
Proof.
  apply list_eq. intros k. destruct (decide (i = k)) as [<-|Hi].
  - rewrite list_lookup_alter_eq. destruct (decide (j = i)) as [->|Hj].
    + rewrite !list_lookup_alter_eq. destruct (R !! i); cbn [fmap option_fmap option_map]; [f_equal; lia|done].
    + rewrite list_lookup_alter_ne, list_lookup_alter_eq, list_lookup_alter_ne by done.
      destruct (R !! i) as [z|]; [cbn|done]. by rewrite Z.pred_succ.
  - rewrite (list_lookup_alter_ne _ _ i k) by done. destruct (decide (j = k)) as [<-|Hj].
    + by rewrite !list_lookup_alter_eq, list_lookup_alter_ne by done.
    + by rewrite !list_lookup_alter_ne by done.
Qed.
Lemma alter_pred (i : nat) (R : list Z) : alter Z.pred i (alter Z.succ i R) = R.
Proof.
  apply list_eq. intros k. destruct (decide (i = k)) as [<-|Hi]; [|by rewrite !list_lookup_alter_ne by done].
  rewrite !list_lookup_alter_eq. destruct (R !! i); cbn [fmap option_fmap option_map]; [f_equal; lia|done].
Qed.
Lemma refl_le (R : list Z) : Forall2 Z.le R R.
Proof. induction R; constructor; [lia|done]. Qed.
Lemma alter_le f (i : nat) (R : list Z) : (forall z, z <= f z) -> Forall2 Z.le R (alter f i R).
Proof. intros Hf. revert i. induction R as [|r R IH]; intros [|i]; cbn; constructor; try done; apply refl_le. Qed.
Lemma alter_succ_le (i : nat) (R : list Z) : Forall2 Z.le R (alter Z.succ i R).
Proof. apply alter_le. intros. lia. Qed.
(** References only grow on the way. *)
Lemma kept_grown x0 x y : kept x0 x -> Forall2 Z.le (refs x0) (refs x) -> kept x y -> kept x0 y.
Proof.
  intros K0 HR K. eapply kept_steps; [exact K0| |exact K]. intros i ip iq Hi Hr Hq. apply refs_lookup in Hi, Hq.
  pose proof (Forall2_lookup_lr _ _ _ _ _ _ HR Hi Hq). cbn in *. lia.
Qed.

Lemma dir_find_edge inum n k e : graph -> 0 <= inum < ninodes sb -> i_type (disk_inode inum) = T_DIR -> dir_find (dir_of inum) n = Some (k, e) ->
  0 < e < ninodes sb /\ i_nlink (disk_inode e) <> 0.
Proof.
  intros G Hr Ht. unfold dir_find. destruct (scan _ _) as [[k' [e' n']]|] eqn:E; [|done]. intros [= <- <-].
  apply scan_Some in E as (Hk & [He _]%andb_prop & _). apply (gr_edge G inum k' e' n' Hr Ht Hk). cbn in He. by destruct (Z.eqb_spec e' 0).
Qed.
Lemma agrees_type ip : agrees ip -> i_type ip = i_type (disk_inode (i_inum ip)).
Proof. by intros [? _]. Qed.

(** How a walk ends: with a reference to the inode found, or with none. *)
Definition walked x0 x' (found : option Z) (r : option nat) : Prop :=
  match found with
  | Some e => exists j, r = Some j /\ points x' j e /\ refs x' = alter Z.succ j (refs x0)
  | None => r = None /\ refs x' = refs x0
  end.

(** One element of the path, with the directory locked: the slot of the next
    inode, and the directory given back. *)
Lemma namex_step direct x0 x cur cp n k e : graph -> cached (Some cur) x -> locked_valid x cur cp -> refs x = alter Z.succ cur (refs x0) -> kept x0 x ->
  two_free (refs x0) -> i_nlink (disk_inode (i_inum cp)) <> 0 -> i_type cp = T_DIR -> length n = DIRSIZ -> dir_find (dir_of (i_inum cp)) (until0 n) = Some (k, e) ->
  exists j x1 x2, Spec.run present (dirlookup devsw_read cur n) x a = Ok (Some (j, 16 * Z.of_nat k)) (x1, a) /\
    Spec.run present (unlockput direct cur) x1 a = Ok tt (x2, a) /\ cached None x2 /\ refs x2 = alter Z.succ j (refs x0) /\ kept x0 x2 /\ points x2 j e.
Proof.
  intros G Hc Hv HR HK H2 Hn Ht Hl Hf. pose proof Hv as (Hi & Hr & Hd & Hval). pose proof (ca_in _ _ Hc cur cp Hi Hr Hd) as Hin.
  pose proof (in_valid _ _ _ Hin Hval) as Hag. pose proof (in_range _ _ _ Hin) as Hrg.
  destruct (agrees_dir cp G Hag Hd Hrg Ht) as [Hdir EC]. rewrite (agrees_type _ Hag) in Ht.
  destruct (dir_find_edge _ _ _ _ G Hrg Ht Hf) as [He _].
  destruct (iget_cached (Some cur) x e Hc) as (j & x1 & E1 & C1 & R1 & P1 & U1); [lia|rewrite HR; by apply free_left|].
  destruct U1 as (D1 & S1 & V1 & M1). destruct (M1 cur cp Hi Hr) as (r & Hrp & Hi1).
  destruct (unlockput_ok direct x1 cur (set_ref r cp) C1) as (x2 & E2 & C2 & R2 & K2); [done|done|].
  exists j, x1, x2. split_and!; [|done|done|by rewrite R2, R1, HR, alter_pred_succ|..].
  - rewrite (dirlookup_ok present devsw_read cur n x a cp sb Hi); [|rewrite Hd; apply G|done|done|].
    + rewrite EC, Hf, Hd, Spec.run_bind, E1. done.
    + intros Hm. rewrite EC. by apply Hin.
  - eapply kept_grown; [|rewrite R1, HR; etrans; apply alter_succ_le|exact K2]. eapply kept_grown; [exact HK|rewrite HR; apply alter_succ_le|].
    by apply unmoved_kept.
  - destruct P1 as (jp & Hj & Hjr & Hjd & Hje). destruct K2 as (_ & _ & _ & K2). destruct (K2 j jp Hj Hjr) as (jq & Hq & Q1 & Q2).
    exists jq. split_and!; [done| |congruence|congruence]. apply refs_lookup in Hq. rewrite R2, R1, HR, alter_pred_succ, list_lookup_alter_eq in Hq.
    destruct (refs x0 !! j) as [rj|] eqn:Ej; [|done]. injection Hq as <-.
    assert (refs x !! j = Some (if bool_decide (cur = j) then rj + 1 else rj)) as Hx.
    { rewrite HR. case_bool_decide as Hcj; [by subst; rewrite list_lookup_alter_eq, Ej|by rewrite list_lookup_alter_ne, Ej]. }
    case_bool_decide as Hcj; [subst j; apply refs_lookup in Hi; rewrite Hi in Hx; injection Hx; lia|].
    unfold refs in Hx. rewrite list_lookup_fmap in Hx. destruct (icache x !! j) as [xj|] eqn:Exj; [|done]. injection Hx as <-.
    pose proof (proj1 (ca_ok _ _ Hc) j xj Exj). lia.
Qed.

(** The loop of [namex] follows the graph. *)
Lemma namex_loop_ok parent direct x0 es : graph -> two_free (refs x0) -> Forall (fun e => length e.1 = DIRSIZ) es -> forall x cur inum nm,
  cached None x -> points x cur inum -> refs x = alter Z.succ cur (refs x0) -> kept x0 x -> i_nlink (disk_inode inum) <> 0 ->
  exists r x', Spec.run present (namex_loop devsw_read cur parent direct nm es) x a = Ok (r, (walk_elems parent inum nm es).2) (x', a) /\
    cached None x' /\ kept x0 x' /\ walked x0 x' (walk_elems parent inum nm es).1 r.
Proof.
  intros G H2 Hes. induction Hes as [|[n last] es Hlen _ IH]; intros x cur inum nm Hc (cp & Hi & Hr & Hd & <-) HR HK Hn; cbn [namex_loop walk_elems].
  - destruct parent.
    + destruct (iput_ok direct x cur cp Hc Hi Hr Hd Hn) as (x' & E & C & R & K). exists None, x'. split_and!.
      * rewrite Spec.run_bind. unfold iput, iput_direct in *. destruct direct; rewrite E; done.
      * done.
      * eapply kept_grown; [exact HK|rewrite HR; apply alter_succ_le|exact K].
      * split; [done|]. by rewrite R, HR, alter_pred.
    + exists (Some cur), x. split_and!; [done|done|done|]. exists cur. split_and!; [done| |done]. by exists cp.
  - destruct (ilock_ok x cur cp G Hc Hi Hr Hd) as (x1 & ip & E1 & C1 & R1 & K1 & V1 & N1). rewrite Spec.run_bind, E1.
    pose proof V1 as (Hi1 & Hr1 & Hd1 & Hv1). rewrite (run_iat present cur ip) by done.
    pose proof (in_valid _ _ _ (ca_in _ _ C1 cur ip Hi1 Hr1 Hd1) Hv1) as Hag. rewrite (agrees_type _ Hag), N1.
    assert (kept x0 x1) as HK1 by (eapply kept_grown; [exact HK|rewrite HR; apply alter_succ_le|exact K1]). rewrite HR in R1.
    rewrite <- N1 in Hn |- *.
    destruct (Z.eqb_spec (i_type (disk_inode (i_inum ip))) T_DIR) as [Ht|Ht]; cbn [negb].
    + destruct (parent && last).
      * destruct (iunlock_ok x1 cur ip C1 V1) as (x2 & ip2 & E2 & C2 & R2 & K2 & I2 & Q2 & D2 & N2). exists (Some cur), x2.
        split_and!; [by rewrite Spec.run_bind, E2|done| |].
        -- eapply kept_grown; [exact HK1|rewrite R1; apply alter_succ_le|exact K2].
        -- exists cur. split_and!; [done| |congruence]. exists ip2. split_and!; [done|lia|done|done].
      * rewrite Spec.run_bind. destruct (dir_find (dir_of (i_inum ip)) (until0 n)) as [[k e]|] eqn:Ef.
        -- destruct (namex_step direct x0 x1 cur ip n k e G C1 V1 R1 HK1 H2 Hn) as (j & y & x2 & E2 & E3 & C2 & R2 & K2 & P2); [by rewrite (agrees_type _ Hag)|done|done|].
           rewrite E2. cbn iota beta. rewrite Spec.run_bind, E3. apply (IH x2 j e n C2 P2 R2 K2).
           apply (dir_find_edge (i_inum ip) (until0 n) k e G); [|done|done]. apply (ca_in _ _ C1 cur ip Hi1 Hr1 Hd1).
        -- destruct (unlockput_ok direct x1 cur ip C1 V1 Hn) as (x2 & E2 & C2 & R2 & K2). exists None, x2.
           destruct (agrees_dir ip G Hag Hd1) as [Hdir EC]; [apply (ca_in _ _ C1 cur ip Hi1 Hr1 Hd1)|by rewrite (agrees_type _ Hag)|].
           rewrite (dirlookup_ok present devsw_read cur n x1 a ip sb Hi1); [|rewrite Hd1; apply G|done|done|].
           ++ rewrite EC, Ef. cbn iota beta. split_and!; [by rewrite Spec.run_bind, E2|done| |split; [done|by rewrite R2, R1, alter_pred]].
              eapply kept_grown; [exact HK1|rewrite R1; apply alter_succ_le|exact K2].
           ++ intros Hm. rewrite EC. by apply (ca_in _ _ C1 cur ip Hi1 Hr1 Hd1).
    + destruct (unlockput_ok direct x1 cur ip C1 V1 Hn) as (x2 & E2 & C2 & R2 & K2). exists None, x2.
      split_and!; [by rewrite Spec.run_bind, E2|done| |split; [done|by rewrite R2, R1, alter_pred]].
      eapply kept_grown; [exact HK1|rewrite R1; apply alter_succ_le|exact K2].
Qed.

(** What a path names, from an inode: with [parent], the directory of its last
    element, which must be one. *)
Definition target (parent : bool) (inum : Z) (ns : list (list Z)) : option Z :=
  if parent then
    match ns with [] => None | _ => d ← follow inum (removelast ns); if i_type (disk_inode d) =? T_DIR then Some d else None end
  else follow inum ns.
Definition flagged (es : list (list Z * bool)) : Prop := forall i e, es !! i = Some e -> e.2 = bool_decide (S i = length es).
Lemma flagged_cons e es : flagged (e :: es) -> e.2 = bool_decide (es = []) /\ flagged es.
Proof.
  intros H. split.
  - rewrite (H 0%nat e eq_refl). apply bool_decide_ext. destruct es; cbn; split; congruence.
  - intros i f Hf. rewrite (H (S i) f Hf). apply bool_decide_ext. cbn. lia.
Qed.
Lemma walk_elems_walk parent es : flagged es -> forall inum nm, let ns := (fun e => until0 e.1) <$> es in
  (walk_elems parent inum nm es).1 = target parent inum ns /\
  (parent = true -> (walk_elems parent inum nm es).1 <> None -> ns !! pred (length ns) = Some (until0 (walk_elems parent inum nm es).2)).
Proof.
  induction es as [|[n lst] es IH]; intros HF inum nm; cbn zeta; [by destruct parent|]. apply flagged_cons in HF as [Hl HF]. cbn [snd] in Hl.
  subst lst.
  cbn [walk_elems fmap list_fmap fst]. specialize (IH HF). destruct parent.
  - destruct es as [|f es]; cbn [target].
    + rewrite bool_decide_eq_true_2 by done. cbn [fmap list_fmap removelast follow mbind option_bind].
      by destruct (i_type (disk_inode inum) =? T_DIR).
    + rewrite bool_decide_eq_false_2 by done. cbn [andb]. cbn [fmap list_fmap removelast follow] in *.
      destruct (i_type (disk_inode inum) =? T_DIR); cbn [negb]; [|done].
      destruct (dir_find (dir_of inum) (until0 n)) as [[k e]|]; cbn [mbind option_bind]; [|done]. apply (IH e n).
  - cbn [andb]. split; [|done]. cbn [target follow]. destruct (i_type (disk_inode inum) =? T_DIR); cbn [negb]; [|done].
    destruct (dir_find (dir_of inum) (until0 n)) as [[k e]|]; cbn [mbind option_bind]; [|done]. apply (IH e n).
Qed.

(** Where [namex] starts: the file system's root, the process's own root or its
    working directory. *)
Definition start_of (root : option nat) (proc : option where_) (path : list Z) : option nat :=
  match proc, path with
  | None, _ => root
  | Some pr, c :: _ => if is_slash c then match p_rootdir pr with None => root | Some r => Some r end else p_cwd pr
  | Some pr, [] => p_cwd pr
  end.

Lemma elems_length fuel path name : length name = DIRSIZ -> Forall (fun c => c <> 0) path -> Forall (fun e => length e.1 = DIRSIZ) (path_elems fuel path name).
Proof.
  revert path name. induction fuel as [|fuel IH]; intros path name Hn Hz; [constructor|]. cbn [path_elems]. unfold skipelem.
  assert (forall p, Forall (fun c : Z => c <> 0) p -> Forall (fun c => c <> 0) (skip_slashes p)) as Hsk.
  { intros p. induction 1 as [|c p Hc H IHp]; [constructor|]. cbn [skip_slashes]. destruct (is_slash c); [done|by constructor]. }
  specialize (Hsk path Hz) as Hz1. destruct (skip_slashes path) as [|c p] eqn:E; [constructor|]. destruct (take_elem (c :: p)) as [s rest] eqn:Et.
  destruct (take_elem_spec _ _ _ Et) as (Ep & _ & _). rewrite Ep in Hz1. apply Forall_app in Hz1 as [Hs Hr].
  destruct (until0_name s name Hn Hs) as [_ Hl]. constructor; [exact Hl|]. apply IH; [exact Hl|by apply Hsk].
Qed.

(** C7: a path walk resolves the path in the disk's graph of directories.  On a
    file system in order, from the root, the process's root or its working
    directory as the code chooses, [namex] ends, reads the disk and leaves it as
    it was, and returns what the path's elements, each cut to [DIRSIZ] bytes,
    lead to: a slot of the inode cache that names that inode, with one reference
    more than before, and every other count as it was; no slot, and all counts as
    they were, when an element is missing or not a directory.  With [parent] it is
    the last element's directory, and the name buffer holds that element. *)
Theorem namex_resolves proc path parent direct name x start inum : graph -> cached None x -> two_free (refs x) ->
  start_of (rootdir x) proc path = Some start -> points x start inum -> i_nlink (disk_inode inum) <> 0 -> length name = DIRSIZ -> Forall (fun c => c <> 0) path ->
  let ns := take DIRSIZ <$> components path in
  exists r nm x', Spec.run present (namex devsw_read proc path parent name direct) x a = Ok (r, nm) (x', a) /\ cached None x' /\ kept x x' /\
    walked x x' (target parent inum ns) r /\ (parent = true -> r <> None -> ns !! pred (length ns) = Some (until0 nm)).
Proof.
  intros G Hc H2 Hs (ip & Hi & Hr & Hd & Hn) Hnl Hlen Hz ns. set (es := path_elems (S (length path)) path name).
  destruct (path_elems_spec (S (length path)) path name) as [En Hlast]; [lia|done|done|]. fold es in En, Hlast.
  assert (flagged es) as HF.
  { intros i e He. rewrite (Hlast i e He). assert (length es = length (components path)) as ->; [|done].
    apply (f_equal length) in En. by rewrite !length_fmap in En. }
  destruct (walk_elems_walk parent es HF inum name) as [Ew Enm]. rewrite En in Ew, Enm. fold ns in Ew, Enm.
  set (x1 := upd_inode start (fun ip => set_ref (i_ref ip + 1) ip) x).
  destruct (namex_loop_ok parent direct x es G H2 (elems_length _ _ _ Hlen Hz) x1 start inum name) as (r & x' & E & C & K & W).
  - apply (cached_upd None None x start _ ip Hc Hi Hr Hd); cbn; [lia|done|done| |by left|done]. intros _. apply inode_in_ref. by apply (ca_in _ _ Hc).
  - exists (set_ref (i_ref ip + 1) ip). split; [unfold x1; by erewrite upd_inode_lookup|]. split_and!; cbn; try done; lia.
  - apply (refs_alter x start _ Z.succ ip Hi). cbn. lia.
  - by apply (kept_upd x start _ ip Hi).
  - done.
  - exists r, (walk_elems parent inum name es).2, x'. rewrite Ew in W. split_and!; [|done|done|done|].
    + change (namex devsw_read proc path parent name direct) with (root ← kget rootdir; let start := start_of root proc path in
        o ← idup start; match o with Some ip => namex_loop devsw_read ip parent direct name es | None => match path_elems 1 path name with
            | [] => if parent then fail "nil inode" else mret (None, name) | _ => fail "nil inode" end end).
      rewrite Spec.run_bind. cbn [kget Spec.run]. rewrite Hs. unfold idup. rewrite Spec.run_bind, (run_iat present start ip) by done.
      assert (Spec.run present (incref start ;; mret (Some start)) x a = Ok (Some start) (x1, a)) as -> by done. exact E.
    + intros Hp Hr0. apply (Enm Hp). intros Hno. rewrite Ew in Hno. rewrite Hno in W. by destruct W.
Qed.

(** ** Start-up *)

(** What [fsinit] does with the root: it is mounted on itself. *)
Definition mounted_flags (f : Z) : Z := setf (setf f I_MOUNTPOINT) I_MOUNTROOT.
Definition self_mounted (r : nat) ip : inode := set_mount (Some r) (Some r) (set_flags (mounted_flags (i_flags ip)) (set_ref (i_ref ip + 3) ip)).

Lemma self_mounted_in r ip : inode_in (Some r) r ip -> (exists k, dir_find (dir_of (i_inum ip)) c_dotdot = Some (k, i_inum ip)) -> inode_in (Some r) r (self_mounted r ip).
Proof.
  intros [A1 A2 A3 A4 A5] Hdd. unfold self_mounted, mounted_flags.
  split; cbn [i_flags set_flags i_inum mountroot mountparent set_mount set_ref]; unfold I_BUSY, I_VALID, I_MOUNTPOINT, I_MOUNTROOT in *; try done.
  - by rewrite !has_setf by done.
  - rewrite !has_setf by done. intros H. destruct (A5 H) as (? & ? & ? & ?). by repeat split.
Qed.
Lemma upd_at i f g x ip : icache x !! i = Some ip -> f ip = g ip -> upd_inode i f x = upd_inode i g x.
Proof.
  intros Hi E. unfold upd_inode, set_icache. f_equal. apply list_eq. intros k.
  destruct (decide (i = k)) as [<-|Hne]; [rewrite !list_lookup_alter_eq, Hi; cbn; by rewrite E|by rewrite !list_lookup_alter_ne].
Qed.
Lemma run_iref {A} i ip (k : prog kfs A) x : icache x !! i = Some ip ->
  Spec.run present (iref (Some i) ;; k) x a = Spec.run present k (upd_inode i (fun ip => set_ref (i_ref ip + 1) ip) x) a.
Proof. intros Hi. rewrite Spec.run_bind. unfold iref. by rewrite (run_iat present i ip) by done. Qed.
Lemma imount_self x r ip : graph -> cached None x -> icache x !! r = Some ip -> 0 < i_ref ip -> i_dev ip = dev ->
  (exists k, dir_find (dir_of (i_inum ip)) c_dotdot = Some (k, i_inum ip)) -> exists x',
  Spec.run present (imount0 r r r) x a = Ok tt (x', a) /\ cached None x' /\ kept x x' /\ points x' r (i_inum ip).
Proof.
  intros G Hc Hi Hr Hd Hdd. destruct (ilock_ok x r ip G Hc Hi Hr Hd) as (x1 & ip1 & E1 & C1 & R1 & K1 & V1 & N1).
  pose proof V1 as (Hi1 & Hr1 & Hd1 & Hv1).
  assert (cached (Some r) (upd_inode r (self_mounted r) x1)) as C2.
  { apply (cached_upd (Some r) (Some r) x1 r _ ip1 C1 Hi1 Hr1 Hd1); cbn; [lia|done|done| |by left|lia]. intros _.
    apply self_mounted_in; [by apply (ca_in _ _ C1)|by rewrite N1]. }
  destruct (iunlock_ok (upd_inode r (self_mounted r) x1) r (self_mounted r ip1) C2) as (x3 & ip3 & E3 & C3 & R3 & K3 & I3 & Q3 & D3 & N3).
  { split_and!; [by erewrite upd_inode_lookup|cbn; lia|done|]. cbn [i_flags self_mounted set_mount set_flags].
    unfold mounted_flags, I_VALID, I_MOUNTPOINT, I_MOUNTROOT in *.
    by rewrite !has_setf by done. }
  exists x3. split_and!; [|done| |exists ip3; split_and!; [done|rewrite Q3; cbn; lia|done|by rewrite N3; cbn; rewrite N1]].
  - unfold imount0. rewrite Spec.run_bind, E1, !bool_decide_eq_true_2 by done. cbn [Spec.run mret prog_ret mbind prog_bind].
    rewrite (run_iref r ip1) by done. erewrite run_iref by (erewrite upd_inode_lookup; done).
    erewrite run_iref by (repeat erewrite upd_inode_lookup; done).
    rewrite !run_iset, !upd_upd, Spec.run_bind. erewrite (upd_at r _ (self_mounted r) x1 ip1 Hi1); [by rewrite E3|].
    unfold self_mounted. replace (i_ref ip1 + 3) with (i_ref ip1 + 1 + 1 + 1) by lia. reflexivity.
  - assert (kept x1 (upd_inode r (self_mounted r) x1)) as K2 by (by apply (kept_upd x1 r _ ip1 Hi1)).
    eapply kept_grown; [exact K1|rewrite R1; apply refl_le|]. eapply kept_grown; [exact K2| |exact K3].
    rewrite (refs_alter x1 r _ (fun z => z + 3) ip1 Hi1) by done. apply alter_le. intros. lia.
Qed.

(** From an empty cache, [fsinit]'s last steps leave the root in order: what the
    path walks start from. *)
Lemma root_mounted x ip0 : graph -> (forall i ip, icache x !! i = Some ip -> i_ref ip = 0) -> icache x !! 0%nat = Some ip0 ->
  getsuperblock_of (disks x) dev = Some sb -> ROOTINO < ninodes sb -> (exists k, dir_find (dir_of ROOTINO) c_dotdot = Some (k, ROOTINO)) -> exists r x',
  Spec.run present (r ← iget dev ROOTINO; kmodify (fun x => {| disks := disks x; icache := icache x; rootdir := Some r; havesysfs := havesysfs x |}) ;; imount0 r r r) x a
    = Ok tt (x', a) /\ cached None x' /\ rootdir x' = Some r /\ points x' r ROOTINO.
Proof.
  intros G Hz H0 Hsb Hri Hdd. assert (cached None x) as Hc.
  { split; [split|done| |done].
    - intros i ip Hi. by rewrite (Hz i ip Hi).
    - intros i j ip jp Hi _ Hp. rewrite (Hz i ip Hi) in Hp. lia.
    - intros i ip Hi Hp. rewrite (Hz i ip Hi) in Hp. lia. }
  destruct (iget_cached None x ROOTINO Hc) as (r & x1 & E1 & C1 & _ & (rp & Hrp & Hr & Hd & Hn) & _); [unfold ROOTINO in *; lia|exists 0%nat; by rewrite (refs_lookup x 0 ip0 H0), (Hz 0%nat ip0 H0)|].
  set (x2 := {| disks := disks x1; icache := icache x1; rootdir := Some r; havesysfs := havesysfs x1 |}).
  assert (cached None x2) as C2 by (by destruct C1).
  destruct (imount_self x2 r rp G C2 Hrp Hr Hd) as (x3 & E3 & C3 & (_ & R3 & _) & P3); [by rewrite Hn|].
  exists r, x3. rewrite Hn in P3. split_and!; try done. rewrite Spec.run_bind, E1. exact E3.
Qed.
End graph.

(** ** A small disk *)

Module DirSample.
Import Sample DataSample.

(** The root, inode 1, with the entries ".", ".." and "f", a file of no bytes. *)
Definition c_name (s : list Z) : list Z := s ++ replicate (DIRSIZ - length s) 0.
Definition root_bytes : list Z := make_dirent (c_name [46]) 1 ++ make_dirent (c_name c_dotdot) 1 ++ make_dirent (c_name [102]) 2.
Definition root_inode : inode := {| i_dev := 0; i_inum := 1; i_ref := 1; i_flags := Z.lor I_MOUNTPOINT I_MOUNTROOT; mountroot := Some 0%nat; mountparent := Some 0%nat;
  mountpoint := None; i_type := T_DIR; i_major := 0; i_minor := 0; i_owner := 0; i_perms := 0; i_attrib := 0; i_nlink := 1; i_size := 48; i_addrs := 48 :: replicate 11 0 |}.
Definition file_inode : inode := set_size 0 (with_addrs (replicate 12 0) sample_inode).
Definition inode_block : list Z :=
  let put i ip d := put_dinode d i (encode_dinode (get_dinode d i) ip) in put 1 root_inode (put 2 file_inode zero_block).
Definition drive_d : astate := {| amedia := <[ (0, 42) := inode_block ]> (amedia (drive_one (root_bytes ++ replicate 464 0))); pin := ∅; abudget := None |}.
Definition fs_d : kfs := {| disks := disks fs0; icache := root_inode :: replicate 3 inode_zero; rootdir := Some 0%nat; havesysfs := true |}.

Lemma view_d b : b <> 42 -> view drive_d (0, b) = view (drive_one (root_bytes ++ replicate 464 0)) (0, b).
Proof. intros Hb. unfold view, on_media, drive_d. cbn [pin amedia drive_one]. by rewrite lookup_insert_ne by congruence. Qed.
Lemma root_on_disk : disk_inode drive_d 0 sb0 1 = set_flags 0 (set_ref 0 (set_mount None None root_inode)).
Proof. vm_compute. reflexivity. Qed.
Lemma fs_d_ok : fs_ok drive_d 0 sb0.
Proof.
  split; [apply sb0_fits| | |].
  - intros b. destruct (decide (b = 42)) as [->|Hb]; [vm_compute; reflexivity|]. rewrite view_d by done. by apply len1.
  - intros b Hb Hd. rewrite <- (fk_meta _ _ _ (fs_one_ok (root_bytes ++ replicate 464 0) eq_refl) b Hb Hd).
    unfold in_use. rewrite view_d; [done|]. unfold BBLOCK, BPB. cbn [bmapstart sb_size sb0] in *. dlia.
  - apply (fk_inodes _ _ _ (fs_one_ok (root_bytes ++ replicate 464 0) eq_refl)).
Qed.
Lemma file_d_ok : file_ok drive_d sb0 (disk_inode drive_d 0 sb0 1).
Proof.
  rewrite root_on_disk. destruct (file_one_ok (root_bytes ++ replicate 464 0) eq_refl 48) as [F1 F2 F3 F4 F5 F6 F7 F8 F9]; [lia|].
  set (r := set_flags _ _). assert (forall k, addr_at r k = addr_at (one_block 48) k) as EA by done.
  assert (forall bn, ptr drive_d r bn = ptr (drive_one (root_bytes ++ replicate 464 0)) (one_block 48) bn) as EP.
  { intros bn. unfold ptr, offset2real. rewrite EA. set (k := Z.to_nat _). destruct (Z.eqb_spec (addr_at (one_block 48) k) 0) as [|Ha]; [done|].
    rewrite addr1 in Ha |- *. change (i_dev r) with 0. change (i_dev (one_block 48)) with 0. rewrite view_d; [done|]. case_decide; [lia|done]. }
  assert (forall b, data_block sb0 b -> in_use (drive_one (root_bytes ++ replicate 464 0)) 0 sb0 b = true -> in_use drive_d 0 sb0 b = true) as HU.
  { intros b Hb <-. unfold in_use. rewrite view_d; [done|]. destruct Hb as [Hb _ _ _]. unfold BBLOCK, BPB. cbn [bmapstart sb_size sb0] in *. dlia. }
  split; [done|cbn; lia|done|..].
  - intros k Hk. destruct (F4 k Hk) as [Hb Hu]. split; [done|by apply HU].
  - intros bn Hb. rewrite EP. intros Hp. destruct (F5 bn Hb Hp) as [Hd Hu]. split; [done|by apply HU].
  - exact F6.
  - intros b c Hb Hc. rewrite !EP. by apply F7.
  - intros k b Hb Hk. rewrite EP. by apply F8.
  - intros bn Hb Hs. rewrite EP. by apply F9.
Qed.
Lemma only_root inum : 0 <= inum < 40 -> i_type (disk_inode drive_d 0 sb0 inum) = T_DIR -> inum = 1.
Proof.
  intros Hi Ht. pose proof (every 40 (fun i => negb (i_type (disk_inode drive_d 0 sb0 i) =? T_DIR) || (i =? 1)) ltac:(vm_compute; reflexivity) inum Hi) as H.
  cbn beta in H. rewrite Ht, Z.eqb_refl in H. by apply Z.eqb_eq.
Qed.
Lemma root_entries : dirents (dir_of drive_d 0 sb0 1) = [(1, [46]); (1, [46; 46]); (2, [102])].
Proof. vm_compute. reflexivity. Qed.
Lemma graph_d : graph Concrete.only0 drive_d 0 sb0.
Proof.
  split; [apply fs_d_ok| | |].
  - split; [intros h v; cbn [drive_d pin]; by rewrite lookup_empty|vm_compute; lia|done].
  - intros inum Hi ->%only_root; [|done]. split; [apply file_d_ok|by rewrite root_on_disk].
  - intros inum k e n Hi ->%only_root; [|done]. rewrite root_entries. intros Hk He.
    destruct k as [|[|[|k]]]; try done; injection Hk as <- <-; cbn [ninodes sb0]; (split; [lia|vm_compute; congruence]).
Qed.
Lemma cached_d : cached drive_d 0 sb0 None fs_d.
Proof.
  assert (forall i ip, icache fs_d !! i = Some ip -> 0 < i_ref ip -> i = 0%nat /\ ip = root_inode) as H1.
  { intros i ip. do 4 (destruct i as [|i]; [by intros [= <-]|]). done. }
  split; [split|reflexivity| |done].
  - intros i ip. do 4 (destruct i as [|i]; [by intros [= <-]|]). done.
  - intros i j ip jp Hi Hj Hri Hrj _ _. destruct (H1 i ip Hi Hri) as [-> _]. by destruct (H1 j jp Hj Hrj) as [-> _].
  - intros i ip Hi Hr _. destruct (H1 i ip Hi Hr) as [-> ->]. split; [cbn; lia|reflexivity|reflexivity| |done].
    intros _. split; [done|]. exists 1%nat. unfold dir_find. cbn [i_inum root_inode]. rewrite root_entries. reflexivity.
Qed.

(** "/f" is inode 2, and its directory the root. *)
Lemma namex_resolves_witness :
  (exists r nm x', Spec.run Concrete.only0 (namex (fun _ => None) None [47; 102] false name_buf false) fs_d drive_d = Ok (r, nm) (x', drive_d) /\
     walked 0 fs_d x' (Some 2) r) /\
  (exists r nm x', Spec.run Concrete.only0 (namex (fun _ => None) None [47; 102] true name_buf false) fs_d drive_d = Ok (r, nm) (x', drive_d) /\
     walked 0 fs_d x' (Some 1) r /\ until0 nm = [102]).
Proof.
  assert (two_free (refs fs_d)) as H2 by (exists 1%nat, 2%nat; split_and!; [lia|reflexivity|reflexivity]).
  assert (points 0 fs_d 0 1) as HP by (exists root_inode; split_and!; reflexivity).
  assert (i_nlink (disk_inode drive_d 0 sb0 1) <> 0) as HN by (by rewrite root_on_disk).
  assert (Forall (fun c => c <> 0) [47; 102]) as HZ by (repeat constructor; lia).
  assert (take DIRSIZ <$> components [47; 102] = [[102]]) as EC by (vm_compute; reflexivity).
  split.
  - destruct (namex_resolves Concrete.only0 (fun _ => None) drive_d 0 sb0 None [47; 102] false false name_buf fs_d 0 1 graph_d cached_d H2 eq_refl HP HN eq_refl HZ) as (r & nm & x' & E & _ & _ & W & _).
    exists r, nm, x'. split; [exact E|]. rewrite EC in W. assert (target drive_d 0 sb0 false 1 [[102]] = Some 2) as ET by (vm_compute; reflexivity).
    by rewrite ET in W.
  - destruct (namex_resolves Concrete.only0 (fun _ => None) drive_d 0 sb0 None [47; 102] true false name_buf fs_d 0 1 graph_d cached_d H2 eq_refl HP HN eq_refl HZ) as (r & nm & x' & E & _ & _ & W & L).
    exists r, nm, x'. rewrite EC in *. assert (target drive_d 0 sb0 true 1 [[102]] = Some 1) as ET by (vm_compute; reflexivity). rewrite ET in W.
    split; [exact E|]. split; [exact W|]. destruct W as (j & -> & _). specialize (L eq_refl ltac:(done)). by injection L.
Defined.

(** A directory of two entries in the file of one block. *)
Definition two_entries : list Z := make_dirent (c_name [46]) 17 ++ make_dirent (c_name c_dotdot) 1.
Definition dir_ip : inode :=
  let ip := one_block 32 in {| i_dev := i_dev ip; i_inum := i_inum ip; i_ref := i_ref ip; i_flags := i_flags ip; mountroot := None; mountparent := None; mountpoint := None;
     i_type := T_DIR; i_major := i_major ip; i_minor := i_minor ip; i_owner := i_owner ip; i_perms := i_perms ip; i_attrib := i_attrib ip;
     i_nlink := i_nlink ip; i_size := i_size ip; i_addrs := i_addrs ip |}.
Definition drive_two : astate := drive_one (two_entries ++ replicate 480 0).
Definition fs_two : kfs := {| disks := disks fs0; icache := dir_ip :: replicate 3 inode_zero; rootdir := None; havesysfs := true |}.
Lemma file_two_ok : file_ok drive_two sb0 dir_ip.
Proof. destruct (file_one_ok (two_entries ++ replicate 480 0) eq_refl 32) as [F1 F2 F3 F4 F5 F6 F7 F8 F9]; [lia|]. by split. Qed.
Lemma dirlink_adds_witness :
  (exists x' a' ip', Spec.run Concrete.only0 (dirlink (fun _ => None) (fun _ => None) 0 (c_name [103]) 5) fs_two drive_two = Ok 0 (x', a') /\
     icache x' !! 0%nat = Some ip' /\ dir_find (contents a' ip') [103] = Some (2%nat, 5) /\ dir_find (contents a' ip') [46] = Some (0%nat, 17)) \/
  (exists x' a', Spec.run Concrete.only0 (dirlink (fun _ => None) (fun _ => None) 0 (c_name [103]) 5) fs_two drive_two = Panic "dirlink" (x', a') /\ no_space a' dir_ip sb0).
Proof.
  assert (free_place (contents drive_two dir_ip) = 2%nat) as EF by (vm_compute; reflexivity).
  pose proof (dirlink_adds Concrete.only0 (fun _ => None) (fun _ => None) 0 (c_name [103]) 5 room fs_two drive_two dir_ip sb0 (Concrete.log0 40 1)) as H.
  cbn zeta in H. rewrite EF in H.
  destruct H as [(x' & a' & ip' & E & Hi & _ & _ & F & O & _)|H]; [..|by left; exists x', a', ip'; split_and!; [| |exact F|rewrite O; [vm_compute; reflexivity|done]]|by right].
  - split; [done| |done|by apply fs_one_ok|apply file_two_ok|].
    + split; try (vm_compute; (reflexivity || congruence || lia)).
    + intros b ->%is_bitmap_sb0. apply elem_of_union_l, elem_of_singleton. done.
  - intros c _. change (addr_at dir_ip) with (addr_at (one_block 32)). rewrite addr1. case_decide; [|done]. intros _.
    apply elem_of_union_r, elem_of_singleton. done.
  - apply readable_one.
  - split; [by apply fs_one_ok|apply file_two_ok|done|done].
  - done.
  - done.
  - lia.
  - unfold MAXFILE, NINDIRECT. lia.
  - vm_compute. reflexivity.
Defined.

(** A directory whose block is full, on a disk with no free block: adding a name
    takes the kernel down. *)
Definition full_dir : list Z := mjoin (replicate 32 (make_dirent (c_name [97]) 3)).
Definition drive_full : astate :=
  {| amedia := {[ (0, 47) := replicate 512 255; (0, 48) := store_le zero_block 0 4 49; (0, 49) := full_dir ]}; pin := ∅; abudget := None |}.
Definition fs_full : kfs := {| disks := disks fs0; icache := set_size 512 dir_ip :: replicate 3 inode_zero; rootdir := None; havesysfs := true |}.
Example dirlink_panics_when_full : match Spec.run Concrete.only0 (dirlink (fun _ => None) (fun _ => None) 0 (c_name [103]) 5) fs_full drive_full with
  | Panic m _ => m = "dirlink"%string | _ => False end.
Proof. vm_compute. reflexivity. Qed.
End DirSample.
