(* ===== verification/Kernel.v ===== *)
(** The kernel's memory beyond the file system: open files, pipes, processes and
    their mailboxes ([file.h], [pipe.c], [proc.h]), and how file-system routines
    run inside it.

    Pointers to table entries are indices; pointers into the heap ([struct pipe],
    [Message]) are keys of a finite map, so a freed object is an absent key.
    Whether an allocation succeeds is the allocator's business: [oracle] holds
    its answers in order, and an empty list stands for success. *)

From S2P Require Import Prelude Params Bio Disk Fs.
Import BlockIO.

(** ** Data *)

Inductive fdtype := FD_NONE | FD_PIPE | FD_INODE.
#[export] Instance fdtype_eq_dec : EqDecision fdtype.
Proof. solve_decision. Defined.

(** [struct file]. *)
Record file := File {
  f_type : fdtype;
  f_ref : Z;
  f_readable : bool;
  f_writable : bool;
  f_pipe : option nat;
  f_ip : option nat;
  f_off : Z
}.
Definition set_f_type (v : fdtype) (f : file) : file :=
  {| f_type := v; f_ref := f_ref f; f_readable := f_readable f; f_writable := f_writable f;
     f_pipe := f_pipe f; f_ip := f_ip f; f_off := f_off f |}.
Definition set_f_ref (v : Z) (f : file) : file :=
  {| f_type := f_type f; f_ref := v; f_readable := f_readable f; f_writable := f_writable f;
     f_pipe := f_pipe f; f_ip := f_ip f; f_off := f_off f |}.
Definition set_f_readable (v : bool) (f : file) : file :=
  {| f_type := f_type f; f_ref := f_ref f; f_readable := v; f_writable := f_writable f;
     f_pipe := f_pipe f; f_ip := f_ip f; f_off := f_off f |}.
Definition set_f_writable (v : bool) (f : file) : file :=
  {| f_type := f_type f; f_ref := f_ref f; f_readable := f_readable f; f_writable := v;
     f_pipe := f_pipe f; f_ip := f_ip f; f_off := f_off f |}.
Definition set_f_pipe (v : option nat) (f : file) : file :=
  {| f_type := f_type f; f_ref := f_ref f; f_readable := f_readable f;
     f_writable := f_writable f; f_pipe := v; f_ip := f_ip f; f_off := f_off f |}.
Definition set_f_ip (v : option nat) (f : file) : file :=
  {| f_type := f_type f; f_ref := f_ref f; f_readable := f_readable f;
     f_writable := f_writable f; f_pipe := f_pipe f; f_ip := v; f_off := f_off f |}.
Definition set_f_off (v : Z) (f : file) : file :=
  {| f_type := f_type f; f_ref := f_ref f; f_readable := f_readable f;
     f_writable := f_writable f; f_pipe := f_pipe f; f_ip := f_ip f; f_off := v |}.
Definition file_zero : file :=
  {| f_type := FD_NONE; f_ref := 0; f_readable := false; f_writable := false; f_pipe := None;
     f_ip := None; f_off := 0 |}.

Definition PIPESIZE : nat := 512.
(** [struct pipe] without its lock. *)
Record pipe := Pipe {
  p_data : list Z;
  nread : Z;
  nwrite : Z;
  readopen : bool;
  writeopen : bool
}.
Definition set_p_data (v : list Z) (p : pipe) : pipe :=
  {| p_data := v; nread := nread p; nwrite := nwrite p; readopen := readopen p;
     writeopen := writeopen p |}.
Definition set_nread (v : Z) (p : pipe) : pipe :=
  {| p_data := p_data p; nread := v; nwrite := nwrite p; readopen := readopen p;
     writeopen := writeopen p |}.
Definition set_nwrite (v : Z) (p : pipe) : pipe :=
  {| p_data := p_data p; nread := nread p; nwrite := v; readopen := readopen p;
     writeopen := writeopen p |}.
Definition set_readopen (v : bool) (p : pipe) : pipe :=
  {| p_data := p_data p; nread := nread p; nwrite := nwrite p; readopen := v;
     writeopen := writeopen p |}.
Definition set_writeopen (v : bool) (p : pipe) : pipe :=
  {| p_data := p_data p; nread := nread p; nwrite := nwrite p; readopen := readopen p;
     writeopen := v |}.

(** [Message] and [Mailbox] without its lock. *)
Record message := Message {
  m_size : Z;
  m_data : list Z;
  m_next : option nat
}.
Definition set_m_size (v : Z) (m : message) : message :=
  {| m_size := v; m_data := m_data m; m_next := m_next m |}.
Definition set_m_data (v : list Z) (m : message) : message :=
  {| m_size := m_size m; m_data := v; m_next := m_next m |}.
Definition set_m_next (v : option nat) (m : message) : message :=
  {| m_size := m_size m; m_data := m_data m; m_next := v |}.
Record mailbox := Mailbox { mb_head : option nat; mb_tail : option nat }.

Inductive procstate := UNUSED | EMBRYO | SLEEPING | WAIT | MSGWAIT | RUNNABLE | RUNNING | ZOMBIE | CRASHED.
#[export] Instance procstate_eq_dec : EqDecision procstate.
Proof. solve_decision. Defined.
Inductive proctype := PROCESS | THREAD.
#[export] Instance proctype_eq_dec : EqDecision proctype.
Proof. solve_decision. Defined.

(** What a process sleeps on: the address passed to [sleep]. *)
Inductive channel :=
| ChRead (p : nat)    (* &pipe->nread *)
| ChWrite (p : nat)   (* &pipe->nwrite *)
| ChProc (p : nat)    (* a process *)
| ChOther (a : Z).
#[export] Instance channel_eq_dec : EqDecision channel.
Proof. solve_decision. Defined.

(** The trap frame: the registers the kernel looks at. *)
Record trapframe := Trapframe { tf_eax : Z; tf_esp : Z; tf_eip : Z }.

(** [struct proc]: page tables are named by a number, and the kernel stack is
    present or not.  [waitrounds] and the thread list are kept; the saved
    context is not.  [err] is the error message, by the name of its macro; setting
    it sets [errset]. *)
Record proc := Proc {
  sz : Z;
  pgdir : option nat;
  kstack : bool;
  state : procstate;
  type : proctype;
  waitrounds : Z;
  pid : Z;
  uid : Z;
  sid : Z;
  parent : option nat;
  tf : trapframe;
  chan : option channel;
  killed : bool;
  crashed : bool;
  ofile : list (option nat);
  p_root : option nat;
  cwd : option nat;
  err : option string;
  name : list Z;
  ssp : Z;
  threadi : Z;
  threads : list (option nat);
  mbox : mailbox;
  errset : bool;
  injail : bool;
  rdirpath : list Z
}.
Definition set_sz (v : Z) (p : proc) : proc :=
  {| sz := v; pgdir := pgdir p; kstack := kstack p; state := state p; type := type p;
     waitrounds := waitrounds p; pid := pid p; uid := uid p; sid := sid p; parent := parent p;
     tf := tf p; chan := chan p; killed := killed p; crashed := crashed p; ofile := ofile p;
     p_root := p_root p; cwd := cwd p; err := err p; name := name p; ssp := ssp p;
     threadi := threadi p; threads := threads p; mbox := mbox p; errset := errset p; injail := injail p; rdirpath := rdirpath p |}.
Definition set_pgdir (v : option nat) (p : proc) : proc :=
  {| sz := sz p; pgdir := v; kstack := kstack p; state := state p; type := type p;
     waitrounds := waitrounds p; pid := pid p; uid := uid p; sid := sid p; parent := parent p;
     tf := tf p; chan := chan p; killed := killed p; crashed := crashed p; ofile := ofile p;
     p_root := p_root p; cwd := cwd p; err := err p; name := name p; ssp := ssp p;
     threadi := threadi p; threads := threads p; mbox := mbox p; errset := errset p; injail := injail p; rdirpath := rdirpath p |}.
Definition set_kstack (v : bool) (p : proc) : proc :=
  {| sz := sz p; pgdir := pgdir p; kstack := v; state := state p; type := type p;
     waitrounds := waitrounds p; pid := pid p; uid := uid p; sid := sid p; parent := parent p;
     tf := tf p; chan := chan p; killed := killed p; crashed := crashed p; ofile := ofile p;
     p_root := p_root p; cwd := cwd p; err := err p; name := name p; ssp := ssp p;
     threadi := threadi p; threads := threads p; mbox := mbox p; errset := errset p; injail := injail p; rdirpath := rdirpath p |}.
Definition set_state (v : procstate) (p : proc) : proc :=
  {| sz := sz p; pgdir := pgdir p; kstack := kstack p; state := v; type := type p;
     waitrounds := waitrounds p; pid := pid p; uid := uid p; sid := sid p; parent := parent p;
     tf := tf p; chan := chan p; killed := killed p; crashed := crashed p; ofile := ofile p;
     p_root := p_root p; cwd := cwd p; err := err p; name := name p; ssp := ssp p;
     threadi := threadi p; threads := threads p; mbox := mbox p; errset := errset p; injail := injail p; rdirpath := rdirpath p |}.
Definition set_type (v : proctype) (p : proc) : proc :=
  {| sz := sz p; pgdir := pgdir p; kstack := kstack p; state := state p; type := v;
     waitrounds := waitrounds p; pid := pid p; uid := uid p; sid := sid p; parent := parent p;
     tf := tf p; chan := chan p; killed := killed p; crashed := crashed p; ofile := ofile p;
     p_root := p_root p; cwd := cwd p; err := err p; name := name p; ssp := ssp p;
     threadi := threadi p; threads := threads p; mbox := mbox p; errset := errset p; injail := injail p; rdirpath := rdirpath p |}.
Definition set_waitrounds (v : Z) (p : proc) : proc :=
  {| sz := sz p; pgdir := pgdir p; kstack := kstack p; state := state p; type := type p;
     waitrounds := v; pid := pid p; uid := uid p; sid := sid p; parent := parent p;
     tf := tf p; chan := chan p; killed := killed p; crashed := crashed p; ofile := ofile p;
     p_root := p_root p; cwd := cwd p; err := err p; name := name p; ssp := ssp p;
     threadi := threadi p; threads := threads p; mbox := mbox p; errset := errset p; injail := injail p; rdirpath := rdirpath p |}.
Definition set_pid (v : Z) (p : proc) : proc :=
  {| sz := sz p; pgdir := pgdir p; kstack := kstack p; state := state p; type := type p;
     waitrounds := waitrounds p; pid := v; uid := uid p; sid := sid p; parent := parent p;
     tf := tf p; chan := chan p; killed := killed p; crashed := crashed p; ofile := ofile p;
     p_root := p_root p; cwd := cwd p; err := err p; name := name p; ssp := ssp p;
     threadi := threadi p; threads := threads p; mbox := mbox p; errset := errset p; injail := injail p; rdirpath := rdirpath p |}.
Definition set_uid (v : Z) (p : proc) : proc :=
  {| sz := sz p; pgdir := pgdir p; kstack := kstack p; state := state p; type := type p;
     waitrounds := waitrounds p; pid := pid p; uid := v; sid := sid p; parent := parent p;
     tf := tf p; chan := chan p; killed := killed p; crashed := crashed p; ofile := ofile p;
     p_root := p_root p; cwd := cwd p; err := err p; name := name p; ssp := ssp p;
     threadi := threadi p; threads := threads p; mbox := mbox p; errset := errset p; injail := injail p; rdirpath := rdirpath p |}.
Definition set_sid (v : Z) (p : proc) : proc :=
  {| sz := sz p; pgdir := pgdir p; kstack := kstack p; state := state p; type := type p;
     waitrounds := waitrounds p; pid := pid p; uid := uid p; sid := v; parent := parent p;
     tf := tf p; chan := chan p; killed := killed p; crashed := crashed p; ofile := ofile p;
     p_root := p_root p; cwd := cwd p; err := err p; name := name p; ssp := ssp p;
     threadi := threadi p; threads := threads p; mbox := mbox p; errset := errset p; injail := injail p; rdirpath := rdirpath p |}.
Definition set_parent (v : option nat) (p : proc) : proc :=
  {| sz := sz p; pgdir := pgdir p; kstack := kstack p; state := state p; type := type p;
     waitrounds := waitrounds p; pid := pid p; uid := uid p; sid := sid p; parent := v;
     tf := tf p; chan := chan p; killed := killed p; crashed := crashed p; ofile := ofile p;
     p_root := p_root p; cwd := cwd p; err := err p; name := name p; ssp := ssp p;
     threadi := threadi p; threads := threads p; mbox := mbox p; errset := errset p; injail := injail p; rdirpath := rdirpath p |}.
Definition set_tf (v : trapframe) (p : proc) : proc :=
  {| sz := sz p; pgdir := pgdir p; kstack := kstack p; state := state p; type := type p;
     waitrounds := waitrounds p; pid := pid p; uid := uid p; sid := sid p; parent := parent p;
     tf := v; chan := chan p; killed := killed p; crashed := crashed p; ofile := ofile p;
     p_root := p_root p; cwd := cwd p; err := err p; name := name p; ssp := ssp p;
     threadi := threadi p; threads := threads p; mbox := mbox p; errset := errset p; injail := injail p; rdirpath := rdirpath p |}.
Definition set_chan (v : option channel) (p : proc) : proc :=
  {| sz := sz p; pgdir := pgdir p; kstack := kstack p; state := state p; type := type p;
     waitrounds := waitrounds p; pid := pid p; uid := uid p; sid := sid p; parent := parent p;
     tf := tf p; chan := v; killed := killed p; crashed := crashed p; ofile := ofile p;
     p_root := p_root p; cwd := cwd p; err := err p; name := name p; ssp := ssp p;
     threadi := threadi p; threads := threads p; mbox := mbox p; errset := errset p; injail := injail p; rdirpath := rdirpath p |}.
Definition set_killed (v : bool) (p : proc) : proc :=
  {| sz := sz p; pgdir := pgdir p; kstack := kstack p; state := state p; type := type p;
     waitrounds := waitrounds p; pid := pid p; uid := uid p; sid := sid p; parent := parent p;
     tf := tf p; chan := chan p; killed := v; crashed := crashed p; ofile := ofile p;
     p_root := p_root p; cwd := cwd p; err := err p; name := name p; ssp := ssp p;
     threadi := threadi p; threads := threads p; mbox := mbox p; errset := errset p; injail := injail p; rdirpath := rdirpath p |}.
Definition set_crashed (v : bool) (p : proc) : proc :=
  {| sz := sz p; pgdir := pgdir p; kstack := kstack p; state := state p; type := type p;
     waitrounds := waitrounds p; pid := pid p; uid := uid p; sid := sid p; parent := parent p;
     tf := tf p; chan := chan p; killed := killed p; crashed := v; ofile := ofile p;
     p_root := p_root p; cwd := cwd p; err := err p; name := name p; ssp := ssp p;
     threadi := threadi p; threads := threads p; mbox := mbox p; errset := errset p; injail := injail p; rdirpath := rdirpath p |}.
Definition set_ofile (v : list (option nat)) (p : proc) : proc :=
  {| sz := sz p; pgdir := pgdir p; kstack := kstack p; state := state p; type := type p;
     waitrounds := waitrounds p; pid := pid p; uid := uid p; sid := sid p; parent := parent p;
     tf := tf p; chan := chan p; killed := killed p; crashed := crashed p; ofile := v;
     p_root := p_root p; cwd := cwd p; err := err p; name := name p; ssp := ssp p;
     threadi := threadi p; threads := threads p; mbox := mbox p; errset := errset p; injail := injail p; rdirpath := rdirpath p |}.
Definition set_p_root (v : option nat) (p : proc) : proc :=
  {| sz := sz p; pgdir := pgdir p; kstack := kstack p; state := state p; type := type p;
     waitrounds := waitrounds p; pid := pid p; uid := uid p; sid := sid p; parent := parent p;
     tf := tf p; chan := chan p; killed := killed p; crashed := crashed p; ofile := ofile p;
     p_root := v; cwd := cwd p; err := err p; name := name p; ssp := ssp p;
     threadi := threadi p; threads := threads p; mbox := mbox p; errset := errset p; injail := injail p; rdirpath := rdirpath p |}.
Definition set_cwd (v : option nat) (p : proc) : proc :=
  {| sz := sz p; pgdir := pgdir p; kstack := kstack p; state := state p; type := type p;
     waitrounds := waitrounds p; pid := pid p; uid := uid p; sid := sid p; parent := parent p;
     tf := tf p; chan := chan p; killed := killed p; crashed := crashed p; ofile := ofile p;
     p_root := p_root p; cwd := v; err := err p; name := name p; ssp := ssp p;
     threadi := threadi p; threads := threads p; mbox := mbox p; errset := errset p; injail := injail p; rdirpath := rdirpath p |}.
Definition set_err (v : option string) (p : proc) : proc :=
  {| sz := sz p; pgdir := pgdir p; kstack := kstack p; state := state p; type := type p;
     waitrounds := waitrounds p; pid := pid p; uid := uid p; sid := sid p; parent := parent p;
     tf := tf p; chan := chan p; killed := killed p; crashed := crashed p; ofile := ofile p;
     p_root := p_root p; cwd := cwd p; err := v; name := name p; ssp := ssp p;
     threadi := threadi p; threads := threads p; mbox := mbox p; errset := match v with Some _ => true | None => false end; injail := injail p; rdirpath := rdirpath p |}.
Definition set_name (v : list Z) (p : proc) : proc :=
  {| sz := sz p; pgdir := pgdir p; kstack := kstack p; state := state p; type := type p;
     waitrounds := waitrounds p; pid := pid p; uid := uid p; sid := sid p; parent := parent p;
     tf := tf p; chan := chan p; killed := killed p; crashed := crashed p; ofile := ofile p;
     p_root := p_root p; cwd := cwd p; err := err p; name := v; ssp := ssp p;
     threadi := threadi p; threads := threads p; mbox := mbox p; errset := errset p; injail := injail p; rdirpath := rdirpath p |}.
Definition set_ssp (v : Z) (p : proc) : proc :=
  {| sz := sz p; pgdir := pgdir p; kstack := kstack p; state := state p; type := type p;
     waitrounds := waitrounds p; pid := pid p; uid := uid p; sid := sid p; parent := parent p;
     tf := tf p; chan := chan p; killed := killed p; crashed := crashed p; ofile := ofile p;
     p_root := p_root p; cwd := cwd p; err := err p; name := name p; ssp := v;
     threadi := threadi p; threads := threads p; mbox := mbox p; errset := errset p; injail := injail p; rdirpath := rdirpath p |}.
Definition set_threadi (v : Z) (p : proc) : proc :=
  {| sz := sz p; pgdir := pgdir p; kstack := kstack p; state := state p; type := type p;
     waitrounds := waitrounds p; pid := pid p; uid := uid p; sid := sid p; parent := parent p;
     tf := tf p; chan := chan p; killed := killed p; crashed := crashed p; ofile := ofile p;
     p_root := p_root p; cwd := cwd p; err := err p; name := name p; ssp := ssp p;
     threadi := v; threads := threads p; mbox := mbox p; errset := errset p; injail := injail p; rdirpath := rdirpath p |}.
Definition set_threads (v : list (option nat)) (p : proc) : proc :=
  {| sz := sz p; pgdir := pgdir p; kstack := kstack p; state := state p; type := type p;
     waitrounds := waitrounds p; pid := pid p; uid := uid p; sid := sid p; parent := parent p;
     tf := tf p; chan := chan p; killed := killed p; crashed := crashed p; ofile := ofile p;
     p_root := p_root p; cwd := cwd p; err := err p; name := name p; ssp := ssp p;
     threadi := threadi p; threads := v; mbox := mbox p; errset := errset p; injail := injail p; rdirpath := rdirpath p |}.
Definition set_mbox (v : mailbox) (p : proc) : proc :=
  {| sz := sz p; pgdir := pgdir p; kstack := kstack p; state := state p; type := type p;
     waitrounds := waitrounds p; pid := pid p; uid := uid p; sid := sid p; parent := parent p;
     tf := tf p; chan := chan p; killed := killed p; crashed := crashed p; ofile := ofile p;
     p_root := p_root p; cwd := cwd p; err := err p; name := name p; ssp := ssp p;
     threadi := threadi p; threads := threads p; mbox := v; errset := errset p; injail := injail p; rdirpath := rdirpath p |}.
Definition set_errset (v : bool) (p : proc) : proc :=
  {| sz := sz p; pgdir := pgdir p; kstack := kstack p; state := state p; type := type p;
     waitrounds := waitrounds p; pid := pid p; uid := uid p; sid := sid p; parent := parent p;
     tf := tf p; chan := chan p; killed := killed p; crashed := crashed p; ofile := ofile p;
     p_root := p_root p; cwd := cwd p; err := err p; name := name p; ssp := ssp p;
     threadi := threadi p; threads := threads p; mbox := mbox p; errset := v; injail := injail p; rdirpath := rdirpath p |}.
Definition set_injail (v : bool) (p : proc) : proc :=
  {| sz := sz p; pgdir := pgdir p; kstack := kstack p; state := state p; type := type p;
     waitrounds := waitrounds p; pid := pid p; uid := uid p; sid := sid p; parent := parent p;
     tf := tf p; chan := chan p; killed := killed p; crashed := crashed p; ofile := ofile p;
     p_root := p_root p; cwd := cwd p; err := err p; name := name p; ssp := ssp p;
     threadi := threadi p; threads := threads p; mbox := mbox p; errset := errset p; injail := v; rdirpath := rdirpath p |}.
Definition set_rdirpath (v : list Z) (p : proc) : proc :=
  {| sz := sz p; pgdir := pgdir p; kstack := kstack p; state := state p; type := type p;
     waitrounds := waitrounds p; pid := pid p; uid := uid p; sid := sid p; parent := parent p;
     tf := tf p; chan := chan p; killed := killed p; crashed := crashed p; ofile := ofile p;
     p_root := p_root p; cwd := cwd p; err := err p; name := name p; ssp := ssp p;
     threadi := threadi p; threads := threads p; mbox := mbox p; errset := errset p; injail := injail p; rdirpath := v |}.
Definition proc_zero : proc :=
  {| sz := 0; pgdir := None; kstack := false; state := UNUSED; type := PROCESS; waitrounds := 0;
     pid := 0; uid := 0; sid := 0; parent := None; tf := {| tf_eax := 0; tf_esp := 0; tf_eip := 0 |};
     chan := None; killed := false; crashed := false; ofile := replicate NOFILE None; p_root := None;
     cwd := None; err := None; name := []; ssp := 0; threadi := 0; threads := replicate THREADMAX None;
     mbox := {| mb_head := None; mb_tail := None |}; errset := false; injail := false; rdirpath := [] |}.

Record kmem := KMem {
  fs : kfs;
  ftab : list file;
  pipes : gmap nat pipe;
  msgs : gmap nat message;
  fresh : nat;
  procs : list proc;
  cur : option nat;
  nextpid : Z;
  initproc : option nat;
  first : bool;
  singleuser : bool;
  allowthreads : bool;
  useclone : bool;
  oracle : list bool
}.
Definition set_fs (v : kfs) (k : kmem) : kmem :=
  {| fs := v; ftab := ftab k; pipes := pipes k; msgs := msgs k; fresh := fresh k;
     procs := procs k; cur := cur k; nextpid := nextpid k; initproc := initproc k;
     first := first k; singleuser := singleuser k; allowthreads := allowthreads k;
     useclone := useclone k; oracle := oracle k |}.
Definition set_ftab (v : list file) (k : kmem) : kmem :=
  {| fs := fs k; ftab := v; pipes := pipes k; msgs := msgs k; fresh := fresh k;
     procs := procs k; cur := cur k; nextpid := nextpid k; initproc := initproc k;
     first := first k; singleuser := singleuser k; allowthreads := allowthreads k;
     useclone := useclone k; oracle := oracle k |}.
Definition set_pipes (v : gmap nat pipe) (k : kmem) : kmem :=
  {| fs := fs k; ftab := ftab k; pipes := v; msgs := msgs k; fresh := fresh k;
     procs := procs k; cur := cur k; nextpid := nextpid k; initproc := initproc k;
     first := first k; singleuser := singleuser k; allowthreads := allowthreads k;
     useclone := useclone k; oracle := oracle k |}.
Definition set_msgs (v : gmap nat message) (k : kmem) : kmem :=
  {| fs := fs k; ftab := ftab k; pipes := pipes k; msgs := v; fresh := fresh k;
     procs := procs k; cur := cur k; nextpid := nextpid k; initproc := initproc k;
     first := first k; singleuser := singleuser k; allowthreads := allowthreads k;
     useclone := useclone k; oracle := oracle k |}.
Definition set_fresh (v : nat) (k : kmem) : kmem :=
  {| fs := fs k; ftab := ftab k; pipes := pipes k; msgs := msgs k; fresh := v;
     procs := procs k; cur := cur k; nextpid := nextpid k; initproc := initproc k;
     first := first k; singleuser := singleuser k; allowthreads := allowthreads k;
     useclone := useclone k; oracle := oracle k |}.
Definition set_procs (v : list proc) (k : kmem) : kmem :=
  {| fs := fs k; ftab := ftab k; pipes := pipes k; msgs := msgs k; fresh := fresh k;
     procs := v; cur := cur k; nextpid := nextpid k; initproc := initproc k; first := first k;
     singleuser := singleuser k; allowthreads := allowthreads k; useclone := useclone k;
     oracle := oracle k |}.
Definition set_cur (v : option nat) (k : kmem) : kmem :=
  {| fs := fs k; ftab := ftab k; pipes := pipes k; msgs := msgs k; fresh := fresh k;
     procs := procs k; cur := v; nextpid := nextpid k; initproc := initproc k;
     first := first k; singleuser := singleuser k; allowthreads := allowthreads k;
     useclone := useclone k; oracle := oracle k |}.
Definition set_nextpid (v : Z) (k : kmem) : kmem :=
  {| fs := fs k; ftab := ftab k; pipes := pipes k; msgs := msgs k; fresh := fresh k;
     procs := procs k; cur := cur k; nextpid := v; initproc := initproc k; first := first k;
     singleuser := singleuser k; allowthreads := allowthreads k; useclone := useclone k;
     oracle := oracle k |}.
Definition set_initproc (v : option nat) (k : kmem) : kmem :=
  {| fs := fs k; ftab := ftab k; pipes := pipes k; msgs := msgs k; fresh := fresh k;
     procs := procs k; cur := cur k; nextpid := nextpid k; initproc := v; first := first k;
     singleuser := singleuser k; allowthreads := allowthreads k; useclone := useclone k;
     oracle := oracle k |}.
Definition set_first (v : bool) (k : kmem) : kmem :=
  {| fs := fs k; ftab := ftab k; pipes := pipes k; msgs := msgs k; fresh := fresh k;
     procs := procs k; cur := cur k; nextpid := nextpid k; initproc := initproc k; first := v;
     singleuser := singleuser k; allowthreads := allowthreads k; useclone := useclone k;
     oracle := oracle k |}.
Definition set_singleuser (v : bool) (k : kmem) : kmem :=
  {| fs := fs k; ftab := ftab k; pipes := pipes k; msgs := msgs k; fresh := fresh k;
     procs := procs k; cur := cur k; nextpid := nextpid k; initproc := initproc k;
     first := first k; singleuser := v; allowthreads := allowthreads k;
     useclone := useclone k; oracle := oracle k |}.
Definition set_allowthreads (v : bool) (k : kmem) : kmem :=
  {| fs := fs k; ftab := ftab k; pipes := pipes k; msgs := msgs k; fresh := fresh k;
     procs := procs k; cur := cur k; nextpid := nextpid k; initproc := initproc k;
     first := first k; singleuser := singleuser k; allowthreads := v; useclone := useclone k;
     oracle := oracle k |}.
Definition set_useclone (v : bool) (k : kmem) : kmem :=
  {| fs := fs k; ftab := ftab k; pipes := pipes k; msgs := msgs k; fresh := fresh k;
     procs := procs k; cur := cur k; nextpid := nextpid k; initproc := initproc k;
     first := first k; singleuser := singleuser k; allowthreads := allowthreads k;
     useclone := v; oracle := oracle k |}.
Definition set_oracle (v : list bool) (k : kmem) : kmem :=
  {| fs := fs k; ftab := ftab k; pipes := pipes k; msgs := msgs k; fresh := fresh k;
     procs := procs k; cur := cur k; nextpid := nextpid k; initproc := initproc k;
     first := first k; singleuser := singleuser k; allowthreads := allowthreads k;
     useclone := useclone k; oracle := v |}.

(** ** Running parts *)

(** A routine on part of the memory. *)
Fixpoint zoom {K L A} (get : K -> L) (put : L -> K -> K) (p : prog L A) : prog K A :=
  match p with
  | Ret a => Ret a
  | Get f => Get (fun k => zoom get put (f (get k)))
  | Put l p => Get (fun k => Put (put l k) (zoom get put p))
  | Bread d bn p => Bread d bn (zoom get put p)
  | Data h f => Data h (fun d => zoom get put (f d))
  | SetData h d p => SetData h d (zoom get put p)
  | Bwrite h p => Bwrite h (zoom get put p)
  | Pin h p => Pin h (zoom get put p)
  | Brelse h p => Brelse h (zoom get put p)
  | Fail m => Fail m
  | Sleep => Sleep
  end.

Abbreviation K := (prog kmem).

(** A file-system routine, called from the kernel. *)
Definition on_fs {A} (p : prog kfs A) : K A := zoom fs set_fs p.

Definition kset (f : kmem -> kmem) : K unit := kmodify f.

(** [kalloc]/[kmalloc]: the next answer of the allocator. *)
Definition alloc : K bool :=
  o ← kget oracle;
  match o with
  | [] => mret true
  | b :: o' => kset (set_oracle o') ;; mret b
  end.
(** A new heap object's address. *)
Definition new_addr : K nat :=
  n ← kget fresh; kset (set_fresh (S n)) ;; mret n.

Definition file_at (i : nat) : K file :=
  o ← kget (fun k => ftab k !! i);
  match o with Some f => mret f | None => fail "bad file pointer" end.
Definition upd_file (i : nat) (g : file -> file) : K unit :=
  kset (fun k => set_ftab (alter g i (ftab k)) k).
Definition proc_at (i : nat) : K proc :=
  o ← kget (fun k => procs k !! i);
  match o with Some p => mret p | None => fail "bad proc pointer" end.
Definition upd_proc (i : nat) (g : proc -> proc) : K unit :=
  kset (fun k => set_procs (alter g i (procs k)) k).
(** The running process, [proc]; nil faults. *)
Definition curproc : K nat :=
  o ← kget cur; match o with Some i => mret i | None => fail "nil proc" end.
Definition pipe_at (i : nat) : K pipe :=
  o ← kget (fun k => pipes k !! i);
  match o with Some p => mret p | None => fail "bad pipe pointer" end.
Definition set_pipe (i : nat) (p : pipe) : K unit := kset (fun k => set_pipes (<[i := p]> (pipes k)) k).
Definition msg_at (i : nat) : K message :=
  o ← kget (fun k => msgs k !! i);
  match o with Some m => mret m | None => fail "bad message pointer" end.
Definition set_msg (i : nat) (m : message) : K unit := kset (fun k => set_msgs (<[i := m]> (msgs k)) k).

(** [seterr(x)]: record the message in the running process. *)
Definition seterr (m : string) : K unit := i ← curproc; upd_proc i (set_err (Some m)).

(** Wake up all processes sleeping on [c]. *)
Definition wake (c : channel) (p : proc) : proc :=
  if bool_decide (state p = SLEEPING) && bool_decide (chan p = Some c) then set_state RUNNABLE p else p.
Definition wakeup (c : channel) : K unit := kset (fun k => set_procs (wake c <$> procs k) k).

(** Go to sleep on [c]: the run ends, to be resumed by a [wakeup]. *)
Definition ksleep {A} (c : channel) : K A :=
  i ← curproc;
  upd_proc i (fun p => set_state SLEEPING (set_chan (Some c) p)) ;;
  sleep.

(** A table scan on the current memory. *)
Definition kscan {A} (tbl : kmem -> list A) (P : A -> bool) : K (option (nat * A)) :=
  kget (fun k => scan P (tbl k)).

(** ** Facts *)

Section facts.
Context (present : Z -> bool).

Lemma zoom_run {K' L A} (get : K' -> L) (put : L -> K' -> K') (p : prog L A) k a :
  (forall l k, get (put l k) = l) -> (forall l l' k, put l (put l' k) = put l k) ->
  (forall k, put (get k) k = k) ->
  Spec.run present (zoom get put p) k a =
  match Spec.run present p (get k) a with
  | Ok v (l, b) => Ok v (put l k, b)
  | Panic m (l, b) => Panic m (put l k, b)
  | Blocked (l, b) => Blocked (put l k, b)
  | PowerFail (l, b) => PowerFail (put l k, b)
  end.
Proof.
  intros GP PP PG. revert k a.
  induction p as [r|f IH|z p IH|d bn p IH|h f IH|h d p IH|h p IH|h p IH|h p IH|m|];
    intros k a; cbn [zoom Spec.run]; rewrite ?PG; auto.
  - rewrite IH, GP. by destruct (Spec.run present p z a) as [? []|? []|[]|[]]; rewrite PP.
  - unfold lift_res. destruct (Spec.bread _ _ _); [apply IH|by rewrite PG..].
  - unfold lift_res. destruct (Spec.bdata _ _); [apply IH|by rewrite PG..].
  - unfold lift_res. destruct (Spec.bset _ _ _); [apply IH|by rewrite PG..].
  - unfold lift_res. destruct (Spec.bwrite _ _); [apply IH|by rewrite PG..].
  - unfold lift_res. destruct (Spec.bpin _ _); [apply IH|by rewrite PG..].
  - unfold lift_res. destruct (Spec.brelse _ _); [apply IH|by rewrite PG..].
Qed.

(** A file-system routine changes only the file system. *)
Lemma on_fs_run {A} (p : prog kfs A) k a :
  Spec.run present (on_fs p) k a =
  match Spec.run present p (fs k) a with
  | Ok v (x, b) => Ok v (set_fs x k, b)
  | Panic m (x, b) => Panic m (set_fs x k, b)
  | Blocked (x, b) => Blocked (set_fs x k, b)
  | PowerFail (x, b) => PowerFail (set_fs x k, b)
  end.
Proof. apply zoom_run; [done|done|by intros []]. Qed.

Implicit Types (k : kmem) (a : Spec.astate).

Lemma run_kget {A B} (g : kmem -> A) (f : A -> K B) k a :
  Spec.run present (kget g ≫= f) k a = Spec.run present (f (g k)) k a.
Proof. done. Qed.
Lemma run_kset {B} (g : kmem -> kmem) (f : unit -> K B) k a :
  Spec.run present (kset g ≫= f) k a = Spec.run present (f tt) (g k) a.
Proof. done. Qed.
Lemma run_file_at {B} i x (f : file -> K B) k a : ftab k !! i = Some x ->
  Spec.run present (file_at i ≫= f) k a = Spec.run present (f x) k a.
Proof. intros H. unfold file_at, kget. cbn [Spec.run mbind prog_bind mret prog_ret]. by rewrite H. Qed.
Lemma run_proc_at {B} i x (f : proc -> K B) k a : procs k !! i = Some x ->
  Spec.run present (proc_at i ≫= f) k a = Spec.run present (f x) k a.
Proof. intros H. unfold proc_at, kget. cbn [Spec.run mbind prog_bind mret prog_ret]. by rewrite H. Qed.
Lemma run_curproc {B} i (f : nat -> K B) k a : cur k = Some i ->
  Spec.run present (curproc ≫= f) k a = Spec.run present (f i) k a.
Proof. intros H. unfold curproc, kget. cbn [Spec.run mbind prog_bind mret prog_ret]. by rewrite H. Qed.
Lemma run_pipe_at {B} i x (f : pipe -> K B) k a : pipes k !! i = Some x ->
  Spec.run present (pipe_at i ≫= f) k a = Spec.run present (f x) k a.
Proof. intros H. unfold pipe_at, kget. cbn [Spec.run mbind prog_bind mret prog_ret]. by rewrite H. Qed.
Lemma run_msg_at {B} i x (f : message -> K B) k a : msgs k !! i = Some x ->
  Spec.run present (msg_at i ≫= f) k a = Spec.run present (f x) k a.
Proof. intros H. unfold msg_at, kget. cbn [Spec.run mbind prog_bind mret prog_ret]. by rewrite H. Qed.
End facts.
