(* ===== verification/File.v ===== *)
(** Open files and pipes ([file.c], [pipe.c]) and the permission checks
    ([checkfileperm] of [file.c]). *)

From S2P Require Import Prelude Params Bio Disk Log Fs FsOps Kernel.
Import BlockIO.

(** ** Permissions *)

Inductive fileop := OP_READ | OP_WRITE | OP_EXEC | OP_OPEN | OP_UNLINK | OP_LINK | OP_CREATE.

(** [checkfileperm], given the user, the mode and the inode's owner and
    permission bits: 0 allows.  The owner test of [OP_OPEN] and [OP_UNLINK] is
    [if(owner)], as in the source. *)
Definition checkperm (u : Z) (single : bool) (owner perms : Z) (op : fileop) : Z :=
  let isowner := owner =? u in
  if (u =? -1) && single then 0 else
  if negb (u =? -1) && single then -1 else
  match op with
  | OP_READ =>
    if isowner && has perms U_READ then 0 else if has perms W_READ then 0 else 1
  | OP_WRITE =>
    if isowner && has perms U_WRITE then 0 else if has perms W_WRITE then 0 else 1
  | OP_EXEC =>
    if isowner && (has perms U_READ && has perms U_EXEC) then 0
    else if has perms W_READ && has perms W_EXEC then 0 else 1
  | OP_OPEN =>
    if negb (owner =? 0) && (has perms U_READ || has perms U_WRITE) then 0
    else if has perms W_READ || has perms W_WRITE then 0 else 1
  | OP_UNLINK =>
    if negb (owner =? 0) && (has perms U_READ && has perms U_WRITE) then 0
    else if has perms W_READ && has perms W_WRITE then 0 else 1
  | _ => 1
  end.

Definition inode_at (i : nat) : K inode := on_fs (iat i).

Definition checkinodeperm (ip : nat) (op : fileop) : K Z :=
  v ← inode_at ip;
  c ← curproc;
  p ← proc_at c;
  single ← kget singleuser;
  mret (checkperm (uid p) single (i_owner v) (i_perms v) op).

Definition checkfileperm (f : nat) (op : fileop) : K Z :=
  v ← file_at f;
  match f_ip v with Some ip => checkinodeperm ip op | None => fail "nil inode" end.

(** ** The file table *)

Definition filealloc : K (option nat) :=
  r ← kscan ftab (fun f => f_ref f =? 0);
  match r with
  | Some (i, _) => upd_file i (set_f_ref 1) ;; mret (Some i)
  | None => mret None
  end.

Definition filedup (i : nat) : K nat :=
  f ← file_at i;
  if f_ref f <? 1 then fail "filedup" else
  upd_file i (fun f => set_f_ref (f_ref f + 1) f) ;; mret i.

(** ** Pipes *)

Definition pipeclose (p : nat) (writable : bool) : K unit :=
  v ← pipe_at p;
  let v' := if writable then set_writeopen false v else set_readopen false v in
  set_pipe p v' ;;
  wakeup (if writable then ChRead p else ChWrite p) ;;
  if negb (readopen v') && negb (writeopen v')
  then kset (fun k => set_pipes (delete p (pipes k)) k)
  else mret tt.

(** ** Closing *)

Definition dev_of (ip : option nat) : K Z :=
  match ip with Some i => v ← inode_at i; mret (i_dev v) | None => fail "nil inode" end.

Definition fileclose (i : nat) : K unit :=
  f ← file_at i;
  if f_ref f <? 1 then fail "fileclose" else
  if 0 <? f_ref f - 1 then upd_file i (set_f_ref (f_ref f - 1)) else
  upd_file i (fun f => set_f_type FD_NONE (set_f_ref 0 f)) ;;
  match f_type f with
  | FD_PIPE => match f_pipe f with Some p => pipeclose p (f_writable f) | None => fail "nil pipe" end
  | FD_INODE =>
    d ← dev_of (f_ip f);
    on_fs (begin_op d) ;;
    on_fs (iput (f_ip f)) ;;
    d' ← dev_of (f_ip f);
    on_fs (end_op d')
  | FD_NONE => mret tt
  end.

Definition close_opt (o : option nat) : K unit :=
  match o with Some i => fileclose i | None => mret tt end.

Definition new_pipe : pipe :=
  {| p_data := replicate PIPESIZE 0; nread := 0; nwrite := 0; readopen := true; writeopen := true |}.
Definition read_end (p : nat) (f : file) : file :=
  set_f_pipe (Some p) (set_f_writable false (set_f_readable true (set_f_type FD_PIPE f))).
Definition write_end (p : nat) (f : file) : file :=
  set_f_pipe (Some p) (set_f_writable true (set_f_readable false (set_f_type FD_PIPE f))).

(** The two ends, or -1 with both given back. *)
Definition pipealloc : K (option (nat * nat)) :=
  f0 ← filealloc;
  match f0 with
  | None => mret None
  | Some a =>
    f1 ← filealloc;
    match f1 with
    | None => fileclose a ;; mret None
    | Some b =>
      ok ← alloc;
      if negb ok then fileclose a ;; fileclose b ;; mret None else
      p ← new_addr;
      set_pipe p new_pipe ;;
      upd_file a (read_end p) ;;
      upd_file b (write_end p) ;;
      mret (Some (a, b))
    end
  end.

(** [p->data[p->nwrite++ % PIPESIZE] = c] and
    [p->data[p->nread++ % PIPESIZE]], on [uint] counters. *)
Definition slot (n : Z) : nat := Z.to_nat (n mod Z.of_nat PIPESIZE).
Definition is_full (p : pipe) : bool := nwrite p =? u32 (nread p + Z.of_nat PIPESIZE).
Definition is_empty (p : pipe) : bool := nread p =? nwrite p.
Definition push (c : Z) (p : pipe) : pipe :=
  set_nwrite (u32 (nwrite p + 1)) (set_p_data (<[slot (nwrite p) := c]> (p_data p)) p).
Definition pop (p : pipe) : Z * pipe :=
  (default 0 (p_data p !! slot (nread p)), set_nread (u32 (nread p + 1)) p).

Fixpoint pipewrite_loop (p : nat) (src : list Z) : K bool :=
  match src with
  | [] => mret true
  | c :: src' =>
    v ← pipe_at p;
    if is_full v then
      i ← curproc; pr ← proc_at i;
      if negb (readopen v) || killed pr then mret false else
      wakeup (ChRead p) ;; ksleep (ChWrite p)
    else set_pipe p (push c v) ;; pipewrite_loop p src'
  end.
Definition pipewrite (p : nat) (src : list Z) (n : Z) : K Z :=
  ok ← pipewrite_loop p (take (Z.to_nat n) src);
  if negb ok then mret (-1) else wakeup (ChRead p) ;; mret n.

(** The copying loop of [piperead]: up to [n] bytes, in order. *)
Fixpoint pop_n (n : nat) (v : pipe) : list Z * pipe :=
  match n with
  | O => ([], v)
  | S n' => if is_empty v then ([], v) else
            let '(c, v') := pop v in let '(cs, w) := pop_n n' v' in (c :: cs, w)
  end.

Definition piperead (p : nat) (n : nat) : K (Z * list Z) :=
  v ← pipe_at p;
  if is_empty v && writeopen v then
    i ← curproc; pr ← proc_at i;
    if killed pr then mret (-1, []) else ksleep (ChRead p)
  else
  let '(cs, w) := pop_n n v in
  set_pipe p w ;; wakeup (ChWrite p) ;; mret (Z.of_nat (length cs), cs).

(** ** Files *)

Section io.
Context (devsw_read : Z -> option (nat -> Z -> Z -> prog kfs (Z * list Z))).
Context (devsw_write : Z -> option (nat -> list Z -> Z -> Z -> prog kfs Z)).

Definition filestat (i : nat) : K (option stat) :=
  f ← file_at i;
  match f_type f, f_ip f with
  | FD_INODE, Some ip =>
    c ← checkfileperm i OP_OPEN;
    if negb (c =? 0) then seterr "ESNOPERMS" ;; mret None else
    on_fs (ilock (Some ip)) ;;
    v ← inode_at ip;
    on_fs (iunlock (Some ip)) ;;
    mret (Some (stati v))
  | FD_INODE, None => fail "nil inode"
  | _, _ => mret None
  end.

Definition fileread (i : nat) (n : Z) : K (Z * list Z) :=
  f ← file_at i;
  if negb (f_readable f) then seterr "EIUNREAD" ;; mret (-1, []) else
  match f_type f with
  | FD_PIPE => match f_pipe f with Some p => piperead p (Z.to_nat n) | None => fail "nil pipe" end
  | FD_INODE =>
    match f_ip f with
    | None => fail "nil inode"
    | Some ip =>
      on_fs (ilock (Some ip)) ;;
      r ← on_fs (readi devsw_read ip (f_off f) (u32 n));
      (if 0 <? r.1 then upd_file i (fun f => set_f_off (u32 (f_off f + r.1)) f) else mret tt) ;;
      on_fs (iunlock (Some ip)) ;;
      mret r
    end
  | FD_NONE => seterr "EIFUNKNOWN" ;; mret (-1, [])
  end.

Definition fileseek (i : nat) (n dir : Z) : K Z :=
  f ← file_at i;
  if negb (f_readable f) && negb (f_writable f) then seterr "EIUNREAD" ;; mret (-1) else
  match f_type f with
  | FD_PIPE => seterr "EIBADTYPE" ;; mret (-1)
  | FD_INODE =>
    off ← (if dir =? 0 then mret (u32 n)
           else if dir =? 1 then mret (u32 (f_off f + n))
           else if dir =? 2 then
             match f_ip f with
             | Some ip => v ← inode_at ip; mret (u32 (n + i_size v))
             | None => fail "nil inode"
             end
           else mret (f_off f));
    upd_file i (set_f_off off) ;;
    mret (s32 off)
  | FD_NONE => seterr "EIFUNKNOWN" ;; mret (-1)
  end.

Definition max_write : Z := ((LOGSIZE - 1 - 1 - 2) / 2) * 512.

(** The chunked write loop: each chunk is one transaction.  The fuel bounds the
    number of chunks, one for every [max_write] bytes. *)
Fixpoint filewrite_loop (fuel : nat) (fi ip : nat) (src : list Z) (i n : Z) : K Z :=
  if i <? n then
    match fuel with
    | O => fail "filewrite: out of fuel"
    | S fuel' =>
      let n1 := Z.min (n - i) max_write in
      d ← dev_of (Some ip);
      on_fs (begin_op d) ;;
      on_fs (ilock (Some ip)) ;;
      f ← file_at fi;
      r ← on_fs (writei devsw_write ip (take (Z.to_nat n1) (drop (Z.to_nat i) src)) (f_off f) (u32 n1));
      (if 0 <? r then upd_file fi (fun f => set_f_off (u32 (f_off f + r)) f) else mret tt) ;;
      on_fs (iunlock (Some ip)) ;;
      on_fs (end_op d) ;;
      if r =? -2 then seterr "EIFSFULL" ;; mret (-1) else
      if r <? 0 then mret (if i =? n then n else -1) else
      if negb (r =? n1) then seterr "EISHORTWRITE" ;; mret (-1) else
      filewrite_loop fuel' fi ip src (i + r) n
    end
  else mret (if i =? n then n else -1).

Definition filewrite (i : nat) (src : list Z) (n : Z) : K Z :=
  f ← file_at i;
  if negb (f_writable f) then seterr "EIUNWRITE" ;; mret (-1) else
  match f_type f with
  | FD_PIPE => match f_pipe f with Some p => pipewrite p src n | None => fail "nil pipe" end
  | FD_INODE =>
    match f_ip f with
    | None => fail "nil inode"
    | Some ip => filewrite_loop (Z.to_nat (n / max_write) + 1) i ip src 0 n
    end
  | FD_NONE => seterr "EIFUNKNOWN" ;; mret (-1)
  end.
End io.

(** ** Facts: permissions *)

(** C20: in multi-user mode a user may read, write or execute a file exactly when
    he owns it and has the owner permission, or the world permission is given;
    in single-user mode the system user may do anything and nobody else may do
    anything. *)
Theorem checkperm_sound u owner perms :
  (forall op, checkperm (-1) true owner perms op = 0) /\
  (u <> -1 -> forall op, checkperm u true owner perms op = -1) /\
  (checkperm u false owner perms OP_READ = 0 <->
     (owner = u /\ has perms U_READ = true) \/ has perms W_READ = true) /\
  (checkperm u false owner perms OP_WRITE = 0 <->
     (owner = u /\ has perms U_WRITE = true) \/ has perms W_WRITE = true) /\
  (checkperm u false owner perms OP_EXEC = 0 <->
     (owner = u /\ has perms U_READ = true /\ has perms U_EXEC = true) \/
     (has perms W_READ = true /\ has perms W_EXEC = true)).
Proof.
  split; [intros []; reflexivity|]. split.
  { intros Hu op. unfold checkperm. by rewrite (proj2 (Z.eqb_neq u (-1)) Hu). }
  unfold checkperm. rewrite !andb_false_r.
  repeat split; intros H;
    destruct (Z.eqb_spec owner u), (has perms U_READ), (has perms U_WRITE), (has perms U_EXEC),
      (has perms W_READ), (has perms W_WRITE), (has perms W_EXEC); cbn in *; intuition (congruence || discriminate).
Qed.

(** The owner test of [OP_OPEN] and [OP_UNLINK] lets every user use the owner's
    permissions: user 7 may open and unlink a file of user 5 that grants the
    world nothing. *)
Lemma open_ignores_owner :
  checkperm 7 false 5 (Z.lor U_READ U_WRITE) OP_OPEN = 0 /\
  checkperm 7 false 5 (Z.lor U_READ U_WRITE) OP_UNLINK = 0 /\
  checkperm 7 false 5 (Z.lor U_READ U_WRITE) OP_READ <> 0.
Proof. vm_compute. repeat split; congruence. Qed.

(** ** Facts: pipes *)

Section pipes.
Implicit Types (v w : pipe).

Definition count v : nat := Z.to_nat (u32 (nwrite v - nread v)).
(** The bytes in the pipe, oldest first. *)
Definition contents v : list Z :=
  (fun k => default 0 (p_data v !! slot (nread v + Z.of_nat k))) <$> seq 0 (count v).
Record pipe_ok v : Prop := {
  pk_len : length (p_data v) = PIPESIZE;
  pk_r : in_u32 (nread v);
  pk_w : in_u32 (nwrite v);
  pk_count : (count v <= PIPESIZE)%nat
}.

Lemma slot_u32 n : slot (u32 n) = slot n.
Proof. unfold slot, u32, PIPESIZE. dlia. Qed.
Lemma slot_lt n : (slot n < PIPESIZE)%nat.
Proof. unfold slot, PIPESIZE. pose proof (Z.mod_pos_bound n 512). lia. Qed.
Lemma slot_inj n j k : (j < PIPESIZE)%nat -> (k < PIPESIZE)%nat ->
  slot (n + Z.of_nat j) = slot (n + Z.of_nat k) -> j = k.
Proof. unfold slot, PIPESIZE. intros. dlia. Qed.

Lemma is_empty_count v : pipe_ok v -> is_empty v = bool_decide (count v = 0%nat).
Proof.
  intros [_ R W _]. unfold is_empty, count, u32. destruct (Z.eqb_spec (nread v) (nwrite v)) as [E|E].
  - rewrite E, Z.sub_diag. done.
  - symmetry. apply bool_decide_eq_false. dlia.
Qed.
Lemma is_full_count v : pipe_ok v -> is_full v = bool_decide (count v = PIPESIZE).
Proof.
  intros [_ R W _]. unfold is_full, count, u32, PIPESIZE.
  destruct (Z.eqb_spec (nwrite v) ((nread v + Z.of_nat 512) mod 2 ^ 32)) as [E|E].
  - symmetry. apply bool_decide_eq_true. rewrite E. dlia.
  - symmetry. apply bool_decide_eq_false. intros F. apply E. dlia.
Qed.

Lemma push_count c v : pipe_ok v -> is_full v = false -> count (push c v) = S (count v) /\ (count v < PIPESIZE)%nat.
Proof.
  intros P Hf. rewrite is_full_count in Hf by done. apply bool_decide_eq_false in Hf.
  destruct P as [_ R W C]. unfold count in *. cbn [push nwrite nread set_nwrite set_p_data]. unfold u32, PIPESIZE in *. dlia.
Qed.

Lemma slot_write v : pipe_ok v -> slot (nwrite v) = slot (nread v + Z.of_nat (count v)).
Proof. intros [_ R W _]. unfold slot, count, u32, PIPESIZE. dlia. Qed.

Lemma push_spec c v : pipe_ok v -> is_full v = false ->
  pipe_ok (push c v) /\ contents (push c v) = contents v ++ [c].
Proof.
  intros P Hf. destruct (push_count c v P Hf) as [Hc Hlt]. pose proof (slot_write v P) as Hs.
  destruct P as [L R W C]. split.
  - split; [cbn; by rewrite length_insert|done|cbn; apply u32_range|lia].
  - unfold contents. rewrite Hc, seq_S, fmap_app. cbn [push nread p_data set_nwrite set_p_data fmap list_fmap Nat.add].
    rewrite Hs. f_equal.
    + apply list_fmap_ext. intros ? j Hj. apply list_elem_of_lookup_2, elem_of_seq in Hj.
      rewrite list_lookup_insert_ne; [done|]. intros E. apply slot_inj in E; lia.
    + rewrite list_lookup_insert_eq; [done|]. rewrite L. apply slot_lt.
Qed.

Lemma pop_spec v : pipe_ok v -> is_empty v = false ->
  pipe_ok (pop v).2 /\ contents v = (pop v).1 :: contents (pop v).2.
Proof.
  intros P He. rewrite is_empty_count in He by done. apply bool_decide_eq_false in He.
  destruct P as [L R W C].
  assert (count v = S (count (pop v).2)) as Hc.
  { unfold count, pop in *. cbn [snd nread nwrite set_nread] in *. unfold u32 in *. dlia. }
  split.
  - split; [done|cbn; apply u32_range|done|lia].
  - unfold contents. rewrite Hc. cbn [seq fmap list_fmap]. rewrite Z.add_0_r. f_equal.
    rewrite <- seq_shift, <- list_fmap_compose. apply list_fmap_ext. intros ? j _. cbn [pop snd nread p_data set_nread compose].
    do 2 f_equal. rewrite <- (slot_u32 (u32 (nread v + 1) + Z.of_nat j)), u32_add_l, slot_u32. f_equal. lia.
Qed.

Lemma pop_n_spec n v : pipe_ok v ->
  pipe_ok (pop_n n v).2 /\ (pop_n n v).1 = take n (contents v) /\ contents (pop_n n v).2 = drop n (contents v).
Proof.
  revert v. induction n as [|n IH]; intros v P; cbn [pop_n]; [by rewrite drop_0|].
  destruct (is_empty v) eqn:E.
  - cbn [fst snd]. assert (contents v = []) as ->; [|done]. rewrite is_empty_count in E by done.
    apply bool_decide_eq_true in E. unfold contents. by rewrite E.
  - destruct (pop_spec v P E) as [P1 E1]. destruct (pop v) as [c v1] eqn:Ep. cbn [fst snd] in *.
    destruct (IH v1 P1) as (P2 & E2 & E3). destruct (pop_n n v1) as [cs w] eqn:En. cbn [fst snd] in *.
    rewrite E1. cbn [take drop]. split; [done|]. split; [by f_equal|done].
Qed.

Context (present : Z -> bool).
Implicit Types (k : kmem) (a : Spec.astate).

Lemma pipewrite_loop_spec p src k a v c pr :
  pipes k !! p = Some v -> pipe_ok v -> cur k = Some c -> procs k !! c = Some pr ->
  exists w j, pipe_ok w /\ contents w = contents v ++ take j src /\ (j <= length src)%nat /\
    readopen w = readopen v /\ writeopen w = writeopen v /\
  match Spec.run present (pipewrite_loop p src) k a with
  | Ok true (k', a') => j = length src /\ k' = set_pipes (<[p := w]> (pipes k)) k /\ a' = a
  | Ok false (k', a') => length (contents w) = PIPESIZE /\ (readopen v = false \/ killed pr = true) /\
      k' = set_pipes (<[p := w]> (pipes k)) k /\ a' = a
  | Blocked (k', a') => length (contents w) = PIPESIZE /\ pipes k' = <[p := w]> (pipes k) /\ a' = a
  | _ => False
  end.
Proof.
  revert k v. induction src as [|b src IH]; intros k v Hp P Hc Hpr; cbn [pipewrite_loop].
  { exists v, 0%nat. split; [done|]. split; [by rewrite app_nil_r|]. split; [done|]. split; [done|]. split; [done|].
    cbn [Spec.run mret prog_ret]. split; [done|]. split; [|done]. rewrite insert_id by done. by destruct k. }
  rewrite (run_pipe_at present p v) by done. destruct (is_full v) eqn:F.
  - exists v, 0%nat. split; [done|]. split; [by rewrite app_nil_r|]. split; [lia|]. split; [done|]. split; [done|].
    assert (length (contents v) = PIPESIZE) as Hl.
    { unfold contents. rewrite length_fmap, length_seq. rewrite is_full_count in F by done.
      by apply bool_decide_eq_true in F. }
    rewrite (run_curproc present c), (run_proc_at present c pr) by done.
    destruct (negb (readopen v) || killed pr) eqn:E.
    + cbn [Spec.run mret prog_ret]. split; [done|]. split.
      * apply orb_true_iff in E as [E%negb_true_iff|E]; auto.
      * split; [|done]. rewrite insert_id by done. by destruct k.
    + cbn [Spec.run mbind prog_bind wakeup kset kmodify ksleep curproc kget upd_proc BlockIO.sleep].
      cbn [cur set_procs]. rewrite Hc. cbn [Spec.run mbind prog_bind mret prog_ret].
      split; [done|]. split; [|done]. cbn. by rewrite insert_id.
  - destruct (push_spec b v P F) as [P1 E1].
    unfold set_pipe. rewrite run_kset.
    destruct (IH (set_pipes (<[p := push b v]> (pipes k)) k) (push b v)) as (w & j & Pw & Ew & Hj & Hro & Hwo & Hrun);
      [cbn; by rewrite lookup_insert_eq|done|done|done|].
    exists w, (S j). split; [done|]. split; [rewrite Ew, E1; cbn [take]; by rewrite <- app_assoc|].
    split; [cbn; lia|]. split; [done|]. split; [done|].
    destruct (Spec.run _ _ _ _) as [[] [k' a']|m [k' a']|[k' a']|[k' a']]; cbn in *; try done.
    + destruct Hrun as (-> & -> & ->). rewrite insert_insert_eq. done.
    + destruct Hrun as (H1 & H2 & -> & ->). rewrite insert_insert_eq. done.
    + destruct Hrun as (H1 & H2 & ->). rewrite insert_insert_eq in H2. done.
Qed.

(** C21: [pipewrite] appends to the pipe's queue of bytes, in order.  When it
    returns the count, all of them have been appended; when it sleeps or fails,
    a prefix has, and the queue is full; it fails only with the reader gone or
    the writer killed. *)
Theorem pipewrite_appends p src k a v c pr :
  pipes k !! p = Some v -> pipe_ok v -> cur k = Some c -> procs k !! c = Some pr ->
  exists w j, pipe_ok w /\ contents w = contents v ++ take j src /\
  match Spec.run present (pipewrite p src (Z.of_nat (length src))) k a with
  | Ok n (k', _) => pipes k' = <[p := w]> (pipes k) /\
      ((n = Z.of_nat (length src) /\ j = length src) \/
       (n = -1 /\ length (contents w) = PIPESIZE /\ (readopen v = false \/ killed pr = true)))
  | Blocked (k', _) => pipes k' = <[p := w]> (pipes k) /\ length (contents w) = PIPESIZE
  | _ => False
  end.
Proof.
  intros Hp P Hc Hpr. unfold pipewrite. rewrite Nat2Z.id, take_ge by lia.
  destruct (pipewrite_loop_spec p src k a v c pr Hp P Hc Hpr) as (w & j & Pw & Ew & Hj & _ & _ & H).
  exists w, j. split; [done|]. split; [done|]. rewrite Spec.run_bind.
  destruct (Spec.run _ _ _ _) as [[] [k' a']|m [k' a']|[k' a']|[k' a']]; try done.
  - destruct H as (-> & -> & ->). cbn. auto.
  - destruct H as (H1 & H2 & -> & ->). cbn. auto.
  - destruct H as (H1 & H2 & ->). auto.
Qed.

(** [piperead] takes the oldest bytes of the queue, as many as asked for and
    there are, and leaves the rest; on an empty pipe it sleeps while there is a
    writer, unless the reader was killed, and returns 0 at end of file. *)
Theorem piperead_takes p n k a v c pr :
  pipes k !! p = Some v -> pipe_ok v -> cur k = Some c -> procs k !! c = Some pr ->
  match Spec.run present (piperead p n) k a with
  | Ok (r, bs) (k', _) =>
    (r = Z.of_nat (length bs) /\ bs = take n (contents v) /\ (contents v <> [] \/ writeopen v = false) /\
     exists w, pipe_ok w /\ contents w = drop n (contents v) /\ pipes k' = <[p := w]> (pipes k)) \/
    (r = -1 /\ k' = k /\ killed pr = true /\ contents v = [] /\ writeopen v = true)
  | Blocked (k', _) => contents v = [] /\ writeopen v = true /\ killed pr = false /\ pipes k' = pipes k
  | _ => False
  end.
Proof.
  intros Hp P Hc Hpr. unfold piperead. rewrite (run_pipe_at present p v) by done.
  assert (is_empty v = bool_decide (contents v = [])) as He.
  { rewrite is_empty_count by done. apply bool_decide_ext. unfold contents.
    destruct (count v); cbn; split; done. }
  destruct (is_empty v && writeopen v) eqn:E.
  - apply andb_true_iff in E as [E1 E2]. rewrite He in E1. apply bool_decide_eq_true in E1.
    rewrite (run_curproc present c), (run_proc_at present c pr) by done.
    destruct (killed pr) eqn:Ek; [right; auto|].
    cbn [Spec.run mbind prog_bind kset kmodify ksleep curproc kget upd_proc BlockIO.sleep]. rewrite Hc.
    cbn [Spec.run mbind prog_bind mret prog_ret]. split_and!; done.
  - destruct (pop_n_spec n v P) as (P1 & E1 & E2). destruct (pop_n n v) as [cs w]. cbn [fst snd] in *.
    cbn [Spec.run mbind prog_bind kset kmodify set_pipe wakeup mret prog_ret]. left.
    split; [done|]. split; [done|]. split.
    + apply andb_false_iff in E as [E|E]; [left|by right]. rewrite He in E. by apply bool_decide_eq_false in E.
    + exists w. auto.
Qed.
End pipes.

(** ** Facts: the file table *)

Section ftable.
Context (present : Z -> bool).
Implicit Types (k : kmem) (a : Spec.astate) (f : file).

Definition with_file (i : nat) (g : file -> file) k : kmem := set_ftab (alter g i (ftab k)) k.
Lemma with_file_lookup i g k f : ftab k !! i = Some f -> ftab (with_file i g k) !! i = Some (g f).
Proof. intros H. unfold with_file. cbn. by rewrite list_lookup_alter_eq, H. Qed.
Lemma with_file_ne i j g k : i <> j -> ftab (with_file i g k) !! j = ftab k !! j.
Proof. intros H. unfold with_file. cbn. by rewrite list_lookup_alter_ne. Qed.
Lemma with_file_id i g k f : ftab k !! i = Some f -> g f = f -> with_file i g k = k.
Proof.
  intros H E. unfold with_file. replace (alter g i (ftab k)) with (ftab k); [by destruct k|].
  apply list_eq. intros j. destruct (decide (i = j)) as [<-|].
  - by rewrite list_lookup_alter_eq, H; cbn; rewrite E.
  - by rewrite list_lookup_alter_ne.
Qed.
Lemma with_file_twice i g h k : with_file i g (with_file i h k) = with_file i (g ∘ h) k.
Proof. unfold with_file. cbn. by rewrite list_alter_alter_eq. Qed.

Lemma run_filealloc {B} (K' : option nat -> K B) k a :
  Spec.run present (filealloc ≫= K') k a =
  match scan (fun f => f_ref f =? 0) (ftab k) with
  | Some (i, _) => Spec.run present (K' (Some i)) (with_file i (set_f_ref 1) k) a
  | None => Spec.run present (K' None) k a
  end.
Proof.
  unfold filealloc, kscan, kget. cbn [Spec.run mbind prog_bind].
  destruct (scan _ _) as [[i f]|]; done.
Qed.

(** A reference taken is a reference given back: [filedup] of an open file
    followed by [fileclose] returns and leaves the kernel's memory and the drive
    exactly as they were; a [filedup] or [fileclose] of an unreferenced slot
    panics. *)
Theorem filedup_fileclose i k a f :
  ftab k !! i = Some f ->
  if 1 <=? f_ref f
  then Spec.run present (filedup i ≫= fileclose) k a = Ok tt (k, a)
  else Spec.run present (filedup i ≫= fileclose) k a = Panic "filedup" (k, a) /\
       Spec.run present (fileclose i) k a = Panic "fileclose" (k, a).
Proof.
  intros H. destruct (Z.leb_spec 1 (f_ref f)) as [Hr|Hr].
  - unfold filedup. rewrite Spec.run_bind, (run_file_at present i f) by done.
    rewrite (proj2 (Z.ltb_ge (f_ref f) 1)) by lia. unfold upd_file. rewrite run_kset.
    cbn [Spec.run mret prog_ret]. fold (with_file i (fun f => set_f_ref (f_ref f + 1) f) k).
    set (k1 := with_file _ _ k). unfold fileclose.
    rewrite (run_file_at present i (set_f_ref (f_ref f + 1) f))
      by exact (with_file_lookup i (fun f => set_f_ref (f_ref f + 1) f) k f H).
    cbn [f_ref set_f_ref]. rewrite (proj2 (Z.ltb_ge (f_ref f + 1) 1)) by lia.
    rewrite (proj2 (Z.ltb_lt 0 (f_ref f + 1 - 1))) by lia.
    unfold upd_file, kset, kmodify. cbn [Spec.run]. do 2 f_equal.
    change (with_file i (set_f_ref (f_ref f + 1 - 1)) k1 = k). unfold k1. rewrite with_file_twice.
    apply (with_file_id i _ k f H). unfold compose. replace (f_ref f + 1 - 1) with (f_ref f) by lia. by destruct f.
  - unfold filedup, fileclose. rewrite Spec.run_bind, !(run_file_at present i f) by done.
    rewrite (proj2 (Z.ltb_lt (f_ref f) 1)) by lia. done.
Qed.

Lemma scan_after k i f : scan (fun f => f_ref f =? 0) (ftab k) = Some (i, f) ->
  ftab k !! i = Some f /\ f_ref f = 0.
Proof. intros (H & E%Z.eqb_eq & _)%scan_Some. done. Qed.

Lemma run_close_new i k a f : ftab k !! i = Some f -> f_ref f = 0 -> f_type f = FD_NONE ->
  forall B (c : K B), Spec.run present (fileclose i ;; c) (with_file i (set_f_ref 1) k) a = Spec.run present c k a.
Proof.
  intros H Hr Ht B c. rewrite Spec.run_bind. unfold fileclose.
  rewrite (run_file_at present i (set_f_ref 1 f)) by (by apply with_file_lookup).
  cbn [f_ref set_f_ref f_type]. change (1 <? 1) with false. change (0 <? 1 - 1) with false. cbv iota.
  rewrite Ht. unfold upd_file. rewrite run_kset. cbn [Spec.run mret prog_ret].
  fold (with_file i (fun f => set_f_type FD_NONE (set_f_ref 0 f)) (with_file i (set_f_ref 1) k)).
  rewrite with_file_twice, (with_file_id i _ k f H); [done|].
  unfold compose. rewrite <- Hr, <- Ht. by destruct f.
Qed.

(** Every free slot is untyped, as [fileclose] leaves it. *)
Definition ftable_ok k : Prop := forall i f, ftab k !! i = Some f -> f_ref f = 0 -> f_type f = FD_NONE.

(** The memory after slots [i] and [j] became the ends of a new pipe. *)
Definition piped (i j : nat) k : kmem :=
  with_file j (write_end (fresh k)) (with_file i (read_end (fresh k))
    (set_pipes (<[fresh k := new_pipe]> (pipes k)) (set_fresh (S (fresh k)) k))).

(** Slots [f0] and [f1] of [k'] are the ends of a pipe that [k] did not have. *)
Definition new_ends (f0 f1 : nat) k k' : Prop :=
  exists e0 e1 p v, ftab k' !! f0 = Some e0 /\ ftab k' !! f1 = Some e1 /\
    f_ref e0 = 1 /\ f_ref e1 = 1 /\ f_type e0 = FD_PIPE /\ f_type e1 = FD_PIPE /\
    f_readable e0 = true /\ f_writable e0 = false /\ f_readable e1 = false /\ f_writable e1 = true /\
    f_pipe e0 = Some p /\ f_pipe e1 = Some p /\
    pipes k' = <[p := v]> (pipes k) /\ pipes k !! p = None /\
    pipe_ok v /\ contents v = [] /\ readopen v = true /\ writeopen v = true.

Definition took2 (i j : nat) k : kmem := with_file j (set_f_ref 1) (with_file i (set_f_ref 1) k).

Lemma piped_ends i j k f g : i <> j -> ftab k !! i = Some f -> ftab k !! j = Some g ->
  pipes k !! fresh k = None ->
  new_ends i j k (piped i j (took2 i j k)) /\
  forall n, n <> i -> n <> j -> ftab (piped i j (took2 i j k)) !! n = ftab k !! n.
Proof.
  intros Hij Hi Hj Hf. unfold piped, took2. split.
  - eexists _, _, (fresh k), new_pipe. split.
    { rewrite with_file_ne by done. apply with_file_lookup. cbn [ftab set_pipes set_fresh].
      rewrite with_file_ne by done. by apply with_file_lookup. }
    split.
    { apply with_file_lookup. rewrite with_file_ne by done. cbn [ftab set_pipes set_fresh].
      apply with_file_lookup. by rewrite with_file_ne. }
    split_and!; try done. split; [done|cbn; lia..|vm_compute; lia].
  - intros n Hni Hnj. rewrite !with_file_ne by done. cbn [ftab set_pipes set_fresh].
    by rewrite !with_file_ne by done.
Qed.

Lemma run_give_back i j k a f g : i <> j -> ftab k !! i = Some f -> ftab k !! j = Some g ->
  f_ref f = 0 -> f_ref g = 0 -> f_type f = FD_NONE -> f_type g = FD_NONE ->
  Spec.run present (fileclose i ;; fileclose j ;; mret (@None (nat * nat))) (took2 i j k) a = Ok None (k, a).
Proof.
  intros Hij Hi Hj Rf Rg Tf Tg. unfold took2.
  assert (with_file j (set_f_ref 1) (with_file i (set_f_ref 1) k)
    = with_file i (set_f_ref 1) (with_file j (set_f_ref 1) k)) as ->.
  { unfold with_file. cbn [ftab set_ftab]. rewrite (list_alter_alter (set_f_ref 1) (set_f_ref 1) (ftab k) j i).
    by rewrite decide_False. }
  rewrite (run_close_new i _ a f); [|by rewrite with_file_ne|done|done].
  by rewrite (run_close_new j _ a g).
Qed.

(** C22: [pipealloc] is all or nothing.  Either two different free slots become
    the read and the write end, each with one reference, of a new and empty pipe
    open at both ends; or, when slots or memory run out, both slots are given
    back and nothing has changed but the allocator's state. *)
Theorem pipealloc_all_or_nothing k a :
  ftable_ok k -> pipes k !! fresh k = None ->
  exists r k', Spec.run present pipealloc k a = Ok r (k', a) /\
  match r with
  | None => exists o, k' = set_oracle o k
  | Some (f0, f1) =>
    f0 <> f1 /\
    (exists o0 o1, ftab k !! f0 = Some o0 /\ f_ref o0 = 0 /\ ftab k !! f1 = Some o1 /\ f_ref o1 = 0) /\
    new_ends f0 f1 k k' /\
    (forall j, j <> f0 -> j <> f1 -> ftab k' !! j = ftab k !! j)
  end.
Proof.
  intros Hok Hfresh. unfold pipealloc. rewrite run_filealloc.
  assert (Hsame : exists o, k = set_oracle o k) by (exists (oracle k); by destruct k).
  destruct (scan _ (ftab k)) as [[i f]|] eqn:E1; [|by exists None, k].
  apply scan_after in E1 as [Hi Hri]. pose proof (Hok i f Hi Hri) as Hti. rewrite run_filealloc.
  destruct (scan _ _) as [[j g]|] eqn:E2.
  2:{ exists None, k. split; [|done]. by rewrite (run_close_new i k a f). }
  apply scan_after in E2 as [Hj Hrj].
  assert (i <> j) as Hij.
  { intros <-. rewrite (with_file_lookup i _ k f Hi) in Hj. injection Hj as <-. done. }
  rewrite with_file_ne in Hj by done. pose proof (Hok j g Hj Hrj) as Htj.
  fold (took2 i j k). unfold alloc. rewrite Spec.run_bind, run_kget. change (oracle (took2 i j k)) with (oracle k).
  assert (Hgood : forall o, let k1 := set_oracle o k in
    new_ends i j k (piped i j (took2 i j k1)) /\
    forall n, n <> i -> n <> j -> ftab (piped i j (took2 i j k1)) !! n = ftab k !! n).
  { intros o k1. by apply (piped_ends i j k1 f g). }
  destruct (oracle k) as [|[] o] eqn:Eo; cbn [Spec.run mret prog_ret]; rewrite ?run_kset; cbn [Spec.run mret prog_ret negb].
  - exists (Some (i, j)), (piped i j (took2 i j k)). split; [reflexivity|].
    split; [done|]. split; [eauto 10|]. replace k with (set_oracle [] k) at 3 6 by (rewrite <- Eo; by destruct k).
    apply (Hgood []).
  - exists (Some (i, j)), (piped i j (took2 i j (set_oracle o k))). split; [reflexivity|].
    split; [done|]. split; [eauto 10|]. apply (Hgood o).
  - exists None, (set_oracle o k). split; [|eauto].
    by apply (run_give_back i j (set_oracle o k) a f g).
Qed.
End ftable.

(** ** A concrete memory *)

Module FileSample.

Definition proc1 : proc := set_state RUNNING (set_pid 1 proc_zero).
Definition pipe1 : pipe := push 8 (push 7 new_pipe).
Definition kmem1 : kmem :=
  {| fs := Sample.fs0; ftab := set_f_ref 2 file_zero :: replicate 3 file_zero; pipes := {[ 0%nat := pipe1 ]};
     msgs := ∅; fresh := 1; procs := [proc1]; cur := Some 0%nat; nextpid := 2; initproc := Some 0%nat;
     first := false; singleuser := false; allowthreads := true; useclone := true; oracle := [] |}.

Lemma pipe1_ok : pipe_ok pipe1.
Proof. split; vm_compute; (reflexivity || lia || (split; congruence)). Qed.

Lemma pipewrite_appends_witness :
  exists w j, pipe_ok w /\ contents w = contents pipe1 ++ take j [9; 10] /\
  match Spec.run Concrete.only0 (pipewrite 0 [9; 10] 2) kmem1 Sample.drive0 with
  | Ok n (k', _) => pipes k' = <[0%nat := w]> (pipes kmem1) /\
      ((n = 2 /\ j = 2%nat) \/
       (n = -1 /\ length (contents w) = PIPESIZE /\ (readopen pipe1 = false \/ killed proc1 = true)))
  | Blocked (k', _) => pipes k' = <[0%nat := w]> (pipes kmem1) /\ length (contents w) = PIPESIZE
  | _ => False
  end.
Proof.
  apply (pipewrite_appends Concrete.only0 0 [9; 10] kmem1 Sample.drive0 pipe1 0 proc1);
    [reflexivity|exact pipe1_ok|reflexivity|reflexivity].
Defined.

Lemma piperead_takes_witness :
  match Spec.run Concrete.only0 (piperead 0 1) kmem1 Sample.drive0 with
  | Ok (r, bs) (k', _) =>
    (r = Z.of_nat (length bs) /\ bs = take 1 (contents pipe1) /\ (contents pipe1 <> [] \/ writeopen pipe1 = false) /\
     exists w, pipe_ok w /\ contents w = drop 1 (contents pipe1) /\ pipes k' = <[0%nat := w]> (pipes kmem1)) \/
    (r = -1 /\ k' = kmem1 /\ killed proc1 = true /\ contents pipe1 = [] /\ writeopen pipe1 = true)
  | Blocked (k', _) => contents pipe1 = [] /\ writeopen pipe1 = true /\ killed proc1 = false /\ pipes k' = pipes kmem1
  | _ => False
  end.
Proof.
  apply (piperead_takes Concrete.only0 0 1 kmem1 Sample.drive0 pipe1 0 proc1);
    [reflexivity|exact pipe1_ok|reflexivity|reflexivity].
Defined.

Lemma filedup_fileclose_witness :
  Spec.run Concrete.only0 (filedup 0 ≫= fileclose) kmem1 Sample.drive0 = Ok tt (kmem1, Sample.drive0).
Proof. exact (filedup_fileclose Concrete.only0 0 kmem1 Sample.drive0 (set_f_ref 2 file_zero) eq_refl). Defined.

Lemma pipealloc_all_or_nothing_witness :
  exists r k', Spec.run Concrete.only0 pipealloc kmem1 Sample.drive0 = Ok r (k', Sample.drive0) /\
  match r with
  | None => exists o, k' = set_oracle o kmem1
  | Some (f0, f1) =>
    f0 <> f1 /\
    (exists o0 o1, ftab kmem1 !! f0 = Some o0 /\ f_ref o0 = 0 /\ ftab kmem1 !! f1 = Some o1 /\ f_ref o1 = 0) /\
    new_ends f0 f1 kmem1 k' /\
    (forall j, j <> f0 -> j <> f1 -> ftab k' !! j = ftab kmem1 !! j)
  end.
Proof.
  apply pipealloc_all_or_nothing; [|reflexivity].
  intros [|[|[|[|]]]] f [= <-]; reflexivity.
Defined.
End FileSample.
