(* ===== verification/Proc.v ===== *)
(** Processes ([proc.c]), their permissions ([users.c]) and mailboxes.

    A routine that gives up the processor ends its run in [Blocked]; [exit],
    which never comes back from [sched], ends by returning.  [ptable.lock]
    serialises the routines, so each runs by itself here (the locks are in
    Spinlock.v); page tables are named by numbers and whether an allocation
    succeeds comes from the allocator's oracle. *)

From S2P Require Import Prelude Params Bio Disk Log Fs FsOps Kernel File.
Import BlockIO.

(** ** Users *)

(** 0 when process [p1] may operate on [p0]. *)
Definition checksysperms (single : bool) (p0 p1 : proc) : Z :=
  if single then 0 else
  if (sid p1 =? -1) && (sid p1 <? sid p0) then 0 else
  if sid p1 =? sid p0 then
    if uid p1 =? -1 then 0 else if uid p1 =? uid p0 then 0 else -1
  else -1.

Definition chuser (u : Z) : K Z :=
  single ← kget singleuser;
  if single : bool then mret (if u =? -1 then 0 else -1) else
  i ← curproc; p ← proc_at i;
  if (uid p =? -1) && (-1 <=? u) then upd_proc i (set_uid u) ;; mret 0 else mret (-1).

Definition chsystem (s : Z) : K Z :=
  single ← kget singleuser;
  if single : bool then mret 0 else
  i ← curproc; p ← proc_at i;
  if (sid p =? -1) && (0 <=? s) then upd_proc i (fun p => set_uid (-1) (set_sid s p)) ;; mret 0
  else mret (-1).

Definition disallow : K Z :=
  single ← kget singleuser;
  if single : bool then kset (set_singleuser false) ;; mret 0 else
  i ← curproc; p ← proc_at i;
  if (uid p =? -1) && (sid p =? -1) then kset (set_singleuser true) ;; mret 0 else mret (-1).

(** ** Mailboxes *)

(** [mbox->lock = kmalloc(...)]: the queue pointers are not touched. *)
Definition initmailbox (i : nat) : K unit := _ ← alloc; mret tt.

(** Add the message at address [m] to the mailbox. *)
Definition add_message (mb : mailbox) (m : nat) : K mailbox :=
  v ← msg_at m;
  set_msg m (set_m_next None v) ;;
  match mb_head mb, mb_tail mb with
  | None, None => mret {| mb_head := Some m; mb_tail := Some m |}
  | _, Some t =>
    w ← msg_at t;
    set_msg t (set_m_next (Some m) w) ;;
    mret {| mb_head := mb_head mb; mb_tail := Some m |}
  | _, None => fail "nil tail"
  end.

Definition rem_message (mb : mailbox) : K (option nat * mailbox) :=
  match mb_head mb with
  | None => mret (None, mb)
  | Some m =>
    v ← msg_at m;
    set_msg m (set_m_next None v) ;;
    if bool_decide (mb_head mb = mb_tail mb)
    then mret (Some m, {| mb_head := None; mb_tail := None |})
    else mret (Some m, {| mb_head := m_next v; mb_tail := mb_tail mb |})
  end.

Definition free_message (m : nat) : K (option nat) :=
  v ← msg_at m;
  kset (fun k => set_msgs (delete m (msgs k)) k) ;;
  mret (m_next v).

(** Free the queue; the fuel is the number of messages the heap can hold.  The
    mailbox's own pointers are left as they are. *)
Fixpoint flush_loop (fuel : nat) (c : option nat) : K unit :=
  match c with
  | None => mret tt
  | Some m =>
    match fuel with
    | O => fail "flush_mailbox: out of fuel"
    | S fuel' => n ← free_message m; flush_loop fuel' n
    end
  end.
Definition flush_mailbox (mb : mailbox) : K unit :=
  n ← kget (fun k => size (msgs k)); flush_loop n (mb_head mb).

(** One pass of the receive routines: they sleep on an empty mailbox. *)
Definition msgwait {A} (i : nat) : K A := upd_proc i (set_state MSGWAIT) ;; sleep.

Definition precvwait : K Z :=
  i ← curproc; p ← proc_at i;
  match mb_head (mbox p) with
  | None => msgwait i
  | Some m => v ← msg_at m; mret (m_size v)
  end.

Definition precvmsg : K nat :=
  i ← curproc; p ← proc_at i;
  match mb_head (mbox p) with
  | None => msgwait i
  | Some m =>
    v ← msg_at m;
    upd_proc i (set_mbox {| mb_head := m_next v;
                            mb_tail := match m_next v with None => None | Some _ => mb_tail (mbox p) end |}) ;;
    set_msg m (set_m_next None v) ;;
    mret m
  end.

Definition psendmsg (i : nat) (m : nat) : K Z :=
  p ← proc_at i;
  mb ← add_message (mbox p) m;
  upd_proc i (set_mbox mb) ;;
  p' ← proc_at i;
  (if bool_decide (state p' = MSGWAIT) then upd_proc i (set_state RUNNABLE) else mret tt) ;;
  mret 0.

(** ** The process table *)

Definition is_unused (p : proc) : bool := bool_decide (state p = UNUSED).

(** An [UNUSED] slot made [EMBRYO], with a kernel stack. *)
Definition allocproc : K (option nat) :=
  r ← kscan procs is_unused;
  match r with
  | None => mret None
  | Some (i, _) =>
    n ← kget nextpid;
    kset (set_nextpid (s32 (n + 1))) ;;
    upd_proc i (fun p => set_err None (set_uid (-2) (set_sid (-1) (set_pid n (set_state EMBRYO p))))) ;;
    ok ← alloc;
    if negb ok then upd_proc i (fun p => set_state UNUSED (set_kstack false p)) ;; mret None else
    upd_proc i (set_kstack true) ;;
    initmailbox i ;;
    mret (Some i)
  end.

Definition kernel_name : list Z := [107; 101; 114; 110; 101; 108].

Definition kernelinit : K unit :=
  o ← allocproc;
  match o with
  | None => fail "nil proc"
  | Some i =>
    kset (set_initproc (Some i)) ;;
    ok ← alloc;
    if negb ok then fail "kernelinit: out of memory?" else
    pg ← new_addr;
    upd_proc i (fun p =>
      set_state RUNNABLE (set_cwd None (set_p_root None (set_name kernel_name (set_sid (-1) (set_uid (-1)
        (set_tf {| tf_eax := 0; tf_esp := PGSIZE; tf_eip := 0 |} (set_sz PGSIZE (set_pgdir (Some pg) p)))))))))
  end.

Definition addchild (par child : nat) : K Z :=
  p ← proc_at par;
  match scan (fun o => bool_decide (o = None)) (threads p) with
  | Some (i, _) =>
    upd_proc par (fun p => set_threadi (threadi p + 1) (set_threads (<[i := Some child]> (threads p)) p)) ;;
    mret 0
  | None => mret 1
  end.
Definition removechild (par child : nat) : K Z :=
  p ← proc_at par;
  match scan (fun o => bool_decide (o = Some child)) (threads p) with
  | Some (i, _) =>
    upd_proc par (fun p => set_threadi (threadi p - 1) (set_threads (<[i := None]> (threads p)) p)) ;;
    mret 0
  | None => mret 1
  end.

(** Duplicate the open files and directories of [c] into [np]. *)
Definition dup_fd (c np : nat) (fd : nat) : K unit :=
  p ← proc_at c;
  match ofile p !! fd with
  | Some (Some f) => g ← filedup f; upd_proc np (fun q => set_ofile (<[fd := Some g]> (ofile q)) q)
  | _ => mret tt
  end.
Definition dup_dirs (c np : nat) : K unit :=
  p ← proc_at c;
  r ← on_fs (idup (p_root p));
  d ← on_fs (idup (cwd p));
  upd_proc np (fun q => set_cwd d (set_p_root r q)).

Definition fork : K Z :=
  c ← curproc;
  o ← allocproc;
  match o with
  | None => seterr "EPFORKNP" ;; mret (-1)
  | Some np =>
    ok ← alloc;                              (* copyuvm *)
    if negb ok then
      upd_proc np (fun q => set_state UNUSED (set_kstack false q)) ;;
      seterr "EPFORKNS" ;; mret (-1)
    else
    pg ← new_addr;
    p ← proc_at c;
    upd_proc np (fun q =>
      set_tf {| tf_eax := 0; tf_esp := tf_esp (tf p); tf_eip := tf_eip (tf p) |}
        (set_parent (Some c) (set_sz (sz p) (set_sid (sid p) (set_uid (uid p)
          (set_type PROCESS (set_pgdir (Some pg) q))))))) ;;
    pfor (seq 0 NOFILE) (dup_fd c np) ;;
    dup_dirs c np ;;
    upd_proc np (fun q => set_name (name p) (set_threadi 0 q)) ;;
    q ← proc_at np;
    upd_proc np (set_state RUNNABLE) ;;
    mret (pid q)
  end.

(** [clone(stack)]: a thread on the parent's page table.  The parent's stack
    page is taken to be mapped; the copy of its contents to the new stack
    concerns user memory only. *)
Definition clone (stack : Z) : K Z :=
  c ← curproc;
  at_ ← kget allowthreads;
  if negb at_ then seterr "EPNOTHREADS" ;; mret (-1) else
  uc ← kget useclone;
  if negb uc then seterr "EKDISABLED" ;; mret (-1) else
  p ← proc_at c;
  if Z.of_nat THREADMAX <=? threadi p then seterr "EP2MANYT" ;; mret (-1) else
  o ← allocproc;
  match o with
  | None => seterr "EPCLONENP" ;; mret (-1)
  | Some np =>
    let top := u32 (stack + PGSIZE) in
    let par := if bool_decide (type p = PROCESS) then Some c else parent p in
    upd_proc np (fun q =>
      set_tf {| tf_eax := 0; tf_esp := u32 (top - u32 (ssp p - tf_esp (tf p))); tf_eip := tf_eip (tf p) |}
        (set_parent par (set_ssp top (set_sid (sid p) (set_uid (uid p) (set_type THREAD
          (set_sz (sz p) (set_pgdir (pgdir p) q)))))))) ;;
    pfor (seq 0 NOFILE) (dup_fd c np) ;;
    dup_dirs c np ;;
    upd_proc np (set_name (name p)) ;;
    q ← proc_at np;
    upd_proc np (set_state RUNNABLE) ;;
    (match par with Some j => _ ← addchild j np; mret tt | None => fail "nil parent" end) ;;
    mret (pid q)
  end.

(** The slot of a reaped process. *)
Definition free_slot (p : proc) : proc :=
  set_killed false (set_name [] (set_parent None (set_pid 0 (set_state UNUSED (set_kstack false p))))).

Definition zombie_child (c : nat) (p : proc) : bool :=
  bool_decide (parent p = Some c) && bool_decide (state p = ZOMBIE) && bool_decide (type p = PROCESS).

Definition WAITROUNDS : Z := 5.

(** One pass of the loop: reap a zombie child, fail without children, or wait.
    A crashed child's corpse is kept. *)
Definition wait1 : K Z :=
  c ← curproc;
  z ← kscan procs (zombie_child c);
  match z with
  | Some (i, p) =>
    if crashed p then upd_proc i (set_state CRASHED) ;; mret (pid p)
    else upd_proc i free_slot ;; mret (pid p)
  | None =>
    kids ← kscan procs (fun p => bool_decide (parent p = Some c));
    p ← proc_at c;
    if bool_decide (kids = None) || killed p then seterr "EPWAITNOCH" ;; mret (-1) else
    upd_proc c (fun p => set_waitrounds WAITROUNDS (set_state WAIT p)) ;; sleep
  end.
Definition wait : K Z := wait1.

(** Close everything, kill the threads, hand the children to init and become a
    zombie.  [fuel] bounds the [while(wait1() != -1)] loop. *)
Fixpoint wait_all (fuel : nat) : K unit :=
  match fuel with
  | O => fail "exit: out of fuel"
  | S fuel' => r ← wait1; if r =? -1 then mret tt else wait_all fuel'
  end.

Definition close_fd (c fd : nat) : K unit :=
  p ← proc_at c;
  match ofile p !! fd with
  | Some (Some f) => fileclose f ;; upd_proc c (fun p => set_ofile (<[fd := None]> (ofile p)) p)
  | _ => mret tt
  end.

Definition kill_thread (c t : nat) : K unit :=
  p ← proc_at c;
  match threads p !! t with
  | Some (Some j) => upd_proc j (set_killed true)
  | _ => mret tt
  end.

(** Pass abandoned children to init. *)
Definition reparent (c : nat) (init : option nat) (p : proc) : proc :=
  if bool_decide (parent p = Some c) then set_parent init p else p.

(** The first half of [exit]: files, directory and threads. *)
Definition exit_files (c : nat) : K unit :=
  pfor (seq 0 NOFILE) (close_fd c) ;;
  p ← proc_at c;
  d ← dev_of (cwd p);
  on_fs (begin_op d) ;;
  on_fs (iput (cwd p)) ;;
  d' ← dev_of (cwd p);
  on_fs (end_op d') ;;
  upd_proc c (set_cwd None) ;;
  p ← proc_at c;
  if bool_decide (type p = PROCESS) && (0 <? threadi p) then
    pfor (seq 0 THREADMAX) (kill_thread c) ;; wait_all (S NPROC)
  else mret tt.

(** The second half: mailbox and process table.  The parent is woken, the
    children go to init, which is woken when one of them is a zombie. *)
Definition wake_if (o : option nat) (p : proc) : proc :=
  match o with Some j => wake (ChProc j) p | None => p end.
Definition exit_procs (c : nat) (ini par : option nat) (ps : list proc) : list proc :=
  let ps1 := wake_if par <$> ps in
  let orphan := existsb (fun q => bool_decide (parent q = Some c) && bool_decide (state q = ZOMBIE)) ps1 in
  alter (set_state ZOMBIE) c
    ((fun q => wake_if (if orphan then ini else None) (reparent c ini q)) <$> ps1).
Definition exit_table (c : nat) (ini : option nat) : K unit :=
  p ← proc_at c;
  flush_mailbox (mbox p) ;;
  kset (fun k => set_procs (exit_procs c ini (parent p) (procs k)) k).

Definition exit : K unit :=
  c ← curproc;
  ini ← kget initproc;
  if bool_decide (ini = Some c) then fail "init exiting" else
  exit_files c ;; exit_table c ini.

(** What the scheduler does when it comes to slot [i]: true when it switches to
    the process. *)
Definition sched_visit (i : nat) : K bool :=
  p ← proc_at i;
  (if bool_decide (type p = THREAD) && bool_decide (state p = ZOMBIE) then
     upd_proc i (set_kstack false) ;;
     (match parent p with Some j => _ ← removechild j i; mret tt | None => fail "nil parent" end) ;;
     upd_proc i free_slot
   else mret tt) ;;
  p ← proc_at i;
  fst_ ← kget first;
  if fst_ && negb (pid p =? 0) then mret false else
  single ← kget singleuser;
  if negb (uid p =? -1) && single then mret false else
  if negb (bool_decide (state p = RUNNABLE)) then
    (if bool_decide (state p = WAIT) then
       if 0 <? waitrounds p then upd_proc i (set_waitrounds (waitrounds p - 1))
       else upd_proc i (set_state RUNNABLE)
     else mret tt) ;;
    mret false
  else
  kset (set_cur (Some i)) ;;
  upd_proc i (set_state RUNNING) ;;
  mret true.

Definition yield : K unit := i ← curproc; upd_proc i (set_state RUNNABLE) ;; sleep.

Section init.
Context (devsw_read : Z -> option (nat -> Z -> Z -> prog kfs (Z * list Z))).
(** A fork child's first run; the kernel process starts the file system. *)
Definition forkret : K unit :=
  i ← curproc; p ← proc_at i;
  f ← kget first;
  if f && (pid p =? 0) then on_fs (fsinit ROOTDEV) ;; kset (set_first false) else mret tt.

Definition userinit_name : list Z := [117; 115; 101; 114; 105; 110; 105; 116].
Definition userinit : K unit :=
  o ← allocproc;
  match o with
  | None => fail "nil proc"
  | Some i =>
    kset (set_initproc (Some i)) ;;
    ok ← alloc;
    if negb ok then fail "userinit: out of memory?" else
    pg ← new_addr;
    upd_proc i (fun p =>
      set_p_root None (set_name userinit_name (set_sid (-1) (set_uid (-1)
        (set_tf {| tf_eax := 0; tf_esp := PGSIZE; tf_eip := 0 |} (set_sz PGSIZE (set_pgdir (Some pg) p))))))) ;;
    d ← on_fs (namei devsw_read None [47]);
    upd_proc i (fun p => set_state RUNNABLE (set_cwd d p))
  end.
End init.

Definition kill (target : Z) : K Z :=
  c ← curproc; me ← proc_at c;
  single ← kget singleuser;
  r ← kscan procs (fun p => (pid p =? target) && (checksysperms single p me =? 0));
  match r with
  | Some (i, p) =>
    upd_proc i (set_killed true) ;;
    (if bool_decide (state p = SLEEPING) || bool_decide (state p = MSGWAIT)
     then upd_proc i (set_state RUNNABLE) else mret tt) ;;
    mret 0
  | None => mret (-1)
  end.

Definition findpid (target : Z) : K (option nat) :=
  kget (fun k => fst <$> scan (fun p => (pid p =? target) && negb (is_unused p)) (procs k)).

(** ** Facts: permissions *)

(** Who may kill whom.  In multi-user mode a process may operate on another
    exactly when it is a global one and the other belongs to a system, or both
    are of the same system and it runs as the system user or as the same user;
    every process may operate on itself. *)
Theorem checksysperms_spec p0 p1 :
  (checksysperms false p0 p1 = 0 <->
   (sid p1 = -1 /\ -1 < sid p0) \/ (sid p1 = sid p0 /\ (uid p1 = -1 \/ uid p1 = uid p0))) /\
  checksysperms false p0 p0 = 0 /\ checksysperms true p0 p1 = 0.
Proof.
  unfold checksysperms. split; [|split; [|done]].
  - destruct (Z.eqb_spec (sid p1) (-1)), (Z.ltb_spec (sid p1) (sid p0)), (Z.eqb_spec (sid p1) (sid p0)),
      (Z.eqb_spec (uid p1) (-1)), (Z.eqb_spec (uid p1) (uid p0)); cbn; intuition (lia || congruence).
  - rewrite !Z.eqb_refl, Z.ltb_irrefl, andb_false_r. by destruct (uid p0 =? -1).
Qed.

Section proc_facts.
Context (present : Z -> bool).
Implicit Types (k : kmem) (a : Spec.astate) (p : proc).

Definition with_proc (i : nat) (g : proc -> proc) k : kmem := set_procs (alter g i (procs k)) k.
Lemma run_upd_proc {B} i g (f : unit -> K B) k a :
  Spec.run present (upd_proc i g ≫= f) k a = Spec.run present (f tt) (with_proc i g k) a.
Proof. done. Qed.
Lemma with_proc_lookup i g k p : procs k !! i = Some p -> procs (with_proc i g k) !! i = Some (g p).
Proof. intros H. unfold with_proc. cbn. by rewrite list_lookup_alter_eq, H. Qed.
Lemma with_proc_ne i j g k : i <> j -> procs (with_proc i g k) !! j = procs k !! j.
Proof. intros H. unfold with_proc. cbn. by rewrite list_lookup_alter_ne. Qed.

(** An ordinary process of the global system gets itself any user id: [chsystem]
    makes it the system user of a system of its own choosing, and the system
    user may become anybody. *)
Lemma chsystem_escalates k a c p : cur k = Some c -> procs k !! c = Some p ->
  singleuser k = false -> uid p = 500 -> sid p = -1 ->
  exists k', Spec.run present (chsystem 0 ;; chuser 0) k a = Ok 0 (k', a) /\
    exists q, procs k' !! c = Some q /\ uid q = 0.
Proof.
  intros Hc Hp Hs Hu Hsid. rewrite Spec.run_bind. unfold chsystem.
  rewrite run_kget, Hs, (run_curproc present c), (run_proc_at present c p) by done.
  rewrite Hsid. change ((-1 =? -1) && (0 <=? 0)) with true. cbv iota. rewrite run_upd_proc. cbn [Spec.run mret prog_ret].
  set (k1 := with_proc _ _ k). unfold chuser. rewrite run_kget. change (singleuser k1) with (singleuser k). rewrite Hs.
  rewrite (run_curproc present c) by done.
  rewrite (run_proc_at present c (set_uid (-1) (set_sid 0 p)))
    by exact (with_proc_lookup c (fun p => set_uid (-1) (set_sid 0 p)) k p Hp).
  cbn [uid set_uid]. change ((-1 =? -1) && (-1 <=? 0)) with true. cbv iota. rewrite run_upd_proc. cbn [Spec.run mret prog_ret].
  eexists. split; [done|]. exists (set_uid 0 (set_uid (-1) (set_sid 0 p))). split; [|done].
  apply (with_proc_lookup c (set_uid 0)). exact (with_proc_lookup c (fun p => set_uid (-1) (set_sid 0 p)) k p Hp).
Qed.

(** ** Facts: mailboxes *)

(** The messages linked from [h] are those at the addresses [l], in order. *)
Fixpoint linked (ms : gmap nat message) (h : option nat) (l : list nat) : Prop :=
  match l with
  | [] => h = None
  | m :: l' => h = Some m /\ exists v, ms !! m = Some v /\ linked ms (m_next v) l'
  end.
Definition queue_of (ms : gmap nat message) (mb : mailbox) (l : list nat) : Prop :=
  linked ms (mb_head mb) l /\ NoDup l /\
  ((l = [] /\ mb_tail mb = None) \/ exists l0 t, l = l0 ++ [t] /\ mb_tail mb = Some t).

Lemma linked_frame ms h l m v : linked ms h l -> m ∉ l -> linked (<[m := v]> ms) h l.
Proof.
  revert h. induction l as [|x l IH]; intros h H Hm; [done|].
  apply not_elem_of_cons in Hm as [Hx Hm]. destruct H as (-> & w & Hw & Hl).
  split; [done|]. exists w. split; [by rewrite lookup_insert_ne|by apply IH].
Qed.

Lemma linked_snoc ms h l t w m v :
  linked ms h (l ++ [t]) -> NoDup (l ++ [t]) -> m ∉ l ++ [t] -> ms !! t = Some w ->
  ms !! m = Some v -> m_next v = None -> linked (<[t := set_m_next (Some m) w]> ms) h (l ++ [t; m]).
Proof.
  revert h. induction l as [|x l IH]; intros h H Hnd Hm Ht Hv Hn; cbn [app] in *.
  - destruct H as (-> & w' & Hw' & _). rewrite Ht in Hw'. injection Hw' as <-.
    apply not_elem_of_cons in Hm as [Hne _]. split; [done|].
    eexists. split; [by rewrite lookup_insert_eq|]. cbn [m_next set_m_next linked]. split; [done|].
    exists v. split; [by rewrite lookup_insert_ne|done].
  - destruct H as (-> & w' & Hw' & Hl). apply list.NoDup_cons in Hnd as [Hx Hnd].
    apply not_elem_of_cons in Hm as [Hmx Hm]. split; [done|]. exists w'.
    split; [|by apply IH]. rewrite lookup_insert_ne; [done|]. intros ->. apply Hx, elem_of_app. right. by left.
Qed.

(** The size and bytes of a message; the link is the mailbox's business. *)
Definition body (v : message) : Z * list Z := (m_size v, m_data v).
Definition bodies (ms : gmap nat message) : gmap nat (Z * list Z) := body <$> ms.
Lemma bodies_relink ms m v n : ms !! m = Some v -> bodies (<[m := set_m_next n v]> ms) = bodies ms.
Proof.
  intros H. unfold bodies. rewrite fmap_insert. apply insert_id. by rewrite lookup_fmap, H.
Qed.

Lemma add_message_ok k a mb l m v : queue_of (msgs k) mb l -> msgs k !! m = Some v -> m ∉ l ->
  exists ms mb', Spec.run present (add_message mb m) k a = Ok mb' (set_msgs ms k, a) /\ queue_of ms mb' (l ++ [m]) /\ bodies ms = bodies (msgs k).
Proof.
  intros (Hl & Hnd & Ht) Hm Hnin. unfold add_message. rewrite (run_msg_at present m v) by done.
  unfold set_msg. rewrite run_kset. pose proof (linked_frame _ _ _ m (set_m_next None v) Hl Hnin) as Hl'.
  assert (NoDup (l ++ [m])) as Hnd'.
  { apply list.NoDup_app. split; [done|]. split; [|apply NoDup_singleton]. intros x Hx ->%list_elem_of_singleton. done. }
  destruct Ht as [[-> Ht]|(l0 & t & -> & Ht)].
  - cbn [linked] in Hl. rewrite Hl, Ht. cbn [Spec.run mret prog_ret]. eexists _, _. split; [done|]. split; [|by apply bodies_relink].
    split; [|split; [done|right; by exists [], m]]. cbn. split; [done|]. eexists. split; [by rewrite lookup_insert_eq|done].
  - assert (m <> t) as Hmt by (intros ->; apply Hnin, elem_of_app; right; by left).
    assert (exists w, msgs k !! t = Some w) as [w Hw].
    { clear -Hl. revert Hl. generalize (mb_head mb). induction l0 as [|x l0 IH]; intros h H.
      - destruct H as (_ & w & Hw & _). eauto.
      - destruct H as (_ & w & _ & H). by apply IH in H. }
    destruct (mb_head mb) as [h|] eqn:Eh; [|by destruct l0; destruct Hl].
    rewrite Ht. rewrite (run_msg_at present t w) by (cbn; by rewrite lookup_insert_ne).
    rewrite run_kset. cbn [Spec.run mret prog_ret]. eexists _, _. split; [done|].
    cbn [mb_head mb_tail msgs set_msgs]. rewrite <- app_assoc. cbn [app]. split; [split_and!|].
    + eapply (linked_snoc _ _ l0 t w m (set_m_next None v)); auto; [by rewrite lookup_insert_ne|by rewrite lookup_insert_eq].
    + by rewrite <- app_assoc in Hnd'.
    + right. exists (l0 ++ [t]), m. by rewrite <- app_assoc.
    + rewrite bodies_relink by (by rewrite lookup_insert_ne). by apply bodies_relink.
Qed.
(** Taking the first message off. *)
Lemma queue_tail ms mb m l v : queue_of ms mb (m :: l) -> ms !! m = Some v ->
  queue_of (<[m := set_m_next None v]> ms) {| mb_head := m_next v; mb_tail := match m_next v with None => None | Some _ => mb_tail mb end |} l.
Proof.
  intros ((Hh & w & Hw & Hl) & Hnd & Ht) Hv. rewrite Hv in Hw. injection Hw as <-. apply list.NoDup_cons in Hnd as [Hm Hnd].
  split; [by apply linked_frame|]. split; [done|].
  destruct Ht as [[[=] _]|([|x l0] & t & El & Ht)]; cbn [app] in El; injection El as -> ->; cbn [mb_tail].
  - left. cbn [linked] in Hl. by rewrite Hl.
  - right. exists l0, t. split; [done|]. destruct (m_next v); [done|]. by destruct l0; destruct Hl.
Qed.

(** [rem_message], which nothing calls, takes the first message off and unlinks
    it, answering nil only for an empty mailbox. *)
Lemma rem_message_ok k a mb l : queue_of (msgs k) mb l ->
  exists k' mb', Spec.run present (rem_message mb) k a = Ok (head l, mb') (k', a) /\ queue_of (msgs k') mb' (tail l).
Proof.
  intros H. unfold rem_message. destruct l as [|m l].
  { pose proof H as (Hl & _ & Ht). cbn [linked] in Hl. rewrite Hl. by exists k, mb. }
  pose proof H as ((Hh & v & Hv & Hl) & Hnd & Ht). rewrite Hh. rewrite (run_msg_at present m v) by done. unfold set_msg. rewrite run_kset.
  pose proof (queue_tail _ _ _ _ _ H Hv) as Hq. destruct Ht as [[[=] _]|(l0 & t & El & Ht)]. rewrite Ht in *.
  case_bool_decide as E; cbn [Spec.run mret prog_ret]; eexists _, _; (split; [done|]); cbn [msgs set_msgs].
  - injection E as <-.
    destruct l0 as [|x l0]; cbn [app] in El; [|injection El as -> ->; apply list.NoDup_cons in Hnd as [Hx _]; destruct Hx; apply elem_of_app; right; by left].
    injection El as ->. split; [done|]. split; [constructor|by left].
  - destruct Hq as (Q1 & Q2 & Q3). split; [exact Q1|]. split; [done|]. destruct l0 as [|x l0]; cbn [app] in El; [by injection El as -> _|].
    injection El as _ El. right. eauto.
Qed.

(** C16: messages arrive in the order they are sent.  The mailbox of a process is
    a queue of messages linked in the heap.  [psendmsg] puts a message at the end
    of the receiver's queue, and makes it [RUNNABLE] when it waits for one.
    [precvwait] answers the size of the caller's first message; [precvmsg] takes
    that message off the queue; both put the caller to [MSGWAIT] and give up the
    processor when the queue is empty, and only then.  No message is lost,
    repeated or reordered, none changes its size or its bytes, and no other
    process changes. *)
Theorem mailbox_fifo k a i p l :
  procs k !! i = Some p -> queue_of (msgs k) (mbox p) l ->
  (forall m v, msgs k !! m = Some v -> m ∉ l ->
    exists k' q, Spec.run present (psendmsg i m) k a = Ok 0 (k', a) /\ procs k' !! i = Some q /\ queue_of (msgs k') (mbox q) (l ++ [m]) /\
      bodies (msgs k') = bodies (msgs k) /\ state q = (if decide (state p = MSGWAIT) then RUNNABLE else state p) /\
      forall j, j <> i -> procs k' !! j = procs k !! j) /\
  (cur k = Some i ->
    match l with
    | [] => exists k' q, Spec.run present precvwait k a = Blocked (k', a) /\ Spec.run present precvmsg k a = Blocked (k', a) /\
        procs k' !! i = Some q /\ state q = MSGWAIT /\ mbox q = mbox p /\ msgs k' = msgs k /\ forall j, j <> i -> procs k' !! j = procs k !! j
    | m :: l' => exists v, msgs k !! m = Some v /\ Spec.run present precvwait k a = Ok (m_size v) (k, a) /\
        exists k' q, Spec.run present precvmsg k a = Ok m (k', a) /\ procs k' !! i = Some q /\ queue_of (msgs k') (mbox q) l' /\
        bodies (msgs k') = bodies (msgs k) /\ state q = state p /\ forall j, j <> i -> procs k' !! j = procs k !! j
    end).
Proof.
  intros Hp Hq. split.
  - intros m v Hm Hnin. destruct (add_message_ok k a (mbox p) l m v Hq Hm Hnin) as (ms & mb & E & Hq' & Hb).
    unfold psendmsg. rewrite (run_proc_at present i p) by done. rewrite Spec.run_bind, E, run_upd_proc.
    set (k1 := with_proc i (set_mbox mb) (set_msgs ms k)). assert (procs k1 !! i = Some (set_mbox mb p)) as H1 by (by apply with_proc_lookup).
    rewrite (run_proc_at present i (set_mbox mb p)) by done. change (state (set_mbox mb p)) with (state p).
    destruct (decide (state p = MSGWAIT)) as [Es|Es]; [rewrite bool_decide_eq_true_2 by done|rewrite bool_decide_eq_false_2 by done].
    + rewrite run_upd_proc. eexists _, _. split; [done|]. split; [by apply with_proc_lookup|]. split_and!; [done|done|done|].
      intros j Hj. rewrite with_proc_ne by done. unfold k1. by rewrite with_proc_ne by done.
    + eexists _, _. split; [done|]. split; [exact H1|]. split_and!; [done|done|done|]. intros j Hj. unfold k1. by rewrite with_proc_ne by done.
  - intros Hc. unfold precvwait, precvmsg, msgwait. rewrite !(run_curproc present i) by done. rewrite !(run_proc_at present i p) by done.
    destruct l as [|m l].
    + pose proof Hq as (Hl & _). cbn [linked] in Hl. rewrite Hl. eexists _, _. split; [done|]. split; [done|]. split; [by apply with_proc_lookup|].
      split_and!; try done. intros j Hj. by apply with_proc_ne.
    + pose proof Hq as ((Hh & v & Hv & _) & _). rewrite Hh. exists v. split; [done|]. split; [by rewrite (run_msg_at present m v) by done|].
      rewrite (run_msg_at present m v) by done. rewrite run_upd_proc. unfold set_msg. rewrite run_kset. eexists _, _. split; [done|].
      split; [by apply with_proc_lookup|]. split; [exact (queue_tail _ _ _ _ _ Hq Hv)|]. split; [by apply bodies_relink|]. split; [done|].
      intros j Hj. by apply (with_proc_ne i j).
Qed.

(** ** Facts: the process table *)

(** Live processes have different pids, all given out already. *)
Record pids_ok k : Prop := {
  po_next : 0 <= nextpid k < 2 ^ 31 - 1;
  po_lt i p : procs k !! i = Some p -> state p <> UNUSED -> pid p < nextpid k;
  po_inj i j p q : procs k !! i = Some p -> procs k !! j = Some q ->
    state p <> UNUSED -> state q <> UNUSED -> pid p = pid q -> i = j
}.

(** Changing a slot without making it live or changing its pid keeps them so. *)
Lemma pids_keep k k' :
  pids_ok k -> nextpid k' = nextpid k ->
  (forall i q, procs k' !! i = Some q -> state q <> UNUSED ->
     exists p, procs k !! i = Some p /\ state p <> UNUSED /\ pid p = pid q) ->
  pids_ok k'.
Proof.
  intros [H1 H2 H3] En H. split; [by rewrite En|..].
  - intros i q Hq Hs. destruct (H i q Hq Hs) as (p & Hp & Hs' & <-). rewrite En. eauto.
  - intros i j p q Hp Hq Sp Sq E. destruct (H i p Hp Sp) as (p' & Hp' & Sp' & Ep).
    destruct (H j q Hq Sq) as (q' & Hq' & Sq' & Eq). apply (H3 i j p' q'); auto. congruence.
Qed.

(** [wait1] outcome by outcome. *)
Lemma wait1_run k a c pc : cur k = Some c -> procs k !! c = Some pc ->
  Spec.run present wait1 k a =
  match scan (zombie_child c) (procs k) with
  | Some (i, p) => Ok (pid p) (with_proc i (if crashed p then set_state CRASHED else free_slot) k, a)
  | None =>
    if bool_decide (scan (fun p => bool_decide (parent p = Some c)) (procs k) = None) || killed pc
    then Ok (-1) (with_proc c (set_err (Some "EPWAITNOCH")) k, a)
    else Blocked (with_proc c (fun p => set_waitrounds WAITROUNDS (set_state WAIT p)) k, a)
  end.
Proof.
  intros Hc Hp. unfold wait1. rewrite (run_curproc present c) by done. unfold kscan. rewrite run_kget.
  destruct (scan (zombie_child c) (procs k)) as [[i p]|].
  - by destruct (crashed p).
  - rewrite run_kget, (run_proc_at present c pc) by done.
    destruct (bool_decide _ || killed pc); [|done].
    unfold seterr. rewrite Spec.run_bind, (run_curproc present c) by done. done.
Qed.

(** [wait] reaps exactly one child that has exited.  If a child process is a
    zombie, its pid is returned and its slot becomes free (a crashed child's
    corpse is kept as [CRASHED] instead); without one it fails when there are no
    children or the caller is killed, and otherwise waits; live processes keep
    their pids apart. *)
Theorem wait_reaps k a c pc :
  cur k = Some c -> procs k !! c = Some pc -> pids_ok k ->
  match Spec.run present wait k a with
  | Ok r (k', _) => pids_ok k' /\
    ((exists i p q, procs k !! i = Some p /\ parent p = Some c /\ state p = ZOMBIE /\ type p = PROCESS /\
        r = pid p /\ procs k' !! i = Some q /\ state q = (if crashed p then CRASHED else UNUSED) /\
        forall j, j <> i -> procs k' !! j = procs k !! j) \/
     (r = -1 /\ (forall i p, procs k !! i = Some p -> parent p = Some c -> state p = ZOMBIE -> type p <> PROCESS) /\
      (killed pc = true \/ forall i p, procs k !! i = Some p -> parent p <> Some c)))
  | Blocked (k', _) => (exists i p, procs k !! i = Some p /\ parent p = Some c) /\ killed pc = false /\
      exists q, procs k' !! c = Some q /\ state q = WAIT
  | _ => False
  end.
Proof.
  intros Hc Hp Hok. unfold wait. rewrite (wait1_run k a c pc Hc Hp).
  destruct (scan (zombie_child c) (procs k)) as [[i p]|] eqn:E.
  - apply scan_Some in E as (Hi & Hz & _). unfold zombie_child in Hz.
    apply andb_true_iff in Hz as [[Z1 Z2]%andb_true_iff Z3]. apply bool_decide_eq_true in Z1, Z2, Z3.
    set (g := if crashed p then set_state CRASHED else free_slot).
    assert (procs (with_proc i g k) !! i = Some (g p)) as Hg by (by apply with_proc_lookup).
    split.
    + apply (pids_keep k); [done|done|]. intros j q Hq Hs.
      destruct (decide (i = j)) as [<-|Hne]; [|rewrite with_proc_ne in Hq by done; eauto].
      rewrite Hg in Hq. injection Hq as <-. exists p. split; [done|]. split; [congruence|].
      unfold g in *. by destruct (crashed p).
    + left. exists i, p, (g p). do 5 (split; [done|]). split; [done|]. split.
      * unfold g. by destruct (crashed p).
      * intros j Hj. by rewrite with_proc_ne by done.
  - rewrite scan_None in E.
    assert (Hnz : forall i p, procs k !! i = Some p -> parent p = Some c -> state p = ZOMBIE -> type p <> PROCESS).
    { intros i p Hi H1 H2 H3. specialize (E i p Hi). unfold zombie_child in E.
      rewrite !bool_decide_true in E by done. done. }
    destruct (scan (fun p => bool_decide (parent p = Some c)) (procs k)) as [[i p]|] eqn:E2.
    + apply scan_Some in E2 as (Hi & Hpar & _). apply bool_decide_eq_true in Hpar.
      rewrite bool_decide_false by done. cbn [orb]. destruct (killed pc) eqn:Ek.
      * split; [|by right; auto]. apply (pids_keep k); [done|done|]. intros j q Hq Hs.
        destruct (decide (c = j)) as [<-|Hne]; [|rewrite with_proc_ne in Hq by done; eauto].
        rewrite (with_proc_lookup c _ k pc Hp) in Hq. injection Hq as <-. eauto.
      * split; [eauto|]. split; [done|]. eexists. split; [by apply with_proc_lookup|done].
    + rewrite bool_decide_true by done. cbn [orb]. rewrite scan_None in E2. split.
      * apply (pids_keep k); [done|done|]. intros j q Hq Hs.
        destruct (decide (c = j)) as [<-|Hne]; [|rewrite with_proc_ne in Hq by done; eauto].
        rewrite (with_proc_lookup c _ k pc Hp) in Hq. injection Hq as <-. eauto.
      * right. split; [done|]. split; [done|]. right. intros i p Hi Hpar. specialize (E2 i p Hi).
        by rewrite bool_decide_true in E2.
Qed.

(** [wakeup] makes exactly the processes sleeping on its channel runnable:
    no sleeper on it is missed, and no other process changes. *)
Theorem wakeup_exact ch k a :
  exists k', Spec.run present (wakeup ch) k a = Ok tt (k', a) /\
  forall i p, procs k !! i = Some p -> exists q, procs k' !! i = Some q /\
    (if bool_decide (state p = SLEEPING /\ chan p = Some ch) then q = set_state RUNNABLE p else q = p).
Proof.
  eexists. split; [done|]. intros i p Hp. cbn. rewrite list_lookup_fmap, Hp. eexists. split; [done|].
  unfold wake. repeat case_bool_decide; cbn; tauto.
Qed.

(** *** The scheduler *)

(** The scheduler passes a process by before the file system is there, unless it
    is the kernel's own, and in single-user mode, unless it is a superuser. *)
Definition passed_by k (p : proc) : bool := (first k && negb (pid p =? 0)) || (negb (uid p =? -1) && singleuser k).

Lemma visit_wait k a i p : procs k !! i = Some p -> state p = WAIT ->
  Spec.run present (sched_visit i) k a =
  Ok false (if passed_by k p then k else with_proc i (if 0 <? waitrounds p then set_waitrounds (waitrounds p - 1) else set_state RUNNABLE) k, a).
Proof.
  intros Hi Hs. unfold sched_visit, passed_by. rewrite (run_proc_at present i p) by done.
  rewrite Hs, (bool_decide_false (WAIT = ZOMBIE)), andb_false_r by done. cbn [mbind prog_bind mret prog_ret].
  rewrite (run_proc_at present i p), run_kget by done. destruct (first k && negb (pid p =? 0)); [done|]. cbn [orb].
  rewrite run_kget. destruct (negb (uid p =? -1) && singleuser k); [done|]. rewrite Hs, (bool_decide_false (WAIT = RUNNABLE)) by done. cbn [negb].
  rewrite (bool_decide_true (WAIT = WAIT)) by done. by destruct (0 <? waitrounds p).
Qed.
Lemma visit_runnable k a i p : procs k !! i = Some p -> state p = RUNNABLE -> passed_by k p = false ->
  Spec.run present (sched_visit i) k a = Ok true (with_proc i (set_state RUNNING) (set_cur (Some i) k), a).
Proof.
  intros Hi Hs [E1 E2]%orb_false_iff. unfold sched_visit. rewrite (run_proc_at present i p) by done.
  rewrite Hs, (bool_decide_false (RUNNABLE = ZOMBIE)), andb_false_r by done. cbn [mbind prog_bind mret prog_ret].
  rewrite (run_proc_at present i p), run_kget, E1 by done. rewrite run_kget, E2, Hs, (bool_decide_true (RUNNABLE = RUNNABLE)) by done. done.
Qed.

(** The scheduler comes to slot [i] time and again; in between anything may
    happen that leaves the slot and the two switches alone. *)
Inductive comes_by (i : nat) : nat -> kmem -> kmem -> Prop :=
| comes_0 k : comes_by i 0 k k
| comes_visit n k b k1 k' a : Spec.run present (sched_visit i) k a = Ok b (k1, a) -> comes_by i n k1 k' -> comes_by i (S n) k k'
| comes_other n k k1 k' : procs k1 !! i = procs k !! i -> first k1 = first k -> singleuser k1 = singleuser k -> comes_by i n k1 k' -> comes_by i n k k'.

Lemma waiting_visits i n k k' : comes_by i n k k' -> forall p, procs k !! i = Some p -> state p = WAIT -> passed_by k p = false ->
  Z.of_nat n <= waitrounds p -> procs k' !! i = Some (if decide (n = 0%nat) then p else set_waitrounds (waitrounds p - Z.of_nat n) p) /\
    first k' = first k /\ singleuser k' = singleuser k.
Proof.
  induction 1 as [k|n k b k1 k' a E _ IH|n k k1 k' E1 E2 E3 _ IH]; intros p Hp Hs Hb Hn; [by rewrite decide_True by done| |].
  - rewrite (visit_wait k a i p Hp Hs), Hb, (proj2 (Z.ltb_lt 0 (waitrounds p))) in E by lia. injection E as <- <-.
    destruct (IH (set_waitrounds (waitrounds p - 1) p)) as (Hq & F1 & F2); [by apply with_proc_lookup|done|exact Hb|cbn; lia|].
    split; [|done]. rewrite Hq. f_equal. rewrite (decide_False (P := S n = 0%nat)) by done. case_decide as Hz; [by subst n|].
    change (waitrounds (set_waitrounds (waitrounds p - 1) p)) with (waitrounds p - 1).
    replace (waitrounds p - 1 - Z.of_nat n) with (waitrounds p - Z.of_nat (S n)) by lia. done.
  - rewrite <- E2, <- E3. apply IH; [by rewrite E1|done| |done]. unfold passed_by. by rewrite E2, E3.
Qed.

(** C23: a waiting process is not forgotten.  A process that [wait1] has put to
    [WAIT] with [waitrounds] rounds to go, and that the scheduler does not pass
    by (it passes by all but the kernel's process until the file system is there,
    and all but superusers in single-user mode), stays in [WAIT] for that many
    visits of the scheduler to its slot, each counting one round, whatever
    happens elsewhere in between; the visit after them makes it [RUNNABLE], and
    the one after that runs it, if nothing changed its slot.  A process that is
    passed by does not count. *)
Theorem wait_rounds_expire k i p n k1 a :
  procs k !! i = Some p -> state p = WAIT -> 0 <= waitrounds p -> comes_by i n k k1 ->
  (passed_by k p = true -> procs k1 !! i = Some p) /\
  (passed_by k p = false -> (Z.of_nat n <= waitrounds p -> exists q, procs k1 !! i = Some q /\ state q = WAIT /\ waitrounds q = waitrounds p - Z.of_nat n) /\
    (Z.of_nat n = waitrounds p -> exists k2 q, Spec.run present (sched_visit i) k1 a = Ok false (k2, a) /\ procs k2 !! i = Some q /\ state q = RUNNABLE /\ pid q = pid p /\
      exists k3 r, Spec.run present (sched_visit i) k2 a = Ok true (k3, a) /\ cur k3 = Some i /\ procs k3 !! i = Some r /\ state r = RUNNING /\ pid r = pid p)).
Proof.
  intros Hp Hs Hw HC. split.
  - intros Hb. assert (procs k1 !! i = Some p /\ passed_by k1 p = true) as [? _]; [|done]. revert Hp Hb.
    induction HC as [k|n k b k1 k' a' E _ IH|n k k1 k' E1 E2 E3 _ IH]; intros Hp Hb; [done| |].
    + rewrite (visit_wait k a' i p Hp Hs), Hb in E. injection E as <- <-. by apply IH.
    + apply IH; [by rewrite E1|]. unfold passed_by. by rewrite E2, E3.
  - intros Hb. split.
    + intros Hn. destruct (waiting_visits i n k k1 HC p Hp Hs Hb Hn) as (Hq & _). eexists. split; [exact Hq|].
      case_decide; [subst; split; [done|lia]|done].
    + intros Hn. destruct (waiting_visits i n k k1 HC p Hp Hs Hb) as (Hq & F1 & F2); [lia|]. set (q := if decide _ then _ else _) in Hq.
      assert (state q = WAIT /\ waitrounds q = 0 /\ pid q = pid p /\ uid q = uid p) as (Sq & Wq & Pq & Uq) by (unfold q; case_decide; cbn; split_and!; try done; lia).
      assert (passed_by k1 q = false) as Hbq by (unfold passed_by in *; by rewrite F1, F2, Pq, Uq).
      rewrite (visit_wait k1 a i q Hq Sq), Hbq, Wq. cbn [Z.ltb Z.compare].
      assert (procs (with_proc i (set_state RUNNABLE) k1) !! i = Some (set_state RUNNABLE q)) as Hq2 by (by apply with_proc_lookup).
      eexists _, _. split; [done|]. split; [exact Hq2|]. split; [done|]. split; [done|].
      rewrite (visit_runnable _ a i _ Hq2) by done. eexists _, _. split; [done|]. split; [done|].
      split; [exact (with_proc_lookup i (set_state RUNNING) (set_cur (Some i) _) _ Hq2)|done].
Qed.

(** *** Exit *)

Lemma flush_loop_ok l k a h fuel : linked (msgs k) h l -> NoDup l -> (length l <= fuel)%nat ->
  Spec.run present (flush_loop fuel h) k a =
  Ok tt (set_msgs (foldl (fun ms m => delete m ms) (msgs k) l) k, a).
Proof.
  revert k h fuel. induction l as [|m l IH]; intros k h fuel H Hnd Hf.
  - cbn in H. subst h. destruct fuel; cbn; by destruct k.
  - destruct H as (-> & v & Hv & Hl). apply list.NoDup_cons in Hnd as [Hm Hnd].
    destruct fuel as [|fuel]; [cbn in Hf; lia|]. cbn [flush_loop].
    unfold free_message. rewrite Spec.run_bind, (run_msg_at present m v) by done. rewrite run_kset.
    cbn [Spec.run mret prog_ret].
    rewrite (IH (set_msgs (delete m (msgs k)) k)); [done| |done|cbn in Hf; lia]. cbn [msgs set_msgs].
    clear -Hl Hm. revert Hl. generalize (m_next v). induction l as [|x l IH]; intros h H; [done|].
    apply not_elem_of_cons in Hm as [Hx Hm]. destruct H as (-> & w & Hw & H). split; [done|].
    exists w. split; [by rewrite lookup_delete_ne|]. by apply IH.
Qed.

Lemma linked_size ms h l : linked ms h l -> NoDup l -> (length l <= size ms)%nat.
Proof.
  intros H Hnd. rewrite <- size_dom. rewrite <- (size_list_to_set (C:=gset nat) l) by done.
  apply subseteq_size. intros m Hm%elem_of_list_to_set. apply elem_of_dom.
  clear Hnd. revert h H. induction l as [|x l IH]; intros h H; [by apply not_elem_of_nil in Hm|].
  destruct H as (-> & v & Hv & H). apply elem_of_cons in Hm as [->|Hm]; [eauto|by apply (IH Hm (m_next v))].
Qed.

Lemma wake_if_keeps o q : pid (wake_if o q) = pid q /\ ofile (wake_if o q) = ofile q /\
  parent (wake_if o q) = parent q /\ (state q = RUNNABLE -> state (wake_if o q) = RUNNABLE).
Proof.
  destruct o as [j|]; [|done]. cbn. unfold wake. destruct (_ && _); [|done]. done.
Qed.

Lemma exit_procs_fwd c ini par ps i o : ps !! i = Some o ->
  exists q, exit_procs c ini par ps !! i = Some q /\ (i = c -> state q = ZOMBIE) /\
    pid q = pid o /\ ofile q = ofile o /\
    parent q = (if bool_decide (parent o = Some c) then ini else parent o) /\
    (i <> c -> par = Some i -> state o = SLEEPING -> chan o = Some (ChProc i) -> state q = RUNNABLE).
Proof.
  intros Ho. unfold exit_procs. set (o2 := if existsb _ _ then ini else None).
  set (r := wake_if o2 (reparent c ini (wake_if par o))).
  destruct (wake_if_keeps o2 (reparent c ini (wake_if par o))) as (A1 & A2 & A3 & A4).
  destruct (wake_if_keeps par o) as (B1 & B2 & B3 & B4). fold r in A1, A2, A3, A4.
  assert (((fun q => wake_if o2 (reparent c ini q)) <$> (wake_if par <$> ps)) !! i = Some r) as Hr
    by (by rewrite !list_lookup_fmap, Ho).
  assert (pid r = pid o /\ ofile r = ofile o /\
    parent r = (if bool_decide (parent o = Some c) then ini else parent o)) as (C1 & C2 & C3).
  { rewrite A1, A2, A3. unfold reparent. rewrite B3. case_bool_decide; cbn; auto. }
  destruct (decide (i = c)) as [->|Hne].
  - exists (set_state ZOMBIE r). rewrite list_lookup_alter_eq, Hr. split; [done|]. split; [done|].
    split; [done|]. split; [done|]. split; [done|]. done.
  - exists r. rewrite list_lookup_alter_ne by done. split; [done|]. split; [done|].
    split; [done|]. split; [done|]. split; [done|]. intros _ -> Hs Hch. apply A4.
    assert (state (wake_if (Some i) o) = RUNNABLE) as Hw.
    { cbn. unfold wake. by rewrite !bool_decide_true. }
    unfold reparent. destruct (bool_decide (parent (wake_if (Some i) o) = Some c)); exact Hw.
Qed.
Lemma exit_procs_bwd c ini par ps i q : exit_procs c ini par ps !! i = Some q -> exists o, ps !! i = Some o.
Proof.
  intros H%lookup_lt_Some. unfold exit_procs in H. rewrite length_alter, !length_fmap in H.
  by apply lookup_lt_is_Some_2 in H.
Qed.
Lemma foldl_delete_None (ms : gmap nat message) l m : m ∈ l -> foldl (fun ms m => delete m ms) ms l !! m = None.
Proof.
  revert ms. induction l as [|x l IH]; intros ms Hm; [by apply not_elem_of_nil in Hm|].
  cbn. apply elem_of_cons in Hm as [->|Hm]; [|by apply IH]. clear IH.
  assert (forall l (ms : gmap nat message), ms !! x = None -> foldl (fun ms m => delete m ms) ms l !! x = None) as H.
  { clear. induction l as [|y l IH]; intros ms H; cbn; [done|]. apply IH.
    destruct (decide (x = y)) as [->|]; [by rewrite lookup_delete_eq|by rewrite lookup_delete_ne]. }
  apply H. by rewrite lookup_delete_eq.
Qed.


(** *** Fork *)

Definition embryo (n : Z) (p : proc) : proc :=
  set_kstack true (set_err None (set_uid (-2) (set_sid (-1) (set_pid n (set_state EMBRYO p))))).

Lemma run_allocproc {B} (f : option nat -> K B) k a i p :
  scan is_unused (procs k) = Some (i, p) -> oracle k = [] ->
  Spec.run present (allocproc ≫= f) k a =
  Spec.run present (f (Some i)) (with_proc i (embryo (nextpid k)) (set_nextpid (s32 (nextpid k + 1)) k)) a.
Proof.
  intros Hs Ho. rewrite Spec.run_bind. unfold allocproc, kscan. rewrite run_kget, Hs, run_kget, run_kset, run_upd_proc.
  unfold alloc at 1. rewrite Spec.run_bind, run_kget. cbn [oracle with_proc set_procs set_nextpid]. rewrite Ho.
  cbn [Spec.run mret prog_ret negb]. rewrite run_upd_proc. unfold initmailbox, alloc.
  cbn [Spec.run mbind prog_bind kget oracle with_proc set_procs set_nextpid mret prog_ret]. rewrite Ho.
  cbn [Spec.run mbind prog_bind mret prog_ret]. f_equal. unfold with_proc, set_procs, set_nextpid. cbn.
  by rewrite list_alter_alter_eq.
Qed.

(** What the descriptor loop makes of the child's table and the reference
    counts. *)
Definition copy_fds (fds : list nat) (po qo : list (option nat)) : list (option nat) :=
  foldl (fun qo fd => match po !! fd with Some (Some f) => <[fd := Some f]> qo | _ => qo end) qo fds.
Definition opens (fds : list nat) (po : list (option nat)) : list nat := omap (fun fd => mjoin (po !! fd)) fds.
Definition bump (fl : list nat) (ft : list file) : list file :=
  foldl (fun ft f => alter (fun x => set_f_ref (f_ref x + 1) x) f ft) ft fl.

Lemma dup_loop fds k a c np pc q : c <> np -> procs k !! c = Some pc -> procs k !! np = Some q ->
  (forall fd f, ofile pc !! fd = Some (Some f) -> exists x, ftab k !! f = Some x /\ 1 <= f_ref x) ->
  Spec.run present (pfor fds (dup_fd c np)) k a =
  Ok tt (set_procs (alter (set_ofile (copy_fds fds (ofile pc) (ofile q))) np (procs k))
         (set_ftab (bump (opens fds (ofile pc)) (ftab k)) k), a).
Proof.
  intros Hne. revert k q. induction fds as [|fd fds IH]; intros k q Hc Hq Hf; cbn [pfor].
  - cbn [Spec.run copy_fds opens omap foldl bump]. do 2 f_equal.
    replace (alter (set_ofile (ofile q)) np (procs k)) with (procs k); [by destruct k|].
    apply list_eq. intros j. destruct (decide (np = j)) as [<-|].
    + rewrite list_lookup_alter_eq, Hq. cbn. by destruct q.
    + by rewrite list_lookup_alter_ne.
  - rewrite Spec.run_bind. unfold dup_fd at 1. rewrite (run_proc_at present c pc) by done.
    cbn [copy_fds opens omap list_omap foldl]. destruct (ofile pc !! fd) as [[f|]|] eqn:E; cbn [mjoin option_join].
    + destruct (Hf fd f E) as (x & Hx & Hr). unfold filedup. rewrite Spec.run_bind.
      rewrite (run_file_at present f x) by done. rewrite (proj2 (Z.ltb_ge (f_ref x) 1)) by lia.
      unfold upd_file. rewrite run_kset. cbn [Spec.run mret prog_ret upd_proc kset kmodify].
      set (k1 := set_procs _ _).
      rewrite (IH k1 (set_ofile (<[fd:=Some f]> (ofile q)) q)).
      * do 2 f_equal. unfold k1. cbn. rewrite list_alter_alter_eq. f_equal.
      * unfold k1. cbn. by rewrite list_lookup_alter_ne.
      * unfold k1. cbn. by rewrite list_lookup_alter_eq, Hq.
      * intros fd' f' E'. destruct (Hf fd' f' E') as (y & Hy & Hry). unfold k1. cbn.
        destruct (decide (f = f')) as [<-|].
        -- rewrite list_lookup_alter_eq, Hy. eexists. split; [done|]. cbn. lia.
        -- rewrite list_lookup_alter_ne by done. eauto.
    + cbn [Spec.run mret prog_ret]. by apply IH.
    + cbn [Spec.run mret prog_ret]. by apply IH.
Qed.

Lemma bump_lookup fl ft i x : ft !! i = Some x ->
  exists y, bump fl ft !! i = Some y /\ f_ref y = f_ref x + Z.of_nat (length (filter (fun f => f = i) fl)) /\
    f_type y = f_type x.
Proof.
  revert ft x. induction fl as [|f fl IH]; intros ft x H.
  - exists x. split; [done|]. cbn. split; [lia|done].
  - cbn [bump foldl]. destruct (decide (f = i)) as [->|Hne].
    + destruct (IH (alter (fun x => set_f_ref (f_ref x + 1) x) i ft) (set_f_ref (f_ref x + 1) x)) as (y & Hy & Hr & Ht).
      { by rewrite list_lookup_alter_eq, H. }
      exists y. rewrite filter_cons_True by done. cbn [length f_ref set_f_ref] in *. split; [done|]. split; [lia|done].
    + destruct (IH (alter (fun x => set_f_ref (f_ref x + 1) x) f ft) x) as (y & Hy & Hr & Ht).
      { by rewrite list_lookup_alter_ne. }
      exists y. rewrite filter_cons_False by done. auto.
Qed.

Lemma copy_fds_lookup fds po qo fd : (forall x, x ∈ fds -> (x < length qo)%nat) ->
  copy_fds fds po qo !! fd =
  if decide (fd ∈ fds) then match po !! fd with Some (Some f) => Some (Some f) | _ => qo !! fd end else qo !! fd.
Proof.
  revert qo. induction fds as [|x fds IH]; intros qo Hx; cbn [copy_fds foldl]; [by rewrite decide_False by set_solver|].
  assert (x < length qo)%nat as Hlx by (apply Hx; by left).
  set (qo1 := match po !! x with Some (Some f) => <[x:=Some f]> qo | _ => qo end).
  assert (length qo1 = length qo) as Hlen.
  { unfold qo1. destruct (po !! x) as [[]|]; rewrite ?length_insert; done. }
  change (foldl _ qo1 fds) with (copy_fds fds po qo1).
  rewrite IH by (rewrite Hlen; intros y Hy; apply Hx; by right).
  destruct (decide (fd = x)) as [->|Hne].
  - assert (qo1 !! x = match po !! x with Some (Some f) => Some (Some f) | _ => qo !! x end) as E1.
    { unfold qo1. destruct (po !! x) as [[f|]|]; [by rewrite list_lookup_insert_eq|done|done]. }
    rewrite (decide_True _ _ (list_elem_of_here x fds)), E1. by destruct (decide (x ∈ fds)), (po !! x) as [[f|]|].
  - assert (qo1 !! fd = qo !! fd) as E1.
    { unfold qo1. destruct (po !! x) as [[f|]|]; [by rewrite list_lookup_insert_ne|done|done]. }
    rewrite E1. destruct (decide (fd ∈ fds)) as [H|H], (decide (fd ∈ x :: fds)) as [H'|H']; try done.
    + exfalso. apply H'. by right.
    + exfalso. apply elem_of_cons in H' as [?|?]; done.
Qed.

Lemma run_dup_dirs c np pc k a : procs k !! c = Some pc ->
  (forall i, p_root pc = Some i \/ cwd pc = Some i -> is_Some (icache (fs k) !! i)) ->
  exists x, disks x = disks (fs k) /\ forall B (f : unit -> K B), Spec.run present (dup_dirs c np ≫= f) k a =
    Spec.run present (f tt) (with_proc np (fun q => set_cwd (cwd pc) (set_p_root (p_root pc) q)) (set_fs x k)) a.
Proof.
  intros Hc Hi. unfold dup_dirs.
  assert (forall o x0, (forall i, o = Some i -> is_Some (icache x0 !! i)) ->
    exists x, Spec.run present (idup o) x0 a = Ok o (x, a) /\ disks x = disks x0 /\ length (icache x) = length (icache x0)) as Hd.
  { intros [i|] x0 H; [|by exists x0]. destruct (H i eq_refl) as [ip Hip]. cbn [idup].
    rewrite (run_iat present i ip) by done. unfold incref. rewrite run_iset. eexists. split; [done|].
    split; [done|]. cbn. by rewrite length_alter. }
  destruct (Hd (p_root pc) (fs k)) as (x1 & H1 & D1 & L1); [eauto|].
  destruct (Hd (cwd pc) x1) as (x2 & H2 & D2 & L2).
  { intros i E. apply lookup_lt_is_Some. rewrite L1. apply lookup_lt_is_Some. eauto. }
  exists x2. split; [congruence|]. intros B f.
  rewrite Spec.run_bind, (run_proc_at present c pc) by done.
  rewrite Spec.run_bind, on_fs_run, H1. rewrite Spec.run_bind, on_fs_run. cbn [fs set_fs]. rewrite H2. done.
Qed.

(** C15: [fork] makes a faithful child.  With a free slot, memory, and a parent
    whose descriptors name open files, it returns the next unused pid; the child
    in the slot is runnable, has that pid, the caller as parent, its user, size,
    registers (with 0 as its own return value), open files and directories; each
    open file has gained one reference per descriptor; and live processes still
    have different pids. *)
Theorem fork_spec k a c pc np q :
  cur k = Some c -> procs k !! c = Some pc -> state pc = RUNNING -> oracle k = [] -> pids_ok k ->
  scan is_unused (procs k) = Some (np, q) ->
  length (ofile q) = NOFILE -> length (ofile pc) = NOFILE -> (forall fd o, ofile q !! fd = Some o -> o = None) ->
  (forall fd f, ofile pc !! fd = Some (Some f) -> exists x, ftab k !! f = Some x /\ 1 <= f_ref x) ->
  (forall i, p_root pc = Some i \/ cwd pc = Some i -> is_Some (icache (fs k) !! i)) ->
  exists k' ch, Spec.run present fork k a = Ok (nextpid k) (k', a) /\
    procs k' !! np = Some ch /\ state ch = RUNNABLE /\ pid ch = nextpid k /\ parent ch = Some c /\
    uid ch = uid pc /\ sid ch = sid pc /\ sz ch = sz pc /\ ofile ch = ofile pc /\ cwd ch = cwd pc /\
    tf ch = {| tf_eax := 0; tf_esp := tf_esp (tf pc); tf_eip := tf_eip (tf pc) |} /\
    (forall j, j <> np -> procs k' !! j = procs k !! j) /\
    (forall i x, ftab k !! i = Some x -> exists y, ftab k' !! i = Some y /\
       f_ref y = f_ref x + Z.of_nat (length (filter (fun f => f = i) (opens (seq 0 NOFILE) (ofile pc))))) /\
    (nextpid k < 2 ^ 31 - 2 -> pids_ok k').
Proof.
  intros Hc Hpc Hrun Ho Hok Hs Hlq Hlp Hnone Hf Hi.
  apply scan_Some in Hs as Hs'. destruct Hs' as (Hq & Hu & _).
  unfold is_unused in Hu. apply bool_decide_eq_true in Hu.
  assert (c <> np) as Hne by (intros ->; congruence).
  unfold fork. rewrite (run_curproc present c) by done. rewrite (run_allocproc _ k a np q Hs Ho).
  set (n := nextpid k). set (k1 := with_proc np (embryo n) (set_nextpid (s32 (n + 1)) k)).
  unfold alloc. rewrite Spec.run_bind, run_kget. change (oracle k1) with (oracle k). rewrite Ho.
  cbn [Spec.run mret prog_ret negb]. rewrite Spec.run_bind. unfold new_addr. rewrite run_kget, run_kset.
  cbn [Spec.run mret prog_ret]. set (k2 := set_fresh _ k1).
  assert (procs k2 !! c = Some pc) as Hc2 by (unfold k2, k1, with_proc; cbn [procs set_procs set_fresh set_nextpid]; by rewrite list_lookup_alter_ne).
  assert (procs k2 !! np = Some (embryo n q)) as Hq2 
    by (unfold k2, k1, with_proc; cbn [procs set_procs set_fresh set_nextpid]; by rewrite list_lookup_alter_eq, Hq).
  rewrite (run_proc_at present c pc), run_upd_proc by done.
  set (G := fun q => set_tf _ _). set (k3 := with_proc np G k2).
  assert (procs k3 !! c = Some pc) as Hc3 by (unfold k3; by rewrite with_proc_ne).
  assert (procs k3 !! np = Some (G (embryo n q))) as Hq3 by (by apply with_proc_lookup).
  rewrite Spec.run_bind, (dup_loop (seq 0 NOFILE) k3 a c np pc (G (embryo n q)) Hne Hc3 Hq3 Hf).
  set (ofs := copy_fds _ _ _). set (k4 := set_procs (alter (set_ofile ofs) np (procs k3)) _).
  assert (procs k4 !! c = Some pc) as Hc4 by (unfold k4; cbn [procs set_procs]; by rewrite list_lookup_alter_ne).
  assert (procs k4 !! np = Some (set_ofile ofs (G (embryo n q)))) as Hq4.
  { unfold k4. cbn [procs set_procs]. rewrite list_lookup_alter_eq, Hq3. reflexivity. }
  destruct (run_dup_dirs c np pc k4 a Hc4 Hi) as (x & _ & Hx). rewrite Hx, run_upd_proc. clear Hx. set (D := fun q => set_cwd _ _).
  set (N := fun q => set_name _ _).
  set (k5 := with_proc np N _).
  assert (procs k5 !! np = Some (N (D (set_ofile ofs (G (embryo n q)))))) as Hq5.
  { unfold k5. apply with_proc_lookup. by apply (with_proc_lookup np D (set_fs x k4)). }
  rewrite (run_proc_at present np _ _ _ _ Hq5), run_upd_proc. cbn [Spec.run mret prog_ret].
  assert (ofs = ofile pc) as Eofs.
  { apply list_eq. intros fd. unfold ofs. rewrite copy_fds_lookup.
    2:{ intros y Hy%elem_of_seq. cbn. lia. }
    destruct (decide (fd ∈ seq 0 NOFILE)) as [Hin|Hout].
    - apply elem_of_seq in Hin. destruct (lookup_lt_is_Some_2 (ofile pc) fd) as [o E]; [lia|]. rewrite E.
      destruct o as [f|]; [done|]. destruct (lookup_lt_is_Some_2 (ofile q) fd) as [o E']; [lia|]. cbn.
      rewrite E'. f_equal. by apply (Hnone fd).
    - assert (NOFILE <= fd)%nat as Hge by (destruct (decide (fd < NOFILE)%nat); [|lia]; exfalso; apply Hout, elem_of_seq; lia).
      cbn. rewrite !lookup_ge_None_2; [done|lia|lia]. }
  eexists _, _. split; [done|]. split; [by apply with_proc_lookup|].
  do 5 (split; [done|]). split; [done|]. split; [exact Eofs|]. split; [done|]. split; [done|].
  assert (forall j, j <> np -> procs (with_proc np (set_state RUNNABLE) k5) !! j = procs k !! j) as Hoth.
  { intros j Hj. unfold k5, k4, k3, k2, k1, with_proc.
    cbn [procs set_procs set_fs set_ftab set_fresh set_nextpid]. by rewrite !list_lookup_alter_ne. }
  split; [done|]. split.
  - intros i y Hy. destruct (bump_lookup (opens (seq 0 NOFILE) (ofile pc)) (ftab k) i y Hy) as (z & Hz & Hr & _). eauto.
  - intros Hlt. destruct Hok as [P1 P2 P3].
    assert (nextpid (with_proc np (set_state RUNNABLE) k5) = n + 1) as En.
    { change (s32 (n + 1) = n + 1). apply s32_small. unfold n. lia. }
    split; [rewrite En; unfold n; lia|..]; rewrite ?En.
    + intros j r Hr Sr. destruct (decide (j = np)) as [->|Hj].
      * rewrite (with_proc_lookup np _ k5 _ Hq5) in Hr. injection Hr as <-. cbn. lia.
      * rewrite Hoth in Hr by done. specialize (P2 j r Hr Sr). unfold n. lia.
    + intros i j r t Hr Ht Sr St E. destruct (decide (i = np)) as [->|Hi'], (decide (j = np)) as [->|Hj']; [done|..].
      * rewrite (with_proc_lookup np _ k5 _ Hq5) in Hr. injection Hr as <-. cbn in E.
        rewrite Hoth in Ht by done. specialize (P2 j t Ht St). unfold n in E. lia.
      * rewrite (with_proc_lookup np _ k5 _ Hq5) in Ht. injection Ht as <-. cbn in E.
        rewrite Hoth in Hr by done. specialize (P2 i r Hr Sr). unfold n in E. lia.
      * rewrite Hoth in Hr, Ht by done. by apply (P3 i j r t).
Qed.
End proc_facts.

(** ** Concrete processes *)

Module ProcSample.
Import FileSample.

Definition parent1 : proc :=
  set_cwd (Some 0%nat) (set_ofile (Some 0%nat :: replicate 15 None) (set_uid 500 (set_sid (-1) proc1))).
Definition dead1 : proc :=
  set_parent (Some 0%nat) (set_state ZOMBIE (set_pid 7 proc_zero)).
Definition kmem2 : kmem :=
  set_nextpid 8 (set_procs [parent1; dead1; proc_zero] kmem1).

Lemma kmem2_pids : pids_ok kmem2.
Proof.
  split; [cbn; lia|..].
  - intros [|[|[|]]] p [= <-]; cbn; lia.
  - intros [|[|[|]]] [|[|[|]]] p q [= <-] [= <-]; cbn; congruence.
Qed.

(** The running process has one message; a second comes, and the first is read. *)
Definition kmem_mail : kmem :=
  set_msgs {[ 5%nat := {| m_size := 1; m_data := [9]; m_next := None |}; 6%nat := {| m_size := 2; m_data := [8; 7]; m_next := None |} ]}
    (set_procs [set_mbox {| mb_head := Some 5%nat; mb_tail := Some 5%nat |} parent1; dead1; proc_zero] kmem2).
Lemma mailbox_fifo_witness :
  (exists k' q, Spec.run Concrete.only0 (psendmsg 0 6) kmem_mail Sample.drive0 = Ok 0 (k', Sample.drive0) /\
     procs k' !! 0%nat = Some q /\ queue_of (msgs k') (mbox q) [5%nat; 6%nat]) /\
  (Spec.run Concrete.only0 precvwait kmem_mail Sample.drive0 = Ok 1 (kmem_mail, Sample.drive0) /\
   exists k' q, Spec.run Concrete.only0 precvmsg kmem_mail Sample.drive0 = Ok 5%nat (k', Sample.drive0) /\
     procs k' !! 0%nat = Some q /\ queue_of (msgs k') (mbox q) []).
Proof.
  destruct (mailbox_fifo Concrete.only0 kmem_mail Sample.drive0 0 (set_mbox {| mb_head := Some 5%nat; mb_tail := Some 5%nat |} parent1) [5%nat]) as [Hs Hr].
  - reflexivity.
  - split; [|split; [apply NoDup_singleton|right; by exists [], 5%nat]]. split; [reflexivity|]. eexists. split; reflexivity.
  - split.
    + destruct (Hs 6%nat {| m_size := 2; m_data := [8; 7]; m_next := None |}) as (k' & q & E & Hq & HQ & _); [reflexivity|by rewrite list_elem_of_singleton|].
      by exists k', q.
    + destruct (Hr eq_refl) as (v & Hv & Ew & k' & q & E & Hq & HQ & _). vm_compute in Hv. injection Hv as <-. split; [exact Ew|]. by exists k', q.
Defined.

Lemma wait_reaps_witness :
  match Spec.run Concrete.only0 wait kmem2 Sample.drive0 with
  | Ok r (k', _) => pids_ok k' /\
    ((exists i p q, procs kmem2 !! i = Some p /\ parent p = Some 0%nat /\ state p = ZOMBIE /\ type p = PROCESS /\
        r = pid p /\ procs k' !! i = Some q /\ state q = (if crashed p then CRASHED else UNUSED) /\
        forall j, j <> i -> procs k' !! j = procs kmem2 !! j) \/
     (r = -1 /\ (forall i p, procs kmem2 !! i = Some p -> parent p = Some 0%nat -> state p = ZOMBIE -> type p <> PROCESS) /\
      (killed parent1 = true \/ forall i p, procs kmem2 !! i = Some p -> parent p <> Some 0%nat)))
  | Blocked (k', _) => (exists i p, procs kmem2 !! i = Some p /\ parent p = Some 0%nat) /\ killed parent1 = false /\
      exists q, procs k' !! 0%nat = Some q /\ state q = WAIT
  | _ => False
  end.
Proof. apply wait_reaps; [reflexivity|reflexivity|exact kmem2_pids]. Defined.

Definition waiting : proc := set_waitrounds WAITROUNDS (set_state WAIT proc1).
Definition kmem3 : kmem := set_procs [waiting] kmem1.
Fixpoint visited (n : nat) (k : kmem) : kmem :=
  match n with O => k | S n' => match Spec.run Concrete.only0 (sched_visit 0) k Sample.drive0 with Ok _ (k', _) => visited n' k' | _ => k end end.
Lemma wait_rounds_expire_witness :
  exists k2 q, Spec.run Concrete.only0 (sched_visit 0) (visited 5 kmem3) Sample.drive0 = Ok false (k2, Sample.drive0) /\
    procs k2 !! 0%nat = Some q /\ state q = RUNNABLE /\ pid q = 1 /\
    exists k3 r, Spec.run Concrete.only0 (sched_visit 0) k2 Sample.drive0 = Ok true (k3, Sample.drive0) /\
      cur k3 = Some 0%nat /\ procs k3 !! 0%nat = Some r /\ state r = RUNNING /\ pid r = 1.
Proof.
  refine (proj2 (proj2 (wait_rounds_expire Concrete.only0 kmem3 0 waiting 5 (visited 5 kmem3) Sample.drive0 eq_refl eq_refl _ _) _) _).
  - vm_compute. congruence.
  - do 5 (eapply (comes_visit _ _ _ _ _ _ _ Sample.drive0); [vm_compute; reflexivity|]). apply comes_0.
  - vm_compute. reflexivity.
  - reflexivity.
Defined.


Lemma fork_spec_witness :
  exists k' ch, Spec.run Concrete.only0 fork kmem2 Sample.drive0 = Ok 8 (k', Sample.drive0) /\
    procs k' !! 2%nat = Some ch /\ state ch = RUNNABLE /\ pid ch = 8 /\ parent ch = Some 0%nat /\
    uid ch = 500 /\ sid ch = -1 /\ sz ch = sz parent1 /\ ofile ch = ofile parent1 /\ cwd ch = Some 0%nat /\
    tf ch = {| tf_eax := 0; tf_esp := tf_esp (tf parent1); tf_eip := tf_eip (tf parent1) |} /\
    (forall j, j <> 2%nat -> procs k' !! j = procs kmem2 !! j) /\
    (forall i x, ftab kmem2 !! i = Some x -> exists y, ftab k' !! i = Some y /\
       f_ref y = f_ref x + Z.of_nat (length (filter (fun f => f = i) (opens (seq 0 NOFILE) (ofile parent1))))) /\
    (8 < 2 ^ 31 - 2 -> pids_ok k').
Proof.
  apply (fork_spec Concrete.only0 kmem2 Sample.drive0 0 parent1 2 proc_zero);
    [reflexivity|reflexivity|reflexivity|reflexivity|exact kmem2_pids|reflexivity|reflexivity|reflexivity|..].
  - intros fd o H. change (ofile proc_zero) with (replicate NOFILE (@None nat)) in H.
    by apply lookup_replicate in H as [-> _].
  - intros [|fd] f H; [injection H as <-; eexists; split; [reflexivity|cbn; lia]|].
    change (ofile parent1 !! S fd) with (replicate 15 (@None nat) !! fd) in H.
    by apply lookup_replicate in H as [H _].
  - intros i [H|H]; [done|]. injection H as <-. eexists. reflexivity.
Defined.

(** [kill] does not look at the state: a process of user 500 kills pid 0 and
    marks the free slot its last child left, so the next process forked into
    that slot is born killed. *)
Definition kernel1 : proc := set_uid (-1) (set_sid (-1) (set_state RUNNABLE (set_pid 0 proc_zero))).
Definition free1 : proc := set_uid 500 (set_sid (-1) proc_zero).
Definition kmem4 : kmem := set_cur (Some 1%nat) (set_procs [kernel1; parent1; free1] kmem1).
Lemma kill_marks_free_slot :
  exists k' q, Spec.run Concrete.only0 (kill 0 ;; fork) kmem4 Sample.drive0 = Ok 2 (k', Sample.drive0) /\
    procs k' !! 2%nat = Some q /\ pid q = 2 /\ state q = RUNNABLE /\ killed q = true.
Proof. eexists _, _. vm_compute. split_and!; reflexivity. Qed.

(** A message sent between the receiver's test of its mailbox and its change to
    [MSGWAIT] wakes nobody: the receiver sleeps with the message in its box. *)
Definition kmem5 : kmem :=
  set_msgs {[ 5%nat := {| m_size := 1; m_data := [9]; m_next := None |} ]} kmem4.
Lemma receive_misses_wakeup :
  exists k' q, Spec.run Concrete.only0 (psendmsg 1 5 ;; upd_proc 1 (set_state MSGWAIT)) kmem5 Sample.drive0
      = Ok tt (k', Sample.drive0) /\
    procs k' !! 1%nat = Some q /\ mb_head (mbox q) = Some 5%nat /\ state q = MSGWAIT.
Proof. eexists _, _. vm_compute. split_and!; reflexivity. Qed.

(** [flush_mailbox] leaves the mailbox pointing at freed messages, and nothing
    resets it when the slot is reused: sending to the next process there follows
    the dangling pointer. *)
Definition kmem6 : kmem :=
  set_msgs {[ 5%nat := {| m_size := 1; m_data := [9]; m_next := None |};
              6%nat := {| m_size := 1; m_data := [8]; m_next := None |} ]}
    (set_procs [kernel1; parent1; set_mbox {| mb_head := Some 5%nat; mb_tail := Some 5%nat |} free1] kmem4).
Lemma flush_leaves_dangling :
  exists s, Spec.run Concrete.only0 (exit_table 2 (Some 0%nat) ;; upd_proc 2 free_slot ;; fork ;; psendmsg 2 6)
      kmem6 Sample.drive0 = Panic "bad message pointer" s.
Proof. eexists. vm_compute. reflexivity. Qed.
End ProcSample.

