(* ===== verification/Alloc.v ===== *)
(** The allocators: the kernel's page allocator and its Kernighan and Ritchie
    heap ([kalloc.c]), and the user library's heap ([umalloc.c]).

    The two heaps are one algorithm over two suppliers of memory.  The supplier
    is the class [Core]: [sbrk] for the user heap, [kalloc] for the kernel heap.
    [CoreSpec] states what the heap needs from it and the heap's theorems are
    proved against that interface.

    Memory is a map of 32-bit words.  A [union header] takes eight bytes, two
    words; the heap's pointers are header indices (byte address / 8), so
    [bp + 1] of the source is [bp + 1] here, modulo the 2^29 headers of a 32-bit
    address space. *)

From Stdlib Require Import Sorting.Sorted.
From S2P Require Import Prelude Params.

Abbreviation words := (gmap Z Z).
Definition ld (m : words) (w : Z) : Z := default 0 (m !! w).

(** ** Headers *)

Definition hptr (m : words) (a : Z) : Z := ld m (2 * a).
Definition hsize (m : words) (a : Z) : Z := ld m (2 * a + 1).
Definition set_hptr (a v : Z) (m : words) : words := <[2 * a := v]> m.
Definition set_hsize (a v : Z) (m : words) : words := <[2 * a + 1 := v]> m.
(** Pointer arithmetic on [Header*]. *)
Definition uadd (a n : Z) : Z := (a + n) mod 2 ^ 29.

(** ** Suppliers of memory

    [core nu] is a request for [nu] headers: 0 when refused. *)
Class Core (P : Type) := {
  core : Z -> words -> P -> Z * P;
  minunits : Z;                     (* the smallest request *)
}.

Record heap (P : Type) := Heap { mem_of : words; freep : Z; pool : P }.
Arguments Heap {_} _ _ _.
Arguments mem_of {_} _.
Arguments freep {_} _.
Arguments pool {_} _.

(** ** The Kernighan and Ritchie heap *)
Section heap.
Context {P : Type} `{!Core P} (base : Z).

(** The loop of [kmfree]: the free block after which [bp] belongs. *)
Fixpoint free_pos (fuel : nat) (m : words) (bp p : Z) : option Z :=
  match fuel with
  | O => None
  | S f =>
    if (p <? bp) && (bp <? hptr m p) then Some p
    else if (hptr m p <=? p) && ((p <? bp) || (bp <? hptr m p)) then Some p
    else free_pos f m bp (hptr m p)
  end.

Definition kmfree (ap : Z) (h : heap P) : option (heap P) :=
  let m := mem_of h in
  let bp := ap - 1 in
  match free_pos (S (S (size m))) m bp (freep h) with
  | None => None
  | Some p =>
    let m1 :=
      if uadd bp (hsize m bp) =? hptr m p then
        let m' := set_hsize bp (u32 (hsize m bp + hsize m (hptr m p))) m in
        set_hptr bp (hptr m' (hptr m' p)) m'
      else set_hptr bp (hptr m p) m in
    let m2 :=
      if uadd p (hsize m1 p) =? bp then
        let m' := set_hsize p (u32 (hsize m1 p + hsize m1 bp)) m1 in
        set_hptr p (hptr m' bp) m'
      else set_hptr p bp m1 in
    Some (Heap m2 p (pool h))
  end.

Definition mehrader (n : Z) (h : heap P) : option (Z * heap P) :=
  let n := if n <? minunits then minunits else n in
  let '(p, s) := core n (mem_of h) (pool h) in
  if p =? 0 then Some (0, Heap (mem_of h) (freep h) s)
  else
    match kmfree (p + 1) (Heap (set_hsize p n (mem_of h)) (freep h) s) with
    | Some h' => Some (freep h', h')
    | None => None
    end.

Fixpoint kmalloc_loop (fuel : nat) (nunits prev p : Z) (h : heap P) : option (Z * heap P) :=
  match fuel with
  | O => None
  | S f =>
    let m := mem_of h in
    if nunits <=? hsize m p then
      if hsize m p =? nunits then
        Some (uadd p 1, Heap (set_hptr prev (hptr m p) m) prev (pool h))
      else
        let m1 := set_hsize p (u32 (hsize m p - nunits)) m in
        let p' := uadd p (hsize m1 p) in
        Some (uadd p' 1, Heap (set_hsize p' nunits m1) prev (pool h))
    else if p =? freep h then
      match mehrader nunits h with
      | None => None
      | Some (q, h') =>
        if q =? 0 then Some (0, h') else kmalloc_loop f nunits q (hptr (mem_of h') q) h'
      end
    else kmalloc_loop f nunits p (hptr m p) h
  end.

Definition units (nbytes : Z) : Z := u32 (nbytes + 8 - 1) / 8 + 1.

(** The first call makes the empty list. *)
Definition heap_start (h : heap P) : heap P :=
  if freep h =? 0 then Heap (set_hsize base 0 (set_hptr base base (mem_of h))) base (pool h) else h.

Definition kmalloc (nbytes : Z) (h : heap P) : option (Z * heap P) :=
  let h := heap_start h in
  kmalloc_loop (2 * size (mem_of h) + 6) (units nbytes) (freep h) (hptr (mem_of h) (freep h)) h.

(** [cfree] of the user library: [kmfree] behind a nil test. *)
Definition cfree (ap : Z) (h : heap P) : option (Z * heap P) :=
  if ap =? 0 then Some (-1, h) else h' ← kmfree ap h; Some (0, h').
Definition sfree (ap : Z) (h : heap P) : option (Z * heap P) :=
  '(_, h') ← cfree ap h; Some (0, h').
Definition free_ (ap : Z) (h : heap P) : option (heap P) :=
  '(_, h') ← cfree ap h; Some h'.
End heap.

(** ** The page allocator

    A free page holds the pointer to the next in its first word; pages are
    header indices too, multiples of 512. *)
Record pages := Pages { use_lock : bool; freelist : Z }.
Record kpages := KPages { kp_mem : words; kp_pages : pages }.

Definition PGWORDS : nat := 1024.
Definition PGUNITS : Z := 512.
Definition junk : Z := 0x01010101.
(** [memset(v, 1, PGSIZE)] *)
Definition fill_page (w : Z) (m : words) : words :=
  foldr (fun i m => <[w + Z.of_nat i := junk]> m) m (seq 0 PGWORDS).

Section kalloc.
Context (kend : Z).   (* [end], the first address after the kernel image *)

Definition PGROUNDUP (sz : Z) : Z := u32 (Z.land (u32 (sz + PGSIZE - 1)) (u32 (-PGSIZE))).

Definition kfree (v : Z) : M kpages unit :=
  assert_or (v mod PGSIZE =? 0) "kfree: v % PGSIZE != 0" ;;
  assert_or (kend <=? v) "kfree: v < end" ;;
  assert_or (u32 (v - KERNBASE) <? PHYSTOP) "kfree: v2p(v) >= PHYSTOP" ;;
  modify (fun s =>
    let r := v / 8 in
    let m := fill_page (2 * r) (kp_mem s) in
    KPages (<[2 * r := freelist (kp_pages s)]> m) (Pages (use_lock (kp_pages s)) r)).

(** [kalloc] only reads memory. *)
Definition kalloc (m : words) (s : pages) : Z * pages :=
  let r := freelist s in
  if r =? 0 then (0, s) else (r, Pages (use_lock s) (ld m (2 * r))).

Fixpoint freerange_loop (fuel : nat) (p vend : Z) : M kpages unit :=
  match fuel with
  | O => mret tt
  | S f => if u32 (p + PGSIZE) <=? vend then kfree p ;; freerange_loop f (u32 (p + PGSIZE)) vend else mret tt
  end.
Definition freerange (vstart vend : Z) : M kpages unit :=
  freerange_loop (Z.to_nat (vend / PGSIZE)) (PGROUNDUP vstart) vend.

Definition kinit1 (vstart vend : Z) : M kpages unit :=
  modify (fun s => KPages (kp_mem s) (Pages false (freelist (kp_pages s)))) ;;
  freerange vstart vend.
Definition kinit2 (vstart vend : Z) : M kpages unit :=
  freerange vstart vend ;;
  modify (fun s => KPages (kp_mem s) (Pages true (freelist (kp_pages s)))).
End kalloc.

(** The kernel heap asks [kalloc] for one page, whatever the size. *)
#[export] Instance kalloc_core : Core pages := {| core _ m s := kalloc m s; minunits := 4096 / 8 |}.

(** The user heap asks [sbrk] for [nu * sizeof(Header)] bytes, a signed
    argument.  Of the process only its size matters; whether the kernel finds the
    pages for a growth is an oracle, one answer for each request. *)
Record uproc := UProc { usz : Z; grants : list bool }.

Definition growproc (n : Z) (s : uproc) : bool * uproc :=
  let new := u32 (usz s + n) in
  if 0 <? n then
    if KERNBASE <=? new then (false, s)
    else if new <? usz s then (true, s)
    else match grants s with
         | true :: g => (negb (new =? 0), UProc new g)
         | false :: g => (false, UProc (usz s) g)
         | [] => (false, s)
         end
  else if n <? 0 then
    if usz s <=? new then (true, s)
    else if new =? 0 then (false, s) else (true, UProc new (grants s))
  else (true, s).

Definition sys_sbrk (n : Z) (s : uproc) : Z * uproc :=
  let addr := usz s in
  let '(ok, s') := growproc n s in
  (if ok then addr else -1, s').

#[export] Instance sbrk_core : Core uproc :=
  {| core nu _ s := let '(p, s') := sys_sbrk (s32 (nu * 8)) s in ((if p =? -1 then 0 else p / 8), s');
     minunits := 4096 |}.

(** [umalloc.c]'s names for the heap over [sbrk]. *)
Definition morecore (nu : Z) (h : heap uproc) : option (Z * heap uproc) := mehrader nu h.
Definition malloc (base nbytes : Z) (h : heap uproc) : option (Z * heap uproc) := kmalloc base nbytes h.

(** * Correctness *)

(** ** Blocks of memory *)

Abbreviation blk := (Z * Z)%type.
Definition sep (x y : blk) : Prop := x.1 + x.2 <= y.1 \/ y.1 + y.2 <= x.1.
Fixpoint apart (l : list blk) : Prop :=
  match l with
  | [] => True
  | x :: l => Forall (sep x) l /\ apart l
  end.
Definition inb (u : Z) (l : list blk) : Prop := Exists (fun b => b.1 <= u < b.1 + b.2) l.
Definition fits (base : Z) (b : blk) : Prop := base < b.1 /\ 1 <= b.2 /\ b.1 + b.2 < 2 ^ 29.

(** Blocks above [base] that do not overlap. *)
Definition good (base : Z) (l : list blk) : Prop := apart l /\ Forall (fits base) l.

(** [X] can be recut into [Y]: the same memory, still not overlapping anything. *)
Definition recut (base : Z) (X Y : list blk) : Prop :=
  (forall R, good base (X ++ R) -> good base (Y ++ R)) /\ (forall u, inb u X <-> inb u Y).

Lemma sep_sym x y : sep x y -> sep y x.
Proof. unfold sep. tauto. Qed.
Lemma apart_app l k : apart (l ++ k) <-> apart l /\ apart k /\ Forall (fun x => Forall (sep x) k) l.
Proof.
  induction l as [|x l IH]; cbn; [rewrite list.Forall_nil; tauto|].
  rewrite list.Forall_app, list.Forall_cons, IH. tauto.
Qed.
#[export] Instance apart_perm : Proper ((≡ₚ) ==> iff) apart.
Proof.
  assert (forall l k, l ≡ₚ k -> apart l -> apart k) as H.
  { induction 1; cbn; auto.
    - intros [H1 H2]. split; [by rewrite <- H|auto].
    - rewrite !list.Forall_cons. intros [[? ?] [? ?]]. auto using sep_sym.
    }
  intros l k E. split; apply H; [done|by symmetry].
Qed.
#[export] Instance good_perm base : Proper ((≡ₚ) ==> iff) (good base).
Proof. intros l k E. unfold good. by rewrite E. Qed.
#[export] Instance inb_perm u : Proper ((≡ₚ) ==> iff) (inb u).
Proof. intros l k E. unfold inb. by rewrite E. Qed.
#[export] Instance recut_perm base : Proper ((≡ₚ) ==> (≡ₚ) ==> iff) (recut base).
Proof.
  intros X X' E Y Y' E'. unfold recut. split; intros [H1 H2]; split; intros.
  - rewrite <- E'. apply H1. by rewrite E.
  - rewrite <- E, <- E'. apply H2.
  - rewrite E'. apply H1. by rewrite <- E.
  - rewrite E, E'. apply H2.
Qed.
#[export] Instance recut_preorder base : PreOrder (recut base).
Proof.
  split; [by split|]. intros X Y Z [H1 H2] [H3 H4]. split; [auto|]. intros u. by rewrite H2.
Qed.
Lemma inb_app u l k : inb u (l ++ k) <-> inb u l \/ inb u k.
Proof. apply Exists_app. Qed.
Lemma recut_app base X Y K : recut base X Y -> recut base (X ++ K) (Y ++ K).
Proof.
  intros [H1 H2]. split.
  - intros R. rewrite <- !(assoc_L (++)). apply H1.
  - intros u. by rewrite !inb_app, H2.
Qed.
Lemma good_app_r base l k : good base (l ++ k) -> good base k.
Proof. unfold good. rewrite apart_app, list.Forall_app. tauto. Qed.
Lemma good_cons base x l : good base (x :: l) <-> fits base x /\ Forall (sep x) l /\ good base l.
Proof. unfold good. cbn. rewrite list.Forall_cons. tauto. Qed.

Lemma recut_split base a s n : 1 <= n < s -> recut base [(a, s)] [(a, s - n); (a + (s - n), n)].
Proof.
  intros H. split.
  - intros R. cbn. rewrite !good_cons, list.Forall_cons. intros (F & S & G).
    unfold fits, sep in *. cbn in *. split_and!; try lia; try done;
      (eapply list.Forall_impl; [exact S|]; cbn; intros; lia).
  - intros u. unfold inb. rewrite !Exists_cons, !Exists_nil. cbn. lia.
Qed.
Lemma recut_merge base a s t : 0 <= s -> 0 <= t -> recut base [(a, s); (a + s, t)] [(a, s + t)].
Proof.
  intros Hs Ht. split.
  - intros R. cbn. rewrite !good_cons, list.Forall_cons. intros (F & [_ S] & F' & S' & G).
    unfold fits, sep in *. cbn in *. split_and!; try lia; [|done].
    destruct G as [_ G]. rewrite list.Forall_forall in *. intros y Hy.
    specialize (S y Hy). specialize (S' y Hy). specialize (G y Hy). unfold fits in G. lia.
  - intros u. unfold inb. rewrite !Exists_cons, !Exists_nil. cbn. lia.
Qed.

(** ** Headers in memory *)

Lemma ld_insert m w v x : ld (<[w := v]> m) x = if decide (x = w) then v else ld m x.
Proof.
  unfold ld. destruct (decide _) as [->|E]; [by rewrite lookup_insert_eq|by rewrite lookup_insert_ne].
Qed.
Lemma hptr_set_hptr m a v b : hptr (set_hptr a v m) b = if decide (b = a) then v else hptr m b.
Proof. unfold hptr, set_hptr. rewrite ld_insert. repeat destruct (decide _); try done; lia. Qed.
Lemma hsize_set_hsize m a v b : hsize (set_hsize a v m) b = if decide (b = a) then v else hsize m b.
Proof. unfold hsize, set_hsize. rewrite ld_insert. repeat destruct (decide _); try done; lia. Qed.
Lemma hptr_set_hsize m a v b : hptr (set_hsize a v m) b = hptr m b.
Proof. unfold hptr, set_hsize. rewrite ld_insert, decide_False; [done|lia]. Qed.
Lemma hsize_set_hptr m a v b : hsize (set_hptr a v m) b = hsize m b.
Proof. unfold hsize, set_hptr. rewrite ld_insert, decide_False; [done|lia]. Qed.

Create Rewrite HintDb headers.
#[export] Hint Rewrite hptr_set_hptr hsize_set_hsize hptr_set_hsize hsize_set_hptr : headers.
(** Reads after writes, deciding which header is meant. *)
Ltac headers :=
  autorewrite with headers in *;
  repeat match goal with
  | |- context [decide (?x = ?x)] => rewrite (decide_True (P := x = x)) by reflexivity
  | |- context [decide (?x = ?y)] => rewrite (decide_False (P := x = y)) by (lia || congruence)
  end.

(** ** The circular list of free blocks *)

Definition nxt (first : Z) (B : list blk) : Z := match B with [] => first | (a, _) :: _ => a end.
Fixpoint ring (m : words) (first : Z) (B : list blk) : Prop :=
  match B with
  | [] => True
  | (a, s) :: B' => hptr m a = nxt first B' /\ hsize m a = s /\ ring m first B'
  end.

Lemma nxt_app f X Y : nxt f (X ++ Y) = nxt (nxt f Y) X.
Proof. by destruct X as [|[]]. Qed.
Lemma ring_app m f X Y : ring m f (X ++ Y) <-> ring m (nxt f Y) X /\ ring m f Y.
Proof.
  induction X as [|[a s] X IH]; cbn; [tauto|]. rewrite IH, nxt_app. tauto.
Qed.
Lemma ring_frame m m' f B :
  Forall (fun b => hptr m' b.1 = hptr m b.1 /\ hsize m' b.1 = hsize m b.1) B -> ring m f B -> ring m' f B.
Proof.
  induction B as [|[a s] B IH]; cbn; [done|]. rewrite list.Forall_cons. cbn. intros [[-> ->] H] (? & ? & ?). auto.
Qed.

Definition incr (x y : blk) : Prop := x.1 < y.1.
(** Neighbours in the list are apart and not adjacent. *)
Definition gap (x y : blk) : Prop := x.1 + x.2 < y.1.
Lemma sorted_mid (X Y : list blk) b :
  StronglySorted incr (X ++ b :: Y) -> Forall (fun c => c.1 < b.1) X /\ Forall (fun c => b.1 < c.1) Y /\
  StronglySorted incr X /\ StronglySorted incr (b :: Y).
Proof.
  induction X as [|x X IH]; cbn.
  - intros H. split_and!; [constructor| |constructor|done]. by inversion_clear H.
  - intros H. inversion_clear H as [|? ? S F]. destruct (IH S) as (?&?&?&?).
    apply list.Forall_app in F as [F1 F2]. apply list.Forall_cons in F2 as [F2 F3].
    split_and!; [constructor; done|done|constructor; done|done].
Qed.
Lemma sorted_split (B : list blk) bp : StronglySorted incr B -> (forall b, b ∈ B -> b.1 <> bp) ->
  exists X Y, B = X ++ Y /\ Forall (fun b => b.1 < bp) X /\ Forall (fun b => bp < b.1) Y.
Proof.
  induction 1 as [|b B S IH F]; intros H; [by exists [], []|].
  destruct (decide (b.1 < bp)) as [L|L].
  - destruct IH as (X & Y & -> & HX & HY); [intros; apply H; set_solver|].
    exists (b :: X), Y. split_and!; [done|by constructor|done].
  - assert (b.1 <> bp) by (apply H; set_solver). exists [], (b :: B). split_and!; [done|constructor|].
    constructor; [lia|]. eapply list.Forall_impl; [exact F|]. unfold incr. intros; lia.
Qed.

(** ** Finding where a block belongs *)
Section place.
Context (m : words) (bp : Z).

Definition stay (a a' : Z) : Prop := ~ (a < bp < a') /\ ~ (a' <= a /\ (a < bp \/ bp < a')).
Fixpoint stays (f : Z) (B : list blk) : Prop :=
  match B with [] => True | (a, _) :: B' => stay a (nxt f B') /\ stays f B' end.

Lemma free_pos_step k p : stay p (hptr m p) -> free_pos (S k) m bp p = free_pos k m bp (hptr m p).
Proof.
  intros [H1 H2]. cbn. destruct (_ && _) eqn:E1; [exfalso; apply H1; lia|].
  destruct (_ && _) eqn:E2 in |- *; [exfalso; apply H2; lia|done].
Qed.
Lemma free_pos_walk k f X : ring m f X -> stays f X ->
  free_pos (length X + k) m bp (nxt f X) = free_pos k m bp f.
Proof.
  revert f. induction X as [|[a s] X IH]; intros f; cbn [ring stays nxt length]; [done|].
  intros (E & _ & R) [S1 S2]. cbn [Nat.add]. rewrite free_pos_step; [|by rewrite E]. rewrite E. auto.
Qed.
Lemma stays_low f X : StronglySorted incr X -> Forall (fun b => b.1 < f) X -> f <= bp -> stays f X.
Proof.
  induction 1 as [|[a s] X S IH F]; intros H Hf; cbn; [done|]. apply list.Forall_cons in H as [H1 H2].
  split; [|auto]. destruct X as [|[b t] X]; cbn in *; unfold stay; [lia|].
  apply list.Forall_cons in F as [F _]. apply list.Forall_cons in H2 as [H2 _]. unfold incr in F. cbn in *. lia.
Qed.
Lemma stays_high f X : StronglySorted incr X -> Forall (fun b => bp < b.1) X -> f < bp -> stays f X.
Proof.
  induction 1 as [|[a s] X S IH F]; intros H Hf; cbn; [done|]. apply list.Forall_cons in H as [H1 H2].
  split; [|auto]. destruct X as [|[b t] X]; cbn in *; unfold stay; [lia|].
  apply list.Forall_cons in F as [F _]. unfold incr in F. cbn in *. lia.
Qed.

Lemma free_pos_stop k p f Y : p < bp -> hptr m p = nxt f Y -> f < bp -> f <= p -> Forall (fun b => bp < b.1) Y ->
  free_pos (S k) m bp p = Some p.
Proof.
  intros Hp E Hf Hfp HY. cbn. rewrite E. destruct Y as [|[y t] Y]; cbn.
  - rewrite (proj2 (Z.ltb_lt p bp)), (proj2 (Z.ltb_ge bp f)), (proj2 (Z.leb_le f p)) by lia. done.
  - apply list.Forall_cons in HY as [HY _]. cbn in HY.
    by rewrite (proj2 (Z.ltb_lt p bp)), (proj2 (Z.ltb_lt bp y)) by lia.
Qed.

(** From any block of the list the loop ends at the last block below [bp]. *)
Lemma free_pos_ok base B X p s Y q fuel :
  B = X ++ (p, s) :: Y -> ring m base B -> StronglySorted incr B -> nxt base B = base ->
  p < bp -> Forall (fun b => bp < b.1) Y -> q ∈ B.*1 -> base < bp -> (length B < fuel)%nat ->
  free_pos fuel m bp q = Some p.
Proof.
  intros EB R S Hh Hp HY Hq Hb Hfuel.
  assert (base <= p) as Hbp.
  { rewrite EB in S, Hh. destruct X as [|[x t] X]; cbn in Hh; [lia|]. subst x.
    apply sorted_mid in S as (F & _). apply list.Forall_cons in F as [F _]. cbn in F. lia. }
  assert (forall q X1 t X2 k, X ++ [(p, s)] = X1 ++ (q, t) :: X2 -> (length X2 < k)%nat ->
    free_pos k m bp q = Some p) as low.
  { clear q Hq. intros q X1 t X2 k E Hk. destruct X2 as [|z X3 _] using rev_ind.
    - apply app_inj_tail in E as [_ [= -> ->]]. destruct k; [cbn in Hk; lia|].
      apply (free_pos_stop _ _ base Y); try done. subst B. rewrite ring_app in R. apply R.
    - rewrite app_comm_cons, (assoc_L (++)) in E. apply app_inj_tail in E as [E <-].
      rewrite length_app in Hk. cbn in Hk.
      assert (ring m p ((q, t) :: X3)) as R1.
      { subst B X. rewrite ring_app in R. destruct R as [R _]. rewrite ring_app in R. apply R. }
      rewrite EB, E in S. apply sorted_mid in S as (F & _ & S & _). apply list.Forall_app in F as [_ F].
      assert (StronglySorted incr ((q, t) :: X3)) as S1 by (apply sorted_mid in S; tauto).
      replace k with (length ((q, t) :: X3) + Datatypes.S (k - 2 - length X3))%nat by (cbn; lia).
      etransitivity; [apply (free_pos_walk _ p ((q, t) :: X3)); [done|apply stays_low; [done..|lia]]|].
      apply (free_pos_stop _ _ base Y); try done. subst B. rewrite ring_app in R. apply R. }
  apply list_elem_of_fmap in Hq as ([q' t] & -> & Hq). cbn. rewrite EB in Hq.
  rewrite (cons_middle _ X Y), (assoc_L (++)) in Hq. apply elem_of_app in Hq as [Hq|Hq].
  - apply list_elem_of_split in Hq as (X1 & X2 & E). apply (low q' X1 t X2 fuel E).
    apply (f_equal length) in E. rewrite !length_app in E. cbn in E. rewrite EB, length_app in Hfuel. cbn in Hfuel. lia.
  - apply list_elem_of_split in Hq as (Y1 & Y2 & ->).
    assert (ring m base ((q', t) :: Y2) /\ StronglySorted incr ((q', t) :: Y2)) as [R1 S1].
    { subst B. rewrite ring_app in R. destruct R as [_ [_ [_ R]]]. rewrite ring_app in R.
      apply sorted_mid in S as (_ & _ & _ & S). change ((p, s) :: Y1 ++ (q', t) :: Y2) with (((p, s) :: Y1) ++ (q', t) :: Y2) in S.
      apply sorted_mid in S. tauto. }
    apply list.Forall_app in HY as [_ HY].
    assert (exists Z0, X ++ [(p, s)] = [] ++ (base, Z0) :: tail (X ++ [(p, s)])) as [z Hz].
    { rewrite EB in Hh. destruct X as [|[x u] X]; cbn in *; subst; eauto. }
    rewrite EB, length_app in Hfuel. cbn in Hfuel. rewrite length_app in Hfuel. cbn in Hfuel.
    replace fuel with (length ((q', t) :: Y2) + (fuel - Datatypes.S (length Y2)))%nat by (cbn; lia).
    etransitivity; [apply (free_pos_walk _ base ((q', t) :: Y2)); [done|by apply stays_high]|].
    apply (low base [] z _ _ Hz). apply (f_equal length) in Hz. rewrite length_app in Hz. cbn in Hz. lia.
Qed.
End place.

(** ** What the heap relies on *)

Definition agree_on (A : list blk) (m m' : words) : Prop :=
  Forall (fun b => forall w, 2 * b.1 <= w < 2 * (b.1 + b.2) -> m !! w = m' !! w) A.

(** [pool_ok m s A]: in state [s] with memory [m] the supplier still owns the
    blocks [A].  A request within the supported sizes is refused, or takes the
    block it returns out of [A]; the supplier looks only at its own memory. *)
Class CoreSpec (P : Type) `{!Core P} (base : Z) := {
  pool_ok : words -> P -> list blk -> Prop;
  maxunits : Z;
  min_units : 1 <= minunits <= maxunits;
  max_units : maxunits < 2 ^ 29;
  pool_frame m m' s A : pool_ok m s A -> agree_on A m m' -> pool_ok m' s A;
  core_ok m s A n : pool_ok m s A -> good base A -> minunits <= n <= maxunits ->
    let '(p, s') := core n m s in
    (p = 0 /\ pool_ok m s' A) \/
    (exists A', p <> 0 /\ pool_ok m s' A' /\ recut base A ((p, n) :: A'));
}.

Section heap_ok.
Context {P : Type} `{!Core P} (base : Z) `{!CoreSpec P base} (Hbase : 0 < base < 2 ^ 29).

(** A heap with free blocks [F], live blocks [L], and [A] with the supplier. *)
Record hinv (h : heap P) (F L A : list blk) : Prop := {
  hi_ring : ring (mem_of h) base ((base, 0) :: F);
  hi_sorted : StronglySorted gap ((base, 0) :: F);
  hi_freep : freep h ∈ base :: F.*1;
  hi_live : Forall (fun b => hsize (mem_of h) b.1 = b.2) L;
  hi_pool : pool_ok (mem_of h) (pool h) A;
  hi_good : good base (F ++ L ++ A);
}.

Lemma gap_incr B : StronglySorted gap B -> Forall (fun b => 0 <= b.2) B -> StronglySorted incr B.
Proof.
  induction 1 as [|b B S IH F]; intros H; constructor; apply list.Forall_cons in H as [H1 H2]; [auto|].
  eapply list.Forall_impl; [exact F|]. unfold gap, incr. intros; lia.
Qed.
Lemma gap_app X C : StronglySorted gap X -> StronglySorted gap C ->
  Forall (fun x => Forall (gap x) C) X -> StronglySorted gap (X ++ C).
Proof.
  induction 1 as [|x X S IH F]; intros HC H; cbn; [done|]. apply list.Forall_cons in H as [H1 H2].
  constructor; [auto|]. by apply list.Forall_app.
Qed.
Lemma gap_cons b c C : StronglySorted gap (c :: C) -> gap b c -> 0 <= c.2 -> StronglySorted gap (b :: c :: C).
Proof.
  intros S G H. constructor; [done|]. constructor; [done|]. apply StronglySorted_inv in S as [_ F].
  eapply list.Forall_impl; [exact F|]. unfold gap in *. intros; lia.
Qed.

Lemma ring_size m f B : ring m f B -> Forall (fun b => 1 <= b.2) B -> StronglySorted incr B ->
  (length B <= size m)%nat.
Proof.
  intros R Hs S.
  assert (NoDup ((fun b : blk => 2 * b.1 + 1) <$> B)) as ND.
  { clear R Hs. induction S as [|b B S IH F]; cbn; constructor; [|done].
    rewrite list_elem_of_fmap. intros (c & E & Hc). rewrite list.Forall_forall in F. specialize (F c Hc). unfold incr in F. lia. }
  rewrite <- (length_fmap (fun b : blk => 2 * b.1 + 1)), <- (size_list_to_set (C := gset Z)) by done.
  rewrite <- size_dom. apply subseteq_size. intros w. rewrite elem_of_list_to_set, list_elem_of_fmap.
  intros (b & -> & Hb). apply elem_of_dom. clear ND S. induction B as [|[a s] B IH]; [set_solver|].
  cbn in R. destruct R as (_ & E & R). apply list.Forall_cons in Hs as [Hs1 Hs2].
  apply elem_of_cons in Hb as [->|Hb]; [|by apply IH].
  unfold hsize, ld in E. cbn in *. destruct (m !! (2 * a + 1)); [eauto|cbn in E; lia].
Qed.

Lemma uadd_eqb a n y : 0 <= a -> 0 <= n -> a + n <= 2 ^ 29 -> 0 < y < 2 ^ 29 -> (uadd a n =? y) = (a + n =? y).
Proof.
  intros. unfold uadd. destruct (decide (a + n = 2 ^ 29)) as [E|].
  - rewrite E, Z.mod_same by done. rewrite !(proj2 (Z.eqb_neq _ _)); lia.
  - by rewrite Z.mod_small by lia.
Qed.

(** The two halves of [kmfree]: join with the block above, then with the one below. *)
Definition join_up (m : words) (bp p : Z) : words :=
  if uadd bp (hsize m bp) =? hptr m p then
    let m' := set_hsize bp (u32 (hsize m bp + hsize m (hptr m p))) m in
    set_hptr bp (hptr m' (hptr m' p)) m'
  else set_hptr bp (hptr m p) m.
Definition join_down (m : words) (bp p : Z) : words :=
  if uadd p (hsize m p) =? bp then
    let m' := set_hsize p (u32 (hsize m p + hsize m bp)) m in set_hptr p (hptr m' bp) m'
  else set_hptr p bp m.

Lemma join_up_ok m bp p s n Y : ring m base ((p, s) :: Y) -> hsize m bp = n -> base <= p < bp ->
  Forall (fun b => bp < b.1) Y -> StronglySorted gap Y -> good base ((bp, n) :: Y) ->
  exists n' Y', let m' := join_up m bp p in
    ring m' base ((bp, n') :: Y') /\ StronglySorted gap ((bp, n') :: Y') /\
    recut base ((bp, n) :: Y) ((bp, n') :: Y') /\
    (n <= n' /\ (length Y' <= length Y)%nat) /\
    (forall b, b <> bp -> hptr m' b = hptr m b /\ hsize m' b = hsize m b).
Proof.
  intros (Ep & _ & R) En Hp HY SY HG. cbn zeta. unfold join_up. rewrite En, Ep.
  apply good_cons in HG as ([Hf1 [Hf2 Hf3]] & Hs & HG). cbn in Hf1, Hf2, Hf3.
  assert (forall v, ring (set_hptr bp v m) base Y) as RY.
  { intros v. eapply ring_frame, R. eapply list.Forall_impl; [exact HY|]. cbn. intros b Hb. headers. done. }
  destruct Y as [|[y t] Y]; cbn [nxt] in *.
  - rewrite uadd_eqb, (proj2 (Z.eqb_neq (bp + n) base)) by lia. exists n, []. refine (conj _ (conj _ (conj _ (conj _ _)))).
    + cbn. by headers.
    + repeat constructor.
    + done.
    + split; [lia|cbn; lia].
    + intros b Hb. by headers.
  - apply list.Forall_cons in HY as [HY HY']. apply list.Forall_cons in Hs as [Hs Hs'].
    apply good_cons in HG as ([Hg1 [Hg2 Hg3]] & Hg & HG). unfold sep in Hs. cbn in *.
    destruct R as (Ry & Rt & R). rewrite uadd_eqb by lia. destruct (Z.eqb_spec (bp + n) y) as [E|E].
    + exists (n + t), Y. headers. rewrite Ep, Rt. cbn [nxt]. headers. rewrite u32_small by lia. refine (conj _ (conj _ (conj _ (conj _ _)))).
      * cbn. headers. rewrite Ry. split_and!; [done|done|]. eapply ring_frame, R.
        eapply list.Forall_impl; [exact HY'|]. cbn. intros b Hb. by headers.
      * apply StronglySorted_inv in SY as [SY F]. constructor; [done|].
        eapply list.Forall_impl; [exact F|]. unfold gap. cbn. intros; lia.
      * rewrite <- E. apply (recut_app base [_; _] [_] Y), recut_merge; lia.
      * split; [lia|cbn; lia].
      * intros b Hb. by headers.
    + exists n, ((y, t) :: Y). refine (conj _ (conj _ (conj _ (conj _ _)))).
      * cbn. headers. split_and!; try done. apply RY.
      * apply gap_cons; [done| |cbn; lia]. unfold gap. cbn. lia.
      * done.
      * split; [lia|cbn; lia].
      * intros b Hb. by headers.
Qed.

Lemma join_down_ok m bp p s n Y : ring m base ((bp, n) :: Y) -> hsize m p = s -> base <= p -> p < bp -> p + s <= bp ->
  (p = base /\ s = 0 \/ fits base (p, s)) -> StronglySorted gap ((bp, n) :: Y) -> Forall (fits base) ((bp, n) :: Y) ->
  exists C, let m' := join_down m bp p in
    ring m' base C /\ nxt base C = p /\ StronglySorted gap C /\ Forall (fun c => p <= c.1) C /\
    (forall b, b <> p -> hptr m' b = hptr m b /\ hsize m' b = hsize m b) /\
    (Exists (fun b => n <= b.2) C /\ (length C <= 2 + length Y)%nat) /\
    (p = base -> C = (base, 0) :: (bp, n) :: Y) /\
    (p <> base -> recut base ((p, s) :: (bp, n) :: Y) C).
Proof.
  intros (Eb & En & R) Es Hp Hpb Hs Hps S Hfit. cbn zeta. unfold join_down. rewrite Es.
  apply list.Forall_cons in Hfit as [[Hf1 [Hf2 Hf3]] Hfit]. cbn in Hf1, Hf2, Hf3.
  assert (0 <= s) as Hs0 by (unfold fits in Hps; cbn in Hps; lia).
  apply StronglySorted_inv in S as HS. destruct HS as [SY HY].
  assert (Forall (fun b => bp < b.1) Y) as HYb.
  { eapply list.Forall_impl; [exact HY|]. unfold gap. cbn. intros; lia. }
  rewrite uadd_eqb by lia. destruct (Z.eqb_spec (p + s) bp) as [E|E].
  - exists ((p, s + n) :: Y). headers. rewrite Eb, En.
    assert (p <> base) by (destruct Hps as [[-> ->]|Hps]; [lia|unfold fits in Hps; cbn in Hps; lia]).
    rewrite u32_small by lia. refine (conj _ (conj _ (conj _ (conj _ (conj _ (conj _ (conj _ _))))))).
    + cbn. headers. split_and!; [done|done|]. eapply ring_frame, R. eapply list.Forall_impl; [exact HYb|]. cbn. intros b Hb. by headers.
    + done.
    + constructor; [done|]. eapply list.Forall_impl; [exact HY|]. unfold gap. cbn. intros; lia.
    + constructor; [cbn; lia|]. eapply list.Forall_impl; [exact HYb|]. cbn. intros; lia.
    + intros b Hb. by headers.
    + split; [left; cbn; lia|cbn; lia].
    + done.
    + intros _. rewrite <- E. apply (recut_app base [_; _] [_] Y), recut_merge; lia.
  - exists ((p, s) :: (bp, n) :: Y). refine (conj _ (conj _ (conj _ (conj _ (conj _ (conj _ (conj _ _))))))).
    + cbn. headers. split_and!; try done. eapply ring_frame, R. eapply list.Forall_impl; [exact HYb|]. cbn. intros b Hb. by headers.
    + done.
    + apply gap_cons; [done| |cbn; lia]. unfold gap. cbn. lia.
    + constructor; [cbn; lia|]. constructor; [cbn; lia|]. eapply list.Forall_impl; [exact HYb|]. cbn. intros; lia.
    + intros b Hb. by headers.
    + split; [right; left; cbn; lia|cbn; lia].
    + intros Hb. destruct Hps as [[-> ->]|Hps]; [done|unfold fits in Hps; cbn in Hps; lia].
    + done.
Qed.

Lemma join_up_lookup m bp p w : w / 2 <> bp -> join_up m bp p !! w = m !! w.
Proof.
  intros H. unfold join_up, set_hptr, set_hsize.
  destruct (_ =? _); cbn zeta; rewrite !lookup_insert_ne; try done; dlia.
Qed.
Lemma join_down_lookup m bp p w : w / 2 <> p -> join_down m bp p !! w = m !! w.
Proof.
  intros H. unfold join_down, set_hptr, set_hsize.
  destruct (_ =? _); cbn zeta; rewrite !lookup_insert_ne; try done; dlia.
Qed.
Lemma agree_on_outside A m m' (H : list Z) :
  (forall w, w / 2 ∉ H -> m' !! w = m !! w) -> Forall (fun b => forall u, u ∈ H -> ~ b.1 <= u < b.1 + b.2) A ->
  agree_on A m m'.
Proof.
  intros E F. eapply list.Forall_impl; [exact F|]. cbn. intros b Hb w Hw. symmetry. apply E.
  intros Hin. apply (Hb _ Hin). dlia.
Qed.

(** Headers outside a good set of blocks are not inside them. *)
Lemma good_outside bp n K : good base ((bp, n) :: K) -> Forall (fun b => ~ b.1 <= bp < b.1 + b.2) K.
Proof.
  rewrite good_cons. intros ([_ [Hn _]] & S & _ & _). eapply list.Forall_impl; [exact S|].
  unfold sep. cbn in *. intros; lia.
Qed.
Lemma base_outside K : Forall (fits base) K -> Forall (fun b => ~ b.1 <= base < b.1 + b.2) K.
Proof. intros H. eapply list.Forall_impl; [exact H|]. unfold fits. intros; lia. Qed.
Lemma node_outside p s F K : good base (F ++ K) -> (p, s) ∈ (base, 0) :: F ->
  Forall (fun b => ~ b.1 <= p < b.1 + b.2) K.
Proof.
  intros G H. apply elem_of_cons in H as [[= -> ->]|H].
  - apply base_outside. by apply good_app_r in G as [_ G].
  - apply elem_of_Permutation in H as [F' E]. rewrite E in G.
    apply good_outside in G. by apply list.Forall_app in G as [_ G].
Qed.

Lemma kmfree_place h F bp n L A : hinv h F ((bp, n) :: L) A ->
  exists X p s Y, (base, 0) :: F = X ++ (p, s) :: Y /\ base <= p /\ p < bp /\ p + s <= bp /\
    Forall (fun b => bp < b.1) Y /\ free_pos (S (S (size (mem_of h)))) (mem_of h) bp (freep h) = Some p /\
    (X = [] /\ p = base /\ s = 0 /\ F = Y \/ exists X1, X = (base, 0) :: X1 /\ F = X1 ++ (p, s) :: Y /\ fits base (p, s) /\ base < p).
Proof.
  intros [R S Hq HL HA HG].
  assert (good base ((bp, n) :: F)) as HG1.
  { eapply good_app_r. rewrite (Permutation_app_comm _ ((bp, n) :: F)). instantiate (1 := L ++ A).
    by rewrite <- app_comm_cons, (Permutation_middle F). }
  pose proof (good_outside _ _ _ HG1) as Hout. apply good_cons in HG1 as (Hfit & Hsep & _ & HF).
  destruct Hfit as (Hb1 & Hb2 & Hb3). cbn in Hb1, Hb2, Hb3.
  assert (StronglySorted incr ((base, 0) :: F)) as SI.
  { apply gap_incr; [done|]. constructor; [done|]. eapply list.Forall_impl; [exact HF|]. unfold fits. intros; lia. }
  destruct (sorted_split ((base, 0) :: F) bp SI) as (X0 & Y & EB & HX & HY).
  { intros b Hb. apply elem_of_cons in Hb as [->|Hb]; [cbn; lia|].
    rewrite list.Forall_forall in Hout, HF. specialize (Hout b Hb). specialize (HF b Hb). unfold fits in HF. lia. }
  destruct X0 as [|[p s] X _] using rev_ind.
  { destruct Y as [|y Y]; [done|]. injection EB as <- <-. apply list.Forall_cons in HY as [HY _]. cbn in HY. lia. }
  rewrite <- (assoc_L (++)) in EB. cbn in EB. apply list.Forall_app in HX as [_ HX].
  apply list.Forall_cons in HX as [HX _]. cbn in HX. exists X, p, s, Y.
  assert (X = [] /\ p = base /\ s = 0 /\ F = Y \/ exists X1, X = (base, 0) :: X1 /\ F = X1 ++ (p, s) :: Y /\ fits base (p, s) /\ base < p) as HX2.
  { destruct X as [|x X1]; cbn in EB; injection EB as E1 E2; [left; by subst|right]. subst.
    apply list.Forall_app in HF as [_ HF]. apply list.Forall_cons in HF as [HF _].
    exists X1. split_and!; try done; unfold fits in HF; cbn in HF; lia. }
  split_and!; try done.
  - destruct HX2 as [(-> & -> & _)|(X1 & _ & _ & _ & ?)]; lia.
  - destruct HX2 as [(-> & -> & -> & _)|(X1 & _ & -> & [Hf1 Hf2] & ?)]; [lia|].
    apply list.Forall_app in Hsep as [_ Hsep]. apply list.Forall_cons in Hsep as [Hsep _].
    unfold sep in Hsep. cbn in *. lia.
  - apply (free_pos_ok _ _ base _ X p s Y _ _ EB); try done. cbn [length]. destruct R as (_ & _ & R).
    assert (length F <= size (mem_of h))%nat; [|lia]. eapply ring_size; [exact R| |by apply StronglySorted_inv in SI as [? _]].
    eapply list.Forall_impl; [exact HF|]. unfold fits. intros; lia.
Qed.

Lemma kmfree_eq ap (h : heap P) p : free_pos (S (S (size (mem_of h)))) (mem_of h) (ap - 1) (freep h) = Some p ->
  kmfree ap h = Some (Heap (join_down (join_up (mem_of h) (ap - 1) p) (ap - 1) p) p (pool h)).
Proof. intros E. unfold kmfree. by rewrite E. Qed.

(** Freeing a live block: the list stays sorted and coalesced, and holds the
    block's memory and nothing else more. *)
Lemma kmfree_ok h F bp n L A : hinv h F ((bp, n) :: L) A ->
  exists h' F', kmfree (bp + 1) h = Some h' /\ hinv h' F' L A /\ recut base ((bp, n) :: F) F' /\ pool h' = pool h /\
    Exists (fun b => n <= b.2) F' /\ (length F' <= S (length F))%nat.
Proof.
  intros Hh. destruct (kmfree_place h F bp n L A Hh) as (X & p & s & Y & EB & Hp & Hpb & Hps & HY & E & HX).
  destruct Hh as [R S Hq HL HA HG].
  apply list.Forall_cons in HL as [Hbn HL]. cbn in Hbn. replace bp with (bp + 1 - 1) in E at 1 by lia.
  rewrite (kmfree_eq _ _ p E). replace (bp + 1 - 1) with bp by lia. clear E.
  rewrite EB in R, S. rewrite ring_app in R. destruct R as [RX RY]. cbn [nxt] in RX.
  assert (F ++ (bp, n) :: L ++ A ≡ₚ (((bp, n) :: F) ++ L ++ A)) as EP by by rewrite <- Permutation_middle.
  cbn in HG. rewrite EP in HG.
  assert (exists F0, F = F0 ++ Y) as [F0 EF].
  { destruct HX as [(_ & _ & _ & ->)|(X1 & _ & -> & _)]; [by exists []|]. exists (X1 ++ [(p, s)]). by rewrite <- (assoc_L (++)). }
  assert (StronglySorted gap X /\ StronglySorted gap Y /\ Forall (fun x => gap x (p, s)) X) as (SX & SY & GX).
  { clear - S. induction X as [|x X IH]; cbn in S; apply StronglySorted_inv in S as [S F]; [by split_and!; [constructor| |constructor]|].
    destruct (IH S) as (?&?&?). apply list.Forall_app in F as [F1 F2]. apply list.Forall_cons in F2 as [F2 _].
    split_and!; [by constructor|done|by constructor]. }
  destruct (join_up_ok (mem_of h) bp p s n Y) as (n' & Y' & R1 & S1 & C1 & [Hnn Hlen1] & FR1); try done; try lia.
  { apply (good_app_r base F0). rewrite (Permutation_app_comm F0). cbn. rewrite (Permutation_app_comm Y), <- EF.
    rewrite Permutation_app_comm in HG. by apply good_app_r in HG. }
  set (m1 := join_up (mem_of h) bp p) in *.
  assert (good base (((bp, n') :: Y') ++ F0)) as HG1.
  { apply (proj1 C1 F0). rewrite Permutation_app_comm in HG. apply good_app_r in HG. rewrite EF in HG.
    by rewrite <- app_comm_cons, (Permutation_app_comm Y). }
  assert (Forall (fits base) ((bp, n') :: Y')) as Hfit by by apply proj2, list.Forall_app in HG1 as [? _].
  assert (p = base /\ s = 0 \/ fits base (p, s)) as Hpfit.
  { destruct HX as [(_ & ? & ? & _)|(X1 & _ & _ & ? & _)]; auto. }
  destruct (join_down_ok m1 bp p s n' Y') as (C & R2 & Hn & S2 & HC & FR2 & [HE Hlen2] & Cb & Cn); try done.
  { rewrite (proj2 (FR1 p ltac:(lia))). apply RY. }
  set (m2 := join_down m1 bp p) in *.
  assert (Forall (fun x => x.1 < p) X) as HXp.
  { destruct HX as [(-> & _)|(X1 & -> & -> & _ & ?)]; [constructor|]. constructor; [cbn; lia|].
    apply list.Forall_cons in GX as [_ GX]. rewrite list.Forall_forall in GX. apply list.Forall_forall. intros x Hx.
    specialize (GX x Hx). destruct HG as [_ HG]. apply list.Forall_app in HG as [HG _].
    apply list.Forall_cons in HG as [_ HG]. apply list.Forall_app in HG as [HG _]. rewrite list.Forall_forall in HG.
    specialize (HG x Hx). unfold fits, gap in *. cbn in *. lia. }
  assert (ring m2 base (X ++ C)) as R3.
  { apply ring_app. rewrite Hn. split; [|done]. eapply ring_frame, RX. eapply list.Forall_impl; [exact HXp|].
    cbn. intros x Hx. destruct (FR2 x.1) as [-> ->]; [lia|]. apply FR1. lia. }
  assert (StronglySorted gap (X ++ C)) as S3.
  { apply gap_app; [done..|]. eapply list.Forall_impl; [exact GX|]. intros x Hx.
    eapply list.Forall_impl; [exact HC|]. unfold gap in *. cbn in *. intros; lia. }
  assert (exists F', X ++ C = (base, 0) :: F' /\ p ∈ base :: F'.*1 /\ recut base ((bp, n) :: F) F') as (F' & EF' & Hp' & HR).
  { destruct HX as [(-> & -> & -> & ->)|(X1 & -> & -> & _ & Hbp)].
    - exists ((bp, n') :: Y'). split_and!; [by apply Cb|constructor|done].
    - exists (X1 ++ C). split_and!; [done| |].
      + destruct C as [|[c t] C]; [cbn in Hn; lia|]. cbn in Hn. subst c. rewrite fmap_app. do 2 (apply elem_of_app || right); right; constructor.
      + transitivity (((bp, n') :: Y') ++ (p, s) :: X1).
        * assert ((bp, n) :: X1 ++ (p, s) :: Y ≡ₚ ((bp, n) :: Y) ++ (p, s) :: X1) as -> by solve_Permutation.
          by apply recut_app.
        * rewrite (Permutation_app_comm X1). assert (((bp, n') :: Y') ++ (p, s) :: X1 ≡ₚ ((p, s) :: (bp, n') :: Y') ++ X1) as ->.
          { by rewrite <- Permutation_middle. }
          apply recut_app, Cn. lia. }
  assert (Exists (fun b => n <= b.2) F' /\ (length F' <= Datatypes.S (length F))%nat) as [HE' Hlen'].
  { split.
    - assert (Exists (fun b : blk => n <= b.2) (X ++ C)) as HE2.
      { apply Exists_app. right. apply list.Exists_exists in HE as (b & ? & ?). apply list.Exists_exists. exists b. split; [done|lia]. }
      rewrite EF' in HE2. apply Exists_cons in HE2 as [HE2|HE2]; [|done]. exfalso.
      destruct HG as [_ HG]. apply list.Forall_app in HG as [HG _]. apply list.Forall_cons in HG as [[_ [HG _]] _]. cbn in *. lia.
    - apply (f_equal length) in EF', EB. rewrite length_app in EF', EB. cbn in *. lia. }
  exists (Heap m2 p (pool h)), F'. split; [done|]. split; [|done].
  assert (Forall (fun b => ~ b.1 <= bp < b.1 + b.2) (L ++ A)) as O1.
  { apply good_outside in HG. by apply list.Forall_app in HG as [_ HG]. }
  assert (Forall (fun b => ~ b.1 <= p < b.1 + b.2) (L ++ A)) as O2.
  { apply (node_outside p s F).
    - by apply (good_app_r base [(bp, n)]).
    - rewrite EB. apply elem_of_app. right. constructor. }
  assert (Forall (fun b => 1 <= b.2) L) as HL1.
  { destruct HG as [_ HG]. rewrite !list.Forall_app in HG. destruct HG as (_ & HG & _).
    eapply list.Forall_impl; [exact HG|]. unfold fits. intros; lia. }
  rewrite list.Forall_app in O1, O2. split; cbn [mem_of freep pool].
  - by rewrite <- EF'.
  - by rewrite <- EF'.
  - done.
  - destruct O1 as [O1 _], O2 as [O2 _]. rewrite list.Forall_forall in HL, HL1, O1, O2.
    apply list.Forall_forall. intros b Hb. specialize (HL b Hb). specialize (HL1 b Hb). specialize (O1 b Hb). specialize (O2 b Hb).
    rewrite (proj2 (FR2 b.1 ltac:(lia))), (proj2 (FR1 b.1 ltac:(lia))). done.
  - eapply pool_frame; [exact HA|]. apply (agree_on_outside _ _ _ [bp; p]).
    + intros w [H1 [H2 _]%not_elem_of_cons]%not_elem_of_cons. unfold m2, m1. by rewrite join_down_lookup, join_up_lookup.
    + destruct O1 as [_ O1], O2 as [_ O2]. rewrite list.Forall_forall in *. intros b Hb u Hu.
      apply elem_of_cons in Hu as [->|Hu]; [by apply O1|]. apply list_elem_of_singleton in Hu as ->. by apply O2.
  - by apply (proj1 HR).
Qed.

(** ** Allocation *)

Fixpoint last_of (prev : Z) (X : list blk) : Z := match X with [] => prev | (a, _) :: X => last_of a X end.
Lemma last_of_snoc prev X a s : last_of prev (X ++ [(a, s)]) = a.
Proof. revert prev. induction X as [|[x t] X IH]; intros prev; cbn; [done|apply IH]. Qed.

Lemma kmalloc_walk (h : heap P) n k f X prev : ring (mem_of h) f X ->
  Forall (fun b => b.2 < n /\ b.1 <> freep h) X ->
  kmalloc_loop (length X + k) n prev (nxt f X) h = kmalloc_loop k n (last_of prev X) f h.
Proof.
  revert prev. induction X as [|[a s] X IH]; intros prev R H; [done|].
  destruct R as (E & Es & R). apply list.Forall_cons in H as [[H1 H2] H]. cbn in H1, H2.
  cbn [length Nat.add nxt kmalloc_loop]. rewrite Es, (proj2 (Z.leb_gt n s)), (proj2 (Z.eqb_neq a (freep h))), E by lia.
  by rewrite IH.
Qed.

Lemma first_fit n (l : list blk) :
  (exists S b T, l = S ++ b :: T /\ Forall (fun b => b.2 < n) S /\ n <= b.2) \/ Forall (fun b => b.2 < n) l.
Proof.
  induction l as [|b l IH]; [by right|]. destruct (decide (n <= b.2)) as [H|H].
  - left. by exists [], b, l.
  - destruct IH as [(S & c & T & -> & HS & Hc)|IH].
    + left. exists (b :: S), c, T. split_and!; [done| |done]. constructor; [lia|done].
    + right. constructor; [lia|done].
Qed.

Lemma incr_ne X b Y : StronglySorted incr (X ++ b :: Y) -> Forall (fun c => c.1 <> b.1) (X ++ Y).
Proof.
  intros S. apply sorted_mid in S as (H1 & H2 & _). apply list.Forall_app.
  split; (eapply list.Forall_impl; [eassumption|]; cbn; intros; lia).
Qed.
Lemma hinv_incr h F L A : hinv h F L A -> StronglySorted incr ((base, 0) :: F).
Proof.
  intros [_ S _ _ _ G]. apply gap_incr; [done|]. constructor; [cbn; lia|].
  destruct G as [_ G]. apply list.Forall_app in G as [G _]. eapply list.Forall_impl; [exact G|]. unfold fits. intros; lia.
Qed.

(** Where the scan from [freep] stops: at a block that is large enough, with
    [prev] the block before it, or at [freep] when there is none. *)
Lemma kmalloc_scan h F L A n : hinv h F L A -> 1 <= n ->
  (exists j X z t a s Y, (base, 0) :: F = X ++ (z, t) :: (a, s) :: Y /\ n <= s /\ (j <= length F)%nat /\
     forall k, kmalloc_loop (j + k) n (freep h) (hptr (mem_of h) (freep h)) h = kmalloc_loop k n z a h) \/
  (Forall (fun b => b.2 < n) F /\
   exists prev s, hsize (mem_of h) (freep h) = s /\ s < n /\
   forall k, kmalloc_loop (length F + k) n (freep h) (hptr (mem_of h) (freep h)) h = kmalloc_loop k n prev (freep h) h).
Proof.
  intros Hh Hn. pose proof (hinv_incr _ _ _ _ Hh) as SI. destruct Hh as [R _ Hq _ _ _].
  assert (exists s, (freep h, s) ∈ (base, 0) :: F) as [s Hs].
  { change (base :: F.*1) with (((base, 0) :: F).*1) in Hq. apply list_elem_of_fmap in Hq as ([q s] & -> & Hq). eauto. }
  apply list_elem_of_split in Hs as (L1 & L2 & E). pose proof SI as SI'. rewrite E in SI'. apply incr_ne in SI'.
  apply list.Forall_app in SI' as [N1 N2]. cbn in N1, N2. pose proof R as R'. rewrite E, ring_app in R'.
  destruct R' as (R1 & Eq & Es & R2). cbn [nxt] in R1.
  assert (length F = length L1 + length L2)%nat as EL.
  { apply (f_equal length) in E. rewrite length_app in E. cbn in E. lia. }
  destruct (first_fit n L2) as [(S & [a t] & T & -> & HS & Ha)|H2].
  { left. apply list.Forall_app in N2 as [N2 _]. rewrite ring_app in R2. destruct R2 as [R2 _]. cbn [nxt] in R2.
    exists (length S). destruct S as [|[z u] S _] using rev_ind.
    - exists L1, (freep h), s, a, t, T. split_and!; [done|done|cbn; lia|]. intros k. cbn. rewrite Eq. done.
    - exists (L1 ++ (freep h, s) :: S), z, u, a, t, T. split_and!; [|done| |].
      + rewrite E, <- !(assoc_L (++)). cbn. by rewrite <- ?(assoc_L (++)).
      + rewrite EL, !length_app. cbn. lia.
      + intros k. rewrite Eq, nxt_app. cbn [nxt]. rewrite kmalloc_walk; [|done|].
        * by rewrite last_of_snoc.
        * apply list.Forall_and. done. }
  assert (exists t, L1 ++ [(freep h, s)] = (base, 0) :: t) as [B' HB'].
  { destruct L1 as [|x L1]; cbn in *; [injection E as -> -> _|injection E as <- _]; eauto. }
  destruct (first_fit n (L1 ++ [(freep h, s)])) as [(S & [a t] & T & E1 & HS & Ha)|H1].
  { left. destruct S as [|[z u] S _] using rev_ind.
    { rewrite HB' in E1. injection E1 as <- <- _. cbn in Ha. lia. }
    assert (Forall (fun c => c.1 <> freep h) (S ++ [(z, u)]) /\ ring (mem_of h) a (S ++ [(z, u)]) /\ (length S < length L1)%nat) as (N3 & R3 & HL).
    { destruct T as [|[y v] T _] using rev_ind.
      - apply app_inj_tail in E1 as [-> [= <- <-]]. split_and!; [done|done|rewrite length_app; cbn; lia].
      - rewrite app_comm_cons, (assoc_L (++)) in E1. apply app_inj_tail in E1 as [-> [= <- <-]].
        apply list.Forall_app in N1 as [N1 _]. rewrite ring_app in R1. destruct R1 as [R1 _].
        split_and!; [done|done|rewrite !length_app; cbn; lia]. }
    exists (length L2 + length (S ++ [(z, u)]))%nat, S, z, u, a, t, (T ++ L2). split_and!.
    - rewrite E, (cons_middle _ L1 L2), (assoc_L (++)), E1, <- !(assoc_L (++)). done.
    - done.
    - rewrite length_app. cbn. lia.
    - intros k. rewrite Eq, <- Nat.add_assoc, kmalloc_walk; [|done|by apply list.Forall_and].
      assert (base = nxt a (S ++ [(z, u)])) as Hbs.
      { rewrite HB' in E1. apply (f_equal (nxt 0)) in E1. cbn in E1. rewrite nxt_app in E1. exact E1. }
      rewrite Hbs at 1. rewrite kmalloc_walk; [|done|by apply list.Forall_and].
      by rewrite last_of_snoc. }
  right. apply list.Forall_app in H1 as [H1 Hqs]. apply list.Forall_cons in Hqs as [Hqs _]. cbn in Hqs. split.
  - assert (Forall (fun b : blk => b.2 < n) ((base, 0) :: F)) as HF.
    { rewrite E. apply list.Forall_app. split; [done|]. constructor; [done|done]. }
    by apply list.Forall_cons in HF as [_ HF].
  - exists (last_of (last_of (freep h) L2) L1), s. split_and!; [done|done|].
    intros k. rewrite EL, (Nat.add_comm (length L1)), <- Nat.add_assoc, Eq, kmalloc_walk; [|done|by apply list.Forall_and].
    assert (base = nxt (freep h) L1) as Hbs.
    { apply (f_equal (nxt 0)) in HB'. cbn in HB'. by rewrite nxt_app in HB'. }
    rewrite Hbs at 1. rewrite kmalloc_walk; [done|done|by apply list.Forall_and].
Qed.

(** Taking a block, whole or from its upper end. *)
Lemma kmalloc_take_parts h F L A X z t a s Y : hinv h F L A -> (base, 0) :: F = X ++ (z, t) :: (a, s) :: Y ->
  exists F0, (base, 0) :: F0 = X ++ [(z, t)] /\ F = F0 ++ (a, s) :: Y /\ fits base (a, s) /\
    Forall (fun c : blk => c.1 <> z) (X ++ Y) /\ Forall (fun c : blk => c.1 <> a) (X ++ (z, t) :: Y) /\
    StronglySorted gap (X ++ [(z, t)]) /\ StronglySorted gap ((a, s) :: Y) /\
    Forall (fun x => gap x (a, s) /\ Forall (gap x) Y) (X ++ [(z, t)]).
Proof.
  intros Hh E. pose proof (hinv_incr _ _ _ _ Hh) as SI. destruct Hh as [_ S _ _ _ HG]. rewrite E in S, SI.
  assert (exists F0, (base, 0) :: F0 = X ++ [(z, t)] /\ F = F0 ++ (a, s) :: Y) as (F0 & E0 & ->).
  { destruct X as [|x X]; cbn in E; injection E as E1 E2; subst; [by exists []|].
    exists (X ++ [(z, t)]). split; [done|]. by rewrite <- (assoc_L (++)). }
  exists F0. split_and!; [done|done| | | | | |].
  - apply proj2, list.Forall_app in HG as [HG _]. apply list.Forall_app in HG as [_ HG]. by apply list.Forall_cons in HG as [HG _].
  - apply incr_ne in SI. apply list.Forall_app in SI as [? SI]. apply list.Forall_cons in SI as [_ SI]. by apply list.Forall_app.
  - change (X ++ (z, t) :: (a, s) :: Y) with (X ++ [(z, t)] ++ (a, s) :: Y) in SI. rewrite (assoc_L (++)) in SI.
    apply incr_ne in SI. by rewrite <- (assoc_L (++)) in SI.
  - change (X ++ (z, t) :: (a, s) :: Y) with (X ++ [(z, t)] ++ (a, s) :: Y) in S. rewrite (assoc_L (++)) in S.
    clear - S. induction (X ++ [(z, t)]) as [|x l IH]; constructor; apply StronglySorted_inv in S as [S F]; [auto|].
    by apply list.Forall_app in F as [F _].
  - clear - S. induction X as [|x X IH]; apply StronglySorted_inv in S as [S _]; auto.
  - change (X ++ (z, t) :: (a, s) :: Y) with (X ++ [(z, t)] ++ (a, s) :: Y) in S. rewrite (assoc_L (++)) in S.
    clear - S. induction (X ++ [(z, t)]) as [|x l IH]; constructor; apply StronglySorted_inv in S as [S F]; [|auto].
    apply list.Forall_app in F as [_ F]. by apply list.Forall_cons in F.
Qed.

Lemma kmalloc_take_whole h F L A n k X z t a Y : hinv h F L A -> 1 <= n ->
  (base, 0) :: F = X ++ (z, t) :: (a, n) :: Y ->
  exists h' F', kmalloc_loop (S k) n z a h = Some (a + 1, h') /\ hinv h' F' ((a, n) :: L) A /\
    recut base F ((a, n) :: F') /\ pool h' = pool h.
Proof.
  intros Hh Hn E. destruct (kmalloc_take_parts _ _ _ _ _ _ _ _ _ _ Hh E) as (F0 & E0 & EF & (Hf1 & Hf2 & Hf3) & NZ & NA & S1 & S2 & S3).
  cbn in Hf1, Hf2, Hf3. destruct Hh as [R S Hq HL HA HG]. rewrite E in R. apply ring_app in R as [RX (Ez & Et & Ea & Es & RY)].
  cbn [kmalloc_loop]. rewrite Es, Z.leb_refl, Z.eqb_refl. unfold uadd. rewrite Z.mod_small by lia.
  eexists _, (F0 ++ Y). split; [reflexivity|].
  assert ((base, 0) :: F0 ++ Y = X ++ (z, t) :: Y) as EB by by rewrite app_comm_cons, E0, <- (assoc_L (++)).
  assert (F ≡ₚ (a, n) :: F0 ++ Y) as EP by (rewrite EF; by rewrite Permutation_middle).
  split; [|split; [by rewrite EP|done]]. split; cbn [mem_of freep pool].
  - rewrite EB, ring_app. split.
    + eapply ring_frame, RX. apply list.Forall_app in NZ as [NZ _]. eapply list.Forall_impl; [exact NZ|]. intros c Hc. by headers.
    + cbn. headers. split_and!; [done|done|]. apply list.Forall_app in NZ as [_ NZ].
      eapply ring_frame, RY. eapply list.Forall_impl; [exact NZ|]. intros c Hc. by headers.
  - rewrite EB. change (X ++ (z, t) :: Y) with (X ++ [(z, t)] ++ Y). rewrite (assoc_L (++)). apply StronglySorted_inv in S2 as [S2 _].
    apply gap_app; [done..|]. eapply list.Forall_impl; [exact S3|]. tauto.
  - change (base :: (F0 ++ Y).*1) with (((base, 0) :: F0 ++ Y).*1). rewrite EB, fmap_app. apply elem_of_app. right. constructor.
  - constructor; [by headers|]. eapply list.Forall_impl; [exact HL|]. intros b Hb. by headers.
  - eapply pool_frame; [exact HA|]. apply (agree_on_outside _ _ _ [z]).
    + intros w Hw. apply not_elem_of_cons in Hw as [Hw _]. unfold set_hptr. rewrite lookup_insert_ne; [done|dlia].
    + assert (Forall (fun b : blk => ~ b.1 <= z < b.1 + b.2) (L ++ A)) as O.
      { apply (node_outside z t F); [done|]. rewrite E. apply elem_of_app. right. constructor. }
      apply list.Forall_app in O as [_ O]. eapply list.Forall_impl; [exact O|]. cbn. intros b Hb u Hu.
      by apply list_elem_of_singleton in Hu as ->.
  - rewrite EP in HG. cbn in HG. by rewrite <- app_comm_cons, <- Permutation_middle.
Qed.

Lemma kmalloc_take_part h F L A n k X z t a s Y : hinv h F L A -> 1 <= n -> n < s ->
  (base, 0) :: F = X ++ (z, t) :: (a, s) :: Y ->
  exists r h' F', kmalloc_loop (S k) n z a h = Some (r + 1, h') /\ hinv h' F' ((r, n) :: L) A /\
    recut base F ((r, n) :: F') /\ pool h' = pool h.
Proof.
  intros Hh Hn Hs E. destruct (kmalloc_take_parts _ _ _ _ _ _ _ _ _ _ Hh E) as (F0 & E0 & EF & (Hf1 & Hf2 & Hf3) & NZ & NA & S1 & S2 & S3).
  cbn in Hf1, Hf2, Hf3. destruct Hh as [R S Hq HL HA HG]. rewrite E in R. apply ring_app in R as [RX (Ez & Et & Ea & Es & RY)].
  cbn [kmalloc_loop]. rewrite Es, (proj2 (Z.leb_le n s)), (proj2 (Z.eqb_neq s n)) by lia. cbn zeta.
  headers. rewrite u32_small by lia. unfold uadd. rewrite (Z.mod_small (a + (s - n))), (Z.mod_small (a + (s - n) + 1)) by lia.
  set (r := a + (s - n)). exists r. eexists _, (F0 ++ (a, s - n) :: Y). split; [reflexivity|].
  assert ((base, 0) :: F0 ++ (a, s - n) :: Y = X ++ (z, t) :: (a, s - n) :: Y) as EB
    by by rewrite app_comm_cons, E0, <- (assoc_L (++)).
  assert (F ≡ₚ [(a, s)] ++ F0 ++ Y) as EP by (rewrite EF; by rewrite <- Permutation_middle).
  assert (recut base F ((r, n) :: F0 ++ (a, s - n) :: Y)) as HR.
  { rewrite EP. assert ((r, n) :: F0 ++ (a, s - n) :: Y ≡ₚ [(a, s - n); (r, n)] ++ F0 ++ Y) as -> by (cbn; solve_Permutation).
    apply recut_app, recut_split. lia. }
  assert (Forall (fun b : blk => forall u, a <= u < a + s -> ~ b.1 <= u < b.1 + b.2) (F0 ++ Y ++ L ++ A)) as O.
  { rewrite EP in HG. rewrite <- (assoc_L (++)) in HG. cbn in HG. rewrite <- (assoc_L (++)) in HG.
    apply good_cons in HG as (_ & HG & _). eapply list.Forall_impl; [exact HG|]. unfold sep. cbn. intros; lia. }
  assert (Forall (fits base) (F0 ++ Y ++ L ++ A)) as O1.
  { rewrite EP in HG. rewrite <- (assoc_L (++)) in HG. cbn in HG. rewrite <- (assoc_L (++)) in HG. by apply good_cons in HG as (_ & _ & _ & HG). }
  assert (Forall (fun b : blk => b.1 <> a /\ b.1 <> r) (F0 ++ Y ++ L ++ A)) as O2.
  { rewrite list.Forall_forall in O, O1. apply list.Forall_forall. intros b Hb. specialize (O1 b Hb). unfold fits in O1.
    pose proof (O b Hb a). pose proof (O b Hb r). unfold r in *. lia. }
  assert (Forall (fun b : blk => b.1 <> a /\ b.1 <> r) (X ++ [(z, t)])) as O3.
  { rewrite <- E0. constructor; [cbn; unfold r; lia|]. by apply list.Forall_app in O2 as [O2 _]. }
  rewrite !list.Forall_app in O2. destruct O2 as (O20 & O21 & O22 & O23).
  split; [|by split]. split; cbn [mem_of freep pool].
  - rewrite EB, ring_app. apply list.Forall_app in O3 as [O3 O4]. apply list.Forall_cons in O4 as [O4 _]. cbn in O4.
    split.
    + eapply ring_frame, RX. eapply list.Forall_impl; [exact O3|]. intros c [? ?]. by headers.
    + cbn. headers. split_and!; try done.
      eapply ring_frame, RY. eapply list.Forall_impl; [exact O21|]. intros c [? ?]. by headers.
  - rewrite EB. change (X ++ (z, t) :: (a, s - n) :: Y) with (X ++ [(z, t)] ++ (a, s - n) :: Y). rewrite (assoc_L (++)).
    apply StronglySorted_inv in S2 as [S2 S4].
    apply gap_app; [done| |].
    + constructor; [done|]. eapply list.Forall_impl; [exact S4|]. unfold gap. cbn. intros; lia.
    + eapply list.Forall_impl; [exact S3|]. intros x [G1 G2]. constructor; done.
  - change (base :: (F0 ++ (a, s - n) :: Y).*1) with (((base, 0) :: F0 ++ (a, s - n) :: Y).*1).
    rewrite EB, fmap_app. apply elem_of_app. right. constructor.
  - constructor; [cbn; by headers|]. rewrite list.Forall_forall in *. intros b Hb. specialize (O22 b Hb). headers. by apply HL.
  - eapply pool_frame; [exact HA|]. apply (agree_on_outside _ _ _ [a; r]).
    + intros w [H1 [H2 _]%not_elem_of_cons]%not_elem_of_cons. unfold set_hsize. rewrite !lookup_insert_ne; [done|dlia..].
    + rewrite !list.Forall_app in O. destruct O as (_ & _ & _ & O). eapply list.Forall_impl; [exact O|]. cbn. intros b Hb u Hu.
      apply Hb. apply elem_of_cons in Hu as [->|Hu]; [lia|]. apply list_elem_of_singleton in Hu as ->. unfold r. lia.
  - rewrite <- app_comm_cons, <- Permutation_middle. by apply (proj1 HR).
Qed.

Lemma kmalloc_take h F L A n k X z t a s Y : hinv h F L A -> 1 <= n -> n <= s ->
  (base, 0) :: F = X ++ (z, t) :: (a, s) :: Y ->
  exists r h' F', kmalloc_loop (S k) n z a h = Some (r + 1, h') /\ hinv h' F' ((r, n) :: L) A /\
    recut base F ((r, n) :: F') /\ pool h' = pool h.
Proof.
  intros Hh Hn Hs E. destruct (decide (s = n)) as [->|Hne].
  - exists a. by apply (kmalloc_take_whole _ _ _ _ _ _ X z t a Y).
  - apply (kmalloc_take_part _ _ _ _ _ _ X z t a s Y); [done..|lia|done].
Qed.

(** Getting more memory: refused, or a block of at least [n] units joins the list. *)
Lemma mehrader_ok h F L A n : hinv h F L A -> 1 <= n <= maxunits ->
  exists h' F' A', hinv h' F' L A' /\ recut base (F ++ A) (F' ++ A') /\
    (mehrader n h = Some (0, h') /\ F' = F /\ A' = A /\
       fst (core (Z.max n minunits) (mem_of h) (pool h)) = 0 \/
     mehrader n h = Some (freep h', h') /\ Exists (fun b => n <= b.2) F' /\ (length F' <= S (length F))%nat).
Proof.
  intros Hh Hn. pose proof Hh as [R S Hq HL HA HG]. pose proof (min_units (base := base)) as Hmin.
  assert (good base A) as GA by by do 2 apply good_app_r in HG.
  unfold mehrader. replace (if n <? minunits then minunits else n) with (Z.max n minunits) by (destruct (Z.ltb_spec n minunits); lia).
  set (n' := Z.max n minunits). pose proof (core_ok (base := base) (mem_of h) (pool h) A n' HA GA ltac:(lia)) as HC.
  destruct (core n' (mem_of h) (pool h)) as [p s'] eqn:Ec. destruct HC as [[-> HA']|(A' & Hp & HA' & HR)].
  - rewrite Z.eqb_refl. eexists _, F, A. split; [|split; [done|left; split; [reflexivity|done]]]. by split.
  - rewrite (proj2 (Z.eqb_neq p 0) Hp).
    assert (good base (((p, n') :: A') ++ F ++ L)) as G2.
    { apply (proj1 HR). rewrite (Permutation_app_comm A), <- (assoc_L (++)). done. }
    assert (Forall (fun b : blk => ~ b.1 <= p < b.1 + b.2) (A' ++ F ++ L)) as O by by apply good_outside in G2.
    assert (Forall (fits base) (A' ++ F ++ L)) as O1 by by apply good_cons in G2 as (_ & _ & _ & G2).
    assert (Forall (fun b : blk => b.1 <> p) (A' ++ F ++ L)) as O2.
    { rewrite list.Forall_forall in *. intros b Hb. specialize (O b Hb). specialize (O1 b Hb). unfold fits in O1. lia. }
    rewrite !list.Forall_app in O, O2. destruct O as (O & _ & _), O2 as (_ & O21 & O22).
    assert (base <> p) as Hbp by (apply good_cons in G2 as ([? _] & _); cbn in *; lia).
    assert (hinv (Heap (set_hsize p n' (mem_of h)) (freep h) s') F ((p, n') :: L) A') as H1.
    { split; cbn [mem_of freep pool]; try done.
      - eapply ring_frame, R. constructor; [cbn; by headers|]. eapply list.Forall_impl; [exact O21|]. intros c Hc. by headers.
      - constructor; [cbn; by headers|]. rewrite list.Forall_forall in *. intros b Hb. specialize (O22 b Hb). headers. by apply HL.
      - eapply pool_frame; [exact HA'|]. apply (agree_on_outside _ _ _ [p]).
        + intros w Hw. apply not_elem_of_cons in Hw as [Hw _]. unfold set_hsize. rewrite lookup_insert_ne; [done|dlia].
        + eapply list.Forall_impl; [exact O|]. cbn. intros b Hb u Hu. by apply list_elem_of_singleton in Hu as ->.
      - assert (F ++ ((p, n') :: L) ++ A' ≡ₚ ((p, n') :: A') ++ F ++ L) as -> by (cbn; solve_Permutation). done. }
    destruct (kmfree_ok _ _ _ _ _ _ H1) as (h2 & F2 & E2 & H2 & R2 & _ & X2 & L2). rewrite E2.
    exists h2, F2, A'. split; [done|]. split; [|right; split; [done|split; [|done]]].
    + transitivity (((p, n') :: A') ++ F); [rewrite (Permutation_app_comm F); by apply recut_app|].
      rewrite (Permutation_app_comm _ F). assert (F ++ (p, n') :: A' ≡ₚ ((p, n') :: F) ++ A') as -> by (cbn; solve_Permutation).
      by apply recut_app.
    + apply list.Exists_exists in X2 as (b & Hb & ?). apply list.Exists_exists. exists b. split; [done|lia].
Qed.

Lemma hinv_length h F L A : hinv h F L A -> (length F <= size (mem_of h))%nat.
Proof.
  intros Hh. pose proof (hinv_incr _ _ _ _ Hh) as SI. destruct Hh as [(_ & _ & R) _ _ _ _ [_ G]].
  apply StronglySorted_inv in SI as [SI _]. eapply ring_size; [exact R| |done].
  apply list.Forall_app in G as [G _]. eapply list.Forall_impl; [exact G|]. unfold fits. intros; lia.
Qed.

Lemma kmalloc_found h F L A n fuel : hinv h F L A -> 1 <= n -> Exists (fun b => n <= b.2) F -> (length F < fuel)%nat ->
  exists r h' F', kmalloc_loop fuel n (freep h) (hptr (mem_of h) (freep h)) h = Some (r + 1, h') /\
    hinv h' F' ((r, n) :: L) A /\ recut base F ((r, n) :: F').
Proof.
  intros Hh Hn HE Hf. destruct (kmalloc_scan h F L A n Hh Hn) as [(j & X & z & t & a & s & Y & E & Hs & Hj & HK)|[HF _]].
  - destruct (kmalloc_take h F L A n (fuel - j - 1) X z t a s Y Hh Hn Hs E) as (r & h' & F' & HT & HI & HR & _).
    exists r, h', F'. specialize (HK (S (fuel - j - 1))). replace (j + S (fuel - j - 1))%nat with fuel in HK by lia.
    by rewrite HK.
  - exfalso. apply list.Exists_exists in HE as (b & Hb & ?). rewrite list.Forall_forall in HF. specialize (HF b Hb). cbn in *. lia.
Qed.

(** The scan from a started heap always ends: with a block, or refused by the supplier. *)
Lemma kmalloc_loop_ok h F L A n fuel : hinv h F L A -> 1 <= n <= maxunits -> (2 * length F + 3 <= fuel)%nat ->
  exists r h' F' A', kmalloc_loop fuel n (freep h) (hptr (mem_of h) (freep h)) h = Some (r, h') /\
    (r = 0 /\ hinv h' F L A /\ F' = F /\ A' = A /\ fst (core (Z.max n minunits) (mem_of h) (pool h)) = 0 \/
     base + 1 < r /\ hinv h' F' ((r - 1, n) :: L) A' /\ recut base (F ++ A) ((r - 1, n) :: F' ++ A')).
Proof.
  intros Hh Hn Hf.
  assert (forall r h' F' A', hinv h' F' ((r, n) :: L) A' -> base + 1 < r + 1) as Hr.
  { intros r h' F' A' [_ _ _ _ _ [_ G]]. apply list.Forall_app in G as [_ G]. apply list.Forall_cons in G as [[G _] _]. cbn in G. lia. }
  destruct (first_fit n F) as [(S0 & b & T & EF & _ & Hb)|HF].
  - destruct (kmalloc_found h F L A n fuel Hh) as (r & h' & F' & E & HI & HR); [lia| |lia|].
    { apply list.Exists_exists. exists b. split; [|done]. rewrite EF. apply elem_of_app. right. constructor. }
    exists (r + 1), h', F', A. split; [done|]. right. replace (r + 1 - 1) with r by lia. split_and!; [by eapply Hr|done|].
    by apply (recut_app base F ((r, n) :: F') A).
  - destruct (kmalloc_scan h F L A n Hh) as [(j & X & z & t & a & s & Y & E & Hs & _)|[_ (prev & s & Es & Hs & HK)]]; [lia|exfalso|].
    { rewrite list.Forall_forall in HF. destruct X as [|x X]; cbn in E; injection E as E1 E2; subst.
      - specialize (HF (a, s) ltac:(constructor)). cbn in HF. lia.
      - assert ((a, s) ∈ X ++ (z, t) :: (a, s) :: Y) as Hin by (apply elem_of_app; right; right; constructor).
        specialize (HF (a, s) Hin). cbn in HF. lia. }
    specialize (HK (S (fuel - length F - 1))). replace (length F + S (fuel - length F - 1))%nat with fuel in HK by lia.
    rewrite HK. cbn [kmalloc_loop]. rewrite Es, (proj2 (Z.leb_gt n s)), Z.eqb_refl by lia.
    destruct (mehrader_ok h F L A n Hh Hn) as (h1 & F1 & A1 & H1 & R1 & [(E1 & -> & -> & Hc)|(E1 & X1 & L1)]); rewrite E1.
    + exists 0, h1, F, A. split; [done|]. left. done.
    + assert (freep h1 <> 0) as Hq.
      { destruct H1 as [_ _ Hq _ _ [_ G]]. apply elem_of_cons in Hq as [->|Hq]; [lia|].
        apply list_elem_of_fmap in Hq as (b & -> & Hb). apply list.Forall_app in G as [G _].
        rewrite list.Forall_forall in G. specialize (G b Hb). unfold fits in G. lia. }
      rewrite (proj2 (Z.eqb_neq _ _) Hq).
      destruct (kmalloc_found h1 F1 L A1 n (fuel - length F - 1) H1) as (r & h' & F' & E & HI & HR); [lia|done|lia|].
      exists (r + 1), h', F', A1. split; [done|]. right. replace (r + 1 - 1) with r by lia. split_and!; [by eapply Hr|done|].
      transitivity (F1 ++ A1); [done|]. by apply (recut_app base F1 ((r, n) :: F') A1).
Qed.

(** A heap before or after its first allocation. *)
Definition heap_ok (h : heap P) (F L A : list blk) : Prop :=
  freep h = 0 /\ F = [] /\ L = [] /\ pool_ok (mem_of h) (pool h) A /\ good base A \/ hinv h F L A.

Lemma heap_start_ok h F L A : heap_ok h F L A -> hinv (heap_start base h) F L A /\ pool (heap_start base h) = pool h.
Proof.
  intros [(E & -> & -> & HA & HG)|Hh]; unfold heap_start.
  - rewrite E, Z.eqb_refl. split; [|done]. split; cbn [mem_of freep pool].
    + cbn. headers. done.
    + repeat constructor.
    + constructor.
    + constructor.
    + eapply pool_frame; [exact HA|]. apply (agree_on_outside _ _ _ [base]).
      * intros w Hw. apply not_elem_of_cons in Hw as [Hw _]. unfold set_hsize, set_hptr. rewrite !lookup_insert_ne; [done|dlia..].
      * destruct HG as [_ HG]. apply base_outside in HG. eapply list.Forall_impl; [exact HG|]. cbn. intros b Hb u Hu.
        by apply list_elem_of_singleton in Hu as ->.
    + done.
  - rewrite (proj2 (Z.eqb_neq _ _)); [done|]. destruct Hh as [_ _ Hq _ _ [_ G]].
    apply elem_of_cons in Hq as [->|Hq]; [lia|]. apply list_elem_of_fmap in Hq as (b & -> & Hb).
    apply list.Forall_app in G as [G _]. rewrite list.Forall_forall in G. specialize (G b Hb). unfold fits in G. lia.
Qed.

Lemma kmalloc_ok h F L A nbytes :
  heap_ok h F L A -> units nbytes <= maxunits ->
  exists r h' F' A', kmalloc base nbytes h = Some (r, h') /\
    (r = 0 /\ hinv h' F L A /\ F' = F /\ A' = A /\
       fst (core (Z.max (units nbytes) minunits) (mem_of (heap_start base h)) (pool h)) = 0 \/
     base + 1 < r /\ hinv h' F' ((r - 1, units nbytes) :: L) A' /\
       recut base (F ++ A) ((r - 1, units nbytes) :: F' ++ A')).
Proof.
  intros Hh Hn. destruct (heap_start_ok h F L A Hh) as [Hs Ep]. pose proof (hinv_length _ _ _ _ Hs).
  assert (1 <= units nbytes) by (unfold units; pose proof (u32_range (nbytes + 8 - 1)); dlia).
  destruct (kmalloc_loop_ok _ F L A (units nbytes) (2 * size (mem_of (heap_start base h)) + 6) Hs) as
    (r & h' & F' & A' & E & H'); [lia..|].
  exists r, h', F', A'. split; [exact E|]. rewrite Ep in H'. destruct H' as [(?&?&?&?&?)|H']; [left|by right].
  split_and!; eauto.
Qed.

(** Every request within the supplier's limits returns.  It gives a block of
    [units nbytes] headers, recut from the free list and the supplier's memory so
    that it overlaps neither them nor any live block; or it returns 0, and then
    the supplier refused and nothing changed hands. *)
Theorem kmalloc_spec h F L A nbytes :
  heap_ok h F L A -> units nbytes <= maxunits ->
  exists r h' F' A', kmalloc base nbytes h = Some (r, h') /\
    (r = 0 /\ hinv h' F L A /\ F' = F /\ A' = A /\
       fst (core (Z.max (units nbytes) minunits) (mem_of (heap_start base h)) (pool h)) = 0 \/
     base + 1 < r /\ hinv h' F' ((r - 1, units nbytes) :: L) A' /\
       recut base (F ++ A) ((r - 1, units nbytes) :: F' ++ A')).
Proof. apply kmalloc_ok. Qed.

(** ** Programs that use the heap

    A client makes requests that the supplier can serve, frees the blocks it holds,
    and writes into them. *)
Inductive hstep : heap P * list blk -> heap P * list blk -> Prop :=
| hstep_malloc h L n r h' : units n <= maxunits -> kmalloc base n h = Some (r, h') ->
    hstep (h, L) (h', if r =? 0 then L else (r - 1, units n) :: L)
| hstep_free h L b L' h' : L ≡ₚ b :: L' -> kmfree (b.1 + 1) h = Some h' -> hstep (h, L) (h', L')
| hstep_write h L b w v : b ∈ L -> 2 * (b.1 + 1) <= w < 2 * (b.1 + b.2) ->
    hstep (h, L) (Heap (<[w := v]> (mem_of h)) (freep h) (pool h), L).

Lemma hinv_perm h F L L' A : L ≡ₚ L' -> hinv h F L A -> hinv h F L' A.
Proof. intros E [R S Hq HL HA HG]. split; try done; by rewrite <- E. Qed.

(** A client's own data holds no header the allocator reads. *)
Lemma write_ok h F L A b w v : hinv h F L A -> b ∈ L -> 2 * (b.1 + 1) <= w < 2 * (b.1 + b.2) ->
  hinv (Heap (<[w := v]> (mem_of h)) (freep h) (pool h)) F L A.
Proof.
  intros [R S Hq HL HA HG] Hb Hw. set (u := w / 2). assert (b.1 < u < b.1 + b.2) as Hu by (unfold u; dlia).
  assert (forall x, x <> u -> hptr (<[w := v]> (mem_of h)) x = hptr (mem_of h) x /\ hsize (<[w := v]> (mem_of h)) x = hsize (mem_of h) x) as HH.
  { intros x Hx. unfold hptr, hsize. rewrite !ld_insert, !decide_False by (unfold u in Hx; dlia). done. }
  apply elem_of_Permutation in Hb as [L' EL]. assert (F ++ L ++ A ≡ₚ b :: F ++ L' ++ A) as EP by (rewrite EL; cbn; solve_Permutation).
  pose proof HG as HG'. rewrite EP in HG'. apply good_cons in HG' as (_ & O & [_ O']).
  assert (Forall (fun c : blk => c.1 <> u) (F ++ L' ++ A)) as N.
  { rewrite list.Forall_forall in *. intros c Hc. specialize (O c Hc). specialize (O' c Hc). unfold sep, fits in *. lia. }
  rewrite !list.Forall_app in N. destruct N as (N1 & N2 & N3). split; cbn [mem_of freep pool]; try done.
  - eapply ring_frame, R. constructor; [|eapply list.Forall_impl; [exact N1|]; intros c Hc; by apply HH].
    apply HH. cbn. rewrite EP in HG. apply good_cons in HG as ([? _] & _). lia.
  - rewrite EL in HL |- *. apply list.Forall_cons in HL as [HL1 HL]. constructor.
    + rewrite (proj2 (HH b.1 ltac:(lia))). done.
    + rewrite list.Forall_forall in *. intros c Hc. rewrite (proj2 (HH c.1 (N2 c Hc))). by apply HL.
  - eapply pool_frame; [exact HA|]. apply (agree_on_outside _ _ _ [u]).
    + intros x Hx. apply not_elem_of_cons in Hx as [Hx _]. rewrite lookup_insert_ne; [done|]. intros ->. done.
    + rewrite !list.Forall_app in O. destruct O as (_ & _ & O). eapply list.Forall_impl; [exact O|]. unfold sep. cbn.
      intros c Hc x Hx. apply list_elem_of_singleton in Hx as ->. lia.
Qed.

Lemma hstep_ok s s' F A : hstep s s' -> heap_ok s.1 F s.2 A ->
  exists F' A', heap_ok s'.1 F' s'.2 A' /\ forall u, inb u (F ++ s.2 ++ A) <-> inb u (F' ++ s'.2 ++ A').
Proof.
  intros [h L n r h' Hn E|h L b L' h' EL E|h L b w v Hb Hw] H; cbn [fst snd] in *.
  - destruct (kmalloc_ok h F L A n H Hn) as (r' & h2 & F' & A' & E2 & [(-> & H2 & -> & -> & _)|(Hr & H2 & HR)]);
      rewrite E in E2; injection E2 as -> ->.
    + exists F, A. rewrite Z.eqb_refl. split; [by right|done].
    + exists F', A'. rewrite (proj2 (Z.eqb_neq r' 0)) by lia. split; [by right|]. intros u.
      pose proof (proj2 HR u) as HU. rewrite !inb_app. rewrite inb_app in HU.
      change ((r' - 1, units n) :: F' ++ A') with ([(r' - 1, units n)] ++ F' ++ A') in HU.
      change ((r' - 1, units n) :: L) with ([(r' - 1, units n)] ++ L). rewrite !inb_app in *. tauto.
  - destruct H as [(_ & _ & -> & _)|H]; [by apply Permutation_nil_cons in EL|]. destruct b as [bp n].
    apply (hinv_perm _ _ _ _ _ EL) in H. destruct (kmfree_ok _ _ _ _ _ _ H) as (h2 & F' & E2 & H2 & HR & _).
    cbn [fst] in E. rewrite E in E2. injection E2 as ->. exists F', A. split; [by right|]. intros u.
    rewrite EL. pose proof (proj2 HR u) as HU. change ((bp, n) :: F) with ([(bp, n)] ++ F) in HU.
    change ((bp, n) :: L') with ([(bp, n)] ++ L'). rewrite !inb_app in *. tauto.
  - exists F, A. split; [|done]. right. destruct H as [(_ & _ & -> & _)|H]; [by apply not_elem_of_nil in Hb|].
    by apply (write_ok h F L A b).
Qed.

End heap_ok.

(** ** The page allocator *)

(** The free pages, as a list threaded through their first words. *)
Fixpoint run_list (m : words) (r : Z) (l : list Z) : Prop :=
  match l with
  | [] => r = 0
  | a :: l => r = a /\ run_list m (ld m (2 * a)) l
  end.

Lemma run_list_frame m m' l r : run_list m r l -> (forall a, a ∈ l -> ld m' (2 * a) = ld m (2 * a)) -> run_list m' r l.
Proof.
  revert r. induction l as [|a l IH]; cbn; [done|]. intros r [-> H] E. split; [done|].
  rewrite E by constructor. apply IH; [done|]. intros b Hb. apply E. by right.
Qed.

Lemma lookup_fill_page w m x :
  fill_page w m !! x = if decide (w <= x < w + Z.of_nat PGWORDS) then Some junk else m !! x.
Proof.
  unfold fill_page. generalize PGWORDS. intros n.
  assert (forall i, foldr (fun i m => <[w + Z.of_nat i := junk]> m) m (seq i n) !! x =
    if decide (w + Z.of_nat i <= x < w + Z.of_nat i + Z.of_nat n) then Some junk else m !! x) as H.
  { induction n as [|n IH]; intros i; cbn [seq foldr]; [by rewrite decide_False by lia|].
    destruct (decide (x = w + Z.of_nat i)) as [->|Hx].
    - by rewrite lookup_insert_eq, decide_True by lia.
    - rewrite lookup_insert_ne, IH by done. repeat destruct (decide _); try done; lia. }
  rewrite H. by rewrite Z.add_0_r.
Qed.

(** What [kfree] accepts. *)
Definition freeable (kend v : Z) : Prop :=
  v mod PGSIZE = 0 /\ kend <= v /\ KERNBASE <= v < KERNBASE + PHYSTOP.

Lemma kfree_run kend v s : freeable kend v ->
  kfree kend v s = Ok tt (KPages (<[2 * (v / 8) := freelist (kp_pages s)]> (fill_page (2 * (v / 8)) (kp_mem s)))
    (Pages (use_lock (kp_pages s)) (v / 8))).
Proof.
  intros (H1 & H2 & H3). unfold kfree, assert_or, PHYSTOP, KERNBASE in *. rewrite (proj2 (Z.eqb_eq _ _) H1), (proj2 (Z.leb_le _ _) H2).
  rewrite u32_small by lia. rewrite (proj2 (Z.ltb_lt (v - 0x80000000) _)) by lia. done.
Qed.

Lemma kfree_ok kend v s l :
  freeable kend v -> run_list (kp_mem s) (freelist (kp_pages s)) l -> Forall (fun a => a mod PGUNITS = 0) l -> v / 8 ∉ l ->
  exists s', kfree kend v s = Ok tt s' /\
    run_list (kp_mem s') (freelist (kp_pages s')) (v / 8 :: l) /\
    (forall w, ~ v <= 4 * w < v + PGSIZE -> kp_mem s' !! w = kp_mem s !! w) /\
    kalloc (kp_mem s') (kp_pages s') = (v / 8, kp_pages s).
Proof.
  intros Hv Hl Ha Hn. eexists. split; [by apply kfree_run|]. cbn [kp_mem kp_pages freelist use_lock].
  destruct Hv as (H1 & H2 & H3). unfold PGSIZE, KERNBASE, PHYSTOP, PGUNITS in *. split; [|split].
  - split; [done|]. rewrite ld_insert, decide_True by done. eapply run_list_frame; [exact Hl|]. intros a Hin.
    rewrite list.Forall_forall in Ha. specialize (Ha a Hin). assert (a <> v / 8) by (intros ->; done).
    rewrite ld_insert, decide_False by lia. unfold ld. rewrite lookup_fill_page, decide_False; [done|].
    change (Z.of_nat PGWORDS) with 1024. dlia.
  - intros w Hw. rewrite lookup_insert_ne by dlia. rewrite lookup_fill_page, decide_False; [done|].
    change (Z.of_nat PGWORDS) with 1024. dlia.
  - unfold kalloc. cbn [freelist use_lock]. rewrite (proj2 (Z.eqb_neq (v / 8) 0)) by dlia.
    rewrite ld_insert, decide_True by done. by destruct (kp_pages s).
Qed.

Lemma PGROUNDUP_eq sz : 0 <= sz < 2 ^ 32 - PGSIZE -> PGROUNDUP sz = (sz + PGSIZE - 1) / PGSIZE * PGSIZE.
Proof.
  unfold PGROUNDUP, PGSIZE. intros H. rewrite (u32_small (sz + 4096 - 1)) by lia. set (x := sz + 4096 - 1).
  assert (Z.land x (u32 (- (4096))) = x / 4096 * 4096) as ->; [|apply u32_small; unfold x; dlia].
  change (u32 (- (4096))) with (Z.shiftl (Z.ones 20) 12).
  change 4096 with (2 ^ 12). rewrite <- Z.shiftr_div_pow2, <- Z.shiftl_mul_pow2 by lia.
  apply Z.bits_inj'. intros n Hn. rewrite Z.land_spec, !Z.shiftl_spec by lia.
  destruct (decide (n < 12)) as [L|L].
  { rewrite !(Z.testbit_neg_r _ (n - 12)) by lia. by rewrite andb_false_r. }
  rewrite Z.shiftr_spec, Z.testbit_ones by lia. replace (n - 12 + 12) with n by lia.
  destruct (decide (n < 32)) as [L'|L'].
  - rewrite (proj2 (Z.leb_le _ _)), (proj2 (Z.ltb_lt _ _)) by lia. by rewrite andb_true_r.
  - assert (Z.testbit x n = false) as ->; [|done]. destruct (decide (x = 0)) as [->|]; [apply Z.bits_0|].
    apply Z.bits_above_log2; [unfold x; lia|]. apply Z.log2_lt_pow2; [unfold x; lia|].
    pose proof (Z.pow_le_mono_r 2 32 n). unfold x. lia.
Qed.

(** A page freed goes to the front of the free list, the other free pages
    stay, only the page's own memory changes, and the next [kalloc] returns it
    and puts the list back. *)
Theorem kfree_kalloc kend v s l :
  freeable kend v -> run_list (kp_mem s) (freelist (kp_pages s)) l -> Forall (fun a => a mod PGUNITS = 0) l -> v / 8 ∉ l ->
  exists s', kfree kend v s = Ok tt s' /\
    run_list (kp_mem s') (freelist (kp_pages s')) (v / 8 :: l) /\
    (forall w, ~ v <= 4 * w < v + PGSIZE -> kp_mem s' !! w = kp_mem s !! w) /\
    kalloc (kp_mem s') (kp_pages s') = (v / 8, kp_pages s).
Proof. apply kfree_ok. Qed.

(** The [n] pages from [p] on, last first. *)
Fixpoint pages_of (p : Z) (n : nat) (l : list Z) : list Z :=
  match n with
  | O => l
  | S n => pages_of (p + PGSIZE) n (p / 8 :: l)
  end.

Lemma freerange_loop_ok kend n : forall fuel p vend s l,
  p mod PGSIZE = 0 -> kend <= p -> KERNBASE <= p -> vend <= KERNBASE + PHYSTOP -> p <= vend + PGSIZE ->
  n = Z.to_nat ((vend - p) / PGSIZE) -> (n <= fuel)%nat ->
  run_list (kp_mem s) (freelist (kp_pages s)) l -> Forall (fun a => a mod PGUNITS = 0) l ->
  (forall a, a ∈ l -> ~ p <= 8 * a < vend) ->
  exists s', freerange_loop kend fuel p vend s = Ok tt s' /\ run_list (kp_mem s') (freelist (kp_pages s')) (pages_of p n l).
Proof.
  unfold PGSIZE, KERNBASE, PHYSTOP, PGUNITS. induction n as [|n IH]; intros fuel p vend s l Hm Hk Hb Hv H0 En Hf Hl Ha Hr.
  - exists s. split; [|done]. destruct fuel as [|fuel]; [done|]. cbn [freerange_loop]. unfold PGSIZE.
    assert (vend < p + 4096) by dlia. rewrite (proj2 (Z.leb_gt _ _)); [done|]. rewrite u32_small; lia.
  - destruct fuel as [|fuel]; [lia|]. cbn [freerange_loop pages_of]. unfold PGSIZE.
    assert (p + 4096 <= vend) by dlia. rewrite u32_small by lia. rewrite (proj2 (Z.leb_le _ _)) by lia.
    destruct (kfree_ok kend p s l) as (s1 & E1 & R1 & _); [unfold freeable, PGSIZE, KERNBASE, PHYSTOP; lia|done|done| |].
    { intros Hin. apply (Hr _ Hin). dlia. }
    erewrite bind_ok by exact E1. apply IH; [dlia|lia|lia|lia|lia|dlia|lia|done| |].
    + constructor; [dlia|done].
    + intros a [->|Hin]%elem_of_cons; [dlia|]. specialize (Hr a Hin). lia.
Qed.

(** [freerange] puts exactly the whole pages of the range on the free list,
    in front of the pages that were there. *)
Theorem freerange_pages kend vstart vend s l :
  kend <= vstart -> KERNBASE <= vstart -> vend <= KERNBASE + PHYSTOP -> vstart <= vend ->
  run_list (kp_mem s) (freelist (kp_pages s)) l -> Forall (fun a => a mod PGUNITS = 0) l ->
  (forall a, a ∈ l -> ~ PGROUNDUP vstart <= 8 * a < vend) ->
  exists s', freerange kend vstart vend s = Ok tt s' /\
    run_list (kp_mem s') (freelist (kp_pages s'))
      (pages_of (PGROUNDUP vstart) (Z.to_nat ((vend - PGROUNDUP vstart) / PGSIZE)) l).
Proof.
  intros Hk Hb Hv Hs Hl Ha Hr. pose proof (PGROUNDUP_eq vstart) as E. unfold freerange.
  apply (freerange_loop_ok _ _ _ _ _ _ l); try done; unfold KERNBASE, PHYSTOP, PGSIZE in *; rewrite ?E in * by lia; try dlia.
Qed.

(** ** The two suppliers meet the interface *)

Definition pages_ok (m : words) (s : pages) (A : list blk) : Prop :=
  exists l, A = (fun a => (a, PGUNITS)) <$> l /\ run_list m (freelist s) l.

Lemma pages_frame m m' s A : pages_ok m s A -> agree_on A m m' -> pages_ok m' s A.
Proof.
  intros (l & -> & Hl) HA. exists l. split; [done|]. eapply run_list_frame; [exact Hl|]. intros a Ha.
  unfold agree_on in HA. rewrite list.Forall_forall in HA. unfold ld. f_equal. symmetry.
  apply (HA (a, PGUNITS)); [apply list_elem_of_fmap; eauto|]. unfold PGUNITS. cbn. lia.
Qed.
Lemma pages_core base m s A n : 0 < base -> pages_ok m s A -> good base A -> 512 <= n <= PGUNITS ->
  let '(p, s') := core n m s in
  (p = 0 /\ pages_ok m s' A) \/ (exists A', p <> 0 /\ pages_ok m s' A' /\ recut base A ((p, n) :: A')).
Proof.
  intros Hb (l & -> & Hl) HG Hn. cbn. unfold kalloc. destruct l as [|a l].
  - cbn in Hl. rewrite Hl, Z.eqb_refl. left. split; [done|]. by exists [].
  - destruct Hl as [E Hl]. rewrite E. cbn in HG. apply good_cons in HG as ([H1 _] & _). cbn in H1.
    rewrite (proj2 (Z.eqb_neq a 0)) by lia. right. exists ((fun a => (a, PGUNITS)) <$> l).
    split_and!; [lia|by exists l|]. unfold PGUNITS in *. replace n with 512 by lia. done.
Qed.
Instance kalloc_core_spec base (Hb : 0 < base) : CoreSpec pages base.
Proof.
  refine {| pool_ok := pages_ok; maxunits := PGUNITS; pool_frame := pages_frame |}.
  - split; vm_compute; congruence.
  - unfold PGUNITS. lia.
  - intros m s A n. by apply pages_core.
Defined.

Definition uproc_ok (m : words) (s : uproc) (A : list blk) : Prop :=
  usz s mod 8 = 0 /\ 0 <= usz s < KERNBASE /\ A = [(usz s / 8, 2 ^ 28 - usz s / 8)].

Lemma uproc_core base m s A n : 0 < base -> uproc_ok m s A -> good base A -> 4096 <= n <= 2 ^ 28 - 1 ->
  let '(p, s') := core n m s in
  (p = 0 /\ uproc_ok m s' A) \/ (exists A', p <> 0 /\ uproc_ok m s' A' /\ recut base A ((p, n) :: A')).
Proof.
  intros Hb (H1 & H2 & ->) HG Hn. apply good_cons in HG as ([H3 _] & _). cbn in H3. cbn. unfold sys_sbrk, growproc, KERNBASE in *.
  rewrite s32_small, u32_small by lia. rewrite (proj2 (Z.ltb_lt 0 (n * 8))) by lia.
  destruct (Z.leb_spec 0x80000000 (usz s + n * 8)) as [L|L]; [left; done|].
  rewrite (proj2 (Z.ltb_ge (usz s + n * 8) (usz s))) by lia.
  destruct (grants s) as [|[] g]; [by left| |by left].
  rewrite (proj2 (Z.eqb_neq (usz s + n * 8) 0)) by lia. cbn [negb]. rewrite (proj2 (Z.eqb_neq (usz s) (-1))) by lia.
  right. exists [((usz s + n * 8) / 8, 2 ^ 28 - (usz s + n * 8) / 8)]. split_and!; [dlia| |].
  - unfold uproc_ok, KERNBASE. cbn [usz]. split_and!; [dlia|lia|lia|done].
  - rewrite Z.div_add by lia. pose proof (recut_split base (usz s / 8) (2 ^ 28 - usz s / 8) (2 ^ 28 - usz s / 8 - n)) as HR.
    replace (2 ^ 28 - usz s / 8 - (2 ^ 28 - usz s / 8 - n)) with n in HR by lia.
    replace (2 ^ 28 - (usz s / 8 + n)) with (2 ^ 28 - usz s / 8 - n) by lia. apply HR. dlia.
Qed.
Instance sbrk_core_spec base (Hb : 0 < base) : CoreSpec uproc base.
Proof.
  refine {| pool_ok := uproc_ok; maxunits := 2 ^ 28 - 1 |}.
  - cbn. lia.
  - lia.
  - done.
  - intros m s A n. by apply uproc_core.
Defined.

(** ** Concrete heaps *)
Module AllocSample.

(** The kernel heap over two free pages. *)
Definition kbase : Z := 0x10010000.
Definition page1 : Z := 0x10020000.
Definition page2 : Z := 0x10020200.
Definition two_pages : kpages :=
  KPages {[ 2 * page1 := page2; 2 * page2 := 0 ]} (Pages true page1).
Definition kheap0 : heap pages := Heap (kp_mem two_pages) 0 (kp_pages two_pages).
Definition kblocks : list blk := [(page1, 512); (page2, 512)].
#[local] Instance kspec : CoreSpec pages kbase := kalloc_core_spec kbase eq_refl.

Lemma kheap0_ok : pool_ok (mem_of kheap0) (pool kheap0) kblocks /\ good kbase kblocks.
Proof.
  split; [exists [page1; page2]; split; [reflexivity|]; split; [reflexivity|]; split; reflexivity|].
  split; cbn; repeat constructor; vm_compute; intuition congruence.
Qed.

Lemma kbase_range : 0 < kbase < 2 ^ 29.
Proof. vm_compute. intuition congruence. Qed.

Lemma kmalloc_spec_witness :
  exists r h' F' A', kmalloc kbase 100 kheap0 = Some (r, h') /\
    (r = 0 /\ hinv kbase h' [] [] kblocks /\ F' = [] /\ A' = kblocks /\
       fst (core (Z.max (units 100) (minunits (P := pages))) (mem_of (heap_start kbase kheap0)) (pool kheap0)) = 0 \/
     kbase + 1 < r /\ hinv kbase h' F' [(r - 1, (units 100))] A' /\
       recut kbase ([] ++ kblocks) ((r - 1, (units 100)) :: F' ++ A')).
Proof.
  apply (kmalloc_spec kbase kbase_range kheap0 [] [] kblocks 100); [|vm_compute; congruence].
  left. split_and!; [reflexivity..|apply kheap0_ok|apply kheap0_ok].
Defined.

(** 100 and 200 bytes, a write into the second block, the first freed. *)
Definition kheap1 := default (0, kheap0) (kmalloc kbase 100 kheap0).
Definition kheap2 := default (0, kheap0) (kmalloc kbase 200 kheap1.2).
Definition kheap3 := Heap (<[2 * kheap2.1 := 7]> (mem_of kheap2.2)) (freep kheap2.2) (pool kheap2.2).
Definition kheap4 := default kheap0 (kmfree kheap1.1 kheap3).

Lemma kheap4_steps : rtc (hstep kbase) (kheap0, []) (kheap4, [(kheap2.1 - 1, 26)]).
Proof.
  apply rtc_l with (y := (kheap1.2, [(kheap1.1 - 1, 14)])).
  { apply (hstep_malloc kbase kheap0 [] 100 kheap1.1 kheap1.2); [vm_compute; congruence|reflexivity]. }
  apply rtc_l with (y := (kheap2.2, [(kheap2.1 - 1, 26); (kheap1.1 - 1, 14)])).
  { apply (hstep_malloc kbase kheap1.2 [(kheap1.1 - 1, 14)] 200 kheap2.1 kheap2.2); [vm_compute; congruence|reflexivity]. }
  apply rtc_l with (y := (kheap3, [(kheap2.1 - 1, 26); (kheap1.1 - 1, 14)])).
  { apply (hstep_write kbase kheap2.2 _ (kheap2.1 - 1, 26)); [constructor|vm_compute; intuition congruence]. }
  apply rtc_once, (hstep_free kbase kheap3 _ (kheap1.1 - 1, 14)); [apply Permutation_swap|reflexivity].
Qed.


Lemma kfree_kalloc_witness :
  exists s', kfree 0x80010000 0x80030000 two_pages = Ok tt s' /\
    run_list (kp_mem s') (freelist (kp_pages s')) [0x80030000 / 8; page1; page2] /\
    (forall w, ~ 0x80030000 <= 4 * w < 0x80030000 + PGSIZE -> kp_mem s' !! w = kp_mem two_pages !! w) /\
    kalloc (kp_mem s') (kp_pages s') = (0x80030000 / 8, kp_pages two_pages).
Proof.
  apply (kfree_kalloc 0x80010000 0x80030000 two_pages [page1; page2]).
  - vm_compute. intuition congruence.
  - split; [reflexivity|]. split; reflexivity.
  - repeat constructor.
  - rewrite !not_elem_of_cons. split_and!; [vm_compute; congruence..|apply not_elem_of_nil].
Defined.

Lemma freerange_pages_witness :
  exists s', freerange 0x80010000 0x80030123 0x80032fff two_pages = Ok tt s' /\
    run_list (kp_mem s') (freelist (kp_pages s')) [0x80031000 / 8; page1; page2].
Proof.
  apply (freerange_pages 0x80010000 0x80030123 0x80032fff two_pages [page1; page2]).
  - vm_compute. congruence.
  - vm_compute. congruence.
  - vm_compute. congruence.
  - vm_compute. congruence.
  - split; [reflexivity|]. split; reflexivity.
  - repeat constructor.
  - intros a Ha. repeat (apply elem_of_cons in Ha as [->|Ha]; [vm_compute; intuition congruence|]). by apply not_elem_of_nil in Ha.
Defined.

(** A request for more than a page gets one page from [kalloc] all the same: the
    block reaches into the next page, which is still on the free list. *)
Lemma kmalloc_overruns_page :
  exists h', kmalloc kbase 5000 kheap0 = Some (page1 + 1, h') /\ units 5000 = 626 /\
    fst (kalloc (mem_of h') (pool h')) = page2 /\ page1 <= page2 < page1 + 626.
Proof. eexists. vm_compute. intuition congruence. Qed.

(** The user heap grows by 32 KiB at a time and reuses what is freed. *)
Definition uheap0 : heap uproc := Heap ∅ 0 (UProc 0x4000 [true]).
Example malloc_free_malloc :
  ('(r, h1) ← malloc 0x600 100 uheap0; '(_, h2) ← cfree r h1; '(r2, _) ← malloc 0x600 100 h2; Some (r, r2))
  = Some (0x800 + 4096 - 14 + 1, 0x800 + 4096 - 14 + 1).
Proof. vm_compute. reflexivity. Qed.
End AllocSample.
