(* ===== verification/Wp.v ===== *)
(** Weakest preconditions for the kernel's routines.

    [wp p Q R k]: run from memory [k], whatever the drive holds, [p] returns only
    in states that satisfy [Q] and goes to sleep only in states that satisfy [R].
    Panics and power failures end the machine and are not constrained. *)

From S2P Require Import Prelude Params Bio Disk Fs Kernel File.
Import BlockIO.

Create HintDb wp.

Section wp.
Context (present : Z -> bool).

Definition wp {A} (p : K A) (Q : A -> kmem -> Prop) (R : kmem -> Prop) (k : kmem) : Prop :=
  forall a, match Spec.run present p k a with
            | Ok v (k', _) => Q v k'
            | Blocked (k', _) => R k'
            | _ => True
            end.

Lemma wp_ret {A} (x : A) Q R k : Q x k -> wp (mret x) Q R k.
Proof. by intros H a. Qed.
Lemma wp_bind {A B} (p : K A) (f : A -> K B) Q R k :
  wp p (fun x => wp (f x) Q R) R k -> wp (p ≫= f) Q R k.
Proof.
  intros H a. specialize (H a). rewrite Spec.run_bind.
  destruct (Spec.run present p k a) as [x [k' a']|m s|[k' a']|s]; [apply H|done..].
Qed.
Lemma wp_mono {A} (p : K A) (Q Q' : A -> kmem -> Prop) (R R' : kmem -> Prop) k :
  wp p Q R k -> (forall x k, Q x k -> Q' x k) -> (forall k, R k -> R' k) -> wp p Q' R' k.
Proof.
  intros H HQ HR a. specialize (H a). destruct (Spec.run present p k a) as [x [k' a']|m s|[k' a']|s]; auto.
Qed.
Lemma wp_fail {A} m (Q : A -> kmem -> Prop) R k : wp (fail m) Q R k.
Proof. by intros a. Qed.
Lemma wp_kget {A} (g : kmem -> A) Q R k : Q (g k) k -> wp (kget g) Q R k.
Proof. by intros H a. Qed.
Lemma wp_kset g Q R k : Q tt (g k) -> wp (kset g) Q R k.
Proof. by intros H a. Qed.
Lemma wp_sleep {A} (Q : A -> kmem -> Prop) (R : kmem -> Prop) k : R k -> wp sleep Q R k.
Proof. by intros H a. Qed.
Lemma wp_on_fs {A} (p : prog kfs A) Q (R : kmem -> Prop) k :
  (forall x y, Q x (set_fs y k)) -> (forall y, R (set_fs y k)) -> wp (on_fs p) Q R k.
Proof.
  intros HQ HR a. rewrite on_fs_run. by destruct (Spec.run present p (fs k) a) as [x [y b]|m [y b]|[y b]|[y b]].
Qed.
Lemma wp_file_at i Q R k : (forall f, ftab k !! i = Some f -> Q f k) -> wp (file_at i) Q R k.
Proof.
  intros H a. unfold file_at, kget. cbn [Spec.run mbind prog_bind]. destruct (ftab k !! i); [by apply H|done].
Qed.
Lemma wp_proc_at i Q R k : (forall p, procs k !! i = Some p -> Q p k) -> wp (proc_at i) Q R k.
Proof.
  intros H a. unfold proc_at, kget. cbn [Spec.run mbind prog_bind]. destruct (procs k !! i); [by apply H|done].
Qed.
Lemma wp_curproc Q R k : (forall i, cur k = Some i -> Q i k) -> wp curproc Q R k.
Proof.
  intros H a. unfold curproc, kget. cbn [Spec.run mbind prog_bind]. destruct (cur k); [by apply H|done].
Qed.

(** ** Routines that leave a part of the memory alone

    [keeps v p]: [p] changes nothing that [v] can see, whether it returns or
    goes to sleep. *)
Definition keeps {V A} (v : kmem -> V) (p : K A) : Prop :=
  forall k, wp p (fun _ k' => v k' = v k) (fun k' => v k' = v k) k.

Section keeps.
Context {V : Type} (v : kmem -> V).

Lemma keepsv_ret {A} (x : A) : keeps v (mret x).
Proof. intros k. by apply wp_ret. Qed.
Lemma keepsv_bind {A B} (p : K A) (f : A -> K B) : keeps v p -> (forall x, keeps v (f x)) -> keeps v (p ≫= f).
Proof.
  intros Hp Hf k. apply wp_bind. eapply wp_mono; [apply Hp| |done].
  intros x k' E. eapply wp_mono; [apply Hf|..]; intros; congruence.
Qed.
Lemma keepsv_fail {A} m : keeps v (fail m : K A).
Proof. intros k. apply wp_fail. Qed.
Lemma keepsv_sleep {A} : keeps v (sleep : K A).
Proof. intros k. by apply wp_sleep. Qed.
Lemma keepsv_kget {A} (g : kmem -> A) : keeps v (kget g).
Proof. intros k. by apply wp_kget. Qed.
Lemma keepsv_kset g : (forall k, v (g k) = v k) -> keeps v (kset g).
Proof. intros H k. by apply wp_kset. Qed.
Lemma keepsv_on_fs {A} (p : prog kfs A) : (forall x k, v (set_fs x k) = v k) -> keeps v (on_fs p).
Proof. intros H k. apply wp_on_fs; intros; apply H. Qed.
Lemma keepsv_file_at i : keeps v (file_at i).
Proof. intros k. by apply wp_file_at. Qed.
Lemma keepsv_proc_at i : keeps v (proc_at i).
Proof. intros k. by apply wp_proc_at. Qed.
Lemma keepsv_curproc : keeps v curproc.
Proof. intros k. by apply wp_curproc. Qed.
Lemma keepsv_pipe_at i : keeps v (pipe_at i).
Proof. apply keepsv_bind; [apply keepsv_kget|]. intros [p|]; [apply keepsv_ret|apply keepsv_fail]. Qed.
Lemma keepsv_msg_at i : keeps v (msg_at i).
Proof. apply keepsv_bind; [apply keepsv_kget|]. intros [p|]; [apply keepsv_ret|apply keepsv_fail]. Qed.

Lemma wp_keeps {A} (p : K A) (Q : A -> kmem -> Prop) (R : kmem -> Prop) k : keeps v p ->
  (forall x k', v k' = v k -> Q x k') -> (forall k', v k' = v k -> R k') -> wp p Q R k.
Proof. intros H HQ HR. eapply wp_mono; [apply H|..]; auto. Qed.
End keeps.
End wp.

#[export] Hint Resolve keepsv_ret keepsv_bind keepsv_fail keepsv_sleep keepsv_kget keepsv_kset keepsv_on_fs
  keepsv_file_at keepsv_proc_at keepsv_curproc keepsv_pipe_at keepsv_msg_at : wp.

(** Decompose a routine into its steps. *)
Ltac keeps :=
  repeat first
    [ apply keepsv_bind; [|intros ?]
    | match goal with
      | |- keeps _ _ (if ?b then _ else _) => destruct b
      | |- keeps _ _ (match ?x with _ => _ end) => destruct x
      end
    | solve [eauto with wp] ].
