(* ===== verification/Syscall.v ===== *)
(** System calls ([syscall.c], [sysfile.c] and the calls of [sysproc.c] that
    take arguments or move messages).

    The memory of the calling process is a function from addresses to bytes; what
    a call stores there is part of its result.  Paths and strings are the bytes
    before the NUL, as [fetchstr] finds them. *)

From S2P Require Import Prelude Params CString Bio Disk Log Fs FsOps Kernel File Proc.
Import BlockIO.

(** A call's value and what it stores in user memory: addresses with bytes. *)
Abbreviation sysret := (Z * list (Z * list Z))%type.

Definition set_nlink (n : Z) (ip : inode) : inode :=
  {| i_dev := i_dev ip; i_inum := i_inum ip; i_ref := i_ref ip; i_flags := i_flags ip;
     mountroot := mountroot ip; mountparent := mountparent ip; mountpoint := mountpoint ip;
     i_type := i_type ip; i_major := i_major ip; i_minor := i_minor ip; i_owner := i_owner ip;
     i_perms := i_perms ip; i_attrib := i_attrib ip; i_nlink := n; i_size := i_size ip;
     i_addrs := i_addrs ip |}.
Definition set_perms (p : Z) (ip : inode) : inode :=
  {| i_dev := i_dev ip; i_inum := i_inum ip; i_ref := i_ref ip; i_flags := i_flags ip;
     mountroot := mountroot ip; mountparent := mountparent ip; mountpoint := mountpoint ip;
     i_type := i_type ip; i_major := i_major ip; i_minor := i_minor ip; i_owner := i_owner ip;
     i_perms := p; i_attrib := i_attrib ip; i_nlink := i_nlink ip; i_size := i_size ip;
     i_addrs := i_addrs ip |}.
(** What [create] fills into a new inode. *)
Definition set_new (major minor owner : Z) (ip : inode) : inode :=
  {| i_dev := i_dev ip; i_inum := i_inum ip; i_ref := i_ref ip; i_flags := i_flags ip;
     mountroot := mountroot ip; mountparent := mountparent ip; mountpoint := mountpoint ip;
     i_type := i_type ip; i_major := s16 major; i_minor := s16 minor; i_owner := s16 owner;
     i_perms := Z.lor W_READ (Z.lor U_READ U_WRITE); i_attrib := i_attrib ip; i_nlink := 1; i_size := i_size ip;
     i_addrs := i_addrs ip |}.

Definition O_RDONLY : Z := 0.
Definition O_WRONLY : Z := 1.
Definition O_RDWR : Z := 2.
Definition O_CREATE : Z := 0x200.

Section calls.
Context (devsw_read : Z -> option (nat -> Z -> Z -> prog kfs (Z * list Z))).
Context (devsw_write : Z -> option (nat -> list Z -> Z -> Z -> prog kfs Z)).
Context (umem : Z -> Z).   (* the bytes of the process's memory *)

(** ** Fetching arguments *)

Definition ubytes (p n : Z) : list Z := (fun i => umem (p + Z.of_nat i)) <$> seq 0 (Z.to_nat n).

Definition this : K proc := c ← curproc; proc_at c.

Definition fetchint (addr : Z) : K (option Z) :=
  p ← this;
  if (sz p <=? addr) || (sz p <? u32 (addr + 4)) then mret None
  else mret (Some (s32 (le_num (ubytes addr 4)))).

(** The loop of [fetchstr]: the bytes from [s] to a NUL below [ep]. *)
Fixpoint ustr (fuel : nat) (s ep : Z) : option (list Z) :=
  match fuel with
  | O => None
  | S f =>
    if s <? ep then if umem s =? 0 then Some [] else cons (umem s) <$> ustr f (s + 1) ep
    else None
  end.
Definition fetchstr (addr : Z) : K (option (list Z)) :=
  p ← this;
  if sz p <=? addr then mret None else mret (ustr (Z.to_nat (sz p - addr)) addr (sz p)).

Definition argint (n : Z) : K (option Z) := p ← this; fetchint (u32 (tf_esp (tf p) + 4 + 4 * n)).

Definition argptr (n size : Z) : K (option Z) :=
  o ← argint n;
  match o with
  | None => mret None
  | Some i =>
    p ← this;
    if (sz p <=? u32 i) || (sz p <? u32 (u32 i + size)) then mret None else mret (Some (u32 i))
  end.

Definition argstr (n : Z) : K (option (list Z)) :=
  o ← argint n; match o with None => mret None | Some addr => fetchstr (u32 addr) end.

(** The descriptor and the open file. *)
Definition argfd (n : Z) : K (option (Z * nat)) :=
  o ← argint n;
  match o with
  | None => mret None
  | Some fd =>
    p ← this;
    match (if (fd <? 0) || (Z.of_nat NOFILE <=? fd) then None else mjoin (ofile p !! Z.to_nat fd)) with
    | Some f => mret (Some (fd, f))
    | None => seterr "EINOTOPEN" ;; mret None
    end
  end.

Definition fdalloc (f : nat) : K Z :=
  c ← curproc; p ← proc_at c;
  match scan (fun o => bool_decide (o = @None nat)) (ofile p) with
  | Some (fd, _) => upd_proc c (fun p => set_ofile (<[fd := Some f]> (ofile p)) p) ;; mret (Z.of_nat fd)
  | None => seterr "EIFSALLOC" ;; mret (-1)
  end.

(** ** Files *)

Definition sys_dup : K Z :=
  o ← argfd 0;
  match o with
  | None => mret (-1)
  | Some (_, f) =>
    fd ← fdalloc f;
    if fd <? 0 then mret (-1) else filedup f ;; mret fd
  end.

Definition sys_read : K sysret :=
  o ← argfd 0;
  match o with None => mret (-1, []) | Some (_, f) =>
  n ← argint 2;
  match n with None => mret (-1, []) | Some n =>
  q ← argptr 1 n;
  match q with None => mret (-1, []) | Some q =>
  r ← fileread devsw_read f n; mret (r.1, [(q, r.2)])
  end end end.

Definition sys_write : K Z :=
  o ← argfd 0;
  match o with None => mret (-1) | Some (_, f) =>
  n ← argint 2;
  match n with None => mret (-1) | Some n =>
  q ← argptr 1 n;
  match q with None => mret (-1) | Some q => filewrite devsw_write f (ubytes q n) n end end end.

(** The direction is fetched from the argument of the offset. *)
Definition sys_seek : K Z :=
  o ← argfd 0;
  match o with None => mret (-1) | Some (_, f) =>
  n ← argint 2;
  match n with None => mret (-1) | Some n =>
  d ← argint 2;
  match d with None => mret (-1) | Some d => fileseek f n d end end end.

Definition sys_close : K Z :=
  o ← argfd 0;
  match o with
  | None => mret (-1)
  | Some (fd, f) =>
    c ← curproc;
    upd_proc c (fun p => set_ofile (<[Z.to_nat fd := None]> (ofile p)) p) ;;
    fileclose f ;;
    mret 0
  end.

Definition sys_fstat : K (Z * option (Z * stat)) :=
  o ← argfd 0;
  match o with None => mret (-1, None) | Some (_, f) =>
  q ← argptr 1 24;
  match q with None => mret (-1, None) | Some q =>
  r ← filestat f;
  match r with Some st => mret (0, Some (q, st)) | None => mret (-1, None) end end end.

(** ** Names *)

Definition here : K (option where_) := p ← this; mret (Some {| p_rootdir := p_root p; p_cwd := cwd p |}).
Definition knamei_direct (path : list Z) : K (option nat) :=
  w ← here; on_fs (namei_direct devsw_read w path).
Definition knameiparent (path : list Z) : K (option nat * list Z) :=
  w ← here; on_fs (nameiparent devsw_read w path name_buf).
Definition knameiparent_direct (path : list Z) : K (option nat * list Z) :=
  w ← here; on_fs (nameiparent_direct devsw_read w path name_buf).

Definition start_op (i : nat) : K unit := d ← dev_of (Some i); on_fs (begin_op d).
Definition finish_op (i : nat) : K unit := d ← dev_of (Some i); on_fs (end_op d).

Definition relink (ip : nat) (by_ : Z) : K unit :=
  on_fs (iset ip (fun v => set_nlink (s16 (i_nlink v + by_)) v)) ;; on_fs (iupdate ip).

(** [bad:] of [sys_link]. *)
Definition link_bad (ip : nat) : K Z :=
  on_fs (ilock (Some ip)) ;; relink ip (-1) ;; on_fs (iunlockput (Some ip)) ;; finish_op ip ;; mret (-1).

Definition sys_link : K Z :=
  old ← argstr 0;
  match old with None => mret (-1) | Some old =>
  new ← argstr 1;
  match new with None => mret (-1) | Some new =>
  o ← knamei_direct old;
  match o with
  | None => seterr "EICANTFIND" ;; mret (-1)
  | Some ip =>
    start_op ip ;;
    on_fs (ilock (Some ip)) ;;
    v ← inode_at ip;
    if i_type v =? T_DIR then
      on_fs (iunlockput (Some ip)) ;; finish_op ip ;; seterr "EILNDIR" ;; mret (-1)
    else
    relink ip 1 ;;
    on_fs (iunlock (Some ip)) ;;
    '(od, name) ← knameiparent new;
    match od with
    | None => seterr "EINOPARENT" ;; link_bad ip
    | Some dp =>
      on_fs (ilock (Some dp)) ;;
      d ← inode_at dp; v ← inode_at ip;
      r ← (if negb (i_dev d =? i_dev v) then mret (-1) else on_fs (dirlink devsw_read devsw_write dp name (i_inum v)));
      if r <? 0 then on_fs (iunlockput (Some dp)) ;; seterr "EIDIFFDEV" ;; link_bad ip
      else
      on_fs (iunlockput (Some dp)) ;;
      on_fs (iput (Some ip)) ;;
      finish_op ip ;;
      mret 0
    end
  end end end.

Fixpoint isdirempty_loop (dp : nat) (offs : list Z) : prog kfs bool :=
  match offs with
  | [] => mret true
  | off :: offs' =>
    '(r, de) ← readi devsw_read dp off (Z.of_nat DIRENT_SIZE);
    if negb (r =? Z.of_nat DIRENT_SIZE) then fail "isdirempty: readi" else
    if negb (de_inum de =? 0) then mret false else isdirempty_loop dp offs'
  end.
(** The entries after "." and "..". *)
Definition isdirempty (dp : nat) : prog kfs bool :=
  v ← iat dp; isdirempty_loop dp (drop 2 (dir_offs (i_size v))).

Definition dot : list Z := [46; 0].

(** [bad:] of [sys_unlink]. *)
Definition unlink_bad (dp : nat) : K Z := on_fs (iunlockput (Some dp)) ;; finish_op dp ;; mret (-1).

Definition sys_unlink : K Z :=
  path ← argstr 0;
  match path with None => mret (-1) | Some path =>
  '(od, name) ← knameiparent_direct path;
  match od with
  | None => seterr "EINOPARENT" ;; mret (-1)
  | Some dp =>
    start_op dp ;;
    on_fs (ilock (Some dp)) ;;
    if bool_decide (namecmp name dot = Some 0) || bool_decide (namecmp name dotdot = Some 0)
    then seterr "EINODOTS" ;; unlink_bad dp else
    r ← on_fs (dirlookup devsw_read dp name);
    match r with
    | None => seterr "EICANTFIND" ;; unlink_bad dp
    | Some (ip, off) =>
      on_fs (ilock (Some ip)) ;;
      x ← checkinodeperm ip OP_UNLINK;
      if negb (x =? 0) then seterr "EINOUNLINK" ;; unlink_bad dp else
      v ← inode_at ip;
      if i_nlink v <? 1 then fail "unlink: nlink < 1" else
      empty ← (if i_type v =? T_DIR then on_fs (isdirempty ip) else mret true);
      if negb empty then on_fs (iunlockput (Some ip)) ;; seterr "EIDIRFULL" ;; unlink_bad dp else
      w ← on_fs (writei devsw_write dp (replicate DIRENT_SIZE 0) off (Z.of_nat DIRENT_SIZE));
      if negb (w =? Z.of_nat DIRENT_SIZE) then fail "unlink: writei" else
      (if i_type v =? T_DIR then relink dp (-1) else mret tt) ;;
      on_fs (iunlockput (Some dp)) ;;
      relink ip (-1) ;;
      on_fs (iunlockput (Some ip)) ;;
      finish_op dp ;;
      mret 0
    end
  end end.

(** The new inode, locked; its parent's transaction is left open. *)
Definition create (path : list Z) (type major minor : Z) (beginop : bool) : K (option nat) :=
  '(od, name) ← knameiparent_direct path;
  match od with
  | None => mret None
  | Some dp =>
    (if beginop then start_op dp else mret tt) ;;
    on_fs (ilock (Some dp)) ;;
    r ← on_fs (dirlookup devsw_read dp name);
    match r with
    | Some (ip, _) =>
      on_fs (iunlockput (Some dp)) ;;
      on_fs (ilock (Some ip)) ;;
      v ← inode_at ip;
      if (type =? T_FILE) && (i_type v =? T_FILE) then mret (Some ip)
      else on_fs (iunlockput (Some ip)) ;; mret None
    | None =>
      d ← dev_of (Some dp);
      o ← on_fs (ialloc d type);
      match o with
      | None => seterr "EIFSNOINODE" ;; mret None
      | Some ip =>
        on_fs (ilock (Some ip)) ;;
        p ← this;
        on_fs (iset ip (set_new major minor (uid p))) ;;
        on_fs (iupdate ip) ;;
        dots ← (if type =? T_DIR then
          relink dp 1 ;;
          v ← inode_at ip;
          a ← on_fs (dirlink devsw_read devsw_write ip dot (i_inum v));
          if a <? 0 then mret false else
          dv ← inode_at dp;
          b ← on_fs (dirlink devsw_read devsw_write ip dotdot (i_inum dv));
          mret (0 <=? b)
        else mret true);
        if negb dots then seterr "EINODOTS" ;; mret None else
        v ← inode_at ip;
        l ← on_fs (dirlink devsw_read devsw_write dp name (i_inum v));
        if l <? 0 then fail "create: dirlink" else
        on_fs (iunlockput (Some dp)) ;;
        mret (Some ip)
      end
    end
  end.

Definition omode_has (omode m : Z) : bool := Z.land omode m =? m.
Definition canread (f : nat) (omode : Z) : K bool :=
  c ← checkfileperm f OP_READ;
  mret ((c =? 0) && (negb (omode_has omode O_WRONLY) || omode_has omode O_RDWR)).
Definition canwrite (f : nat) (omode : Z) : K bool :=
  c ← checkfileperm f OP_WRITE;
  mret ((c =? 0) && (omode_has omode O_WRONLY || omode_has omode O_RDWR)).

(** The inode [sys_open] works on, locked in a transaction. *)
Definition open_inode (path : list Z) (omode : Z) : K (option nat) :=
  if negb (Z.land omode O_CREATE =? 0) then
    o ← create path T_FILE 0 0 true;
    match o with None => seterr "EICANTOPEN" ;; mret None | Some ip => mret (Some ip) end
  else
    o ← knamei_direct path;
    match o with
    | None => seterr "EICANTFIND" ;; mret None
    | Some ip =>
      start_op ip ;;
      on_fs (ilock (Some ip)) ;;
      c ← checkinodeperm ip OP_OPEN;
      if negb (c =? 0) then
        seterr "ESNOPERMS" ;; on_fs (iunlockput (Some ip)) ;; finish_op ip ;; mret None
      else
      v ← inode_at ip;
      if (i_type v =? T_DIR) && negb (omode =? O_RDONLY) then
        on_fs (iunlockput (Some ip)) ;; finish_op ip ;; seterr "EIUNWRITE" ;; mret None
      else mret (Some ip)
    end.

Definition open_file (ip : nat) (f : file) : file :=
  set_f_off 0 (set_f_ip (Some ip) (set_f_type FD_INODE f)).

Definition sys_open : K Z :=
  path ← argstr 0;
  match path with None => mret (-1) | Some path =>
  omode ← argint 1;
  match omode with None => mret (-1) | Some omode =>
  o ← open_inode path omode;
  match o with
  | None => mret (-1)
  | Some ip =>
    ofl ← filealloc;
    fd ← (match ofl with Some f => fdalloc f | None => mret (-1) end);
    if fd <? 0 then
      close_opt ofl ;; on_fs (iunlockput (Some ip)) ;; finish_op ip ;; seterr "EIFSALLOC" ;; mret (-1)
    else
    match ofl with
    | None => mret (-1)
    | Some f =>
      on_fs (iunlock (Some ip)) ;;
      finish_op ip ;;
      upd_file f (open_file ip) ;;
      r ← canread f omode;
      upd_file f (set_f_readable r) ;;
      w ← canwrite f omode;
      upd_file f (set_f_writable w) ;;
      mret fd
    end
  end end end.

(** When the path argument is bad [ip] is read uninitialised. *)
Definition bad_ip {A} : K A := fail "uninitialised inode pointer".

Definition sys_mkdir : K Z :=
  path ← argstr 0;
  match path with None => bad_ip | Some path =>
  o ← create path T_DIR 0 0 true;
  match o with
  | None => seterr "EINOCREATE" ;; mret (-1)
  | Some ip => on_fs (iunlockput (Some ip)) ;; finish_op ip ;; mret 0
  end end.

Definition sys_mknod : K Z :=
  p ← this;
  if -1 <? uid p then seterr "ESNOPERMS" ;; mret (-1) else
  path ← argstr 0;
  match path with None => bad_ip | Some path =>
  ma ← argint 1;
  match ma with None => bad_ip | Some major =>
  mi ← argint 2;
  match mi with None => bad_ip | Some minor =>
  o ← create path T_DEV (s16 major) (s16 minor) true;
  match o with
  | None => seterr "EINOCREATE" ;; mret (-1)
  | Some ip =>
    on_fs (iset ip (set_perms (Z.lor U_READ U_WRITE))) ;;
    on_fs (iunlockput (Some ip)) ;; finish_op ip ;; mret 0
  end end end end.

Definition sys_chdir : K Z :=
  path ← argstr 0;
  match path with None => bad_ip | Some path =>
  o ← knamei_direct path;
  match o with
  | None => seterr "EICANTFIND" ;; mret (-1)
  | Some ip =>
    start_op ip ;;
    on_fs (ilock (Some ip)) ;;
    v ← inode_at ip;
    if negb (i_type v =? T_DIR) then
      on_fs (iunlockput (Some ip)) ;; finish_op ip ;; seterr "EIBADTYPE" ;; mret (-1)
    else
    on_fs (iunlock (Some ip)) ;;
    c ← curproc; p ← proc_at c;
    on_fs (iput (cwd p)) ;;
    finish_op ip ;;
    upd_proc c (set_cwd (Some ip)) ;;
    mret 0
  end end.

Definition sys_pipe : K sysret :=
  q ← argptr 0 8;
  match q with None => mret (-1, []) | Some q =>
  r ← pipealloc;
  match r with
  | None => mret (-1, [])
  | Some (rf, wf) =>
    fd0 ← fdalloc rf;
    fd1 ← (if fd0 <? 0 then mret (-1) else fdalloc wf);
    if fd1 <? 0 then
      (if 0 <=? fd0 then c ← curproc; upd_proc c (fun p => set_ofile (<[Z.to_nat fd0 := None]> (ofile p)) p) else mret tt) ;;
      fileclose rf ;; fileclose wf ;; mret (-1, [])
    else mret (0, [(q, le_bytes 4 fd0); (q + 4, le_bytes 4 fd1)])
  end end.

Definition sys_chperms : K Z :=
  fname ← argstr 0;
  match fname with None => mret (-1) | Some fname =>
  m ← argint 1;
  match m with None => mret (-1) | Some rmode =>
  pm ← argint 2;
  match pm with None => mret (-1) | Some perms =>
  o ← knamei_direct fname;
  match o with
  | None => seterr "EICANTFIND" ;; mret (-1)
  | Some ip =>
    start_op ip ;;
    on_fs (ilock (Some ip)) ;;
    v ← inode_at ip;
    p ← this;
    single ← kget singleuser;
    if rmode =? 0 then on_fs (iunlockput (Some ip)) ;; finish_op ip ;; mret (i_perms v)
    else if rmode =? 1 then
      if negb (i_owner v =? uid p) && negb single && negb (uid p =? -1) then
        seterr "ESNOPERMS" ;; on_fs (iunlockput (Some ip)) ;; finish_op ip ;; mret (-1)
      else
        on_fs (iset ip (set_perms (u8 (s16 perms)))) ;;
        on_fs (iupdate ip) ;;
        on_fs (iunlockput (Some ip)) ;; finish_op ip ;; mret 0
    else on_fs (iunlockput (Some ip)) ;; finish_op ip ;; seterr "EKBADARG" ;; mret (-1)
  end end end end.

(** ** Processes and messages *)

Definition sys_kill : K Z := o ← argint 0; match o with None => mret (-1) | Some pid => kill pid end.
Definition sys_chuser : K Z := o ← argint 0; match o with None => mret (-1) | Some u => chuser u end.
Definition sys_chsystem : K Z := o ← argint 0; match o with None => mret (-1) | Some s => chsystem s end.
Definition sys_clone : K Z := o ← argint 0; match o with None => mret (-1) | Some s => clone (u32 s) end.

Definition sys_sendmsg : K Z :=
  pid ← argint 0;
  match pid with None => mret (-1) | Some pid =>
  n ← argint 2;
  match n with None => mret (-1) | Some size =>
  q ← argptr 1 size;
  match q with None => mret (-1) | Some q =>
  o ← findpid pid;
  match o with
  | None => mret 0
  | Some i =>
    a ← alloc;
    if negb a then fail "nil message" else
    b ← alloc;
    if negb b then fail "nil message data" else
    m ← new_addr;
    set_msg m {| m_size := u32 size; m_data := ubytes q size; m_next := None |} ;;
    psendmsg i m ;;
    mret 0
  end end end end.

Definition sys_recvmsg : K sysret :=
  n ← argint 1;
  match n with None => mret (-1, []) | Some size =>
  q ← argptr 0 size;
  match q with None => mret (-1, []) | Some q =>
  m ← precvmsg;
  v ← msg_at m;
  let cpysize := if m_size v <? u32 size then m_size v else u32 size in
  kset (fun k => set_msgs (delete m (msgs k)) k) ;;
  mret (0, [(q, take (Z.to_nat cpysize) (m_data v))])
  end end.
End calls.
