(* ===== verification/SyscallFacts.v ===== *)
(** System calls: which user addresses the kernel touches, and the reference
    counts of open files. *)

From S2P Require Import Prelude Params CString Bio Disk Log Fs FsOps Kernel File Proc Wp Syscall.
Import BlockIO.

(** ** Reference counts *)

(** What the calls on descriptors depend on: who runs, every process's
    descriptors, and each file's count and type. *)
Abbreviation fdmap := (list (list (option nat)) * list (Z * fdtype))%type.
Definition fdview (k : kmem) : option nat * fdmap :=
  (cur k, (ofile <$> procs k, (fun f => (f_ref f, f_type f)) <$> ftab k)).

Definition fdcount (i : nat) (l : list (option nat)) : nat := length (filter (fun o => o = Some i) l).
Definition fdcounts (i : nat) (os : list (list (option nat))) : nat := sum_list (fdcount i <$> os).

(** Every file's count is the number of descriptors that refer to it, in all
    processes; an unreferenced slot has no type; no descriptor dangles. *)
Record fd_inv (v : fdmap) : Prop := {
  fd_refs : forall i r t, v.2 !! i = Some (r, t) -> r = Z.of_nat (fdcounts i v.1);
  fd_free : forall i r t, v.2 !! i = Some (r, t) -> r = 0 -> t = FD_NONE;
  fd_valid : forall o i, o ∈ v.1 -> Some i ∈ o -> (i < length v.2)%nat;
}.
Definition fd_ok (k : kmem) : Prop := fd_inv (fdview k).2.

(** *** The invariant on descriptors and counts *)

Lemma fdcount_take i f o fd : o !! fd = Some None ->
  fdcount i (<[fd := Some f]> o) = (fdcount i o + if decide (i = f) then 1 else 0)%nat.
Proof.
  unfold fdcount. revert fd. induction o as [|x o IH]; intros [|fd] H; [done..| |].
  - injection H as ->. change (<[0%nat := Some f]> (None :: o)) with (Some f :: o). rewrite !filter_cons.
    repeat destruct (decide _); try congruence; cbn [length]; lia.
  - change (<[S fd := Some f]> (x :: o)) with (x :: <[fd := Some f]> o). rewrite !filter_cons. specialize (IH fd H).
    destruct (decide (x = Some i)); cbn [length]; lia.
Qed.
Lemma fdcount_none i o : (forall x, x ∈ o -> x = None) -> fdcount i o = 0%nat.
Proof.
  unfold fdcount. induction o as [|x o IH]; intros H; [done|]. rewrite filter_cons, (H x) by by left.
  rewrite decide_False by done. apply IH. intros y Hy. apply H. by right.
Qed.
Lemma fdcount_drop i f o fd : o !! fd = Some (Some f) ->
  fdcount i o = (fdcount i (<[fd := None]> o) + if decide (i = f) then 1 else 0)%nat.
Proof.
  intros H. rewrite <- (list_insert_id o fd (Some f) H) at 1. rewrite <- (list_insert_insert_eq o fd (Some f) None).
  apply fdcount_take. apply list_lookup_insert_eq. by eapply lookup_lt_Some.
Qed.
Lemma fdcounts_insert i os c o o' : os !! c = Some o ->
  (fdcounts i (<[c := o']> os) + fdcount i o = fdcounts i os + fdcount i o')%nat.
Proof.
  unfold fdcounts. revert c. induction os as [|x os IH]; intros [|c] H; [done..| |].
  - injection H as ->. cbn. lia.
  - change (<[S c := o']> (x :: os)) with (x :: <[c := o']> os). specialize (IH c H). rewrite !fmap_cons. cbn [sum_list]. lia.
Qed.

Lemma inv_take os fs c o fd f r t : fd_inv (os, fs) -> os !! c = Some o -> o !! fd = Some None -> fs !! f = Some (r, t) ->
  fd_inv (<[c := <[fd := Some f]> o]> os, <[f := (r + 1, t)]> fs).
Proof.
  intros [H1 H2 H3] Hc Ho Hf. cbn [fst snd] in *. split; cbn [fst snd].
  - intros i r' t' Hi. pose proof (fdcounts_insert i os c o (<[fd := Some f]> o) Hc) as E. rewrite (fdcount_take i f o fd Ho) in E.
    apply list_insert_inv in Hi as [[-> [= -> ->]]|[Hne Hi]].
    + rewrite decide_True in E by done. rewrite (H1 _ _ _ Hf). lia.
    + rewrite decide_False in E by done. rewrite (H1 _ _ _ Hi). lia.
  - intros i r' t' Hi ->. apply list_insert_inv in Hi as [[-> [= E ->]]|[Hne Hi]]; [|by eapply H2].
    specialize (H1 _ _ _ Hf). lia.
  - intros o' i Ho' Hi. rewrite length_insert. apply list_elem_of_lookup in Ho' as [j Hj].
    apply list_insert_inv in Hj as [[-> ->]|[_ Hj]].
    + apply list_elem_of_lookup in Hi as [g Hg]. apply list_insert_inv in Hg as [[_ [= ->]]|[_ Hg]].
      * by eapply lookup_lt_Some.
      * eapply H3; eapply list_elem_of_lookup; eauto.
    + eapply H3; [eapply list_elem_of_lookup; eauto|done].
Qed.

(** The count of a file after one reference is given back. *)
Definition closed (r : Z) (t : fdtype) : Z * fdtype := if 0 <? r - 1 then (r - 1, t) else (0, FD_NONE).

Lemma inv_drop os fs c o fd f r t : fd_inv (os, fs) -> os !! c = Some o -> o !! fd = Some (Some f) -> fs !! f = Some (r, t) ->
  fd_inv (<[c := <[fd := None]> o]> os, <[f := closed r t]> fs).
Proof.
  intros [H1 H2 H3] Hc Ho Hf. cbn [fst snd] in *. split; cbn [fst snd].
  - intros i r' t' Hi. pose proof (fdcounts_insert i os c o (<[fd := None]> o) Hc) as E. rewrite (fdcount_drop i f o fd Ho) in E.
    apply list_insert_inv in Hi as [[-> Er]|[Hne Hi]].
    + rewrite decide_True in E by done. specialize (H1 _ _ _ Hf). unfold closed in Er.
      destruct (Z.ltb_spec 0 (r - 1)); injection Er as -> ->; lia.
    + rewrite decide_False in E by done. rewrite (H1 _ _ _ Hi). lia.
  - intros i r' t' Hi ->. apply list_insert_inv in Hi as [[-> Er]|[Hne Hi]]; [|by eapply H2].
    unfold closed in Er. destruct (Z.ltb_spec 0 (r - 1)); [injection Er as ? ->; lia|by injection Er as ->].
  - intros o' i Ho' Hi. rewrite length_insert. apply list_elem_of_lookup in Ho' as [j Hj].
    apply list_insert_inv in Hj as [[-> ->]|[_ Hj]].
    + apply list_elem_of_lookup in Hi as [g Hg]. apply list_insert_inv in Hg as [[_ Hg]|[_ Hg]]; [done|].
      eapply H3; eapply list_elem_of_lookup; eauto.
    + eapply H3; [eapply list_elem_of_lookup; eauto|done].
Qed.

Lemma inv_retype os fs f r t t' : fd_inv (os, fs) -> fs !! f = Some (r, t) -> r <> 0 -> fd_inv (os, <[f := (r, t')]> fs).
Proof.
  intros [H1 H2 H3] Hf Hr. cbn [fst snd] in *. split; cbn [fst snd].
  - intros i r' t0 Hi. apply list_insert_inv in Hi as [[-> [= -> ->]]|[_ Hi]]; by eapply H1.
  - intros i r' t0 Hi ->. apply list_insert_inv in Hi as [[-> [= <- ->]]|[_ Hi]]; [done|by eapply H2].
  - intros o i Ho Hi. rewrite length_insert. by eapply H3.
Qed.
(** A new file of any type, with its first descriptor. *)
Lemma inv_new os fs c o fd f t t' : fd_inv (os, fs) -> os !! c = Some o -> o !! fd = Some None -> fs !! f = Some (0, t) ->
  fd_inv (<[c := <[fd := Some f]> o]> os, <[f := (1, t')]> fs).
Proof.
  intros HI Hc Ho Hf. pose proof (inv_take _ _ _ _ _ _ _ _ HI Hc Ho Hf) as H.
  rewrite <- (list_insert_insert_eq fs f (1, t') (0 + 1, t)).
  eapply inv_retype; [exact H|apply list_lookup_insert_eq; by eapply lookup_lt_Some|done].
Qed.

Section fds.
Context (present : Z -> bool).
Abbreviation keepfd := (keeps present fdview).

(** *** Routines that move no descriptor *)

Lemma fdview_upd_proc i g k : (forall p, ofile (g p) = ofile p) -> fdview (set_procs (alter g i (procs k)) k) = fdview k.
Proof.
  intros H. unfold fdview. cbn [procs set_procs ftab cur]. do 2 f_equal. apply list_eq. intros j. rewrite !list_lookup_fmap.
  destruct (decide (i = j)) as [<-|Hj]; [|by rewrite list_lookup_alter_ne].
  rewrite list_lookup_alter_eq. destruct (procs k !! i); cbn; [by rewrite H|done].
Qed.
Lemma fdview_upd_file i g k : (forall f, f_ref (g f) = f_ref f /\ f_type (g f) = f_type f) ->
  fdview (set_ftab (alter g i (ftab k)) k) = fdview k.
Proof.
  intros H. unfold fdview. cbn [procs set_ftab ftab cur]. do 2 f_equal. apply list_eq. intros j. rewrite !list_lookup_fmap.
  destruct (decide (i = j)) as [<-|Hj]; [|by rewrite list_lookup_alter_ne].
  rewrite list_lookup_alter_eq. destruct (ftab k !! i) as [f|]; cbn; [|done]. by destruct (H f) as [-> ->].
Qed.
Lemma keepfd_upd_proc i g : (forall p, ofile (g p) = ofile p) -> keepfd (upd_proc i g).
Proof. intros H. apply keepsv_kset. intros k. by apply fdview_upd_proc. Qed.
Lemma keepfd_upd_file i g : (forall f, f_ref (g f) = f_ref f /\ f_type (g f) = f_type f) -> keepfd (upd_file i g).
Proof. intros H. apply keepsv_kset. intros k. by apply fdview_upd_file. Qed.
Lemma keepfd_seterr m : keepfd (seterr m).
Proof. apply keepsv_bind; [apply keepsv_curproc|]. intros i. by apply keepfd_upd_proc. Qed.
Lemma keepfd_wakeup c : keepfd (wakeup c).
Proof.
  apply keepsv_kset. intros k. unfold fdview. cbn [procs set_procs ftab cur]. do 2 f_equal. rewrite <- list_fmap_compose.
  apply list_fmap_ext. intros i p _. unfold wake, compose. by destruct (_ && _).
Qed.
Lemma keepfd_ksleep {A} c : keepfd (ksleep c : K A).
Proof.
  apply keepsv_bind; [apply keepsv_curproc|]. intros i. apply keepsv_bind; [by apply keepfd_upd_proc|]. intros _. apply keepsv_sleep.
Qed.
Lemma keepfd_set_pipe i p : keepfd (set_pipe i p).
Proof. by apply keepsv_kset. Qed.
Lemma keepfd_on_fs {A} (p : prog kfs A) : keepfd (on_fs p).
Proof. by apply keepsv_on_fs. Qed.
#[local] Hint Resolve keepfd_upd_proc keepfd_upd_file keepfd_seterr keepfd_wakeup keepfd_ksleep keepfd_set_pipe keepfd_on_fs : wp.

Lemma keepfd_pipeclose p w : keepfd (pipeclose p w).
Proof. unfold pipeclose. keeps. Qed.
Lemma keepfd_dev_of i : keepfd (dev_of i).
Proof. unfold dev_of, inode_at. keeps. Qed.
Lemma keepfd_inode_at i : keepfd (inode_at i).
Proof. apply keepfd_on_fs. Qed.
#[local] Hint Resolve keepfd_pipeclose keepfd_dev_of keepfd_inode_at : wp.
Lemma keepfd_checkinodeperm i op : keepfd (checkinodeperm i op).
Proof. unfold checkinodeperm. keeps. Qed.
#[local] Hint Resolve keepfd_checkinodeperm : wp.
Lemma keepfd_checkfileperm i op : keepfd (checkfileperm i op).
Proof. unfold checkfileperm. keeps. Qed.
#[local] Hint Resolve keepfd_checkfileperm : wp.
Lemma keepfd_pipewrite_loop p src : keepfd (pipewrite_loop p src).
Proof. induction src as [|c src IH]; cbn [pipewrite_loop]; keeps. Qed.
#[local] Hint Resolve keepfd_pipewrite_loop : wp.
Lemma keepfd_pipewrite p src n : keepfd (pipewrite p src n).
Proof. unfold pipewrite. keeps. Qed.
Lemma keepfd_piperead p n : keepfd (piperead p n).
Proof. unfold piperead. keeps. Qed.
#[local] Hint Resolve keepfd_pipewrite keepfd_piperead : wp.

(** *** Routines that move descriptors *)

Lemma fdview_set_file i g k f : ftab k !! i = Some f ->
  fdview (set_ftab (alter g i (ftab k)) k) =
  (cur k, (ofile <$> procs k, <[i := (f_ref (g f), f_type (g f))]> ((fun f => (f_ref f, f_type f)) <$> ftab k))).
Proof.
  intros H. unfold fdview. cbn [procs set_ftab ftab cur]. do 2 f_equal. apply list_eq. intros j. rewrite list_lookup_fmap.
  destruct (decide (i = j)) as [<-|Hj].
  - rewrite list_lookup_alter_eq, H, list_lookup_insert_eq; [done|]. rewrite length_fmap. by eapply lookup_lt_Some.
  - rewrite list_lookup_alter_ne, list_lookup_insert_ne, list_lookup_fmap by done. done.
Qed.
Lemma fdview_set_fds c fd x k p : procs k !! c = Some p ->
  fdview (set_procs (alter (fun p => set_ofile (<[fd := x]> (ofile p)) p) c (procs k)) k) =
  (cur k, (<[c := <[fd := x]> (ofile p)]> (ofile <$> procs k), (fun f => (f_ref f, f_type f)) <$> ftab k)).
Proof.
  intros H. unfold fdview. cbn [procs set_procs ftab cur]. do 2 f_equal. apply list_eq. intros j. rewrite list_lookup_fmap.
  destruct (decide (c = j)) as [<-|Hj].
  - rewrite list_lookup_alter_eq, H, list_lookup_insert_eq; [done|]. rewrite length_fmap. by eapply lookup_lt_Some.
  - rewrite list_lookup_alter_ne, list_lookup_insert_ne, list_lookup_fmap by done. done.
Qed.
Lemma fdview_file cu os fs k i f : fdview k = (cu, (os, fs)) -> ftab k !! i = Some f -> fs !! i = Some (f_ref f, f_type f).
Proof. intros [= <- <- <-] H. by rewrite list_lookup_fmap, H. Qed.
Lemma fdview_proc cu os fs k c p : fdview k = (cu, (os, fs)) -> procs k !! c = Some p -> os !! c = Some (ofile p).
Proof. intros [= <- <- <-] H. by rewrite list_lookup_fmap, H. Qed.

Lemma wp_seterr m Q R k : (forall k', fdview k' = fdview k -> Q tt k') -> wp present (seterr m) Q R k.
Proof.
  intros H. unfold seterr. apply wp_bind, wp_curproc. intros i _. apply wp_kset, H. by apply fdview_upd_proc.
Qed.

Lemma wp_fdalloc f Q R k cu os fs : fdview k = (cu, (os, fs)) ->
  (forall c o fd k', cu = Some c -> os !! c = Some o -> o !! fd = Some None ->
     fdview k' = (cu, (<[c := <[fd := Some f]> o]> os, fs)) -> Q (Z.of_nat fd) k') ->
  (forall k', fdview k' = fdview k -> Q (-1) k') -> wp present (fdalloc f) Q R k.
Proof.
  intros E HS HN. unfold fdalloc. apply wp_bind, wp_curproc. intros c Hc. apply wp_bind, wp_proc_at. intros p Hp.
  destruct (scan _ _) as [[fd o]|] eqn:Es.
  - apply scan_Some in Es as (Hfd & Ho & _). apply bool_decide_eq_true in Ho. subst o.
    apply wp_bind, wp_kset, wp_ret. eapply HS; [|by eapply fdview_proc|exact Hfd|].
    + injection E as <- _ _. done.
    + rewrite (fdview_set_fds _ _ _ _ _ Hp). by injection E as <- <- <-.
  - apply wp_bind, wp_seterr. intros k' E'. by apply wp_ret, HN.
Qed.

Lemma wp_filealloc Q R k cu os fs : fdview k = (cu, (os, fs)) ->
  (forall i t k', fs !! i = Some (0, t) -> fdview k' = (cu, (os, <[i := (1, t)]> fs)) -> Q (Some i) k') ->
  Q None k -> wp present filealloc Q R k.
Proof.
  intros E HS HN. unfold filealloc, kscan. apply wp_bind, wp_kget. destruct (scan _ _) as [[i f]|] eqn:Es.
  - apply scan_after in Es as [Hi Hr]. apply wp_bind, wp_kset, wp_ret.
    apply (HS i (f_type f)); [rewrite <- Hr; by eapply fdview_file|].
    rewrite (fdview_set_file _ _ _ _ Hi). by injection E as <- <- <-.
  - by apply wp_ret.
Qed.

Lemma wp_filedup i Q R k cu os fs : fdview k = (cu, (os, fs)) ->
  (forall r t k', fs !! i = Some (r, t) -> fdview k' = (cu, (os, <[i := (r + 1, t)]> fs)) -> Q i k') ->
  wp present (filedup i) Q R k.
Proof.
  intros E H. unfold filedup. apply wp_bind, wp_file_at. intros f Hf. destruct (_ <? _); [apply wp_fail|].
  apply wp_bind, wp_kset, wp_ret. eapply H; [by eapply fdview_file|].
  rewrite (fdview_set_file _ _ _ _ Hf). by injection E as <- <- <-.
Qed.

Lemma wp_pipeclose p w Q R k : (forall k', fdview k' = fdview k -> Q tt k') -> wp present (pipeclose p w) Q R k.
Proof.
  intros H. unfold pipeclose. apply wp_bind. unfold pipe_at. apply wp_bind, wp_kget.
  destruct (pipes k !! p) as [v|]; [|apply wp_fail]. apply wp_ret, wp_bind, wp_kset, wp_bind. unfold wakeup. apply wp_kset.
  assert (forall c k, fdview (set_procs (wake c <$> procs k) k) = fdview k) as Hw.
  { intros c k0. unfold fdview. cbn [procs set_procs ftab cur]. do 2 f_equal. rewrite <- list_fmap_compose.
    apply list_fmap_ext. intros i q _. unfold wake, compose. by destruct (_ && _). }
  destruct (_ && _); [apply wp_kset|apply wp_ret]; apply H; exact (Hw _ (set_pipes _ k)).
Qed.

(** Only the inode's transaction can put the caller to sleep. *)
Lemma wp_fileclose i Q (R : kmem -> Prop) k cu os fs : fdview k = (cu, (os, fs)) ->
  (forall r t k', fs !! i = Some (r, t) -> fdview k' = (cu, (os, <[i := closed r t]> fs)) -> Q tt k') ->
  (forall r k', fs !! i = Some (r, FD_INODE) -> fdview k' = (cu, (os, <[i := closed r FD_INODE]> fs)) -> R k') ->
  wp present (fileclose i) Q R k.
Proof.
  intros E HQ HR. unfold fileclose. apply wp_bind, wp_file_at. intros f Hf. pose proof (fdview_file _ _ _ _ _ _ E Hf) as Hi.
  destruct (_ <? 1); [apply wp_fail|]. destruct (0 <? f_ref f - 1) eqn:Er.
  - apply wp_kset. eapply HQ; [exact Hi|]. rewrite (fdview_set_file _ _ _ _ Hf). unfold closed. rewrite Er. by injection E as <- <- <-.
  - apply wp_bind, wp_kset.
    assert (fdview (set_ftab (alter (fun f => set_f_type FD_NONE (set_f_ref 0 f)) i (ftab k)) k) = (cu, (os, <[i := closed (f_ref f) (f_type f)]> fs))) as E'.
    { rewrite (fdview_set_file _ _ _ _ Hf). unfold closed. rewrite Er. by injection E as <- <- <-. }
    destruct (f_type f) eqn:Et.
    + apply wp_ret. by eapply HQ.
    + destruct (f_pipe f); [|apply wp_fail]. apply wp_pipeclose. intros k' Ek. eapply HQ; [exact Hi|congruence].
    + apply (wp_keeps present fdview).
      * keeps.
      * intros [] k' Ek. eapply HQ; [exact Hi|congruence].
      * intros k' Ek. eapply HR; [exact Hi|congruence].
Qed.

(** A file that nobody else has seen is given back as it was. *)
Lemma wp_close_new i t Q R k cu os fs : fdview k = (cu, (os, <[i := (1, t)]> fs)) -> fs !! i = Some (0, t) -> t = FD_NONE ->
  (forall k', fdview k' = (cu, (os, fs)) -> Q tt k') -> wp present (fileclose i) Q R k.
Proof.
  intros E Hi -> HQ. assert (<[i := (1, FD_NONE)]> fs !! i = Some (1, FD_NONE)) as Hi'.
  { apply list_lookup_insert_eq. by eapply lookup_lt_Some. }
  eapply wp_fileclose; [exact E|intros r t k' H|intros r k' H]; rewrite Hi' in H; [injection H as <- <-|done].
  - intros Ek. apply HQ. rewrite Ek. cbn. by rewrite list_insert_insert_eq, list_insert_id.
Qed.

Lemma wp_alloc Q R k : (forall ok k', fdview k' = fdview k -> Q ok k') -> wp present alloc Q R k.
Proof.
  intros H. unfold alloc. apply wp_bind, wp_kget. destruct (oracle k); [by apply wp_ret, H|]. by apply wp_bind, wp_kset, wp_ret, H.
Qed.
Lemma wp_new_addr Q R k : (forall n k', fdview k' = fdview k -> Q n k') -> wp present new_addr Q R k.
Proof. intros H. unfold new_addr. apply wp_bind, wp_kget, wp_bind, wp_kset, wp_ret. by apply H. Qed.

(** Changing a file's type, not its count. *)
Lemma wp_retype i g ty Q R k cu os fs r t : fdview k = (cu, (os, fs)) -> fs !! i = Some (r, t) ->
  (forall f, f_ref (g f) = f_ref f /\ f_type (g f) = ty) ->
  (forall k', fdview k' = (cu, (os, <[i := (r, ty)]> fs)) -> Q tt k') -> wp present (upd_file i g) Q R k.
Proof.
  intros E Hi Hg HQ. apply wp_kset, HQ. pose proof E as E'. injection E' as <- <- <-. rewrite list_lookup_fmap in Hi.
  destruct (ftab k !! i) as [f|] eqn:Hf; [|done]. injection Hi as <- <-.
  rewrite (fdview_set_file _ _ _ _ Hf). by destruct (Hg f) as [-> ->].
Qed.

Lemma wp_pipealloc Q R k cu os fs : fdview k = (cu, (os, fs)) -> fd_inv (os, fs) ->
  (forall a b k', a <> b -> fs !! a = Some (0, FD_NONE) -> fs !! b = Some (0, FD_NONE) ->
     fdview k' = (cu, (os, <[b := (1, FD_PIPE)]> (<[a := (1, FD_PIPE)]> fs))) -> Q (Some (a, b)) k') ->
  (forall k', fdview k' = fdview k -> Q None k') -> wp present pipealloc Q R k.
Proof.
  intros E HI HS HN. unfold pipealloc. apply wp_bind. eapply wp_filealloc; [exact E| |by apply wp_ret, HN].
  intros a t k1 Ha E1. assert (t = FD_NONE) as -> by (by eapply (fd_free _ HI)).
  apply wp_bind. eapply wp_filealloc; [exact E1| |].
  - intros b t k2 Hb E2. apply list_insert_inv in Hb as [[_ [=]]|[Hab Hb]].
    assert (t = FD_NONE) as -> by (by eapply (fd_free _ HI)).
    assert (<[a := (1, FD_NONE)]> fs !! b = Some (0, FD_NONE)) as Hb' by by rewrite list_lookup_insert_ne.
    rewrite list_insert_insert_ne in E2 by done.
    assert (<[b := (1, FD_NONE)]> fs !! a = Some (0, FD_NONE)) as Ha' by by rewrite list_lookup_insert_ne.
    apply wp_bind, wp_alloc. intros ok k3 E3. rewrite E2 in E3. destruct ok; cbn [negb].
    + apply wp_bind, wp_new_addr. intros p k4 E4. rewrite E3 in E4. apply wp_bind, wp_kset.
      apply wp_bind. eapply (wp_retype _ _ FD_PIPE); [exact E4|apply list_lookup_insert_eq; rewrite length_insert; by eapply lookup_lt_Some|intros ?; split; reflexivity|].
      intros k5 E5. rewrite list_insert_insert_eq in E5. apply wp_bind.
      eapply (wp_retype _ _ FD_PIPE); [exact E5|rewrite list_lookup_insert_ne by done; apply list_lookup_insert_eq; by eapply lookup_lt_Some|intros ?; split; reflexivity|].
      intros k6 E6. apply wp_ret, HS; [done..|]. rewrite E6. do 2 f_equal.
      by rewrite list_insert_insert_ne, list_insert_insert_eq, list_insert_insert_ne.
    + apply wp_bind. eapply wp_close_new; [exact E3|done|done|]. intros k4 E4. apply wp_bind.
      eapply wp_close_new; [exact E4|done|done|]. intros k5 E5. apply wp_ret, HN. congruence.
  - apply wp_bind. eapply wp_close_new; [exact E1|done|done|]. intros k2 E2. apply wp_ret, HN. congruence.
Qed.

Section calls.
Context (devsw_read : Z -> option (nat -> Z -> Z -> prog kfs (Z * list Z))).
Context (devsw_write : Z -> option (nat -> list Z -> Z -> Z -> prog kfs Z)).
Context (umem : Z -> Z).

Lemma keepfd_fileread i n : keepfd (fileread devsw_read i n).
Proof. unfold fileread. keeps. Qed.
Lemma keepfd_filestat i : keepfd (filestat i).
Proof. unfold filestat. keeps. Qed.
Lemma keepfd_fileseek i n d : keepfd (fileseek i n d).
Proof. unfold fileseek. keeps. Qed.
Lemma keepfd_filewrite_loop fuel fi ip src i n : keepfd (filewrite_loop devsw_write fuel fi ip src i n).
Proof.
  revert i. induction fuel as [|fuel IH]; intros i; cbn [filewrite_loop]; keeps.
Qed.
#[local] Hint Resolve keepfd_fileread keepfd_filestat keepfd_fileseek keepfd_filewrite_loop : wp.
Lemma keepfd_filewrite i src n : keepfd (filewrite devsw_write i src n).
Proof. unfold filewrite. keeps. Qed.
#[local] Hint Resolve keepfd_filewrite : wp.

(** Fetching arguments and looking names up. *)
Lemma keepfd_this : keepfd this.
Proof. unfold this. keeps. Qed.
#[local] Hint Resolve keepfd_this : wp.
Lemma keepfd_fetchint addr : keepfd (fetchint umem addr).
Proof. unfold fetchint. keeps. Qed.
Lemma keepfd_fetchstr addr : keepfd (fetchstr umem addr).
Proof. unfold fetchstr. keeps. Qed.
#[local] Hint Resolve keepfd_fetchint keepfd_fetchstr : wp.
Lemma keepfd_argint n : keepfd (argint umem n).
Proof. unfold argint. keeps. Qed.
#[local] Hint Resolve keepfd_argint : wp.
Lemma keepfd_argptr n size : keepfd (argptr umem n size).
Proof. unfold argptr. keeps. Qed.
Lemma keepfd_argstr n : keepfd (argstr umem n).
Proof. unfold argstr. keeps. Qed.
Lemma keepfd_argfd n : keepfd (argfd umem n).
Proof. unfold argfd. keeps. Qed.
Lemma keepfd_here : keepfd here.
Proof. unfold here. keeps. Qed.
#[local] Hint Resolve keepfd_argptr keepfd_argstr keepfd_argfd keepfd_here : wp.
Lemma keepfd_knamei_direct path : keepfd (knamei_direct devsw_read path).
Proof. unfold knamei_direct. keeps. Qed.
Lemma keepfd_knameiparent path : keepfd (knameiparent devsw_read path).
Proof. unfold knameiparent. keeps. Qed.
Lemma keepfd_knameiparent_direct path : keepfd (knameiparent_direct devsw_read path).
Proof. unfold knameiparent_direct. keeps. Qed.
Lemma keepfd_start_op i : keepfd (start_op i).
Proof. unfold start_op. keeps. Qed.
Lemma keepfd_finish_op i : keepfd (finish_op i).
Proof. unfold finish_op. keeps. Qed.
Lemma keepfd_relink i n : keepfd (relink i n).
Proof. unfold relink. keeps. Qed.
#[local] Hint Resolve keepfd_knamei_direct keepfd_knameiparent keepfd_knameiparent_direct keepfd_start_op
  keepfd_finish_op keepfd_relink : wp.
Lemma keepfd_link_bad i : keepfd (link_bad i).
Proof. unfold link_bad. keeps. Qed.
Lemma keepfd_unlink_bad i : keepfd (unlink_bad i).
Proof. unfold unlink_bad. keeps. Qed.
#[local] Hint Resolve keepfd_link_bad keepfd_unlink_bad : wp.
Lemma keepfd_create path ty ma mi b : keepfd (create devsw_read devsw_write path ty ma mi b).
Proof. unfold create. keeps. Qed.
#[local] Hint Resolve keepfd_create : wp.
Lemma keepfd_open_inode path m : keepfd (open_inode devsw_read devsw_write path m).
Proof. unfold open_inode. keeps. Qed.
Lemma keepfd_canread f m : keepfd (canread f m).
Proof. unfold canread. keeps. Qed.
Lemma keepfd_canwrite f m : keepfd (canwrite f m).
Proof. unfold canwrite. keeps. Qed.
#[local] Hint Resolve keepfd_open_inode keepfd_canread keepfd_canwrite : wp.

(** The calls that only use descriptors. *)
Lemma keepfd_sys_read : keepfd (sys_read devsw_read umem).
Proof. unfold sys_read. keeps. Qed.
Lemma keepfd_sys_write : keepfd (sys_write devsw_write umem).
Proof. unfold sys_write. keeps. Qed.
Lemma keepfd_sys_seek : keepfd (sys_seek umem).
Proof. unfold sys_seek. keeps. Qed.
Lemma keepfd_sys_fstat : keepfd (sys_fstat umem).
Proof. unfold sys_fstat. keeps. Qed.
Lemma keepfd_sys_link : keepfd (sys_link devsw_read devsw_write umem).
Proof. unfold sys_link. keeps. Qed.
Lemma keepfd_sys_unlink : keepfd (sys_unlink devsw_read devsw_write umem).
Proof. unfold sys_unlink. keeps. Qed.
Lemma keepfd_sys_mkdir : keepfd (sys_mkdir devsw_read devsw_write umem).
Proof. unfold sys_mkdir, bad_ip. keeps. Qed.
Lemma keepfd_sys_mknod : keepfd (sys_mknod devsw_read devsw_write umem).
Proof. unfold sys_mknod, bad_ip. keeps. Qed.
Lemma keepfd_sys_chdir : keepfd (sys_chdir devsw_read umem).
Proof. unfold sys_chdir, bad_ip. keeps. Qed.
Lemma keepfd_sys_chperms : keepfd (sys_chperms devsw_read umem).
Proof. unfold sys_chperms. keeps. Qed.

(** The calls that move descriptors. *)
Lemma wp_this Q R k : (forall c p, cur k = Some c -> procs k !! c = Some p -> Q p k) -> wp present this Q R k.
Proof. intros H. apply wp_bind, wp_curproc. intros c Hc. apply wp_proc_at. intros p Hp. by eapply H. Qed.
Lemma wp_argint n Q R k : (forall o, Q o k) -> wp present (argint umem n) Q R k.
Proof.
  intros H. unfold argint, fetchint. apply wp_bind, wp_this. intros c p _ _. apply wp_bind, wp_this. intros c' p' _ _.
  destruct (_ || _); apply wp_ret, H.
Qed.
Lemma wp_argptr n size Q R k : (forall o, Q o k) -> wp present (argptr umem n size) Q R k.
Proof.
  intros H. unfold argptr. apply wp_bind, wp_argint. intros [i|]; [|apply wp_ret, H]. apply wp_bind, wp_this. intros c p _ _.
  destruct (_ || _); apply wp_ret, H.
Qed.
Lemma wp_argstr n Q R k : (forall o, Q o k) -> wp present (argstr umem n) Q R k.
Proof.
  intros H. unfold argstr, fetchstr. apply wp_bind, wp_argint. intros [i|]; [|apply wp_ret, H]. apply wp_bind, wp_this. intros c p _ _.
  destruct (_ <=? _); apply wp_ret, H.
Qed.
Lemma wp_argfd n Q R k cu os fs : fdview k = (cu, (os, fs)) ->
  (forall k', fdview k' = fdview k -> Q None k') ->
  (forall c o fd f, cu = Some c -> os !! c = Some o -> o !! Z.to_nat fd = Some (Some f) -> Q (Some (fd, f)) k) ->
  wp present (argfd umem n) Q R k.
Proof.
  intros E HN HS. unfold argfd. apply wp_bind, wp_argint. intros [fd|]; [|by apply wp_ret, HN].
  apply wp_bind, wp_this. intros c p Hc Hp. destruct (if _ : bool then _ else _) as [f|] eqn:Ef.
  - destruct ((fd <? 0) || _); [done|]. destruct (ofile p !! Z.to_nat fd) as [[g|]|] eqn:Eo; cbn in Ef; try done.
    injection Ef as ->. apply wp_ret. eapply HS; [|by eapply fdview_proc|exact Eo]. by injection E as <- _ _.
  - apply wp_bind, wp_seterr. intros k' E'. by apply wp_ret, HN.
Qed.

Lemma fd_ok_view k cu os fs : fdview k = (cu, (os, fs)) -> fd_inv (os, fs) -> fd_ok k.
Proof. intros E. unfold fd_ok. by rewrite E. Qed.
Lemma fd_ok_same k k' : fdview k' = fdview k -> fd_ok k -> fd_ok k'.
Proof. intros E. unfold fd_ok. by rewrite E. Qed.

Abbreviation preserves p := (forall k, fd_ok k -> wp present p (fun _ => fd_ok) fd_ok k).

Lemma keepfd_preserves {A} (p : K A) : keepfd p -> preserves p.
Proof. intros H k Hk. eapply wp_keeps; [exact H|..]; intros; by eapply fd_ok_same. Qed.

Lemma sys_dup_preserves : preserves (sys_dup umem).
Proof.
  intros k Hk. destruct (fdview k) as [cu [os fs]] eqn:E. assert (fd_inv (os, fs)) as HI by (unfold fd_ok in Hk; by rewrite E in Hk).
  unfold sys_dup. apply wp_bind. eapply wp_argfd; [exact E|intros k' E'; apply wp_ret; eapply fd_ok_same; [|exact Hk]; congruence|].
  intros c o fd f _ Hc Ho. apply wp_bind. eapply wp_fdalloc; [exact E| |intros k' E'; apply wp_ret; eapply fd_ok_same; [|exact Hk]; congruence].
  intros c' o' fd' k1 _ Hc' Ho' E1. rewrite (proj2 (Z.ltb_ge (Z.of_nat fd') 0)) by lia.
  apply wp_bind. eapply wp_filedup; [exact E1|]. intros r t k2 Hf E2. apply wp_ret. eapply fd_ok_view; [exact E2|].
  by apply inv_take.
Qed.

Lemma sys_close_preserves : preserves (sys_close umem).
Proof.
  intros k Hk. destruct (fdview k) as [cu [os fs]] eqn:E. assert (fd_inv (os, fs)) as HI by (unfold fd_ok in Hk; by rewrite E in Hk).
  unfold sys_close. apply wp_bind. eapply wp_argfd; [exact E|intros k' E'; apply wp_ret; eapply fd_ok_same; [|exact Hk]; congruence|].
  intros c o fd f -> Hc Ho. apply wp_bind, wp_curproc. intros c' Hc'. pose proof E as E0. injection E as Ec Eo Ef.
  rewrite Hc' in Ec. injection Ec as ->. pose proof Hc as Hp. rewrite <- Eo, list_lookup_fmap in Hp.
  destruct (procs k !! c) as [p|] eqn:Ep; [|done]. injection Hp as <-.
  apply wp_bind, wp_kset. apply wp_bind. eapply wp_fileclose; [rewrite (fdview_set_fds _ _ _ _ _ Ep), Eo, Ef; reflexivity|..].
  - intros r t k1 Hf E1. apply wp_ret. eapply fd_ok_view; [exact E1|]. by apply inv_drop.
  - intros r k1 Hf E1. eapply fd_ok_view; [exact E1|]. by apply inv_drop.
Qed.

Lemma sys_pipe_preserves : preserves (sys_pipe umem).
Proof.
  intros k Hk. destruct (fdview k) as [cu [os fs]] eqn:E. assert (fd_inv (os, fs)) as HI by (unfold fd_ok in Hk; by rewrite E in Hk).
  unfold sys_pipe. apply wp_bind, wp_argptr. intros [q|]; [|by apply wp_ret]. apply wp_bind.
  eapply wp_pipealloc; [exact E|done| |intros k' E'; apply wp_ret; eapply fd_ok_same; [|exact Hk]; congruence].
  intros a b k1 Hab Ha Hb E1.
  assert (<[a := (1, FD_PIPE)]> fs !! b = Some (0, FD_NONE)) as Hb' by by rewrite list_lookup_insert_ne.
  assert (forall k', fdview k' = (cu, (os, <[b := (1, FD_PIPE)]> (<[a := (1, FD_PIPE)]> fs))) ->
    wp present (fileclose a ;; fileclose b ;; mret (-1, [] : list (Z * list Z))) (fun _ => fd_ok) fd_ok k') as bad.
  { intros k' E'. rewrite list_insert_insert_ne in E' by done. apply wp_bind. eapply wp_fileclose; [exact E'| |].
    2:{ intros r k2 Hr _. rewrite list_lookup_insert_eq in Hr; [done|]. rewrite length_insert. by eapply lookup_lt_Some. }
    intros r t k2 Hr E2. rewrite list_lookup_insert_eq in Hr; [|rewrite length_insert; by eapply lookup_lt_Some].
    injection Hr as <- <-. rewrite list_insert_insert_eq, list_insert_id in E2 by (rewrite list_lookup_insert_ne by done; exact Ha).
    apply wp_bind. eapply wp_fileclose; [exact E2| |].
    2:{ intros r k3 Hr _. rewrite list_lookup_insert_eq in Hr; [done|]. by eapply lookup_lt_Some. }
    intros r t k3 Hr E3. rewrite list_lookup_insert_eq in Hr; [|by eapply lookup_lt_Some]. injection Hr as <- <-.
    rewrite list_insert_insert_eq, list_insert_id in E3 by exact Hb. apply wp_ret. by eapply fd_ok_view. }
  apply wp_bind. eapply wp_fdalloc; [exact E1| |].
  - intros c o fd0 k2 Hcu Hc Ho E2. rewrite (proj2 (Z.ltb_ge (Z.of_nat fd0) 0)) by lia.
    pose proof (inv_new os fs c o fd0 a FD_NONE FD_PIPE HI Hc Ho Ha) as HI1.
    apply wp_bind. eapply wp_fdalloc; [exact E2| |].
    + intros c' o' fd1 k3 _ Hc' Ho' E3. rewrite (proj2 (Z.ltb_ge (Z.of_nat fd1) 0)) by lia. apply wp_ret.
      eapply fd_ok_view; [exact E3|]. by eapply (inv_new _ _ _ _ _ b FD_NONE FD_PIPE HI1).
    + intros k3 E3. rewrite E2 in E3. change (-1 <? 0) with true. cbv iota. rewrite (proj2 (Z.leb_le 0 (Z.of_nat fd0))) by lia.
      apply wp_bind, wp_bind, wp_curproc. intros c' Hc'. pose proof E3 as E3'. injection E3' as Ec Eo Ef. rewrite Hc', Hcu in Ec. injection Ec as ->.
      assert ((ofile <$> procs k3) !! c = Some (<[fd0 := Some a]> o)) as Hp.
      { rewrite Eo. apply list_lookup_insert_eq. by eapply lookup_lt_Some. }
      rewrite list_lookup_fmap in Hp. destruct (procs k3 !! c) as [p|] eqn:Ep; [|done]. injection Hp as Hp.
      apply wp_kset, bad. rewrite Nat2Z.id, (fdview_set_fds _ _ _ _ _ Ep), Eo, Ef, Hc', Hp, Hcu.
      by rewrite !list_insert_insert_eq, (list_insert_id o fd0), list_insert_id.
  - intros k2 E2. rewrite E1 in E2. change (-1 <? 0) with true. cbv iota. apply wp_bind, wp_ret.
    change (-1 <? 0) with true. change (0 <=? -1) with false. cbv iota. apply wp_bind, wp_ret. by apply bad.
Qed.

Lemma sys_open_preserves : preserves (sys_open devsw_read devsw_write umem).
Proof.
  intros k Hk. unfold sys_open. apply wp_bind, wp_argstr. intros [path|]; [|by apply wp_ret].
  apply wp_bind, wp_argint. intros [omode|]; [|by apply wp_ret]. apply wp_bind.
  eapply wp_keeps; [apply keepfd_open_inode| |intros k' E; by eapply fd_ok_same].
  intros [ip|] k0 E0; [|apply wp_ret; by eapply fd_ok_same]. apply (fd_ok_same k k0 E0) in Hk. clear k E0.
  destruct (fdview k0) as [cu [os fs]] eqn:E. assert (fd_inv (os, fs)) as HI by (unfold fd_ok in Hk; by rewrite E in Hk).
  assert (forall k', fdview k' = fdview k0 ->
    wp present (on_fs (iunlockput (Some ip)) ;; finish_op ip ;; seterr "EIFSALLOC" ;; mret (-1)) (fun _ => fd_ok) fd_ok k') as bad.
  { intros k' E'. apply keepfd_preserves; [keeps|]. by eapply fd_ok_same. }
  apply wp_bind. eapply wp_filealloc; [exact E| |].
  - intros f t k1 Hf E1. assert (t = FD_NONE) as -> by (by eapply (fd_free _ HI)).
    apply wp_bind. eapply wp_fdalloc; [exact E1| |].
    + intros c o fd k2 _ Hc Ho E2. rewrite (proj2 (Z.ltb_ge (Z.of_nat fd) 0)) by lia.
      assert (forall t, fd_inv (<[c := <[fd := Some f]> o]> os, <[f := (1, t)]> fs)) as HN by (intros t; by eapply inv_new).
      apply wp_bind. eapply wp_keeps; [apply keepfd_on_fs| |intros k' E'; eapply fd_ok_view; [rewrite E', E2; reflexivity|apply HN]].
      intros _ k3 E3. apply wp_bind.
      eapply wp_keeps; [apply keepfd_finish_op| |intros k' E'; eapply fd_ok_view; [rewrite E', E3, E2; reflexivity|apply HN]].
      intros _ k4 E4. rewrite E3, E2 in E4. apply wp_bind.
      eapply (wp_retype _ _ FD_INODE); [exact E4|apply list_lookup_insert_eq; by eapply lookup_lt_Some|intros ?; split; reflexivity|].
      intros k5 E5. rewrite list_insert_insert_eq in E5.
      apply keepfd_preserves; [keeps; by apply keepfd_upd_file|]. eapply fd_ok_view; [exact E5|apply HN].
    + intros k2 E2. change (-1 <? 0) with true. cbv iota. apply wp_bind. cbn [close_opt].
      eapply wp_close_new; [rewrite E2; exact E1|done|done|]. intros k3 E3. apply bad. congruence.
  - apply wp_bind, wp_ret. change (-1 <? 0) with true. cbv iota. apply wp_bind. cbn [close_opt]. by apply wp_ret, bad.
Qed.

End calls.

(** A kernel with no open files. *)
Lemma fd_ok_none k : (forall f, f ∈ ftab k -> f_ref f = 0 /\ f_type f = FD_NONE) -> (forall p o, p ∈ procs k -> o ∈ ofile p -> o = None) -> fd_ok k.
Proof.
  intros Hf Hp. assert (forall i, fdcounts i (ofile <$> procs k) = 0%nat) as Z0.
  { intros i. unfold fdcounts. induction (procs k) as [|p ps IH]; [done|]. rewrite !fmap_cons. cbn [sum_list].
    rewrite IH by (intros q o Hq; apply Hp; by right). rewrite fdcount_none; [done|]. intros o Ho. apply (Hp p); [by left|done]. }
  split; cbn [fdview fst snd].
  - intros i r t Hi. rewrite list_lookup_fmap in Hi. destruct (ftab k !! i) as [f|] eqn:E; [|done]. injection Hi as <- <-.
    rewrite Z0. apply Hf. by eapply list_elem_of_lookup_2.
  - intros i r t Hi _. rewrite list_lookup_fmap in Hi. destruct (ftab k !! i) as [f|] eqn:E; [|done]. injection Hi as <- <-.
    apply Hf. by eapply list_elem_of_lookup_2.
  - intros o i Ho Hi. apply list_elem_of_fmap in Ho as (p & -> & Hp'). by specialize (Hp p _ Hp' Hi).
Qed.
End fds.

(** ** User pointers *)

Section bounds.
Context (present : Z -> bool) (umem : Z -> Z).

Lemma run_this k a c p : cur k = Some c -> procs k !! c = Some p -> Spec.run present this k a = Ok p (k, a).
Proof.
  intros Hc Hp. unfold this. rewrite (run_curproc present c) by done. unfold proc_at, kget. cbn [Spec.run mbind prog_bind mret prog_ret].
  by rewrite Hp.
Qed.

Lemma ustr_spec fuel s ep l : ustr umem fuel s ep = Some l ->
  Forall (fun c => c <> 0) l /\ s + Z.of_nat (length l) < ep /\ umem (s + Z.of_nat (length l)) = 0 /\
  l = ubytes umem s (Z.of_nat (length l)).
Proof.
  revert s l. induction fuel as [|f IH]; intros s l; cbn [ustr]; [done|].
  destruct (Z.ltb_spec s ep) as [Hs|]; [|done]. destruct (Z.eqb_spec (umem s) 0) as [H0|H0].
  - intros [= <-]. cbn. rewrite Z.add_0_r. split_and!; try done; lia.
  - destruct (ustr umem f (s + 1) ep) as [l'|] eqn:E; [|done]. intros [= <-]. destruct (IH _ _ E) as (F & L & N & EL).
    cbn [length]. rewrite Nat2Z.inj_succ. replace (s + Z.succ (Z.of_nat (length l'))) with (s + 1 + Z.of_nat (length l')) by lia.
    split_and!; [by constructor|done|done|]. unfold ubytes. rewrite Z2Nat.inj_succ, Nat2Z.id by lia. cbn [seq fmap list_fmap].
    rewrite Z.add_0_r. f_equal. rewrite EL at 1. unfold ubytes. rewrite Nat2Z.id, <- fmap_S_seq, <- list_fmap_compose.
    apply list_fmap_ext. intros i x _. unfold compose. f_equal. lia.
Qed.

(** C25: what the argument routines accept, of a process of at most [KERNBASE]
    bytes.  They change nothing and always return.  An integer is fetched exactly
    when its four bytes are in the process.  [argptr] accepts a pointer exactly
    when it points into the process and so does what it points to the end of,
    [size] bytes on: then every byte of a buffer of a size that is not negative is
    in the process; a negative size is accepted too, when the end is not below
    address 0.  A string is accepted only with all its bytes and the NUL that ends
    it in the process, and is what is there. *)
Theorem arguments_in_bounds k a c p :
  cur k = Some c -> procs k !! c = Some p -> 0 <= sz p <= KERNBASE -> 0 <= tf_esp (tf p) ->
  (forall addr, 0 <= addr -> match Spec.run present (fetchint umem addr) k a with
     | Ok o (k', a') => k' = k /\ a' = a /\ (o <> None <-> addr + 4 <= sz p)
     | _ => False end) /\
  (forall n size, - 2 ^ 31 < size < 2 ^ 31 -> exists o, Spec.run present (argint umem n) k a = Ok o (k, a) /\
     Spec.run present (argptr umem n size) k a = Ok (i ← o; if decide (u32 i < sz p /\ 0 <= u32 i + size <= sz p) then Some (u32 i) else None) (k, a)) /\
  (forall n s k' a', Spec.run present (argstr umem n) k a = Ok (Some s) (k', a') ->
     k' = k /\ a' = a /\ exists q, 0 <= q /\ q + Z.of_nat (length s) < sz p /\ umem (q + Z.of_nat (length s)) = 0 /\
       Forall (fun c => c <> 0) s /\ s = ubytes umem q (Z.of_nat (length s))).
Proof.
  intros Hc Hp Hsz Hesp.
  assert (forall addr, Spec.run present (fetchint umem addr) k a =
    Ok (if (sz p <=? addr) || (sz p <? u32 (addr + 4)) then None else Some (s32 (le_num (ubytes umem addr 4)))) (k, a)) as RF.
  { intros addr. unfold fetchint. rewrite Spec.run_bind, (run_this _ _ c p) by done. by destruct (_ || _). }
  assert (forall n, exists o, Spec.run present (argint umem n) k a = Ok o (k, a)) as RA.
  { intros n. unfold argint. rewrite Spec.run_bind, (run_this _ _ c p) by done. rewrite RF. eauto. }
  split_and!.
  - intros addr Ha. rewrite RF. split; [done|]. split; [done|]. unfold KERNBASE in Hsz.
    destruct (Z.leb_spec (sz p) addr); cbn [orb]; [split; [done|lia]|].
    rewrite u32_small by lia. destruct (Z.ltb_spec (sz p) (addr + 4)); split; try done; lia.
  - intros n size Hs. destruct (RA n) as [o Eo]. exists o. split; [done|]. unfold argptr. rewrite Spec.run_bind, Eo. destruct o as [i|]; [|done].
    cbn [mbind option_bind].
    rewrite Spec.run_bind, (run_this _ _ c p) by done. pose proof (u32_range i). unfold KERNBASE in Hsz.
    destruct (Z.leb_spec (sz p) (u32 i)); cbn [orb]; [rewrite decide_False by lia; done|].
    assert ((sz p <? u32 (u32 i + size)) = negb (bool_decide (u32 i < sz p /\ 0 <= u32 i + size <= sz p))) as ->; [|by rewrite decide_bool_decide; destruct (bool_decide _)].
    destruct (decide (0 <= u32 i + size)) as [Hn|Hn].
    + rewrite u32_small by lia. case_bool_decide; destruct (Z.ltb_spec (sz p) (u32 i + size)); try done; lia.
    + rewrite bool_decide_eq_false_2 by lia. apply Z.ltb_lt. revert H Hn. generalize (u32 i) as q. intros q Hq Hn. unfold u32. dlia.
  - intros n s k' a'. unfold argstr. rewrite Spec.run_bind. destruct (RA n) as [[i|] ->]; [|done].
    unfold fetchstr. rewrite Spec.run_bind, (run_this _ _ c p) by done. destruct (_ <=? _) eqn:E; [done|]. intros [= Es <- <-].
    split; [done|]. split; [done|]. exists (u32 i). apply ustr_spec in Es as (F & L & N & EL). pose proof (u32_range i).
    split_and!; try done; lia.
Qed.
End bounds.

(** ** Concrete calls *)
Module SysSample.
Import FileSample.

(** Memory with the words of [l] from address 4, where the arguments are when
    the stack pointer is 0. *)
Definition args (l : list Z) (addr : Z) : Z := default 0 ((l ≫= le_bytes 4) !! Z.to_nat (addr - 4)).
Definition caller : proc := set_sz 64 proc1.
Definition boot : kmem := set_ftab (replicate 4 file_zero) (set_procs [caller; set_pid 2 caller] kmem1).
Definition no_dev {A} (_ : Z) : option A := None.

Lemma arguments_in_bounds_witness :
  (forall addr, 0 <= addr -> match Spec.run Concrete.only0 (fetchint (args [16]) addr) boot Sample.drive0 with
     | Ok o (k', a') => k' = boot /\ a' = Sample.drive0 /\ (o <> None <-> addr + 4 <= 64)
     | _ => False end) /\
  (forall n size, - 2 ^ 31 < size < 2 ^ 31 -> exists o, Spec.run Concrete.only0 (argint (args [16]) n) boot Sample.drive0 = Ok o (boot, Sample.drive0) /\
     Spec.run Concrete.only0 (argptr (args [16]) n size) boot Sample.drive0 =
       Ok (i ← o; if decide (u32 i < 64 /\ 0 <= u32 i + size <= 64) then Some (u32 i) else None) (boot, Sample.drive0)) /\
  (forall n s k' a', Spec.run Concrete.only0 (argstr (args [16]) n) boot Sample.drive0 = Ok (Some s) (k', a') ->
     k' = boot /\ a' = Sample.drive0 /\ exists q, 0 <= q /\ q + Z.of_nat (length s) < 64 /\ args [16] (q + Z.of_nat (length s)) = 0 /\
       Forall (fun c => c <> 0) s /\ s = ubytes (args [16]) q (Z.of_nat (length s))).
Proof.
  apply (arguments_in_bounds Concrete.only0 (args [16]) boot Sample.drive0 0 caller);
    [reflexivity|reflexivity|vm_compute; split; congruence|vm_compute; congruence].
Defined.

(** [argptr] adds a negative size to the pointer before it compares: a write of
    -1 bytes from address 16 passes. *)
Lemma argptr_takes_negative_sizes :
  Spec.run Concrete.only0 (argptr (args [0; 16; -1]) 1 (-1)) boot Sample.drive0 = Ok (Some 16) (boot, Sample.drive0).
Proof. vm_compute. reflexivity. Qed.

(** [sys_seek] takes offset and direction from the same argument: asked to move
    by 2 from the start, it moves relative to the end. *)
Definition seekable : kmem := set_ftab [open_file 0 (set_f_readable true (set_f_ref 1 file_zero))]
  (set_procs [set_ofile (Some 0%nat :: replicate 15 None) caller] kmem1).
Lemma sys_seek_confuses_arguments :
  exists k', Spec.run Concrete.only0 (sys_seek (args [0; 0; 2])) seekable Sample.drive0 = Ok (2 + i_size Sample.ip0) (k', Sample.drive0).
Proof. eexists. vm_compute. reflexivity. Qed.
End SysSample.
