(* ===== verification/Vm.v ===== *)
(** Page tables ([vm.c]), over the memory and the page allocator of Alloc.v.

    Memory is the map of 32-bit words at kernel addresses, word [v / 4] for
    address [v].  A pointer to a page-table entry is the entry's word. *)

From S2P Require Import Prelude Params Alloc.

Definition PTE_P : Z := 2 ^ 0.
Definition PTE_W : Z := 2 ^ 1.
Definition PTE_U : Z := 2 ^ 2.
Definition EXTMEM : Z := 0x100000.
Definition DEVSPACE : Z := 0xFE000000.
Definition KERNLINK : Z := KERNBASE + EXTMEM.
Definition NPTENTRIES : Z := 1024.
Definition NPDENTRIES : nat := 1024.

Definition PDX (va : Z) : Z := Z.land (Z.shiftr va 22) 0x3FF.
Definition PTX (va : Z) : Z := Z.land (Z.shiftr va 12) 0x3FF.
Definition PTE_ADDR (pte : Z) : Z := Z.ldiff pte 0xFFF.
Definition PTE_FLAGS (pte : Z) : Z := Z.land pte 0xFFF.
Definition PGROUNDDOWN (a : Z) : Z := Z.ldiff a 0xFFF.
Definition v2p (a : Z) : Z := u32 (a - KERNBASE).
Definition p2v (a : Z) : Z := u32 (a + KERNBASE).

(** ** Memory *)

Definition ldw (w : Z) : M kpages Z := gets (fun s => ld (kp_mem s) w).
Definition on_mem (f : words -> words) : M kpages unit := modify (fun s => KPages (f (kp_mem s)) (kp_pages s)).
Definition stw (w v : Z) : M kpages unit := on_mem (<[w := v]>).

(** [kalloc()], as an address; 0 when there is no page. *)
Definition kalloc_page : M kpages Z := fun s =>
  let '(r, p) := kalloc (kp_mem s) (kp_pages s) in Ok (8 * r) (KPages (kp_mem s) p).

(** [memset(v, 0, PGSIZE)] and [memmove(dst, src, PGSIZE)] of pages. *)
Definition zero_page (v : Z) (m : words) : words :=
  foldr (fun i m => <[v / 4 + Z.of_nat i := 0]> m) m (seq 0 PGWORDS).
Definition copy_page (dst src : Z) (m : words) : words :=
  foldr (fun i m' => <[dst / 4 + Z.of_nat i := ld m (src / 4 + Z.of_nat i)]> m') m (seq 0 PGWORDS).

(** Bytes: byte [v mod 4] of word [v / 4], the low one first. *)
Definition ldb (m : words) (v : Z) : Z := ld m (v / 4) / 256 ^ (v mod 4) mod 256.
Definition stb (v b : Z) (m : words) : words := <[v / 4 := ld m (v / 4) + (b - ldb m v) * 256 ^ (v mod 4)]> m.
(** [memmove(v, bs, n)] from memory that [v] does not overlap. *)
Fixpoint st_bytes (v : Z) (bs : list Z) (m : words) : words :=
  match bs with [] => m | b :: bs' => st_bytes (v + 1) bs' (stb v b m) end.

Section vm.
Context (kend kdata : Z).   (* [end] and [data], from the linker script *)

(** ** Walking and mapping *)

Definition walkpgdir (pgdir va : Z) (alloc : bool) : M kpages (option Z) :=
  let pde := pgdir / 4 + PDX va in
  e ← ldw pde;
  if has e PTE_P then mret (Some (p2v (PTE_ADDR e) / 4 + PTX va))
  else if negb alloc then mret None
  else
    pgtab ← kalloc_page;
    if pgtab =? 0 then mret None else
    on_mem (zero_page pgtab) ;;
    stw pde (Z.lor (v2p pgtab) (Z.lor PTE_P (Z.lor PTE_W PTE_U))) ;;
    mret (Some (pgtab / 4 + PTX va)).

(** The loop of [mappages]; the fuel is the number of pages. *)
Fixpoint mappages_loop (fuel : nat) (pgdir a last pa perm : Z) : M kpages Z :=
  match fuel with
  | O => panic "mappages: out of fuel"
  | S f =>
    o ← walkpgdir pgdir a true;
    match o with
    | None => mret (-1)
    | Some w =>
      e ← ldw w;
      if has e PTE_P then panic "remap" else
      stw w (Z.lor pa (Z.lor perm PTE_P)) ;;
      if a =? last then mret 0 else mappages_loop f pgdir (u32 (a + PGSIZE)) last (u32 (pa + PGSIZE)) perm
    end
  end.
Definition mappages (pgdir va size pa perm : Z) : M kpages Z :=
  let a := PGROUNDDOWN va in
  let last := PGROUNDDOWN (u32 (va + size - 1)) in
  mappages_loop (Z.to_nat (u32 (last - a) / PGSIZE) + 1) pgdir a last pa perm.

(** ** The kernel's mappings *)

Record kmap := Kmap { virt : Z; phys_start : Z; phys_end : Z; perm : Z }.
Definition kmaps : list kmap :=
  [ Kmap KERNBASE 0 EXTMEM PTE_W;
    Kmap KERNLINK (v2p KERNLINK) (v2p kdata) 0;
    Kmap kdata (v2p kdata) PHYSTOP PTE_W;
    Kmap DEVSPACE DEVSPACE 0 PTE_W ].

Fixpoint setupkvm_loop (pgdir : Z) (ks : list kmap) : M kpages Z :=
  match ks with
  | [] => mret pgdir
  | k :: ks' =>
    r ← mappages pgdir (virt k) (u32 (phys_end k - phys_start k)) (phys_start k) (perm k);
    if r <? 0 then mret 0 else setupkvm_loop pgdir ks'
  end.
Definition setupkvm : M kpages Z :=
  pgdir ← kalloc_page;
  if pgdir =? 0 then mret 0 else
  on_mem (zero_page pgdir) ;;
  assert_or (negb (DEVSPACE <? p2v PHYSTOP)) "PHYSTOP too high" ;;
  setupkvm_loop pgdir kmaps.

(** ** User memory *)

(** One iteration frees at most a page or skips a directory entry; the fuel is
    the number of pages of the address space. *)
Fixpoint deallocuvm_loop (fuel : nat) (pgdir a oldsz : Z) : M kpages unit :=
  match fuel with
  | O => panic "deallocuvm: out of fuel"
  | S f =>
    if a <? oldsz then
      o ← walkpgdir pgdir a false;
      match o with
      | None => deallocuvm_loop f pgdir (u32 (a + (NPTENTRIES - 1) * PGSIZE + PGSIZE)) oldsz
      | Some w =>
        e ← ldw w;
        (if has e PTE_P then
           assert_or (negb (PTE_ADDR e =? 0)) "kfree" ;;
           kfree kend (p2v (PTE_ADDR e)) ;;
           stw w 0
         else mret tt) ;;
        deallocuvm_loop f pgdir (u32 (a + PGSIZE)) oldsz
      end
    else mret tt
  end.
Definition deallocuvm (pgdir oldsz newsz : Z) : M kpages Z :=
  if oldsz <=? newsz then mret oldsz else
  deallocuvm_loop (Z.to_nat (2 ^ 32 / PGSIZE) + 1) pgdir (PGROUNDUP newsz) oldsz ;; mret newsz.

Fixpoint allocuvm_loop (fuel : nat) (pgdir a oldsz newsz : Z) : M kpages Z :=
  match fuel with
  | O => panic "allocuvm: out of fuel"
  | S f =>
    if a <? newsz then
      mem ← kalloc_page;
      if mem =? 0 then deallocuvm pgdir newsz oldsz ;; mret 0 else
      on_mem (zero_page mem) ;;
      mappages pgdir a PGSIZE (v2p mem) (Z.lor PTE_W PTE_U) ;;
      allocuvm_loop f pgdir (u32 (a + PGSIZE)) oldsz newsz
    else mret newsz
  end.
Definition allocuvm (pgdir oldsz newsz : Z) : M kpages Z :=
  if KERNBASE <=? newsz then mret 0 else
  if newsz <? oldsz then mret oldsz else
  allocuvm_loop (Z.to_nat (newsz / PGSIZE) + 2) pgdir (PGROUNDUP oldsz) oldsz newsz.

Fixpoint freevm_tables (pgdir : Z) (ixs : list nat) : M kpages unit :=
  match ixs with
  | [] => mret tt
  | i :: ixs' =>
    e ← ldw (pgdir / 4 + Z.of_nat i);
    (if has e PTE_P then kfree kend (p2v (PTE_ADDR e)) else mret tt) ;;
    freevm_tables pgdir ixs'
  end.
Definition freevm (pgdir : Z) : M kpages unit :=
  assert_or (negb (pgdir =? 0)) "freevm: no pgdir" ;;
  deallocuvm pgdir KERNBASE 0 ;;
  freevm_tables pgdir (seq 0 NPDENTRIES) ;;
  kfree kend pgdir.

Definition clearpteu (pgdir uva : Z) : M kpages unit :=
  o ← walkpgdir pgdir uva false;
  match o with None => panic "clearpteu" | Some w => e ← ldw w; stw w (clrf e PTE_U) end.

(** The loop of [copyuvm]: false when it ran out of memory. *)
Fixpoint copyuvm_loop (fuel : nat) (pgdir d i sz : Z) : M kpages bool :=
  match fuel with
  | O => panic "copyuvm: out of fuel"
  | S f =>
    if i <? sz then
      o ← walkpgdir pgdir i false;
      match o with
      | None => panic "copyuvm: pte should exist"
      | Some w =>
        e ← ldw w;
        if negb (has e PTE_P) then panic "copyuvm: page not present" else
        mem ← kalloc_page;
        if mem =? 0 then mret false else
        on_mem (copy_page mem (p2v (PTE_ADDR e))) ;;
        r ← mappages d i PGSIZE (v2p mem) (PTE_FLAGS e);
        if r <? 0 then mret false else copyuvm_loop f pgdir d (u32 (i + PGSIZE)) sz
      end
    else mret true
  end.
Definition copyuvm (pgdir sz : Z) : M kpages Z :=
  d ← setupkvm;
  if d =? 0 then mret 0 else
  ok ← copyuvm_loop (Z.to_nat (sz / PGSIZE) + 2) pgdir d 0 sz;
  if ok : bool then mret d else freevm d ;; mret 0.

(** ** The kernel's view of user addresses *)

Definition uva2ka (pgdir uva : Z) : M kpages Z :=
  o ← walkpgdir pgdir uva false;
  match o with
  | None => panic "nil pte"
  | Some w =>
    e ← ldw w;
    if negb (has e PTE_P) || negb (has e PTE_U) then mret 0 else mret (p2v (PTE_ADDR e))
  end.

(** The loop of [copyout]; each iteration copies a byte at least. *)
Fixpoint copyout_loop (fuel : nat) (pgdir va : Z) (buf : list Z) : M kpages Z :=
  match buf with
  | [] => mret 0
  | _ =>
    match fuel with
    | O => panic "copyout: out of fuel"
    | S f =>
      let va0 := PGROUNDDOWN va in
      pa0 ← uva2ka pgdir va0;
      if pa0 =? 0 then mret (-1) else
      let n := Z.to_nat (Z.min (PGSIZE - (va - va0)) (Z.of_nat (length buf))) in
      on_mem (st_bytes (pa0 + (va - va0)) (take n buf)) ;;
      copyout_loop f pgdir (u32 (va0 + PGSIZE)) (drop n buf)
    end
  end.
Definition copyout (pgdir va : Z) (p : list Z) : M kpages Z := copyout_loop (length p) pgdir va p.

(** The first process's memory. *)
Definition inituvm (pgdir : Z) (init : list Z) : M kpages unit :=
  if PGSIZE <=? Z.of_nat (length init) then panic "inituvm: more than a page" else
  mem ← kalloc_page;
  on_mem (zero_page mem) ;;
  mappages pgdir 0 PGSIZE (v2p mem) (Z.lor PTE_W PTE_U) ;;
  on_mem (st_bytes mem init).
End vm.
