(* ===== verification/VmFacts.v ===== *)
(** Page tables: the address space a page directory stands for, and what the
    routines of [vm.c] do to it and to the page allocator. *)

From S2P Require Import Prelude Params Alloc Vm.

(** Evaluate the loads, stores and plumbing of the goal. *)
Ltac mrun := cbv [walkpgdir ldw stw on_mem mbind M_bind mret M_ret gets modify]; cbn beta iota.

(** ** Bits of addresses and entries *)

Lemma PDX_eq va : 0 <= va -> PDX va = va / 4096 / 1024 mod 1024.
Proof.
  intros H. unfold PDX. change 0x3FF with (Z.ones 10). rewrite Z.land_ones, Z.shiftr_div_pow2 by lia.
  rewrite Z.div_div by lia. done.
Qed.
Lemma PTX_eq va : 0 <= va -> PTX va = va / 4096 mod 1024.
Proof. intros H. unfold PTX. change 0x3FF with (Z.ones 10). by rewrite Z.land_ones, Z.shiftr_div_pow2 by lia. Qed.
Lemma PTE_ADDR_eq e : PTE_ADDR e = e / 4096 * 4096.
Proof.
  unfold PTE_ADDR. change 0xFFF with (Z.ones 12). by rewrite Z.ldiff_ones_r, Z.shiftl_mul_pow2, Z.shiftr_div_pow2 by lia.
Qed.
Lemma PTE_FLAGS_eq e : PTE_FLAGS e = e mod 4096.
Proof. unfold PTE_FLAGS. change 0xFFF with (Z.ones 12). by rewrite Z.land_ones by lia. Qed.
Lemma PGROUNDDOWN_eq e : PGROUNDDOWN e = e / 4096 * 4096.
Proof. apply PTE_ADDR_eq. Qed.

Lemma lor_page pa fl : pa mod 4096 = 0 -> 0 <= fl < 4096 -> Z.lor pa fl = pa + fl.
Proof.
  intros Hp Hf. rewrite <- (Z.add_lor_land pa fl). assert (Z.land pa fl = 0) as ->; [|lia].
  apply Z.bits_inj'. intros n Hn. rewrite Z.land_spec, Z.bits_0. destruct (decide (n < 12)).
  - rewrite <- (Z.mod_pow2_bits_low pa 12 n) by lia. change (2 ^ 12) with 4096. by rewrite Hp, Z.bits_0.
  - rewrite <- (Z.mod_small fl (2 ^ 12)) by lia. rewrite Z.mod_pow2_bits_high by lia. by rewrite andb_false_r.
Qed.
Lemma has_entry pa fl n : pa mod 4096 = 0 -> 0 <= n < 12 -> has (pa + fl) (2 ^ n) = has fl (2 ^ n).
Proof.
  intros Hp Hn. rewrite !has_pow2 by lia. rewrite <- (Z.mod_pow2_bits_low (pa + fl) 12), <- (Z.mod_pow2_bits_low fl 12) by lia.
  f_equal. change (2 ^ 12) with 4096. rewrite <- (Zplus_mod_idemp_l pa), Hp. done.
Qed.

(** ** Pages *)

Section pages.
Context (kend : Z).
Abbreviation page := (freeable kend).

Definition in_page (v w : Z) : Prop := v / 4 <= w < v / 4 + 1024.
(** Outside the pages [P] the memories agree. *)
Definition same_but (P : list Z) (m m' : words) : Prop :=
  forall w, (forall v, v ∈ P -> ~ in_page v w) -> m' !! w = m !! w.

Lemma page_disjoint v v' w : v mod 4096 = 0 -> v' mod 4096 = 0 -> in_page v w -> in_page v' w -> v = v'.
Proof. unfold in_page. intros. dlia. Qed.
Lemma same_but_refl P m : same_but P m m.
Proof. by intros w _. Qed.
Lemma same_but_trans P Q m1 m2 m3 : same_but P m1 m2 -> same_but Q m2 m3 -> same_but (P ++ Q) m1 m3.
Proof.
  intros H1 H2 w Hw. rewrite H2, H1; [done|..]; intros v Hv; apply Hw, elem_of_app; auto.
Qed.
Lemma same_but_weaken P Q m m' : same_but P m m' -> (forall v, v ∈ P -> v ∈ Q) -> same_but Q m m'.
Proof. intros H HPQ w Hw. apply H. intros v Hv. apply Hw. auto. Qed.
Lemma same_but_insert v w x m : in_page v w -> same_but [v] m (<[w := x]> m).
Proof.
  intros H w' Hw. rewrite lookup_insert_ne; [done|]. intros <-. by apply (Hw v ltac:(by left)).
Qed.
Lemma same_but_ld P m m' w : same_but P m m' -> (forall v, v ∈ P -> ~ in_page v w) -> ld m' w = ld m w.
Proof. intros H Hw. unfold ld. by rewrite H. Qed.

Lemma lookup_foldr_page v (f : nat -> Z) (m0 : words) w :
  foldr (fun i m => <[v / 4 + Z.of_nat i := f i]> m) m0 (seq 0 PGWORDS) !! w =
  if decide (in_page v w) then Some (f (Z.to_nat (w - v / 4))) else m0 !! w.
Proof.
  unfold in_page. change 1024 with (Z.of_nat PGWORDS). generalize PGWORDS. intros n.
  assert (forall i, foldr (fun i m => <[v / 4 + Z.of_nat i := f i]> m) m0 (seq i n) !! w =
    if decide (v / 4 + Z.of_nat i <= w < v / 4 + Z.of_nat i + Z.of_nat n) then Some (f (Z.to_nat (w - v / 4))) else m0 !! w) as H.
  { induction n as [|n IH]; intros i; cbn [seq foldr]; [by rewrite decide_False by lia|].
    destruct (decide (w = v / 4 + Z.of_nat i)) as [->|Hx].
    - rewrite lookup_insert_eq, decide_True by lia. do 2 f_equal. lia.
    - rewrite lookup_insert_ne, IH by done. repeat destruct (decide _); try done; lia. }
  rewrite H. by rewrite Z.add_0_r.
Qed.
Lemma zero_page_same v m : same_but [v] m (zero_page v m).
Proof.
  intros w Hw. unfold zero_page. rewrite (lookup_foldr_page v (fun _ => 0)), decide_False; [done|]. apply Hw. by left.
Qed.
Lemma zero_page_ld v m w : in_page v w -> ld (zero_page v m) w = 0.
Proof. intros H. unfold ld, zero_page. by rewrite (lookup_foldr_page v (fun _ => 0)), decide_True. Qed.
Lemma copy_page_same d s m : same_but [d] m (copy_page d s m).
Proof.
  intros w Hw. unfold copy_page. rewrite (lookup_foldr_page d (fun i => ld m (s / 4 + Z.of_nat i))), decide_False; [done|]. apply Hw. by left.
Qed.
Lemma copy_page_ld d s m i : 0 <= i < 1024 -> ld (copy_page d s m) (d / 4 + i) = ld m (s / 4 + i).
Proof.
  intros H. unfold ld at 1, copy_page. rewrite (lookup_foldr_page d (fun i => ld m (s / 4 + Z.of_nat i))), decide_True by (unfold in_page; lia).
  cbn. f_equal. lia.
Qed.
Lemma fill_page_same v m : v mod 4 = 0 -> v mod 8 = 0 -> same_but [v] m (fill_page (2 * (v / 8)) m).
Proof.
  intros H4 H8 w Hw. rewrite lookup_fill_page, decide_False; [done|]. intros Hi. apply (Hw v ltac:(by left)). unfold in_page.
  change (Z.of_nat PGWORDS) with 1024 in Hi. dlia.
Qed.

(** ** Address spaces *)

Definition vaddr (n : Z) : Prop := 0 <= n < 2 ^ 20.
Definition user (n : Z) : Prop := n < 2 ^ 19.
#[export] Instance user_dec n : Decision (user n) := Z_lt_dec _ _.

(** The page directory at [pgdir] has the page tables [T] and maps page [n] to
    the frame and flags [U !! n]. *)
Record space (m : words) (pgdir : Z) (T : gmap Z Z) (U : gmap Z (Z * Z)) : Prop := {
  sp_tab : forall i, 0 <= i < 1024 ->
    match T !! i with
    | Some t => ld m (pgdir / 4 + i) = t - KERNBASE + 7
    | None => has (ld m (pgdir / 4 + i)) PTE_P = false
    end;
  sp_ent : forall n, vaddr n ->
    match T !! (n / 1024), U !! n with
    | Some t, Some (pa, fl) => ld m (t / 4 + n mod 1024) = pa + fl /\ pa mod 4096 = 0 /\ 0 <= fl < 4096 /\ has fl PTE_P = true
    | Some t, None => has (ld m (t / 4 + n mod 1024)) PTE_P = false
    | None, o => o = None
    end;
  sp_tdom : forall i t, T !! i = Some t -> 0 <= i < 1024;
  sp_udom : forall n x, U !! n = Some x -> vaddr n;
}.

Definition tabs (T : gmap Z Z) : list Z := (map_to_list T).*2.
Definition frames (U : gmap Z (Z * Z)) : list Z :=
  (fun x => KERNBASE + x.2.1) <$> filter (fun x => user x.1) (map_to_list U).

Lemma tabs_insert T i t : T !! i = None -> tabs (<[i := t]> T) ≡ₚ t :: tabs T.
Proof. intros H. unfold tabs. by rewrite map_to_list_insert. Qed.
Lemma tabs_elem T i t : T !! i = Some t -> t ∈ tabs T.
Proof. intros H. apply list_elem_of_fmap. exists (i, t). split; [done|]. by apply elem_of_map_to_list. Qed.
Lemma frames_insert U n pa fl : U !! n = None -> user n -> frames (<[n := (pa, fl)]> U) ≡ₚ (KERNBASE + pa) :: frames U.
Proof. intros H Hu. unfold frames. rewrite map_to_list_insert by done. by rewrite filter_cons_True. Qed.
Lemma frames_insert_kernel U n pa fl : U !! n = None -> ~ user n -> frames (<[n := (pa, fl)]> U) ≡ₚ frames U.
Proof. intros H Hu. unfold frames. rewrite map_to_list_insert by done. by rewrite filter_cons_False. Qed.

Lemma frames_none U : (forall n x, U !! n = Some x -> ~ user n) -> frames U = [].
Proof.
  intros H. unfold frames. destruct (filter (fun x : Z * (Z * Z) => user x.1) (map_to_list U)) as [|[n x] l] eqn:E; [done|].
  assert ((n, x) ∈ filter (fun x : Z * (Z * Z) => user x.1) (map_to_list U)) as Hin by (rewrite E; by left).
  apply list_elem_of_filter in Hin as [Hu Hin]. apply elem_of_map_to_list in Hin. by apply H in Hin.
Qed.

Lemma space_frame m m' pgdir T U P : space m pgdir T U -> same_but P m m' ->
  pgdir mod 4096 = 0 -> Forall (fun t => t mod 4096 = 0) (tabs T) ->
  Forall (fun v => v mod 4096 = 0 /\ v <> pgdir /\ (v ∉ tabs T)) P -> space m' pgdir T U.
Proof.
  intros [S1 S2 S3 S4] HP Hd HT HO. rewrite list.Forall_forall in HT, HO.
  assert (forall i, 0 <= i < 1024 -> ld m' (pgdir / 4 + i) = ld m (pgdir / 4 + i)) as E1.
  { intros i Hi. apply (same_but_ld P _ _ _ HP). intros v Hv Hin. destruct (HO v Hv) as (? & ? & _).
    assert (v = pgdir); [|done]. apply (page_disjoint v pgdir (pgdir / 4 + i)); [done|done|done|unfold in_page; lia]. }
  assert (forall i t j, T !! i = Some t -> 0 <= j < 1024 -> ld m' (t / 4 + j) = ld m (t / 4 + j)) as E2.
  { intros i t j Ht Hj. apply tabs_elem in Ht. apply (same_but_ld P _ _ _ HP). intros v Hv Hin. destruct (HO v Hv) as (? & _ & Hn).
    apply Hn. assert (v = t) as ->; [|done]. apply (page_disjoint v t (t / 4 + j)); [done|by apply HT|done|unfold in_page; lia]. }
  split; [| |done|done].
  - intros i Hi. specialize (S1 i Hi). by rewrite E1.
  - intros n Hn. specialize (S2 n Hn). destruct (T !! (n / 1024)) as [t|] eqn:Ht; [|done].
    rewrite (E2 _ t _ Ht) by dlia. done.
Qed.

(** An address space in the kernel: [L] are the free pages, in order; [O] are
    pages that belong to others.  No page has two uses. *)
Record sys (s : kpages) (L : list Z) (pgdir : Z) (T : gmap Z Z) (U : gmap Z (Z * Z)) (O : list Z) : Prop := {
  sy_free : run_list (kp_mem s) (freelist (kp_pages s)) ((fun v => v / 8) <$> L);
  sy_space : space (kp_mem s) pgdir T U;
  sy_nodup : NoDup (L ++ pgdir :: tabs T ++ frames U ++ O);
  sy_page : Forall page (L ++ pgdir :: tabs T ++ frames U ++ O);
}.

Lemma page_word v : page v -> v mod 4096 = 0 /\ 2 * (v / 8) = v / 4 /\ 8 * (v / 8) = v /\ v <> 0 /\ 0 <= v < 2 ^ 32 /\
  v2p v = v - KERNBASE /\ p2v (v - KERNBASE) = v.
Proof.
  intros (H1 & _ & H3). unfold PGSIZE, KERNBASE, PHYSTOP in *. split_and!; try dlia.
  - unfold v2p, KERNBASE. by rewrite u32_small by lia.
  - unfold p2v, KERNBASE. rewrite u32_small; lia.
Qed.

Lemma free_frame m m' L P r : run_list m r ((fun v => v / 8) <$> L) -> same_but P m m' -> Forall page L ->
  Forall (fun v => v mod 4096 = 0 /\ (v ∉ L)) P -> run_list m' r ((fun v => v / 8) <$> L).
Proof.
  intros H HP HL HO. eapply run_list_frame; [exact H|]. intros a Ha. apply list_elem_of_fmap in Ha as (v & -> & Hv).
  rewrite list.Forall_forall in HL, HO. destruct (page_word v (HL v Hv)) as (H1 & -> & _). apply (same_but_ld P _ _ _ HP).
  intros v' Hv' Hin. destruct (HO v' Hv') as [H2 H3]. apply H3. assert (v' = v) as ->; [|done].
  apply (page_disjoint v' v (v / 4)); [done|done|done|unfold in_page; lia].
Qed.

(** The kernel without the address space: [L] are the free pages, [O] the pages in use. *)
Record owned (s : kpages) (L O : list Z) : Prop := {
  ow_free : run_list (kp_mem s) (freelist (kp_pages s)) ((fun v => v / 8) <$> L);
  ow_nodup : NoDup (L ++ O);
  ow_page : Forall page (L ++ O);
}.
Lemma owned_sys s L pgdir T U O : sys s L pgdir T U O -> owned s L (pgdir :: tabs T ++ frames U ++ O).
Proof. by intros [F S N G]. Qed.
Lemma owned_perm s L O O' : O ≡ₚ O' -> owned s L O -> owned s L O'.
Proof. intros E [F N G]. split; [done|by rewrite <- E|by rewrite <- E]. Qed.

Lemma kalloc_page_owned s L O : owned s L O ->
  match L with
  | [] => kalloc_page s = Ok 0 s
  | v :: L' => exists s', kalloc_page s = Ok v s' /\ kp_mem s' = kp_mem s /\ owned s' L' (v :: O) /\ page v
  end.
Proof.
  intros [F N G]. unfold kalloc_page, kalloc. destruct L as [|v L].
  - cbn in F. rewrite F. cbn. by destruct s as [m [ul fl]].
  - cbn [fmap list_fmap run_list] in F. destruct F as [E F]. rewrite E. cbn [app] in G, N. apply list.Forall_cons in G as [Gv G].
    destruct (page_word v Gv) as (H1 & H2 & H3 & H4 & _). rewrite (proj2 (Z.eqb_neq (v / 8) 0)) by lia.
    eexists. rewrite H3. split; [reflexivity|]. split; [done|]. split; [|done].
    assert (L ++ v :: O ≡ₚ v :: L ++ O) as EP by solve_Permutation.
    split; [exact F|by rewrite EP|rewrite EP; by constructor].
Qed.
Lemma owned_frame s m' L O P : owned s L O -> same_but P (kp_mem s) m' -> Forall (fun v => v ∈ O) P -> owned (KPages m' (kp_pages s)) L O.
Proof.
  intros [F N G] HP HO. split; cbn [kp_mem kp_pages]; [|done|done]. eapply free_frame; [exact F|exact HP|by apply list.Forall_app in G as [? _]|].
  apply list.Forall_app in G as [_ G]. rewrite list.Forall_forall in G. eapply list.Forall_impl; [exact HO|]. cbn. intros v Hv.
  split; [by destruct (G v Hv)|]. apply list.NoDup_app in N as (_ & N & _). intros HL. by apply (N v).
Qed.

(** Changing pages that are neither free nor the space's own tables. *)
Lemma sys_frame s m' L pgdir T U O P : sys s L pgdir T U O -> same_but P (kp_mem s) m' ->
  Forall (fun v => v mod 4096 = 0 /\ (v ∉ L) /\ v <> pgdir /\ (v ∉ tabs T)) P -> sys (KPages m' (kp_pages s)) L pgdir T U O.
Proof.
  intros [F S N G] HP HO. split; cbn [kp_mem kp_pages]; try done.
  - eapply free_frame; [exact F|exact HP|by apply list.Forall_app in G as [G _]|].
    eapply list.Forall_impl; [exact HO|]. cbn. intros v Hv. tauto.
  - apply list.Forall_app in G as [_ G]. apply list.Forall_cons in G as [Gd G]. apply list.Forall_app in G as [G _].
    eapply space_frame; [exact S|exact HP|by destruct Gd| |].
    + eapply list.Forall_impl; [exact G|]. by intros v [? _].
    + eapply list.Forall_impl; [exact HO|]. cbn. intros v Hv. tauto.
Qed.

(** Handing a page from the free list to somebody. *)
Lemma kalloc_page_ok s L pgdir T U O : sys s L pgdir T U O ->
  match L with
  | [] => kalloc_page s = Ok 0 s
  | v :: L' => exists s', kalloc_page s = Ok v s' /\ kp_mem s' = kp_mem s /\ sys s' L' pgdir T U (v :: O) /\ page v
  end.
Proof.
  intros Hs. pose proof (kalloc_page_owned _ _ _ (owned_sys _ _ _ _ _ _ Hs)) as K. destruct L as [|v L]; [done|].
  destruct K as (s' & E & Em & [F N G] & Hv). exists s'. split_and!; [done|done| |done].
  assert (L ++ pgdir :: tabs T ++ frames U ++ v :: O ≡ₚ L ++ v :: pgdir :: tabs T ++ frames U ++ O) as EP by solve_Permutation.
  split; [done|rewrite Em; apply Hs|by rewrite EP|by rewrite EP].
Qed.

Lemma pde_bits t : page t -> has (t - KERNBASE + 7) PTE_P = true /\ p2v (PTE_ADDR (t - KERNBASE + 7)) = t /\
  Z.lor (v2p t) (Z.lor PTE_P (Z.lor PTE_W PTE_U)) = t - KERNBASE + 7.
Proof.
  intros Hp. destruct (page_word t Hp) as (H1 & _ & _ & _ & H2 & H3 & H4).
  assert ((t - KERNBASE) mod 4096 = 0) as H5 by (unfold KERNBASE in *; dlia). split_and!.
  - unfold PTE_P. by rewrite has_entry.
  - rewrite PTE_ADDR_eq. replace ((t - KERNBASE + 7) / 4096 * 4096) with (t - KERNBASE) by dlia. done.
  - rewrite H3. by rewrite lor_page.
Qed.

Lemma walk_look s L pgdir T U O va : sys s L pgdir T U O -> 0 <= va < 2 ^ 32 ->
  walkpgdir pgdir va false s = Ok ((fun t => t / 4 + PTX va) <$> T !! (PDX va)) s.
Proof.
  intros [_ [S1 _ _ _] _ G] Hva. mrun.
  assert (0 <= PDX va < 1024) as Hi by (rewrite PDX_eq by lia; dlia). specialize (S1 _ Hi).
  destruct (T !! PDX va) as [t|] eqn:Ht.
  - rewrite S1. apply list.Forall_app in G as [_ G]. apply list.Forall_cons in G as [_ G]. apply list.Forall_app in G as [G _].
    rewrite list.Forall_forall in G. destruct (pde_bits t (G t (tabs_elem _ _ _ Ht))) as (-> & -> & _). done.
  - by rewrite S1.
Qed.

(** ** Changing an entry *)

Lemma tabs_inj T i j t : NoDup (tabs T) -> T !! i = Some t -> T !! j = Some t -> i = j.
Proof.
  intros N Hi Hj. apply elem_of_map_to_list, list_elem_of_lookup in Hi as [a Ha], Hj as [b Hb].
  unfold tabs in N. rewrite NoDup_alt in N. rewrite (N a b t) in Ha; [congruence|..]; by rewrite list_lookup_fmap, ?Ha, ?Hb.
Qed.

Record tables (pgdir : Z) (T : gmap Z Z) : Prop := {
  tb_nodup : NoDup (pgdir :: tabs T);
  tb_align : Forall (fun t => t mod 4096 = 0) (pgdir :: tabs T);
}.
Lemma tables_ne pgdir T i t w : tables pgdir T -> T !! i = Some t -> in_page t w -> ~ in_page pgdir w.
Proof.
  intros [N A] Ht H1 H2. apply list.NoDup_cons in N as [N _]. apply list.Forall_cons in A as [A1 A]. rewrite list.Forall_forall in A.
  apply N. apply tabs_elem in Ht. rewrite (page_disjoint pgdir t w); auto.
Qed.
Lemma tables_eq pgdir T i j t u w : tables pgdir T -> T !! i = Some t -> T !! j = Some u -> in_page t w -> in_page u w -> i = j /\ t = u.
Proof.
  intros [N A] Ht Hu H1 H2. apply list.NoDup_cons in N as [_ N]. apply list.Forall_cons in A as [_ A]. rewrite list.Forall_forall in A.
  assert (t = u) as <-; [|split; [by eapply tabs_inj|done]]. apply (page_disjoint t u w); eauto using tabs_elem.
Qed.

(** Writing the entry of page [n]. *)
Lemma space_store m pgdir T U n t e o : space m pgdir T U -> tables pgdir T -> vaddr n -> T !! (n / 1024) = Some t ->
  match o with
  | Some (pa, fl) => e = pa + fl /\ pa mod 4096 = 0 /\ 0 <= fl < 4096 /\ has fl PTE_P = true
  | None => has e PTE_P = false
  end ->
  space (<[t / 4 + n mod 1024 := e]> m) pgdir T (partial_alter (fun _ => o) n U).
Proof.
  intros [S1 S2 S3 S4] HT Hn Ht He. assert (in_page t (t / 4 + n mod 1024)) as Hin by (unfold in_page; dlia). split; [| |done|].
  - intros i Hi. rewrite ld_insert, decide_False; [by apply S1|]. intros E. apply (tables_ne _ _ _ _ _ HT Ht Hin).
    unfold in_page. lia.
  - intros k Hk. specialize (S2 k Hk). destruct (decide (k = n)) as [->|Hkn].
    + rewrite Ht, lookup_partial_alter_eq, ld_insert, decide_True by done. by destruct o as [[pa fl]|].
    + rewrite lookup_partial_alter_ne by done. destruct (T !! (k / 1024)) as [u|] eqn:Hu; [|done].
      rewrite ld_insert, decide_False; [done|]. intros E.
      destruct (tables_eq _ _ _ _ _ _ (t / 4 + n mod 1024) HT Ht Hu Hin) as [E1 <-]; [unfold in_page; dlia|]. dlia.
  - intros k x. destruct (decide (k = n)) as [->|]; [done|]. rewrite lookup_partial_alter_ne by done. apply S4.
Qed.

(** Installing a zeroed page table. *)
Lemma space_table m pgdir T U i t : space m pgdir T U -> tables pgdir (<[i := t]> T) -> 0 <= i < 1024 -> T !! i = None ->
  space (<[pgdir / 4 + i := t - KERNBASE + 7]> (zero_page t m)) pgdir (<[i := t]> T) U.
Proof.
  intros HS HT Hi Hn. destruct HS as [S1 S2 S3 S4].
  assert (forall j u k, <[i := t]> T !! j = Some u -> 0 <= k < 1024 ->
    ld (<[pgdir / 4 + i := t - KERNBASE + 7]> (zero_page t m)) (u / 4 + k) = if decide (j = i) then 0 else ld m (u / 4 + k)) as E.
  { intros j u k Hu Hk. assert (in_page u (u / 4 + k)) as Hin by (unfold in_page; lia). rewrite ld_insert, decide_False.
    - destruct (decide (j = i)) as [->|Hj].
      + rewrite lookup_insert_eq in Hu. injection Hu as <-. by apply zero_page_ld.
      + apply (same_but_ld [t] _ _ _ (zero_page_same t m)). intros v ->%list_elem_of_singleton H.
        apply Hj. by apply (tables_eq _ _ j i u t _ HT Hu ltac:(apply lookup_insert_eq) Hin H).
    - intros E. apply (tables_ne _ _ _ _ _ HT Hu Hin). unfold in_page. lia. }
  split; [| | |done].
  - intros j Hj. rewrite ld_insert. destruct (decide (j = i)) as [->|Hji].
    + by rewrite lookup_insert_eq, decide_True.
    + rewrite lookup_insert_ne, decide_False by lia.
      rewrite (same_but_ld [t] _ _ _ (zero_page_same t m)); [by apply S1|].
      intros v ->%list_elem_of_singleton H. apply (tables_ne _ _ i t _ HT ltac:(apply lookup_insert_eq) H). unfold in_page. lia.
  - intros n Hv. specialize (S2 n Hv). destruct (<[i := t]> T !! (n / 1024)) as [u|] eqn:Hu.
    + rewrite (E _ _ _ Hu) by dlia. destruct (decide (n / 1024 = i)) as [<-|Hne].
      * rewrite Hn in S2. by rewrite S2.
      * rewrite lookup_insert_ne in Hu by done. by rewrite Hu in S2.
    + apply lookup_insert_None in Hu as [Hu _]. by rewrite Hu in S2.
  - intros j u. rewrite lookup_insert_Some. intros [[<- _]|[_ ?]]; eauto.
Qed.

Lemma tables_of L pgdir T R : NoDup (L ++ pgdir :: tabs T ++ R) -> Forall page (L ++ pgdir :: tabs T ++ R) -> tables pgdir T.
Proof.
  intros N G. apply list.NoDup_app in N as (_ & _ & N). apply list.Forall_app in G as [_ G]. rewrite app_comm_cons in N, G.
  apply list.NoDup_app in N as [N _]. apply list.Forall_app in G as [G _]. split; [done|].
  eapply list.Forall_impl; [exact G|]. by intros v [? _].
Qed.
Lemma sys_tables s L pgdir T U O : sys s L pgdir T U O -> tables pgdir T.
Proof. intros [_ _ N G]. by eapply tables_of. Qed.
Lemma sys_table_page s L pgdir T U O i t : sys s L pgdir T U O -> T !! i = Some t -> page t.
Proof.
  intros [_ _ _ G] Ht. rewrite list.Forall_forall in G. apply G, elem_of_app. right. apply elem_of_cons. right.
  apply elem_of_app. left. by eapply tabs_elem.
Qed.

(** The pages a routine that only allocates may change. *)
Abbreviation grows := (fun s L (pgdir : Z) T s' L' T' =>
  same_but (L ++ pgdir :: tabs T) (kp_mem s) (kp_mem s') /\ L ++ tabs T ≡ₚ L' ++ tabs T' /\ T ⊆ T').
Lemma grows_refl s L pgdir T : grows s L pgdir T s L T.
Proof. split_and!; [apply same_but_refl|done|done]. Qed.
Lemma grows_trans s1 L1 pgdir T1 s2 L2 T2 s3 L3 T3 :
  grows s1 L1 pgdir T1 s2 L2 T2 -> grows s2 L2 pgdir T2 s3 L3 T3 -> grows s1 L1 pgdir T1 s3 L3 T3.
Proof.
  intros (A1 & B1 & C1) (A2 & B2 & C2). split_and!; [|by rewrite B1|by etrans].
  eapply same_but_weaken; [eapply same_but_trans; [exact A1|exact A2]|]. intros v.
  rewrite !elem_of_app, !elem_of_cons. assert (v ∈ L1 ++ tabs T1 <-> v ∈ L2 ++ tabs T2) as H by by rewrite B1.
  rewrite !elem_of_app in H. tauto.
Qed.

Lemma walk_alloc s L pgdir T U O va : sys s L pgdir T U O -> 0 <= va < 2 ^ 32 ->
  (L = [] /\ T !! PDX va = None /\ walkpgdir pgdir va true s = Ok None s) \/
  exists s' L' T' t, walkpgdir pgdir va true s = Ok (Some (t / 4 + PTX va)) s' /\ sys s' L' pgdir T' U O /\
    T' !! PDX va = Some t /\ grows s L pgdir T s' L' T' /\ L' = drop (if T !! PDX va is Some _ then 0 else 1) L.
Proof.
  intros Hs Hva. destruct (T !! PDX va) as [t|] eqn:Ht.
  - right. exists s, L, T, t. split; [|split_and!; try done; apply grows_refl]. pose proof (walk_look _ _ _ _ _ _ _ Hs Hva) as H.
    rewrite Ht in H. revert H. mrun. by destruct (has _ _).
  - assert (0 <= PDX va < 1024) as Hi by (rewrite PDX_eq by lia; dlia). pose proof (sp_tab _ _ _ _ (sy_space _ _ _ _ _ _ Hs) _ Hi) as H.
    rewrite Ht in H. mrun. rewrite H. cbn [negb]. pose proof (kalloc_page_ok _ _ _ _ _ _ Hs) as K. destruct L as [|v L].
    { left. rewrite K. done. }
    right. destruct K as (s1 & EK & Em & H1 & Hv). rewrite EK. destruct (page_word v Hv) as (V1 & _ & _ & V4 & _ & V6 & _).
    rewrite (proj2 (Z.eqb_neq _ _) V4). destruct (pde_bits v Hv) as (_ & _ & EB). rewrite EB. cbn [kp_mem kp_pages].
    eexists _, L, (<[PDX va := v]> T), v. split; [reflexivity|].
    destruct Hs as [F S N G]. destruct H1 as [F1 _ N1 G1].
    assert (L ++ pgdir :: tabs (<[PDX va := v]> T) ++ frames U ++ O ≡ₚ (v :: L) ++ pgdir :: tabs T ++ frames U ++ O) as EP
      by (rewrite tabs_insert by done; solve_Permutation).
    assert (same_but ((v :: L) ++ pgdir :: tabs T) (kp_mem s) (<[pgdir / 4 + PDX va := v - KERNBASE + 7]> (zero_page v (kp_mem s1)))) as Hsb.
    { rewrite Em. eapply same_but_weaken; [eapply same_but_trans; [apply zero_page_same|apply same_but_insert with (v := pgdir)]|].
      - unfold in_page. lia.
      - intros w. rewrite !elem_of_app, !elem_of_cons, elem_of_nil. tauto. }
    split_and!; [|by rewrite lookup_insert_eq|exact Hsb|by rewrite tabs_insert by done; solve_Permutation|by apply insert_subseteq|done].
    split; cbn [kp_mem kp_pages]; [| |by rewrite EP|by rewrite EP].
    + eapply free_frame; [rewrite <- Em in F; exact F1| |by apply list.Forall_app in G1 as [? _]|].
      * eapply same_but_trans; [apply zero_page_same|apply same_but_insert with (v := pgdir); unfold in_page; lia].
      * apply list.Forall_app in G as [_ G]. apply list.Forall_cons in G as [[Gd _] _].
        cbn [app] in N. apply list.NoDup_cons in N as [Nv N]. apply list.NoDup_app in N as (_ & N & _).
        repeat constructor; [done| |done|].
        -- intros HL. apply Nv, elem_of_app. by left.
        -- intros HL. apply (N _ HL). by left.
    + rewrite Em. apply space_table; [done| |done|done].
      eapply (tables_of L _ _ (frames U ++ O)); by rewrite EP.
Qed.

(** ** Mapping pages *)

Lemma lor_flags perm : 0 <= perm < 4096 -> 0 <= Z.lor perm PTE_P < 4096 /\ has (Z.lor perm PTE_P) PTE_P = true.
Proof.
  intros H. split.
  - assert (Z.land (Z.lor perm PTE_P) (Z.ones 12) = Z.lor perm PTE_P) as E.
    { rewrite Z.land_lor_distr_l, (Z.land_ones perm) by lia. by rewrite Z.mod_small. }
    rewrite Z.land_ones in E by lia. rewrite <- E. apply Z.mod_pos_bound. lia.
  - unfold PTE_P. rewrite has_pow2, Z.lor_spec by lia. apply orb_true_r.
Qed.
Lemma va_page n : vaddr n -> 0 <= 4096 * n < 2 ^ 32 /\ PDX (4096 * n) = n / 1024 /\ PTX (4096 * n) = n mod 1024.
Proof.
  unfold vaddr. intros H. rewrite PDX_eq, PTX_eq by lia. rewrite (Z.mul_comm 4096), Z.div_mul by lia. split_and!; [lia|lia| |done].
  apply Z.mod_small. dlia.
Qed.

(** The pages of others before and after page [n] is mapped to [pa]. *)
Definition takes (n pa : Z) (O O' : list Z) : Prop := O ≡ₚ if decide (user n) then (KERNBASE + pa) :: O' else O'.
Lemma frames_takes U n pa fl O O' : U !! n = None -> takes n pa O O' -> frames (<[n := (pa, fl)]> U) ++ O' ≡ₚ frames U ++ O.
Proof.
  unfold takes. intros Hn HO. rewrite HO. destruct (decide (user n)).
  - rewrite frames_insert by done. solve_Permutation.
  - by rewrite frames_insert_kernel.
Qed.

Lemma map_one s L pgdir T U O O' n pa perm : sys s L pgdir T U O -> vaddr n -> U !! n = None ->
  pa mod 4096 = 0 -> 0 <= perm < 4096 -> takes n pa O O' ->
  (L = [] /\ T !! (n / 1024) = None /\ walkpgdir pgdir (4096 * n) true s = Ok None s) \/
  exists s1 w L' T', walkpgdir pgdir (4096 * n) true s = Ok (Some w) s1 /\ has (ld (kp_mem s1) w) PTE_P = false /\
    let s' := KPages (<[w := Z.lor pa (Z.lor perm PTE_P)]> (kp_mem s1)) (kp_pages s1) in
    sys s' L' pgdir T' (<[n := (pa, Z.lor perm PTE_P)]> U) O' /\ grows s L pgdir T s' L' T' /\
    L' = drop (if T !! (n / 1024) is Some _ then 0 else 1) L.
Proof.
  intros Hs Hn HU Hpa Hperm HO. destruct (va_page n Hn) as (Hva & EPD & EPT). destruct (lor_flags perm Hperm) as [Hfl HP].
  destruct (walk_alloc _ _ _ _ _ _ _ Hs Hva) as [(? & ? & ?)|(s1 & L' & T' & t & E & H1 & Ht & Hg & HL)]; rewrite EPD in *; [by left|right].
  rewrite EPT in E. exists s1, (t / 4 + n mod 1024), L', T'. split; [done|]. pose proof H1 as [F S N G].
  pose proof (sp_ent _ _ _ _ S n Hn) as He. rewrite Ht, HU in He. split; [done|].
  assert (in_page t (t / 4 + n mod 1024)) as Hin by (unfold in_page; dlia). pose proof (sys_table_page _ _ _ _ _ _ _ _ H1 Ht) as Hpt.
  cbn zeta. split; [|split; [eapply grows_trans; [exact Hg|]|done]].
  - pose proof (frames_takes U n pa (Z.lor perm PTE_P) O O' HU HO) as EF.
    split; cbn [kp_mem kp_pages]; [| |by rewrite EF|by rewrite EF].
    + eapply free_frame; [exact F|by apply same_but_insert with (v := t)|by apply list.Forall_app in G as [? _]|].
      constructor; [|constructor]. split; [by destruct Hpt|]. apply list.NoDup_app in N as (_ & N & _). intros HtL. apply (N _ HtL).
      apply elem_of_cons. right. apply elem_of_app. left. by eapply tabs_elem.
    + rewrite lor_page by done. apply (space_store _ _ _ _ _ _ _ (Some (pa, Z.lor perm PTE_P))); [done|by eapply sys_tables|done|done|done].
  - split_and!; [|done|done]. cbn [kp_mem]. eapply same_but_weaken; [by apply same_but_insert with (v := t)|].
    intros v ->%list_elem_of_singleton. apply elem_of_app. right. apply elem_of_cons. right. by eapply tabs_elem.
Qed.

Lemma mappages_page s L pgdir T U O O' n pa perm : sys s L pgdir T U O -> vaddr n -> U !! n = None ->
  pa mod 4096 = 0 -> 0 <= perm < 4096 -> takes n pa O O' ->
  (L = [] /\ T !! (n / 1024) = None /\ mappages pgdir (4096 * n) PGSIZE pa perm s = Ok (-1) s) \/
  exists s' L' T', mappages pgdir (4096 * n) PGSIZE pa perm s = Ok 0 s' /\
    sys s' L' pgdir T' (<[n := (pa, Z.lor perm PTE_P)]> U) O' /\ grows s L pgdir T s' L' T' /\
    L' = drop (if T !! (n / 1024) is Some _ then 0 else 1) L.
Proof.
  intros Hs Hn HU Hpa Hperm HO. assert (mappages pgdir (4096 * n) PGSIZE pa perm = mappages_loop 1 pgdir (4096 * n) (4096 * n) pa perm) as ->.
  { unfold mappages. unfold vaddr in Hn. rewrite !PGROUNDDOWN_eq, (u32_small (4096 * n + PGSIZE - 1)) by (unfold PGSIZE; lia).
    replace ((4096 * n + PGSIZE - 1) / 4096 * 4096) with (4096 * n) by (unfold PGSIZE; dlia).
    replace (4096 * n / 4096 * 4096) with (4096 * n) by dlia. by rewrite Z.sub_diag. }
  destruct (map_one _ _ _ _ _ _ _ _ _ _ Hs Hn HU Hpa Hperm HO) as [(? & ? & E)|(s1 & w & L' & T' & E & H1 & H2 & Hg & HL)]; cbn [mappages_loop].
  - left. split_and!; [done|done|]. erewrite bind_ok by exact E. done.
  - right. erewrite bind_ok by exact E. mrun. rewrite H1, Z.eqb_refl. eauto 10.
Qed.

(** The map with the [k] pages from [n] on mapped to the frames from [pa] on. *)
Fixpoint map_pages (U : gmap Z (Z * Z)) (n : Z) (k : nat) (pa fl : Z) : gmap Z (Z * Z) :=
  match k with
  | O => U
  | S k => map_pages (<[n := (pa, fl)]> U) (n + 1) k (pa + 4096) fl
  end.
Lemma lookup_map_pages U n k pa fl i :
  map_pages U n k pa fl !! i = if decide (n <= i < n + Z.of_nat k) then Some (pa + 4096 * (i - n), fl) else U !! i.
Proof.
  revert U n pa. induction k as [|k IH]; intros U n pa; cbn [map_pages]; [by rewrite decide_False by lia|].
  rewrite IH. destruct (decide (i = n)) as [->|].
  - rewrite decide_False, decide_True, lookup_insert_eq by lia. do 2 f_equal. lia.
  - rewrite lookup_insert_ne by done. repeat destruct (decide _); try lia; [|done]. do 2 f_equal. lia.
Qed.

Lemma mappages_loop_S f pgdir a last pa perm : mappages_loop (S f) pgdir a last pa perm =
  (o ← walkpgdir pgdir a true;
   match o with
   | None => mret (-1)
   | Some w =>
     e ← ldw w;
     if has e PTE_P then panic "remap" else
     stw w (Z.lor pa (Z.lor perm PTE_P)) ;;
     if a =? last then mret 0 else mappages_loop f pgdir (u32 (a + PGSIZE)) last (u32 (pa + PGSIZE)) perm
   end).
Proof. done. Qed.

(** A page table is there for a page that is mapped. *)
Definition tight (T : gmap Z Z) (U : gmap Z (Z * Z)) : Prop := forall i, is_Some (T !! i) -> exists n, n / 1024 = i /\ is_Some (U !! n).
Lemma tight_map s L pgdir T U s' L' T' n x O : sys s' L' pgdir T' (<[n := x]> U) O -> vaddr n -> grows s L pgdir T s' L' T' ->
  L' = drop (if T !! (n / 1024) is Some _ then 0 else 1) L -> tight T U -> tight T' (<[n := x]> U).
Proof.
  intros Hs Hn (_ & HP & HT) HL Ht i Hi. destruct (decide (i = n / 1024)) as [->|Hne]; [exists n; rewrite lookup_insert_eq; eauto|].
  destruct (T !! i) as [t|] eqn:E; [destruct (Ht i ltac:(eauto)) as (m & Hm & [y Hy]); exists m; split; [done|]; rewrite lookup_insert; case_decide; eauto|].
  exfalso. destruct Hi as [t Hi]. pose proof (sp_ent _ _ _ _ (sy_space _ _ _ _ _ _ Hs) n Hn) as He. rewrite lookup_insert_eq in He.
  destruct (T' !! (n / 1024)) as [u|] eqn:Eu; [|done]. apply Permutation_length in HP. unfold tabs in HP.
  rewrite !length_app, !length_fmap, !length_map_to_list, HL in HP.
  assert (size (<[i := t]> T) = S (size T)) as Z1 by by apply map_size_insert_None. destruct (T !! (n / 1024)) eqn:En.
  - rewrite drop_0 in HP. assert (<[i := t]> T ⊆ T') as HS%map_subseteq_size by by apply insert_subseteq_l. lia.
  - rewrite length_drop in HP.
    assert (<[n / 1024 := u]> (<[i := t]> T) ⊆ T') as HS%map_subseteq_size by (apply insert_subseteq_l; [done|by apply insert_subseteq_l]).
    rewrite map_size_insert_None in HS by (by rewrite lookup_insert_ne). lia.
Qed.

Lemma mappages_kernel pgdir O perm k : forall s L T U n pa, sys s L pgdir T U O ->
  2 ^ 19 <= n -> n + Z.of_nat (S k) <= 2 ^ 20 -> (forall i, n <= i -> U !! i = None) ->
  pa mod 4096 = 0 -> 0 <= pa -> pa + 4096 * Z.of_nat (S k) <= 2 ^ 32 -> 0 <= perm < 4096 ->
  exists r s' L' T' j, mappages_loop (S k) pgdir (4096 * n) (4096 * (n + Z.of_nat k)) pa perm s = Ok r s' /\
    sys s' L' pgdir T' (map_pages U n j pa (Z.lor perm PTE_P)) O /\ grows s L pgdir T s' L' T' /\
    (r = 0 /\ j = S k \/ r = -1 /\ L' = [] /\ (j <= S k)%nat) /\ (tight T U -> tight T' (map_pages U n j pa (Z.lor perm PTE_P))).
Proof.
  induction k as [|k IH]; intros s L T U n pa Hs Hn Hk HU Hpa Hpa0 Hpa1 Hperm; rewrite mappages_loop_S.
  all: assert (takes n pa O O) as HO by (unfold takes; rewrite decide_False; [done|unfold user; lia]).
  all: destruct (map_one s L pgdir T U O O n pa perm Hs ltac:(unfold vaddr; lia) (HU n ltac:(lia)) Hpa Hperm HO)
    as [(HL & _ & E)|(s1 & w & L1 & T1 & E & H1 & H2 & Hg & HL)]; erewrite bind_ok by exact E.
  1,3: exists (-1), s, L, T, 0%nat; split; [done|]; split; [done|]; split; [apply grows_refl|]; split; [right; split_and!; [done|done|lia]|done].
  all: assert (tight T U -> tight T1 (<[n := (pa, Z.lor perm PTE_P)]> U)) as HT1 by (apply (tight_map _ _ _ _ _ _ _ _ _ _ _ H2 ltac:(unfold vaddr; lia) Hg HL)).
  - mrun. rewrite H1. rewrite Z.add_0_r, Z.eqb_refl. eexists 0, _, L1, T1, 1%nat. split; [reflexivity|]. split; [exact H2|]. split; [exact Hg|].
    split; [by left|exact HT1].
  - mrun. rewrite H1. rewrite (proj2 (Z.eqb_neq (4096 * n) _)) by lia.
    rewrite !u32_small by (unfold PGSIZE; lia).
    destruct (IH _ L1 T1 _ (n + 1) (pa + PGSIZE) H2) as (r & s' & L' & T' & j & E2 & R1 & R2 & R3 & R4); try (unfold PGSIZE; lia).
    { intros i Hi. rewrite lookup_insert_ne by lia. apply HU. lia. }
    { unfold PGSIZE. dlia. }
    replace (4096 * n + PGSIZE) with (4096 * (n + 1)) by (unfold PGSIZE; lia).
    replace (n + Z.of_nat (S k)) with (n + 1 + Z.of_nat k) by lia. rewrite E2.
    eexists r, s', L', T', (S j). split; [done|]. split; [exact R1|]. split; [by eapply grows_trans|]. split; [|by intros Ht; apply R4, HT1].
    destruct R3 as [[-> ->]|(-> & -> & Hj)]; [by left|]. right. split_and!; [done|done|lia].
Qed.

(** ** The kernel's part of an address space *)

Definition kpagesz (k : kmap) : Z := u32 (phys_end k - phys_start k) / 4096.
Definition add_kmap (U : gmap Z (Z * Z)) (k : kmap) : gmap Z (Z * Z) :=
  map_pages U (virt k / 4096) (Z.to_nat (kpagesz k)) (phys_start k) (Z.lor (perm k) PTE_P).
(** The areas are whole pages, in order, from page [lo] on. *)
Fixpoint areas (lo : Z) (ks : list kmap) : Prop :=
  match ks with
  | [] => True
  | k :: ks' => lo <= virt k / 4096 /\ virt k mod 4096 = 0 /\ phys_start k mod 4096 = 0 /\ 0 <= phys_start k /\
      u32 (phys_end k - phys_start k) mod 4096 = 0 /\ 0 < kpagesz k /\ virt k / 4096 + kpagesz k <= 2 ^ 20 /\
      phys_start k + 4096 * kpagesz k <= 2 ^ 32 /\ 0 <= perm k < 4096 /\ areas (virt k / 4096 + kpagesz k) ks'
  end.

Definition in_areas (ks : list kmap) (n : Z) : Prop := exists k, k ∈ ks /\ virt k / 4096 <= n < virt k / 4096 + kpagesz k.
Lemma setupkvm_loop_ok pgdir O ks : forall lo s L T U, sys s L pgdir T U O -> 2 ^ 19 <= lo -> areas lo ks ->
  (forall i, lo <= i -> U !! i = None) -> (forall n x, U !! n = Some x -> ~ user n) -> pgdir <> 0 ->
  exists r s' L' T' U', setupkvm_loop pgdir ks s = Ok r s' /\ sys s' L' pgdir T' U' O /\ grows s L pgdir T s' L' T' /\
    (r = pgdir /\ U' = foldl add_kmap U ks \/ r = 0 /\ L' = [] /\ forall n x, U' !! n = Some x -> ~ user n) /\
    (tight T U -> tight T' U') /\ (forall n, is_Some (U' !! n) -> is_Some (U !! n) \/ in_areas ks n).
Proof.
  induction ks as [|k ks IH]; intros lo s L T U Hs Hlo Ha HU HK Hd; cbn [setupkvm_loop foldl].
  { exists pgdir, s, L, T, U. split; [done|]. split; [done|]. split; [apply grows_refl|]. split; [by left|]. split; [done|by left]. }
  destruct Ha as (A1 & A2 & A3 & A4 & A5 & A6 & A7 & A8 & A9 & Ha). set (v := virt k / 4096) in *. set (c := kpagesz k) in *.
  assert (u32 (phys_end k - phys_start k) = 4096 * c) as Ec by (unfold c, kpagesz; dlia). rewrite Ec.
  assert (virt k = 4096 * v) as Ev by (unfold v; dlia). rewrite Ev.
  assert (mappages pgdir (4096 * v) (4096 * c) (phys_start k) (perm k) =
    mappages_loop (S (Z.to_nat (c - 1))) pgdir (4096 * v) (4096 * (v + Z.of_nat (Z.to_nat (c - 1)))) (phys_start k) (perm k)) as ->.
  { unfold mappages. rewrite !PGROUNDDOWN_eq, (u32_small (4096 * v + 4096 * c - 1)) by lia.
    replace (4096 * v / 4096 * 4096) with (4096 * v) by dlia.
    replace ((4096 * v + 4096 * c - 1) / 4096 * 4096) with (4096 * (v + Z.of_nat (Z.to_nat (c - 1)))) by dlia.
    rewrite u32_small by lia. f_equal. unfold PGSIZE. dlia. }
  destruct (mappages_kernel pgdir O (perm k) (Z.to_nat (c - 1)) s L T U v (phys_start k) Hs) as (r & s1 & L1 & T1 & j & E & H1 & Hg & Hr & Ht1);
    try lia. { intros i Hi. apply HU. lia. }
  assert (forall n x, map_pages U v j (phys_start k) (Z.lor (perm k) PTE_P) !! n = Some x -> ~ user n) as HK1.
  { intros n x. rewrite lookup_map_pages. destruct (decide _); [unfold user; lia|apply HK]. }
  assert (forall n, is_Some (map_pages U v j (phys_start k) (Z.lor (perm k) PTE_P) !! n) -> is_Some (U !! n) \/ in_areas (k :: ks) n) as HA1.
  { intros n. rewrite lookup_map_pages. destruct (decide _) as [Hd1|]; [|by left]. intros _. right. exists k. split; [by left|]. fold v c. lia. }
  erewrite bind_ok by exact E. destruct Hr as [[-> ->]|(-> & -> & Hj)].
  - cbn [Z.ltb Z.compare]. destruct (IH (v + c) s1 L1 T1 _ H1) as (r & s' & L' & T' & U' & E2 & R1 & R2 & R3 & R4 & R5); [lia|done| |done|done|].
    { intros i Hi. rewrite lookup_map_pages, decide_False by lia. apply HU. lia. }
    exists r, s', L', T', U'. split; [done|]. split; [done|]. split; [by eapply grows_trans|]. split.
    + destruct R3 as [[-> ->]|R3]; [left|by right]. split; [done|]. f_equal. unfold add_kmap. fold v c. f_equal. lia.
    + split; [by auto|]. intros n [?|(k' & Hk' & ?)]%R5; [by apply HA1|]. right. exists k'. split; [by right|done].
  - cbn [Z.ltb Z.compare]. eexists 0, s1, [], T1, _. split; [done|]. split; [exact H1|]. split; [done|]. split; [by right|done].
Qed.

Lemma space_empty pgdir m : space (zero_page pgdir m) pgdir ∅ ∅.
Proof.
  split.
  - intros i Hi. rewrite lookup_empty, zero_page_ld by (unfold in_page; lia). done.
  - intros n Hn. by rewrite !lookup_empty.
  - intros i t. by rewrite lookup_empty.
  - intros i t. by rewrite lookup_empty.
Qed.

(** The data segment starts on a page of the kernel's memory, after the text. *)
Definition kdata_ok (kdata : Z) : Prop := kdata mod 4096 = 0 /\ KERNLINK < kdata < KERNBASE + PHYSTOP.
Definition kernel_map (kdata : Z) : gmap Z (Z * Z) := foldl add_kmap ∅ (kmaps kdata).

(** The kernel's pages are not for users. *)
Lemma kernel_map_private kdata n pa fl : kernel_map kdata !! n = Some (pa, fl) -> has fl PTE_U = false.
Proof.
  unfold kernel_map. assert (forall ks U, Forall (fun k => has (Z.lor (perm k) PTE_P) PTE_U = false) ks -> (forall n pa fl, U !! n = Some (pa, fl) -> has fl PTE_U = false) ->
    forall n pa fl, foldl add_kmap U ks !! n = Some (pa, fl) -> has fl PTE_U = false) as H.
  { induction ks as [|k ks IH]; intros U Hk HU; [done|]. apply list.Forall_cons in Hk as [Hk Hks]. cbn [foldl]. apply IH; [done|].
    intros i pa' fl'. unfold add_kmap. rewrite lookup_map_pages. case_decide; [by intros [= _ <-]|apply HU]. }
  apply H; [by repeat constructor|]. intros i pa' fl'. by rewrite lookup_empty.
Qed.
Lemma kmaps_areas kdata : kdata_ok kdata -> areas (2 ^ 19) (kmaps kdata).
Proof.
  intros [K1 K2]. unfold kmaps, areas, kpagesz. cbn [virt phys_start phys_end perm].
  unfold v2p, KERNLINK, KERNBASE, EXTMEM, PHYSTOP, DEVSPACE, PTE_W, PTE_P in *.
  rewrite (u32_small (kdata - _)), (u32_small (0x80000000 + _ - _)) by lia.
  rewrite (u32_small (kdata - _ - _)), (u32_small (_ - (kdata - _))) by lia.
  change (u32 (0 - 0xFE000000)) with 0x2000000. change (u32 (0x100000 - 0)) with 0x100000. split_and!; dlia.
Qed.

(** A directory has at most 1024 tables, a map at most as many pages as it has keys. *)
Lemma keys_length (ks : list Z) n : NoDup ks -> (forall k, k ∈ ks -> 0 <= k < n) -> Z.of_nat (length ks) <= Z.max 0 n.
Proof.
  intros N H. assert (ks ⊆+ seqZ 0 n) as Hs.
  { apply NoDup_submseteq; [done|]. intros k Hk. apply elem_of_seqZ. specialize (H k Hk). lia. }
  apply submseteq_length in Hs. rewrite length_seqZ in Hs. lia.
Qed.
Lemma tabs_length m pgdir T U : space m pgdir T U -> Z.of_nat (length (tabs T)) <= 1024.
Proof.
  intros [_ _ S _]. unfold tabs. rewrite length_fmap, <- (length_fmap fst). apply (keys_length _ 1024); [apply NoDup_fst_map_to_list|].
  intros k Hk. apply list_elem_of_fmap in Hk as ([i t] & -> & Hi). apply elem_of_map_to_list in Hi. by eapply S.
Qed.
Lemma frames_length U hi : (forall n x, U !! n = Some x -> user n -> 0 <= n < hi) -> Z.of_nat (length (frames U)) <= Z.max 0 hi.
Proof.
  intros H. unfold frames. rewrite length_fmap, <- (length_fmap fst). apply keys_length.
  - eapply sublist_NoDup; [apply (NoDup_fst_map_to_list U)|]. apply fmap_sublist, sublist_filter.
  - intros k Hk. apply list_elem_of_fmap in Hk as ([n x] & -> & Hi). apply list_elem_of_filter in Hi as [Hu Hi].
    apply elem_of_map_to_list in Hi. by eapply H.
Qed.

(** The kernel's mappings need 64 page tables. *)
Lemma kernel_tabs kdata T U : kdata_ok kdata -> tight T U -> (forall n, is_Some (U !! n) -> in_areas (kmaps kdata) n) -> Z.of_nat (length (tabs T)) <= 64.
Proof.
  intros [_ Hk] Ht Hu. unfold tabs. rewrite length_fmap. assert ((map_to_list T).*1 ⊆ seqZ 512 56 ++ seqZ 1016 8) as HS.
  { intros i ([j t] & -> & H%elem_of_map_to_list)%list_elem_of_fmap. cbn [fst]. destruct (Ht j ltac:(eauto)) as (n & <- & (k & Hin & Hn)%Hu).
    rewrite elem_of_app, !elem_of_seqZ. unfold kmaps in Hin. rewrite !elem_of_cons in Hin. unfold KERNLINK, KERNBASE, EXTMEM, PHYSTOP in *.
    destruct Hin as [->|[->|[->|[->|Hin]]]]; [..|by apply not_elem_of_nil in Hin];
      unfold kpagesz in Hn; cbn [virt phys_start phys_end] in Hn; unfold v2p, KERNLINK, KERNBASE, EXTMEM, PHYSTOP, DEVSPACE in Hn; rewrite ?(u32_small (kdata - _)) in Hn by lia;
      rewrite ?u32_small in Hn by (rewrite ?u32_small; lia); first [change (u32 (0 - 0xFE000000)) with 0x2000000 in Hn|idtac]; dlia. }
  pose proof (submseteq_length _ _ (NoDup_submseteq _ _ (NoDup_fst_map_to_list T) HS)) as Hl. rewrite length_fmap, length_app, !length_seqZ in Hl.
  lia.
Qed.

(** [setupkvm] fails only when memory runs out, and then it does not give back
    what it took. *)
Lemma setupkvm_ok kdata s L O : owned s L O -> kdata_ok kdata ->
  exists r s', setupkvm kdata s = Ok r s' /\ same_but L (kp_mem s) (kp_mem s') /\
    (r = 0 /\ Z.of_nat (length L) <= 65 /\ (exists X, L ≡ₚ X /\ owned s' [] (X ++ O)) \/
     exists L' T, (r <> 0 /\ Z.of_nat (length (tabs T)) <= 64) /\ sys s' L' r T (kernel_map kdata) O /\ L ≡ₚ L' ++ r :: tabs T).
Proof.
  intros Ho Hk. unfold setupkvm. pose proof (kalloc_page_owned s L O Ho) as K. destruct L as [|d L].
  { erewrite bind_ok by exact K. exists 0, s. split_and!; [done|apply same_but_refl|]. left. split_and!; [done|cbn; lia|]. by exists []. }
  destruct K as (s1 & E & Em & H1 & Hd). erewrite bind_ok by exact E. destruct (page_word d Hd) as (V1 & _ & _ & V4 & _).
  rewrite (proj2 (Z.eqb_neq _ _) V4). assert (negb (DEVSPACE <? p2v PHYSTOP) = true) as -> by done.
  cbv [on_mem assert_or modify mret M_ret mbind M_bind]. cbn beta iota.
  assert (same_but [d] (kp_mem s) (zero_page d (kp_mem s1))) as Hz by (rewrite Em; apply zero_page_same).
  assert (sys (KPages (zero_page d (kp_mem s1)) (kp_pages s1)) L d ∅ ∅ O) as H2.
  { assert (owned (KPages (zero_page d (kp_mem s1)) (kp_pages s1)) L (d :: O)) as [F N G].
    { eapply owned_frame; [exact H1|apply zero_page_same|]. constructor; [by left|constructor]. }
    split; [done|apply space_empty|done|done]. }
  destruct (setupkvm_loop_ok d O (kmaps kdata) (2 ^ 19) _ L ∅ ∅ H2 ltac:(lia) (kmaps_areas kdata Hk)) as (r & s' & L' & T' & U' & E2 & R1 & (B1 & B2 & _) & R3 & R4 & R5);
    [intros; apply lookup_empty|intros ??; by rewrite lookup_empty|done|]. rewrite E2. exists r, s'. change (tabs ∅) with (@nil Z) in *.
    rewrite app_nil_r in B2.
  split_and!; [done| |].
  { eapply same_but_weaken; [eapply same_but_trans; [exact Hz|exact B1]|]. intros v. rewrite !elem_of_app, !elem_of_cons, elem_of_nil. tauto. }
  assert (Z.of_nat (length (tabs T')) <= 64) as HT.
  { apply (kernel_tabs kdata T' U' Hk).
    - apply R4. intros i. rewrite lookup_empty. by intros [? ?].
    - intros n [H|H]%R5; [|done]. rewrite lookup_empty in H. by destruct H. }
  destruct R3 as [(-> & ->)|(-> & -> & HU)]; [right|left].
  - exists L', T'. split; [done|]. split; [done|]. rewrite B2. solve_Permutation.
  - split_and!; [done| |].
    + rewrite B2. cbn [app length]. lia.
    + exists (d :: tabs T'). split; [by rewrite B2|]. eapply owned_perm; [|by eapply owned_sys]. by rewrite (frames_none U' HU).
Qed.

(** ** Giving pages back *)

Lemma kfree_owned s L v O : owned s L (v :: O) -> exists s', kfree kend v s = Ok tt s' /\ owned s' (v :: L) O /\ same_but [v] (kp_mem s) (kp_mem s').
Proof.
  intros [F N G]. pose proof G as G'. apply list.Forall_app in G as [GL G]. apply list.Forall_cons in G as [Gv _].
  destruct (page_word v Gv) as (H1 & H2 & H3 & H4 & _). eexists. split; [by apply kfree_run|]. cbn [kp_mem kp_pages].
  assert (same_but [v] (kp_mem s) (<[2 * (v / 8) := freelist (kp_pages s)]> (fill_page (2 * (v / 8)) (kp_mem s)))) as Hsb.
  { eapply same_but_weaken; [eapply same_but_trans; [apply (fill_page_same v); dlia|apply same_but_insert with (v := v)]|].
    - rewrite H2. unfold in_page. lia.
    - intros w. rewrite elem_of_app. tauto. }
  split; [|done]. assert (v :: L ++ O ≡ₚ L ++ v :: O) as EP by solve_Permutation.
  split; cbn [kp_mem kp_pages freelist app]; [|by rewrite EP|by rewrite EP]. cbn [fmap list_fmap run_list]. split; [done|].
  rewrite ld_insert, decide_True by done. eapply free_frame; [exact F|exact Hsb|done|]. constructor; [|constructor]. split; [done|].
  apply list.NoDup_app in N as (_ & N & _). intros HL. apply (N v HL). by left.
Qed.

Definition cut (lo hi : Z) (U : gmap Z (Z * Z)) : gmap Z (Z * Z) := filter (fun x => ~ (lo <= x.1 < hi)) U.
Lemma lookup_cut lo hi U n : cut lo hi U !! n = if decide (lo <= n < hi) then None else U !! n.
Proof.
  unfold cut. destruct (decide _) as [H|H].
  - apply map_lookup_filter_None. right. intros x _. cbn. tauto.
  - destruct (U !! n) eqn:E; [by apply map_lookup_filter_Some|]. apply map_lookup_filter_None. by left.
Qed.
Lemma cut_none lo hi U : (forall n, lo <= n < hi -> U !! n = None) -> cut lo hi U = U.
Proof. intros H. apply map_eq. intros n. rewrite lookup_cut. destruct (decide _); [by rewrite H|done]. Qed.
Lemma cut_step lo lo' hi U : lo <= lo' -> (forall n, lo <= n < lo' -> n < hi -> U !! n = None) -> cut lo hi U = cut lo' hi U.
Proof.
  intros Hl H. apply map_eq. intros n. rewrite !lookup_cut. repeat destruct (decide _); try done; try lia. rewrite H; [done|lia|lia].
Qed.
Lemma cut_delete lo hi U : lo < hi -> cut lo hi U = cut (lo + 1) hi (delete lo U).
Proof.
  intros Hl. apply map_eq. intros n. rewrite !lookup_cut. repeat destruct (decide _); try done; try lia.
  - replace n with lo by lia. by rewrite lookup_delete_eq.
  - by rewrite lookup_delete_ne by lia.
Qed.

Lemma frames_delete U n pa fl : U !! n = Some (pa, fl) -> user n -> frames U ≡ₚ (KERNBASE + pa) :: frames (delete n U).
Proof.
  intros H Hu. rewrite <- (insert_delete_id U n (pa, fl)) at 1 by done. rewrite frames_insert; [done|apply lookup_delete_eq|done].
Qed.

Lemma unmap_one s L pgdir T U O n pa fl t : sys s L pgdir T U O -> vaddr n -> user n -> T !! (n / 1024) = Some t -> U !! n = Some (pa, fl) ->
  exists s1, kfree kend (KERNBASE + pa) s = Ok tt s1 /\
    let s' := KPages (<[t / 4 + n mod 1024 := 0]> (kp_mem s1)) (kp_pages s1) in
    sys s' (KERNBASE + pa :: L) pgdir T (delete n U) O /\
    same_but (tabs T ++ frames U) (kp_mem s) (kp_mem s') /\ page (KERNBASE + pa).
Proof.
  intros Hs Hn Hu Ht HU. pose proof Hs as [F S N G]. set (v := KERNBASE + pa) in *.
  pose proof (frames_delete U n pa fl HU Hu) as EF. fold v in EF.
  assert (pgdir :: tabs T ++ frames U ++ O ≡ₚ v :: pgdir :: tabs T ++ frames (delete n U) ++ O) as EO by (rewrite EF; solve_Permutation).
  destruct (kfree_owned s L v (pgdir :: tabs T ++ frames (delete n U) ++ O)) as (s1 & E & [F1 N1 G1] & Hsb).
  { eapply owned_perm; [exact EO|]. by eapply owned_sys. }
  exists s1. split; [done|]. cbn zeta. assert (in_page t (t / 4 + n mod 1024)) as Hin by (unfold in_page; dlia).
  assert (page v) as Hv by (cbn [app] in G1; by apply list.Forall_cons in G1 as [? _]).
  pose proof (sys_table_page _ _ _ _ _ _ _ _ Hs Ht) as Hpt.
  split; [|split; [|done]].
  - split; cbn [kp_mem kp_pages]; [| |done|done].
    + eapply free_frame; [exact F1|by apply same_but_insert with (v := t)|by apply list.Forall_app in G1 as [? _]|].
      constructor; [|constructor]. split; [by destruct Hpt|]. apply list.NoDup_app in N1 as (_ & N1 & _). intros HtL. apply (N1 _ HtL).
      apply elem_of_cons. right. apply elem_of_app. left. by eapply tabs_elem.
    + apply (space_store _ _ _ _ _ _ _ None); [|by eapply sys_tables|done|done|done].
      cbn [app] in N1. apply list.NoDup_cons in N1 as [Nv _]. rewrite elem_of_app, elem_of_cons, elem_of_app in Nv.
      destruct (sys_tables _ _ _ _ _ _ Hs) as [_ A]. apply list.Forall_cons in A as [A1 A].
      eapply space_frame; [exact S|exact Hsb|done|done|]. constructor; [|constructor]. split_and!; [by destruct Hv|tauto|tauto].
  - cbn [kp_mem]. eapply same_but_weaken; [eapply same_but_trans; [exact Hsb|by apply same_but_insert with (v := t)]|].
    intros w. rewrite EF, !elem_of_app, !elem_of_cons, elem_of_nil. intros [[->|[]]|[->|[]]]; [by auto|left; by eapply tabs_elem].
Qed.

Context (kend_high : KERNBASE < kend).

Lemma deallocuvm_loop_S f pgdir a oldsz : deallocuvm_loop kend (S f) pgdir a oldsz =
  if a <? oldsz then
    o ← walkpgdir pgdir a false;
    match o with
    | None => deallocuvm_loop kend f pgdir (u32 (a + (NPTENTRIES - 1) * PGSIZE + PGSIZE)) oldsz
    | Some w =>
      e ← ldw w;
      (if has e PTE_P then
         assert_or (negb (PTE_ADDR e =? 0)) "kfree" ;;
         kfree kend (p2v (PTE_ADDR e)) ;;
         stw w 0
       else mret tt) ;;
      deallocuvm_loop kend f pgdir (u32 (a + PGSIZE)) oldsz
    end
  else mret tt.
Proof. done. Qed.

(** What a present entry of a page says. *)
Lemma entry_bits pa fl : page (KERNBASE + pa) -> pa mod 4096 = 0 -> 0 <= fl < 4096 -> has fl PTE_P = true ->
  has (pa + fl) PTE_P = true /\ PTE_ADDR (pa + fl) = pa /\ PTE_FLAGS (pa + fl) = fl /\ p2v pa = KERNBASE + pa /\ pa <> 0.
Proof.
  intros Hp Ha Hf Hh. destruct (page_word _ Hp) as (_ & _ & _ & _ & _ & _ & E). replace (KERNBASE + pa - KERNBASE) with pa in E by lia.
  split_and!; [unfold PTE_P; rewrite has_entry by lia; exact Hh|rewrite PTE_ADDR_eq; dlia|rewrite PTE_FLAGS_eq; dlia|done|].
  destruct Hp as (_ & Hp & _). lia.
Qed.

(** The loop steps over a missing table in one go, which is right where the
    position is the first page of the table, or nothing is mapped after it. *)
Definition skippable (T : gmap Z Z) (U : gmap Z (Z * Z)) (i hi : Z) : Prop :=
  i mod 1024 = 0 \/ is_Some (T !! (i / 1024)) \/ (forall n, i <= n < hi -> U !! n = None).

Lemma skippable_next T U i hi t : T !! (i / 1024) = Some t -> skippable T U (i + 1) hi.
Proof.
  intros Ht. destruct (decide ((i + 1) mod 1024 = 0)); [by left|]. right. left. replace ((i + 1) / 1024) with (i / 1024) by dlia. by rewrite Ht.
Qed.
Lemma skippable_sub T U U' i hi : skippable T U i hi -> (forall n, U !! n = None -> U' !! n = None) -> skippable T U' i hi.
Proof. unfold skippable. intros [?|[?|H]] H2; [by left|right; left; done|right; right; auto]. Qed.
(** Nothing is mapped where the table is missing. *)
Lemma skip_none m pgdir T U i hi : space m pgdir T U -> 0 <= i -> hi <= 2 ^ 20 -> T !! (i / 1024) = None -> skippable T U i hi ->
  forall n, i <= n < i + 1024 -> n < hi -> U !! n = None.
Proof.
  intros [_ S2 _ _] Hi Hhi Ht [H|[[? H]|H]] n Hn Hn2; [|congruence|apply H; lia].
  specialize (S2 n ltac:(unfold vaddr; lia)). by replace (n / 1024) with (i / 1024) in S2; [rewrite Ht in S2|dlia].
Qed.

Lemma deallocuvm_loop_ok fuel : forall s L pgdir T U O i hi oldsz, sys s L pgdir T U O ->
  0 <= i -> hi = (oldsz + 4095) / 4096 -> oldsz <= KERNBASE -> i < 2 ^ 19 + 1024 -> hi - i < Z.of_nat fuel -> 0 < Z.of_nat fuel -> skippable T U i hi ->
  exists s' L', deallocuvm_loop kend fuel pgdir (4096 * i) oldsz s = Ok tt s' /\ sys s' L' pgdir T (cut i hi U) O /\
    L' ++ frames (cut i hi U) ≡ₚ L ++ frames U /\ same_but (tabs T ++ frames U) (kp_mem s) (kp_mem s').
Proof.
  induction fuel as [|f IH]; intros s L pgdir T U O i hi oldsz Hs Hi Hhi Ho Hi2 Hf Hf0 Hsk; [lia|]. rewrite deallocuvm_loop_S.
  destruct (Z.ltb_spec (4096 * i) oldsz) as [Hlt|Hge].
  2: { exists s, L. rewrite cut_none by (intros; dlia). split; [done|]. split; [done|]. split; [done|apply same_but_refl]. }
  assert (i < hi /\ hi <= 2 ^ 19) as [Hih Hh] by (unfold KERNBASE in *; dlia). assert (vaddr i) as Hv by (unfold vaddr; lia).
  destruct (va_page i Hv) as (Hva & EPD & EPT). erewrite bind_ok by (eapply walk_look; [exact Hs|exact Hva]). rewrite EPD, EPT.
  destruct (T !! (i / 1024)) as [t|] eqn:Ht; cbn [fmap option_fmap option_map].
  - pose proof (sp_ent _ _ _ _ (sy_space _ _ _ _ _ _ Hs) i Hv) as He. rewrite Ht in He.
    replace (u32 (4096 * i + PGSIZE)) with (4096 * (i + 1)) by (rewrite u32_small; unfold PGSIZE, KERNBASE in *; lia).
    destruct (U !! i) as [[pa fl]|] eqn:HU.
    + destruct He as (He & Hp1 & Hp2 & Hp3).
      destruct (unmap_one _ _ _ _ _ _ _ _ _ _ Hs Hv ltac:(unfold user; lia) Ht HU) as (s1 & E1 & H1 & Hsb1 & Hpg).
      destruct (entry_bits pa fl Hpg Hp1 Hp2 Hp3) as (B1 & B2 & _ & B4 & B5).
      pose proof (frames_delete U i pa fl HU ltac:(unfold user; lia)) as EF.
      destruct (IH _ _ _ _ _ _ (i + 1) hi oldsz H1) as (s' & L' & E2 & R1 & R2 & R3); [lia|done|done|lia|lia|lia|by eapply skippable_next|].
      exists s', L'. rewrite (cut_delete i hi) by lia. split.
      * mrun. rewrite He, B1, B2, (proj2 (Z.eqb_neq pa 0) B5), B4. cbv [assert_or mret M_ret]. cbn [negb]. rewrite E1. exact E2.
      * split; [done|]. split; [rewrite R2, EF; solve_Permutation|].
        eapply same_but_weaken; [eapply same_but_trans; [exact Hsb1|exact R3]|]. intros w. rewrite EF, !elem_of_app, elem_of_cons. tauto.
    + destruct (IH _ _ _ _ _ _ (i + 1) hi oldsz Hs) as (s' & L' & E2 & R1 & R2 & R3); [lia|done|done|lia|lia|lia|by eapply skippable_next|].
      exists s', L'. rewrite (cut_step i (i + 1) hi) by (try lia; intros n Hn _; by replace n with i by lia). split; [|done].
      mrun. rewrite He. exact E2.
  - pose proof (skip_none _ _ _ _ i hi (sy_space _ _ _ _ _ _ Hs) Hi ltac:(lia) Ht Hsk) as Hnone.
    replace (u32 (4096 * i + (NPTENTRIES - 1) * PGSIZE + PGSIZE)) with (4096 * (i + 1024)) by (rewrite u32_small; unfold PGSIZE, NPTENTRIES, KERNBASE in *; lia).
    destruct (IH _ _ _ _ _ _ (i + 1024) hi oldsz Hs) as (s' & L' & E2 & R1 & R2 & R3); [lia|done|done|lia|lia|lia| |].
    { destruct Hsk as [Hsk|[[? ?]|Hsk]]; [left; dlia|congruence|right; right; intros n Hn; apply Hsk; lia]. }
    exists s', L'. rewrite (cut_step i (i + 1024) hi) by (try lia; done). done.
Qed.

Lemma deallocuvm_ok s L pgdir T U O oldsz newsz lo hi : sys s L pgdir T U O ->
  0 <= newsz < oldsz -> oldsz <= KERNBASE -> lo = (newsz + 4095) / 4096 -> hi = (oldsz + 4095) / 4096 -> skippable T U lo hi ->
  exists s' L', deallocuvm kend pgdir oldsz newsz s = Ok newsz s' /\ sys s' L' pgdir T (cut lo hi U) O /\
    L' ++ frames (cut lo hi U) ≡ₚ L ++ frames U /\ same_but (tabs T ++ frames U) (kp_mem s) (kp_mem s').
Proof.
  intros Hs Hn Ho -> Hhi Hsk. unfold deallocuvm. rewrite (proj2 (Z.leb_gt oldsz newsz)) by lia.
  rewrite PGROUNDUP_eq by (unfold KERNBASE, PGSIZE in *; lia).
  replace ((newsz + PGSIZE - 1) / PGSIZE * PGSIZE) with (4096 * ((newsz + 4095) / 4096)) by (unfold PGSIZE; dlia).
  destruct (deallocuvm_loop_ok (Z.to_nat (2 ^ 32 / PGSIZE) + 1) s L pgdir T U O ((newsz + 4095) / 4096) hi oldsz Hs) as (s' & L' & E & R);
    [dlia|done|done|unfold KERNBASE in *; dlia| | |done|].
  - change (2 ^ 32 / PGSIZE) with (2 ^ 20). rewrite Nat2Z.inj_add, Z2Nat.id by lia. unfold KERNBASE in *. dlia.
  - lia.
  - exists s', L'. split; [|done]. erewrite bind_ok by exact E. done.
Qed.

Lemma tabs_delete T i t : T !! i = Some t -> tabs T ≡ₚ t :: tabs (delete i T).
Proof. intros H. rewrite <- (insert_delete_id T i t H) at 1. apply tabs_insert, lookup_delete_eq. Qed.
Lemma omap_ext_in (T T' : gmap Z Z) (ixs : list Z) : (forall i, i ∈ ixs -> T !! i = T' !! i) -> omap (fun i => T !! i) ixs = omap (fun i => T' !! i) ixs.
Proof.
  induction ixs as [|i ixs IH]; intros H; [done|]. cbn. rewrite (H i) by by left. rewrite IH; [done|]. intros j Hj. apply H. by right.
Qed.
Lemma omap_tabs (ixs : list Z) : forall T : gmap Z Z, NoDup ixs -> (forall i t, T !! i = Some t -> i ∈ ixs) -> omap (fun i => T !! i) ixs ≡ₚ tabs T.
Proof.
  induction ixs as [|i ixs IH]; intros T N H.
  - assert (T = ∅) as ->; [|done]. apply map_empty. intros j. destruct (T !! j) as [t|] eqn:E; [|done]. by apply H, elem_of_nil in E.
  - apply list.NoDup_cons in N as [Ni N]. cbn. destruct (T !! i) as [t|] eqn:E.
    + rewrite (tabs_delete T i t E). constructor.
      rewrite (omap_ext_in T (delete i T)) by (intros j Hj; by rewrite lookup_delete_ne by (intros ->; done)).
      apply IH; [done|]. intros j u. rewrite lookup_delete_Some. intros [Hne Hj]. by apply H, elem_of_cons in Hj as [->|].
    + apply IH; [done|]. intros j u Hj. pose proof (H _ _ Hj) as [->|]%elem_of_cons; [congruence|done].
Qed.

(** Freeing the page tables reads the directory, which is freed last. *)
Lemma freevm_tables_ok pgdir (T : gmap Z Z) O (ixs : list nat) : forall s L,
  (forall i, 0 <= i < 1024 ->
    match T !! i with
    | Some t => ld (kp_mem s) (pgdir / 4 + i) = t - KERNBASE + 7
    | None => has (ld (kp_mem s) (pgdir / 4 + i)) PTE_P = false
    end) ->
  owned s L (pgdir :: omap (fun i => T !! Z.of_nat i) ixs ++ O) -> (forall i, i ∈ ixs -> Z.of_nat i < 1024) ->
  exists s' L', freevm_tables kend pgdir ixs s = Ok tt s' /\ owned s' L' (pgdir :: O) /\ L' ≡ₚ L ++ omap (fun i => T !! Z.of_nat i) ixs /\
    same_but (omap (fun i => T !! Z.of_nat i) ixs) (kp_mem s) (kp_mem s').
Proof.
  induction ixs as [|i ixs IH]; intros s L Hd Ho Hix; cbn [freevm_tables omap list_omap].
  { exists s, L. rewrite app_nil_r. split; [done|]. split; [done|]. split; [done|apply same_but_refl]. }
  assert (0 <= Z.of_nat i < 1024) as Hi by (specialize (Hix i ltac:(by left)); lia). pose proof (Hd _ Hi) as Hi'.
  change (list_omap _ _ _ ixs) with (omap (fun i : nat => T !! Z.of_nat i) ixs) in *. cbn in Ho.
  destruct (T !! Z.of_nat i) as [t|] eqn:Ht.
  - destruct (kfree_owned s L t (pgdir :: omap (fun i => T !! Z.of_nat i) ixs ++ O)) as (s1 & E & H1 & Hsb).
    { eapply owned_perm; [|exact Ho]. solve_Permutation. }
    pose proof Ho as [_ N G]. apply list.Forall_app in G as [_ G]. apply list.Forall_cons in G as [Gd G]. apply list.Forall_cons in G as [Gt _].
    apply list.NoDup_app in N as (_ & _ & N). apply list.NoDup_cons in N as [N _]. destruct (pde_bits t Gt) as (B1 & B2 & _).
    destruct (IH s1 (t :: L)) as (s' & L' & E2 & R1 & R2 & R3); [|done|intros j Hj; apply Hix; by right|].
    { intros j Hj. rewrite (same_but_ld _ _ _ _ Hsb); [by apply Hd|]. intros v ->%list_elem_of_singleton Hin. apply N.
      assert (pgdir = t) as <-; [|by left]. apply (page_disjoint pgdir t (pgdir / 4 + j)); [by destruct Gd|by destruct Gt|unfold in_page; lia|done]. }
    exists s', L'. split_and!; [|done|rewrite R2; solve_Permutation|].
    + mrun. rewrite Hi', B1, B2, E. exact E2.
    + eapply same_but_weaken; [eapply same_but_trans; [exact Hsb|exact R3]|]. intros v.
      by rewrite elem_of_app, elem_of_cons, elem_of_cons, elem_of_nil; tauto.
  - destruct (IH s L Hd Ho) as (s' & L' & E2 & R); [intros j Hj; apply Hix; by right|]. exists s', L'. split; [|done].
    mrun. rewrite Hi'. exact E2.
Qed.


Lemma freevm_ok s L pgdir T U O : sys s L pgdir T U O ->
  exists s' L', freevm kend pgdir s = Ok tt s' /\ owned s' L' O /\ L' ≡ₚ L ++ pgdir :: tabs T ++ frames U /\
    same_but (pgdir :: tabs T ++ frames U) (kp_mem s) (kp_mem s').
Proof.
  intros Hs. unfold freevm. pose proof Hs as [_ Sp _ G]. apply list.Forall_app in G as [_ G]. apply list.Forall_cons in G as [Gd _].
  destruct (page_word pgdir Gd) as (_ & _ & _ & V4 & _). rewrite (proj2 (Z.eqb_neq pgdir 0) V4).
  destruct (deallocuvm_ok s L pgdir T U O KERNBASE 0 0 (2 ^ 19) Hs) as (s1 & L1 & E1 & H1 & P1 & B1); [done|done|done|done|by left|].
  assert (frames (cut 0 (2 ^ 19) U) = []) as Hcut.
  { apply frames_none. intros n x. rewrite lookup_cut. destruct (decide _); [done|]. intros HU Hu. apply (sp_udom _ _ _ _ Sp) in HU.
    unfold vaddr, user in *. lia. }
  rewrite Hcut, app_nil_r in P1.
  set (ts := omap (fun i => T !! Z.of_nat i) (seq 0 NPDENTRIES)).
  assert (ts ≡ₚ tabs T) as Et.
  { unfold ts. rewrite <- (omap_tabs (Z.of_nat <$> seq 0 NPDENTRIES) T).
    - generalize (seq 0 NPDENTRIES). intros l. clear. induction l as [|i l IH]; [done|]. cbn. destruct (T !! Z.of_nat i); [by constructor|done].
    - apply NoDup_fmap_2; [intros ???; lia|apply NoDup_seq].
    - intros i t Hi. apply (sp_tdom _ _ _ _ Sp) in Hi. apply list_elem_of_fmap. exists (Z.to_nat i). split; [lia|].
      apply elem_of_seq. unfold NPDENTRIES. lia. }
  destruct (freevm_tables_ok pgdir T O (seq 0 NPDENTRIES) s1 L1) as (s2 & L2 & E2 & H2 & P2 & B2).
  { apply H1. }
  { eapply owned_perm; [|by eapply owned_sys]. fold ts. by rewrite Hcut, Et. }
  { intros i Hi%elem_of_seq. unfold NPDENTRIES in Hi. lia. }
  fold ts in P2, B2. destruct (kfree_owned s2 L2 pgdir O H2) as (s' & E3 & H3 & B3).
  exists s', (pgdir :: L2). split_and!; [|done| |].
  - cbv [assert_or mret M_ret mbind M_bind] in *. cbn [negb]. rewrite E1, E2. exact E3.
  - rewrite P2, P1, Et. solve_Permutation.
  - eapply same_but_weaken; [eapply same_but_trans; [eapply same_but_trans; [exact B1|exact B2]|exact B3]|].
    intros v. rewrite Et, !elem_of_app, !elem_of_cons, elem_of_nil, elem_of_app. tauto.
Qed.

(** ** Growing *)

Lemma frame_elem U n pa fl : U !! n = Some (pa, fl) -> user n -> KERNBASE + pa ∈ frames U.
Proof. intros H Hu. rewrite (frames_delete U n pa fl H Hu). by left. Qed.
(** Frames and the pages of others are not touched by what changes free pages and tables only. *)
Lemma other_kept s L pgdir T U O v m' w : sys s L pgdir T U O -> v ∈ frames U ++ O ->
  same_but (L ++ pgdir :: tabs T) (kp_mem s) m' -> in_page v w -> ld m' w = ld (kp_mem s) w.
Proof.
  intros [_ _ N G] Hv Hsb Hw. apply (same_but_ld _ _ _ _ Hsb). intros u Hu Hin. set (R := L ++ pgdir :: tabs T) in *.
  assert (L ++ pgdir :: tabs T ++ frames U ++ O = R ++ frames U ++ O) as E by (unfold R; by rewrite <- app_assoc).
  rewrite E in N, G. apply list.NoDup_app in N as (_ & N & _). rewrite list.Forall_forall in G. apply (N u Hu).
  assert (u = v) as ->; [|done]. apply (page_disjoint _ _ w); [| |done|done].
  - destruct (G u) as [? _]; [|done]. apply elem_of_app. by left.
  - destruct (G v) as [? _]; [|done]. apply elem_of_app. by right.
Qed.
Lemma frame_kept s L pgdir T U O n pa fl m' w : sys s L pgdir T U O -> U !! n = Some (pa, fl) -> user n ->
  same_but (L ++ pgdir :: tabs T) (kp_mem s) m' -> in_page (KERNBASE + pa) w -> ld m' w = ld (kp_mem s) w.
Proof. intros Hs HU Hu. eapply other_kept; [exact Hs|]. apply elem_of_app. left. by eapply frame_elem. Qed.

Lemma allocuvm_loop_S f pgdir a oldsz newsz : allocuvm_loop kend (S f) pgdir a oldsz newsz =
  if a <? newsz then
    mem ← kalloc_page;
    if mem =? 0 then deallocuvm kend pgdir newsz oldsz ;; mret 0 else
    on_mem (zero_page mem) ;;
    mappages pgdir a PGSIZE (v2p mem) (Z.lor PTE_W PTE_U) ;;
    allocuvm_loop kend f pgdir (u32 (a + PGSIZE)) oldsz newsz
  else mret newsz.
Proof. done. Qed.

(** [U'] is [U] and new zeroed user pages at [lo..hi-1]. *)
Definition zero_filled (m : words) (U U' : gmap Z (Z * Z)) (lo hi : Z) : Prop := forall n,
  if decide (lo <= n < hi) then exists pa, U' !! n = Some (pa, 7) /\ forall j, 0 <= j < 1024 -> ld m ((KERNBASE + pa) / 4 + j) = 0
  else U' !! n = U !! n.

Lemma fresh_page s L pgdir T U O v : sys s L pgdir T U (v :: O) -> page v /\ (v ∉ L) /\ v <> pgdir /\ (v ∉ tabs T).
Proof.
  intros [_ _ N G]. assert (L ++ pgdir :: tabs T ++ frames U ++ v :: O ≡ₚ v :: L ++ pgdir :: tabs T ++ frames U ++ O) as E by solve_Permutation.
  rewrite E in N, G. apply list.NoDup_cons in N as [N _]. apply list.Forall_cons in G as [G _].
  rewrite elem_of_app, elem_of_cons, elem_of_app in N. split_and!; [done|tauto..].
Qed.

Lemma allocuvm_loop_ok pgdir O oldsz newsz hi : hi = (newsz + 4095) / 4096 -> newsz < KERNBASE -> forall f s L T U i, sys s L pgdir T U O ->
  0 <= i -> i <= hi -> hi - i < Z.of_nat f -> (forall n, i <= n < hi -> U !! n = None) -> 2 * (hi - i) <= Z.of_nat (length L) ->
  exists s' L' T' U', allocuvm_loop kend f pgdir (4096 * i) oldsz newsz s = Ok newsz s' /\ sys s' L' pgdir T' U' O /\
    zero_filled (kp_mem s') U U' i hi /\ L ++ tabs T ++ frames U ≡ₚ L' ++ tabs T' ++ frames U' /\
    same_but (L ++ pgdir :: tabs T) (kp_mem s) (kp_mem s').
Proof.
  intros Hhi Hnew. induction f as [|f IH]; intros s L T U i Hs Hi Hih Hf HU HL; [lia|]. rewrite allocuvm_loop_S.
  destruct (Z.ltb_spec (4096 * i) newsz) as [Hlt|Hge].
  2: { exists s, L, T, U. split; [done|]. split; [done|]. split; [|split; [done|apply same_but_refl]]. intros n. rewrite decide_False; [done|dlia]. }
  assert (i < hi /\ hi <= 2 ^ 19) as [Hih2 Hh] by (unfold KERNBASE in *; dlia). assert (user i) as Hu by (unfold user; lia).
  destruct L as [|v L]; [cbn in HL; lia|]. destruct (kalloc_page_ok _ _ _ _ _ _ Hs) as (s1 & E1 & Em & H1 & Hv).
  erewrite bind_ok by exact E1. destruct (page_word v Hv) as (V1 & V2 & V3 & V4 & V5 & V6 & V7). rewrite (proj2 (Z.eqb_neq v 0) V4).
  erewrite bind_ok by reflexivity. destruct (fresh_page _ _ _ _ _ _ _ H1) as (_ & X1 & X2 & X3).
  assert (sys (KPages (zero_page v (kp_mem s1)) (kp_pages s1)) L pgdir T U (v :: O)) as H2.
  { eapply sys_frame; [exact H1|apply zero_page_same|]. constructor; [done|constructor]. }
  destruct (mappages_page _ L pgdir T U (v :: O) O i (v2p v) 6 H2) as [(-> & _)|(s2 & L2 & T2 & E2 & H3 & (G1 & G2 & G3) & EL)];
    [unfold vaddr; lia|apply HU; lia|rewrite V6; unfold KERNBASE; dlia|lia| |cbn in HL; lia|].
  { unfold takes. rewrite decide_True by done. rewrite V6. by replace (KERNBASE + (v - KERNBASE)) with v by lia. }
  erewrite bind_ok by exact E2. change (Z.lor 6 PTE_P) with 7 in H3. rewrite V6 in H3.
  replace (u32 (4096 * i + PGSIZE)) with (4096 * (i + 1)) by (rewrite u32_small; unfold PGSIZE, KERNBASE in *; lia).
  destruct (IH s2 L2 T2 _ (i + 1) H3) as (s' & L' & T' & U' & E3 & R1 & R2 & R3 & R4); [lia|lia|lia| | |].
  { intros n Hn. rewrite lookup_insert_ne by lia. apply HU. lia. }
  { subst L2. rewrite length_drop. cbn in HL. destruct (T !! _); lia. }
  exists s', L', T', U'. split; [exact E3|]. split; [done|]. split_and!.
  - intros n. specialize (R2 n). destruct (decide (n = i)) as [->|Hni].
    + rewrite decide_True by lia. rewrite decide_False in R2 by lia. rewrite lookup_insert_eq in R2. exists (v - KERNBASE). split; [done|].
      intros j Hj. assert (in_page (KERNBASE + (v - KERNBASE)) ((KERNBASE + (v - KERNBASE)) / 4 + j)) as Hin by (unfold in_page; lia).
      rewrite (frame_kept _ _ _ _ _ _ i (v - KERNBASE) 7 _ _ H3 (lookup_insert_eq _ _ _) Hu R4 Hin).
      replace (KERNBASE + (v - KERNBASE)) with v in * by lia.
      rewrite (other_kept _ _ _ _ _ _ v _ _ H2 ltac:(apply elem_of_app; right; by left) G1 Hin). by apply zero_page_ld.
    + rewrite lookup_insert_ne in R2 by done. repeat destruct (decide _); try done; lia.
  - rewrite <- R3. rewrite frames_insert by (try done; apply HU; lia). replace (KERNBASE + (v - KERNBASE)) with v by lia.
    trans (v :: (L ++ tabs T) ++ frames U); [solve_Permutation|]. rewrite G2. solve_Permutation.
  - eapply same_but_weaken; [eapply same_but_trans; [eapply same_but_trans; [rewrite <- Em; apply (zero_page_same v)|exact G1]|exact R4]|].
    assert (forall u, u ∈ L ++ tabs T <-> u ∈ L2 ++ tabs T2) as HE by (intros u; by rewrite G2).
    intros u. specialize (HE u). rewrite !elem_of_app in HE. rewrite !elem_of_app, !elem_of_cons, elem_of_nil. tauto.
Qed.

Lemma allocuvm_ok s L pgdir T U O oldsz newsz lo hi : sys s L pgdir T U O ->
  0 <= oldsz <= newsz -> newsz < KERNBASE -> lo = (oldsz + 4095) / 4096 -> hi = (newsz + 4095) / 4096 ->
  (forall n, lo <= n < hi -> U !! n = None) -> 2 * (hi - lo) <= Z.of_nat (length L) ->
  exists s' L' T' U', allocuvm kend pgdir oldsz newsz s = Ok newsz s' /\ sys s' L' pgdir T' U' O /\
    zero_filled (kp_mem s') U U' lo hi /\ L ++ tabs T ++ frames U ≡ₚ L' ++ tabs T' ++ frames U' /\
    same_but (L ++ pgdir :: tabs T) (kp_mem s) (kp_mem s').
Proof.
  intros Hs Ho Hn -> Hhi HU HL. unfold allocuvm. rewrite (proj2 (Z.leb_gt KERNBASE newsz)), (proj2 (Z.ltb_ge newsz oldsz)) by lia.
  rewrite PGROUNDUP_eq by (unfold KERNBASE, PGSIZE in *; lia).
  replace ((oldsz + PGSIZE - 1) / PGSIZE * PGSIZE) with (4096 * ((oldsz + 4095) / 4096)) by (unfold PGSIZE; dlia).
  apply (allocuvm_loop_ok pgdir O oldsz newsz hi Hhi Hn); [done|dlia|dlia|unfold PGSIZE; dlia|done|done].
Qed.

(** ** Copying an address space *)

Lemma sys_swap s L d T U pd PT PU O : sys s L d T U (pd :: tabs PT ++ frames PU ++ O) -> space (kp_mem s) pd PT PU ->
  sys s L pd PT PU (d :: tabs T ++ frames U ++ O).
Proof.
  intros [F S N G] HP.
  assert (L ++ pd :: tabs PT ++ frames PU ++ d :: tabs T ++ frames U ++ O ≡ₚ L ++ d :: tabs T ++ frames U ++ pd :: tabs PT ++ frames PU ++ O) as E
    by solve_Permutation.
  split; [done|done|by rewrite E|by rewrite E].
Qed.

(** Another space, too, is kept by what changes free pages and tables only. *)
Lemma space_kept s L d T U pd PT PU X O m' : sys s L d T U (X ++ pd :: tabs PT ++ frames PU ++ O) -> space (kp_mem s) pd PT PU ->
  same_but (L ++ d :: tabs T) (kp_mem s) m' -> space m' pd PT PU.
Proof.
  intros Hs HP Hsb. set (R := L ++ d :: tabs T) in *. pose proof Hs as [_ _ N G].
  assert (L ++ d :: tabs T ++ frames U ++ X ++ pd :: tabs PT ++ frames PU ++ O ≡ₚ R ++ (pd :: tabs PT) ++ frames U ++ X ++ frames PU ++ O) as E
    by (unfold R; solve_Permutation).
  rewrite E in N, G. apply list.NoDup_app in N as (_ & N & _). apply list.Forall_app in G as [GR G]. apply list.Forall_app in G as [GP _].
  apply list.Forall_cons in GP as [[G1 _] GP]. eapply space_frame; [exact HP|exact Hsb|done| |].
  - eapply list.Forall_impl; [exact GP|]. by intros v [? _].
  - rewrite list.Forall_forall in GR |- *. intros v Hv. destruct (GR v Hv) as [? _]. specialize (N v Hv).
    rewrite elem_of_app, elem_of_cons in N. split_and!; [done|tauto|tauto].
Qed.

Lemma lor_present fl : has fl PTE_P = true -> Z.lor fl PTE_P = fl.
Proof.
  unfold PTE_P. rewrite has_pow2 by lia. intros H. apply Z.bits_inj'. intros n Hn. rewrite Z.lor_spec, Z.pow2_bits_eqb by lia.
  destruct (Z.eqb_spec 0 n) as [<-|]; [by rewrite H|apply orb_false_r].
Qed.

(** The pages [i..hi-1] of [U'] have the flags and the contents of those of [PU]. *)
Definition copied (m m' : words) (PU U' : gmap Z (Z * Z)) (i hi : Z) : Prop := forall n, i <= n < hi ->
  exists pa pa' fl, PU !! n = Some (pa, fl) /\ U' !! n = Some (pa', fl) /\
    forall j, 0 <= j < 1024 -> ld m' ((KERNBASE + pa') / 4 + j) = ld m ((KERNBASE + pa) / 4 + j).

Lemma copyuvm_loop_S f pgdir d i sz : copyuvm_loop (S f) pgdir d i sz =
  if i <? sz then
    o ← walkpgdir pgdir i false;
    match o with
    | None => panic "copyuvm: pte should exist"
    | Some w =>
      e ← ldw w;
      if negb (has e PTE_P) then panic "copyuvm: page not present" else
      mem ← kalloc_page;
      if mem =? 0 then mret false else
      on_mem (copy_page mem (p2v (PTE_ADDR e))) ;;
      r ← mappages d i PGSIZE (v2p mem) (PTE_FLAGS e);
      if r <? 0 then mret false else copyuvm_loop f pgdir d (u32 (i + PGSIZE)) sz
    end
  else mret true.
Proof. done. Qed.

(** The parent's entry of a mapped page. *)
Lemma parent_entry s L d T U pd PT PU O i pa fl : sys s L d T U (pd :: tabs PT ++ frames PU ++ O) -> space (kp_mem s) pd PT PU ->
  vaddr i -> user i -> PU !! i = Some (pa, fl) ->
  exists w, walkpgdir pd (4096 * i) false s = Ok (Some w) s /\ ld (kp_mem s) w = pa + fl /\ 0 <= fl < 4096 /\ has fl PTE_P = true /\
    page (KERNBASE + pa) /\ pa mod 4096 = 0.
Proof.
  intros Hs HP Hi Hu HU. pose proof (sys_swap _ _ _ _ _ _ _ _ _ Hs HP) as Hs'. destruct (va_page i Hi) as (Hva & EPD & EPT).
  pose proof (walk_look _ _ _ _ _ _ _ Hs' Hva) as E. pose proof (sp_ent _ _ _ _ HP i Hi) as He. rewrite HU in He. rewrite EPD, EPT in E.
  destruct (PT !! (i / 1024)) as [t|] eqn:Ht; [|done]. destruct He as (He & A & B & C). exists (t / 4 + i mod 1024). split_and!; try done; try lia.
  destruct Hs' as [_ _ _ G]. rewrite list.Forall_forall in G. apply G. pose proof (frame_elem PU i pa fl HU Hu) as Hf.
  rewrite elem_of_app, elem_of_cons, !elem_of_app. auto 10.
Qed.

Lemma copyuvm_loop_ok d pd PT PU O sz hi : hi = (sz + 4095) / 4096 -> sz <= KERNBASE -> (forall n, 0 <= n < hi -> is_Some (PU !! n)) ->
  forall f s L T U i, sys s L d T U (pd :: tabs PT ++ frames PU ++ O) -> space (kp_mem s) pd PT PU ->
  0 <= i -> hi - i < Z.of_nat f -> 0 < Z.of_nat f -> (forall n, i <= n < hi -> U !! n = None) ->
  exists b s' L' T' U' X, copyuvm_loop f pd d (4096 * i) sz s = Ok b s' /\ sys s' L' d T' U' (X ++ pd :: tabs PT ++ frames PU ++ O) /\
    same_but (L ++ d :: tabs T) (kp_mem s) (kp_mem s') /\ L ++ tabs T ++ frames U ≡ₚ L' ++ tabs T' ++ frames U' ++ X /\
    (forall n, ~ (i <= n < hi) -> U' !! n = U !! n) /\
    (b = true /\ X = [] /\ copied (kp_mem s) (kp_mem s') PU U' i hi \/ b = false /\ L' = [] /\ (length X <= 1)%nat).
Proof.
  intros Hhi Hsz HPU. set (O2 := pd :: tabs PT ++ frames PU ++ O). induction f as [|f IH]; intros s L T U i Hs HP Hi Hf Hf0 HU; [lia|].
  rewrite copyuvm_loop_S. destruct (Z.ltb_spec (4096 * i) sz) as [Hlt|Hge].
  2: { exists true, s, L, T, U, []. rewrite app_nil_r. split_and!; [done|done|apply same_but_refl|done|done|left]. split_and!; [done|done|].
       intros n Hn. dlia. }
  assert (i < hi /\ hi <= 2 ^ 19) as [Hih Hh] by (unfold KERNBASE in *; dlia). assert (user i /\ vaddr i) as [Hu Hv] by (unfold user, vaddr; lia).
  destruct (HPU i ltac:(lia)) as [[pa fl] HPi].
  destruct (parent_entry _ _ _ _ _ _ _ _ _ _ _ _ Hs HP Hv Hu HPi) as (w & Ew & Hw & Hfl & Hpr & Hpg & Hpa).
  destruct (entry_bits pa fl Hpg Hpa Hfl Hpr) as (B1 & B2 & B3 & B4 & _).
  erewrite bind_ok by exact Ew. cbn beta iota. erewrite bind_ok by reflexivity. rewrite Hw, B1, B2, B3, B4. cbn [negb].
  pose proof (kalloc_page_ok _ _ _ _ _ _ Hs) as K. destruct L as [|v L].
  { erewrite bind_ok by exact K. exists false, s, [], T, U, []. rewrite app_nil_r. split_and!; [done|done|apply same_but_refl|done|done|right].
    split_and!; [done|done|cbn; lia]. }
  destruct K as (s1 & E1 & Em & H1 & Hvp). erewrite bind_ok by exact E1. destruct (page_word v Hvp) as (V1 & _ & _ & V4 & _ & V6 & _).
  rewrite (proj2 (Z.eqb_neq v 0) V4). erewrite bind_ok by reflexivity. destruct (fresh_page _ _ _ _ _ _ _ H1) as (_ & X1 & X2 & X3).
  set (m1 := copy_page v (KERNBASE + pa) (kp_mem s1)). assert (same_but [v] (kp_mem s) m1) as Hc by (rewrite <- Em; apply copy_page_same).
  assert (sys (KPages m1 (kp_pages s1)) L d T U (v :: O2)) as H2.
  { eapply sys_frame; [exact H1|apply copy_page_same|]. constructor; [done|constructor]. }
  assert (same_but ((v :: L) ++ d :: tabs T) (kp_mem s) m1) as Hc1.
  { eapply same_but_weaken; [exact Hc|]. intros u ->%list_elem_of_singleton. by left. }
  destruct (mappages_page _ L d T U (v :: O2) O2 i (v2p v) fl H2) as [(-> & _ & E2)|(s2 & L2 & T2 & E2 & H3 & (G1 & G2 & G3) & EL)];
    [done|apply HU; lia|rewrite V6; unfold KERNBASE; dlia|done| | |].
  { unfold takes. rewrite decide_True by done. rewrite V6. by replace (KERNBASE + (v - KERNBASE)) with v by lia. }
  { erewrite bind_ok by exact E2. exists false, (KPages m1 (kp_pages s1)), [], T, U, [v].
    split_and!; [done|done|exact Hc1|solve_Permutation|done|right]. cbn. auto. }
  erewrite bind_ok by exact E2. rewrite lor_present, V6 in H3 by done. cbn [Z.ltb Z.compare].
  replace (u32 (4096 * i + PGSIZE)) with (4096 * (i + 1)) by (rewrite u32_small; unfold PGSIZE, KERNBASE in *; lia).
  assert (same_but ((v :: L) ++ d :: tabs T) (kp_mem s) (kp_mem s2)) as Hc2.
  { eapply same_but_weaken; [eapply same_but_trans; [exact Hc1|exact G1]|]. intros u. rewrite !elem_of_app, !elem_of_cons. tauto. }
  assert (space (kp_mem s2) pd PT PU) as HP2 by (eapply (space_kept _ _ _ _ _ _ _ _ []); [exact Hs|exact HP|exact Hc2]).
  destruct (IH s2 L2 T2 _ (i + 1) H3 HP2) as (b & s' & L' & T' & U' & X & E3 & R1 & R2 & R3 & R4 & R5); [lia|lia|lia| |].
  { intros n Hn. rewrite lookup_insert_ne by lia. apply HU. lia. }
  exists b, s', L', T', U', X. split; [exact E3|]. split; [done|]. split_and!.
  - eapply same_but_weaken; [eapply same_but_trans; [exact Hc2|exact R2]|].
    assert (forall u, u ∈ L ++ tabs T <-> u ∈ L2 ++ tabs T2) as HE by (intros u; by rewrite G2).
    intros u. specialize (HE u). rewrite !elem_of_app in HE. rewrite !elem_of_app, !elem_of_cons. tauto.
  - rewrite <- R3. rewrite frames_insert by (try done; apply HU; lia). replace (KERNBASE + (v - KERNBASE)) with v by lia.
    trans (v :: (L ++ tabs T) ++ frames U); [solve_Permutation|]. rewrite G2. solve_Permutation.
  - intros n Hn. rewrite R4 by lia. apply lookup_insert_ne. lia.
  - destruct R5 as [(-> & -> & R5)|R5]; [left|by right]. split_and!; [done|done|]. intros n Hn. destruct (decide (n = i)) as [->|Hni].
    + exists pa, (v - KERNBASE), fl. split_and!; [done|rewrite R4 by lia; apply lookup_insert_eq|]. intros j Hj.
      assert (in_page (KERNBASE + (v - KERNBASE)) ((KERNBASE + (v - KERNBASE)) / 4 + j)) as Hin by (unfold in_page; lia).
      rewrite (frame_kept _ _ _ _ _ _ i (v - KERNBASE) fl _ _ H3 (lookup_insert_eq _ _ _) Hu R2 Hin).
      replace (KERNBASE + (v - KERNBASE)) with v in * by lia.
      rewrite (other_kept _ _ _ _ _ _ v _ _ H2 ltac:(apply elem_of_app; right; by left) G1 Hin).
      cbn [kp_mem]. unfold m1. rewrite copy_page_ld by lia. by rewrite Em.
    + destruct (R5 n ltac:(lia)) as (qa & qa' & ql & Q1 & Q2 & Q3). exists qa, qa', ql. split_and!; [done|done|]. intros j Hj. rewrite Q3 by done.
      apply (other_kept _ _ _ _ _ _ (KERNBASE + qa) _ _ Hs); [|exact Hc2|unfold in_page; lia].
      pose proof (frame_elem PU n qa ql Q1 ltac:(unfold user; lia)) as Hq. unfold O2. rewrite elem_of_app, elem_of_cons, !elem_of_app. auto.
Qed.

Lemma kernel_map_user ks : forall lo U n, 2 ^ 19 <= lo -> areas lo ks -> user n -> foldl add_kmap U ks !! n = U !! n.
Proof.
  induction ks as [|k ks IH]; intros lo U n Hlo Ha Hn; [done|]. cbn [foldl areas] in *. destruct Ha as (A1 & _ & _ & _ & _ & A6 & _ & _ & _ & Ha).
  rewrite (IH (virt k / 4096 + kpagesz k)); [|lia|done|done]. unfold add_kmap. rewrite lookup_map_pages, decide_False; [done|]. unfold user in Hn.
  lia.
Qed.

Lemma copyuvm_ok kdata s L pd PT PU O sz hi : sys s L pd PT PU O -> kdata_ok kdata -> 0 <= sz <= KERNBASE -> hi = (sz + 4095) / 4096 ->
  (forall n, 0 <= n < hi -> is_Some (PU !! n)) ->
  exists r s', copyuvm kend kdata pd sz s = Ok r s' /\ same_but L (kp_mem s) (kp_mem s') /\ space (kp_mem s') pd PT PU /\
    (r = 0 /\ Z.of_nat (length L) <= 1026 + hi \/
     r <> 0 /\ exists L' T U', sys s' L' r T U' (pd :: tabs PT ++ frames PU ++ O) /\ copied (kp_mem s) (kp_mem s') PU U' 0 hi /\
       (forall n, ~ (0 <= n < hi) -> U' !! n = kernel_map kdata !! n) /\ L ≡ₚ L' ++ r :: tabs T ++ frames U').
Proof.
  intros Hs Hk Hsz Hhi HPU. unfold copyuvm. pose proof (owned_sys _ _ _ _ _ _ Hs) as Ho.
  assert (forall m', same_but L (kp_mem s) m' -> space m' pd PT PU) as Hkeep.
  { intros m' Hm. destruct Hs as [_ S N G]. apply list.NoDup_app in N as (_ & N & _). apply list.Forall_app in G as [GL G].
    apply list.Forall_cons in G as [[G1 _] G]. apply list.Forall_app in G as [G _]. eapply space_frame; [exact S|exact Hm|done| |].
    - eapply list.Forall_impl; [exact G|]. by intros v [? _].
    - rewrite list.Forall_forall in GL |- *. intros v Hv. destruct (GL v Hv) as [? _]. specialize (N v Hv).
      rewrite elem_of_cons, elem_of_app in N. split_and!; [done|tauto|tauto]. }
  destruct (setupkvm_ok kdata s L _ Ho Hk) as (d & s1 & E1 & B1 & [(-> & Hlen & _)|(L1 & T1 & [Hd _] & H1 & EL)]).
  { erewrite bind_ok by exact E1. exists 0, s1. split_and!; [done|done|by apply Hkeep|left]. split; [done|]. dlia. }
  erewrite bind_ok by exact E1. rewrite (proj2 (Z.eqb_neq d 0) Hd).
  assert (forall n, user n -> kernel_map kdata !! n = None) as HKU.
  { intros n Hn. unfold kernel_map. rewrite (kernel_map_user _ (2 ^ 19)); [apply lookup_empty|done|by apply kmaps_areas|done]. }
  destruct (copyuvm_loop_ok d pd PT PU O sz hi Hhi ltac:(lia) HPU (Z.to_nat (sz / PGSIZE) + 2) s1 L1 T1 _ 0 H1 (Hkeep _ B1))
    as (b & s2 & L2 & T2 & U2 & X & E2 & H2 & B2 & P2 & K2 & R); [lia|unfold PGSIZE; dlia|lia| |].
  { intros n Hn. apply HKU. unfold user, KERNBASE in *. dlia. }
  rewrite (frames_none (kernel_map kdata)), app_nil_r in P2 by (intros n x Hx Hu; by rewrite HKU in Hx).
  assert (same_but L (kp_mem s) (kp_mem s2)) as B12.
  { eapply same_but_weaken; [eapply same_but_trans; [exact B1|exact B2]|]. intros v. rewrite EL, !elem_of_app, !elem_of_cons. tauto. }
  assert (L ≡ₚ L2 ++ d :: tabs T2 ++ frames U2 ++ X) as PL.
  { rewrite EL. trans (d :: L1 ++ tabs T1); [solve_Permutation|]. rewrite P2. solve_Permutation. }
  erewrite bind_ok by exact E2. destruct R as [(-> & -> & R)|(-> & -> & HX)].
  - exists d, s2. split_and!; [done|done|by apply Hkeep|right]. split; [done|]. exists L2, T2, U2. rewrite app_nil_r in PL.
    split_and!; [done| |done|done].
    intros n Hn. destruct (R n Hn) as (pa & pa' & fl & Q1 & Q2 & Q3). exists pa, pa', fl. split_and!; [done|done|]. intros j Hj. rewrite Q3 by done.
    apply (frame_kept _ _ _ _ _ _ n pa fl _ _ Hs Q1); [unfold user, KERNBASE in *; dlia| |unfold in_page; lia].
    eapply same_but_weaken; [exact B1|]. intros v Hv. apply elem_of_app. by left.
  - destruct (freevm_ok _ _ _ _ _ _ H2) as (s3 & L3 & E3 & H3 & P3 & B3). erewrite bind_ok by exact E3. exists 0, s3.
    assert (same_but L (kp_mem s) (kp_mem s3)) as B13.
    { eapply same_but_weaken; [eapply same_but_trans; [exact B12|exact B3]|]. intros v. rewrite PL, !elem_of_app, !elem_of_cons, !elem_of_app. tauto.
      }
    split_and!; [done|done|by apply Hkeep|left]. split; [done|]. rewrite PL. cbn [app length]. rewrite !length_app.
    pose proof (tabs_length _ _ _ _ (sy_space _ _ _ _ _ _ H2)).
    assert (Z.of_nat (length (frames U2)) <= Z.max 0 hi); [|dlia]. apply frames_length. intros n x Hx Hu.
    destruct (decide (0 <= n < hi)) as [|Hn]; [done|]. rewrite K2, HKU in Hx by done. done.
Qed.

(** ** Bytes of user memory *)

Lemma ldb_stb m v b v' : is_byte b -> ldb (stb v b m) v' = if decide (v' = v) then b else ldb m v'.
Proof.
  unfold is_byte. intros Hb. unfold ldb at 1, stb. rewrite ld_insert. destruct (decide (v' / 4 = v / 4)) as [E|E].
  - unfold ldb. rewrite E. set (w := ld m (v / 4)). assert (0 <= v mod 4 < 4 /\ 0 <= v' mod 4 < 4) as [H1 H2] by dlia.
    assert (v' mod 4 = v mod 4 <-> v' = v) as Hv by dlia.
    assert (v mod 4 = 0 \/ v mod 4 = 1 \/ v mod 4 = 2 \/ v mod 4 = 3) as [K|[K|[K|K]]] by lia;
    assert (v' mod 4 = 0 \/ v' mod 4 = 1 \/ v' mod 4 = 2 \/ v' mod 4 = 3) as [K'|[K'|[K'|K']]] by lia;
    rewrite K, K' in *; change (256 ^ 0) with 1; change (256 ^ 1) with 256; change (256 ^ 2) with 65536; change (256 ^ 3) with 16777216; case_decide; try lia; clear -Hb; dlia.
  - rewrite decide_False; [done|]. by intros ->.
Qed.
Lemma ldb_st_bytes bs : forall v m v', Forall is_byte bs ->
  ldb (st_bytes v bs m) v' = if decide (v <= v' < v + Z.of_nat (length bs)) then default 0 (bs !! Z.to_nat (v' - v)) else ldb m v'.
Proof.
  induction bs as [|b bs IH]; intros v m v' Hb; cbn [st_bytes length].
  { rewrite decide_False by lia. done. }
  apply list.Forall_cons in Hb as [Hb Hbs]. rewrite IH, ldb_stb by done. destruct (decide (v' = v)) as [->|Hne].
  - rewrite decide_False, decide_True by lia. by rewrite Z.sub_diag.
  - destruct (decide (v + 1 <= v' < v + 1 + Z.of_nat (length bs))) as [H|H].
    + rewrite decide_True by lia. replace (Z.to_nat (v' - v)) with (S (Z.to_nat (v' - (v + 1)))) by lia. done.
    + by rewrite decide_False by lia.
Qed.
Lemma st_bytes_same p bs : p mod 4096 = 0 -> forall v m, p <= v -> v + Z.of_nat (length bs) <= p + 4096 -> same_but [p] m (st_bytes v bs m).
Proof.
  intros Hp. induction bs as [|b bs IH]; intros v m H1 H2; cbn [st_bytes length] in *; [apply same_but_refl|].
  eapply same_but_weaken; [eapply same_but_trans; [apply (same_but_insert p (v / 4)); unfold in_page; dlia|apply IH; lia]|].
  intros u. rewrite elem_of_app. tauto.
Qed.
Lemma ldb_same P m m' v : same_but P m m' -> (forall p, p ∈ P -> ~ in_page p (v / 4)) -> ldb m' v = ldb m v.
Proof. intros H HP. unfold ldb. by rewrite (same_but_ld P m m' _ H). Qed.

(** What the user sees at address [va]. *)
Definition user_byte (m : words) (U : gmap Z (Z * Z)) (va : Z) : option Z :=
  (fun x => ldb m (KERNBASE + x.1 + va mod 4096)) <$> U !! (va / 4096).

Lemma frame_page s L pgdir T U O n pa fl : sys s L pgdir T U O -> U !! n = Some (pa, fl) -> user n ->
  page (KERNBASE + pa) /\ ((KERNBASE + pa) ∉ L) /\ KERNBASE + pa <> pgdir /\ ((KERNBASE + pa) ∉ tabs T).
Proof.
  intros Hs HU Hu. pose proof (frames_delete U n pa fl HU Hu) as E. destruct Hs as [F S N G].
  assert (L ++ pgdir :: tabs T ++ frames U ++ O ≡ₚ (KERNBASE + pa) :: L ++ pgdir :: tabs T ++ frames (delete n U) ++ O) as EP by (rewrite E; solve_Permutation).
  rewrite EP in N, G. apply list.NoDup_cons in N as [N _]. apply list.Forall_cons in G as [G _].
  rewrite elem_of_app, elem_of_cons, elem_of_app in N. split_and!; [done|tauto..].
Qed.
Lemma frame_inj s L pgdir T U O n pa fl n' pa' fl' : sys s L pgdir T U O -> U !! n = Some (pa, fl) -> U !! n' = Some (pa', fl') -> user n -> user n' ->
  pa = pa' -> n = n'.
Proof.
  intros Hs HU HU' Hu Hu' <-. destruct (decide (n = n')) as [|Hne]; [done|exfalso]. pose proof (frames_delete U n pa fl HU Hu) as E.
  assert (KERNBASE + pa ∈ frames (delete n U)) as Hin by (eapply (frame_elem _ n'); [by rewrite lookup_delete_ne|done]).
  destruct Hs as [_ _ N _]. apply list.NoDup_app in N as (_ & _ & N). apply list.NoDup_cons in N as [_ N]. apply list.NoDup_app in N as (_ & _ & N).
  apply list.NoDup_app in N as (N & _ & _). rewrite E in N. apply list.NoDup_cons in N as [N _]. done.
Qed.
(** A store into one user page. *)
Lemma user_store s L pgdir T U O n pa fl off bs : sys s L pgdir T U O -> vaddr n -> U !! n = Some (pa, fl) -> user n -> 0 <= off -> off + Z.of_nat (length bs) <= 4096 -> Forall is_byte bs ->
  let m' := st_bytes (KERNBASE + pa + off) bs (kp_mem s) in
  sys (KPages m' (kp_pages s)) L pgdir T U O /\ same_but [KERNBASE + pa] (kp_mem s) m' /\
  forall va, 0 <= va < KERNBASE -> user_byte m' U va =
    if decide (4096 * n + off <= va < 4096 * n + off + Z.of_nat (length bs)) then bs !! Z.to_nat (va - (4096 * n + off)) else user_byte (kp_mem s) U va.
Proof.
  intros Hs Hn HU Hu H0 Hl Hb m'. destruct (frame_page _ _ _ _ _ _ _ _ _ Hs HU Hu) as (Hp & N1 & N2 & N3).
  destruct (page_word _ Hp) as (P1 & _ & _ & _ & P2 & _).
  assert (same_but [KERNBASE + pa] (kp_mem s) m') as Hsb by (apply st_bytes_same; [done|lia|lia]).
  split; [eapply sys_frame; [exact Hs|exact Hsb|constructor; [done|constructor]]|]. split; [done|]. intros va Hva. unfold user_byte.
  assert (user (va / 4096)) as Huv by (unfold user, KERNBASE in *; dlia). destruct (decide (va / 4096 = n)) as [E|E].
  - rewrite E, HU. cbn [fmap option_fmap option_map fst]. unfold m'. rewrite ldb_st_bytes by done. pose proof (Z.mod_pos_bound va 4096 ltac:(lia)).
    destruct (decide (4096 * n + off <= va < 4096 * n + off + Z.of_nat (length bs))) as [Hin|Hin].
    + rewrite decide_True by dlia.
      replace (Z.to_nat (KERNBASE + pa + va mod 4096 - (KERNBASE + pa + off))) with (Z.to_nat (va - (4096 * n + off))) by dlia.
      destruct (lookup_lt_is_Some_2 bs (Z.to_nat (va - (4096 * n + off)))) as [b ->]; [lia|done].
    + rewrite decide_False by dlia. done.
  - rewrite (decide_False (P := 4096 * n + off <= va < _)) by dlia. destruct (U !! (va / 4096)) as [[pa' fl']|] eqn:HU'; [|done].
    cbn [fmap option_fmap option_map fst]. f_equal.
    apply (ldb_same _ _ _ _ Hsb). intros p ->%list_elem_of_singleton Hin. destruct (frame_page _ _ _ _ _ _ _ _ _ Hs HU' Huv) as (Hp' & _).
    destruct (page_word _ Hp') as (P1' & _).
    apply E. symmetry. eapply (frame_inj _ _ _ _ _ _ n pa fl _ pa' fl' Hs HU HU' Hu Huv). assert (KERNBASE + pa = KERNBASE + pa'); [|lia].
    apply (page_disjoint _ _ ((KERNBASE + pa' + va mod 4096) / 4)); [done|done|done|]. pose proof (Z.mod_pos_bound va 4096 ltac:(lia)).
    unfold in_page. dlia.
Qed.

(** ** Copying out *)

Lemma uva2ka_run s L pgdir T U O n : sys s L pgdir T U O -> vaddr n -> is_Some (T !! (n / 1024)) ->
  uva2ka pgdir (4096 * n) s = Ok (match U !! n with Some (pa, fl) => if has fl PTE_U then p2v pa else 0 | None => 0 end) s.
Proof.
  intros Hs Hn [t Ht]. destruct (va_page n Hn) as (Hva & EPD & EPT). unfold uva2ka.
  erewrite bind_ok by (eapply walk_look; [exact Hs|exact Hva]). rewrite EPD, EPT, Ht. cbn [fmap option_fmap option_map].
  pose proof (sp_ent _ _ _ _ (sy_space _ _ _ _ _ _ Hs) n Hn) as He. rewrite Ht in He. mrun. destruct (U !! n) as [[pa fl]|].
  - destruct He as (He & H1 & H2 & H3). rewrite He. unfold PTE_P, PTE_U in *. rewrite !has_entry by lia. rewrite H3. cbn [negb orb].
    rewrite PTE_ADDR_eq. replace ((pa + fl) / 4096 * 4096) with pa by dlia. by destruct (has fl (2 ^ 2)).
  - by rewrite He.
Qed.

Lemma copyout_loop_S f pgdir va buf : buf <> [] -> copyout_loop (S f) pgdir va buf =
  (pa0 ← uva2ka pgdir (PGROUNDDOWN va);
   if pa0 =? 0 then mret (-1) else
   let n := Z.to_nat (Z.min (PGSIZE - (va - PGROUNDDOWN va)) (Z.of_nat (length buf))) in
   on_mem (st_bytes (pa0 + (va - PGROUNDDOWN va)) (take n buf)) ;;
   copyout_loop f pgdir (u32 (PGROUNDDOWN va + PGSIZE)) (drop n buf)).
Proof. by destruct buf. Qed.

(** The user may access page [n]. *)
Definition accessible (U : gmap Z (Z * Z)) (n : Z) : Prop := exists pa fl, U !! n = Some (pa, fl) /\ has fl PTE_U = true.
(** Kernel pages are not for users. *)
Definition guarded (U : gmap Z (Z * Z)) : Prop := forall n, accessible U n -> user n.
(** The frames of accessible pages. *)
Definition open_frames (U : gmap Z (Z * Z)) (v : Z) : Prop := exists n pa fl, U !! n = Some (pa, fl) /\ has fl PTE_U = true /\ v = KERNBASE + pa.
(** [m'] is [m] but for the bytes of accessible pages. *)
Definition only_user (U : gmap Z (Z * Z)) (m m' : words) : Prop := exists P, same_but P m m' /\ forall v, v ∈ P -> open_frames U v.

Lemma mapped_table s L pgdir T U O n x : sys s L pgdir T U O -> U !! n = Some x -> is_Some (T !! (n / 1024)).
Proof.
  intros Hs HU. pose proof (sy_space _ _ _ _ _ _ Hs) as S. pose proof (sp_ent _ _ _ _ S n (sp_udom _ _ _ _ S n x HU)) as He. rewrite HU in He.
  by destruct (T !! (n / 1024)).
Qed.
Lemma uva2ka_nil s L pgdir T U O n : sys s L pgdir T U O -> vaddr n -> ~ is_Some (T !! (n / 1024)) -> uva2ka pgdir (4096 * n) s = Panic "nil pte" s.
Proof.
  intros Hs Hn HT. destruct (va_page n Hn) as (Hva & EPD & EPT). unfold uva2ka.
  erewrite bind_ok by (eapply walk_look; [exact Hs|exact Hva]). rewrite EPD. destruct (T !! (n / 1024)); [by destruct HT|done].
Qed.
#[local] Instance accessible_dec U n : Decision (accessible U n).
Proof.
  destruct (U !! n) as [[pa fl]|] eqn:E; [destruct (has fl PTE_U) eqn:F|]; [left; by exists pa, fl|right; intros (pa' & fl' & E' & F'); congruence..].
Defined.
(** The first page of the range that the user may not access stops [copyout]:
    with -1, or, where there is not even a page table, at the null pointer. *)
Definition stopped (U : gmap Z (Z * Z)) (va len : Z) (n : Z) : Prop :=
  va / 4096 <= n <= (va + len - 1) / 4096 /\ ~ accessible U n /\ forall m, va / 4096 <= m < n -> accessible U m.
Definition stops (T : gmap Z Z) (n : Z) (s : kpages) : res kpages Z := if decide (is_Some (T !! (n / 1024))) then Ok (-1) s else Panic "nil pte" s.

Lemma copyout_loop_all L pgdir T U O f : forall s va buf, sys s L pgdir T U O -> guarded U -> (length buf <= f)%nat -> 0 <= va ->
  va + Z.of_nat (length buf) <= 2 ^ 32 -> Forall is_byte buf ->
  exists s', sys s' L pgdir T U O /\ only_user U (kp_mem s) (kp_mem s') /\
    ((copyout_loop f pgdir va buf s = Ok 0 s' /\ (forall va', va <= va' < va + Z.of_nat (length buf) -> accessible U (va' / 4096)) /\
        (forall va', 0 <= va' < KERNBASE -> user_byte (kp_mem s') U va' =
        if decide (va <= va' < va + Z.of_nat (length buf)) then buf !! Z.to_nat (va' - va) else user_byte (kp_mem s) U va')) \/
     (exists n, stopped U va (Z.of_nat (length buf)) n /\ copyout_loop f pgdir va buf s = stops T n s')).
Proof.
  induction f as [|f IH]; intros s va buf Hs Hg Hf Hva Hend Hb.
  { destruct buf; [|cbn in Hf; lia]. exists s. split; [done|].
    split; [exists []; split; [apply same_but_refl|intros v Hv; by apply not_elem_of_nil in Hv]|].
    left. split; [done|]. split; [cbn; lia|]. intros va' _. cbn. by rewrite decide_False by lia. }
  destruct buf as [|b0 buf0].
  { exists s. split; [done|]. split; [exists []; split; [apply same_but_refl|intros v Hv; by apply not_elem_of_nil in Hv]|].
    left. split; [done|]. split; [cbn; lia|]. intros va' _. cbn. by rewrite decide_False by lia. }
  rewrite copyout_loop_S by done. set (buf := b0 :: buf0) in *. cbv zeta.
  assert (0 < Z.of_nat (length buf)) as Hlen by (cbn; lia). rewrite PGROUNDDOWN_eq. set (n := va / 4096). replace (n * 4096) with (4096 * n) by lia.
  assert (vaddr n) as Hn by (unfold vaddr, n; dlia).
  destruct (decide (accessible U n)) as [Hacc|Hacc]; cycle 1.
  { exists s. split; [done|]. split; [exists []; split; [apply same_but_refl|intros v Hv; by apply not_elem_of_nil in Hv]|].
    right. exists n. split; [split; [unfold n; dlia|]; split; [done|]; unfold n; lia|]. unfold stops. case_decide as HT.
    - erewrite bind_ok by (eapply uva2ka_run; [exact Hs|exact Hn|done]). destruct (U !! n) as [[pa fl]|] eqn:HU; [|done].
      destruct (has fl PTE_U) eqn:Hfl; [|done]. destruct Hacc. by exists pa, fl.
    - unfold mbind at 1, M_bind at 1. by rewrite (uva2ka_nil s L pgdir T U O n Hs Hn HT). }
  pose proof Hacc as (pa & fl & HU & Hfl). assert (is_Some (T !! (n / 1024))) as HT by (by eapply mapped_table).
  erewrite bind_ok by (eapply uva2ka_run; [exact Hs|exact Hn|exact HT]). rewrite HU, Hfl.
  assert (user n) as Hu by (by apply Hg). destruct (frame_page _ _ _ _ _ _ _ _ _ Hs HU Hu) as (Hp & _).
  destruct (page_word _ Hp) as (P1 & _ & _ & P3 & P2 & _ & P4).
  replace (KERNBASE + pa - KERNBASE) with pa in P4 by lia. rewrite P4. rewrite (proj2 (Z.eqb_neq _ _) P3).
  set (k := Z.min (PGSIZE - (va - 4096 * n)) (Z.of_nat (length buf))).
  assert (0 < k <= Z.of_nat (length buf)) as Hk by (unfold k, PGSIZE, n; dlia).
  assert (length (take (Z.to_nat k) buf) = Z.to_nat k) as Htk by (rewrite length_take; lia).
  assert (length (drop (Z.to_nat k) buf) = (length buf - Z.to_nat k)%nat) as Hd by apply length_drop.
  erewrite bind_ok by reflexivity.
  destruct (user_store s L pgdir T U O n pa fl (va - 4096 * n) (take (Z.to_nat k) buf) Hs Hn HU Hu) as (Hs1 & Hsb & Hb1);
    [unfold n; dlia|rewrite Htk; unfold k, PGSIZE, n; dlia|by apply Forall_take|]. rewrite Htk in Hb1.
  set (s1 := KPages (st_bytes (KERNBASE + pa + (va - 4096 * n)) (take (Z.to_nat k) buf) (kp_mem s)) (kp_pages s)) in *.
  assert (open_frames U (KERNBASE + pa)) as Hop by (by exists n, pa, fl).
  destruct (decide (k = Z.of_nat (length buf))) as [Ek|Ek].
  - rewrite drop_ge by lia. exists s1. split; [done|].
    split; [exists [KERNBASE + pa]; split; [done|by intros v ->%list_elem_of_singleton]|].
    left. split; [by destruct f|]. split; [intros va' Hva'; replace (va' / 4096) with n by (unfold n, k, PGSIZE in *; dlia); by exists pa, fl|].
    intros va' Hva'. rewrite Hb1 by done. rewrite take_ge by lia. replace (4096 * n + (va - 4096 * n)) with va by lia. rewrite Z2Nat.id by lia.
    by rewrite Ek.
  - replace (u32 (4096 * n + PGSIZE)) with (va + k) by (rewrite u32_small; unfold k, n, PGSIZE in *; dlia).
    destruct (IH s1 (va + k) (drop (Z.to_nat k) buf) Hs1 Hg) as (s' & R1 & (P & R2 & R3) & R4); [lia|lia|lia|by apply Forall_drop|].
    exists s'. split; [done|]. split.
    { exists ([KERNBASE + pa] ++ P). split; [by eapply same_but_trans|]. intros v [->%list_elem_of_singleton|Hv]%elem_of_app; [done|by apply R3]. }
    rewrite Hd in R4. destruct R4 as [(E2 & Ha2 & Hb2)|(n' & (Hn' & Ha & Hm) & E2)]; [left|right; exists n'; split; [|exact E2]].
    2:{ split; [dlia|]. split; [done|]. intros m Hm'. destruct (decide (m = n)) as [->|Hne]; [done|]. apply Hm. unfold k, PGSIZE, n in *. dlia. }
    split; [exact E2|]. split.
    { intros va' Hva'. destruct (decide (va + k <= va')); [apply Ha2; lia|]. replace (va' / 4096) with n by (unfold n, k, PGSIZE in *; dlia).
      by exists pa, fl. }
    intros va' Hva'. rewrite Hb2, Hb1 by done. replace (4096 * n + (va - 4096 * n)) with va by lia.
    destruct (decide (va + k <= va' < va + k + Z.of_nat (length buf - Z.to_nat k))) as [H1|H1].
    + rewrite decide_True by lia. rewrite lookup_drop. f_equal. lia.
    + destruct (decide (va <= va' < va + Z.of_nat (Z.to_nat k))) as [H2|H2].
      * rewrite decide_True by lia. apply lookup_take_lt. lia.
      * by rewrite decide_False by lia.
Qed.
Lemma copyout_loop_ok L pgdir T U O f s va buf : sys s L pgdir T U O -> guarded U -> (length buf <= f)%nat -> 0 <= va ->
  va + Z.of_nat (length buf) <= 2 ^ 32 -> (forall n, va / 4096 <= n <= (va + Z.of_nat (length buf) - 1) / 4096 -> is_Some (T !! (n / 1024))) -> Forall is_byte buf ->
  exists r s', copyout_loop f pgdir va buf s = Ok r s' /\ sys s' L pgdir T U O /\ only_user U (kp_mem s) (kp_mem s') /\
    ((r = 0 /\ (forall va', va <= va' < va + Z.of_nat (length buf) -> accessible U (va' / 4096)) /\
        (forall va', 0 <= va' < KERNBASE -> user_byte (kp_mem s') U va' =
        if decide (va <= va' < va + Z.of_nat (length buf)) then buf !! Z.to_nat (va' - va) else user_byte (kp_mem s) U va')) \/
     (r = -1 /\ exists n, va / 4096 <= n <= (va + Z.of_nat (length buf) - 1) / 4096 /\ ~ accessible U n)).
Proof.
  intros Hs Hg Hf Hva Hend HT Hb.
  destruct (copyout_loop_all L pgdir T U O f s va buf Hs Hg Hf Hva Hend Hb) as (s' & R1 & R2 & [(E & H)|(n & (Hn & Ha & _) & E)]).
  - exists 0, s'. split; [done|]. split; [done|]. split; [done|]. by left.
  - exists (-1), s'. unfold stops in E. rewrite decide_True in E by (by apply HT). split; [done|]. split; [done|]. split; [done|]. right. eauto.
Qed.
End pages.

(** ** The theorems *)

(** C8: [copyuvm] gives the child an address space of its own: its pages are
    pages that were free, each with the flags and the contents of the parent's
    page, above them the kernel's mappings, and no page is shared with the
    parent or with anybody else, whose memory is unchanged.  It fails only when
    memory runs out. *)
Theorem copyuvm_isolated kend kdata s L pd PT PU O sz hi : KERNBASE < kend -> kdata_ok kdata ->
  sys kend s L pd PT PU O -> 0 <= sz <= KERNBASE -> hi = (sz + 4095) / 4096 -> (forall n, 0 <= n < hi -> is_Some (PU !! n)) ->
  exists r s', copyuvm kend kdata pd sz s = Ok r s' /\ same_but L (kp_mem s) (kp_mem s') /\ space (kp_mem s') pd PT PU /\
    (r = 0 /\ Z.of_nat (length L) <= 1026 + hi \/
     r <> 0 /\ exists L' T U', sys kend s' L' r T U' (pd :: tabs PT ++ frames PU ++ O) /\ copied (kp_mem s) (kp_mem s') PU U' 0 hi /\
       (forall n, ~ (0 <= n < hi) -> U' !! n = kernel_map kdata !! n) /\ L ≡ₚ L' ++ r :: tabs T ++ frames U').
Proof. intros. by apply copyuvm_ok. Qed.

(** C17: growing a process.  With at least two free pages for every new page,
    one for the page and one for a page table it may need, [allocuvm] from [oldsz]
    to [newsz] below [KERNBASE] returns [newsz] and maps the new pages, and only
    those, to zeroed pages that were free, writable by the user; every page is
    still free, a page table or mapped, once, and memory changes only in pages that
    were free or page tables.  A size from [KERNBASE] on is refused with 0 and a
    smaller one answered with the old, and nothing changes. *)
Theorem allocuvm_zeroed kend s L pgdir T U O oldsz newsz lo hi : KERNBASE < kend -> sys kend s L pgdir T U O ->
  0 <= oldsz -> lo = (oldsz + 4095) / 4096 -> hi = (newsz + 4095) / 4096 ->
  (forall n, lo <= n < hi -> U !! n = None) -> 2 * (hi - lo) <= Z.of_nat (length L) ->
  (KERNBASE <= newsz -> allocuvm kend pgdir oldsz newsz s = Ok 0 s) /\
  (newsz < KERNBASE -> newsz < oldsz -> allocuvm kend pgdir oldsz newsz s = Ok oldsz s) /\
  (newsz < KERNBASE -> oldsz <= newsz ->
   exists s' L' T' U', allocuvm kend pgdir oldsz newsz s = Ok newsz s' /\ sys kend s' L' pgdir T' U' O /\
    zero_filled (kp_mem s') U U' lo hi /\ L ++ tabs T ++ frames U ≡ₚ L' ++ tabs T' ++ frames U' /\
    same_but (L ++ pgdir :: tabs T) (kp_mem s) (kp_mem s')).
Proof.
  intros Hk Hs Ho Hlo Hhi HU HL. split_and!.
  - intros Hn. unfold allocuvm. by rewrite (proj2 (Z.leb_le _ _) Hn).
  - intros Hn Hlt. unfold allocuvm. by rewrite (proj2 (Z.leb_gt _ _) Hn), (proj2 (Z.ltb_lt _ _) Hlt).
  - intros Hn Hle. by apply allocuvm_ok.
Qed.

(** [freevm] gives back the directory, the page tables and the user's
    pages, each once, and nothing else; memory outside them is unchanged. *)
Theorem freevm_gives_back kend s L pgdir T U O : KERNBASE < kend -> sys kend s L pgdir T U O ->
  exists s' L', freevm kend pgdir s = Ok tt s' /\ owned kend s' L' O /\ L' ≡ₚ L ++ pgdir :: tabs T ++ frames U /\
    same_but (pgdir :: tabs T ++ frames U) (kp_mem s) (kp_mem s').
Proof. intros. by apply freevm_ok. Qed.

(** C26: [copyout] writes only inside pages that are mapped for the user.  When
    every page of the range is the user's, it returns 0, and the user reads the
    buffer at [va] and what was there before everywhere else.  Otherwise it stops
    at the first page that is not the user's: it returns -1 if that page has a
    page table, and reads through the null pointer that [walkpgdir] gave it if not.
    In every case only bytes of user pages change; page tables, free pages and
    other address spaces do not. *)
Theorem copyout_user_pages kend s L pgdir T U O va buf : sys kend s L pgdir T U O -> guarded U -> 0 <= va -> va + Z.of_nat (length buf) <= 2 ^ 32 -> Forall is_byte buf ->
  exists s', sys kend s' L pgdir T U O /\ only_user U (kp_mem s) (kp_mem s') /\
    ((copyout pgdir va buf s = Ok 0 s' /\ (forall va', va <= va' < va + Z.of_nat (length buf) -> accessible U (va' / 4096)) /\
        (forall va', 0 <= va' < KERNBASE -> user_byte (kp_mem s') U va' =
        if decide (va <= va' < va + Z.of_nat (length buf)) then buf !! Z.to_nat (va' - va) else user_byte (kp_mem s) U va')) \/
     (exists n, va / 4096 <= n <= (va + Z.of_nat (length buf) - 1) / 4096 /\ ~ accessible U n /\ (forall m, va / 4096 <= m < n -> accessible U m) /\
        copyout pgdir va buf s = if decide (is_Some (T !! (n / 1024))) then Ok (-1) s' else Panic "nil pte" s')).
Proof.
  intros Hs Hg Hva Hend Hb.
  destruct (copyout_loop_all kend L pgdir T U O (length buf) s va buf Hs Hg) as (s' & R1 & R2 & [H|(n & (H1 & H2 & H3) & E)]); [done..| |].
  - exists s'. split; [done|]. split; [done|]. by left.
  - exists s'. split; [done|]. split; [done|]. right. by exists n.
Qed.

(** ** An instance *)

Module VmSample.
(** The linker's [end] and [data], and 4000 pages. *)
Definition kend : Z := KERNBASE + 0x400000.
Definition kdata : Z := KERNBASE + 0x200000.
Definition all_pages : list Z := (fun i => kend + 4096 * i) <$> seqZ 0 4000.

Lemma pages_ok : NoDup all_pages /\ Forall (freeable kend) all_pages /\ length all_pages = 4000%nat.
Proof.
  unfold all_pages. split_and!.
  - apply NoDup_fmap_2; [intros i j H; lia|apply NoDup_seqZ].
  - apply list.Forall_forall. intros v (i & -> & Hi)%list_elem_of_fmap. apply elem_of_seqZ in Hi.
    unfold freeable, kend, KERNBASE, PHYSTOP, PGSIZE. dlia.
  - rewrite length_fmap, length_seqZ. lia.
Qed.
Lemma free_all X : forall s L O, owned kend s L (X ++ O) -> exists s' L', owned kend s' L' O /\ L' ≡ₚ X ++ L.
Proof.
  induction X as [|v X IH]; intros s L O H; [by exists s, L|]. destruct (kfree_owned _ _ _ _ _ H) as (s1 & _ & H1 & _).
  destruct (IH s1 (v :: L) O H1) as (s' & L' & H2 & E). exists s', L'. split; [done|]. rewrite E. solve_Permutation.
Qed.
Lemma some_free : exists s L, owned kend s L [] /\ L ≡ₚ all_pages.
Proof.
  destruct pages_ok as (N & G & _). destruct (free_all all_pages (KPages ∅ (Pages false 0)) [] []) as (s & L & H & E).
  { rewrite app_nil_r. by split. }
  exists s, L. split; [done|]. by rewrite E, app_nil_r.
Qed.
Lemma kdata_fits : kdata_ok kdata.
Proof. unfold kdata_ok, kdata, KERNLINK, KERNBASE, EXTMEM, PHYSTOP. by split; [|lia]. Qed.

(** A process of three pages, and at least 2900 free pages. *)
Lemma some_process : exists s L pgdir T U O, sys kend s L pgdir T U O /\ (2900 <= length L)%nat /\
  (forall n, 3 <= n < 2 ^ 19 -> U !! n = None) /\ (forall n, 0 <= n < 3 -> is_Some (U !! n)) /\ is_Some (T !! 0) /\
  guarded U /\ (forall n, 0 <= n < 3 -> accessible U n).
Proof.
  destruct some_free as (s & L & H & E). destruct pages_ok as (_ & _ & Hlen).
  destruct (setupkvm_ok kend kdata s L [] H kdata_fits) as (d & s1 & E1 & _ & [(_ & Hl & _)|(L1 & T1 & [Hd _] & H1 & E2)]).
  { rewrite E, Hlen in Hl. lia. }
  pose proof (tabs_length _ _ _ _ (sy_space _ _ _ _ _ _ _ H1)) as Ht1. assert (length L = 4000%nat) as HL by by rewrite E.
  rewrite E2, length_app in HL. cbn in HL.
  assert (forall n, user n -> kernel_map kdata !! n = None) as HKU.
  { intros n Hn. unfold kernel_map. rewrite (kernel_map_user _ (2 ^ 19)); [apply lookup_empty|done|by apply kmaps_areas, kdata_fits|done]. }
  destruct (allocuvm_ok kend s1 L1 d T1 (kernel_map kdata) [] 0 12288 0 3 H1) as (s2 & L2 & T2 & U2 & _ & H2 & Z2 & P2 & _);
    [lia|unfold KERNBASE; lia|done|done|intros n Hn; apply HKU; unfold user; lia|lia|].
  assert (forall n, 0 <= n < 3 -> is_Some (U2 !! n)) as HU.
  { intros n Hn. specialize (Z2 n). rewrite decide_True in Z2 by done. destruct Z2 as (pa & -> & _). by eexists. }
  assert (forall n, 3 <= n < 2 ^ 19 -> U2 !! n = None) as HN.
  { intros n Hn. specialize (Z2 n). rewrite decide_False in Z2 by lia. rewrite Z2. apply HKU. unfold user. lia. }
  assert (forall n, 0 <= n < 3 -> accessible U2 n) as HA.
  { intros n Hn. specialize (Z2 n). rewrite decide_True in Z2 by done. destruct Z2 as (pa & E3 & _). by exists pa, 7. }
  exists s2, L2, d, T2, U2, []. split_and!; [done| |done|done| | |done].
  3: { intros n Hacc. destruct (decide (0 <= n < 3)) as [Hn|Hn]; [unfold user; lia|]. specialize (Z2 n). rewrite decide_False in Z2 by done.
    destruct Hacc as (pa & fl & E3 & Hfl). rewrite Z2 in E3. apply kernel_map_private in E3. rewrite E3 in Hfl. discriminate Hfl. }
  - pose proof (tabs_length _ _ _ _ (sy_space _ _ _ _ _ _ _ H2)). apply Permutation_length in P2. rewrite !length_app in P2.
    assert (Z.of_nat (length (frames U2)) <= Z.max 0 3); [|lia]. apply frames_length. intros n x Hx Hu.
    destruct (decide (0 <= n < 3)) as [|Hn]; [done|]. pose proof (sp_udom _ _ _ _ (sy_space _ _ _ _ _ _ _ H2) _ _ Hx) as Hv.
    rewrite HN in Hx; [done|]. unfold vaddr, user in *. lia.
  - pose proof (sp_ent _ _ _ _ (sy_space _ _ _ _ _ _ _ H2) 0 ltac:(unfold vaddr; lia)) as He. destruct (HU 0 ltac:(lia)) as [x Hx].
    rewrite Hx in He. change (0 / 1024) with 0 in He. by destruct (T2 !! 0); [eexists|].
Qed.

Lemma copyuvm_isolated_witness : exists s L pd PT PU O, sys kend s L pd PT PU O /\
  exists r s', copyuvm kend kdata pd 12288 s = Ok r s' /\ r <> 0 /\
    exists L' T U', sys kend s' L' r T U' (pd :: tabs PT ++ frames PU ++ O) /\ copied (kp_mem s) (kp_mem s') PU U' 0 3.
Proof.
  destruct some_process as (s & L & pd & PT & PU & O & Hs & Hl & Hn & Hu & _ & _). exists s, L, pd, PT, PU, O. split; [done|].
  destruct (copyuvm_isolated kend kdata s L pd PT PU O 12288 3) as (r & s' & E & _ & _ & [[_ H]|(Hr & L' & T & U' & H1 & H2 & _)]);
    [unfold kend; lia|apply kdata_fits|done|unfold KERNBASE; lia|done|done|lia|].
  exists r, s'. split_and!; [done|done|]. by exists L', T, U'.
Defined.

Lemma allocuvm_zeroed_witness : exists s L pgdir T U O, sys kend s L pgdir T U O /\
  exists s' L' T' U', allocuvm kend pgdir 12000 20000 s = Ok 20000 s' /\ sys kend s' L' pgdir T' U' O /\ zero_filled (kp_mem s') U U' 3 5.
Proof.
  destruct some_process as (s & L & pd & T & U & O & Hs & Hl & Hn & Hu & _ & _). exists s, L, pd, T, U, O. split; [done|].
  destruct (allocuvm_zeroed kend s L pd T U O 12000 20000 3 5) as (_ & _ & H);
    [unfold kend; lia|done|lia|done|done|intros n Hn2; apply Hn; lia|lia|].
  destruct H as (s' & L' & T' & U' & E & H1 & H2 & _); [unfold KERNBASE; lia|lia|].
  by exists s', L', T', U'.
Defined.

Lemma freevm_gives_back_witness : exists s L pgdir T U O, sys kend s L pgdir T U O /\
  exists s' L', freevm kend pgdir s = Ok tt s' /\ owned kend s' L' O /\ L' ≡ₚ L ++ pgdir :: tabs T ++ frames U.
Proof.
  destruct some_process as (s & L & pd & T & U & O & Hs & _). exists s, L, pd, T, U, O. split; [done|].
  destruct (freevm_gives_back kend s L pd T U O) as (s' & L' & E & H1 & H2 & _); [unfold kend; lia|done|]. by exists s', L'.
Defined.

Lemma copyout_user_pages_witness : exists s L pgdir T U O, sys kend s L pgdir T U O /\
  exists s', copyout pgdir 4094 [1; 2; 3; 4] s = Ok 0 s' /\ user_byte (kp_mem s') U 4096 = Some 3.
Proof.
  destruct some_process as (s & L & pd & T & U & O & Hs & _ & _ & _ & HT & Hg & HA). exists s, L, pd, T, U, O. split; [done|].
  destruct (copyout_user_pages kend s L pd T U O 4094 [1; 2; 3; 4] Hs Hg) as (s' & _ & _ & [(E & _ & Hb)|(n & Hn & Hno & _)]);
    [lia|cbn; lia|by apply (bool_decide_unpack _)| |].
  - exists s'. split; [done|]. rewrite Hb by (unfold KERNBASE; lia). done.
  - destruct Hno. apply HA. cbn [length] in Hn. dlia.
Defined.

(** With a single free page, no page table can be made for it: [allocuvm]
    ignores that, takes the page, and reports the new size although nothing is
    mapped. *)
Lemma allocuvm_ignores_mappages :
  let s := KPages (<[2 * ((kend + 4096) / 8) := 0]> ∅) (Pages false ((kend + 4096) / 8)) in
  match allocuvm kend kend 0 4096 s with
  | Ok r s' => r = 4096 /\ freelist (kp_pages s') = 0 /\ has (ld (kp_mem s') (kend / 4 + PDX 0)) PTE_P = false
  | _ => False
  end.
Proof. vm_compute. done. Qed.

(** [deallocuvm] steps over a missing page table from the middle of it, and so
    past the first pages of the next one: page 1024 stays mapped. *)
Lemma deallocuvm_skips_pages :
  let s := KPages (<[kend / 4 + 1 := kend + 4096 - KERNBASE + 7]> (<[(kend + 4096) / 4 := kend + 8192 - KERNBASE + 7]> ∅)) (Pages false 0) in
  deallocuvm kend kend (1025 * 4096) 4096 s = Ok 4096 s.
Proof. vm_compute. done. Qed.

(** [uva2ka] reads through the null pointer where there is no page table. *)
Lemma uva2ka_no_table s : kp_mem s !! (kend / 4) = None -> uva2ka kend 0 s = Panic "nil pte" s.
Proof.
  intros H. unfold uva2ka. mrun. unfold ld. change (kend / 4 + PDX 0) with (kend / 4). by rewrite H.
Qed.
End VmSample.
