(* ===== verification/Shell.v ===== *)
(** The shell ([sh.c]): the scanner, the recursive-descent parser and what the
    commands do with processes and descriptors.

    A pointer into the command line is an index, the line ends with the NUL at
    index [length buf].  The parser's state is the position [*ps]; [panic]
    prints its message and exits. *)

From S2P Require Import Prelude CString Syscall.
Local Open Scope nat_scope.

(** ** Commands *)

(** A string of the line, from [q] up to [eq]. *)
Definition tok : Type := nat * nat.
Inductive cmd :=
| EXEC (argv : list tok)
| REDIR (c : cmd) (file : tok) (mode : Z) (append : bool) (fd : nat)
| PIPE (left right : cmd)
| LIST (left right : cmd)
| BACK (c : cmd).
Definition MAXARGS : nat := 10.

(** The bytes of [ |();&<>+a] and of the NUL, as [gettoken] returns them. *)
Definition c_bar : Z := 124.
Definition c_lpar : Z := 40.
Definition c_rpar : Z := 41.
Definition c_semi : Z := 59.
Definition c_amp : Z := 38.
Definition c_lt : Z := 60.
Definition c_gt : Z := 62.
Definition c_plus : Z := 43.
Definition c_word : Z := 97.

Definition whitespace : list Z := [32; 9; 13; 10; 11]%Z.
Definition symbols : list Z := [c_lt; c_bar; c_gt; c_amp; c_semi; c_lpar; c_rpar].

(** [strchr(s, c) != 0] for the constant string [s]. *)
Definition in_str (s : list Z) (c : Z) : bool :=
  match User.strchr (s ++ [0%Z]) 0 c with Some (Some _) => true | _ => false end.
Definition is_space : Z -> bool := in_str whitespace.
Definition is_word (c : Z) : bool := negb (is_space c) && negb (in_str symbols c).

(** How far [while(s < es && p( *s)) s++] gets. *)
Fixpoint span (p : Z -> bool) (l : list Z) : nat :=
  match l with
  | [] => 0
  | c :: l' => if p c then S (span p l') else 0
  end.

Section parser.
Context (buf : list Z).

Definition char_at (s : nat) : Z := default 0%Z (buf !! s).
Definition skip_space (s : nat) : nat := s + span is_space (drop s buf).

(** The token at [q], which is not a space: what it is and where it ends. *)
Definition scan (q : nat) : Z * nat :=
  let c := char_at q in
  if (c =? 0)%Z then (0%Z, q)
  else if in_str [c_bar; c_lpar; c_rpar; c_semi; c_amp; c_lt] c then (c, S q)
  else if (c =? c_gt)%Z then if (char_at (S q) =? c_gt)%Z then (c_plus, S (S q)) else (c, S q)
  else (c_word, q + span is_word (drop q buf)).

Definition gettoken : M nat (Z * tok) := fun s =>
  let q := skip_space s in
  let '(ret, eq) := scan q in
  Ok (ret, (q, eq)) (skip_space eq).

Definition peek (toks : list Z) : M nat bool := fun s =>
  let s' := skip_space s in
  Ok (negb (char_at s' =? 0)%Z && in_str toks (char_at s')) s'.

(** A redirection that [parseredirs] wraps around the command. *)
Record redir := Redir { r_file : tok; r_mode : Z; r_append : bool; r_fd : nat }.
Definition redircmd (c : cmd) (r : redir) : cmd := REDIR c (r_file r) (r_mode r) (r_append r) (r_fd r).

Definition make_redir (t : Z) (f : tok) : option redir :=
  if (t =? c_lt)%Z then Some (Redir f O_RDONLY false 0)
  else if (t =? c_gt)%Z then Some (Redir f (Z.lor O_WRONLY O_CREATE) false 1)
  else if (t =? c_plus)%Z then Some (Redir f O_WRONLY true 1)
  else None.

(** [parseredirs], as the wrappers in the order they are applied: the command
    inside an [EXEC] is filled in later, through its pointer. *)
Fixpoint parseredirs (fuel : nat) : M nat (list redir) :=
  match fuel with
  | O => panic "out of fuel"
  | S f =>
    b ← peek [c_lt; c_gt];
    if b : bool then
      t ← gettoken; w ← gettoken;
      if negb (w.1 =? c_word)%Z then panic "missing file for redirection" else
      rs ← parseredirs f;
      mret (option_list (make_redir t.1 w.2) ++ rs)
    else mret []
  end.

(** The loop of [parseexec]: the arguments and the redirections it adds. *)
Fixpoint parseargs (fuel argc : nat) : M nat (list tok * list redir) :=
  match fuel with
  | O => panic "out of fuel"
  | S f =>
    b ← peek [c_bar; c_rpar; c_amp; c_semi];
    if b : bool then mret ([], []) else
    t ← gettoken;
    if (t.1 =? 0)%Z then mret ([], []) else
    if negb (t.1 =? c_word)%Z then panic "syntax" else
    if MAXARGS <=? S argc then panic "too many args" else
    rs ← parseredirs f;
    r ← parseargs f (S argc);
    mret (t.2 :: r.1, rs ++ r.2)
  end.

Definition wrap (c : cmd) (rs : list redir) : cmd := foldl redircmd c rs.

(** [while(peek("&")) cmd = backcmd(cmd)] *)
Fixpoint parseback (fuel : nat) (c : cmd) : M nat cmd :=
  match fuel with
  | O => panic "out of fuel"
  | S f => b ← peek [c_amp]; if b : bool then gettoken ;; parseback f (BACK c) else mret c
  end.

Fixpoint parseline (fuel : nat) : M nat cmd :=
  match fuel with
  | O => panic "out of fuel"
  | S f =>
    c ← parsepipe f;
    c ← parseback f c;
    b ← peek [c_semi];
    if b : bool then gettoken ;; r ← parseline f; mret (LIST c r) else mret c
  end
with parsepipe (fuel : nat) : M nat cmd :=
  match fuel with
  | O => panic "out of fuel"
  | S f =>
    c ← parseexec f;
    b ← peek [c_bar];
    if b : bool then gettoken ;; r ← parsepipe f; mret (PIPE c r) else mret c
  end
with parseexec (fuel : nat) : M nat cmd :=
  match fuel with
  | O => panic "out of fuel"
  | S f =>
    b ← peek [c_lpar];
    if b : bool then parseblock f else
    rs ← parseredirs f;
    a ← parseargs f 0;
    mret (wrap (EXEC a.1) (rs ++ a.2))
  end
with parseblock (fuel : nat) : M nat cmd :=
  match fuel with
  | O => panic "out of fuel"
  | S f =>
    b ← peek [c_lpar];
    if negb b then panic "parseblock" else
    gettoken ;;
    c ← parseline f;
    b ← peek [c_rpar];
    if negb b then panic "syntax - missing )" else
    gettoken ;;
    rs ← parseredirs f;
    mret (wrap c rs)
  end.

(** Every call takes a step of the fuel; between two calls at the same position
    there are at most four others. *)
Definition parse_fuel : nat := 4 * length buf + 5.

(** [parsecmd] up to [nulterminate]. *)
Definition parse : M nat cmd :=
  c ← parseline parse_fuel;
  peek [] ;;
  s ← get;
  if negb (s =? length buf) then panic "syntax" else mret c.
End parser.

(** ** Strings *)

(** [nulterminate] stores a NUL at the end of every string of the command. *)
Fixpoint nulterminate (c : cmd) (m : list Z) : list Z :=
  match c with
  | EXEC argv => foldl (fun m t => <[t.2 := 0%Z]> m) m argv
  | REDIR c f _ _ _ => <[f.2 := 0%Z]> (nulterminate c m)
  | PIPE l r | LIST l r => nulterminate r (nulterminate l m)
  | BACK c => nulterminate c m
  end.

(** The command line is the memory up to its NUL. *)
Definition parsecmd (m : list Z) : res nat (cmd * list Z) :=
  match parse (until0 m) 0 with
  | Ok c s => Ok (c, nulterminate c m) s
  | Panic e s => Panic e s
  | Blocked s => Blocked s
  | PowerFail s => PowerFail s
  end.

(** The strings of a command, as C strings of the memory. *)
Definition cstring (m : list Z) (t : tok) : list Z := until0 (drop t.1 m).

(** Where the program is looked for; the buffer has no room for the NUL. *)
Definition PATH : list Z := [47; 98; 105; 110; 47]%Z.
Definition addpath (c : list Z) : list Z :=
  match c with
  | 46%Z :: _ | 47%Z :: _ => c
  | _ => PATH ++ c
  end.
Definition addpath_room (c : list Z) : nat := length PATH + length c.

(** ** Running commands *)

(** A process of the shell: the system calls it makes, and what it does with
    their results.  [fork] makes a child; [pipe] yields the two descriptors. *)
Inductive proc :=
| Exit
| Close (fd : nat) (k : proc)
| Dup (fd : nat) (k : proc)
| Open (path : list Z) (mode : Z) (k : Z -> proc)
| Seek (fd : nat) (off dir : Z) (k : proc)
| Rerrstr (k : Z -> proc)                           (* rerrstr(nil, 0) *)
| Exec (path : list Z) (argv : list (list Z)) (k : proc)
| Fork (child : proc) (parent : Z -> proc)
| Wait (k : proc)
| Pipe (k : option (nat * nat) -> proc)
| Message (text : string) (k : proc).               (* printf(2, ...) *)

(** [fork1] and the two continuations of its result. *)
Definition fork1 (child parent : proc) : proc :=
  Fork child (fun pid => if (pid =? -1)%Z then Message "fork" Exit else parent).

Section run.
Context (m : list Z).   (* the line, its strings terminated *)

Fixpoint runcmd (c : cmd) : proc :=
  match c with
  | EXEC [] => Exit
  | EXEC ((a :: _) as argv) => Exec (addpath (cstring m a)) (cstring m <$> argv) (Message "exec failed" Exit)
  | REDIR c f mode ap fd =>
    Close fd (Open (cstring m f) mode (fun r =>
      if (r <? 0)%Z then Message "open failed" Exit else
      let rest := Rerrstr (fun e => if negb (e =? 0)%Z then Message "op failed" Exit else runcmd c) in
      if ap : bool then Seek fd 0 2 rest else rest))
  | LIST l r => fork1 (runcmd l) (Wait (runcmd r))
  | PIPE l r =>
    Pipe (fun o =>
      match o with
      | None => Message "pipe" Exit
      | Some (p0, p1) =>
        fork1 (Close 1 (Dup p1 (Close p0 (Close p1 (runcmd l)))))
       (fork1 (Close 0 (Dup p0 (Close p0 (Close p1 (runcmd r)))))
              (Close p0 (Close p1 (Wait (Wait Exit)))))
      end)
  | BACK c => fork1 (runcmd c) Exit
  end.
End run.

(** ** The main loop *)

Definition streq (a b : list Z) : bool := (length a =? length b) && forallb (fun x => (x.1 =? x.2)%Z) (zip a b).

Inductive action := Comment | Chdir (path : list Z) | Quit | Run (line : list Z).
(** What the shell does with a line that [getcmd] read. *)
Definition line_action (buf : list Z) : action :=
  if (default 0 (head buf) =? 35)%Z then Comment
  else match buf with
  | 99%Z :: 100%Z :: 32%Z :: _ => Chdir (drop 3 (take (length buf - 1) buf))
  | _ => if streq buf [101; 120; 105; 116; 10]%Z then Quit else Run buf
  end.
