(* ===== verification/ShellFacts.v ===== *)
(** The shell's parser: it ends on every line, its strings are those of the
    line, and it reads back what is written in the grammar. *)

From S2P Require Import Prelude CString Syscall Shell.
Local Open Scope nat_scope.

(** Facts of concrete characters. *)
Ltac concrete := apply (bool_decide_unpack _); vm_compute; exact I.

(** ** Characters *)

Lemma in_str_spec s c : Forall (fun x => x <> 0%Z) s -> in_str s c = bool_decide (c ∈ s).
Proof.
  intros H. unfold in_str, User.strchr. rewrite drop_0. generalize 0%nat. induction s as [|x s IH]; intros p; [done|].
  apply list.Forall_cons in H as [Hx H]. cbn [app User.strchr_loop]. rewrite (proj2 (Z.eqb_neq x 0) Hx).
  destruct (Z.eqb_spec x c) as [->|Hc]; [by rewrite bool_decide_eq_true_2 by by left|]. rewrite (IH H).
  apply bool_decide_ext. rewrite elem_of_cons. split; [auto|intros [->|]; done].
Qed.
Lemma in_str_elem s c : Forall (fun x => x <> 0%Z) s -> in_str s c = true <-> c ∈ s.
Proof. intros H. rewrite in_str_spec by done. apply bool_decide_eq_true. Qed.

Lemma space_nonzero c : is_space c = true -> c <> 0%Z.
Proof. intros H ->. done. Qed.
Lemma word_nonspace c : is_word c = true -> is_space c = false.
Proof. unfold is_word. by destruct (is_space c). Qed.
Lemma word_nosymbol c : is_word c = true -> in_str symbols c = false.
Proof. unfold is_word. destruct (is_space c), (in_str symbols c); done. Qed.
(** A character that is no space, no one-character token and no [>] is part of a word. *)
Lemma word_char c : is_space c = false -> in_str [c_bar; c_lpar; c_rpar; c_semi; c_amp; c_lt] c = false -> (c =? c_gt)%Z = false -> is_word c = true.
Proof.
  intros H1 H2 H3. unfold is_word. rewrite H1. destruct (in_str symbols c) eqn:E; [|done].
  apply (in_str_elem symbols) in E; [|repeat constructor; done]. exfalso. apply Z.eqb_neq in H3.
  rewrite in_str_spec in H2 by (repeat constructor; done). apply bool_decide_eq_false in H2. apply H2.
  unfold symbols in E. rewrite !elem_of_cons, elem_of_nil in *. tauto.
Qed.

Lemma span_le p l : span p l <= length l.
Proof. induction l as [|c l IH]; cbn; [done|]. destruct (p c); lia. Qed.
Lemma span_stop p l c : l !! span p l = Some c -> p c = false.
Proof. induction l as [|x l IH]; cbn; [done|]. destruct (p x) eqn:E; [by apply IH|]. cbn. by intros [= <-]. Qed.
Lemma span_all p l i c : l !! i = Some c -> i < span p l -> p c = true.
Proof.
  revert i. induction l as [|x l IH]; intros i; cbn; [done|]. destruct (p x) eqn:E; [|lia].
  destruct i as [|i]; [by intros [= <-]|]. intros H Hi. apply (IH i); [done|lia].
Qed.

(** ** Every line *)

Section line.
Context (buf : list Z) (buf_nonzero : Forall (fun c => c <> 0%Z) buf).
Abbreviation len := (length buf).
Abbreviation char_at := (char_at buf).
Abbreviation skip_space := (skip_space buf).

Lemma char_at_zero s : char_at s = 0%Z <-> len <= s.
Proof.
  unfold Shell.char_at. destruct (buf !! s) as [c|] eqn:E; cbn.
  - rewrite list.Forall_forall in buf_nonzero. pose proof (buf_nonzero c (list_elem_of_lookup_2 _ _ _ E)). apply lookup_lt_Some in E.
    split; [done|lia].
  - apply lookup_ge_None in E. done.
Qed.
Lemma skip_space_le s : s <= len -> s <= skip_space s <= len.
Proof. intros H. unfold Shell.skip_space. pose proof (span_le is_space (drop s buf)). rewrite length_drop in *. lia. Qed.
Lemma skip_space_char s : is_space (char_at (skip_space s)) = false.
Proof.
  unfold Shell.char_at, Shell.skip_space. destruct (buf !! _) as [c|] eqn:E; [|done]. cbn. rewrite <- lookup_drop in E. by apply span_stop in E.
Qed.

(** The string [t] is a word of the line. *)
Definition word_tok (t : tok) : Prop := t.1 < t.2 <= len /\ (forall i, t.1 <= i < t.2 -> is_word (char_at i) = true) /\ (t.2 = len \/ is_word (char_at t.2) = false).

Lemma scan_ok q : q <= len -> is_space (char_at q) = false ->
  let '(ret, eq) := scan buf q in q <= eq <= len /\ (ret <> 0%Z -> q < eq) /\ (ret = 0%Z -> q = len) /\ (ret = c_word -> word_tok (q, eq)).
Proof.
  intros Hq Hs. unfold scan. destruct (Z.eqb_spec (char_at q) 0) as [E|E].
  { apply char_at_zero in E. assert (q = len) as -> by lia. done. }
  assert (q < len) as Hlt by (destruct (decide (q < len)); [done|destruct E; apply char_at_zero; lia]).
  destruct (in_str [c_bar; c_lpar; c_rpar; c_semi; c_amp; c_lt] (char_at q)) eqn:E1.
  { split_and!; [lia|lia|lia|done|]. intros Hc. rewrite Hc in E1. done. }
  destruct (Z.eqb_spec (char_at q) c_gt) as [E2|E2].
  { rewrite E2. destruct (Z.eqb_spec (char_at (S q)) c_gt) as [E3|E3]; split_and!; try lia; try done.
    destruct (decide (S q < len)); [lia|]. assert (char_at (S q) = 0%Z) as E4 by (apply char_at_zero; lia). rewrite E4 in E3. done. }
  assert (is_word (char_at q) = true) as Hw by (apply word_char; [done|done|by apply Z.eqb_neq]).
  pose proof (span_le is_word (drop q buf)) as Hle. rewrite length_drop in Hle.
  assert (0 < span is_word (drop q buf)) as H0.
  { unfold Shell.char_at in Hw. destruct (buf !! q) as [c|] eqn:Ec; [|apply lookup_ge_None in Ec; lia].
    rewrite (drop_S _ _ _ Ec). cbn in *. rewrite Hw. lia. }
  split_and!; [lia|lia|lia|done|]. intros _. split_and!; cbn [fst snd]; [lia|lia| |].
  - intros i Hi. unfold Shell.char_at. destruct (lookup_lt_is_Some_2 buf i) as [c Hc]; [lia|]. rewrite Hc. cbn.
    apply (span_all is_word (drop q buf) (i - q)); [rewrite lookup_drop; by replace (q + (i - q)) with i by lia|lia].
  - unfold Shell.char_at. destruct (buf !! (q + _)) as [c|] eqn:Ec; [right|left; apply lookup_ge_None in Ec; lia].
    cbn. rewrite <- lookup_drop in Ec. by apply span_stop in Ec.
Qed.

(** The parser ended, at or after [s], with a value that satisfies [Q], or with
    one of the shell's messages. *)
Definition ends {A} (s : nat) (Q : A -> nat -> Prop) (r : res nat A) : Prop :=
  match r with
  | Ok a s' => s <= s' <= len /\ Q a s'
  | Panic m _ => m <> "out of fuel"%string
  | _ => False
  end.
Lemma ends_bind {A B} (c : M nat A) (k : A -> M nat B) s (P : A -> nat -> Prop) (Q : B -> nat -> Prop) :
  ends s P (c s) -> (forall a s', s <= s' <= len -> P a s' -> ends s' Q (k a s')) -> ends s Q ((x ← c; k x) s).
Proof.
  unfold ends. cbv [mbind M_bind]. destruct (c s) as [a s1|m s1|s1|s1]; try done. intros [H1 H2] Hk. specialize (Hk a s1 H1 H2).
  destruct (k a s1) as [b s2|m s2|s2|s2]; try done. split; [lia|apply Hk].
Qed.
Lemma ends_ret {A} (a : A) s (Q : A -> nat -> Prop) : s <= len -> Q a s -> ends s Q ((mret a : M nat A) s).
Proof. intros H1 H2. split; [lia|done]. Qed.
Lemma ends_mono {A} (P Q : A -> nat -> Prop) s r : ends s P r -> (forall a s', P a s' -> Q a s') -> ends s Q r.
Proof. intros H HPQ. destruct r; try done. destruct H. split; auto. Qed.

(** Looking ahead; a token that was seen is consumed. *)
Lemma peek_ok toks s : s <= len -> ends s (fun b s' => s' = skip_space s' /\ (b = true -> s' < len)) (peek buf toks s).
Proof.
  intros H. unfold peek. split; [by apply skip_space_le|]. pose proof (skip_space_le s H). split.
  - unfold Shell.skip_space at 2. pose proof (skip_space_char s) as Hc. unfold Shell.char_at in Hc.
    destruct (buf !! skip_space s) as [c|] eqn:E; [rewrite (drop_S _ _ _ E); cbn in *; rewrite Hc; lia|].
    apply lookup_ge_None in E. rewrite drop_ge by done. cbn. lia.
  - destruct (Z.eqb_spec (char_at (skip_space s)) 0) as [E|E]; [done|]. intros _. destruct (decide (skip_space s < len)); [done|].
    destruct E. apply char_at_zero. lia.
Qed.
Lemma gettoken_ok s : s <= len -> ends s (fun t s' => (t.1 <> 0%Z -> s < s') /\ (skip_space s < len -> t.1 <> 0%Z) /\ (t.1 = c_word -> word_tok t.2)) (gettoken buf s).
Proof.
  intros H. unfold gettoken. pose proof (skip_space_le s H) as Hq. pose proof (scan_ok (skip_space s) ltac:(lia) (skip_space_char s)) as Hs.
  destruct (scan buf (skip_space s)) as [ret eq]. destruct Hs as (H1 & H2 & H3 & H4). pose proof (skip_space_le eq ltac:(lia)).
  split; [lia|]. cbn [fst snd]. split_and!; [intros Hr; specialize (H2 Hr); lia| |done]. intros Hl Hr. specialize (H3 Hr). lia.
Qed.

Definition redir_tok (r : redir) : Prop := word_tok (r_file r) /\ r_fd r <= 1.
Fixpoint cmd_toks (c : cmd) : list tok :=
  match c with
  | EXEC argv => argv
  | REDIR c f _ _ _ => cmd_toks c ++ [f]
  | PIPE l r | LIST l r => cmd_toks l ++ cmd_toks r
  | BACK c => cmd_toks c
  end.
(** Redirections concern the standard input or output. *)
Fixpoint std_fds (c : cmd) : Prop :=
  match c with
  | EXEC _ => True
  | REDIR c _ _ _ fd => fd <= 1 /\ std_fds c
  | PIPE l r | LIST l r => std_fds l /\ std_fds r
  | BACK c => std_fds c
  end.
Definition words (c : cmd) : Prop := Forall word_tok (cmd_toks c) /\ std_fds c.
Lemma words_pair l r : words l -> words r -> words (LIST l r) /\ words (PIPE l r).
Proof. unfold words. cbn. rewrite !list.Forall_app. tauto. Qed.

Lemma words_wrap c rs : words c -> Forall redir_tok rs -> words (wrap c rs).
Proof.
  unfold wrap. revert c. induction rs as [|r rs IH]; intros c [Hc Hs] H; [done|]. apply list.Forall_cons in H as [[Hr Hfd] H]. cbn [foldl].
  apply IH; [|done]. split; cbn; [|done]. apply list.Forall_app. split; [done|]. by constructor.
Qed.
Lemma make_redir_tok t f : word_tok f -> Forall redir_tok (option_list (make_redir t f)).
Proof. intros H. unfold make_redir. repeat case_match; cbn; [constructor; [split; [exact H|cbn; lia]|constructor]..|constructor]. Qed.

(** [c] is consumed by the next token. *)
Lemma consume {A} (k : M nat A) s (Q : A -> nat -> Prop) : s = skip_space s -> s < len ->
  (forall s', s < s' <= len -> ends s' Q (k s')) -> ends s Q ((gettoken buf ;; k) s).
Proof.
  intros Hs Hl Hk. eapply ends_bind; [apply gettoken_ok; lia|]. intros t s' H1 (H2 & H3 & _). apply Hk.
  rewrite <- Hs in H3. specialize (H2 (H3 Hl)). lia.
Qed.

Lemma parseredirs_ok f : forall s, s <= len -> len - s < f -> ends s (fun rs _ => Forall redir_tok rs) (parseredirs buf f s).
Proof.
  induction f as [|f IH]; intros s Hs Hf; [lia|]. cbn [parseredirs]. eapply ends_bind; [by apply peek_ok|].
  intros [] s1 H1 [E1 H2]; [|apply ends_ret; [lia|constructor]].
  specialize (H2 eq_refl). eapply ends_bind; [apply gettoken_ok; lia|]. intros t s2 H3 (H4 & H5 & _). rewrite <- E1 in H5. specialize (H4 (H5 H2)).
  eapply ends_bind; [apply gettoken_ok; lia|]. intros w s3 H6 (H7 & _ & H8). destruct (Z.eqb_spec w.1 c_word) as [Ew|Ew]; [|done]. cbn [negb].
  eapply ends_bind; [apply IH; lia|]. intros rs s4 H9 H10. apply ends_ret; [lia|]. apply list.Forall_app. split; [|done]. by apply make_redir_tok, H8.
Qed.
Lemma parseargs_ok f : forall s argc, s <= len -> len - s < f ->
  ends s (fun r _ => Forall word_tok r.1 /\ Forall redir_tok r.2 /\ length r.1 + argc < MAXARGS \/ r = ([], [])) (parseargs buf f argc s).
Proof.
  induction f as [|f IH]; intros s argc Hs Hf; [lia|]. cbn [parseargs]. eapply ends_bind; [by apply peek_ok|].
  intros [] s1 H1 [E1 H2]; [apply ends_ret; [lia|by right]|]. eapply ends_bind; [apply gettoken_ok; lia|]. intros t s2 H3 (H4 & H5 & H6).
  destruct (Z.eqb_spec t.1 0) as [Et|Et]; [apply ends_ret; [lia|by right]|]. specialize (H4 Et).
  destruct (Z.eqb_spec t.1 c_word) as [Ew|Ew]; [|done]. cbn [negb]. destruct (Nat.leb_spec MAXARGS (S argc)) as [Ha|Ha]; [done|].
  eapply ends_bind; [apply parseredirs_ok; lia|]. intros rs s3 H7 H8. eapply ends_bind; [apply IH; lia|]. intros r s4 H9 H10. apply ends_ret; [lia|].
  left. cbn [fst snd length].
  destruct H10 as [(A & B & C)| ->]; cbn [fst snd length]; split_and!; try lia; try (constructor; by auto); [by apply list.Forall_app|by rewrite app_nil_r].
Qed.
Lemma parseback_ok f : forall s c, s <= len -> len - s < f -> words c -> ends s (fun c _ => words c) (parseback buf f c s).
Proof.
  induction f as [|f IH]; intros s c Hs Hf Hc; [lia|]. cbn [parseback]. eapply ends_bind; [by apply peek_ok|].
  intros [] s1 H1 [E1 H2]; [|apply ends_ret; [lia|done]].
  apply consume; [done|auto|]. intros s2 H3. apply IH; [lia|lia|done].
Qed.

Lemma parser_ok f :
  (forall s, s <= len -> 4 * (len - s) + 4 <= f -> ends s (fun c _ => words c) (parseline buf f s)) /\
  (forall s, s <= len -> 4 * (len - s) + 3 <= f -> ends s (fun c _ => words c) (parsepipe buf f s)) /\
  (forall s, s <= len -> 4 * (len - s) + 2 <= f -> ends s (fun c _ => words c) (parseexec buf f s)) /\
  (forall s, s <= len -> 4 * (len - s) + 1 <= f -> ends s (fun c _ => words c) (parseblock buf f s)).
Proof.
  induction f as [|f (IHl & IHp & IHe & IHb)]; [split_and!; intros; lia|]. split_and!; intros s Hs Hf; cbn [parseline parsepipe parseexec parseblock].
  - eapply ends_bind; [apply IHp; lia|]. intros c s1 H1 Hc. eapply ends_bind; [apply parseback_ok; [lia|lia|done]|]. intros c2 s2 H2 Hc2.
    eapply ends_bind; [apply peek_ok; lia|]. intros [] s3 H3 [E3 H4]; [|apply ends_ret; [lia|done]].
    apply consume; [done|auto|]. intros s4 H5. eapply ends_bind; [apply IHl; lia|]. intros r s5 H6 Hr. apply ends_ret; [lia|]. by apply words_pair.
  - eapply ends_bind; [apply IHe; lia|]. intros c s1 H1 Hc. eapply ends_bind; [apply peek_ok; lia|].
    intros [] s3 H3 [E3 H4]; [|apply ends_ret; [lia|done]].
    apply consume; [done|auto|]. intros s4 H5. eapply ends_bind; [apply IHp; lia|]. intros r s5 H6 Hr. apply ends_ret; [lia|]. by apply words_pair.
  - eapply ends_bind; [apply peek_ok; lia|]. intros [] s1 H1 [E1 H2]; [apply IHb; lia|]. eapply ends_bind; [apply parseredirs_ok; lia|].
    intros rs s2 H3 Hrs.
    eapply ends_bind; [apply parseargs_ok; lia|]. intros a s3 H4 Ha. apply ends_ret; [lia|]. destruct Ha as [(A & B & _)| ->]; apply words_wrap; cbn.
    + done.
    + by apply list.Forall_app.
    + split; [constructor|done].
    + by rewrite app_nil_r.
  - eapply ends_bind; [apply peek_ok; lia|]. intros [] s1 H1 [E1 H2]; [|done]. cbn [negb]. apply consume; [done|auto|]. intros s2 H3.
    eapply ends_bind; [apply IHl; lia|]. intros c s3 H4 Hc. eapply ends_bind; [apply peek_ok; lia|]. intros [] s4 H5 [E5 H6]; [|done]. cbn [negb].
    apply consume; [done|auto|]. intros s5 H7. eapply ends_bind; [apply parseredirs_ok; lia|]. intros rs s6 H8 Hrs. apply ends_ret; [lia|].
    by apply words_wrap.
Qed.

Lemma parse_ok : ends 0 (fun c s' => words c /\ s' = len) (parse buf 0).
Proof.
  unfold parse. eapply ends_bind; [apply (proj1 (parser_ok (parse_fuel buf))); unfold parse_fuel; lia|]. intros c s1 H1 Hc.
  eapply ends_bind; [apply peek_ok; lia|]. intros b s2 H2 _. eapply (ends_bind _ _ _ (fun s' s => s' = s /\ s = s2)).
  - cbn. split; [lia|done].
  - intros s3 s4 H3 [-> ->]. destruct (Nat.eqb_spec s2 len) as [->|]; [|done]. cbn [negb]. apply ends_ret; [lia|done].
Qed.
End line.

(** ** The strings *)

Definition zero_ends (m : list Z) (ts : list tok) : list Z := foldl (fun m t => <[t.2 := 0%Z]> m) m ts.

Lemma nulterminate_ends c : forall m, nulterminate c m = zero_ends m (cmd_toks c).
Proof.
  unfold zero_ends. induction c as [argv|c IH f mode ap fd|l IHl r IHr|l IHl r IHr|c IH]; intros m; cbn [nulterminate cmd_toks]; [done| | | |done].
  - by rewrite IH, foldl_app.
  - by rewrite IHl, IHr, foldl_app.
  - by rewrite IHl, IHr, foldl_app.
Qed.
Lemma lookup_zero_ends ts i : forall m,
  zero_ends m ts !! i = if decide (i ∈ ts.*2 /\ i < length m) then Some 0%Z else m !! i.
Proof.
  unfold zero_ends. induction ts as [|t ts IH]; intros m; cbn [foldl fmap list_fmap].
  { rewrite decide_False; [done|]. rewrite elem_of_nil. tauto. }
  rewrite IH, length_insert. destruct (decide (i = t.2)) as [->|Hi].
  - destruct (decide (t.2 < length m)) as [Hl|Hl]; [|rewrite !decide_False by tauto; by rewrite list_insert_ge by lia].
    rewrite list_lookup_insert_eq by done. rewrite (decide_True (P := t.2 ∈ t.2 :: ts.*2 /\ _)) by (split; [by left|done]). by destruct (decide _).
  - rewrite list_lookup_insert_ne by done. apply decide_ext. rewrite elem_of_cons. tauto.
Qed.

Lemma until0_split m : 0%Z ∈ m -> exists rest, m = until0 m ++ 0%Z :: rest.
Proof.
  induction m as [|c m IH]; intros H; [by apply elem_of_nil in H|]. cbn. destruct (Z.eqb_spec c 0) as [->|Hc]; [by exists m|].
  apply elem_of_cons in H as [H|H]; [done|]. destruct (IH H) as [rest Hr]. exists rest. cbn. by rewrite <- Hr.
Qed.

(** A word keeps its text: no NUL is stored inside it, and one after it. *)
Lemma word_cstring m c t : 0%Z ∈ m -> words (until0 m) c -> t ∈ cmd_toks c ->
  cstring (nulterminate c m) t = take (t.2 - t.1) (drop t.1 m).
Proof.
  intros H0 Hw Ht. destruct (until0_split m H0) as [rest Em]. set (buf := until0 m) in *.
  pose proof (until0_nonzero m) as Hnz. fold buf in Hnz. destruct Hw as [Hw _]. rewrite list.Forall_forall in Hw.
  destruct (Hw t Ht) as ((A1 & A2) & A3 & A4). destruct t as [q e]. cbn [fst snd] in *.
  assert (length m = S (length buf + length rest)) as Hlen by (rewrite Em, length_app; cbn; lia).
  unfold cstring. rewrite nulterminate_ends. cbn [fst snd]. set (m' := zero_ends m (cmd_toks c)).
  assert (forall i, q <= i < e -> m' !! i = m !! i) as Hin.
  { intros i Hi. unfold m'. rewrite lookup_zero_ends, decide_False; [done|]. intros [Hie _]. apply list_elem_of_fmap in Hie as ([q2 e2] & -> & H2).
    destruct (Hw _ H2) as ((B1 & B2) & B3 & B4). cbn [fst snd] in *. destruct B4 as [->|B4]; [lia|]. rewrite A3 in B4 by lia. done. }
  assert (m' !! e = Some 0%Z) as He.
  { unfold m'. rewrite lookup_zero_ends, decide_True; [done|]. split; [|lia]. apply list_elem_of_fmap. by exists (q, e). }
  rewrite <- (take_drop (e - q) (drop q m')), drop_drop. replace (q + (e - q)) with e by lia. rewrite (drop_S _ _ _ He).
  assert (take (e - q) (drop q m') = take (e - q) (drop q m)) as ->.
  { apply list_eq. intros i. rewrite !lookup_take. destruct (decide _); [|done]. rewrite !lookup_drop. apply Hin. lia. }
  apply until0_app. apply list.Forall_forall. intros x Hx. apply list_elem_of_lookup in Hx as [i Hi]. rewrite lookup_take in Hi.
  destruct (decide _); [|done]. rewrite lookup_drop, Em, lookup_app_l in Hi by lia.
  rewrite list.Forall_forall in Hnz. apply Hnz. by apply list_elem_of_lookup_2 in Hi.
Qed.

(** C27: on every command line the parser ends, with one of the shell's messages
    or with a command whose strings, once terminated in place, are the words of
    the line they point at. *)
Theorem parsecmd_strings m : 0%Z ∈ m ->
  match parsecmd m with
  | Ok (c, m') _ => Forall (fun t => cstring m' t = take (t.2 - t.1) (drop t.1 m) /\ word_tok (until0 m) t) (cmd_toks c)
  | Panic msg _ => msg <> "out of fuel"%string
  | _ => False
  end.
Proof.
  intros H0. unfold parsecmd. pose proof (parse_ok (until0 m) (until0_nonzero m)) as H. unfold ends in H.
  destruct (parse (until0 m) 0) as [c s|e s|s|s]; try done. destruct H as [_ [Hw _]].
  apply list.Forall_forall. intros t Ht. split; [by apply word_cstring|]. destruct Hw as [Hw _]. rewrite list.Forall_forall in Hw. by apply Hw.
Qed.
(** [ls -l|wc>f] *)
Lemma parsecmd_strings_witness :
  let m := [108; 115; 32; 45; 108; 124; 119; 99; 62; 102; 0]%Z in
  0%Z ∈ m /\ match parsecmd m with
             | Ok (c, m') _ => cmd_toks c = [(0, 2); (3, 5); (6, 8); (9, 10)] /\ Forall (fun t => cstring m' t = take (t.2 - t.1) (drop t.1 m)) (cmd_toks c)
             | _ => False
             end.
Proof.
  intros m. assert (0%Z ∈ m) as H by (unfold m; set_solver). split; [done|]. pose proof (parsecmd_strings m H) as P. revert P.
  destruct (parsecmd m) as [[c m'] s|e s|s|s] eqn:E; vm_compute in E; try done. injection E as <- <- <-. intros P. split; [done|].
  eapply list.Forall_impl; [exact P|]. by intros t [? _].
Defined.

(** ** The grammar *)

(** The commands the shell's grammar has, with their strings. *)
Inductive scmd :=
| SExec (argv : list (list Z))
| SRedir (c : scmd) (file : list Z) (mode : Z) (append : bool) (fd : nat)
| SPipe (l r : scmd)
| SList (l r : scmd)
| SBack (c : scmd).

Inductive rkind := RIn | ROut | RAppend.
Definition rd : Type := rkind * list Z.
(** line: pipe [&...] [; line];  pipe: unit [| pipe];  unit: words and
    redirections, or ( line ) and redirections. *)
Inductive line :=
| LOne (p : pipeline) (bg : nat)
| LSeq (p : pipeline) (bg : nat) (l : line)
with pipeline :=
| POne (u : cmd_unit)
| PBar (u : cmd_unit) (p : pipeline)
with cmd_unit :=
| UExec (rs : list rd) (args : list (list Z * list rd))
| UBlock (l : line) (rs : list rd).
Scheme line_mut := Induction for line Sort Prop
  with pipeline_mut := Induction for pipeline Sort Prop
  with cmd_unit_mut := Induction for cmd_unit Sort Prop.
Combined Scheme grammar_ind from line_mut, pipeline_mut, cmd_unit_mut.

(** A parsed command, its strings read by [g]. *)
Fixpoint text_with (g : tok -> list Z) (c : cmd) : scmd :=
  match c with
  | EXEC argv => SExec (g <$> argv)
  | REDIR c f mode ap fd => SRedir (text_with g c) (g f) mode ap fd
  | PIPE l r => SPipe (text_with g l) (text_with g r)
  | LIST l r => SList (text_with g l) (text_with g r)
  | BACK c => SBack (text_with g c)
  end.
Lemma text_ext g h c : (forall t, t ∈ cmd_toks c -> g t = h t) -> text_with g c = text_with h c.
Proof.
  induction c as [argv|c IH f mode ap fd|l IHl r IHr|l IHl r IHr|c IH]; cbn [text_with cmd_toks]; intros H.
  - f_equal. apply list_fmap_ext. intros i t Ht. apply H. by apply list_elem_of_lookup_2 in Ht.
  - rewrite IH, H; [done|apply elem_of_app; right; by left|]. intros t Ht. apply H, elem_of_app. by left.
  - rewrite IHl, IHr; [done|..]; intros t Ht; apply H, elem_of_app; auto.
  - rewrite IHl, IHr; [done|..]; intros t Ht; apply H, elem_of_app; auto.
  - by rewrite IH.
Qed.

(** What they mean. *)
Definition sredir (c : scmd) (r : rd) : scmd :=
  match r.1 with
  | RIn => SRedir c r.2 O_RDONLY false 0
  | ROut => SRedir c r.2 (Z.lor O_WRONLY O_CREATE) false 1
  | RAppend => SRedir c r.2 O_WRONLY true 1
  end.
Fixpoint mean_line (l : line) : scmd :=
  match l with
  | LOne p bg => Nat.iter bg SBack (mean_pipe p)
  | LSeq p bg l => SList (Nat.iter bg SBack (mean_pipe p)) (mean_line l)
  end
with mean_pipe (p : pipeline) : scmd :=
  match p with POne u => mean_unit u | PBar u p => SPipe (mean_unit u) (mean_pipe p) end
with mean_unit (u : cmd_unit) : scmd :=
  match u with
  | UExec rs args => foldl sredir (SExec args.*1) (rs ++ concat args.*2)
  | UBlock l rs => foldl sredir (mean_line l) rs
  end.

Definition is_wd (w : list Z) : Prop := w <> [] /\ Forall (fun c => is_word c = true /\ c <> 0%Z) w.
Definition wf_rds (rs : list rd) : Prop := Forall (fun r => is_wd r.2) rs.
Fixpoint wf_line (l : line) : Prop :=
  match l with LOne p _ => wf_pipe p | LSeq p _ l => wf_pipe p /\ wf_line l end
with wf_pipe (p : pipeline) : Prop :=
  match p with POne u => wf_unit u | PBar u p => wf_unit u /\ wf_pipe p end
with wf_unit (u : cmd_unit) : Prop :=
  match u with
  | UExec rs args => wf_rds rs /\ Forall (fun a => is_wd a.1 /\ wf_rds a.2) args /\ length args < MAXARGS
  | UBlock l rs => wf_line l /\ wf_rds rs
  end.

(** How they are written, with the white space [sp] after every token. *)
Section print.
Context (sp : list Z).
Definition token (w : list Z) : list Z := w ++ sp.
Definition pr_kind (k : rkind) : list Z := match k with RIn => [c_lt] | ROut => [c_gt] | RAppend => [c_gt; c_gt] end.
Definition pr_rds (rs : list rd) : list Z := concat ((fun r => token (pr_kind r.1) ++ token r.2) <$> rs).
Definition pr_args (args : list (list Z * list rd)) : list Z := concat ((fun a => token a.1 ++ pr_rds a.2) <$> args).
Definition pr_bg (n : nat) : list Z := concat (replicate n (token [c_amp])).
Lemma pr_rds_cons k w rs : pr_rds ((k, w) :: rs) = token (pr_kind k) ++ token w ++ pr_rds rs.
Proof. unfold pr_rds. cbn. by rewrite <- app_assoc. Qed.
Lemma pr_args_cons w rds args : pr_args ((w, rds) :: args) = token w ++ pr_rds rds ++ pr_args args.
Proof. unfold pr_args. cbn. by rewrite <- app_assoc. Qed.
Fixpoint pr_line (l : line) : list Z :=
  match l with
  | LOne p bg => pr_pipe p ++ pr_bg bg
  | LSeq p bg l => pr_pipe p ++ pr_bg bg ++ token [c_semi] ++ pr_line l
  end
with pr_pipe (p : pipeline) : list Z :=
  match p with POne u => pr_unit u | PBar u p => pr_unit u ++ token [c_bar] ++ pr_pipe p end
with pr_unit (u : cmd_unit) : list Z :=
  match u with
  | UExec rs args => pr_rds rs ++ pr_args args
  | UBlock l rs => token [c_lpar] ++ pr_line l ++ token [c_rpar] ++ pr_rds rs
  end.
End print.

(** ** Reading back *)

Section readback.
Context (sp buf : list Z) (sp_space : Forall (fun c => is_space c = true) sp) (sp_some : sp <> []).
Abbreviation tk := (token sp).

Definition text_of (t : tok) : list Z := take (t.2 - t.1) (drop t.1 buf).
Abbreviation text := (text_with text_of).

Definition tight (r : list Z) : Prop := match r with [] => True | c :: _ => is_space c = false end.
(** What may follow. *)
Definition stop (toks r : list Z) : Prop := match r with [] => True | c :: _ => c ∈ toks end.

Lemma span_app p l r : Forall (fun c => p c = true) l -> (match r with [] => True | c :: _ => p c = false end) -> span p (l ++ r) = length l.
Proof.
  intros H Hr. induction l as [|c l IH]; cbn.
  - destruct r as [|c r]; [done|]. cbn. by rewrite Hr.
  - apply list.Forall_cons in H as [Hc H]. by rewrite Hc, (IH H).
Qed.
Lemma char_here s c r : drop s buf = c :: r -> char_at buf s = c /\ drop (S s) buf = r.
Proof.
  intros H. unfold char_at. rewrite <- (Nat.add_0_r s) at 1. rewrite <- lookup_drop, H. split; [done|].
  replace (S s) with (s + 1) by lia. by rewrite <- drop_drop, H.
Qed.
Lemma char_end s : drop s buf = [] -> char_at buf s = 0%Z.
Proof. intros H. unfold char_at. rewrite <- (Nat.add_0_r s). by rewrite <- lookup_drop, H. Qed.
Lemma skip_here s r : drop s buf = r -> tight r -> skip_space buf s = s.
Proof. intros H Ht. unfold skip_space. rewrite H. destruct r as [|c r]; cbn in *; [lia|]. rewrite Ht. lia. Qed.
Lemma skip_sp s r : drop s buf = sp ++ r -> tight r -> skip_space buf s = s + length sp /\ drop (s + length sp) buf = r.
Proof.
  intros H Ht. unfold skip_space. rewrite H, span_app; [|done|by destruct r]. split; [done|]. rewrite <- drop_drop, H. apply drop_app_length.
Qed.
Lemma sp_head : exists c r, sp = c :: r /\ is_space c = true.
Proof. destruct sp as [|c r]; [done|]. apply list.Forall_cons in sp_space as [? _]. eauto. Qed.

Lemma get_word s w r : is_wd w -> drop s buf = tk w ++ r -> tight r ->
  gettoken buf s = Ok (c_word, (s, s + length w)) (s + length (tk w)) /\ drop (s + length (tk w)) buf = r /\ text_of (s, s + length w) = w.
Proof.
  intros [Hne Hw] H Ht. unfold token in *. rewrite <- app_assoc in H. destruct w as [|c w]; [done|]. destruct sp_head as (x & y & Esp & Hx).
  assert (Forall (fun c => is_word c = true) (c :: w)) as Hw1 by (eapply list.Forall_impl; [exact Hw|]; by intros ? [? _]).
  apply list.Forall_cons in Hw as [[Hc Hc0] Hw]. destruct (char_here s c (w ++ sp ++ r)) as [E1 E2]; [done|].
  assert (skip_space buf s = s) as E3 by (eapply skip_here; [exact H|by apply word_nonspace]).
  assert (drop (s + length (c :: w)) buf = sp ++ r) as E4 by (rewrite <- drop_drop, H; apply drop_app_length).
  destruct (skip_sp _ _ E4 Ht) as [E5 E6].
  unfold gettoken. rewrite E3. unfold scan. rewrite E1, (proj2 (Z.eqb_neq c 0) Hc0).
  assert (in_str [c_bar; c_lpar; c_rpar; c_semi; c_amp; c_lt] c = false /\ (c =? c_gt)%Z = false) as [E7 E8].
  { apply word_nosymbol in Hc. rewrite in_str_spec in Hc by (repeat constructor; done). apply bool_decide_eq_false in Hc.
    rewrite in_str_spec by (repeat constructor; done). split; [apply bool_decide_eq_false|apply Z.eqb_neq].
    - intros Hin. apply Hc. unfold symbols. rewrite !elem_of_cons, elem_of_nil in *. tauto.
    - intros ->. apply Hc. unfold symbols. rewrite !elem_of_cons. tauto. }
  rewrite E7, E8, H, span_app; [|done|by rewrite Esp; unfold is_word; cbn; rewrite Hx].
  rewrite E5, length_app, Nat.add_assoc. split; [done|]. split; [done|]. unfold text_of. cbn [fst snd]. rewrite H.
  replace (s + length (c :: w) - s) with (length (c :: w)) by lia. apply take_app_length.
Qed.

Lemma get_sym s c r : c ∈ [c_bar; c_lpar; c_rpar; c_semi; c_amp; c_lt] -> drop s buf = tk [c] ++ r -> tight r ->
  exists t, gettoken buf s = Ok (c, t) (s + length (tk [c])) /\ drop (s + length (tk [c])) buf = r.
Proof.
  intros Hc H Ht. unfold token in *. rewrite <- app_assoc in H. destruct (char_here s c (sp ++ r)) as [E1 E2]; [done|].
  assert (is_space c = false /\ c <> 0%Z) as [Hs H0] by (rewrite !elem_of_cons, elem_of_nil in Hc; destruct Hc as [->|[->|[->|[->|[->|[->|[]]]]]]]; done).
  assert (skip_space buf s = s) as E3 by (eapply skip_here; [exact H|done]). destruct (skip_sp _ _ E2 Ht) as [E5 E6].
  eexists. unfold gettoken. rewrite E3. unfold scan. rewrite E1, (proj2 (Z.eqb_neq c 0) H0).
  assert (in_str [c_bar; c_lpar; c_rpar; c_semi; c_amp; c_lt] c = true) as -> by (apply in_str_elem; [repeat constructor; done|done]). rewrite E5.
  cbn [app length].
  replace (s + S (length sp)) with (S s + length sp) by lia. done.
Qed.
Definition kind_ret (k : rkind) : Z := match k with RIn => c_lt | ROut => c_gt | RAppend => c_plus end.
Lemma get_kind s k r : drop s buf = tk (pr_kind k) ++ r -> tight r ->
  exists t, gettoken buf s = Ok (kind_ret k, t) (s + length (tk (pr_kind k))) /\
    drop (s + length (tk (pr_kind k))) buf = r.
Proof.
  intros H Ht. destruct k; [apply get_sym; [concrete|done|done]|..]; unfold token in *; rewrite <- app_assoc in H; cbn [pr_kind app] in H.
  all: destruct (char_here s _ _ H) as [E1 E2]; assert (skip_space buf s = s) as E3 by (eapply skip_here; [exact H|done]).
  - destruct sp_head as (x & y & Esp & Hx). destruct (char_here (S s) x (y ++ r)) as [E4 _]; [by rewrite E2, Esp|].
    destruct (skip_sp _ _ E2 Ht) as [E5 E6]. eexists. unfold gettoken. rewrite E3. unfold scan. rewrite E1, E4. change (c_gt =? 0)%Z with false.
    change (in_str [c_bar; c_lpar; c_rpar; c_semi; c_amp; c_lt] c_gt) with false. change (c_gt =? c_gt)%Z with true. cbn iota.
    rewrite (proj2 (Z.eqb_neq x c_gt)) by (intros ->; done). rewrite E5. cbn [pr_kind app length].
    replace (s + S (length sp)) with (S s + length sp) by lia. done.
  - destruct (char_here (S s) _ _ E2) as [E4 E4']. destruct (skip_sp _ _ E4' Ht) as [E5 E6]. eexists. unfold gettoken. rewrite E3. unfold scan.
    rewrite E1, E4.
    change (c_gt =? 0)%Z with false. change (in_str [c_bar; c_lpar; c_rpar; c_semi; c_amp; c_lt] c_gt) with false. change (c_gt =? c_gt)%Z with true.
    cbn iota.
    rewrite E5. cbn [pr_kind app length].
    replace (s + S (S (length sp))) with (S (S s) + length sp) by lia. done.
Qed.

Lemma peek_here toks s r : Forall (fun x => x <> 0%Z) toks -> drop s buf = r -> tight r ->
  peek buf toks s = Ok (match r with [] => false | c :: _ => negb (c =? 0)%Z && bool_decide (c ∈ toks) end) s.
Proof.
  intros H0 H Ht. unfold peek. rewrite (skip_here s r H Ht). destruct r as [|c r].
  - by rewrite (char_end s H).
  - destruct (char_here s c r H) as [-> _]. by rewrite in_str_spec.
Qed.

(** The remaining line starts with none of the characters [toks]. *)
Definition starts_off (toks r : list Z) : Prop := match r with [] => True | c :: _ => c <> 0%Z /\ is_space c = false /\ (c ∉ toks) end.
Lemma starts_off_tight toks r : starts_off toks r -> tight r.
Proof. destruct r; [done|]. by intros (_ & ? & _). Qed.
Lemma starts_off_sub toks toks' r : starts_off toks r -> (forall c, c ∈ toks' -> c ∈ toks) -> starts_off toks' r.
Proof. destruct r; [done|]. cbn. intros (? & ? & H) Hs. split_and!; [done|done|]. intros Hc. by apply H, Hs. Qed.
Lemma stop_off toks toks' r : stop toks r -> Forall (fun c => c <> 0%Z /\ is_space c = false /\ (c ∉ toks')) toks -> starts_off toks' r.
Proof. destruct r as [|c r]; [done|]. cbn. intros H HF. rewrite list.Forall_forall in HF. by apply HF. Qed.
Lemma word_off w r : is_wd w -> starts_off symbols (tk w ++ r).
Proof.
  intros [Hne Hw]. destruct w as [|c w]; [done|]. apply list.Forall_cons in Hw as [[H1 H2] _]. cbn. split_and!; [done|by apply word_nonspace|].
  apply word_nosymbol in H1. rewrite in_str_spec in H1 by (repeat constructor; done). by apply bool_decide_eq_false in H1.
Qed.
Lemma peek_off toks s r : Forall (fun x => x <> 0%Z) toks -> drop s buf = r -> starts_off toks r -> peek buf toks s = Ok false s.
Proof.
  intros H0 H Hr. rewrite (peek_here toks s r H0 H (starts_off_tight _ _ Hr)). destruct r as [|c r]; [done|]. destruct Hr as (? & ? & ?).
  rewrite (bool_decide_eq_false_2 (c ∈ toks)) by done. by rewrite andb_false_r.
Qed.
Lemma peek_on toks s c r : Forall (fun x => x <> 0%Z /\ is_space x = false) toks -> drop s buf = c :: r -> c ∈ toks -> peek buf toks s = Ok true s.
Proof.
  intros H0 H Hc. pose proof H0 as H1. rewrite list.Forall_forall in H1. destruct (H1 c Hc) as [H2 H3].
  rewrite (peek_here toks s (c :: r)); [|eapply list.Forall_impl; [exact H0|]; by intros ? [? _]|done|done].
  by rewrite (proj2 (Z.eqb_neq c 0) H2), bool_decide_eq_true_2.
Qed.

Definition reads_rd (x : redir) (r : rd) : Prop := forall c, text (redircmd c x) = sredir (text c) r.
Lemma text_wrap l rs : Forall2 reads_rd l rs -> forall c, text (wrap c l) = foldl sredir (text c) rs.
Proof. unfold wrap. induction 1 as [|x r l rs Hx H IH]; intros c; [done|]. cbn [foldl]. by rewrite IH, Hx. Qed.

Lemma make_reads k f w : text_of f = w -> Forall2 reads_rd (option_list (make_redir (kind_ret k) f)) [(k, w)].
Proof. intros <-. by destruct k; (constructor; [intros c|constructor]). Qed.
Lemma rds_tight rs r : tight r -> tight (pr_rds sp rs ++ r).
Proof. intros H. by destruct rs as [|[[] w] rs]. Qed.

Lemma redirs_back rs : wf_rds rs -> forall f s r, drop s buf = pr_rds sp rs ++ r -> starts_off [c_lt; c_gt] r -> length (pr_rds sp rs ++ r) < f ->
  exists l, parseredirs buf f s = Ok l (s + length (pr_rds sp rs)) /\ drop (s + length (pr_rds sp rs)) buf = r /\ Forall2 reads_rd l rs.
Proof.
  induction rs as [|[k w] rs IH]; intros Hwf f s r H Hr Hf; (destruct f as [|f]; [lia|]); cbn [parseredirs].
  { exists []. cbn in *. erewrite bind_ok by (eapply peek_off; [repeat constructor; done|exact H|done]). rewrite Nat.add_0_r. done. }
  apply list.Forall_cons in Hwf as [Hw Hwf]. cbn [snd] in Hw. rewrite pr_rds_cons in *. rewrite <- !app_assoc in *.
  assert (tight (tk w ++ pr_rds sp rs ++ r)) as T1 by (eapply starts_off_tight, word_off, Hw).
  assert (tight (pr_rds sp rs ++ r)) as T2 by (apply rds_tight; by eapply starts_off_tight).
  destruct (get_kind s k _ H T1) as (t & E1 & D1). destruct (get_word _ w _ Hw D1 T2) as (E2 & D2 & X2).
  rewrite !length_app in Hf.
  destruct (IH Hwf f _ r D2 Hr) as (l & E3 & D3 & X3).
  { assert (0 < length (tk (pr_kind k))) by (destruct k; cbn; lia). rewrite length_app. lia. }
  erewrite bind_ok by (destruct k; (eapply peek_on; [repeat constructor; done|exact H|concrete])). cbn iota.
  erewrite bind_ok by exact E1. erewrite bind_ok by exact E2. cbn [fst snd]. change (c_word =? c_word)%Z with true. cbn [negb].
  erewrite bind_ok by exact E3. eexists. rewrite !length_app, !Nat.add_assoc. split; [reflexivity|]. split; [exact D3|].
  cbn [fst snd]. change ((k, w) :: rs) with ([(k, w)] ++ rs). apply Forall2_app; [by apply make_reads|done].
Qed.

Lemma get_end s : drop s buf = [] -> exists t, gettoken buf s = Ok (0%Z, t) s.
Proof.
  intros H. unfold gettoken. rewrite (skip_here s [] H I). unfold scan. rewrite (char_end s H). cbn. rewrite (skip_here s [] H I). eauto.
Qed.

Definition F_exec : list Z := [c_bar; c_rpar; c_amp; c_semi].
Lemma args_off args r : Forall (fun a => is_wd a.1 /\ wf_rds a.2) args -> stop F_exec r -> starts_off [c_lt; c_gt; c_lpar] (pr_args sp args ++ r).
Proof.
  intros Ha Hr. destruct args as [|[w rds] args].
  - eapply stop_off; [exact Hr|]. concrete.
  - apply list.Forall_cons in Ha as [[Hw _] _]. rewrite pr_args_cons, <- !app_assoc.
    eapply starts_off_sub; [by apply word_off|]. unfold symbols. intros c. rewrite !elem_of_cons, elem_of_nil. tauto.
Qed.

Lemma args_back args : Forall (fun a => is_wd a.1 /\ wf_rds a.2) args -> forall f s r argc, drop s buf = pr_args sp args ++ r -> stop F_exec r ->
  length args + argc < MAXARGS -> length (pr_args sp args ++ r) < f ->
  exists a, parseargs buf f argc s = Ok a (s + length (pr_args sp args)) /\ drop (s + length (pr_args sp args)) buf = r /\
    text_of <$> a.1 = args.*1 /\ Forall2 reads_rd a.2 (concat args.*2).
Proof.
  induction args as [|[w rds] args IH]; intros Ha f s r argc H Hr Hc Hf; (destruct f as [|f]; [lia|]); cbn [parseargs].
  { exists ([], []). cbn in H. cbn [pr_args fmap list_fmap concat length]. rewrite Nat.add_0_r. destruct r as [|c r].
    - erewrite bind_ok by (eapply peek_off; [repeat constructor; done|exact H|done]). cbn iota. destruct (get_end s H) as [t Et].
      erewrite bind_ok by exact Et. done.
    - erewrite bind_ok by (eapply peek_on; [repeat constructor; done|exact H|exact Hr]). done. }
  apply list.Forall_cons in Ha as [[Hw Hrds] Ha]. cbn [fst snd] in *. rewrite pr_args_cons in *. rewrite <- !app_assoc in *.
  pose proof (args_off args r Ha Hr) as Hoff. assert (starts_off [c_lt; c_gt] (pr_args sp args ++ r)) as Hoff2.
  { eapply starts_off_sub; [exact Hoff|]. intros c. rewrite !elem_of_cons, elem_of_nil. tauto. }
  assert (tight (pr_rds sp rds ++ pr_args sp args ++ r)) as T1 by (apply rds_tight; by eapply starts_off_tight).
  destruct (get_word s w _ Hw H T1) as (E1 & D1 & X1).
  unfold token in Hf. rewrite !length_app in Hf. destruct Hw as [Hne Hw]. assert (0 < length w) by (destruct w; [done|cbn; lia]).
  destruct (redirs_back rds Hrds f _ _ D1 Hoff2) as (l & E2 & D2 & X2); [rewrite !length_app; lia|].
  destruct (IH Ha f _ r (S argc) D2 Hr) as (a & E3 & D3 & X3 & X4); [cbn in Hc; lia|rewrite !length_app; lia|].
  erewrite bind_ok by (eapply peek_off; [repeat constructor; done|exact H|]; eapply starts_off_sub; [apply word_off; by split|];
    unfold F_exec, symbols; intros c; rewrite !elem_of_cons, elem_of_nil; tauto). cbn iota.
  erewrite bind_ok by exact E1. cbn [fst snd]. change (c_word =? 0)%Z with false. change (c_word =? c_word)%Z with true. cbn [negb].
  rewrite (proj2 (Nat.leb_gt MAXARGS (S argc))) by (cbn in Hc; lia). erewrite bind_ok by exact E2. erewrite bind_ok by exact E3.
  eexists. rewrite !length_app, !Nat.add_assoc. split; [reflexivity|]. split; [exact D3|]. cbn [fst snd fmap list_fmap].
  split; [by rewrite X1; f_equal|]. cbn. by apply Forall2_app.
Qed.

Lemma bg_back n : forall f s r c, drop s buf = pr_bg sp n ++ r -> starts_off [c_amp] r -> length (pr_bg sp n ++ r) < f ->
  parseback buf f c s = Ok (Nat.iter n BACK c) (s + length (pr_bg sp n)) /\ drop (s + length (pr_bg sp n)) buf = r.
Proof.
  induction n as [|n IH]; intros f s r c H Hr Hf; (destruct f as [|f]; [lia|]); cbn [parseback].
  { cbn in *. erewrite bind_ok by (eapply peek_off; [repeat constructor; done|exact H|done]). rewrite Nat.add_0_r. done. }
  change (pr_bg sp (S n)) with (tk [c_amp] ++ pr_bg sp n) in H, Hf |- *. rewrite <- app_assoc in H, Hf.
  assert (tight (pr_bg sp n ++ r)) as T1 by (destruct n; [by eapply starts_off_tight|done]).
  destruct (get_sym s c_amp _ ltac:(concrete) H T1) as (t & E1 & D1). rewrite length_app in Hf.
  destruct (IH f _ r (BACK c) D1 Hr) as [E2 D2]; [unfold token in Hf; cbn in Hf; lia|].
  erewrite bind_ok by (eapply peek_on; [repeat constructor; done|exact H|concrete]). cbn iota. erewrite bind_ok by exact E1.
  rewrite E2, !length_app, !Nat.add_assoc. split; [|exact D2]. f_equal. cbn. by rewrite Nat.iter_swap.
Qed.

Definition F_pipe : list Z := [c_rpar; c_amp; c_semi].
Definition F_back : list Z := [c_rpar; c_semi].
Definition F_line : list Z := [c_rpar].

Lemma text_back n c : text (Nat.iter n BACK c) = Nat.iter n SBack (text c).
Proof. induction n as [|n IH]; [done|]. exact (f_equal SBack IH). Qed.
Lemma bg_stop n r : stop F_back r -> stop F_pipe (pr_bg sp n ++ r).
Proof.
  intros H. destruct n; cbn; [|concrete]. destruct r as [|c r]; [done|]. cbn in *. unfold F_back, F_pipe in *. rewrite !elem_of_cons in *. tauto.
Qed.

(** Nothing a unit starts with is taken for the end of the previous token. *)
Lemma rds_first rs r : tight r -> tight (pr_rds sp rs ++ r) /\ (rs <> [] -> forall toks, Forall (fun c => c <> c_lt /\ c <> c_gt) toks -> starts_off toks (pr_rds sp rs ++ r)).
Proof.
  intros H. split; [by apply rds_tight|]. intros Hne toks HF. destruct rs as [|[k w] rs]; [done|]. rewrite list.Forall_forall in HF.
  destruct k; cbn; (split_and!; [done|done|]); intros Hc; destruct (HF _ Hc); done.
Qed.

Lemma exec_first rs args r : Forall (fun a => is_wd a.1 /\ wf_rds a.2) args -> stop F_exec r -> starts_off [c_lpar] (pr_rds sp rs ++ pr_args sp args ++ r).
Proof.
  intros Ha Hr. pose proof (args_off args r Ha Hr) as Ho. destruct (decide (rs = [])) as [->|Hne].
  - cbn. eapply starts_off_sub; [exact Ho|]. intros c. rewrite !elem_of_cons, elem_of_nil. tauto.
  - apply rds_first; [by eapply starts_off_tight|done|concrete].
Qed.

Lemma exec_back rs args f s r : wf_unit (UExec rs args) -> drop s buf = pr_unit sp (UExec rs args) ++ r -> stop F_exec r ->
  length (pr_unit sp (UExec rs args) ++ r) < f ->
  exists c, parseexec buf (S f) s = Ok c (s + length (pr_unit sp (UExec rs args))) /\ drop (s + length (pr_unit sp (UExec rs args))) buf = r /\
    text c = mean_unit (UExec rs args).
Proof.
  cbn [wf_unit pr_unit mean_unit]. intros (Hrs & Ha & Hn) H Hr Hf. rewrite <- app_assoc in *.
  assert (starts_off [c_lt; c_gt] (pr_args sp args ++ r)) as Ho.
  { eapply starts_off_sub; [by apply args_off|]. intros c. rewrite !elem_of_cons, elem_of_nil. tauto. }
  destruct (redirs_back rs Hrs f s _ H Ho Hf) as (l & E1 & D1 & X1).
  destruct (args_back args Ha f _ r 0 D1 Hr) as (a & E2 & D2 & X2 & X3); [lia|rewrite !length_app in *; lia|].
  exists (wrap (EXEC a.1) (l ++ a.2)). rewrite length_app, Nat.add_assoc. split_and!; [|done|].
  - cbn [parseexec]. erewrite bind_ok by (eapply peek_off; [concrete|exact H|by apply exec_first]). cbn iota.
    erewrite bind_ok by exact E1. erewrite bind_ok by exact E2. done.
  - rewrite (text_wrap (l ++ a.2) (rs ++ concat args.*2)) by by apply Forall2_app. cbn. by rewrite X2.
Qed.

Definition line_back (l : line) : Prop := wf_line l -> forall f s r, drop s buf = pr_line sp l ++ r -> stop F_line r ->
  4 * length (pr_line sp l ++ r) + 4 <= f ->
  exists c, parseline buf f s = Ok c (s + length (pr_line sp l)) /\ drop (s + length (pr_line sp l)) buf = r /\ text c = mean_line l.
Definition pipe_back (p : pipeline) : Prop := wf_pipe p -> forall f s r, drop s buf = pr_pipe sp p ++ r -> stop F_pipe r ->
  4 * length (pr_pipe sp p ++ r) + 3 <= f ->
  exists c, parsepipe buf f s = Ok c (s + length (pr_pipe sp p)) /\ drop (s + length (pr_pipe sp p)) buf = r /\ text c = mean_pipe p.
Definition unit_back (u : cmd_unit) : Prop := wf_unit u -> forall f s r, drop s buf = pr_unit sp u ++ r -> stop F_exec r ->
  4 * length (pr_unit sp u ++ r) + 2 <= f ->
  exists c, parseexec buf f s = Ok c (s + length (pr_unit sp u)) /\ drop (s + length (pr_unit sp u)) buf = r /\ text c = mean_unit u.

Lemma stop_tight toks r : stop toks r -> Forall (fun c => c <> 0%Z /\ is_space c = false) toks -> tight r.
Proof. destruct r as [|c r]; [done|]. cbn. intros H HF. rewrite list.Forall_forall in HF. by apply HF. Qed.
Lemma tk_length w : 0 < length (tk w).
Proof. unfold token. rewrite length_app. destruct sp; [done|cbn; lia]. Qed.

(** What a line, a pipeline, a unit starts with is not a space. *)
Lemma first_tight : (forall l, wf_line l -> forall r, tight r -> tight (pr_line sp l ++ r)) /\
  (forall p, wf_pipe p -> forall r, tight r -> tight (pr_pipe sp p ++ r)) /\ (forall u, wf_unit u -> forall r, tight r -> tight (pr_unit sp u ++ r)).
Proof.
  assert (forall n r, tight r -> tight (pr_bg sp n ++ r)) as Hbg by (intros [|n] r Hr; done).
  apply grammar_ind.
  - intros p IHp bg Hwf r Hr. cbn [pr_line]. rewrite <- app_assoc. apply IHp; [done|by apply Hbg].
  - intros p IHp bg l IHl Hwf r Hr. cbn [pr_line]. rewrite <- !app_assoc. apply IHp; [apply Hwf|by apply Hbg].
  - intros u IHu Hwf. by apply IHu.
  - intros u IHu p IHp Hwf r Hr. cbn [pr_pipe]. rewrite <- !app_assoc. by apply IHu; [apply Hwf|].
  - intros rs args (H1 & H2 & _) r Hr. cbn [pr_unit]. rewrite <- app_assoc. apply rds_tight. destruct args as [|[w rds] args]; [done|].
    rewrite pr_args_cons, <- app_assoc. apply list.Forall_cons in H2 as [[Hw _] _]. eapply starts_off_tight. by apply word_off.
  - intros l IHl rs Hwf r Hr. done.
Qed.

Lemma block_back l rs f s r : line_back l -> wf_unit (UBlock l rs) -> drop s buf = pr_unit sp (UBlock l rs) ++ r -> stop F_exec r ->
  4 * length (pr_unit sp (UBlock l rs) ++ r) + 1 <= f ->
  exists c, parseblock buf f s = Ok c (s + length (pr_unit sp (UBlock l rs))) /\ drop (s + length (pr_unit sp (UBlock l rs))) buf = r /\
    text c = mean_unit (UBlock l rs).
Proof.
  intros IH [Hl Hrs] H Hr Hf. cbn [pr_unit mean_unit] in *. rewrite <- !app_assoc in *.
  assert (starts_off [c_lt; c_gt] r) as Ho by (eapply stop_off; [exact Hr|concrete]).
  pose proof (rds_tight rs r (starts_off_tight _ _ Ho)) as T3.
  assert (tight (pr_line sp l ++ tk [c_rpar] ++ pr_rds sp rs ++ r)) as T1 by by apply first_tight.
  destruct (get_sym s c_lpar _ ltac:(concrete) H T1) as (t1 & E1 & D1). pose proof (tk_length [c_lpar]) as L1. pose proof (tk_length [c_rpar]) as L2.
  destruct f as [|f]; [lia|]. rewrite !length_app in Hf.
  destruct (IH Hl f _ _ D1) as (c & E2 & D2 & X2); [cbn; concrete|rewrite !length_app; lia|].
  destruct (get_sym _ c_rpar _ ltac:(concrete) D2 T3) as (t2 & E3 & D3).
  destruct (redirs_back rs Hrs f _ r D3 Ho) as (rl & E4 & D4 & X4); [rewrite length_app; lia|].
  exists (wrap c rl). rewrite !length_app, !Nat.add_assoc. split_and!; [|done|].
  - cbn [parseblock]. erewrite bind_ok by (eapply peek_on; [concrete|exact H|concrete]). cbn [negb]. erewrite bind_ok by exact E1.
    erewrite bind_ok by exact E2. erewrite bind_ok by (eapply peek_on; [concrete|exact D2|concrete]). cbn [negb]. erewrite bind_ok by exact E3.
    erewrite bind_ok by exact E4. done.
  - rewrite (text_wrap rl rs X4). by rewrite X2.
Qed.

Lemma grammar_back : (forall l, line_back l) /\ (forall p, pipe_back p) /\ (forall u, unit_back u).
Proof.
  apply grammar_ind.
  - intros p IHp bg Hwf f s r H Hr Hf. destruct f as [|f]; [lia|]. cbn [pr_line mean_line] in *. rewrite <- app_assoc in *. rewrite !length_app in Hf.
    assert (stop F_back r) as Hb by (destruct r; [done|]; cbn in *; unfold F_line, F_back in *; rewrite !elem_of_cons in *; tauto).
    assert (starts_off [c_amp; c_semi] r) as Ho by (eapply stop_off; [exact Hr|concrete]).
    destruct (IHp Hwf f s _ H (bg_stop _ _ Hb)) as (c & E1 & D1 & X1); [rewrite !length_app; lia|].
    destruct (bg_back bg f _ r c D1) as [E2 D2]; [eapply starts_off_sub; [exact Ho|]; intros x; rewrite !elem_of_cons, elem_of_nil; tauto|rewrite length_app; lia|].
    exists (Nat.iter bg BACK c). rewrite length_app, Nat.add_assoc. split_and!; [|done|by rewrite text_back, X1].
    cbn [parseline]. erewrite bind_ok by exact E1. erewrite bind_ok by exact E2.
    erewrite bind_ok by (eapply peek_off; [concrete|exact D2|]; eapply starts_off_sub; [exact Ho|]; intros x; rewrite !elem_of_cons, elem_of_nil; tauto).
    done.
  - intros p IHp bg l IHl [Hp Hl] f s r H Hr Hf. destruct f as [|f]; [lia|]. cbn [pr_line mean_line] in *. rewrite <- !app_assoc in *.
    rewrite !length_app in Hf.
    assert (tight (pr_line sp l ++ r)) as T1 by (apply first_tight; [done|eapply stop_tight; [exact Hr|concrete]]).
    pose proof (tk_length [c_semi]) as L1.
    destruct (IHp Hp f s _ H) as (c & E1 & D1 & X1); [apply bg_stop; cbn; concrete|rewrite !length_app; lia|].
    destruct (bg_back bg f _ _ c D1) as [E2 D2]; [cbn; concrete|rewrite !length_app; lia|].
    destruct (get_sym _ c_semi _ ltac:(concrete) D2 T1) as (t & E3 & D3).
    destruct (IHl Hl f _ r D3 Hr) as (c2 & E4 & D4 & X4); [rewrite length_app; lia|].
    exists (LIST (Nat.iter bg BACK c) c2). rewrite !length_app, !Nat.add_assoc. split_and!; [|done|cbn [text_with]; by rewrite text_back, X1, X4].
    cbn [parseline]. erewrite bind_ok by exact E1. erewrite bind_ok by exact E2.
    erewrite bind_ok by (eapply peek_on; [concrete|exact D2|concrete]). cbn iota. erewrite bind_ok by exact E3. erewrite bind_ok by exact E4. done.
  - intros u IHu Hwf f s r H Hr Hf. destruct f as [|f]; [lia|]. cbn [pr_pipe mean_pipe] in *.
    assert (stop F_exec r) as Hb by (destruct r; [done|]; cbn in *; unfold F_pipe, F_exec in *; rewrite !elem_of_cons in *; tauto).
    destruct (IHu Hwf f s r H Hb) as (c & E1 & D1 & X1); [lia|]. exists c. split_and!; [|done|done]. cbn [parsepipe]. erewrite bind_ok by exact E1.
    erewrite bind_ok by (eapply peek_off; [concrete|exact D1|]; eapply stop_off; [exact Hr|concrete]). done.
  - intros u IHu p IHp [Hu Hp] f s r H Hr Hf. destruct f as [|f]; [lia|]. cbn [pr_pipe mean_pipe] in *. rewrite <- !app_assoc in *.
    rewrite !length_app in Hf.
    assert (tight (pr_pipe sp p ++ r)) as T1 by (apply first_tight; [done|eapply stop_tight; [exact Hr|concrete]]).
    pose proof (tk_length [c_bar]) as L1.
    destruct (IHu Hu f s _ H) as (c & E1 & D1 & X1); [cbn; concrete|rewrite !length_app; lia|].
    destruct (get_sym _ c_bar _ ltac:(concrete) D1 T1) as (t & E3 & D3).
    destruct (IHp Hp f _ r D3 Hr) as (c2 & E4 & D4 & X4); [rewrite length_app; lia|].
    exists (PIPE c c2). rewrite !length_app, !Nat.add_assoc. split_and!; [|done|cbn [text_with]; by rewrite X1, X4].
    cbn [parsepipe]. erewrite bind_ok by exact E1. erewrite bind_ok by (eapply peek_on; [concrete|exact D1|concrete]). cbn iota.
    erewrite bind_ok by exact E3. erewrite bind_ok by exact E4. done.
  - intros rs args Hwf f s r H Hr Hf. destruct f as [|f]; [lia|]. apply exec_back; [done|done|done|lia].
  - intros l IHl rs Hwf f s r H Hr Hf. destruct f as [|f]; [lia|]. cbn [parseexec].
    destruct (block_back l rs f s r IHl Hwf H Hr) as (c & E & D & X); [lia|]. exists c. split_and!; [|done|done].
    erewrite bind_ok by (eapply peek_on; [concrete|exact H|concrete]). done.
Qed.

Lemma parse_back l : wf_line l -> buf = pr_line sp l -> exists c, parse buf 0 = Ok c (length buf) /\ text c = mean_line l.
Proof.
  intros Hwf Hb. destruct (proj1 grammar_back l Hwf (parse_fuel buf) 0 []) as (c & E & D & X).
  - by rewrite app_nil_r.
  - done.
  - unfold parse_fuel. rewrite app_nil_r, <- Hb. lia.
  - exists c. split; [|done]. unfold parse. rewrite <- Hb in E, D. erewrite bind_ok by exact E. cbn [Nat.add] in *.
    erewrite bind_ok by (eapply peek_off; [constructor|exact D|done]). erewrite bind_ok by reflexivity. by rewrite Nat.eqb_refl.
Qed.
End readback.

Lemma nonzero_parts sp : Forall (fun c => is_space c = true) sp ->
  (forall l, wf_line l -> Forall (fun c => c <> 0%Z) (pr_line sp l)) /\
  (forall p, wf_pipe p -> Forall (fun c => c <> 0%Z) (pr_pipe sp p)) /\
  (forall u, wf_unit u -> Forall (fun c => c <> 0%Z) (pr_unit sp u)).
Proof.
  intros Hsp. assert (forall w, Forall (fun c => c <> 0%Z) w -> Forall (fun c => c <> 0%Z) (token sp w)) as Htk.
  { intros w Hw. apply list.Forall_app. split; [done|]. eapply list.Forall_impl; [exact Hsp|]. apply space_nonzero. }
  assert (forall w, is_wd w -> Forall (fun c => c <> 0%Z) (token sp w)) as Hwd.
  { intros w [_ Hw]. apply Htk. eapply list.Forall_impl; [exact Hw|]. by intros c [_ ?]. }
  assert (forall rs, wf_rds rs -> Forall (fun c => c <> 0%Z) (pr_rds sp rs)) as Hrds.
  { induction rs as [|[k w] rs IH]; intros H; [constructor|]. apply list.Forall_cons in H as [Hw H]. rewrite pr_rds_cons.
    rewrite !list.Forall_app. split_and!; [|by apply Hwd|by apply IH]. apply Htk. destruct k; concrete. }
  assert (forall n, Forall (fun c => c <> 0%Z) (pr_bg sp n)) as Hbg.
  { induction n as [|n IH]; [constructor|]. change (pr_bg sp (S n)) with (token sp [c_amp] ++ pr_bg sp n). apply list.Forall_app.
    split; [apply Htk; concrete|done]. }
  apply grammar_ind; cbn [pr_line pr_pipe pr_unit wf_line wf_pipe wf_unit].
  - intros p IHp bg H. apply list.Forall_app. auto.
  - intros p IHp bg l IHl [H1 H2]. rewrite !list.Forall_app. split_and!; auto; apply Htk; concrete.
  - auto.
  - intros u IHu p IHp [H1 H2]. rewrite !list.Forall_app. split_and!; auto; apply Htk; concrete.
  - intros rs args (H1 & H2 & _). apply list.Forall_app. split; [auto|]. clear H1. induction args as [|[w rds] args IH]; [constructor|].
    apply list.Forall_cons in H2 as [[A B] H2]. rewrite pr_args_cons, !list.Forall_app. auto.
  - intros l IHl rs [H1 H2]. rewrite !list.Forall_app. split_and!; auto; apply Htk; concrete.
Qed.

(** C28: a command written in the grammar, with any white space after its tokens,
    is read back: [parsecmd] accepts it and the strings in memory are those of
    the command. *)
Theorem parsecmd_reads_grammar sp l : Forall (fun c => is_space c = true) sp -> sp <> [] -> wf_line l ->
  exists c m' s, parsecmd (pr_line sp l ++ [0%Z]) = Ok (c, m') s /\ text_with (cstring m') c = mean_line l.
Proof.
  intros Hsp Hne Hwf. set (buf := pr_line sp l). pose proof (proj1 (nonzero_parts sp Hsp) l Hwf) as Hnz. fold buf in Hnz.
  assert (until0 (buf ++ [0%Z]) = buf) as Hu by by apply until0_app.
  destruct (parse_back sp buf Hsp Hne l Hwf eq_refl) as (c & E & X). pose proof (parse_ok buf Hnz) as Hok. rewrite E in Hok.
  destruct Hok as (_ & Hw & _).
  exists c, (nulterminate c (buf ++ [0%Z])), (length buf). split; [unfold parsecmd; by rewrite Hu, E|].
  rewrite <- X. apply text_ext. intros t Ht. rewrite word_cstring; [|apply elem_of_app; right; by left|by rewrite Hu|done].
  destruct Hw as [Hw _]. rewrite list.Forall_forall in Hw. destruct (Hw t Ht) as ((A1 & A2) & _). unfold text_of.
  rewrite drop_app_le by lia. rewrite take_app_le; [done|]. rewrite length_drop. lia.
Qed.
(** [( ls ) > f & ; wc < g | cat] *)
Definition sample_line : line :=
  LSeq (POne (UBlock (LOne (POne (UExec [] [([108; 115]%Z, [])])) 0) [(ROut, [102]%Z)])) 1
    (LOne (PBar (UExec [] [([119; 99]%Z, [(RIn, [103]%Z)])]) (POne (UExec [] [([99; 97; 116]%Z, [])]))) 0).
Lemma parsecmd_reads_grammar_witness : exists c m' s, parsecmd (pr_line [32%Z] sample_line ++ [0%Z]) = Ok (c, m') s /\
  text_with (cstring m') c = SList (SBack (SRedir (SExec [[108; 115]%Z]) [102]%Z (Z.lor O_WRONLY O_CREATE) false 1))
    (SPipe (SRedir (SExec [[119; 99]%Z]) [103]%Z O_RDONLY false 0) (SExec [[99; 97; 116]%Z])).
Proof.
  apply (parsecmd_reads_grammar [32%Z] sample_line); [by repeat constructor|done|].
  repeat split; repeat constructor; try done; cbn; unfold MAXARGS; lia.
Defined.

(** ** Wiring *)

(** Where a file is positioned: so many bytes behind its start, or its end. *)
Inductive pos := Start (n : Z) | Back (n : Z).
(** What a descriptor stands for: one the shell was given, an opened file and its
    position, the ends of a pipe. *)
Inductive obj := Given (n : nat) | Path (name : list Z) (mode : Z) (at_ : pos) | PipeRead (n : nat) | PipeWrite (n : nat).
Abbreviation fdt := (list (option obj)).

(** The programs a process and its children execute, each with its descriptors;
    [n] counts pipes.  [opens] says which files can be opened; [fork], [dup] and
    [pipe] succeed while there are descriptors, and no error is pending when
    [rerrstr] asks.  Descriptors are allocated lowest first, as [fdalloc] does. *)
Definition lowest (t : fdt) : option nat := fst <$> list_find (fun o => o = None) t.
Definition put (t : fdt) (o : option obj) : option (nat * fdt) := i ← lowest t; Some (i, <[i := o]> t).
(** The position that [fileseek] gives a file. *)
Definition seek_pos (n dir : Z) (p : pos) : pos :=
  if (dir =? 0)%Z then Start n
  else if (dir =? 1)%Z then match p with Start m => Start (m + n) | Back m => Back (m + n) end
  else if (dir =? 2)%Z then Back n else p.
(** [sys_seek] passes its third argument on as the offset and the direction. *)
Definition seeked (off dir : Z) (o : option obj) : option obj :=
  match o with Some (Path f mode p) => Some (Path f mode (seek_pos dir dir p)) | _ => o end.
Definition runs : Type := list (list Z * list (list Z) * fdt) * nat.

Section kernel.
Context (opens : list Z -> Z -> bool).
Fixpoint execs (p : proc) (t : fdt) (n : nat) : runs :=
  match p with
  | Exit => ([], n)
  | Close fd k => execs k (<[fd := None]> t) n
  | Dup fd k => match put t (default None (t !! fd)) with Some (_, t') => execs k t' n | None => execs k t n end
  | Open path mode k =>
    if opens path mode then match put t (Some (Path path mode (Start 0))) with Some (i, t') => execs (k (Z.of_nat i)) t' n | None => execs (k (-1)%Z) t n end
    else execs (k (-1)%Z) t n
  | Seek fd off dir k => execs k (<[fd := seeked off dir (default None (t !! fd))]> t) n
  | Rerrstr k => execs (k 0%Z) t n
  | Exec path argv _ => ([(path, argv, t)], n)
  | Fork child parent => let '(a, n1) := execs child t n in let '(b, n2) := execs (parent 1%Z) t n1 in (a ++ b, n2)
  | Wait k => execs k t n
  | Pipe k =>
    match put t (Some (PipeRead n)) with
    | Some (i, t1) => match put t1 (Some (PipeWrite n)) with Some (j, t2) => execs (k (Some (i, j))) t2 (S n) | None => execs (k None) t n end
    | None => execs (k None) t n
    end
  | Message _ k => execs k t n
  end.

(** What a command runs: a redirection changes one descriptor, or ends its side
    of the command when the file cannot be opened; with [>>] the file is two bytes
    behind its end.  A pipe changes the output of its left side and the input of
    its right side, and nothing else. *)
Fixpoint wiring (c : scmd) (t : fdt) (n : nat) : runs :=
  match c with
  | SExec [] => ([], n)
  | SExec ((a :: _) as argv) => ([(addpath a, argv, t)], n)
  | SRedir c f mode ap fd => if opens f mode then wiring c (<[fd := Some (Path f mode (if ap : bool then Back 2 else Start 0))]> t) n else ([], n)
  | SPipe l r =>
    let '(a, n1) := wiring l (<[1 := Some (PipeWrite n)]> t) (S n) in
    let '(b, n2) := wiring r (<[0 := Some (PipeRead n)]> t) n1 in (a ++ b, n2)
  | SList l r => let '(a, n1) := wiring l t n in let '(b, n2) := wiring r t n1 in (a ++ b, n2)
  | SBack c => wiring c t n
  end.
End kernel.

(** Standard input and output are open and two descriptors are free. *)
Record ready (t : fdt) : Prop := {
  rdy_0 : exists x, t !! 0 = Some (Some x);
  rdy_1 : exists x, t !! 1 = Some (Some x);
  rdy_free : exists i j, 1 < i < j /\ lowest t = Some i /\ t !! j = Some None /\ forall k, i < k < j -> exists x, t !! k = Some (Some x);
}.

Lemma lowest_spec t i : lowest t = Some i <-> t !! i = Some None /\ forall k, k < i -> exists x, t !! k = Some (Some x).
Proof.
  unfold lowest. split.
  - intros H. destruct (list_find _ t) as [[i' o]|] eqn:E; [|done]. injection H as <-. apply list_find_Some in E as (H1 & -> & H2). split; [done|].
    intros k Hk. destruct (lookup_lt_is_Some_2 t k) as [[x|] Hx]; [apply lookup_lt_Some in H1; lia|by exists x|]. by destruct (H2 _ _ Hx Hk).
  - intros [H1 H2]. assert (list_find (fun o : option obj => o = None) t = Some (i, None)) as ->; [|done]. apply list_find_Some.
    split_and!; [done|done|].
    intros k y Hy Hk ->. destruct (H2 k Hk) as [x Hx]. congruence.
Qed.
Lemma ready_set t fd o : fd <= 1 -> ready t -> ready (<[fd := Some o]> t).
Proof.
  intros Hfd [[x0 H0] [x1 H1] (i & j & Hij & Hl & Hj & Hk)]. assert (fd < length t) as Hlen by (apply lookup_lt_Some in H1; lia).
  assert (forall k, (exists x, t !! k = Some (Some x)) -> exists x, <[fd := Some o]> t !! k = Some (Some x)) as Hkeep.
  { intros k [x Hx]. destruct (decide (k = fd)) as [->|Hne]; [rewrite list_lookup_insert_eq by done; eauto|rewrite list_lookup_insert_ne by done; eauto]. }
  split; [apply Hkeep; eauto|apply Hkeep; eauto|]. exists i, j. apply lowest_spec in Hl as [Hi Hlow]. split_and!; [lia|lia| | |auto].
  - apply lowest_spec. rewrite list_lookup_insert_ne by lia. auto.
  - by rewrite list_lookup_insert_ne by lia.
Qed.

(** [close(fd)] followed by an allocation reuses [fd]. *)
Lemma put_closed t fd o x0 x1 : t !! 0 = Some (Some x0) -> t !! 1 = Some (Some x1) -> fd <= 1 -> put (<[fd := None]> t) o = Some (fd, <[fd := o]> t).
Proof.
  intros H0 H1 Hfd. assert (fd < length t) as Hlen by (apply lookup_lt_Some in H1; lia). unfold put.
  assert (lowest (<[fd := None]> t) = Some fd) as ->; [|cbn; by rewrite list_insert_insert_eq].
  apply lowest_spec. rewrite list_lookup_insert_eq by done. split; [done|]. intros k Hk. rewrite list_lookup_insert_ne by lia.
  destruct fd as [|[|]]; [lia| |lia]. assert (k = 0) as -> by lia. eauto.
Qed.

(** Closing the two ends of the pipe leaves the one that was moved to [fd]. *)
Lemma pipe_restored (t : fdt) i j fd o x y : t !! i = Some None -> t !! j = Some None -> fd <= 1 -> 1 < i < j ->
  <[j := None]> (<[i := None]> (<[fd := o]> (<[j := x]> (<[i := y]> t)))) = <[fd := o]> t.
Proof.
  intros Hi Hj Hfd Hij. assert (i < length t /\ j < length t) as [Li Lj] by (split; by eapply lookup_lt_Some).
  apply list_eq. intros k.
  destruct (decide (k = j)) as [->|]; [rewrite list_lookup_insert_eq by (rewrite !length_insert; lia); by rewrite list_lookup_insert_ne by lia|].
  rewrite (list_lookup_insert_ne _ j) by done.
  destruct (decide (k = i)) as [->|]; [rewrite list_lookup_insert_eq by (rewrite !length_insert; lia); by rewrite list_lookup_insert_ne by lia|].
  rewrite (list_lookup_insert_ne _ i) by done.
  destruct (decide (k = fd)) as [->|]; [by rewrite !list_lookup_insert_eq by (rewrite ?length_insert; lia)|].
  by rewrite !list_lookup_insert_ne by done.
Qed.

Section wired.
Context (opens : list Z -> Z -> bool).
Abbreviation execs := (execs opens).
Abbreviation wiring := (wiring opens).
(** The two calls a side of a pipe makes to move its end to [fd]. *)
Lemma side_wired t i j fd o p n e : ready t -> 1 < i < j -> t !! i = Some None -> t !! j = Some None -> fd <= 1 ->
  let t2 := <[j := Some (PipeWrite n)]> (<[i := Some (PipeRead n)]> t) in e = i \/ e = j -> t2 !! e = Some (Some o) ->
  forall n', execs (Close fd (Dup e (Close i (Close j p)))) t2 n' = execs p (<[fd := Some o]> t) n'.
Proof.
  intros [[x0 H0] [x1 H1] _] Hij Hi Hj Hfd t2 He Ho n'. cbn [execs]. assert (t2 !! 0 = Some (Some x0) /\ t2 !! 1 = Some (Some x1)) as [H20 H21].
  { unfold t2. rewrite !list_lookup_insert_ne by lia. done. }
  rewrite list_lookup_insert_ne by lia. rewrite Ho. change (default None (Some (Some o))) with (Some o).
  rewrite (put_closed t2 fd (Some o) x0 x1 H20 H21 Hfd).
  unfold t2. by rewrite pipe_restored.
Qed.

Lemma execs_fork1 child parent t n : execs (fork1 child parent) t n =
  let '(a, n1) := execs child t n in let '(b, n2) := execs parent t n1 in (a ++ b, n2).
Proof. done. Qed.

Lemma runcmd_wired m c : forall t n, std_fds c -> ready t -> execs (runcmd m c) t n = wiring (text_with (cstring m) c) t n.
Proof.
  induction c as [argv|c IH f mode ap fd|l IHl r IHr|l IHl r IHr|c IH]; intros t n Hs Hr; cbn [runcmd text_with wiring std_fds] in *.
  - by destruct argv as [|a argv].
  - destruct Hs as [Hfd Hs]. pose proof Hr as [[x0 H0] [x1 H1] _]. cbn [execs]. destruct (opens _ mode); [|done].
    rewrite (put_closed t fd _ x0 x1 H0 H1 Hfd).
    rewrite (proj2 (Z.ltb_ge (Z.of_nat fd) 0)) by lia. assert (fd < length t) as Hlen by (apply lookup_lt_Some in H1; lia).
    destruct ap; cbn [execs Z.eqb negb]; [|by apply IH; [|apply ready_set]]. rewrite list_lookup_insert_eq by done. cbn [from_option id seeked].
    change (seek_pos 2 2 (Start 0)) with (Back 2). rewrite list_insert_insert_eq. by apply IH; [|apply ready_set].
  - destruct Hs as [Hsl Hsr]. pose proof Hr as [[x0 H0] [x1 H1] (i & j & Hij & Hl & Hj & Hk)]. cbn [execs]. unfold put at 1. rewrite Hl.
    cbn [mbind option_bind].
    apply lowest_spec in Hl as [Hi Hlow]. assert (i < length t /\ j < length t) as [Li Lj] by (split; by eapply lookup_lt_Some).
    assert (lowest (<[i := Some (PipeRead n)]> t) = Some j) as Hl2.
    { apply lowest_spec. rewrite list_lookup_insert_ne by lia. split; [done|]. intros k Hkj.
      destruct (decide (k = i)) as [->|]; [rewrite list_lookup_insert_eq by done; eauto|].
      rewrite list_lookup_insert_ne by done. destruct (decide (k < i)); [by apply Hlow|]. apply Hk. lia. }
    unfold put. rewrite Hl2. cbn [mbind option_bind]. rewrite execs_fork1.
    rewrite (side_wired t i j 1 (PipeWrite n)); [|done|lia|done|done|lia|by right|by rewrite list_lookup_insert_eq by (rewrite length_insert; lia)].
    rewrite IHl by first [done | apply ready_set; [lia|done]]. destruct (wiring _ _ (S n)) as [a n1]. rewrite execs_fork1.
    rewrite (side_wired t i j 0 (PipeRead n)); [|done|lia|done|done|lia|by left|rewrite list_lookup_insert_ne by lia; by rewrite list_lookup_insert_eq by lia].
    rewrite IHr by first [done | apply ready_set; [lia|done]]. destruct (wiring _ _ n1) as [b n2]. cbn. by rewrite app_nil_r.
  - destruct Hs as [Hsl Hsr]. rewrite execs_fork1, IHl by done. destruct (wiring _ t n) as [a n1]. cbn [execs]. by rewrite IHr.
  - rewrite execs_fork1, IH by done. destruct (wiring _ t n) as [a n1]. cbn. by rewrite app_nil_r.
Qed.

(** C29: what the system calls of a command amount to.  For whatever files can be
    opened, when [fork] and [pipe] succeed, no error is pending and the shell has
    its standard input and output and two free descriptors, the shell runs exactly
    the programs of the command it parsed, each with the right descriptors: a
    redirection replaces one descriptor, or ends its side of the command when the
    file cannot be opened; a pipe joins the output of the left to the input of the
    right; no other descriptor is changed or left open.  A file of [>>] is
    positioned two bytes behind its end, because [sys_seek] takes the offset from
    the direction. *)
Theorem shell_wires_commands m t n : 0%Z ∈ m -> ready t ->
  match parsecmd m with
  | Ok (c, m') _ => execs (runcmd m' c) t n = wiring (text_with (cstring m') c) t n
  | _ => True
  end.
Proof.
  intros H0 Ht. unfold parsecmd. pose proof (parse_ok (until0 m) (until0_nonzero m)) as H. unfold ends in H.
  destruct (parse (until0 m) 0) as [c s|e s|s|s]; try done. destruct H as (_ & [_ Hs] & _). by apply runcmd_wired.
Qed.
End wired.
(** The shell's own descriptors, and thirteen free ones. *)
Definition sample_fds : fdt := [Some (Given 0); Some (Given 1); Some (Given 2)] ++ replicate 13 None.
(** [ls -l|wc>>f;ls<g], where [g] cannot be opened. *)
Lemma shell_wires_commands_witness :
  let m := [108; 115; 32; 45; 108; 124; 119; 99; 62; 62; 102; 59; 108; 115; 60; 103; 0]%Z in
  0%Z ∈ m /\ ready sample_fds /\
  match parsecmd m with
  | Ok (c, m') _ => fst (execs (fun f _ => negb (streq f [103]%Z)) (runcmd m' c) sample_fds 7) =
      [(PATH ++ [108; 115]%Z, [[108; 115]%Z; [45; 108]%Z], <[1 := Some (PipeWrite 7)]> sample_fds);
       (PATH ++ [119; 99]%Z, [[119; 99]%Z], <[1 := Some (Path [102]%Z O_WRONLY (Back 2))]> (<[0 := Some (PipeRead 7)]> sample_fds))]
  | _ => False
  end.
Proof.
  intros m. assert (0%Z ∈ m) as H by concrete.
  assert (ready sample_fds) as Hr by (split; [by eexists|by eexists|exists 3, 4; split_and!; [lia|lia|done|done|intros; lia]]).
  split; [done|]. split; [done|]. pose proof (shell_wires_commands (fun f _ => negb (streq f [103]%Z)) m sample_fds 7 H Hr) as P. revert P.
  destruct (parsecmd m) as [[c m'] s|e s|s|s] eqn:E; vm_compute in E; try done. injection E as <- <- <-. intros P. rewrite P. vm_compute. reflexivity.
Defined.

(** [addpath] asks for one byte less than the string it builds needs. *)
Lemma addpath_overruns c : match c with 46%Z :: _ | 47%Z :: _ => False | _ => True end -> addpath_room c < length (addpath c ++ [0%Z]).
Proof.
  intros H. unfold addpath_room. assert (addpath c = PATH ++ c) as ->; [|rewrite !length_app; cbn; lia].
  unfold addpath. repeat case_match; done.
Qed.
