(* ===== verification/Grep.v ===== *)
(** [grep.c]: the pattern matcher and the line loop.

    Patterns and lines are C strings, without their NUL. *)

From S2P Require Import Prelude CString.
Local Open Scope Z_scope.

Definition c_star : Z := 42.
Definition c_dot : Z := 46.
Definition c_caret : Z := 94.
Definition c_dollar : Z := 36.
Definition c_nl : Z := 10.

(** [matchstar(c, re, text)], for the matcher [here] of [re]: the loop runs down
    the text. *)
Fixpoint matchstar_loop (here : list Z -> bool) (c : Z) (text : list Z) : bool :=
  here text ||
  match text with
  | [] => false
  | t :: text' => if (t =? c) || (c =? c_dot) then matchstar_loop here c text' else false
  end.

Fixpoint matchhere (re text : list Z) : bool :=
  match re with
  | [] => true
  | r :: re1 =>
    let rest :=
      if (r =? c_dollar) && match re1 with [] => true | _ => false end
      then match text with [] => true | _ => false end
      else match text with
           | t :: text' => if (r =? c_dot) || (r =? t) then matchhere re1 text' else false
           | [] => false
           end in
    match re1 with
    | r2 :: re2 => if r2 =? c_star then matchstar_loop (matchhere re2) r text else rest
    | [] => rest
    end
  end.

(** The [do ... while] over the suffixes of the text. *)
Fixpoint match_loop (re text : list Z) : bool :=
  matchhere re text || match text with [] => false | _ :: text' => match_loop re text' end.
Definition match_ (re text : list Z) : bool :=
  match re with
  | r :: re' => if r =? c_caret then matchhere re' text else match_loop re text
  | [] => match_loop re text
  end.

(** ** The line loop *)

(** The lines of the buffer: those that match are written, with their newline;
    what is left after the last newline is kept. *)
Fixpoint grep_lines (pattern line buf : list Z) : list Z * list Z :=
  match buf with
  | [] => ([], line)
  | c :: buf' =>
    if c =? c_nl then
      let '(out, rest) := grep_lines pattern [] buf' in
      ((if match_ pattern line then line ++ [c_nl] else []) ++ out, rest)
    else grep_lines pattern (line ++ [c]) buf'
  end.

Definition BUFSZ : nat := 1024.
(** One [read] returned [data]; [m] is what the buffer held.  When the buffer has
    no newline its contents are dropped. *)
Definition grep_step (pattern m data : list Z) : list Z * list Z :=
  let buf := until0 (m ++ data) in
  let '(out, rest) := grep_lines pattern [] buf in
  if existsb (Z.eqb c_nl) buf then (out, drop (length buf - length rest) (m ++ data)) else ([], []).
(** The successive results of [read(fd, buf+m, sizeof(buf)-m-1)]. *)
Fixpoint grep (pattern m : list Z) (reads : list (list Z)) : list Z :=
  match reads with
  | [] | [] :: _ => []
  | data :: reads' => let '(out, m') := grep_step pattern m data in out ++ grep pattern m' reads'
  end.

(** ** What a pattern means *)

Inductive item := IChar (c : Z) | IAny | IStar (c : Z).
Definition item_of (r : Z) : item := if r =? c_dot then IAny else IChar r.
(** Body of a pattern: its items, and whether it ends with [$]. *)
Fixpoint body (re : list Z) : list item * bool :=
  match re with
  | [] => ([], false)
  | r :: re1 =>
    match re1 with
    | r2 :: re2 =>
      if r2 =? c_star then let '(its, e) := body re2 in (IStar r :: its, e)
      else let '(its, e) := body re1 in (item_of r :: its, e)
    | [] => if r =? c_dollar then ([], true) else ([item_of r], false)
    end
  end.

(** The texts an item, a list of items stands for. *)
Definition one (c x : Z) : Prop := c = c_dot \/ c = x.
Inductive lang : list item -> list Z -> Prop :=
| lang_nil : lang [] []
| lang_char c its t : lang its t -> lang (IChar c :: its) (c :: t)
| lang_any x its t : lang its t -> lang (IAny :: its) (x :: t)
| lang_stop c its t : lang its t -> lang (IStar c :: its) t
| lang_more c x its t : one c x -> lang (IStar c :: its) t -> lang (IStar c :: its) (x :: t).

(** [pattern] occurs in [text]: anchored at the start by [^], at the end by [$]. *)
Definition occurs (pattern text : list Z) : Prop :=
  let '(anchored, re) := match pattern with r :: re' => if r =? c_caret then (true, re') else (false, pattern) | [] => (false, pattern) end in
  exists pre mid post, text = pre ++ mid ++ post /\ lang (body re).1 mid /\
    (anchored = true -> pre = []) /\ ((body re).2 = true -> post = []).

Definition here_spec (re text : list Z) : Prop :=
  exists mid post, text = mid ++ post /\ lang (body re).1 mid /\ ((body re).2 = true -> post = []).

Lemma matchstar_spec (P : list Z -> Prop) here c text : (forall t, here t = true <-> P t) ->
  matchstar_loop here c text = true <-> exists a b, text = a ++ b /\ Forall (one c) a /\ P b.
Proof.
  intros H. assert (forall x, ((x =? c) || (c =? c_dot)) = true <-> one c x) as Hone.
  { intros x. unfold one. rewrite orb_true_iff, !Z.eqb_eq. split; intros [|]; auto. }
  induction text as [|x text IH]; cbn [matchstar_loop]; rewrite orb_true_iff, H.
  - split; [intros [Hp|]; [by exists [], []|done]|]. intros (a & b & E & _ & Hp). symmetry in E. apply app_nil in E as [-> ->]. by left.
  - split.
    + intros [Hp|Hr]; [by exists [], (x :: text)|]. destruct ((x =? c) || (c =? c_dot)) eqn:E; [|done]. apply Hone in E.
      apply IH in Hr as (a & b & -> & Ha & Hp). exists (x :: a), b. split; [done|]. split; [by constructor|done].
    + intros (a & b & E & Ha & Hp). destruct a as [|y a]; [left; by rewrite E|right]. injection E as -> ->.
      apply list.Forall_cons in Ha as [Hy Ha]. apply Hone in Hy. rewrite Hy. apply IH. eauto.
Qed.

Lemma lang_star c its t : lang (IStar c :: its) t <-> exists a b, t = a ++ b /\ Forall (one c) a /\ lang its b.
Proof.
  split.
  - intros H. remember (IStar c :: its) as l eqn:E. induction H as [|c' its' t H0 _|x its' t H0 _|c' its' t H0 _|c' x its' t Hx H0 IH]; try discriminate.
    + injection E as -> ->. exists [], t. by split.
    + injection E as -> ->. destruct (IH eq_refl) as (a & b & -> & Ha & Hb). exists (x :: a), b. split; [done|]. split; [by constructor|done].
  - intros (a & b & -> & Ha & Hb). induction Ha as [|x a Hx Ha IH]; [by constructor|]. by constructor.
Qed.
Lemma lang_item r its t : lang (item_of r :: its) t <-> exists x t', t = x :: t' /\ one r x /\ lang its t'.
Proof.
  unfold item_of, one. destruct (Z.eqb_spec r c_dot) as [->|Hr]; split.
  - inversion 1; subst. eauto 10.
  - intros (x & t' & -> & _ & H). by constructor.
  - inversion 1; subst. eauto 10.
  - intros (x & t' & -> & [Hd|<-] & Hl); [done|]. by constructor.
Qed.

Lemma here_star r re2 text (b : list Z -> bool) : (forall t, b t = true <-> here_spec re2 t) ->
  matchstar_loop b r text = true <-> here_spec (r :: c_star :: re2) text.
Proof.
  intros H. rewrite (matchstar_spec (here_spec re2)) by done. unfold here_spec. cbn [body]. change (c_star =? c_star) with true. cbn iota.
  destruct (body re2) as [its e]. cbn [fst snd]. split.
  - intros (a & b' & -> & Ha & mid & post & -> & Hm & He). exists (a ++ mid), post. split; [by rewrite app_assoc|]. split; [|done]. apply lang_star. eauto.
  - intros (mid & post & -> & Hm & He). apply lang_star in Hm as (a & b' & -> & Ha & Hb). exists a, (b' ++ post). split; [by rewrite app_assoc|]. eauto 10.
Qed.
(** A pattern that starts with one character. *)
Lemma here_one r re1 text its e : body (r :: re1) = (item_of r :: its, e) -> body re1 = (its, e) ->
  here_spec (r :: re1) text <-> exists x text', text = x :: text' /\ one r x /\ here_spec re1 text'.
Proof.
  intros E1 E2. unfold here_spec. rewrite E1, E2. cbn [fst snd]. split.
  - intros (mid & post & -> & Hm & He). apply lang_item in Hm as (x & t' & -> & Hx & Ht). exists x, (t' ++ post). eauto 10.
  - intros (x & text' & -> & Hx & mid & post & -> & Hm & He). exists (x :: mid), post. split; [done|]. split; [|done]. apply lang_item. eauto 10.
Qed.
Lemma step_one r re1 text : (forall t, matchhere re1 t = true <-> here_spec re1 t) ->
  match text with t :: text' => if (r =? c_dot) || (r =? t) then matchhere re1 text' else false | [] => false end = true <->
  exists x text', text = x :: text' /\ one r x /\ here_spec re1 text'.
Proof.
  intros H. unfold one. destruct text as [|t text]; [split; [done|]; by intros (x & t' & ? & _)|].
  destruct ((r =? c_dot) || (r =? t)) eqn:E.
  - rewrite H. apply orb_true_iff in E. rewrite !Z.eqb_eq in E. split; [by eauto 10|]. by intros (x & t' & [= -> ->] & _ & ?).
  - split; [done|]. intros (x & t' & [= <- <-] & Hx & _). apply orb_false_iff in E as [E1 E2]. apply Z.eqb_neq in E1, E2. tauto.
Qed.

Lemma matchhere_spec re : forall text, matchhere re text = true <-> here_spec re text.
Proof.
  remember (length re) as n eqn:En. revert re En. induction n as [n IH] using lt_wf_ind. intros re -> text.
  destruct re as [|r re1]. { split; [|done]. intros _. exists [], text. split_and!; [done|constructor|done]. }
  assert (forall t, matchhere re1 t = true <-> here_spec re1 t) as IH1 by (apply (IH (length re1)); cbn; [lia|done]).
  destruct re1 as [|r2 re2].
  - cbn [matchhere]. destruct (Z.eqb_spec r c_dollar) as [->|Hr]; cbn [andb].
    + unfold here_spec. cbn. destruct text as [|t text]; (split; [|]).
      * intros _. exists [], []. split_and!; [done|constructor|done].
      * done.
      * done.
      * intros (mid & post & E & Hm & He). inversion Hm; subst. by rewrite (He eq_refl) in E.
    + rewrite (here_one r [] text [] false); [|cbn; by rewrite (proj2 (Z.eqb_neq r c_dollar) Hr)|done]. by apply (step_one r []).
  - assert (forall t, matchhere re2 t = true <-> here_spec re2 t) as IH2 by (apply (IH (length re2)); cbn; [lia|done]).
    change (matchhere (r :: r2 :: re2) text) with
      (if r2 =? c_star then matchstar_loop (matchhere re2) r text
       else if (r =? c_dollar) && false then match text with [] => true | _ => false end
       else match text with t :: text' => if (r =? c_dot) || (r =? t) then matchhere (r2 :: re2) text' else false | [] => false end).
    destruct (Z.eqb_spec r2 c_star) as [->|Hs]; [by apply here_star|]. rewrite andb_false_r.
    destruct (body (r2 :: re2)) as [its e] eqn:Eb. rewrite (here_one r (r2 :: re2) text its e); [by apply (step_one r (r2 :: re2))| |done].
    change (body (r :: r2 :: re2)) with (if r2 =? c_star then let '(its, e) := body re2 in (IStar r :: its, e) else let '(its, e) := body (r2 :: re2) in (item_of r :: its, e)).
    by rewrite (proj2 (Z.eqb_neq r2 c_star) Hs), Eb.
Qed.

Lemma match_loop_spec re text : match_loop re text = true <-> exists pre rest, text = pre ++ rest /\ here_spec re rest.
Proof.
  induction text as [|t text IH]; cbn [match_loop]; rewrite orb_true_iff, matchhere_spec.
  - split; [intros [H|]; [by exists [], []|done]|]. intros (pre & rest & E & H). symmetry in E. apply app_nil in E as [-> ->]. by left.
  - rewrite IH. split.
    + intros [H|(pre & rest & -> & H)]; [by exists [], (t :: text)|by exists (t :: pre), rest].
    + intros ([|x pre] & rest & E & H); [left; by rewrite E|right]. injection E as -> ->. eauto.
Qed.

(** C30: the matcher decides the language of the pattern: literal characters,
    [.], [*], and the anchors [^] and [$]. *)
Theorem match_decides pattern text : match_ pattern text = true <-> occurs pattern text.
Proof.
  unfold match_, occurs. assert (forall re, match_loop re text = true <-> exists pre mid post, text = pre ++ mid ++ post /\ lang (body re).1 mid /\
    (false = true -> pre = []) /\ ((body re).2 = true -> post = [])) as Hl.
  { intros re. rewrite match_loop_spec. unfold here_spec. split.
    - intros (pre & rest & -> & mid & post & -> & H1 & H2). by exists pre, mid, post.
    - intros (pre & mid & post & -> & H1 & _ & H2). exists pre, (mid ++ post). eauto 10. }
  destruct pattern as [|r re]; [apply Hl|]. destruct (r =? c_caret); [|apply Hl]. rewrite matchhere_spec. unfold here_spec. split.
  - intros (mid & post & -> & H1 & H2). by exists [], mid, post.
  - intros (pre & mid & post & -> & H1 & Hp & H2). rewrite (Hp eq_refl). by exists mid, post.
Qed.

(** ** Lines *)

(** The lines of the input that the pattern occurs in. *)
Fixpoint lines_of (line data : list Z) : list (list Z) * list Z :=
  match data with
  | [] => ([], line)
  | c :: data' => if c =? c_nl then let '(ls, r) := lines_of [] data' in (line :: ls, r) else lines_of (line ++ [c]) data'
  end.
Definition matching (pattern : list Z) (ls : list (list Z)) : list Z := concat ((fun l => l ++ [c_nl]) <$> filter (fun l => match_ pattern l = true) ls).

Lemma grep_lines_spec pattern data : forall line,
  grep_lines pattern line data = (matching pattern (lines_of line data).1, (lines_of line data).2).
Proof.
  induction data as [|c data IH]; intros line; cbn [grep_lines lines_of]; [done|]. destruct (c =? c_nl); [|apply IH].
  rewrite IH. destruct (lines_of [] data) as [ls r]. cbn [fst snd]. unfold matching. f_equal. cbn [filter list_filter].
  destruct (match_ pattern line) eqn:E.
  - by rewrite decide_True by done.
  - by rewrite decide_False by done.
Qed.
Lemma lines_of_no_nl data : forall line, existsb (Z.eqb c_nl) data = false -> lines_of line data = ([], line ++ data).
Proof.
  induction data as [|c data IH]; intros line H; cbn [existsb lines_of] in *; [by rewrite app_nil_r|]. apply orb_false_iff in H as [H1 H2].
  rewrite Z.eqb_sym, H1, IH by done. by rewrite <- app_assoc.
Qed.
Lemma lines_of_app d1 d2 : forall line, lines_of line (d1 ++ d2) =
  let '(l1, r1) := lines_of line d1 in let '(l2, r2) := lines_of r1 d2 in (l1 ++ l2, r2).
Proof.
  induction d1 as [|c d1 IH]; intros line; cbn [app lines_of]; [by destruct (lines_of line d2)|]. destruct (c =? c_nl); [|apply IH].
  rewrite IH. destruct (lines_of [] d1) as [l1 r1]. by destruct (lines_of r1 d2) as [l2 r2].
Qed.

Lemma lines_of_rest data : forall line, exists pre, line ++ data = pre ++ (lines_of line data).2.
Proof.
  induction data as [|c data IH]; intros line; cbn [lines_of]; [exists []; by rewrite app_nil_r|]. destruct (Z.eqb_spec c c_nl) as [->|Hc].
  - destruct (IH []) as [pre Hp]. destruct (lines_of [] data) as [ls r]. cbn [snd app] in *. exists (line ++ c_nl :: pre). rewrite Hp. by rewrite <- app_assoc.
  - destruct (IH (line ++ [c])) as [pre Hp]. exists pre. by rewrite <- Hp, <- app_assoc.
Qed.
Lemma until0_id l : Forall (fun c => c <> 0) l -> until0 l = l.
Proof. induction 1 as [|c l Hc H IH]; [done|]. cbn. rewrite (proj2 (Z.eqb_neq c 0) Hc). by rewrite IH. Qed.

Lemma lines_rest_no_nl data : forall line ls r, existsb (Z.eqb c_nl) line = false -> lines_of line data = (ls, r) -> existsb (Z.eqb c_nl) r = false.
Proof.
  induction data as [|c data IH]; intros line ls r Hl; cbn [lines_of]; [by intros [= _ <-]|]. destruct (Z.eqb_spec c c_nl) as [->|Hc].
  - destruct (lines_of [] data) as [ls' r'] eqn:E. intros [= _ <-]. by apply (IH [] ls' r').
  - intros E. eapply IH; [|exact E]. rewrite existsb_app, Hl. cbn [existsb orb]. rewrite (proj2 (Z.eqb_neq c_nl c)) by congruence. done.
Qed.

Lemma grep_run pattern reads : forall m, Forall (fun c => c <> 0) m -> existsb (Z.eqb c_nl) m = false ->
  Forall (fun d => Forall (fun c => c <> 0) d /\ c_nl ∈ d) reads -> grep pattern m reads = matching pattern (lines_of [] (m ++ concat reads)).1.
Proof.
  induction reads as [|d reads IH]; intros m Hm Hnm H.
  { cbn. by rewrite app_nil_r, lines_of_no_nl. }
  apply list.Forall_cons in H as [[Hd Hn] H]. assert (Forall (fun c => c <> 0) (m ++ d)) as Hmd by by apply list.Forall_app.
  assert (grep pattern m (d :: reads) = let '(out, m') := grep_step pattern m d in out ++ grep pattern m' reads) as ->
    by (destruct d; [by apply elem_of_nil in Hn|done]).
  unfold grep_step. rewrite (until0_id _ Hmd), grep_lines_spec.
  assert (existsb (Z.eqb c_nl) (m ++ d) = true) as ->. { apply existsb_exists. exists c_nl. split; [apply list_elem_of_In, elem_of_app; by right|done]. }
  destruct (lines_of_rest (m ++ d) []) as [pre Hp]. cbn [app] in Hp. cbn [concat]. rewrite (app_assoc m), (lines_of_app (m ++ d)).
  destruct (lines_of [] (m ++ d)) as [ls r] eqn:El. cbn [fst snd] in *.
  assert (drop (length (m ++ d) - length r) (m ++ d) = r) as Er.
  { rewrite Hp, length_app. replace (length pre + length r - length r)%nat with (length pre) by lia. apply drop_app_length. }
  rewrite Er. assert (existsb (Z.eqb c_nl) r = false) as Hnr by (eapply lines_rest_no_nl; [|exact El]; done).
  rewrite IH; [|by rewrite Hp in Hmd; apply list.Forall_app in Hmd as [_ ?]|done|done].
  rewrite (lines_of_app r), (lines_of_no_nl r [] Hnr). cbn [app]. destruct (lines_of r (concat reads)) as [l2 r2]. cbn [fst snd app]. unfold matching.
  by rewrite list.filter_app, fmap_app, concat_app.
Qed.

(** When every read delivers at least the end of a line, [grep] writes
    exactly the complete lines of its input that the pattern occurs in, in order. *)
Theorem grep_prints_matches pattern reads : Forall (fun d => Forall (fun c => c <> 0) d /\ c_nl ∈ d) reads ->
  grep pattern [] reads = matching pattern (lines_of [] (concat reads)).1.
Proof. intros H. by apply grep_run. Qed.
(** [^a.*c] on [abc], [xabc], [ac] *)
Lemma grep_prints_matches_witness :
  let reads := [[97; 98; 99; 10; 120; 97]; [98; 99; 10; 97; 99; 10]] in
  grep [94; 97; 46; 42; 99] [] reads = matching [94; 97; 46; 42; 99] (lines_of [] (concat reads)).1 /\
  grep [94; 97; 46; 42; 99] [] reads = [97; 98; 99; 10; 97; 99; 10].
Proof.
  split; [|vm_compute; reflexivity]. apply (grep_prints_matches [94; 97; 46; 42; 99]). repeat constructor; try done; apply (bool_decide_unpack _); vm_compute; exact I.
Defined.

(** A line that comes in two reads, the first without a newline, is lost. *)
Lemma grep_loses_split_line : grep [97] [] [[97; 98]; [99; 10]] = [] /\ grep [97] [] [[97; 98; 99; 10]] = [97; 98; 99; 10].
Proof. by vm_compute. Qed.
