(* ===== verification/Format.v ===== *)
(** Formatted output: [printint] and the three formatters ([console.c],
    [printf.c], [sprintf.c]) and the field routines ([formatting.c]).

    A formatter is given the words of its argument list; a string argument is
    the string it points at ([None] for the null pointer).  [None] as a result is
    a fault: an argument of the wrong kind, or a store outside a buffer. *)

From S2P Require Import Prelude CString Params.
Local Open Scope Z_scope.

Definition c_pct : Z := 37.
Definition c_minus : Z := 45.

(** ** Numbers *)

Definition digit (upper : bool) (d : Z) : Z := if d <? 10 then 48 + d else if upper then 55 + d else 87 + d.
(** [do buf[i++] = digits[x % base]; while((x /= base) != 0)], and the text
    written backwards from it.  A 32-bit number has at most 32 digits. *)
Fixpoint digits (fuel : nat) (upper : bool) (x base : Z) (acc : list Z) : list Z :=
  match fuel with
  | O => acc
  | S f =>
    let acc := digit upper (x mod base) :: acc in
    if x / base =? 0 then acc else digits f upper (x / base) base acc
  end.
Definition printint (upper : bool) (xx base : Z) (sgn : bool) : list Z :=
  let neg := sgn && (s32 xx <? 0) in
  let x := if neg then u32 (- xx) else u32 xx in
  (if neg then [c_minus] else []) ++ digits 32 upper x base [].

(** The routine of [sprintf.c], which copies the text out, and the kernel's,
    with lower-case digits. *)
Definition swriteint (xx base : Z) (sgn : bool) : list Z := printint true xx base sgn.
Definition kprintint (xx base : Z) (sgn : bool) : list Z := printint false xx base sgn.

(** ** Conversions *)

Inductive arg := Word (x : Z) | Str (s : option (list Z)).
Definition null_text : list Z := [40; 110; 117; 108; 108; 41].   (* (null) *)

(** The argument list and the pending error string. *)
Record fstate := Fstate { ap : list arg; err : option (list Z) }.

Definition conv_int (print : Z -> Z -> bool -> list Z) (base : Z) (sgn : bool) (s : fstate) : option (list Z * fstate) :=
  match ap s with Word x :: ap' => Some (print x base sgn, Fstate ap' (err s)) | _ => None end.
Definition conv_str (s : fstate) : option (list Z * fstate) :=
  match ap s with Str o :: ap' => Some (default null_text o, Fstate ap' (err s)) | _ => None end.
Definition conv_char (s : fstate) : option (list Z * fstate) :=
  match ap s with Word x :: ap' => Some ([u8 x], Fstate ap' (err s)) | _ => None end.
(** [%r]: the error string, which reading clears; at most 255 bytes. *)
Definition conv_err (s : fstate) : option (list Z * fstate) :=
  Some (match err s with Some e => take 255 e | None => [] end, Fstate (ap s) None).

(** What [printf] does with the character after a [%]. *)
Definition printf_conv (c : Z) (s : fstate) : option (list Z * fstate) :=
  if c =? 100 then conv_int (printint true) 10 true s
  else if c =? 117 then conv_int (printint true) 10 false s
  else if (c =? 120) || (c =? 112) then conv_int (printint true) 16 false s
  else if c =? 115 then conv_str s
  else if c =? 114 then conv_err s
  else if c =? 99 then conv_char s
  else if c =? c_pct then Some ([c], s)
  else Some ([c_pct; c], s).
(** [sprintf] has no case for [%%]. *)
Definition sprintf_conv (c : Z) (s : fstate) : option (list Z * fstate) :=
  if c =? 100 then conv_int swriteint 10 true s
  else if c =? 117 then conv_int swriteint 10 false s
  else if (c =? 120) || (c =? 112) then conv_int swriteint 16 false s
  else if c =? 115 then conv_str s
  else if c =? 114 then conv_err s
  else if c =? 99 then conv_char s
  else Some ([c_pct; c], s).
(** [cprintf] of the kernel. *)
Definition cprintf_conv (c : Z) (s : fstate) : option (list Z * fstate) :=
  if c =? 117 then conv_int kprintint 10 false s
  else if c =? 100 then conv_int kprintint 10 true s
  else if (c =? 120) || (c =? 112) then conv_int kprintint 16 false s
  else if c =? 115 then conv_str s
  else if c =? c_pct then Some ([c_pct], s)
  else Some ([c_pct; c], s).

(** ** The formatters *)

(** [pct] is the state of the scanner: the last character was a [%]. *)
Fixpoint printf_loop (fmt : list Z) (pct : bool) (s : fstate) : option (list Z) :=
  match fmt with
  | [] => Some []
  | c :: fmt' =>
    if pct then
      '(out, s') ← printf_conv c s; rest ← printf_loop fmt' false s'; Some (out ++ rest)
    else if c =? c_pct then printf_loop fmt' true s
    else rest ← printf_loop fmt' false s; Some (c :: rest)
  end.
Definition printf (fmt : list Z) (s : fstate) : option (list Z) := printf_loop fmt false s.

(** [cprintf] looks at the character after the [%] itself. *)
Fixpoint cprintf (fmt : list Z) (s : fstate) : option (list Z) :=
  match fmt with
  | [] => Some []
  | c :: fmt1 =>
    if c =? c_pct then
      match fmt1 with
      | [] => Some []
      | c2 :: fmt2 => '(out, s') ← cprintf_conv c2 s; rest ← cprintf fmt2 s'; Some (out ++ rest)
      end
    else rest ← cprintf fmt1 s; Some (c :: rest)
  end.

(** The growing buffer of [sprintf]: the block, the next index, and the size the
    routine believes it has. *)
Record sbuf := Sbuf { obuf : list Z; oi : nat; olen : nat }.
Definition extendstring (s : list Z) (nlen : nat) : list Z :=
  let curlen := S (length (until0 s)) in take curlen s ++ replicate nlen 0.
(** [oputc], which calls itself after it has extended the buffer, once. *)
Definition oputc (c : Z) (b : sbuf) : option sbuf :=
  let put (b : sbuf) :=
    if (oi b <? olen b - 1)%nat then
      if (oi b <? length (obuf b))%nat then Some (Sbuf (<[oi b := c]> (obuf b)) (S (oi b)) (olen b)) else None
    else None in
  if (oi b <? olen b - 1)%nat then put b
  else put (Sbuf (extendstring (obuf b) 32) (oi b) (olen b + 32)).
Fixpoint oputs (cs : list Z) (b : sbuf) : option sbuf :=
  match cs with
  | [] => Some b
  | c :: cs' => b' ← oputc c b; oputs cs' b'
  end.

Fixpoint sprintf_loop (fmt : list Z) (pct : bool) (s : fstate) (b : sbuf) : option sbuf :=
  match fmt with
  | [] => Some b
  | c :: fmt' =>
    if pct then '(out, s') ← sprintf_conv c s; b' ← oputs out b; sprintf_loop fmt' false s' b'
    else if c =? c_pct then sprintf_loop fmt' true s b
    else b' ← oputc c b; sprintf_loop fmt' false s b'
  end.
(** Memory is taken to be available; the result is a copy up to the first NUL. *)
Definition sprintf (fmt : list Z) (s : fstate) : option (list Z) :=
  b ← sprintf_loop fmt false s (Sbuf (replicate 256 0) 0 256); Some (until0 (obuf b)).

(** ** Fields *)

(** The part of a path after its last slash. *)
Fixpoint basename_loop (acc path : list Z) : list Z :=
  match path with
  | [] => acc
  | c :: path' => if c =? 47 then basename_loop path' path' else basename_loop acc path'
  end.
Definition basename (path : list Z) : list Z := basename_loop path path.
(** [fmtnamen]: a name that does not fit is returned as it is. *)
Definition fmtnamen (path : list Z) (buflen : nat) : list Z :=
  let p := basename path in
  if (buflen <=? length p)%nat then p else p ++ replicate (buflen - length p) 32.

Definition flag_char (perms bit c : Z) : Z := if Z.land perms bit =? bit then c else 45.
Definition fmtpermsn (perms : Z) (buflen : nat) : option (list Z) :=
  if (buflen <? 16)%nat then None else
  let text := [85; 58; flag_char perms U_READ 114; flag_char perms U_WRITE 119; flag_char perms U_EXEC 120; flag_char perms U_HIDDEN 104;
               44; 87; 58; flag_char perms W_READ 114; flag_char perms W_WRITE 119; flag_char perms W_EXEC 120; flag_char perms W_HIDDEN 104] in
  Some (text ++ replicate (buflen - length text) 0).

(** Store [cs] at [i...]; outside the buffer is a fault. *)
Fixpoint fill (buf : list Z) (i : nat) (cs : list Z) : option (list Z) :=
  match cs with
  | [] => Some buf
  | c :: cs' => if (i <? length buf)%nat then fill (<[i := c]> buf) (S i) cs' else None
  end.
Definition fmtfieldn (data : list Z) (fieldsize : nat) (filler : Z) (bufsize : nat) : option (list Z) :=
  let datasize := length data in
  let buf := replicate bufsize 0 in
  if (fieldsize <? datasize)%nat then
    let n := if (datasize <? bufsize)%nat then datasize else (bufsize - 1)%nat in
    fill buf 0 (take n data)
  else
    let half := ((fieldsize - datasize) / 2)%nat in
    buf ← fill buf 0 (replicate half filler);
    let copied := Nat.min datasize (bufsize - half) in
    buf ← fill buf half (take copied data);
    fill buf (half + copied) (replicate (fieldsize - (half + copied)) filler).

(** ** Numbers are read back *)

(** The number a text in [base] denotes, with an optional sign. *)
Definition digit_value (c : Z) : Z := if c <? 58 then c - 48 else if c <? 97 then c - 55 else c - 87.
Definition value (base : Z) (s : list Z) : Z := foldl (fun v c => v * base + digit_value c) 0 s.
Definition int_value (base : Z) (s : list Z) : Z :=
  match s with c :: s' => if c =? c_minus then - value base s' else value base s | [] => 0 end.

Lemma digit_value_digit u d : 0 <= d < 16 -> digit_value (digit u d) = d /\ 48 <= digit u d.
Proof.
  intros H. unfold digit_value, digit. destruct (Z.ltb_spec d 10).
  - rewrite (proj2 (Z.ltb_lt (48 + d) 58)) by lia. lia.
  - destruct u; rewrite (proj2 (Z.ltb_ge _ 58)) by lia.
    + rewrite (proj2 (Z.ltb_lt (55 + d) 97)) by lia. lia.
    + rewrite (proj2 (Z.ltb_ge (87 + d) 97)) by lia. lia.
Qed.
Lemma digits_acc f u base : forall x acc, digits f u x base acc = digits f u x base [] ++ acc.
Proof.
  induction f as [|f IH]; intros x acc; [done|]. cbn [digits]. destruct (x / base =? 0); [done|].
  rewrite IH, (IH _ [_]). by rewrite <- app_assoc.
Qed.
Lemma digits_ok f u base : 2 <= base <= 16 -> forall x, 0 <= x < base ^ Z.of_nat f -> (0 < f)%nat ->
  let s := digits f u x base [] in value base s = x /\ Forall (fun c => 48 <= c) s /\ (0 < length s <= f)%nat.
Proof.
  intros Hb. induction f as [|f IH]; intros x Hx Hf; [lia|]. cbn [digits]. rewrite Nat2Z.inj_succ, Z.pow_succ_r in Hx by lia.
  destruct (digit_value_digit u (x mod base)) as [D1 D2]; [pose proof (Z.mod_pos_bound x base); lia|].
  destruct (Z.eqb_spec (x / base) 0) as [E|E].
  - assert (x mod base = x) as Em by (pose proof (Z.div_mod x base); lia). rewrite Em in *. unfold value. cbn.
    split_and!; [lia|by repeat constructor|lia|lia].
  - destruct (IH (x / base)) as (V & P & L).
    + split; [apply Z.div_pos; lia|]. apply Z.div_lt_upper_bound; lia.
    + destruct f; [|lia]. cbn in Hx. destruct E. apply Z.div_small. lia.
    + rewrite digits_acc. cbn zeta in *. unfold value in *. rewrite foldl_app, V, length_app. cbn. rewrite D1.
      split_and!; [pose proof (Z.div_mod x base); lia| |lia|lia].
      apply list.Forall_app. split; [done|by repeat constructor].
Qed.
Lemma digits_short u x base n : base = 10 /\ n = 10%nat \/ base = 16 /\ n = 8%nat -> 0 <= x < 2 ^ 32 -> digits 32 u x base [] = digits n u x base [].
Proof.
  intros Hb Hx. assert (2 <= base <= 16 /\ 2 ^ 32 <= base ^ Z.of_nat n /\ (0 < n)%nat) as (H1 & H2 & H3) by (destruct Hb as [[-> ->]|[-> ->]]; cbn; lia).
  assert (forall k f x, (0 < f)%nat -> 0 <= x < base ^ Z.of_nat f -> digits (f + k) u x base [] = digits f u x base []) as Hk.
  { intros k f. induction f as [|f IH]; intros y Hf Hy; [lia|]. cbn [Nat.add digits]. rewrite Nat2Z.inj_succ, Z.pow_succ_r in Hy by lia.
    destruct (Z.eqb_spec (y / base) 0) as [E|E]; [done|]. rewrite digits_acc, (digits_acc f). f_equal. apply IH.
    - destruct f; [|lia]. cbn in Hy. destruct E. apply Z.div_small. lia.
    - split; [apply Z.div_pos; lia|]. apply Z.div_lt_upper_bound; lia. }
  replace 32%nat with (n + (32 - n))%nat at 1 by (destruct Hb as [[_ ->]|[_ ->]]; lia). apply Hk; [done|lia].
Qed.

Lemma s32_u32 xx : (s32 xx < 0 -> u32 (- xx) = - s32 xx) /\ (0 <= s32 xx -> u32 xx = s32 xx).
Proof. unfold s32, signed, u32. change (32 - 1) with 31. split; intros H; dlia. Qed.

(** The text [printint] writes in base 10 or 16 denotes the number it was
    given, signed or unsigned, and fits its buffer of 16 characters. *)
Theorem printint_reads_back u xx base sgn : base = 10 \/ base = 16 ->
  int_value base (printint u xx base sgn) = (if sgn then s32 xx else u32 xx) /\ (length (printint u xx base sgn) <= 11)%nat.
Proof.
  intros Hb. destruct (s32_u32 xx) as [Hneg Hpos]. unfold printint.
  assert (exists n, (n <= 10)%nat /\ (0 < n)%nat /\ 2 ^ 32 <= base ^ Z.of_nat n /\ forall x, 0 <= x < 2 ^ 32 -> digits 32 u x base [] = digits n u x base []) as (n & Hn & Hn0 & Hp & Hd).
  { destruct Hb as [->| ->]; [exists 10%nat|exists 8%nat]; (split_and!; [lia|lia|cbn; lia|]); intros x Hx; apply digits_short; auto. }
  assert (forall x, 0 <= x < 2 ^ 32 -> value base (digits 32 u x base []) = x /\ Forall (fun c => 48 <= c) (digits 32 u x base []) /\ (0 < length (digits 32 u x base []) <= 10)%nat) as H.
  { intros x Hx. rewrite Hd by done. destruct (digits_ok n u base ltac:(lia) x) as (V & P & L); [lia|done|]. split_and!; [done|done|lia|lia]. }
  destruct (sgn && (s32 xx <? 0)) eqn:E.
  - apply andb_true_iff in E as [-> E]. apply Z.ltb_lt in E. destruct (H (u32 (- xx)) (u32_range _)) as (V & _ & L). cbn [app int_value length].
    rewrite Z.eqb_refl, V. split; [rewrite Hneg by done; lia|lia].
  - destruct (H (u32 xx) (u32_range _)) as (V & P & L). cbn [app]. split; [|lia].
    assert (int_value base (digits 32 u (u32 xx) base []) = u32 xx) as ->.
    { destruct (digits 32 u (u32 xx) base []) as [|c s]; [cbn in L; lia|]. cbn [int_value]. apply list.Forall_cons in P as [Hc _].
      rewrite (proj2 (Z.eqb_neq c c_minus)); [done|unfold c_minus; lia]. }
    destruct sgn; [|done]. apply Z.ltb_ge in E. by apply Hpos.
Qed.
Lemma printint_reads_back_witness : int_value 10 (printint true (2 ^ 31) 10 true) = - 2 ^ 31 /\ printint true (2 ^ 31) 10 true = [45; 50; 49; 52; 55; 52; 56; 51; 54; 52; 56].
Proof. split; [apply (printint_reads_back true (2 ^ 31) 10 true); by left|reflexivity]. Defined.

(** ** [sprintf] writes what [printf] prints *)

Record filled (b : sbuf) (out : list Z) : Prop := {
  fl_buf : obuf b = out ++ replicate (olen b - length out) 0;
  fl_oi : oi b = length out;
  fl_room : (length out < olen b)%nat;
  fl_first : (256 <= olen b)%nat;
}.
(** Text that is safe to put into the buffer: it fits the first 256 bytes, or
    there is no NUL in it for [extendstring] to take for the end. *)
Definition safe (out : list Z) : Prop := (length out <= 255)%nat \/ Forall (fun c => c <> 0) out.
Lemma safe_app out rest : safe (out ++ rest) -> safe out.
Proof. intros [H|H]; [left; rewrite length_app in H; lia|right; by apply list.Forall_app in H as [? _]]. Qed.

Lemma oputc_filled c b out : filled b out -> safe (out ++ [c]) -> exists b', oputc c b = Some b' /\ filled b' (out ++ [c]).
Proof.
  intros [B1 B2 B3 B4] Hs. unfold oputc. cbn [obuf oi olen].
  assert (forall n, (0 < n)%nat -> <[oi b := c]> (out ++ replicate n 0) = (out ++ [c]) ++ replicate (n - 1) 0) as Hput.
  { intros n Hn. rewrite B2. replace (length out) with (length out + 0)%nat by lia. rewrite insert_app_r. destruct n as [|n]; [lia|]. cbn.
    rewrite <- app_assoc. cbn. by rewrite Nat.sub_0_r. }
  destruct (Nat.ltb_spec (oi b) (olen b - 1)) as [Hlt|Hge].
  - rewrite B1, length_app, length_replicate. rewrite (proj2 (Nat.ltb_lt (oi b) (length out + (olen b - length out)))) by lia.
    eexists. split; [reflexivity|]. split; cbn [obuf oi olen]; [|rewrite length_app; cbn; lia|rewrite length_app; cbn; lia|done].
    rewrite Hput by lia. f_equal. f_equal. rewrite length_app. cbn. lia.
  - rewrite (proj2 (Nat.ltb_lt (oi b) (olen b + 32 - 1))) by lia.
    assert (Forall (fun c => c <> 0) out) as Hnz by (destruct Hs as [Hs|Hs]; [rewrite length_app in Hs; cbn in Hs; lia|by apply list.Forall_app in Hs as [? _]]).
    assert (extendstring (obuf b) 32 = out ++ replicate 33 0) as Ee.
    { unfold extendstring. rewrite B1. replace (olen b - length out)%nat with 1%nat by lia. cbn [replicate]. rewrite until0_app by done.
      rewrite take_ge by (rewrite length_app; cbn; lia). rewrite <- app_assoc. done. }
    rewrite Ee, length_app, length_replicate. rewrite (proj2 (Nat.ltb_lt (oi b) (length out + 33))) by lia.
    eexists. split; [reflexivity|]. split; cbn [obuf oi olen]; [|rewrite length_app; cbn; lia|rewrite length_app; cbn; lia|lia].
    rewrite Hput by lia. f_equal. f_equal. rewrite length_app. cbn. lia.
Qed.
Lemma oputs_filled cs : forall b out, filled b out -> safe (out ++ cs) -> exists b', oputs cs b = Some b' /\ filled b' (out ++ cs).
Proof.
  induction cs as [|c cs IH]; intros b out Hb H; [exists b; by rewrite app_nil_r|]. cbn [oputs].
  replace (out ++ c :: cs) with ((out ++ [c]) ++ cs) in * by (by rewrite <- app_assoc).
  destruct (oputc_filled c b out Hb (safe_app _ _ H)) as (b1 & E1 & H1). destruct (IH b1 _ H1 H) as (b2 & E2 & H2). exists b2. by rewrite E1.
Qed.

(** The format with every conversion [%%] written twice, [%%%%]. *)
Fixpoint twice_percent (fmt : list Z) (pct : bool) : list Z :=
  match fmt with
  | [] => []
  | c :: fmt' => if pct then (if c =? c_pct then [c_pct; c_pct; c_pct] else [c]) ++ twice_percent fmt' false else c :: twice_percent fmt' (c =? c_pct)
  end.
Lemma conv_agree c s : c <> c_pct -> sprintf_conv c s = printf_conv c s.
Proof. intros H. unfold sprintf_conv, printf_conv. by rewrite (proj2 (Z.eqb_neq c c_pct) H). Qed.
(** One conversion of [sprintf] is that of [printf], [%%] twice. *)
Lemma conv_twice c fmt s out : printf_loop (twice_percent (c :: fmt) true) true s = Some out ->
  exists o1 s1 rest, sprintf_conv c s = Some (o1, s1) /\ printf_loop (twice_percent fmt false) false s1 = Some rest /\ out = o1 ++ rest.
Proof.
  cbn [twice_percent]. destruct (Z.eqb_spec c c_pct) as [->|Hc]; cbn [app printf_loop].
  - intros H. exists [c_pct; c_pct], s. change (printf_conv c_pct s) with (Some ([c_pct], s)) in H. change (c_pct =? c_pct) with true in H. cbn in H.
    destruct (printf_loop (twice_percent fmt false) false s) as [rest|]; [|done]. injection H as <-. by exists rest.
  - rewrite <- (conv_agree c s Hc). destruct (sprintf_conv c s) as [[o1 s1]|]; [|done]. cbn.
    destruct (printf_loop (twice_percent fmt false) false s1) as [rest|] eqn:E; [|done]. intros [= <-]. by exists o1, s1, rest.
Qed.

Lemma sprintf_loop_ok fmt : forall pct s b done out, printf_loop (twice_percent fmt pct) pct s = Some out ->
  safe (done ++ out) -> filled b done -> exists b', sprintf_loop fmt pct s b = Some b' /\ filled b' (done ++ out).
Proof.
  induction fmt as [|c fmt IH]; intros pct s b done out Hp Hz Hb; cbn [sprintf_loop].
  { injection Hp as <-. exists b. by rewrite app_nil_r. }
  destruct pct.
  - apply conv_twice in Hp as (o1 & s1 & rest & -> & E & ->). cbn. rewrite app_assoc in *.
    destruct (oputs_filled o1 b done Hb (safe_app _ _ Hz)) as (b1 & E1 & H1). rewrite E1. cbn.
    by apply (IH false s1 b1 _ rest E).
  - cbn [twice_percent printf_loop] in Hp. destruct (Z.eqb_spec c c_pct) as [->|Hc]; [by apply IH|].
    destruct (printf_loop (twice_percent fmt false) false s) as [rest|] eqn:E; [|done]. cbn in Hp. injection Hp as <-.
    replace (done ++ c :: rest) with ((done ++ [c]) ++ rest) in * by (by rewrite <- app_assoc).
    destruct (oputc_filled c b done Hb (safe_app _ _ Hz)) as (b1 & E1 & H1). rewrite E1. cbn. by apply (IH false s b1 _ rest E).
Qed.
Lemma until0_pad l r : until0 (l ++ 0 :: r) = until0 l.
Proof. induction l as [|c l IH]; cbn; [done|]. destruct (c =? 0); [done|]. by rewrite IH. Qed.

(** C31: [sprintf] against [printf].  Where [printf] prints [out] for the format
    with every [%%] written twice, [sprintf] yields [out] up to its first NUL, and
    never stores outside its growing buffer, if [out] has at most 255 bytes or no
    NUL.  For a format without [%%] that is what [printf] prints. *)
Theorem sprintf_prints_like_printf fmt s out : printf (twice_percent fmt false) s = Some out -> (length out <= 255)%nat \/ Forall (fun c => c <> 0) out ->
  sprintf fmt s = Some (until0 out).
Proof.
  intros Hp Hz. unfold sprintf, printf in *. destruct (sprintf_loop_ok fmt false s (Sbuf (replicate 256 0) 0 256) [] out Hp Hz) as (b & E & H).
  { split; cbn [obuf oi olen]; [done|done|cbn; lia|lia]. }
  rewrite E. cbn. destruct H as [B1 B2 B3 B4]. cbn [app] in *. rewrite B1. destruct (olen b - length out)%nat as [|n] eqn:En; [lia|]. cbn.
  by rewrite until0_pad.
Qed.
(** [x=%d%% %s], 300 characters of text *)
Lemma sprintf_prints_like_printf_witness :
  let s := Fstate [Word (2 ^ 32 - 7); Str (Some (replicate 300 65))] None in
  sprintf [120; 61; 37; 100; 37; 37; 32; 37; 115] s = Some (until0 ([120; 61; 45; 55; 37; 37; 32] ++ replicate 300 65)).
Proof.
  intros s. apply (sprintf_prints_like_printf [120; 61; 37; 100; 37; 37; 32; 37; 115] s); [reflexivity|]. right.
  apply list.Forall_app. split; [by repeat constructor|]. apply list.Forall_forall. intros x Hx. by apply elem_of_replicate in Hx as [-> _].
Defined.

(** [%%] is one character for [printf] and two for [sprintf]. *)
Lemma sprintf_percent : printf [37; 37] (Fstate [] None) = Some [37] /\ sprintf [37; 37] (Fstate [] None) = Some [37; 37].
Proof. done. Qed.
(** A NUL in the output makes [extendstring] allocate too little, and the next
    store is outside the block. *)
Lemma sprintf_nul_overruns :
  printf [37; 99; 37; 115] (Fstate [Word 0; Str (Some (replicate 300 65))] None) = Some (0 :: replicate 300 65) /\
  sprintf [37; 99; 37; 115] (Fstate [Word 0; Str (Some (replicate 300 65))] None) = None.
Proof. by vm_compute. Qed.

(** ** Fields *)

Lemma fill_spec cs : forall buf i pre mid post, buf = pre ++ mid ++ post -> length pre = i -> length mid = length cs -> fill buf i cs = Some (pre ++ cs ++ post).
Proof.
  induction cs as [|c cs IH]; intros buf i pre mid post -> Hi Hm; cbn [fill]; [by destruct mid|]. destruct mid as [|x mid]; [done|].
  rewrite (proj2 (Nat.ltb_lt i _)) by (rewrite length_app; cbn; lia). rewrite (IH _ (S i) (pre ++ [c]) mid post).
  - by rewrite <- app_assoc.
  - subst i. replace (length pre) with (length pre + 0)%nat by lia. rewrite insert_app_r. cbn. by rewrite <- app_assoc.
  - rewrite length_app. cbn. lia.
  - cbn in Hm. lia.
Qed.
(** [fmtfieldn] centres a text in a field of a buffer that has room for it,
    writes nothing outside the field, and ends it with a NUL. *)
Theorem fmtfieldn_centres data fieldsize filler bufsize : (length data <= fieldsize < bufsize)%nat ->
  fmtfieldn data fieldsize filler bufsize =
    Some (replicate ((fieldsize - length data) / 2) filler ++ data ++
          replicate (fieldsize - length data - (fieldsize - length data) / 2) filler ++ replicate (bufsize - fieldsize) 0).
Proof.
  intros H. unfold fmtfieldn. rewrite (proj2 (Nat.ltb_ge fieldsize (length data))) by lia. set (half := ((fieldsize - length data) / 2)%nat).
  assert (half <= fieldsize - length data)%nat as Hh by (apply Nat.Div0.div_le_upper_bound; lia).
  rewrite (fill_spec (replicate half filler) _ 0 [] (replicate half 0) (replicate (bufsize - half) 0));
    [|rewrite <- replicate_add; by replace (half + (bufsize - half))%nat with bufsize by lia|done|by rewrite !length_replicate].
    cbn [mbind option_bind app].
  rewrite Nat.min_l, take_ge by lia.
  rewrite (fill_spec data _ half (replicate half filler) (replicate (length data) 0) (replicate (bufsize - half - length data) 0));
    [|rewrite <- replicate_add; by replace (length data + (bufsize - half - length data))%nat with (bufsize - half)%nat by lia|by rewrite length_replicate|by rewrite length_replicate].
    cbn [mbind option_bind].
  rewrite (fill_spec _ _ _ (replicate half filler ++ data) (replicate (fieldsize - half - length data) 0) (replicate (bufsize - fieldsize) 0)).
  - replace (fieldsize - (half + length data))%nat with (fieldsize - length data - half)%nat by lia. by rewrite <- app_assoc.
  - rewrite <- app_assoc, <- replicate_add.
    by replace (fieldsize - half - length data + (bufsize - fieldsize))%nat with (bufsize - half - length data)%nat by lia.
  - by rewrite length_app, length_replicate.
  - rewrite !length_replicate. lia.
Qed.
Lemma fmtfieldn_centres_witness : fmtfieldn [97; 98] 5 46 7 = Some [46; 97; 98; 46; 46; 0; 0].
Proof. apply (fmtfieldn_centres [97; 98] 5 46 7). cbn. lia. Defined.
