(* ===== verification/Console.v ===== *)
(** The console ([console.c]): the line discipline of the input buffer, reads
    from it, and the text screen. *)

From S2P Require Import Prelude CString Format.
Local Open Scope Z_scope.

(** ** Input *)

Definition INPUT_BUF : Z := 128.
Record inputbuf := Ib { ib_buf : list Z; ib_r : Z; ib_w : Z; ib_e : Z }.

Definition ctl (x : Z) : Z := x - 64.
Definition BACKSPACE : Z := 0x100.
Definition key_P : Z := ctl 80.
Definition key_U : Z := ctl 85.
Definition key_H : Z := ctl 72.
Definition key_D : Z := ctl 68.
Definition key_DEL : Z := 0x7f.
Definition nl : Z := 10.
Definition cr : Z := 13.

Definition char_of (ib : inputbuf) (i : Z) : Z := default 0 (ib_buf ib !! Z.to_nat (u32 i mod INPUT_BUF)).

(** [while(e != w && buf[(e-1) % INPUT_BUF] != '\n') e--]; at most [e - w]
    iterations.  The echo is a backspace for each. *)
Fixpoint kill_line (fuel : nat) (ib : inputbuf) : inputbuf * list Z :=
  match fuel with
  | O => (ib, [])
  | S f =>
    if negb (ib_e ib =? ib_w ib) && negb (char_of ib (ib_e ib - 1) =? nl) then
      let '(ib', echo) := kill_line f (Ib (ib_buf ib) (ib_r ib) (ib_w ib) (u32 (ib_e ib - 1))) in (ib', BACKSPACE :: echo)
    else (ib, [])
  end.

(** What a character does: the buffer, the echo, and whether a reader is woken. *)
Definition line_key (c : Z) (ib : inputbuf) : inputbuf * list Z * bool :=
  if c =? key_U then (kill_line (Z.to_nat (u32 (ib_e ib - ib_w ib))) ib, false)
  else if (c =? key_H) || (c =? key_DEL) then
    if negb (ib_e ib =? ib_w ib) then (Ib (ib_buf ib) (ib_r ib) (ib_w ib) (u32 (ib_e ib - 1)), [BACKSPACE], false) else (ib, [], false)
  else if negb (c =? 0) && (u32 (ib_e ib - ib_r ib) <? INPUT_BUF) then
    let c := if c =? cr then nl else c in
    let b := <[Z.to_nat (ib_e ib mod INPUT_BUF) := u8 c]> (ib_buf ib) in
    let e := u32 (ib_e ib + 1) in
    if (c =? nl) || (c =? key_D) || (e =? u32 (ib_r ib + INPUT_BUF))
    then (Ib b (ib_r ib) e e, [c], true)
    else (Ib b (ib_r ib) (ib_w ib) e, [c], false)
  else (ib, [], false).
Definition key (c : Z) (ib : inputbuf) : inputbuf * list Z * bool := if c =? key_P then (ib, [], false) else line_key c ib.

(** [consoleintr] on the characters its [getc] yields before it has none left;
    the last flag asks for a process listing. *)
Fixpoint consoleintr (cs : list Z) (ib : inputbuf) : inputbuf * list Z * bool * bool :=
  match cs with
  | [] => (ib, [], false, false)
  | c :: cs' =>
    if c <? 0 then (ib, [], false, false) else
    let '(ib1, echo1, wake1) := key c ib in
    let '(ib2, echo2, wake2, dump2) := consoleintr cs' ib1 in
    (ib2, echo1 ++ echo2, wake1 || wake2, (c =? key_P) || dump2)
  end.

(** [consoleread] ends, is killed, or goes to sleep with [n] bytes still to come. *)
Inductive reading :=
| Done (out : list Z) (ib : inputbuf)
| Killed (ib : inputbuf)
| Asleep (out : list Z) (n : nat) (ib : inputbuf).
Fixpoint read_loop (n : nat) (first killed : bool) (ib : inputbuf) : reading :=
  match n with
  | O => Done [] ib
  | S n' =>
    if ib_r ib =? ib_w ib then if killed then Killed ib else Asleep [] n ib else
    let c := char_of ib (ib_r ib) in
    let ib1 := Ib (ib_buf ib) (u32 (ib_r ib + 1)) (ib_w ib) (ib_e ib) in
    if c =? key_D then Done [] (if first then ib1 else Ib (ib_buf ib) (u32 (u32 (ib_r ib + 1) - 1)) (ib_w ib) (ib_e ib))
    else if c =? nl then Done [c] ib1
    else match read_loop n' false killed ib1 with
         | Done out ib2 => Done (c :: out) ib2
         | Killed ib2 => Killed ib2
         | Asleep out k ib2 => Asleep (c :: out) k ib2
         end
  end.
Definition consoleread (n : nat) (killed : bool) (ib : inputbuf) : reading := read_loop n true killed ib.

(** ** The screen *)

Record screen := Screen { crt : list Z; pos : Z }.
Definition COLS : Z := 80.
Definition ROWS : Z := 25.
(** A store outside the screen is a fault. *)
Definition set_cell (i v : Z) (s : screen) : res screen unit :=
  if (0 <=? i) && (i <? COLS * ROWS) then Ok tt (Screen (<[Z.to_nat i := v]> (crt s)) (pos s)) else Panic "fault" s.
Definition at_pos (p : Z) : M screen unit := modify (fun s => Screen (crt s) p).

(** [memmove(crt, crt+80, 23 rows)] and [memset(crt+pos, 0, 24*80 - pos cells)]. *)
Definition scroll (s : screen) : screen :=
  let c1 := take (Z.to_nat (23 * 80)) (drop (Z.to_nat 80) (crt s)) ++ drop (Z.to_nat (23 * 80)) (crt s) in
  let p := pos s - 80 in
  let k := Z.to_nat (24 * 80 - p) in
  Screen (take (Z.to_nat p) c1 ++ replicate k 0 ++ drop (Z.to_nat p + k) c1) p.

Definition cgaputc (c : Z) : M screen unit :=
  p ← gets pos;
  (if c =? nl then at_pos (p + (80 - p mod 80))
   else if c =? 9 then at_pos (p + 4)
   else if c =? BACKSPACE then if 0 <? p then at_pos (p - 1) else mret tt
   else set_cell p (Z.lor (Z.land c 0xff) 0x0700) ;; at_pos (p + 1)) ;;
  p ← gets pos;
  assert_or (negb ((p <? 0) || (25 * 80 <? p))) "pos under/overflow" ;;
  (if 24 <=? p / 80 then modify scroll else mret tt) ;;
  p ← gets pos;
  set_cell p (Z.lor 32 0x0700).

(** [consputc]: the serial line, where there is one, and the screen. *)
Record console := Console { serial : list Z; display : screen; sysuart : bool; syscons : bool }.
Definition uart_text (c : Z) : list Z := if c =? BACKSPACE then [8; 32; 8] else [u8 c].
Definition on_display (f : M screen unit) : M console unit := fun k =>
  match f (display k) with
  | Ok _ s => Ok tt (Console (serial k) s (sysuart k) (syscons k))
  | Panic m s => Panic m (Console (serial k) s (sysuart k) (syscons k))
  | Blocked s => Blocked (Console (serial k) s (sysuart k) (syscons k))
  | PowerFail s => PowerFail (Console (serial k) s (sysuart k) (syscons k))
  end.
Definition consputc (c : Z) : M console unit :=
  u ← gets sysuart;
  (if u : bool then modify (fun k => Console (serial k ++ uart_text c) (display k) (sysuart k) (syscons k)) else mret tt) ;;
  sc ← gets syscons;
  if sc : bool then on_display (cgaputc c) else mret tt.

(** [consolewrite] to minor device 1 goes through [consputc], to 2 to the
    screen only. *)
Definition consolewrite (minor : Z) (buf : list Z) : M console Z :=
  for_each buf (fun b =>
    if minor =? 1 then consputc (Z.land b 0xff)
    else if minor =? 2 then on_display (cgaputc (Z.land b 0xff)) else mret tt) ;;
  mret (Z.of_nat (length buf)).

(** The kernel's [cprintf]. *)
Definition cprintf_to (fmt : list Z) (s : fstate) : M console unit :=
  match cprintf fmt s with Some out => for_each out consputc | None => panic "fault" end.

(** ** The line discipline

    To its user the buffer is a queue of characters that may be read, and the
    line being edited, which has no newline yet. *)

Record discipline := Disc { queue : list Z; edit : list Z }.

Definition line_spec (c : Z) (d : discipline) : discipline * list Z * bool :=
  if c =? key_U then (Disc (queue d) [], replicate (length (edit d)) BACKSPACE, false)
  else if (c =? key_H) || (c =? key_DEL) then
    match edit d with [] => (d, [], false) | _ => (Disc (queue d) (take (length (edit d) - 1) (edit d)), [BACKSPACE], false) end
  else if negb (c =? 0) && bool_decide (length (queue d) + length (edit d) < 128)%nat then
    let c := if c =? cr then nl else c in
    let l := edit d ++ [u8 c] in
    if (c =? nl) || (c =? key_D) || bool_decide (length (queue d) + length l = 128)%nat
    then (Disc (queue d ++ l) [], [c], true) else (Disc (queue d) l, [c], false)
  else (d, [], false).
Definition key_spec (c : Z) (d : discipline) : discipline * list Z * bool := if c =? key_P then (d, [], false) else line_spec c d.
Fixpoint keys_spec (cs : list Z) (d : discipline) : discipline * list Z * bool :=
  match cs with
  | [] => (d, [], false)
  | c :: cs' =>
    let '(d1, echo1, wake1) := key_spec c d in
    let '(d2, echo2, wake2) := keys_spec cs' d1 in (d2, echo1 ++ echo2, wake1 || wake2)
  end.
(** A read takes what was typed up to the end of a line; an end of file ([^D])
    is taken by a read that has nothing else to return. *)
Inductive taking := TDone (out rest : list Z) | TWait (out : list Z) (n : nat).
Fixpoint take_line (n : nat) (first : bool) (q : list Z) : taking :=
  match n, q with
  | O, _ => TDone [] q
  | S _, [] => TWait [] n
  | S n', c :: q' =>
    if c =? key_D then TDone [] (if first then q' else q)
    else if c =? nl then TDone [c] q'
    else match take_line n' false q' with TDone out r => TDone (c :: out) r | TWait out k => TWait (c :: out) k end
  end.

Record rep (ib : inputbuf) (d : discipline) : Prop := {
  rp_r : in_u32 (ib_r ib);
  rp_w : ib_w ib = u32 (ib_r ib + Z.of_nat (length (queue d)));
  rp_e : ib_e ib = u32 (ib_r ib + Z.of_nat (length (queue d)) + Z.of_nat (length (edit d)));
  rp_room : (length (queue d) + length (edit d) <= 128)%nat;
  rp_len : length (ib_buf ib) = 128%nat;
  rp_buf : forall i c, (queue d ++ edit d) !! i = Some c -> ib_buf ib !! Z.to_nat ((ib_r ib + Z.of_nat i) mod 128) = Some c;
  rp_line : Forall (fun c => c <> nl) (edit d);
}.

Lemma u32_mod128 x : u32 x mod 128 = x mod 128.
Proof. unfold u32. dlia. Qed.
Lemma u32_eq_small a b k : in_u32 a -> 0 <= k < 2 ^ 32 -> u32 (a + k) = u32 (a + b) -> 0 <= b < 2 ^ 32 -> k = b.
Proof. unfold u32. intros. dlia. Qed.
Lemma char_of_rep ib d i c : rep ib d -> (queue d ++ edit d) !! i = Some c -> forall x, x mod 128 = (ib_r ib + Z.of_nat i) mod 128 -> char_of ib x = c.
Proof. intros [] H x Hx. unfold char_of, INPUT_BUF. rewrite u32_mod128, Hx. by rewrite (rp_buf0 i c H). Qed.

Lemma rep_dist ib d : rep ib d ->
  u32 (ib_e ib - ib_r ib) = Z.of_nat (length (queue d) + length (edit d)) /\ u32 (ib_e ib - ib_w ib) = Z.of_nat (length (edit d)) /\
  (ib_e ib =? ib_w ib) = match edit d with [] => true | _ => false end /\ (ib_r ib =? ib_w ib) = match queue d with [] => true | _ => false end.
Proof.
  intros []. rewrite rp_e0, rp_w0. split_and!.
  - unfold u32. dlia.
  - unfold u32. dlia.
  - destruct (edit d) as [|c l]; cbn [length]; [apply Z.eqb_eq; f_equal; lia|]. apply Z.eqb_neq. unfold u32. cbn [length] in *. dlia.
  - destruct (queue d) as [|c l]; cbn [length]; [apply Z.eqb_eq; unfold u32; dlia|]. apply Z.eqb_neq. unfold u32. cbn [length] in *. dlia.
Qed.

(** Dropping the last character of the edited line. *)
Lemma rep_erase ib q l c : rep ib (Disc q (l ++ [c])) -> rep (Ib (ib_buf ib) (ib_r ib) (ib_w ib) (u32 (ib_e ib - 1))) (Disc q l).
Proof.
  intros []. cbn [queue edit] in *. rewrite length_app in *. cbn [length] in *. split; cbn [ib_r ib_w ib_e ib_buf queue edit]; [done|done| |lia|done| |].
  - rewrite rp_e0. unfold u32. dlia.
  - intros i x Hx. apply rp_buf0. rewrite app_assoc. by apply lookup_app_l_Some.
  - by apply list.Forall_app in rp_line0 as [? _].
Qed.
Lemma kill_line_rep l : forall ib q, rep ib (Disc q l) ->
  exists ib', kill_line (length l) ib = (ib', replicate (length l) BACKSPACE) /\ rep ib' (Disc q []).
Proof.
  induction l as [|c l IH] using rev_ind; intros ib q H; [by exists ib|]. rewrite length_app. cbn [length]. rewrite Nat.add_1_r. cbn [kill_line replicate].
  destruct (rep_dist ib _ H) as (_ & _ & E & _). cbn [edit] in E. rewrite E.
  assert (char_of ib (ib_e ib - 1) = c) as Ec.
  { apply (char_of_rep ib _ (length q + length l) c H); [cbn [queue edit]; rewrite app_assoc, <- length_app; by apply list_lookup_middle|].
    destruct H. cbn [queue edit] in *. rewrite rp_e0, length_app. unfold u32. cbn [length]. dlia. }
  rewrite Ec. destruct H as [? ? ? ? ? ? Hl] eqn:Eq. clear Eq. cbn [edit] in Hl. apply list.Forall_app in Hl as [_ Hc]. apply list.Forall_cons in Hc as [Hc _].
  rewrite (proj2 (Z.eqb_neq c nl) Hc). assert (negb match l ++ [c] with [] => true | _ => false end = true) as -> by by destruct l. cbn [negb andb].
  destruct (IH _ q (rep_erase _ _ _ _ H)) as (ib' & E' & H'). exists ib'. rewrite E'. done.
Qed.

Lemma append_buf ib d c : rep ib d -> (length (queue d) + length (edit d) < 128)%nat ->
  let b := <[Z.to_nat (ib_e ib mod 128) := c]> (ib_buf ib) in
  forall i x, (queue d ++ edit d ++ [c]) !! i = Some x -> b !! Z.to_nat ((ib_r ib + Z.of_nat i) mod 128) = Some x.
Proof.
  intros [] Hlt b i x Hx. unfold b. set (n := (length (queue d) + length (edit d))%nat) in *.
  assert (ib_e ib mod 128 = (ib_r ib + Z.of_nat n) mod 128) as -> by (rewrite rp_e0, u32_mod128; f_equal; lia).
  destruct (decide (i = n)) as [->|Hi].
  - rewrite list_lookup_insert_eq by (rewrite rp_len0; dlia). rewrite app_assoc in Hx. unfold n in Hx. rewrite <- length_app in Hx.
    by rewrite list_lookup_middle in Hx.
  - assert (i < n)%nat as Hin. { apply lookup_lt_Some in Hx. rewrite !length_app in Hx. cbn in Hx. lia. }
    rewrite list_lookup_insert_ne by dlia. apply rp_buf0. rewrite app_assoc, lookup_app_l in Hx by (rewrite length_app; lia). done.
Qed.

Lemma u8_other c x : u8 c = x -> 0 <= c < 256 -> c = x.
Proof. intros <- H. unfold u8. rewrite Z.mod_small; lia. Qed.

Lemma line_key_refines c ib d : rep ib d -> 0 <= c < 256 ->
  let '(ib', echo, wake) := line_key c ib in let '(d', echo', wake') := line_spec c d in rep ib' d' /\ echo = echo' /\ wake = wake'.
Proof.
  intros H Hc. pose proof H as [R1 R2 R3 R4 R5 R6 R7]. destruct (rep_dist ib d H) as (D1 & D2 & D3 & D4). unfold line_key, line_spec.
  destruct (c =? key_U).
  { rewrite D2, Nat2Z.id. destruct d as [q l]. cbn [queue edit] in *. destruct (kill_line_rep l ib q H) as (ib' & -> & H'). done. }
  destruct ((c =? key_H) || (c =? key_DEL)).
  { rewrite D3. destruct d as [q l]. cbn [queue edit] in *. destruct l as [|x l] using rev_ind; [done|]. clear IHl.
    destruct (l ++ [x]) as [|y l'] eqn:E; [by destruct l|]. cbn [negb]. rewrite <- E in *. rewrite length_app, Nat.add_sub.
    rewrite take_app_length. split; [by apply (rep_erase _ _ _ x)|done]. }
  rewrite D1. unfold INPUT_BUF in *. destruct (Z.ltb_spec (Z.of_nat (length (queue d) + length (edit d))) 128) as [Hlt|Hge].
  2: { rewrite (bool_decide_eq_false_2 (_ < 128)%nat) by lia. by rewrite !andb_false_r. }
  rewrite (bool_decide_eq_true_2 (_ < 128)%nat), !andb_true_r by lia. destruct (Z.eqb_spec c 0) as [|H0]; [done|]. cbn [negb].
  set (k := if c =? cr then nl else c). assert (0 < k < 256) as Hk by (unfold k, cr, nl; destruct (c =? 13); lia).
  assert (u8 k = k) as Ek by (unfold u8; apply Z.mod_small; lia). rewrite Ek.
  pose proof (append_buf ib d k H ltac:(lia)) as Hb. cbn zeta in Hb.
  assert ((u32 (ib_e ib + 1) =? u32 (ib_r ib + 128)) = bool_decide (length (queue d) + length (edit d ++ [k]) = 128)%nat) as Efull.
  { rewrite R3, length_app. cbn [length]. destruct (decide (length (queue d) + length (edit d) + 1 = 128)%nat) as [E|E].
    - rewrite bool_decide_eq_true_2 by lia. apply Z.eqb_eq. unfold u32. dlia.
    - rewrite bool_decide_eq_false_2 by lia. apply Z.eqb_neq. unfold u32. dlia. }
  rewrite Efull. destruct ((k =? nl) || (k =? key_D) || _) eqn:Ec; (split; [|done]).
  - split; cbn [ib_r ib_w ib_e ib_buf queue edit]; [done| | | | | |constructor].
    + rewrite R3, !length_app. cbn [length]. unfold u32. dlia.
    + rewrite R3, !length_app. cbn [length]. unfold u32. dlia.
    + rewrite !length_app. cbn [length]. lia.
    + by rewrite length_insert.
    + intros i x. rewrite app_nil_r. apply Hb.
  - split; cbn [ib_r ib_w ib_e ib_buf queue edit]; [done|done| | | |exact Hb|].
    + rewrite R3, length_app. cbn [length]. unfold u32. dlia.
    + rewrite length_app. cbn [length]. lia.
    + by rewrite length_insert.
    + apply list.Forall_app. split; [done|]. constructor; [|constructor]. apply orb_false_iff in Ec as [Ec _]. apply orb_false_iff in Ec as [Ec _]. by apply Z.eqb_neq.
Qed.

Lemma key_refines c ib d : rep ib d -> 0 <= c < 256 ->
  let '(ib', echo, wake) := key c ib in let '(d', echo', wake') := key_spec c d in rep ib' d' /\ echo = echo' /\ wake = wake'.
Proof. intros H Hc. unfold key, key_spec. destruct (c =? key_P); [done|]. by apply line_key_refines. Qed.

Lemma consoleintr_refines cs : forall ib d, rep ib d -> Forall (fun c => 0 <= c < 256) cs ->
  let '(ib', echo, wake, _) := consoleintr cs ib in let '(d', echo', wake') := keys_spec cs d in rep ib' d' /\ echo = echo' /\ wake = wake'.
Proof.
  induction cs as [|c cs IH]; intros ib d H Hcs; cbn [consoleintr keys_spec]; [done|]. apply list.Forall_cons in Hcs as [Hc Hcs].
  rewrite (proj2 (Z.ltb_ge c 0)) by lia. pose proof (key_refines c ib d H Hc) as K.
  destruct (key c ib) as [[ib1 e1] w1], (key_spec c d) as [[d1 e1'] w1']. destruct K as (H1 & -> & ->). specialize (IH ib1 d1 H1 Hcs).
  destruct (consoleintr cs ib1) as [[[ib2 e2] w2] du2], (keys_spec cs d1) as [[d2 e2'] w2']. destruct IH as (H2 & -> & ->). done.
Qed.

Lemma rep_take ib c q l : rep ib (Disc (c :: q) l) -> rep (Ib (ib_buf ib) (u32 (ib_r ib + 1)) (ib_w ib) (ib_e ib)) (Disc q l) /\ char_of ib (ib_r ib) = c.
Proof.
  intros H. pose proof H as [R1 R2 R3 R4 R5 R6 R7]. cbn [queue edit length] in *. split.
  - split; cbn [ib_r ib_w ib_e ib_buf queue edit length]; [unfold u32; dlia| | |lia|done| |done].
    + rewrite R2. unfold u32. dlia.
    + rewrite R3. unfold u32. dlia.
    + intros i x Hx. rewrite <- (R6 (S i) x Hx). f_equal. f_equal. unfold u32. dlia.
  - apply (char_of_rep ib _ 0 c H); [done|]. f_equal. lia.
Qed.

Lemma read_refines n : forall first ib q l, rep ib (Disc q l) ->
  match take_line n first q with
  | TDone out q' => exists ib', read_loop n first false ib = Done out ib' /\ rep ib' (Disc q' l)
  | TWait out k => exists ib', read_loop n first false ib = Asleep out k ib' /\ rep ib' (Disc [] l)
  end.
Proof.
  induction n as [|n IH]; intros first ib q l H; cbn [take_line read_loop]; [eauto|].
  destruct (rep_dist ib _ H) as (_ & _ & _ & D). cbn [queue] in D. destruct q as [|c q]; rewrite D; [eauto|].
  destruct (rep_take ib c q l H) as [H1 ->]. destruct (c =? key_D).
  - destruct first; [by eauto|]. eexists. split; [reflexivity|]. destruct H as [R1 R2 R3 R4 R5 R6 R7].
    assert (u32 (u32 (ib_r ib + 1) - 1) = ib_r ib) as -> by (unfold u32; dlia). by split.
  - destruct (c =? nl); [by eauto|]. specialize (IH false _ q l H1). destruct (take_line n false q) as [out r|out k]; destruct IH as (ib' & -> & H'); eauto.
Qed.

(** C32: the ring buffer implements the line discipline: whatever is typed,
    through any number of wrap-arounds of its indices, a read gets exactly the
    characters of the finished lines in order, erased characters excluded, one
    line at a time. *)
Theorem console_refines ib d : rep ib d ->
  (forall cs, Forall (fun c => 0 <= c < 256) cs ->
     let '(ib', echo, wake, _) := consoleintr cs ib in let '(d', echo', wake') := keys_spec cs d in rep ib' d' /\ echo = echo' /\ wake = wake') /\
  (forall n, match take_line n true (queue d) with
             | TDone out q' => exists ib', consoleread n false ib = Done out ib' /\ rep ib' (Disc q' (edit d))
             | TWait out k => exists ib', consoleread n false ib = Asleep out k ib' /\ rep ib' (Disc [] (edit d))
             end).
Proof. intros H. split; [intros cs; by apply consoleintr_refines|]. intros n. apply read_refines. by destruct d. Qed.

(** The indices about to wrap around. *)
Definition sample_ib : inputbuf := Ib (replicate 128 0) (2 ^ 32 - 2) (2 ^ 32 - 2) (2 ^ 32 - 2).
Lemma sample_rep : rep sample_ib (Disc [] []).
Proof. split; [cbn; lia|done|done|cbn; lia|done|intros i c H; cbn [queue edit app] in H; by rewrite lookup_nil in H|constructor]. Qed.
(** [ab^Hc\r], then a read *)
Lemma console_refines_witness : exists ib', consoleread 100 false (consoleintr [97; 98; 8; 99; 13] sample_ib).1.1.1 = Done [97; 99; 10] ib' /\ rep ib' (Disc [] []).
Proof.
  destruct (console_refines sample_ib (Disc [] []) sample_rep) as [H _]. specialize (H [97; 98; 8; 99; 13] ltac:(repeat constructor; lia)).
  destruct (consoleintr _ sample_ib) as [[[ib' e] w] du]. cbn [fst]. destruct (keys_spec _ _) as [[d' e'] w'] eqn:E. vm_compute in E. injection E as <- <- <-.
  destruct H as [H _]. exact (proj2 (console_refines ib' _ H) 100%nat).
Defined.

(** ** The screen stays within its bounds *)

Record screen_ok (s : screen) : Prop := { so_len : length (crt s) = 2000%nat; so_pos : 0 <= pos s < 1920 }.

Lemma set_cell_ok i v s : length (crt s) = 2000%nat -> 0 <= i < 2000 -> exists c, set_cell i v s = Ok tt (Screen c (pos s)) /\ length c = 2000%nat.
Proof.
  intros Hl Hi. unfold set_cell, COLS, ROWS. rewrite (proj2 (Z.leb_le 0 i)), (proj2 (Z.ltb_lt i (80 * 25))) by lia. eexists. split; [reflexivity|]. by rewrite length_insert.
Qed.
(** Scrolling moves the rows up by one and blanks what is after the cursor. *)
Lemma scroll_ok s : length (crt s) = 2000%nat -> 1920 <= pos s <= 2000 ->
  length (crt (scroll s)) = 2000%nat /\ pos (scroll s) = pos s - 80 /\ (forall i, (i < 1840)%nat -> crt (scroll s) !! i = crt s !! (i + 80)%nat).
Proof.
  intros Hl Hp. unfold scroll. change (Z.to_nat (23 * 80)) with 1840%nat. change (Z.to_nat 80) with 80%nat.
  set (c1 := take 1840 (drop 80 (crt s)) ++ drop 1840 (crt s)). cbn [crt pos].
  assert (length c1 = 2000%nat) as Hc1 by (unfold c1; rewrite length_app, length_take, !length_drop; lia).
  split_and!; [|done|].
  - rewrite !length_app, length_take, length_replicate, length_drop. lia.
  - intros i Hi. rewrite lookup_app_l by (rewrite length_take; lia). rewrite lookup_take_lt by lia. unfold c1.
    rewrite lookup_app_l by (rewrite length_take, length_drop; lia). rewrite lookup_take_lt by lia. rewrite lookup_drop. f_equal. lia.
Qed.

Lemma cgaputc_ok c s : screen_ok s -> exists s', cgaputc c s = Ok tt s' /\ screen_ok s'.
Proof.
  intros [Hl Hp]. unfold cgaputc.
  assert (exists cr1 p1, (if c =? nl then at_pos (pos s + (80 - pos s mod 80)) else if c =? 9 then at_pos (pos s + 4)
    else if c =? BACKSPACE then if 0 <? pos s then at_pos (pos s - 1) else mret tt
    else set_cell (pos s) (Z.lor (Z.land c 0xff) 0x0700) ;; at_pos (pos s + 1)) s = Ok tt (Screen cr1 p1) /\ length cr1 = 2000%nat /\ 0 <= p1 < 2000) as (cr1 & p1 & E1 & L1 & P1).
  { destruct (c =? nl); [eexists _, _; split; [reflexivity|]; split; [done|]; dlia|]. destruct (c =? 9); [eexists _, _; split; [reflexivity|]; split; [done|]; lia|].
    destruct (c =? BACKSPACE).
    - destruct (Z.ltb_spec 0 (pos s)); [eexists _, _; split; [reflexivity|]; split; [done|]; lia|]. exists (crt s), (pos s). split; [by destruct s|]. split; [done|lia].
    - destruct (set_cell_ok (pos s) (Z.lor (Z.land c 0xff) 0x0700) s Hl ltac:(lia)) as (c1 & E & L). eexists _, _.
      split; [erewrite bind_ok by exact E; reflexivity|]. split; [done|lia]. }
  erewrite bind_ok by reflexivity. erewrite bind_ok by exact E1. erewrite bind_ok by reflexivity. cbn [pos].
  rewrite (proj2 (Z.ltb_ge p1 0)), (proj2 (Z.ltb_ge (25 * 80) p1)) by lia. cbn [orb negb assert_or]. erewrite bind_ok by reflexivity.
  destruct (Z.leb_spec 24 (p1 / 80)) as [Hs|Hs].
  - destruct (scroll_ok (Screen cr1 p1) L1) as (L2 & P2 & _); [cbn [pos]; dlia|]. erewrite bind_ok by reflexivity. erewrite bind_ok by reflexivity.
    rewrite P2. cbn [pos] in *. destruct (set_cell_ok (p1 - 80) (Z.lor 32 0x0700) (scroll (Screen cr1 p1)) L2) as (c3 & E3 & L3); [dlia|].
    exists (Screen c3 (pos (scroll (Screen cr1 p1)))). split; [exact E3|]. split; cbn [crt pos]; [done|]. rewrite P2. dlia.
  - erewrite bind_ok by reflexivity. erewrite bind_ok by reflexivity. cbn [pos].
    destruct (set_cell_ok p1 (Z.lor 32 0x0700) (Screen cr1 p1) L1) as (c3 & E3 & L3); [lia|]. exists (Screen c3 p1). split; [exact E3|]. split; cbn [crt pos]; [done|dlia].
Qed.
Lemma display_ok f k : (forall s, screen_ok s -> exists s', f s = Ok tt s' /\ screen_ok s') -> screen_ok (display k) ->
  exists k', on_display f k = Ok tt k' /\ screen_ok (display k') /\ sysuart k' = sysuart k /\ syscons k' = syscons k /\ serial k' = serial k.
Proof. intros Hf H. destruct (Hf _ H) as (s' & E & H'). unfold on_display. rewrite E. eexists. split; [reflexivity|]. done. Qed.
Lemma consputc_ok c k : screen_ok (display k) -> exists k', consputc c k = Ok tt k' /\ screen_ok (display k').
Proof.
  intros H. unfold consputc. erewrite bind_ok by reflexivity. assert (exists k1, (if sysuart k then modify (fun k => Console (serial k ++ uart_text c) (display k) (sysuart k) (syscons k)) else mret tt) k = Ok tt k1 /\ screen_ok (display k1)) as (k1 & E1 & H1).
  { destruct (sysuart k); eexists; (split; [reflexivity|done]). }
  erewrite bind_ok by exact E1. erewrite bind_ok by reflexivity. destruct (syscons k1); [|by exists k1].
  destruct (display_ok _ k1 (cgaputc_ok c) H1) as (k2 & E2 & H2 & _). eauto.
Qed.

(** Whatever is written to the console, in any amount, every store to the
    screen is inside it, the cursor stays in the first 24 rows, and the write
    succeeds: the panic for a cursor out of range is never reached. *)
Theorem consolewrite_in_bounds minor buf k : screen_ok (display k) ->
  exists k', consolewrite minor buf k = Ok (Z.of_nat (length buf)) k' /\ screen_ok (display k').
Proof.
  intros H. unfold consolewrite. assert (exists k', for_each buf (fun b => if minor =? 1 then consputc (Z.land b 0xff)
    else if minor =? 2 then on_display (cgaputc (Z.land b 0xff)) else mret tt) k = Ok tt k' /\ screen_ok (display k')) as (k' & E & H').
  { revert k H. induction buf as [|b buf IH]; intros k H; cbn [for_each]; [by exists k|].
    assert (exists k1, (if minor =? 1 then consputc (Z.land b 0xff) else if minor =? 2 then on_display (cgaputc (Z.land b 0xff)) else mret tt) k = Ok tt k1 /\ screen_ok (display k1)) as (k1 & E1 & H1).
    { destruct (minor =? 1); [by apply consputc_ok|]. destruct (minor =? 2); [|by exists k]. destruct (display_ok _ k (cgaputc_ok (Z.land b 0xff)) H) as (k2 & E2 & H2 & _). eauto. }
    erewrite bind_ok by exact E1. by apply IH. }
  erewrite bind_ok by exact E. by exists k'.
Qed.
(** A tab and a newline at the end of the screen. *)
Lemma consolewrite_in_bounds_witness : exists k', consolewrite 1 [9; 10; 65] (Console [] (Screen (replicate 2000 0) 1919) true true) = Ok 3 k' /\ screen_ok (display k').
Proof. apply (consolewrite_in_bounds 1 [9; 10; 65]). split; [done|cbn; lia]. Defined.
