(* ===== verification/Mux.v ===== *)
(** The terminal multiplexer ([mux.c]): sixteen lines over one serial port.  A
    character travels as two bytes, a header with the line in its high half and
    the command [0xd], and the character.

    The locks are held throughout each routine. *)

From S2P Require Import Prelude CString Console.
Local Open Scope Z_scope.

Definition MUXBUFMAX : nat := 64.
Definition NLINES : nat := 16.
Record muxbuf := Muxbuf { header : Z; data : Z }.
(** [cur] is the header of a frame whose data has not come yet. *)
Record mux := Mux { cur : option Z; pending : list muxbuf; lines : list inputbuf }.

(** The bytes [lputc] puts on the port; a backspace is not sent as [^H] unless
    the port is a console. *)
Definition lputc (uart1cons : bool) (st c : Z) : list Z :=
  [u8 (Z.lor (Z.shiftl st 4) 0x0d); u8 (if uart1cons && (c =? BACKSPACE) then key_H else c)].

(** [writeline] is the line discipline, echoing on the line itself. *)
Definition writeline (uart1cons : bool) (i : nat) (c : Z) (ls : list inputbuf) : list inputbuf * list Z :=
  match ls !! i with
  | None => (ls, [])
  | Some ib => let '(ib', echo, _) := line_key c ib in (<[i := ib']> ls, concat (lputc uart1cons (Z.of_nat i) <$> echo))
  end.

Definition mb_line (h : Z) : nat := Z.to_nat (Z.shiftr (Z.land h 0xf0) 4).
Definition mb_cmd (h : Z) : Z := Z.land h 0x0f.
Fixpoint mbprocess_loop (uart1cons : bool) (bs : list muxbuf) (ls : list inputbuf) : list inputbuf * list Z :=
  match bs with
  | [] => (ls, [])
  | b :: bs' =>
    let '(ls1, out1) := if mb_cmd (header b) =? 0xd then writeline uart1cons (mb_line (header b)) (data b) ls else (ls, []) in
    let '(ls2, out2) := mbprocess_loop uart1cons bs' ls1 in (ls2, out1 ++ out2)
  end.
Definition mbprocess (uart1cons : bool) (m : mux) : mux * list Z :=
  let '(ls, out) := mbprocess_loop uart1cons (pending m) (lines m) in (Mux (cur m) [] ls, out).

(** One byte of the loop of [muxintr]. *)
Definition mux_byte (uart1cons : bool) (c : Z) (m : mux) : mux * list Z :=
  match cur m with
  | None => (Mux (Some c) (pending m) (lines m), [])
  | Some h =>
    let m1 := Mux None (pending m ++ [Muxbuf h c]) (lines m) in
    if (MUXBUFMAX <=? length (pending m1))%nat then mbprocess uart1cons m1 else (m1, [])
  end.
(** Some passes of the loop, which took the bytes [cs]. *)
Fixpoint mux_bytes (uart1cons : bool) (cs : list Z) (m : mux) : mux * list Z :=
  match cs with
  | [] => (m, [])
  | c :: cs' => let '(m1, o1) := mux_byte uart1cons c m in let '(m2, o2) := mux_bytes uart1cons cs' m1 in (m2, o1 ++ o2)
  end.

(** [muxintr]: the result of [muxgetc] goes through an unsigned character before
    it is compared with -1.  [input] are the successive results. *)
Fixpoint muxintr (fuel : nat) (uart1cons : bool) (input : nat -> Z) (m : mux) : option (mux * list Z) :=
  match fuel with
  | O => None
  | S f =>
    let c := u8 (input 0%nat) in
    if negb (c =? -1) then
      let '(m1, o1) := mux_byte uart1cons c m in
      '(m2, o2) ← muxintr f uart1cons (fun i => input (S i)) m1; Some (m2, o1 ++ o2)
    else Some (match pending m with [] => (m, []) | _ => mbprocess uart1cons m end)
  end.

Definition muxwrite (uart1cons : bool) (minor : Z) (buf : list Z) : option (list Z) :=
  if 16 <=? minor then None else Some (concat ((fun b => lputc uart1cons minor (Z.land b 0xff)) <$> buf)).
Definition muxread (minor : nat) (n : nat) (killed : bool) (m : mux) : option reading :=
  if (16 <=? minor)%nat then None else ib ← lines m !! minor; Some (read_loop n true killed ib).

(** ** Frames *)

(** A character for a line, and the bytes it travels as. *)
Abbreviation frame := (nat * Z)%type.
Definition frame_ok (f : frame) : Prop := (f.1 < 16)%nat /\ 0 <= f.2 < 256.
Definition frame_bytes (f : frame) : list Z := lputc false (Z.of_nat f.1) f.2.
Definition frame_buf (f : frame) : muxbuf := Muxbuf (u8 (Z.lor (Z.shiftl (Z.of_nat f.1) 4) 0x0d)) f.2.

Lemma header_roundtrip i : (i < 16)%nat -> mb_line (header (frame_buf (i, 0))) = i /\ mb_cmd (header (frame_buf (i, 0))) = 0xd.
Proof.
  intros H. assert (Forall (fun i => mb_line (header (frame_buf (i, 0))) = i /\ mb_cmd (header (frame_buf (i, 0))) = 0xd) (seq 0 16)) as HF
    by (apply (bool_decide_unpack _); vm_compute; exact I).
  rewrite list.Forall_forall in HF. apply HF, elem_of_seq. lia.
Qed.
Lemma mbprocess_app u bs1 bs2 ls : (mbprocess_loop u (bs1 ++ bs2) ls).1 = (mbprocess_loop u bs2 (mbprocess_loop u bs1 ls).1).1.
Proof.
  revert ls. induction bs1 as [|b bs1 IH]; intros ls; cbn [app mbprocess_loop]; [done|].
  destruct (if mb_cmd (header b) =? 0xd then _ else _) as [ls1 o1].
  specialize (IH ls1). destruct (mbprocess_loop u (bs1 ++ bs2) ls1) as [l2 o2], (mbprocess_loop u bs1 ls1) as [l3 o3]. done.
Qed.

(** The bytes, two by two; an odd one is left over. *)
Fixpoint pairs (cs : list Z) : list muxbuf * option Z :=
  match cs with
  | h :: d :: cs' => let '(ps, o) := pairs cs' in (Muxbuf h d :: ps, o)
  | [h] => ([], Some h)
  | [] => ([], None)
  end.
(** Whole buffers of pairs are processed; the rest waits. *)
Definition handled (ps : list muxbuf) : nat := (MUXBUFMAX * (length ps / MUXBUFMAX))%nat.
Lemma handled_few ps : (length ps < MUXBUFMAX)%nat -> handled ps = 0%nat.
Proof. intros H. unfold handled. rewrite Nat.div_small by done. lia. Qed.
Lemma handled_full ps qs : length ps = MUXBUFMAX -> handled (ps ++ qs) = (MUXBUFMAX + handled qs)%nat.
Proof.
  intros H. unfold handled. rewrite length_app, H. replace (MUXBUFMAX + length qs)%nat with (length qs + 1 * MUXBUFMAX)%nat by lia.
  rewrite Nat.div_add by done. unfold MUXBUFMAX. lia.
Qed.

Lemma mux_pairs u : forall n cs pe ls, (length cs <= n)%nat -> (length pe < MUXBUFMAX)%nat -> let '(ps, o) := pairs cs in let all := pe ++ ps in
  (mux_bytes u cs (Mux None pe ls)).1 = Mux o (drop (handled all) all) (mbprocess_loop u (take (handled all) all) ls).1.
Proof.
  induction n as [|n IH]; intros cs pe ls Hn Hpe; destruct cs as [|h [|d cs]]; try (cbn in Hn; lia).
  1-3: cbn [pairs]; rewrite app_nil_r, handled_few by done; done.
  cbn [pairs]. cbn in Hn. specialize (IH cs). destruct (pairs cs) as [ps o]. cbn [mux_bytes mux_byte cur pending lines].
  replace (pe ++ Muxbuf h d :: ps) with ((pe ++ [Muxbuf h d]) ++ ps) by (by rewrite <- app_assoc).
  destruct (Nat.leb_spec MUXBUFMAX (length (pe ++ [Muxbuf h d]))) as [Hfull|Hroom].
  - assert (length (pe ++ [Muxbuf h d]) = MUXBUFMAX) as Hl by (rewrite length_app in *; cbn in *; lia). rewrite (handled_full _ _ Hl), <- Hl.
    rewrite take_app_add, drop_app_add, mbprocess_app. unfold mbprocess. cbn [pending lines cur].
    destruct (mbprocess_loop u (pe ++ [Muxbuf h d]) ls) as [ls1 o1].
    specialize (IH [] ls1 ltac:(lia) ltac:(cbn; unfold MUXBUFMAX; lia)). cbn [app fst] in *.
    by destruct (mux_bytes u cs (Mux None [] ls1)) as [m2 o2].
  - specialize (IH (pe ++ [Muxbuf h d]) ls ltac:(lia) Hroom). by destruct (mux_bytes u cs (Mux None (pe ++ [Muxbuf h d]) ls)) as [m2 o2].
Qed.

(** The characters for line [i] among the pairs, and the line discipline on them. *)
Definition for_line (i : nat) (b : muxbuf) : bool := (mb_cmd (header b) =? 0xd) && bool_decide (mb_line (header b) = i).
Definition typed (i : nat) (ps : list muxbuf) : list Z := data <$> filter (fun b => for_line i b = true) ps.
Definition line_typed (cs : list Z) (d : discipline) : discipline := foldl (fun d c => (line_spec c d).1.1) d cs.
Lemma mb_line_lt h : (mb_line h < 16)%nat.
Proof.
  unfold mb_line. rewrite Z.shiftr_land. change (Z.shiftr 0xf0 4) with (Z.ones 4). rewrite Z.land_ones by lia.
  pose proof (Z.mod_pos_bound (Z.shiftr h 4) (2 ^ 4) ltac:(lia)). lia.
Qed.

Lemma pairs_lines u ps : forall ls ds, Forall2 rep ls ds -> length ls = NLINES -> Forall (fun b => 0 <= data b < 256) ps ->
  Forall2 rep (mbprocess_loop u ps ls).1 (imap (fun i d => line_typed (typed i ps) d) ds).
Proof.
  induction ps as [|b ps IH]; intros ls ds H Hl Hf.
  { cbn [mbprocess_loop fst]. assert (imap (fun i d => line_typed (typed i []) d) ds = ds) as ->; [|done].
    apply list_eq. intros j. rewrite list_lookup_imap. by destruct (ds !! j). }
  apply list.Forall_cons in Hf as [Hb Hf]. cbn [mbprocess_loop]. destruct (mb_cmd (header b) =? 0xd) eqn:Ec; cycle 1.
  { specialize (IH ls ds H Hl Hf). destruct (mbprocess_loop u ps ls) as [ls2 o2]. cbn [fst] in *.
    assert (imap (fun j d => line_typed (typed j (b :: ps)) d) ds = imap (fun j d => line_typed (typed j ps) d) ds) as ->; [|done].
    apply list_eq. intros j. rewrite !list_lookup_imap. destruct (ds !! j); [|done]. cbn [fmap option_fmap option_map]. f_equal. unfold typed.
    rewrite filter_cons_False; [done|]. unfold for_line. by rewrite Ec. }
  unfold writeline. set (i := mb_line (header b)). set (c := data b) in *.
  destruct (lookup_lt_is_Some_2 ls i) as [ib Hib]; [unfold NLINES in Hl; pose proof (mb_line_lt (header b)); unfold i; lia|]. rewrite Hib.
  destruct (Forall2_lookup_l _ _ _ _ _ H Hib) as (d & Hd & Hr). pose proof (line_key_refines c ib d Hr Hb) as K.
  destruct (line_key c ib) as [[ib1 e1] w1], (line_spec c d) as [[d1 e1'] w1'] eqn:Es. destruct K as (Hr1 & _).
  specialize (IH (<[i := ib1]> ls) (<[i := d1]> ds) ltac:(by apply Forall2_insert) ltac:(by rewrite length_insert) Hf).
  destruct (mbprocess_loop u ps (<[i := ib1]> ls)) as [ls2 o2]. cbn [fst] in *.
  assert (imap (fun j d => line_typed (typed j (b :: ps)) d) ds = imap (fun j d => line_typed (typed j ps) d) (<[i := d1]> ds)) as ->; [|done].
  apply list_eq. intros j. rewrite !list_lookup_imap. destruct (decide (j = i)) as [->|Hj].
  - rewrite list_lookup_insert_eq by (by eapply lookup_lt_Some). rewrite Hd. cbn [fmap option_fmap option_map]. f_equal. unfold typed, line_typed.
    rewrite filter_cons_True by (unfold for_line; rewrite Ec; by rewrite bool_decide_eq_true_2). cbn [fmap list_fmap foldl]. fold c. by rewrite Es.
  - rewrite list_lookup_insert_ne by done. destruct (ds !! j) as [x|]; [|done]. cbn [fmap option_fmap option_map]. f_equal. unfold typed.
    rewrite filter_cons_False; [done|]. unfold for_line. rewrite Ec, bool_decide_eq_false_2; [done|]. unfold i in Hj. congruence.
Qed.
Lemma pairs_bytes cs : Forall (fun c => 0 <= c < 256) cs -> Forall (fun b => 0 <= data b < 256) (pairs cs).1.
Proof.
  remember (length cs) as n eqn:E. revert cs E. induction (lt_wf n) as [n _ IH]. intros cs -> H.
  destruct cs as [|h [|d cs]]; [constructor|constructor|].
  apply list.Forall_cons in H as [_ H]. apply list.Forall_cons in H as [Hd H]. cbn [pairs]. specialize (IH (length cs) ltac:(cbn; lia) cs eq_refl H).
  destruct (pairs cs) as [ps o]. by constructor.
Qed.

(** What the loop of [muxintr] reads in [n] passes; -1, for no byte, becomes 0xff. *)
Definition mux_input (input : nat -> Z) (n : nat) : list Z := (fun i => u8 (input i)) <$> seq 0 n.
Lemma mux_input_S input n : mux_input input (S n) = u8 (input 0%nat) :: mux_input (fun i => input (S i)) n.
Proof. unfold mux_input. cbn [seq fmap list_fmap]. f_equal. rewrite <- fmap_S_seq, <- list_fmap_compose. done. Qed.
(** [muxintr] runs its loop for as many passes as there is fuel, and never comes
    out of it: an unsigned character is not -1. *)
Lemma muxintr_never_returns fuel : forall u input m, muxintr fuel u input m = None.
Proof.
  induction fuel as [|f IH]; intros u input m; cbn [muxintr]; [done|].
  assert ((u8 (input 0%nat) =? -1) = false) as -> by (apply Z.eqb_neq; pose proof (u8_range (input 0%nat)); lia).
  cbn [negb]. destruct (mux_byte u _ m) as [m1 o1]. by rewrite IH.
Qed.

(** C33: what the multiplexer does with its port.  [muxintr] never leaves its
    loop: where the port has no byte, the loop takes 0xff for one.  After any
    number of passes, whatever the port gave, the bytes taken are paired as header
    and data; the pairs are processed by whole buffers of [MUXBUFMAX], and the rest
    waits, with a last odd byte as a header.  Of the processed pairs each line has
    received exactly the data of those with its number and the command 0xd in the
    header, in their order, and is what its line discipline makes of them typed
    alone. *)
Theorem mux_sorts_bytes u input n m ds : cur m = None -> pending m = [] -> length (lines m) = NLINES -> Forall2 rep (lines m) ds ->
  (forall fuel, muxintr fuel u input m = None) /\
  let '(ps, o) := pairs (mux_input input n) in
  let m' := (mux_bytes u (mux_input input n) m).1 in
  cur m' = o /\ pending m' = drop (handled ps) ps /\ Forall2 rep (lines m') (imap (fun i d => line_typed (typed i (take (handled ps) ps)) d) ds).
Proof.
  intros Hc Hp Hl Hr. split; [intros fuel; apply muxintr_never_returns|]. destruct m as [cu pe ls]. cbn [cur pending lines] in *. subst cu pe.
  pose proof (mux_pairs u (length (mux_input input n)) (mux_input input n) [] ls ltac:(done) ltac:(cbn; unfold MUXBUFMAX; lia)) as H.
  assert (Forall (fun c => 0 <= c < 256) (mux_input input n)) as Hb by (apply list.Forall_fmap, list.Forall_forall; intros i _; apply u8_range).
  apply pairs_bytes in Hb. destruct (pairs (mux_input input n)) as [ps o]. cbn [app fst] in *. rewrite H. cbn [cur pending lines]. split; [done|].
  split; [done|].
  apply pairs_lines; [done|done|by apply Forall_take].
Qed.
Definition sample_mux : mux := Mux None [] (replicate 16 sample_ib).
(** [a] on line 3, [b] on line 5, a newline on line 3, and then nothing. *)
Definition sample_input (i : nat) : Z := default (-1) ([0x3d; 97; 0x5d; 98; 0x3d; 10] !! i).
Lemma mux_sorts_bytes_witness :
  (forall fuel, muxintr fuel false sample_input sample_mux = None) /\
  exists i3 i5, lines (mux_bytes false (mux_input sample_input 128) sample_mux).1 !! 3%nat = Some i3 /\
    lines (mux_bytes false (mux_input sample_input 128) sample_mux).1 !! 5%nat = Some i5 /\ rep i3 (Disc [97; 10] []) /\ rep i5 (Disc [] [98]).
Proof.
  assert (Forall2 rep (replicate 16 sample_ib) (replicate 16 (Disc [] []))) as Hr by (repeat constructor; apply sample_rep).
  destruct (mux_sorts_bytes false sample_input 128 sample_mux (replicate 16 (Disc [] [])) eq_refl eq_refl eq_refl Hr) as [HN H]. split; [done|].
  destruct (pairs (mux_input sample_input 128)) as [ps o] eqn:Ep. destruct H as (_ & _ & H). vm_compute in Ep. injection Ep as <- <-.
  destruct (Forall2_lookup_r _ _ _ 3%nat (Disc [97; 10] []) H) as (i3 & H3 & R3); [vm_compute; reflexivity|].
  destruct (Forall2_lookup_r _ _ _ 5%nat (Disc [] [98]) H) as (i5 & H5 & R5); [vm_compute; reflexivity|]. exists i3, i5.
  exact (conj H3 (conj H5 (conj R3 R5))).
Defined.

(** What [muxwrite] sends for a line is frames of that line. *)
Lemma muxwrite_frames minor buf : (minor < 16)%nat -> Forall (fun b => 0 <= b < 256) buf ->
  muxwrite false (Z.of_nat minor) buf = Some (concat (frame_bytes <$> ((fun b => (minor, b)) <$> buf))).
Proof.
  intros Hm Hb. unfold muxwrite. rewrite (proj2 (Z.leb_gt 16 (Z.of_nat minor))) by lia. f_equal. f_equal. rewrite <- list_fmap_compose.
  apply list_fmap_ext.
  intros i b Hi. cbn. unfold frame_bytes. cbn [fst snd]. f_equal. rewrite list.Forall_forall in Hb.
  specialize (Hb b (list_elem_of_lookup_2 _ _ _ Hi)).
  change 0xff with (Z.ones 8). rewrite Z.land_ones by lia. by apply Z.mod_small.
Qed.

