(* ===== verification/Ide.v ===== *)
(** The disk driver ([ide.c]): the queue of requests, the task file, and the
    interrupt handler.

    The routines hold [idelock].  [iderw] is split at its [sleep]: the request,
    and the test its caller wakes up to.  The drive is modelled by its task-file
    registers: it decodes them when it executes the command. *)

From S2P Require Import Prelude Params Bio.
Import Cache.

Definition IDE_CMD_READ : Z := 0x20.
Definition IDE_CMD_WRITE : Z := 0x30.
Definition SECTOR_SIZE : Z := 512.

(** Ports 0x1f2-0x1f7, and the data port for a write. *)
Record regs := Regs { r_count : Z; r_lba0 : Z; r_lba1 : Z; r_lba2 : Z; r_dev : Z; r_cmd : Z; r_data : block }.
Record ide := Ide {
  i_bufs : list buf;
  i_queue : list nat;            (* from idequeue, through qnext *)
  i_drive : gmap (Z * Z) block;  (* what the two drives hold, by sector *)
  i_cmd : option regs            (* the command the controller is executing *)
}.

Section ide.
(** [realdisk] of [disk.c]: the drive of a disk. *)
Context (real : Z -> Z).

(** The registers [idestart] sets for a buffer. *)
Definition task_file (b : buf) : regs :=
  let sector_per_block := Z.of_nat BSIZE / SECTOR_SIZE in
  let sector := blockno b * sector_per_block in
  let w := has (flags b) B_DIRTY in
  {| r_count := sector_per_block;
     r_lba0 := Z.land sector 0xff;
     r_lba1 := Z.land (Z.shiftr sector 8) 0xff;
     r_lba2 := Z.land (Z.shiftr sector 16) 0xff;
     r_dev := Z.lor (Z.lor 0xe0 (Z.shiftl (Z.land (real (dev b)) 1) 4)) (Z.land (Z.shiftr sector 24) 0x0f);
     r_cmd := if w then IDE_CMD_WRITE else IDE_CMD_READ;
     r_data := if w then data b else [] |}.

Definition idestart (i : nat) : M ide unit := fun s =>
  match i_bufs s !! i with
  | None => Panic "idestart" s
  | Some b =>
    if FSSIZE <=? blockno b then Panic "incorrect blockno" s else
    if 7 <? Z.of_nat BSIZE / SECTOR_SIZE then Panic "idestart" s else
    Ok tt (Ide (i_bufs s) (i_queue s) (i_drive s) (Some (task_file b)))
  end.

(** The request of [iderw]. *)
Definition iderw (i : nat) : M ide unit := fun s =>
  match i_bufs s !! i with
  | None => Panic "no such buffer" s
  | Some b =>
    if negb (has (flags b) B_BUSY) then Panic "iderw: buf not busy" s else
    if Z.land (flags b) (Z.lor B_VALID B_DIRTY) =? B_VALID then Panic "iderw: nothing to do" s else
    let s1 := Ide (i_bufs s) (i_queue s ++ [i]) (i_drive s) (i_cmd s) in
    match i_queue s with [] => idestart i s1 | _ => Ok tt s1 end
  end.
(** [while((b->flags & (B_VALID|B_DIRTY)) != B_VALID) sleep(b, &idelock)] *)
Definition iderw_done (i : nat) (s : ide) : bool :=
  match i_bufs s !! i with Some b => Z.land (flags b) (Z.lor B_VALID B_DIRTY) =? B_VALID | None => false end.

(** Where the drive looks. *)
Definition decode_unit (r : regs) : Z := Z.land (Z.shiftr (r_dev r) 4) 1.
Definition decode_lba (r : regs) : Z :=
  Z.lor (Z.lor (r_lba0 r) (Z.shiftl (r_lba1 r) 8)) (Z.lor (Z.shiftl (r_lba2 r) 16) (Z.shiftl (Z.land (r_dev r) 0x0f) 24)).
(** The controller finishes the command: a write reaches the drive.  Then it
    raises the interrupt. *)
Definition finish (s : ide) : ide :=
  match i_cmd s with
  | Some r => if r_cmd r =? IDE_CMD_WRITE then Ide (i_bufs s) (i_queue s) (<[(decode_unit r, decode_lba r) := r_data r]> (i_drive s)) (i_cmd s) else s
  | None => s
  end.
(** The words [insl] reads after a command. *)
Definition data_port (s : ide) : block :=
  match i_cmd s with Some r => default zero_block (i_drive s !! (decode_unit r, decode_lba r)) | None => zero_block end.

(** [good] is the result of [idewait(1)]. *)
Definition ideintr (good : bool) : M ide unit := fun s =>
  match i_queue s with
  | [] => Ok tt s
  | i :: q =>
    match i_bufs s !! i with
    | None => Panic "no such buffer" s
    | Some b =>
      let b1 := if negb (has (flags b) B_DIRTY) && good then set_data (data_port s) b else b in
      let b2 := set_flags (clrf (setf (flags b1) B_VALID) B_DIRTY) b1 in
      let s1 := Ide (<[i := b2]> (i_bufs s)) q (i_drive s) None in
      match q with [] => Ok tt s1 | j :: _ => idestart j s1 end
    end
  end.

(** What happens to the driver: requests, interrupts of the controller, and
    changes its clients make to buffers that are not queued.  An interrupt comes
    when the controller has executed the command ([good]), or when the drive
    reports an error or a fault and nothing was transferred. *)
Inductive event := Request (i : nat) | Interrupt (good : bool) | Touch (i : nat) (b : buf).
Definition ide_event (e : event) : M ide unit :=
  match e with
  | Request i => iderw i
  | Interrupt good => modify (fun s => if good then finish s else s) ;; ideintr good
  | Touch i b => modify (fun s => Ide (<[i := b]> (i_bufs s)) (i_queue s) (i_drive s) (i_cmd s))
  end.

(** ** The driver serves requests one at a time, in order *)

Context (present : Z -> bool).
Hypothesis drives_differ : forall d d', present d = true -> present d' = true -> Z.land (real d) 1 = Z.land (real d') 1 -> d = d'.

Lemma land_1 x : Z.land x 1 = 0 \/ Z.land x 1 = 1.
Proof. assert (Z.land x 1 = x mod 2) as -> by (change 1 with (Z.ones 1); by rewrite Z.land_ones by lia). dlia. Qed.

(** The drive finds the sector the driver meant. *)
Lemma task_file_decodes b : 0 <= blockno b < FSSIZE -> decode_unit (task_file b) = Z.land (real (dev b)) 1 /\ decode_lba (task_file b) = blockno b.
Proof.
  intros H. set (mk := fun n u => Regs 1 (Z.land n 0xff) (Z.land (Z.shiftr n 8) 0xff) (Z.land (Z.shiftr n 16) 0xff)
    (Z.lor (Z.lor 0xe0 (Z.shiftl u 4)) (Z.land (Z.shiftr n 24) 0x0f)) 0 []).
  assert (forallb (fun n => forallb (fun u => (decode_unit (mk n u) =? u) && (decode_lba (mk n u) =? n)) [0; 1]) (seqZ 0 FSSIZE) = true) as HF by (vm_compute; reflexivity).
  rewrite forallb_forall in HF. specialize (HF (blockno b) ltac:(apply list_elem_of_In, elem_of_seqZ; lia)). rewrite forallb_forall in HF.
  specialize (HF (Z.land (real (dev b)) 1) ltac:(cbn; destruct (land_1 (real (dev b))); auto)). apply andb_true_iff in HF as [H1 H2].
  apply Z.eqb_eq in H1, H2.
  unfold task_file. change (Z.of_nat BSIZE / SECTOR_SIZE) with 1. rewrite Z.mul_1_r. by split.
Qed.

Definition request_ok (b : buf) : Prop := present (dev b) = true /\ has (flags b) B_BUSY = true /\
  (Z.land (flags b) (Z.lor B_VALID B_DIRTY) =? B_VALID) = false /\ 0 <= blockno b < FSSIZE.

(** The driver's state, and that of the disk as its callers see it. *)
Record sim (c : ide) (a : bstate) : Prop := {
  sm_bufs : bufs a = i_bufs c;
  sm_budget : budget a = None;
  sm_media : forall d n, present d = true -> 0 <= n < FSSIZE ->
    default zero_block (i_drive c !! (Z.land (real d) 1, n)) = default zero_block (media a !! (d, n));
  sm_nodup : NoDup (i_queue c);
  sm_queue : forall i, i ∈ i_queue c -> exists b, i_bufs c !! i = Some b /\ request_ok b;
  sm_cmd : i_cmd c = match i_queue c with [] => None | i :: _ => task_file <$> i_bufs c !! i end;
}.

Lemma idestart_run i b s : i_bufs s !! i = Some b -> blockno b < FSSIZE -> idestart i s = Ok tt (Ide (i_bufs s) (i_queue s) (i_drive s) (Some (task_file b))).
Proof. intros E H. unfold idestart. rewrite E, (proj2 (Z.leb_gt FSSIZE (blockno b)) H). done. Qed.

Lemma request_sim c a i b : sim c a -> i_bufs c !! i = Some b -> request_ok b -> (i ∉ i_queue c) ->
  exists c', iderw i c = Ok tt c' /\ sim c' a /\ i_queue c' = i_queue c ++ [i] /\ i_bufs c' = i_bufs c.
Proof.
  intros [S1 S2 S3 S4 S5 S6] Hb Hok Hni. pose proof Hok as (O1 & O2 & O3 & O4). unfold iderw. rewrite Hb, O2, O3. cbn [negb].
  assert (NoDup (i_queue c ++ [i])) as Hnd.
  { apply list.NoDup_app. split_and!; [done|intros x Hx ->%list_elem_of_singleton; done|apply NoDup_singleton]. }
  assert (forall j, j ∈ i_queue c ++ [i] -> exists b, i_bufs c !! j = Some b /\ request_ok b) as Hq.
  { intros j [Hj| ->%list_elem_of_singleton]%elem_of_app; [by apply S5|by exists b]. }
  destruct (i_queue c) as [|j q] eqn:Eq.
  - rewrite (idestart_run i b) by (cbn [i_bufs]; first [done|lia]). eexists. split; [reflexivity|]. cbn [i_queue i_bufs]. split_and!; [|done|done].
    split; cbn [i_bufs i_queue i_drive i_cmd]; try done. cbn. by rewrite Hb.
  - eexists. split; [reflexivity|]. cbn [i_queue i_bufs]. split_and!; [|done|done]. by split.
Qed.

(** Starting the next request. *)
Lemma next_sim s1 a' : i_cmd s1 = None -> bufs a' = i_bufs s1 -> budget a' = None ->
  (forall d n, present d = true -> 0 <= n < FSSIZE -> default zero_block (i_drive s1 !! (Z.land (real d) 1, n)) = default zero_block (media a' !! (d, n))) ->
  NoDup (i_queue s1) -> (forall i, i ∈ i_queue s1 -> exists b, i_bufs s1 !! i = Some b /\ request_ok b) ->
  exists c', (match i_queue s1 with [] => Ok tt s1 | j :: _ => idestart j s1 end) = Ok tt c' /\ sim c' a' /\ i_queue c' = i_queue s1 /\ i_bufs c' = i_bufs s1.
Proof.
  intros Hc S1 S2 S3 S4 S5. destruct s1 as [bs q dr cm]. cbn [i_bufs i_queue i_drive i_cmd] in *. subst cm. destruct q as [|j q].
  - eexists. split; [reflexivity|]. split; [|done]. by split.
  - destruct (S5 j ltac:(by left)) as (b & Hb & Hok). pose proof Hok as (_ & _ & _ & O4).
    rewrite (idestart_run j b) by (cbn [i_bufs]; first [done|lia]).
    eexists. split; [reflexivity|]. cbn [i_bufs i_queue i_drive]. split; [|done]. split; cbn [i_bufs i_queue i_drive i_cmd]; try done. by rewrite Hb.
Qed.
Lemma completed_flags f : (Z.land (clrf (setf f B_VALID) B_DIRTY) (Z.lor B_VALID B_DIRTY) =? B_VALID) = true.
Proof.
  apply Z.eqb_eq. unfold clrf, setf, B_VALID, B_DIRTY. apply Z.bits_inj'. intros n Hn.
  rewrite Z.land_spec, Z.ldiff_spec, !Z.lor_spec, !Z.pow2_bits_eqb by lia.
  destruct (Z.eqb_spec 1 n) as [<-|H1]; [cbn; by rewrite orb_true_r|]. destruct (Z.eqb_spec 2 n) as [<-|H2]; cbn [orb negb]; by rewrite ?andb_false_r.
Qed.

(** What a step does at the level of the buffer cache: nothing, a whole disk
    operation, one that failed, or a change of a buffer.  The driver does not tell
    its caller of a failure: the buffer is marked valid and clean, with the bytes
    it had, and the disk is as it was. *)
Inductive aop := Serve (i : nat) (good : bool) | Change (i : nat) (b : buf).
Definition lost (b : buf) : buf := set_flags (clrf (setf (flags b) B_VALID) B_DIRTY) b.
Definition aop_run (o : aop) : M bstate unit :=
  match o with
  | Serve i true => diskrw present i
  | Serve i false => modify (fun a => match bufs a !! i with Some b => set_buf i (lost b) a | None => a end)
  | Change i b => modify (set_buf i b)
  end.

Lemma interrupt_sim c a i q : sim c a -> i_queue c = i :: q ->
  exists c' a', ide_event (Interrupt true) c = Ok tt c' /\ diskrw present i a = Ok tt a' /\ sim c' a' /\ i_queue c' = q /\ iderw_done i c' = true.
Proof.
  intros [S1 S2 S3 S4 S5 S6] Eq. rewrite Eq in *. destruct (S5 i ltac:(by left)) as (b & Hb & O1 & O2 & O3 & O4). rewrite Hb in S6. cbn in S6.
  destruct (task_file_decodes b O4) as [E1 E2]. apply list.NoDup_cons in S4 as [Hni Hnd].
  assert (forall b2 j, j ∈ q -> <[i := b2]> (i_bufs c) !! j = i_bufs c !! j) as Hother by (intros b2 j Hj; apply list_lookup_insert_ne; intros ->; done).
  unfold ide_event, diskrw. rewrite S1, Hb, O1, O2, O3, (proj2 (Z.leb_gt FSSIZE (blockno b))) by lia. cbn [negb].
  cbv [mbind M_bind modify]. unfold finish, ideintr. rewrite S6.
  change (r_cmd (task_file b)) with (if has (flags b) B_DIRTY then IDE_CMD_WRITE else IDE_CMD_READ).
  destruct (has (flags b) B_DIRTY) eqn:Ed.
  - change (IDE_CMD_WRITE =? IDE_CMD_WRITE) with true. cbn iota. cbn [i_queue i_bufs i_drive i_cmd]. rewrite Eq, Hb, Ed, S2. cbn [negb andb].
    assert (r_data (task_file b) = data b) as -> by (unfold task_file; by rewrite Ed). rewrite E1, E2.
    set (b2 := set_flags _ _). set (a' := BState (<[i := b2]> (i_bufs c)) (lru a) (<[b_key b := data b]> (media a)) None).
    destruct (next_sim (Ide (<[i := b2]> (i_bufs c)) q (<[(Z.land (real (dev b)) 1, blockno b) := data b]> (i_drive c)) None) a')
      as (c' & En & Hs & Hq & Hbs); [| | | | | |exists c', a'; split; [exact En|]; split; [reflexivity|]]; cbn [i_bufs i_queue i_drive i_cmd bufs budget media] in *; try done.
    + intros d n Hd Hn. unfold a', b_key. cbn [media].
      destruct (decide ((d, n) = (dev b, blockno b))) as [[= -> ->]|Hne]; [by rewrite !lookup_insert_eq|].
      rewrite lookup_insert_ne, (lookup_insert_ne (media a)); [by apply S3|congruence|]. intros [= Hu Hn2]. apply Hne. rewrite Hn2. f_equal.
      apply drives_differ; [done|done|by rewrite Hu].
    + intros j Hj. rewrite Hother by done. apply S5. by right.
    + split; [done|]. split; [done|]. unfold iderw_done. rewrite Hbs, list_lookup_insert_eq by (by eapply lookup_lt_Some). apply completed_flags.
  - change (IDE_CMD_READ =? IDE_CMD_WRITE) with false. cbn iota. rewrite Eq, Hb, Ed. cbn [negb andb]. unfold data_port.
    rewrite S6, E1, E2, S3 by done.
    set (b2 := set_flags _ _). destruct (next_sim (Ide (<[i := b2]> (i_bufs c)) q (i_drive c) None) (set_buf i b2 a))
      as (c' & En & Hs & Hq & Hbs); [| | | | | |exists c', (set_buf i b2 a); split; [exact En|]; split; [reflexivity|]]; cbn [i_bufs i_queue i_drive i_cmd bufs budget media set_buf] in *; try done.
    + by rewrite S1.
    + intros j Hj. rewrite Hother by done. apply S5. by right.
    + split; [done|]. split; [done|]. unfold iderw_done. rewrite Hbs, list_lookup_insert_eq by (by eapply lookup_lt_Some). apply completed_flags.
Qed.

(** A failed command. *)
Lemma failed_sim c a i q : sim c a -> i_queue c = i :: q ->
  exists c' a', ide_event (Interrupt false) c = Ok tt c' /\ aop_run (Serve i false) a = Ok tt a' /\ sim c' a' /\ i_queue c' = q /\ iderw_done i c' = true.
Proof.
  intros [S1 S2 S3 S4 S5 S6] Eq. rewrite Eq in *. destruct (S5 i ltac:(by left)) as (b & Hb & _). apply list.NoDup_cons in S4 as [Hni Hnd].
  cbv [ide_event mbind M_bind modify aop_run]. unfold ideintr. rewrite Eq, S1, Hb, andb_false_r. fold (lost b).
  destruct (next_sim (Ide (<[i := lost b]> (i_bufs c)) q (i_drive c) None) (set_buf i (lost b) a))
    as (c' & En & Hs & Hq & Hbs); cbn [i_bufs i_queue i_drive i_cmd bufs budget media set_buf] in *; try done.
  - by rewrite S1.
  - intros j Hj. rewrite list_lookup_insert_ne by (intros ->; done). apply S5. by right.
  - exists c', (set_buf i (lost b) a). split_and!; [done|done|done|done|].
    unfold iderw_done. rewrite Hbs, list_lookup_insert_eq by (by eapply lookup_lt_Some). apply completed_flags.
Qed.

Lemma touch_sim c a i b : sim c a -> (i ∉ i_queue c) ->
  exists c', ide_event (Touch i b) c = Ok tt c' /\ sim c' (set_buf i b a) /\ i_queue c' = i_queue c.
Proof.
  intros [S1 S2 S3 S4 S5 S6] Hi. eexists. split; [reflexivity|]. split; [|done].
  split; cbn [i_bufs i_queue i_drive i_cmd bufs budget media set_buf]; try done.
  - by rewrite S1.
  - intros j Hj. rewrite list_lookup_insert_ne by (intros ->; done). by apply S5.
  - destruct (i_queue c) as [|j q]; [done|]. rewrite list_lookup_insert_ne; [done|]. intros ->. apply Hi. by left.
Qed.

(** ** The driver as its callers see it *)

Definition aops (e : event) (c : ide) : list aop :=
  match e with
  | Request _ => []
  | Interrupt good => match i_queue c with [] => [] | i :: _ => [Serve i good] end
  | Touch i b => [Change i b]
  end.
Fixpoint ide_run (es : list event) : M ide (list aop) :=
  match es with
  | [] => mret []
  | e :: es' => c ← get; ide_event e ;; l ← ide_run es'; mret (aops e c ++ l)
  end.

(** A request is of a buffer that may be passed to [iderw] and is not queued
    already; clients leave queued buffers alone. *)
Definition event_ok (e : event) (c : ide) : Prop :=
  match e with
  | Request i => (i ∉ i_queue c) /\ exists b, i_bufs c !! i = Some b /\ request_ok b
  | Interrupt _ => True
  | Touch i _ => i ∉ i_queue c
  end.
Fixpoint events_ok (es : list event) (c : ide) : Prop :=
  match es with
  | [] => True
  | e :: es' => event_ok e c /\ forall c', ide_event e c = Ok tt c' -> events_ok es' c'
  end.

(** The buffers requested, and the buffers served. *)
Definition requested (es : list event) : list nat := omap (fun e => match e with Request i => Some i | _ => None end) es.
Definition served (l : list aop) : list nat := omap (fun o => match o with Serve i _ => Some i | _ => None end) l.

(** An interrupt serves the head of the queue. *)
Lemma served_sim good c a : sim c a ->
  exists c' a', ide_event (Interrupt good) c = Ok tt c' /\ for_each (aops (Interrupt good) c) aop_run a = Ok tt a' /\ sim c' a' /\
    i_queue c = served (aops (Interrupt good) c) ++ i_queue c'.
Proof.
  intros H. cbn [aops]. destruct (i_queue c) as [|i q] eqn:Eq.
  - exists c, a. split_and!; [|done|done|by rewrite Eq]. destruct H as [_ _ _ _ _ S6]. rewrite Eq in S6.
    cbv [ide_event mbind M_bind modify]. unfold finish, ideintr. destruct good; by rewrite ?S6, Eq.
  - assert (exists c' a', ide_event (Interrupt good) c = Ok tt c' /\ aop_run (Serve i good) a = Ok tt a' /\ sim c' a' /\ i_queue c' = q) as (c' & a' & E1 & E2 & H' & Hq).
    { destruct good; [destruct (interrupt_sim c a i q H Eq) as (c' & a' & ? & ? & ? & ? & _)|destruct (failed_sim c a i q H Eq) as (c' & a' & ? & ? & ? & ? & _)]; by exists c', a'.
      }
    exists c', a'. split_and!; [done| |done|by rewrite Hq]. cbn [for_each]. by erewrite bind_ok by exact E2.
Qed.
Lemma event_sim e c a : sim c a -> event_ok e c ->
  exists c' a', ide_event e c = Ok tt c' /\ for_each (aops e c) aop_run a = Ok tt a' /\ sim c' a' /\
    i_queue c ++ requested [e] = served (aops e c) ++ i_queue c'.
Proof.
  intros H He. destruct e as [i|good|i b].
  - destruct He as (Hi & b & Hb & Hok). destruct (request_sim c a i b H Hb Hok Hi) as (c' & E & H' & Hq & _). by exists c', a.
  - destruct (served_sim good c a H) as (c' & a' & E1 & E2 & H' & Hq). exists c', a'. split_and!; [done|done|done|]. cbn [requested omap list_omap].
    by rewrite app_nil_r.
  - destruct (touch_sim c a i b H He) as (c' & E & H' & Hq). exists c', (set_buf i b a). split_and!; [done|done|done|]. cbn. by rewrite Hq, app_nil_r.
Qed.
Lemma for_each_app {S A} (l1 l2 : list A) (f : A -> M S unit) s s' : for_each l1 f s = Ok tt s' -> for_each (l1 ++ l2) f s = for_each l2 f s'.
Proof.
  revert s. induction l1 as [|x l1 IH]; intros s H; cbn in *; [by injection H as ->|]. apply bind_inv in H as ([] & s1 & E & H).
  erewrite bind_ok by exact E. by apply IH.
Qed.

(** C34: the queue and the interrupt handler implement the atomic disk operation
    the buffer cache is built on: however requests of buffers that may be
    requested, interrupts of commands executed or failed, and the clients' changes
    of buffers that are not queued interleave, the driver never panics and its
    effect is that of whole operations, each marking its buffer valid: a disk
    operation for a command executed, and nothing else for one that failed.  The
    buffers served, in order, and then those still queued, are the buffers queued
    at the start and then those requested since, in the order of the requests. *)
Theorem ide_refines_diskrw es : forall c a, sim c a -> events_ok es c ->
  exists l c' a', ide_run es c = Ok l c' /\ for_each l aop_run a = Ok tt a' /\ sim c' a' /\
    i_queue c ++ requested es = served l ++ i_queue c'.
Proof.
  induction es as [|e es IH]; intros c a H Hok; cbn [ide_run events_ok] in *; [exists [], c, a; cbn; by rewrite app_nil_r|]. destruct Hok as [He Hok].
  destruct (event_sim e c a H He) as (c1 & a1 & E1 & F1 & H1 & Q1). destruct (IH c1 a1 H1 (Hok c1 E1)) as (l & c2 & a2 & E2 & F2 & H2 & Q2).
  exists (aops e c ++ l), c2, a2. split_and!; [|by rewrite (for_each_app _ _ _ _ _ F1)|done|].
  - erewrite bind_ok by reflexivity. erewrite bind_ok by exact E1. by erewrite bind_ok by exact E2.
  - unfold requested, served in *. change (e :: es) with ([e] ++ es). rewrite !omap_app, !app_assoc, Q1, <- !app_assoc. by rewrite Q2.
Qed.
End ide.

Module IdeSample.
(** Two drives: a write of block 7 of the first, and behind it two reads of the
    second.  The first read fails. *)
Definition b0 : buf := Buf (Z.lor B_BUSY B_DIRTY) 0 7 (replicate 512 5).
Definition b1 : buf := Buf B_BUSY 1 9 [].
Definition b2 : buf := Buf B_BUSY 1 10 [].
Definition drives : gmap (Z * Z) block := {[ (1, 9) := replicate 512 6; (1, 10) := replicate 512 8 ]}.
Definition start : ide := Ide [b0; b1; b2] [] drives None.
Definition abs : bstate := BState [b0; b1; b2] [] drives None.
Definition present (d : Z) : bool := (d =? 0) || (d =? 1).
Definition three : list event := [Request 0; Request 1; Interrupt true; Request 2; Interrupt false; Interrupt true].

Lemma start_sim : sim (fun d => d) present start abs.
Proof.
  split; [done|done| |constructor|intros i Hi; by apply elem_of_nil in Hi|done]. intros d n Hd Hn. unfold present in Hd. apply orb_true_iff in Hd.
  rewrite !Z.eqb_eq in Hd.
  by destruct Hd as [->| ->].
Qed.
Lemma ide_refines_diskrw_witness : exists l c' a', ide_run (fun d => d) three start = Ok l c' /\
  l = [Serve 0 true; Serve 1 false; Serve 2 true] /\ for_each l (aop_run present) abs = Ok tt a' /\ sim (fun d => d) present c' a' /\
  [0; 1; 2]%nat = served l ++ i_queue c'.
Proof.
  destruct (ide_refines_diskrw (fun d => d) present ltac:(intros d d' H H'; unfold present in *; apply orb_true_iff in H, H'; rewrite !Z.eqb_eq in *; destruct H as [->| ->], H' as [->| ->]; done)
    three start abs start_sim) as (l & c' & a' & E & F & H & Q).
  - cbn [three events_ok event_ok]. repeat (split; [|intros c' Hc; vm_compute in Hc; injection Hc as <-]); try done.
    + split; [apply not_elem_of_nil|]. exists b0. split; [done|]. by split_and!.
    + split; [by intros [=]%list_elem_of_singleton|]. eexists. split; [reflexivity|]. by split_and!.
    + split; [by intros [=]%list_elem_of_singleton|]. eexists. split; [reflexivity|]. by split_and!.
  - exists l, c', a'. split_and!; [done| |done|done|done]. clear F H Q. vm_compute in E. congruence.
Defined.

(** When the drive reports an error the handler skips the read but marks the
    buffer valid all the same. *)
Lemma read_error_is_ignored :
  match ide_run (fun d => d) [Request 1; Interrupt false] start with
  | Ok _ c => (fun b => (has (flags b) B_VALID, data b)) <$> i_bufs c !! 1%nat = Some (true, [])
  | _ => False
  end.
Proof. vm_compute. done. Qed.
End IdeSample.
