(* ===== verification/Exec.v ===== *)
(** Program loading ([exec.c], [loaduvm] of [vm.c], [sys_exec] of [sysfile.c]).

    [exec] works on the kernel's tables and on page tables at once, so it runs on
    a pair of memories: [xk], the tables of Kernel.v, and [xp], the pages of Vm.v.
    A page directory is named by its address.  [switchuvm], which loads processor
    registers, is left out. *)

From S2P Require Import Prelude Params CString Bio Disk Log Fs FsOps FsData Kernel File Proc Syscall Alloc Vm VmFacts.
Import BlockIO.

Record xmem := XMem { xk : kmem; xp : kpages }.
Definition on_k {A} (p : K A) : prog xmem A := zoom xk (fun k x => XMem k (xp x)) p.
Definition on_vm {A} (c : M kpages A) : prog xmem A :=
  Get (fun x => match c (xp x) with
                | Ok v s => Put (XMem (xk x) s) (Ret v)
                | Panic m s => Put (XMem (xk x) s) (Fail m)
                | Blocked s | PowerFail s => Put (XMem (xk x) s) Sleep
                end).

(** ** ELF files *)

Definition ELF_MAGIC : Z := 0x464C457F.
Definition ELF_PROG_LOAD : Z := 1.
Definition MAXARG : nat := 32.
Record elfhdr := Elfhdr { magic : Z; entry : Z; phoff : Z; phnum : Z }.
Definition ELFHDR_SIZE : Z := 52.
Definition decode_elfhdr (d : list Z) : elfhdr :=
  {| magic := load_le d 0 4; entry := load_le d 24 4; phoff := load_le d 28 4; phnum := load_le d 44 2 |}.
Record proghdr := Proghdr { ph_type : Z; ph_off : Z; ph_vaddr : Z; ph_filesz : Z; ph_memsz : Z }.
Definition PROGHDR_SIZE : Z := 32.
Definition decode_proghdr (d : list Z) : proghdr :=
  {| ph_type := load_le d 0 4; ph_off := load_le d 4 4; ph_vaddr := load_le d 8 4; ph_filesz := load_le d 16 4; ph_memsz := load_le d 20 4 |}.

Section exec.
Context (devsw_read : Z -> option (nat -> Z -> Z -> prog kfs (Z * list Z))).
Context (kend kdata : Z).

Definition xreadi (i : nat) (off n : Z) : prog xmem (Z * list Z) := on_k (on_fs (readi devsw_read i off n)).

(** ** [loaduvm] *)

(** The loop; the fuel is the number of pages of the segment. *)
Fixpoint loaduvm_loop (fuel : nat) (pgdir addr : Z) (ip : nat) (offset sz i : Z) : prog xmem Z :=
  match fuel with
  | O => fail "loaduvm: out of fuel"
  | S f =>
    if i <? sz then
      o ← on_vm (walkpgdir pgdir (u32 (addr + i)) false);
      match o with
      | None => fail "loaduvm: address should exist"
      | Some pte =>
        e ← on_vm (ldw pte);
        let pa := PTE_ADDR e in
        let n := if u32 (sz - i) <? PGSIZE then u32 (sz - i) else PGSIZE in
        '(r, bs) ← xreadi ip (u32 (offset + i)) n;
        on_vm (on_mem (st_bytes (p2v pa) bs)) ;;
        if negb (u32 r =? n) then mret (-1) else loaduvm_loop f pgdir addr ip offset sz (u32 (i + PGSIZE))
      end
    else mret 0
  end.
Definition loaduvm (pgdir addr : Z) (ip : nat) (offset sz : Z) : prog xmem Z :=
  if negb (addr mod PGSIZE =? 0) then fail "loaduvm: addr must be page aligned" else
  loaduvm_loop (Z.to_nat (sz / PGSIZE) + 2) pgdir addr ip offset sz 0.

(** ** [exec] *)

(** The loop over the program headers: the new size, or [None] for [goto bad]. *)
Fixpoint load_segments (n : nat) (ip : nat) (pgdir off sz : Z) : prog xmem (option Z) :=
  match n with
  | O => mret (Some sz)
  | S n' =>
    '(r, d) ← xreadi ip (u32 off) PROGHDR_SIZE;
    if negb (u32 r =? PROGHDR_SIZE) then on_k (seterr "EPBADHEADERREAD") ;; mret None else
    let ph := decode_proghdr d in
    let off' := s32 (off + PROGHDR_SIZE) in
    if negb (ph_type ph =? ELF_PROG_LOAD) then load_segments n' ip pgdir off' sz else
    if ph_memsz ph <? ph_filesz ph then on_k (seterr "EPFILETOOBIG") ;; mret None else
    sz' ← on_vm (allocuvm kend pgdir sz (u32 (ph_vaddr ph + ph_memsz ph)));
    if sz' =? 0 then on_k (seterr "EKBADUVMALLOC") ;; mret None else
    l ← loaduvm pgdir (ph_vaddr ph) ip (ph_off ph) (ph_filesz ph);
    if l <? 0 then on_k (seterr "EKBADUVMLOAD") ;; mret None else
    load_segments n' ip pgdir off' sz'
  end.

(** The argument strings, from the top of the stack down: where they are and the
    stack pointer, or [None] for [goto bad]. *)
Fixpoint push_args (argc : nat) (pgdir sp : Z) (argv : list (list Z)) : prog xmem (option (list Z * Z)) :=
  match argv with
  | [] => mret (Some ([], sp))
  | s :: argv' =>
    if (MAXARG <=? argc)%nat then on_k (seterr "EPTOOMANYARGS") ;; mret None else
    let sp := Z.ldiff (u32 (sp - (Z.of_nat (length s) + 1))) 3 in
    r ← on_vm (copyout pgdir sp (s ++ [0]));
    if r <? 0 then mret None else
    o ← push_args (S argc) pgdir sp argv';
    match o with None => mret None | Some (ptrs, sp') => mret (Some (sp :: ptrs, sp')) end
  end.

Definition ustack (argc : Z) (sp : Z) (ptrs : list Z) : list Z :=
  concat (le_bytes 4 <$> [0xffffffff; argc; u32 (sp - (argc + 1) * 4)] ++ ptrs ++ [0]).

(** [for(last=s=path; *s; s++) if( *s == '/') last = s+1] *)
Fixpoint last_elem (s last : list Z) : list Z :=
  match s with [] => last | c :: s' => last_elem s' (if c =? 47 then s' else last) end.

(** The user stack: arguments, argument vector, and a page below it that the
    user cannot reach.  The new size, the stack pointer and the top of the stack. *)
Definition build_stack (pgdir sz : Z) (argv : list (list Z)) : prog xmem (option (Z * Z * Z)) :=
  let sz := PGROUNDUP sz in
  sz ← on_vm (allocuvm kend pgdir sz (u32 (sz + 2 * PGSIZE)));
  if sz =? 0 then on_k (seterr "EKBADUVMALLOC") ;; mret None else
  on_vm (clearpteu pgdir (u32 (sz - 2 * PGSIZE))) ;;
  o ← push_args 0 pgdir sz argv;
  match o with
  | None => mret None
  | Some (ptrs, sp) =>
    let argc := Z.of_nat (length argv) in
    let sp' := u32 (sp - (3 + argc + 1) * 4) in
    r ← on_vm (copyout pgdir sp' (ustack argc sp ptrs));
    if r <? 0 then mret None else mret (Some (sz, sp', sz))
  end.

(** [iunlockput(ip); end_op(ip->dev)] *)
Definition close_file (i : nat) : prog xmem unit := on_k (on_fs (iunlockput (Some i))) ;; on_k (finish_op i).

Definition bad (pgdir : Z) (ip : option nat) : prog xmem Z :=
  (if pgdir =? 0 then mret tt else on_vm (freevm kend pgdir)) ;;
  match ip with
  | Some i => close_file i ;; mret (-1)
  | None => mret (-1)
  end.

(** Commit to the user image. *)
Definition commit_image (path : list Z) (pgdir' sz' sp ssp' eip : Z) : prog xmem Z :=
  c ← on_k curproc;
  p ← on_k (proc_at c);
  on_k (upd_proc c (fun p =>
    set_ssp ssp' (set_tf {| tf_eax := tf_eax (tf p); tf_esp := sp; tf_eip := eip |} (set_sz sz' (set_pgdir (Some (Z.to_nat pgdir'))
      (set_name (take 15 (last_elem path path)) p)))))) ;;
  on_vm (freevm kend (match pgdir p with Some d => Z.of_nat d | None => 0 end)) ;;
  mret 0.

(** From the ELF header on; the inode is locked. *)
Definition exec_file (path : list Z) (argv : list (list Z)) (ip : nat) : prog xmem Z :=
  '(r, d) ← xreadi ip 0 ELFHDR_SIZE;
  if u32 r <? ELFHDR_SIZE then bad 0 (Some ip) else
  let elf := decode_elfhdr d in
  if negb (magic elf =? ELF_MAGIC) then on_k (seterr "EPBADMAGIC") ;; bad 0 (Some ip) else
  pgdir ← on_vm (setupkvm kdata);
  if pgdir =? 0 then on_k (seterr "EKKVMFAIL") ;; bad 0 (Some ip) else
  osz ← load_segments (Z.to_nat (phnum elf)) ip pgdir (s32 (phoff elf)) 0;
  match osz with
  | None => bad pgdir (Some ip)
  | Some sz =>
    close_file ip ;;
    o ← build_stack pgdir sz argv;
    match o with
    | None => bad pgdir None
    | Some (sz', sp, ssp') => commit_image path pgdir sz' sp ssp' (entry elf)
    end
  end.

Definition exec (path : list Z) (argv : list (list Z)) : prog xmem Z :=
  p ← on_k this;
  if bool_decide (type p = THREAD) then on_k (seterr "EPTHREADEXEC") ;; mret (-1) else
  o ← on_k (knamei_direct devsw_read path);
  match o with
  | None => on_k (seterr "EPCANTFIND") ;; mret (-1)
  | Some ip =>
    on_k (start_op ip) ;;
    on_k (on_fs (ilock (Some ip))) ;;
    c ← on_k (checkinodeperm ip OP_EXEC);
    single ← on_k (kget singleuser);
    if negb (c =? 0) && negb single then on_k (seterr "ESNOPERMS") ;; bad 0 (Some ip) else
    exec_file path argv ip
  end.

(** ** [sys_exec] *)
Context (umem : Z -> Z).

(** The argument vector: at most [MAXARG - 1] strings and a null pointer. *)
Fixpoint fetch_argv (n : nat) (i : Z) (uargv : Z) : K (option (list (list Z))) :=
  match n with
  | O => mret None
  | S n' =>
    o ← fetchint umem (u32 (uargv + 4 * i));
    match o with
    | None => mret None
    | Some uarg =>
      if uarg =? 0 then mret (Some []) else
      s ← fetchstr umem (u32 uarg);
      match s with
      | None => seterr "EPNOARGV" ;; mret None
      | Some s => r ← fetch_argv n' (i + 1) uargv; mret (cons s <$> r)
      end
    end
  end.
Definition sys_exec : prog xmem Z :=
  path ← on_k (argstr umem 0);
  match path with
  | None => on_k (seterr "ESCBADARGS") ;; mret (-1)
  | Some path =>
    uargv ← on_k (argint umem 1);
    match uargv with
    | None => on_k (seterr "ESCBADARGS") ;; mret (-1)
    | Some uargv =>
      argv ← on_k (fetch_argv MAXARG 0 (u32 uargv));
      match argv with None => mret (-1) | Some argv => exec path argv end
    end
  end.
End exec.
