(* ===== verification/ExecFacts.v ===== *)
(** What [exec] loads: the image a file describes, and the stack of the new
    program. *)

From S2P Require Import Prelude Params CString Bio Disk Log Fs FsOps FsData Kernel File Proc Syscall Alloc Vm VmFacts Exec.
Import BlockIO.

(** ** Images *)

(** The bytes [bs] at [v], over the image [img]. *)
Definition over (img : Z -> Z) (v : Z) (bs : list Z) (va : Z) : Z :=
  if decide (v <= va < v + Z.of_nat (length bs)) then default 0 (bs !! Z.to_nat (va - v)) else img va.

Lemma over_nil img v va : over img v [] va = img va.
Proof. unfold over. cbn. by rewrite decide_False by lia. Qed.
Lemma over_app img v bs cs va : over (over img v bs) (v + Z.of_nat (length bs)) cs va = over img v (bs ++ cs) va.
Proof.
  unfold over. rewrite length_app. destruct (decide (v + Z.of_nat (length bs) <= va < _)) as [H|H].
  - rewrite decide_True by lia. rewrite lookup_app_r by lia. do 2 f_equal. lia.
  - destruct (decide (v <= va < v + Z.of_nat (length bs))) as [H'|H'].
    + rewrite decide_True by lia. rewrite lookup_app_l by lia. done.
    + by rewrite decide_False by lia.
Qed.

(** What [readi] answers for a file with the bytes [c]. *)
Definition file_read (c : list Z) (off n : Z) : Z * list Z :=
  if (Z.of_nat (length c) <? off) || (2 ^ 32 <=? off + n) then (-1, []) else
  let m := Z.min n (Z.of_nat (length c) - off) in (m, slice c (Z.to_nat off) (Z.to_nat m)).

(** What the program headers of a file say: its image and size; or that it is
    refused; or, where a segment is not page aligned, wraps around or takes more
    than [room] pages, nothing. *)
Inductive image := Image (sz : Z) (img : Z -> Z) | Refused | Outside.

Definition place (c : list Z) (room : Z) (sz : Z) (img : Z -> Z) (ph : proghdr) : image :=
  let top := ph_vaddr ph + ph_memsz ph in
  if ph_memsz ph <? ph_filesz ph then Refused else
  if 2 ^ 32 <=? top then Outside else
  if KERNBASE <=? top then Refused else
  if 4096 * room <? top then Outside else
  if Z.max sz top =? 0 then Refused else
  if negb (ph_vaddr ph mod 4096 =? 0) then Outside else
  if (0 <? ph_filesz ph) && (Z.of_nat (length c) <? ph_off ph + ph_filesz ph) then Refused else
  Image (Z.max sz top) (over img (ph_vaddr ph) (slice c (Z.to_nat (ph_off ph)) (Z.to_nat (ph_filesz ph)))).

Fixpoint image_of (c : list Z) (room : Z) (n : nat) (off sz : Z) (img : Z -> Z) : image :=
  match n with
  | O => Image sz img
  | S n' =>
    let '(r, d) := file_read c (u32 off) PROGHDR_SIZE in
    if negb (r =? PROGHDR_SIZE) then Refused else
    let ph := decode_proghdr d in
    let off' := s32 (off + PROGHDR_SIZE) in
    if negb (ph_type ph =? ELF_PROG_LOAD) then image_of c room n' off' sz img else
    match place c room sz img ph with Image sz' img' => image_of c room n' off' sz' img' | r => r end
  end.

Section loading.
Context (kend : Z).
Context (KM : gmap Z (Z * Z)) (HKM : forall n, user n -> KM !! n = None) (HKU : forall n pa fl, KM !! n = Some (pa, fl) -> has fl PTE_U = false).
Context (L0 O : list Z) (m0 : words) (room : Z) (Hroom : 1025 + 2 * room <= Z.of_nat (length L0)).
Local Abbreviation sys := (sys kend).
Implicit Types (s : kpages) (img : Z -> Z).

(** The pages [0..hi-1] hold the image, zero past them; [guard] is the page the
    user cannot reach. *)
Record holds (m : words) (U : gmap Z (Z * Z)) (guard : option Z) (hi : Z) img : Prop := {
  ho_user : forall n, 0 <= n < hi -> exists pa, U !! n = Some (pa, if decide (guard = Some n) then 3 else 7);
  ho_else : forall n, ~ (0 <= n < hi) -> U !! n = KM !! n;
  ho_byte : forall va, 0 <= va < 4096 * hi -> user_byte m U va = Some (img va);
  ho_zero : forall va, 4096 * hi <= va -> img va = 0;
  ho_hi : 0 <= hi <= 2 ^ 19
}.
Definition loading s (pgdir : Z) (guard : option Z) (hi : Z) img : Prop := exists L T U,
  sys s L pgdir T U O /\ pgdir :: L ++ tabs T ++ frames U ≡ₚ L0 /\ same_but L0 m0 (kp_mem s) /\ holds (kp_mem s) U guard hi img.

Lemma loading_ext s d g hi img img' : (forall va, img va = img' va) -> loading s d g hi img -> loading s d g hi img'.
Proof.
  intros E (L & T & U & H1 & H2 & H3 & [A B C D F]). exists L, T, U. split_and!; [done..|]. split; [done|done| | |done].
  - intros va Hva. by rewrite C, E.
  - intros va Hva. by rewrite <- E, D.
Qed.

Lemma holds_free m U g hi img L T s d : holds m U g hi img -> sys s L d T U O -> d :: L ++ tabs T ++ frames U ≡ₚ L0 ->
  2 * (room - hi) <= Z.of_nat (length L).
Proof.
  intros [A B C D F] Hs E. pose proof (tabs_length _ _ _ _ (sy_space _ _ _ _ _ _ _ Hs)) as HT.
  assert (Z.of_nat (length (frames U)) <= Z.max 0 hi) as HU.
  { apply frames_length. intros n x Hx Hu. destruct (decide (0 <= n < hi)); [done|]. rewrite B, HKM in Hx by done. done. }
  apply Permutation_length in E. cbn [length] in E. rewrite !length_app in E. lia.
Qed.

Lemma loading_alloc s d hi0 img sz newsz hi : loading s d None hi0 img -> hi0 = (sz + 4095) / 4096 -> 0 <= sz <= newsz -> newsz < KERNBASE ->
  hi = (newsz + 4095) / 4096 -> hi <= room -> exists s', allocuvm kend d sz newsz s = Ok newsz s' /\ loading s' d None hi img.
Proof.
  intros (L & T & U & H1 & H2 & H3 & HH) -> Hsz Hn Hhi Hr. pose proof (holds_free _ _ _ _ _ _ _ _ _ HH H1 H2) as HF. destruct HH as [A B C D F].
  destruct (allocuvm_ok kend s L d T U O sz newsz _ hi H1 Hsz Hn eq_refl Hhi) as (s' & L' & T' & U' & E & R1 & R2 & R3 & R4); [|dlia|].
  { intros n Hn'. rewrite B by lia. apply HKM. unfold user, KERNBASE in *. dlia. }
  exists s'. split; [done|]. exists L', T', U'. split; [done|]. split; [by rewrite <- H2, R3|]. split.
  { eapply same_but_weaken; [eapply same_but_trans; [exact H3|exact R4]|]. intros v. rewrite <- H2, !elem_of_app, !elem_of_cons, !elem_of_app. tauto.
    }
  assert (forall n, 0 <= n < (sz + 4095) / 4096 -> U' !! n = U !! n) as EU.
  { intros n Hn'. specialize (R2 n). by rewrite decide_False in R2 by lia. }
  split.
  - intros n Hn'. destruct (decide (n < (sz + 4095) / 4096)); [rewrite EU by lia; apply A; lia|].
    specialize (R2 n). rewrite decide_True in R2 by lia. destruct R2 as (pa & R2 & _). exists pa. by rewrite decide_False by done.
  - intros n Hn'. specialize (R2 n). rewrite decide_False in R2 by dlia. rewrite R2. apply B. dlia.
  - intros va Hva. destruct (decide (va < 4096 * ((sz + 4095) / 4096))) as [Hlt|Hge].
    + rewrite <- C by lia. unfold user_byte. rewrite EU by dlia. destruct (A (va / 4096)) as [pa HU]; [dlia|]. rewrite HU.
      cbn [fmap option_fmap option_map fst]. f_equal.
      unfold ldb. erewrite (frame_kept kend s L d T U O (va / 4096)); [done|exact H1|exact HU| |exact R4|].
      * unfold user, KERNBASE in *. dlia.
      * assert (user (va / 4096)) as Hu by (unfold user, KERNBASE in *; dlia).
        destruct (frame_page _ _ _ _ _ _ _ _ _ _ H1 HU Hu) as (Hp & _). destruct (page_word _ _ Hp) as (P1 & _). pose proof (Z.mod_pos_bound va 4096).
        unfold in_page. dlia.
    + specialize (R2 (va / 4096)). rewrite decide_True in R2 by dlia. destruct R2 as (pa & R2 & Z0). unfold user_byte. rewrite R2.
      cbn [fmap option_fmap option_map fst].
      assert (user (va / 4096)) as Hu by (unfold user, KERNBASE in *; dlia).
      destruct (frame_page _ _ _ _ _ _ _ _ _ _ R1 R2 Hu) as (Hp & _). destruct (page_word _ _ Hp) as (P1 & _). pose proof (Z.mod_pos_bound va 4096).
      rewrite D by lia. f_equal. unfold ldb. replace ((KERNBASE + pa + va mod 4096) / 4) with ((KERNBASE + pa) / 4 + va mod 4096 / 4) by dlia.
      rewrite Z0 by dlia. by rewrite Z.div_0_l by (apply Z.pow_nonzero; [lia|dlia]).
  - intros va Hva. apply D. dlia.
  - unfold KERNBASE in *. dlia.
Qed.

(** The entry of a page of the image. *)
Lemma loading_page s d g hi img n : loading s d g hi img -> 0 <= n < hi ->
  exists w pa, walkpgdir d (4096 * n) false s = Ok (Some w) s /\ PTE_ADDR (ld (kp_mem s) w) = pa /\ p2v pa = KERNBASE + pa /\
  forall off bs, 0 <= off -> off + Z.of_nat (length bs) <= 4096 -> Forall is_byte bs ->
    loading (KPages (st_bytes (KERNBASE + pa + off) bs (kp_mem s)) (kp_pages s)) d g hi (over img (4096 * n + off) bs).
Proof.
  intros (L & T & U & H1 & H2 & H3 & [A B C D F]) Hn. destruct (A n Hn) as [pa HU]. assert (user n) as Hu by (unfold user; lia).
  assert (vaddr n) as Hv by (unfold vaddr; lia).
  destruct (frame_page _ _ _ _ _ _ _ _ _ _ H1 HU Hu) as (Hp & _). destruct (page_word _ _ Hp) as (P1 & _ & _ & _ & _ & _ & P2).
  replace (KERNBASE + pa - KERNBASE) with pa in P2 by lia. pose proof (sp_ent _ _ _ _ (sy_space _ _ _ _ _ _ _ H1) n Hv) as He.
  destruct (va_page n Hv) as (Hva & E1 & E2). rewrite HU in He. destruct (T !! (n / 1024)) as [t|] eqn:HT; [|done].
  destruct He as (He & K1 & K2 & K3).
  exists (t / 4 + n mod 1024), pa. split; [erewrite (walk_look kend s L d T U O) by done; by rewrite E1, E2, HT|].
  split; [rewrite He, PTE_ADDR_eq; dlia|]. split; [done|]. intros off bs Ho Hl Hb.
  destruct (user_store kend s L d T U O n pa _ off bs H1 Hv HU Hu Ho Hl Hb) as (R1 & R2 & R3). exists L, T, U. split; [done|]. split; [done|].
  cbn [kp_mem].
  split. { eapply same_but_weaken; [eapply same_but_trans; [exact H3|exact R2]|]. intros v [Hv'|Hv'%list_elem_of_singleton]%elem_of_app; [done|].
    rewrite Hv', <- H2. apply elem_of_cons. right. apply elem_of_app. right. apply elem_of_app. right. by eapply frame_elem. }
  split; [done|done| | |done].
  - intros va Hva'. rewrite R3 by (unfold KERNBASE; lia). unfold over. rewrite C by done.
    destruct (decide (4096 * n + off <= va < 4096 * n + off + Z.of_nat (length bs))) as [Hd|Hd]; [|done].

    destruct (lookup_lt_is_Some_2 bs (Z.to_nat (va - (4096 * n + off)))) as [b ->]; [lia|done].
  - intros va Hva'. unfold over. rewrite decide_False by lia. by apply D.
Qed.

Lemma loading_guard s d hi img n : loading s d None hi img -> 0 <= n < hi -> exists s', clearpteu d (4096 * n) s = Ok tt s' /\ loading s' d (Some n) hi img.
Proof.
  intros HL Hn. destruct (loading_page _ _ _ _ _ n HL Hn) as (w & pa & E & _). destruct HL as (L & T & U & H1 & H2 & H3 & [A B C D F]).
  destruct (A n Hn) as [pa' HU]. rewrite decide_False in HU by done. assert (user n) as Hu by (unfold user; lia).
  assert (vaddr n) as Hv by (unfold vaddr; lia).
  pose proof (sp_ent _ _ _ _ (sy_space _ _ _ _ _ _ _ H1) n Hv) as He. destruct (va_page n Hv) as (Hva & E1 & E2).
  rewrite HU in He. destruct (T !! (n / 1024)) as [t|] eqn:HT; [|done]. destruct He as (He & K1 & K2 & K3).
  erewrite (walk_look kend s L d T U O) in E by done. rewrite E1, E2, HT in E. injection E as <-.
  unfold clearpteu. erewrite bind_ok by (erewrite (walk_look kend s L d T U O) by done; by rewrite E1, E2, HT).
  cbn [fmap option_fmap option_map]. mrun. rewrite He.
  assert (clrf (pa' + 7) PTE_U = pa' + 3) as EC.
  { unfold clrf, PTE_U. apply Z.bits_inj'. intros k Hk. rewrite <- (lor_page pa' 3), <- (lor_page pa' 7) by (done || lia).
    rewrite Z.ldiff_spec, !Z.lor_spec, Z.pow2_bits_eqb by lia. destruct (Z.eqb_spec 2 k) as [<-|Hk2].
    - rewrite andb_false_r, orb_false_r. symmetry.
      assert (Z.testbit (pa' / 2 ^ 12 * 2 ^ 12) 2 = false) as <- by (rewrite Z.mul_pow2_bits_low by lia; done). f_equal. dlia.
    - rewrite andb_true_r. f_equal. destruct (decide (k < 3)); [assert (k = 0 \/ k = 1) as [-> | ->] by lia; done|].
      change 7 with (Z.ones 3). change 3 with (Z.ones 2) at 2. rewrite !Z.ones_spec_high by lia. done. }
  rewrite EC. eexists. split; [reflexivity|].
  pose proof (space_store _ _ _ _ n t (pa' + 3) (Some (pa', 3)) (sy_space _ _ _ _ _ _ _ H1) (sys_tables _ _ _ _ _ _ _ H1) Hv HT ltac:(split_and!; [done|done|lia|lia|done])) as HS.
  assert (same_but [t] (kp_mem s) (<[t / 4 + n mod 1024 := pa' + 3]> (kp_mem s))) as HSB by (apply same_but_insert; unfold in_page; dlia).
  set (m' := <[t / 4 + n mod 1024 := pa' + 3]> (kp_mem s)) in *. set (U' := partial_alter (fun _ => Some (pa', 3)) n U) in *.
  assert (forall k, U' !! k = if decide (k = n) then Some (pa', 3) else U !! k) as LU.
  { intros k. unfold U'. destruct (decide (k = n)) as [->|]; [by rewrite lookup_partial_alter_eq|by rewrite lookup_partial_alter_ne]. }
  assert (frames U' ≡ₚ frames U) as EF.
  { assert (delete n U' = delete n U) as ED.
    { apply map_eq. intros k. destruct (decide (k = n)) as [->|]; [by rewrite !lookup_delete_eq|]. unfold U'.
      by rewrite !lookup_delete_ne, lookup_partial_alter_ne by done. }
    rewrite (frames_delete U n pa' 7 HU Hu), (frames_delete U' n pa' 3); [by rewrite ED|by rewrite LU, decide_True|done]. }
  pose proof (sys_table_page _ _ _ _ _ _ _ _ _ H1 HT) as Ht. destruct (page_word _ _ Ht) as (T1 & _).
  assert (t ∈ tabs T) as Htt by (by eapply tabs_elem).
  exists L, T, U'. cbn [kp_mem]. split_and!.
  - destruct H1 as [F1 F2 F3 F4]. split; [|done|by rewrite EF|by rewrite EF]. cbn [kp_mem kp_pages]. pose proof F4 as F4'.
    apply list.Forall_app in F4' as [F5 _].
    eapply free_frame; [exact F1|exact HSB|exact F5|]. constructor; [|constructor]. split; [done|]. intros Hin.
    apply list.NoDup_app in F3 as (_ & F3 & _).
    apply (F3 t Hin). apply elem_of_cons. right. apply elem_of_app. by left.
  - by rewrite EF.
  - eapply same_but_weaken; [eapply same_but_trans; [exact H3|exact HSB]|]. intros v [Hv'|Hv'%list_elem_of_singleton]%elem_of_app; [done|].
    rewrite Hv', <- H2. apply elem_of_cons. right. apply elem_of_app. right. apply elem_of_app. by left.
  - split; [| | |done|done].
    + intros k Hk. rewrite LU. destruct (decide (k = n)) as [->|Hkn]; [exists pa'; by rewrite decide_True|].
      destruct (A k Hk) as [pa'' HA]. exists pa''. rewrite (decide_False (P := Some n = Some k)) by congruence. by rewrite decide_False in HA.
    + intros k Hk. rewrite LU, decide_False by lia. by apply B.
    + intros va Hva'. rewrite <- C by done. unfold user_byte. rewrite LU. assert (user (va / 4096)) as Huv by (unfold user; dlia).
      destruct (A (va / 4096)) as [q HQ]; [dlia|].
      assert (ldb m' (KERNBASE + q + va mod 4096) = ldb (kp_mem s) (KERNBASE + q + va mod 4096)) as EB.
      { apply (ldb_same _ _ _ _ HSB). intros p ->%list_elem_of_singleton Hin.
        destruct (frame_page _ _ _ _ _ _ _ _ _ _ H1 HQ Huv) as (Hp & _ & _ & N3).
        destruct (page_word _ _ Hp) as (P1 & _). apply N3. assert (KERNBASE + q = t) as ->; [|done]. pose proof (Z.mod_pos_bound va 4096 ltac:(lia)).
        apply (page_disjoint _ _ ((KERNBASE + q + va mod 4096) / 4)); [done|done|unfold in_page; dlia|done]. }
      destruct (decide (va / 4096 = n)) as [En|En]; [|rewrite HQ; cbn [fmap option_fmap option_map fst]; by rewrite EB].
      rewrite En in *. rewrite HU in HQ |- *. injection HQ as <-. cbn [fmap option_fmap option_map fst]. by rewrite EB.
Qed.

Lemma loading_copyout s d g hi img va buf : loading s d g hi img -> 0 <= va -> va + Z.of_nat (length buf) <= 4096 * hi -> Forall is_byte buf ->
  exists r s', copyout d va buf s = Ok r s' /\
    (r = 0 /\ (forall va', va <= va' < va + Z.of_nat (length buf) -> g <> Some (va' / 4096)) /\ loading s' d g hi (over img va buf) \/
     r = -1 /\ (exists img', loading s' d g hi img') /\ exists n, va / 4096 <= n <= (va + Z.of_nat (length buf) - 1) / 4096 /\ g = Some n).
Proof.
  intros (L & T & U & H1 & H2 & H3 & [A B C D F]) Hva Hend Hb.
  assert (forall n, 0 <= n < hi -> g <> Some n -> accessible U n) as Hacc.
  { intros n Hn Hg. destruct (A n Hn) as [pa HA]. rewrite decide_False in HA by done. by exists pa, 7. }
  assert (guarded U) as Hg.
  { intros n (pa & fl & HU & Hfl). destruct (decide (0 <= n < hi)) as [|Hn]; [unfold user; lia|]. rewrite B in HU by done. apply HKU in HU.
    congruence. }
  unfold copyout. destruct (copyout_loop_ok kend L d T U O (length buf) s va buf H1 Hg) as (r & s' & E & R1 & (P & R2 & R2') & R3); [lia|done|lia| |done|].
  { intros n Hn. destruct (A n) as [pa HA]; [dlia|]. assert (vaddr n) as Hv by (unfold vaddr; dlia).
    pose proof (sp_ent _ _ _ _ (sy_space _ _ _ _ _ _ _ H1) n Hv) as He. rewrite HA in He. by destruct (T !! (n / 1024)). }
  exists r, s'. split; [done|].
  assert (same_but L0 m0 (kp_mem s')) as HS.
  { eapply same_but_weaken; [eapply same_but_trans; [exact H3|exact R2]|]. intros v [Hv|Hv]%elem_of_app; [done|].
    destruct (R2' v Hv) as (n & pa & fl & HU & Hfl & ->).
    rewrite <- H2. apply elem_of_cons. right. apply elem_of_app. right. apply elem_of_app. right. eapply frame_elem; [done|]. apply Hg.
    by exists pa, fl. }
  assert (forall img', (forall va, 0 <= va < 4096 * hi -> user_byte (kp_mem s') U va = Some (img' va)) -> (forall va, 4096 * hi <= va -> img' va = 0) -> loading s' d g hi img') as HL.
  { intros img' C' D'. exists L, T, U. by split_and!. }
  destruct R3 as [(-> & R4 & R3)|(-> & n & Hn & R3)]; [left|right]; (split; [done|]).
  - split. { intros va' Hva' ->. destruct (R4 va' Hva') as (pa & fl & HU & Hfl). destruct (A (va' / 4096)) as [pa' HA]; [dlia|].
    rewrite decide_True in HA by done. by simplify_eq. }
    apply HL.
    + intros va' Hva'. rewrite R3 by (unfold KERNBASE; lia). unfold over. rewrite C by done.
      destruct (decide (va <= va' < va + Z.of_nat (length buf))) as [Hd|Hd]; [|done].
      destruct (lookup_lt_is_Some_2 buf (Z.to_nat (va' - va))) as [b ->]; [lia|done].
    + intros va' Hva'. unfold over. rewrite decide_False by lia. by apply D.
  - split.
    + exists (fun va' => if decide (4096 * hi <= va') then 0 else default 0 (user_byte (kp_mem s') U va')).
      apply HL; [|intros va' Hva'; by rewrite decide_True].
      intros va' Hva'. rewrite decide_False by lia. unfold user_byte. destruct (A (va' / 4096)) as [pa ->]; [dlia|done].
    + exists n. split; [done|]. destruct (decide (g = Some n)) as [|Hne]; [done|exfalso]. apply R3, Hacc; [|done].
      dlia.
Qed.
End loading.

(** ** Running on both memories *)

Section running.
Context (present : Z -> bool).
Implicit Types (a : Spec.astate) (k : kmem) (s : kpages).

Lemma run_on_vm {A B} (c : M kpages A) (f : A -> prog xmem B) k s v s' a : c s = Ok v s' ->
  Spec.run present (on_vm c ≫= f) (XMem k s) a = Spec.run present (f v) (XMem k s') a.
Proof. intros E. unfold on_vm. cbn [mbind prog_bind Spec.run xp xk]. by rewrite E. Qed.
Lemma run_on_k {A B} (p : K A) (f : A -> prog xmem B) k s v k' a a' : Spec.run present p k a = Ok v (k', a') ->
  Spec.run present (on_k p ≫= f) (XMem k s) a = Spec.run present (f v) (XMem k' s) a'.
Proof. intros E. unfold on_k. rewrite Spec.run_bind, zoom_run; [|done|done|by intros []]. cbn [xk]. by rewrite E. Qed.

Definition k_err (c : nat) (m : string) k : kmem := set_procs (alter (set_err (Some m)) c (procs k)) k.
Lemma run_seterr {B} m c (f : unit -> prog xmem B) k s a : cur k = Some c ->
  Spec.run present (on_k (seterr m) ≫= f) (XMem k s) a = Spec.run present (f tt) (XMem (k_err c m k) s) a.
Proof. intros H. apply run_on_k. unfold seterr. by rewrite (run_curproc present c) by done. Qed.
End running.

Lemma file_read_ok c off n : Z.of_nat (length c) < 2 ^ 30 -> 0 <= off -> 0 <= n < 2 ^ 31 -> off + n <= Z.of_nat (length c) ->
  file_read c off n = (n, slice c (Z.to_nat off) (Z.to_nat n)).
Proof.
  intros. unfold file_read. rewrite (proj2 (Z.ltb_ge _ _)), (proj2 (Z.leb_gt _ _)) by lia. cbn [orb]. by rewrite Z.min_l by lia.
Qed.
(** ** Loading a segment *)

Section segments.
Context (present : Z -> bool) (devsw_read : Z -> option (nat -> Z -> Z -> prog kfs (Z * list Z))).
Context (kend : Z).
Context (KM : gmap Z (Z * Z)) (HKM : forall n, user n -> KM !! n = None) (HKU : forall n pa fl, KM !! n = Some (pa, fl) -> has fl PTE_U = false).
Context (L0 O : list Z) (m0 : words) (room : Z) (Hroom : 1025 + 2 * room <= Z.of_nat (length L0)).
Context (ip : nat) (f0 : kfs) (a : Spec.astate) (c : list Z).
Context (Hread : forall off n, 0 <= off < 2 ^ 32 -> 0 <= n < 2 ^ 32 -> Spec.run present (readi devsw_read ip off n) f0 a = Ok (file_read c off n) (f0, a)).
Context (Hbytes : Forall is_byte c) (Hlen : Z.of_nat (length c) < 2 ^ 30).
Local Abbreviation loading := (loading kend KM L0 O m0).
Implicit Types (k : kmem) (s : kpages) (img : Z -> Z).

Lemma run_xreadi {B} off n (f : Z * list Z -> prog xmem B) k s : fs k = f0 -> 0 <= off < 2 ^ 32 -> 0 <= n < 2 ^ 32 ->
  Spec.run present (xreadi devsw_read ip off n ≫= f) (XMem k s) a = Spec.run present (f (file_read c off n)) (XMem k s) a.
Proof.
  intros Hk H1 H2. apply run_on_k. rewrite on_fs_run, Hk, Hread by done. f_equal. f_equal. rewrite <- Hk. by destruct k.
Qed.

Lemma file_read_short off n : 0 <= off -> 0 < n < 2 ^ 31 -> Z.of_nat (length c) < off + n ->
  exists r bs, file_read c off n = (r, bs) /\ u32 r <> n /\ Z.of_nat (length bs) <= n /\ Forall is_byte bs.
Proof.
  intros Ho Hn Hs. unfold file_read. destruct (_ || _) eqn:E.
  - exists (-1), []. split_and!; [done| |cbn; lia|constructor]. change (u32 (-1)) with 4294967295. lia.
  - apply orb_false_iff in E as [E1%Z.ltb_ge E2%Z.leb_gt]. rewrite Z.min_r by lia. do 2 eexists. split; [done|].
    rewrite length_slice by lia. split_and!; [rewrite u32_small by lia; lia|lia|]. by apply Forall_take, Forall_drop.
Qed.

Lemma file_read_hdr off : let '(r, bs) := file_read c off PROGHDR_SIZE in (r <> PROGHDR_SIZE -> u32 r <> PROGHDR_SIZE) /\ Forall is_byte bs.
Proof.
  unfold file_read. destruct (_ || _) eqn:E; [by split|]. apply orb_false_iff in E as [E1%Z.ltb_ge E2%Z.leb_gt]. unfold PROGHDR_SIZE in *.
  split; [|by apply Forall_take, Forall_drop].
  intros H. rewrite u32_small; lia.
Qed.

Lemma loaduvm_loop_S f pgdir addr offset sz i : loaduvm_loop devsw_read (S f) pgdir addr ip offset sz i =
    if i <? sz then
      o ← on_vm (walkpgdir pgdir (u32 (addr + i)) false);
      match o with
      | None => fail "loaduvm: address should exist"
      | Some pte =>
        e ← on_vm (ldw pte);
        let pa := PTE_ADDR e in
        let n := if u32 (sz - i) <? PGSIZE then u32 (sz - i) else PGSIZE in
        '(r, bs) ← xreadi devsw_read ip (u32 (offset + i)) n;
        on_vm (on_mem (st_bytes (p2v pa) bs)) ;;
        if negb (u32 r =? n) then mret (-1) else loaduvm_loop devsw_read f pgdir addr ip offset sz (u32 (i + PGSIZE))
      end
    else mret 0.
Proof. done. Qed.

(** From page [j] of the segment on: all of it, or a short read. *)
Lemma loaduvm_loop_ok d hi p offset sz k : fs k = f0 -> 0 <= p -> 0 <= offset < 2 ^ 32 -> 0 <= sz -> 4096 * p + sz <= 4096 * hi ->
  forall f s img j, loading s d None hi img -> 0 <= j -> 4096 * j < sz + 4096 -> (sz + 4095) / 4096 - j < Z.of_nat f -> (4096 * j < sz -> j = 0 \/ offset + 4096 * j <= Z.of_nat (length c)) ->
  exists r s' img', Spec.run present (loaduvm_loop devsw_read f d (4096 * p) ip offset sz (4096 * j)) (XMem k s) a = Ok r (XMem k s', a) /\ loading s' d None hi img' /\
    (r = 0 /\ (sz <= 4096 * j \/ offset + sz <= Z.of_nat (length c)) /\
       (forall va, img' va = over img (4096 * (p + j)) (slice c (Z.to_nat (offset + 4096 * j)) (Z.to_nat (sz - 4096 * j))) va) \/
     r = -1 /\ 4096 * j < sz /\ Z.of_nat (length c) < offset + sz).
Proof.
  intros Hk Hp Ho Hsz Hhi f. induction f as [|f IH]; intros s img j HL Hj Hjs Hf Hoff; [dlia|]. rewrite loaduvm_loop_S.
  destruct (Z.ltb_spec (4096 * j) sz) as [Hlt|Hge].
  2: { exists 0, s, img. split; [done|]. split; [done|]. left. split_and!; [done|by left|]. intros va.
    replace (Z.to_nat (sz - 4096 * j)) with 0%nat by lia. unfold slice. rewrite take_0. by rewrite over_nil. }
  specialize (Hoff Hlt). assert (hi <= 2 ^ 19) as Hhi2 by (destruct HL as (? & ? & ? & _ & _ & _ & HH); apply (ho_hi _ _ _ _ _ _ HH)).
  destruct (loading_page kend KM L0 O m0 s d None hi img (p + j) HL) as (w & pa & E1 & E2 & E3 & HS); [dlia|].
  replace (u32 (4096 * p + 4096 * j)) with (4096 * (p + j)) by (rewrite u32_small; lia).
  rewrite (run_on_vm present _ _ _ _ _ _ _ E1). rewrite (run_on_vm present _ _ _ _ _ _ _ (eq_refl : ldw w s = Ok (ld (kp_mem s) w) s)). rewrite E2.
  cbv zeta.
  rewrite u32_small by lia. set (n := if sz - 4096 * j <? PGSIZE then sz - 4096 * j else PGSIZE).
  assert (n = Z.min 4096 (sz - 4096 * j)) as Hn by (unfold n, PGSIZE; destruct (Z.ltb_spec (sz - 4096 * j) 4096); lia).
  rewrite (u32_small (offset + 4096 * j)) by lia. rewrite run_xreadi by (done || lia). rewrite E3.
  destruct (decide (offset + 4096 * j + n <= Z.of_nat (length c))) as [Hin|Hout].
  - rewrite file_read_ok by lia. set (bs := slice c (Z.to_nat (offset + 4096 * j)) (Z.to_nat n)).
    assert (Z.of_nat (length bs) = n) as Hbs by (unfold bs; rewrite length_slice; lia).
    rewrite (run_on_vm present _ _ _ _ _ _ _ (eq_refl : on_mem (st_bytes (KERNBASE + pa) bs) s = Ok tt (KPages (st_bytes (KERNBASE + pa) bs (kp_mem s)) (kp_pages s)))).
    rewrite u32_small, Z.eqb_refl by lia. cbn [negb]. specialize (HS 0 bs ltac:(lia) ltac:(lia) ltac:(by apply Forall_take, Forall_drop)).
    rewrite !Z.add_0_r in HS.
    replace (u32 (4096 * j + PGSIZE)) with (4096 * (j + 1)) by (unfold PGSIZE; rewrite u32_small; lia).
    destruct (IH _ _ (j + 1) HS) as (r & s' & img' & E & R1 & R2); [lia|lia|dlia|lia|].
    exists r, s', img'. split; [exact E|]. split; [done|]. destruct R2 as [(-> & R2 & R3)|(-> & R2 & R3)]; [left|right; split_and!; [done|lia|lia]].
    split_and!; [done|lia|]. intros va. rewrite R3. destruct (decide (sz <= 4096 * (j + 1))) as [Hlast|Hmore].
    + replace (Z.to_nat (sz - 4096 * (j + 1))) with 0%nat by lia. unfold slice at 1. rewrite take_0, over_nil. unfold bs.
      by replace n with (sz - 4096 * j) by lia.
    + replace (4096 * (p + (j + 1))) with (4096 * (p + j) + Z.of_nat (length bs)) by lia. rewrite over_app. f_equal. unfold bs, slice.
      replace (Z.to_nat (sz - 4096 * j)) with (Z.to_nat n + Z.to_nat (sz - 4096 * (j + 1)))%nat by lia. rewrite <- take_take_drop. f_equal.
      rewrite drop_drop. do 2 f_equal. lia.
  - destruct (file_read_short (offset + 4096 * j) n) as (r & bs & -> & Hr & Hl & Hbs); [lia|lia|lia|].
    rewrite (run_on_vm present _ _ _ _ _ _ _ (eq_refl : on_mem (st_bytes (KERNBASE + pa) bs) s = Ok tt (KPages (st_bytes (KERNBASE + pa) bs (kp_mem s)) (kp_pages s)))).
    rewrite (proj2 (Z.eqb_neq _ _) Hr). specialize (HS 0 bs ltac:(lia) ltac:(lia) Hbs). rewrite !Z.add_0_r in HS.
    do 3 eexists. split; [reflexivity|]. split; [exact HS|]. right. split_and!; [done|lia|lia].
Qed.

Lemma loaduvm_ok d hi addr offset sz k s img : fs k = f0 -> 0 <= addr -> addr mod 4096 = 0 -> 0 <= offset < 2 ^ 32 -> 0 <= sz -> addr + sz <= 4096 * hi -> loading s d None hi img ->
  exists r s' img', Spec.run present (loaduvm devsw_read d addr ip offset sz) (XMem k s) a = Ok r (XMem k s', a) /\ loading s' d None hi img' /\
    (r = 0 /\ (sz = 0 \/ offset + sz <= Z.of_nat (length c)) /\ (forall va, img' va = over img addr (slice c (Z.to_nat offset) (Z.to_nat sz)) va) \/
     r = -1 /\ 0 < sz /\ Z.of_nat (length c) < offset + sz).
Proof.
  intros Hk Ha Ham Ho Hsz Hhi HL. unfold loaduvm. change PGSIZE with 4096. rewrite Ham. cbn [Z.eqb negb].
  destruct (loaduvm_loop_ok d hi (addr / 4096) offset sz k Hk ltac:(dlia) Ho Hsz ltac:(dlia) (Z.to_nat (sz / 4096) + 2) s img 0 HL) as (r & s' & img' & E & R1 & R2); [lia|dlia|dlia|lia|].
  replace (4096 * (addr / 4096)) with addr in E by dlia. rewrite Z.mul_0_r in E. exists r, s', img'. split; [exact E|]. split; [done|].
  replace (4096 * (addr / 4096 + 0)) with addr in R2 by dlia. rewrite Z.mul_0_r, Z.add_0_r, Z.sub_0_r in R2.
  destruct R2 as [(-> & R2 & R3)|R2]; [left|right; done]. split_and!; [done|lia|done].
Qed.

Lemma load_word d o : Forall is_byte d -> 0 <= load_le d o 4 < 2 ^ 32.
Proof.
  intros Hd. assert (Forall is_byte (slice d o 4)) as H by (by apply Forall_take, Forall_drop). unfold load_le.
  assert (length (slice d o 4) <= 4)%nat as Hl by (unfold slice; rewrite length_take; lia).
  pose proof (le_num_bytes (length (slice d o 4)) (le_num (slice d o 4))) as E. rewrite (le_bytes_num _ H) in E. rewrite E.
  pose proof (Z.mod_pos_bound (le_num (slice d o 4)) (256 ^ Z.of_nat (length (slice d o 4))) ltac:(apply Z.pow_pos_nonneg; lia)).
  assert (256 ^ Z.of_nat (length (slice d o 4)) <= 256 ^ 4) by (apply Z.pow_le_mono_r; lia). lia.
Qed.
Lemma proghdr_range d : Forall is_byte d -> let ph := decode_proghdr d in
  0 <= ph_off ph < 2 ^ 32 /\ 0 <= ph_vaddr ph < 2 ^ 32 /\ 0 <= ph_filesz ph < 2 ^ 32 /\ 0 <= ph_memsz ph < 2 ^ 32.
Proof. intros Hd. cbn [decode_proghdr ph_off ph_vaddr ph_filesz ph_memsz]. split_and!; apply load_word; done. Qed.

Definition pages_of (sz : Z) : Z := (sz + 4095) / 4096.

(** One segment. *)
Lemma segment_ok d ph sz img k s cp : fs k = f0 -> cur k = Some cp -> loading s d None (pages_of sz) img -> 0 <= sz < KERNBASE -> sz <= 4096 * room ->
  0 <= ph_off ph < 2 ^ 32 -> 0 <= ph_vaddr ph < 2 ^ 32 -> 0 <= ph_filesz ph < 2 ^ 32 -> 0 <= ph_memsz ph < 2 ^ 32 ->
  forall (g : Z -> prog xmem (option Z)), let run := Spec.run present (
    if ph_memsz ph <? ph_filesz ph then on_k (seterr "EPFILETOOBIG") ;; mret None else
    sz' ← on_vm (allocuvm kend d sz (u32 (ph_vaddr ph + ph_memsz ph)));
    if sz' =? 0 then on_k (seterr "EKBADUVMALLOC") ;; mret None else
    l ← loaduvm devsw_read d (ph_vaddr ph) ip (ph_off ph) (ph_filesz ph);
    if l <? 0 then on_k (seterr "EKBADUVMLOAD") ;; mret None else g sz') (XMem k s) a in
  match place c room sz img ph with
  | Image sz' img' => exists s', run = Spec.run present (g sz') (XMem k s') a /\ loading s' d None (pages_of sz') img' /\ 0 <= sz' < KERNBASE /\ sz' <= 4096 * room
  | Refused => exists s' m hi img', run = Ok None (XMem (k_err cp m k) s', a) /\ loading s' d None hi img'
  | Outside => True
  end.
Proof.
  intros Hk Hc HL Hsz Hszr Ho Hv Hf Hm g run. subst run. unfold place.
  destruct (Z.ltb_spec (ph_memsz ph) (ph_filesz ph)) as [|Hmf].
  { rewrite (run_seterr present _ cp) by done. by exists s, "EPFILETOOBIG"%string, (pages_of sz), img. }
  set (top := ph_vaddr ph + ph_memsz ph). destruct (Z.leb_spec (2 ^ 32) top) as [|H32]; [done|]. rewrite u32_small by lia.
  destruct (Z.leb_spec KERNBASE top) as [Hbig|Hsm].
  { rewrite (run_on_vm present _ _ _ _ 0 s) by (unfold allocuvm; by rewrite (proj2 (Z.leb_le _ _) Hbig)). cbn [Z.eqb].
    rewrite (run_seterr present _ cp) by done.
    by exists s, "EKBADUVMALLOC"%string, (pages_of sz), img. }
  destruct (Z.ltb_spec (4096 * room) top) as [|Hfit]; [done|].
  assert (exists s1, allocuvm kend d sz top s = Ok (Z.max sz top) s1 /\ loading s1 d None (pages_of (Z.max sz top)) img) as (s1 & E1 & HL1).
  { destruct (decide (top < sz)) as [Hlt|Hge].
    - exists s. rewrite Z.max_l by lia. split; [|done]. unfold allocuvm. by rewrite (proj2 (Z.leb_gt _ _) Hsm), (proj2 (Z.ltb_lt _ _) Hlt).
    - rewrite Z.max_r by lia. eapply (loading_alloc kend KM HKM L0 O m0 room Hroom); [exact HL|done|lia|done|done|]. unfold pages_of. dlia. }
  rewrite (run_on_vm present _ _ _ _ _ _ _ E1). destruct (Z.eqb_spec (Z.max sz top) 0) as [|Hpos].
  { rewrite (run_seterr present _ cp) by done. by exists s1, "EKBADUVMALLOC"%string, (pages_of (Z.max sz top)), img. }
  destruct (Z.eqb_spec (ph_vaddr ph mod 4096) 0) as [Hal|]; [|done]. cbn [negb].
  destruct (loaduvm_ok d (pages_of (Z.max sz top)) (ph_vaddr ph) (ph_off ph) (ph_filesz ph) k s1 img Hk ltac:(lia) Hal Ho ltac:(lia)) as (r & s' & img' & E & R1 & R2); [unfold pages_of; dlia|done|].
  rewrite Spec.run_bind, E. destruct R2 as [(-> & R2 & R3)|(-> & R2 & R3)].
  - assert ((0 <? ph_filesz ph) && (Z.of_nat (length c) <? ph_off ph + ph_filesz ph) = false) as ->.
    { destruct R2 as [->|R2]; [done|]. rewrite (proj2 (Z.ltb_ge _ _) R2). apply andb_false_r. }
    exists s'. split; [done|]. split; [by eapply loading_ext|]. lia.
  - rewrite (proj2 (Z.ltb_lt _ _) R2), (proj2 (Z.ltb_lt _ _) R3). change (-1 <? 0) with true. cbn [andb]. rewrite (run_seterr present _ cp) by done.
    by exists s', "EKBADUVMLOAD"%string, (pages_of (Z.max sz top)), img'.
Qed.

Lemma load_segments_ok d k cp : fs k = f0 -> cur k = Some cp -> forall n off sz img s, loading s d None (pages_of sz) img -> 0 <= sz < KERNBASE -> sz <= 4096 * room ->
  match image_of c room n off sz img with
  | Image sz' img' => exists s', Spec.run present (load_segments devsw_read kend n ip d off sz) (XMem k s) a = Ok (Some sz') (XMem k s', a) /\
      loading s' d None (pages_of sz') img' /\ 0 <= sz' < KERNBASE /\ sz' <= 4096 * room
  | Refused => exists s' m hi img', Spec.run present (load_segments devsw_read kend n ip d off sz) (XMem k s) a = Ok None (XMem (k_err cp m k) s', a) /\ loading s' d None hi img'
  | Outside => True
  end.
Proof.
  intros Hk Hc. induction n as [|n IH]; intros off sz img s HL Hsz Hr; cbn [image_of load_segments]; [by exists s|].
  rewrite run_xreadi by (done || apply u32_range || lia). pose proof (file_read_hdr (u32 off)) as Hh.
  destruct (file_read c (u32 off) PROGHDR_SIZE) as [r dd]. destruct Hh as [Hr1 Hd].
  destruct (Z.eqb_spec r PROGHDR_SIZE) as [->|Hne].
  2: { rewrite (proj2 (Z.eqb_neq (u32 r) _)) by auto. cbn [negb]. rewrite (run_seterr present _ cp) by done.
  by exists s, "EPBADHEADERREAD"%string, (pages_of sz), img. }
  change (u32 PROGHDR_SIZE =? PROGHDR_SIZE) with true. cbn [negb]. destruct (proghdr_range dd Hd) as (P1 & P2 & P3 & P4).
  destruct (Z.eqb_spec (ph_type (decode_proghdr dd)) ELF_PROG_LOAD) as [_|_]; cbn [negb]; [|by apply IH].
  pose proof (segment_ok d (decode_proghdr dd) sz img k s cp Hk Hc HL Hsz Hr P1 P2 P3 P4 (fun sz' => load_segments devsw_read kend n ip d (s32 (off + PROGHDR_SIZE)) sz')) as HS.
  cbv zeta in HS. destruct (place c room sz img (decode_proghdr dd)) as [sz' img'| |]; [|done|done].
  destruct HS as (s' & -> & HL' & Hsz' & Hr'). by apply IH.
Qed.
End segments.

(** ** The stack *)

(** Where the argument strings go: their addresses and the end of them, when
    there are at most [MAXARG] and they stay above [lo]. *)
Fixpoint arg_layout (argc : nat) (lo sp : Z) (argv : list (list Z)) : option (list Z * Z) :=
  match argv with
  | [] => Some ([], sp)
  | s :: argv' =>
    if (MAXARG <=? argc)%nat then None else
    let p := (sp - (Z.of_nat (length s) + 1)) / 4 * 4 in
    if p <? lo then None else
    match arg_layout (S argc) lo p argv' with Some (ps, e) => Some (p :: ps, e) | None => None end
  end.

(** The bytes [bs] are at [va]. *)
Definition reads (img : Z -> Z) (va : Z) (bs : list Z) : Prop := forall i b, bs !! i = Some b -> img (va + Z.of_nat i) = b.

Lemma reads_over img va bs : reads (over img va bs) va bs.
Proof.
  intros i b Hb. pose proof (lookup_lt_Some _ _ _ Hb). unfold over. rewrite decide_True by lia.
  replace (Z.to_nat (va + Z.of_nat i - va)) with i by lia. by rewrite Hb.
Qed.
Lemma reads_agree img img' va bs : reads img va bs -> (forall v, va <= v < va + Z.of_nat (length bs) -> img' v = img v) -> reads img' va bs.
Proof. intros H E i b Hb. pose proof (lookup_lt_Some _ _ _ Hb). rewrite E by lia. by apply H. Qed.

Section stack.
Context (present : Z -> bool).
Context (kend : Z).
Context (KM : gmap Z (Z * Z)) (HKM : forall n, user n -> KM !! n = None) (HKU : forall n pa fl, KM !! n = Some (pa, fl) -> has fl PTE_U = false).
Context (L0 O : list Z) (m0 : words) (room : Z) (Hroom : 1025 + 2 * room <= Z.of_nat (length L0)).
Context (a : Spec.astate).
Local Abbreviation loading := (loading kend KM L0 O m0).
Implicit Types (k : kmem) (s : kpages) (img : Z -> Z).

(** [k] with another error message, if any. *)
Definition err_only (c : nat) k k' : Prop := k' = k \/ exists m, k' = k_err c m k.

Lemma push_args_ok d g k cp : cur k = Some cp -> 0 <= g -> forall argv argc sp img s, loading s d (Some g) (g + 2) img -> sp mod 4 = 0 -> 4096 * (g + 1) <= sp <= 4096 * (g + 2) ->
  Forall (fun t => Forall is_byte t /\ Z.of_nat (length t) + 4 <= 4096) argv ->
  match arg_layout argc (4096 * (g + 1)) sp argv with
  | Some (ps, e) => exists s' img', Spec.run present (push_args argc d sp argv) (XMem k s) a = Ok (Some (ps, e)) (XMem k s', a) /\
      loading s' d (Some g) (g + 2) img' /\ e mod 4 = 0 /\ 4096 * (g + 1) <= e <= sp /\ Forall2 (fun p t => e <= p < sp /\ reads img' p (t ++ [0])) ps argv /\
      (forall va, ~ (e <= va < sp) -> img' va = img va)
  | None => exists k' s' img', Spec.run present (push_args argc d sp argv) (XMem k s) a = Ok None (XMem k' s', a) /\ err_only cp k k' /\ loading s' d (Some g) (g + 2) img'
  end.
Proof.
  intros Hc Hg. induction argv as [|s0 argv IH]; intros argc sp img s HL Hal Hsp Hb; cbn [arg_layout push_args].
  { exists s, img. split_and!; try done; try lia. }
  apply list.Forall_cons in Hb as [[Hb0 Hl0] Hb]. destruct (Nat.leb_spec MAXARG argc) as [Hmax|Hmax].
  { rewrite (run_seterr present _ cp) by done. exists (k_err cp "EPTOOMANYARGS" k), s, img. split_and!; [done|right; by eexists|done]. }
  assert (g + 2 <= 2 ^ 19) as Hg2 by (destruct HL as (? & ? & ? & _ & _ & _ & HH); apply (ho_hi _ _ _ _ _ _ HH)).
  assert (Z.ldiff (u32 (sp - (Z.of_nat (length s0) + 1))) 3 = (sp - (Z.of_nat (length s0) + 1)) / 4 * 4) as ->.
  { rewrite u32_small by lia. change 3 with (Z.ones 2). rewrite Z.ldiff_ones_r, Z.shiftl_mul_pow2, Z.shiftr_div_pow2 by lia. done. }
  set (p := (sp - (Z.of_nat (length s0) + 1)) / 4 * 4).
  assert (sp - Z.of_nat (length s0) - 4 <= p <= sp - Z.of_nat (length s0) - 1 /\ p mod 4 = 0) as [Hp Hpal] by (unfold p; dlia).
  assert (Forall is_byte (s0 ++ [0])) as Hb1 by (apply list.Forall_app; split; [done|repeat constructor; done]).
  assert (Z.of_nat (length (s0 ++ [0])) = Z.of_nat (length s0) + 1) as Hl1 by (rewrite length_app; cbn; lia).
  destruct (loading_copyout kend KM HKU L0 O m0 s d (Some g) (g + 2) img p (s0 ++ [0]) HL ltac:(lia) ltac:(lia) Hb1) as (r & s1 & E1 & R1).
  rewrite (run_on_vm present _ _ _ _ _ _ _ E1). destruct (Z.ltb_spec p (4096 * (g + 1))) as [Hlow|Hfit].
  - destruct R1 as [(-> & R1 & _)|(-> & (img' & R1) & _)]; [exfalso|by exists k, s1, img'; split_and!; [|left|]].
    apply (R1 (Z.max p (4096 * g))); [lia|]. f_equal. dlia.
  - destruct R1 as [(-> & _ & R1)|(-> & _ & n & Hn & [= ->])]; [|dlia]. change (0 <? 0) with false. cbv iota.
    specialize (IH (S argc) p _ s1 R1 Hpal ltac:(lia) Hb). rewrite Spec.run_bind. destruct (arg_layout (S argc) (4096 * (g + 1)) p argv) as [[ps e]|].
    + destruct IH as (s' & img' & -> & H1 & H2 & H3 & H4 & H5). exists s', img'. split_and!; [done|done|done|lia|lia| |].
      * constructor; [split; [lia|]|]. { eapply reads_agree; [apply reads_over|]. intros v Hv. apply H5. lia. }
        eapply Forall2_impl; [|exact H4]. cbn. intros q t [Hq Hr]. split; [lia|done].
      * intros va Hva. rewrite H5 by lia. unfold over. by rewrite decide_False by lia.
    + destruct IH as (k' & s' & img' & -> & H1 & H2). by exists k', s', img'.
Qed.

Lemma arg_layout_max lo ps e argv : forall argc sp, arg_layout argc lo sp argv = Some (ps, e) -> (argc <= MAXARG)%nat -> (argc + length argv <= MAXARG)%nat /\ length ps = length argv.
Proof.
  revert ps. induction argv as [|s0 argv IH]; intros ps argc sp E Hm; cbn [arg_layout length] in *; [simplify_eq; cbn; lia|].
  destruct (Nat.leb_spec MAXARG argc); [done|]. destruct (_ <? lo); [done|]. destruct (arg_layout (S argc) lo _ argv) as [[ps' e']|] eqn:E'; [|done].
  injection E as <- <-. apply IH in E' as [E1 E2]; [|lia]. cbn [length]. lia.
Qed.

Definition words4 (ws : list Z) : list Z := concat (le_bytes 4 <$> ws).
Lemma length_words4 ws : length (words4 ws) = (4 * length ws)%nat.
Proof.
  unfold words4. induction ws as [|w ws IH]; [done|]. rewrite fmap_cons. cbn [concat]. rewrite length_app, length_le_bytes, IH. cbn [length]. lia.
Qed.
Lemma words4_bytes ws : Forall is_byte (words4 ws).
Proof.
  unfold words4. induction ws as [|w ws IH]; [constructor|]. rewrite fmap_cons. cbn [concat]. apply list.Forall_app.
  split; [apply le_bytes_is_byte|done].
Qed.

(** The stack of the new program: the addresses of the strings, the stack pointer and the top. *)
Definition stack_layout (sz : Z) (argv : list (list Z)) : option (list Z * Z * Z) :=
  let top := 4096 * (pages_of sz + 2) in
  match arg_layout 0 (top - 4096) top argv with
  | Some (ps, e) => let sp := e - 4 * (Z.of_nat (length argv) + 4) in if sp <? top - 4096 then None else Some (ps, sp, top)
  | None => None
  end.

Lemma build_stack_ok d k cp sz img s argv : cur k = Some cp -> loading s d None (pages_of sz) img -> 0 <= sz < KERNBASE -> pages_of sz + 2 <= room -> room < 2 ^ 19 ->
  Forall (fun t => Forall is_byte t /\ Z.of_nat (length t) + 4 <= 4096) argv ->
  let g := pages_of sz in
  match stack_layout sz argv with
  | Some (ps, sp, top) => exists s' img', Spec.run present (build_stack kend d sz argv) (XMem k s) a = Ok (Some (top, sp, top)) (XMem k s', a) /\
      loading s' d (Some g) (g + 2) img' /\ reads img' sp (words4 ([0xffffffff; Z.of_nat (length argv); sp + 12] ++ ps ++ [0])) /\
      Forall2 (fun p t => reads img' p (t ++ [0])) ps argv /\ (forall va, va < sp -> img' va = img va)
  | None => exists k' s' img', Spec.run present (build_stack kend d sz argv) (XMem k s) a = Ok None (XMem k' s', a) /\ err_only cp k k' /\ loading s' d (Some g) (g + 2) img'
  end.
Proof.
  intros Hc HL Hsz Hg Hr Hb g. unfold build_stack, stack_layout. assert (0 <= g) as Hg0 by (unfold g, pages_of; dlia).
  assert (PGROUNDUP sz = 4096 * g) as ->. { rewrite PGROUNDUP_eq by (unfold KERNBASE, PGSIZE in *; lia). unfold g, pages_of, PGSIZE. dlia. }
  cbv zeta. rewrite (u32_small (4096 * g + 2 * PGSIZE)) by (unfold PGSIZE; lia).
  replace (4096 * g + 2 * PGSIZE) with (4096 * (g + 2)) by (unfold PGSIZE; lia).
  destruct (loading_alloc kend KM HKM L0 O m0 room Hroom s d g img (4096 * g) (4096 * (g + 2)) (g + 2) HL) as (s1 & E1 & HL1);
    [dlia|lia|unfold KERNBASE; lia|dlia|done|]. rewrite (run_on_vm present _ _ _ _ _ _ _ E1). rewrite (proj2 (Z.eqb_neq _ _)) by lia.
  replace (u32 (4096 * (g + 2) - 2 * PGSIZE)) with (4096 * g) by (unfold PGSIZE; rewrite u32_small; lia).
  destruct (loading_guard kend KM L0 O m0 s1 d (g + 2) img g HL1) as (s2 & E2 & HL2); [lia|]. rewrite (run_on_vm present _ _ _ _ _ _ _ E2).
  replace (4096 * (pages_of sz + 2) - 4096) with (4096 * (g + 1)) by (unfold g; lia).
  change (pages_of sz) with g.
  pose proof (push_args_ok d g k cp Hc Hg0 argv 0 (4096 * (g + 2)) img s2 HL2 ltac:(dlia) ltac:(lia) Hb) as HP. rewrite Spec.run_bind.
  destruct (arg_layout 0 (4096 * (g + 1)) (4096 * (g + 2)) argv) as [[ps e]|] eqn:EA; [|by destruct HP as (k' & s' & img' & -> & H1 & H2); exists k', s', img'].
  destruct HP as (s3 & img3 & -> & HL3 & Hal & He & Hps & Hsame). destruct (arg_layout_max _ _ _ _ _ _ EA) as [Hmax Hlen]; [lia|].
  unfold MAXARG in Hmax.
  set (argc := Z.of_nat (length argv)) in *. assert (0 <= argc <= 32) as Hargc by lia.
  replace (u32 (e - (3 + argc + 1) * 4)) with (e - 4 * (argc + 4)) by (rewrite u32_small; lia). set (sp := e - 4 * (argc + 4)).
  assert (sp = e - 4 * (argc + 4)) as Hsp by done.
  assert (ustack argc e ps = words4 ([0xffffffff; argc; sp + 12] ++ ps ++ [0])) as ->.
  { unfold ustack, words4. replace (u32 (e - (argc + 1) * 4)) with (sp + 12) by (unfold sp; rewrite u32_small; lia). done. }
  set (ws := [0xffffffff; argc; sp + 12] ++ ps ++ [0]). assert (Z.of_nat (length (words4 ws)) = 4 * (argc + 4)) as Hws.
  { rewrite length_words4. unfold ws. rewrite !length_app, Hlen. cbn [length]. unfold argc. lia. }
  destruct (loading_copyout kend KM HKU L0 O m0 s3 d (Some g) (g + 2) img3 sp (words4 ws) HL3 ltac:(lia) ltac:(lia) (words4_bytes ws)) as (r & s' & E & R).
  rewrite (run_on_vm present _ _ _ _ _ _ _ E). destruct (Z.ltb_spec sp (4096 * (g + 1))) as [Hlow|Hfit].
  - destruct R as [(-> & R & _)|(-> & (img' & R) & _)]; [exfalso|by exists k, s', img'; split_and!; [|left|]].
    apply (R (Z.max sp (4096 * g))); [lia|]. f_equal. dlia.
  - destruct R as [(-> & _ & R)|(-> & _ & n & Hn & [= ->])]; [|dlia]. exists s', (over img3 sp (words4 ws)).
    split_and!; [done|done|apply reads_over| |].
    + eapply Forall2_impl; [|exact Hps]. intros q t [Hq Hr']. eapply reads_agree; [exact Hr'|]. intros v Hv. unfold over.
      rewrite decide_False; [done|lia].
    + intros va Hva. unfold over. rewrite decide_False by lia. apply Hsame. lia.
Qed.
End stack.

(** ** The whole *)

Section commit.
Context (kend : Z) (Hkend : KERNBASE < kend).
Implicit Types (s : kpages) (img : Z -> Z).

(** An address space apart from what changed. *)
Lemma space_aside m m' pd T U P : space m pd T U -> same_but P m m' -> NoDup (P ++ pd :: tabs T ++ frames U) -> Forall (freeable kend) (P ++ pd :: tabs T ++ frames U) ->
  space m' pd T U /\ forall va, 0 <= va < KERNBASE -> user_byte m' U va = user_byte m U va.
Proof.
  intros HS HP N G. apply list.NoDup_app in N as (_ & N & _). assert (forall v, v ∈ P ++ pd :: tabs T ++ frames U -> v mod 4096 = 0) as Hal.
  { intros v Hv. rewrite list.Forall_forall in G. by destruct (page_word kend v (G v Hv)). }
  assert (forall v, v ∈ pd :: tabs T ++ frames U -> v ∈ P ++ pd :: tabs T ++ frames U) as Hin by (intros v Hv; apply elem_of_app; by right). split.
  - eapply space_frame; [exact HS|exact HP|apply Hal, Hin; by left| |].
    + apply list.Forall_forall. intros t Ht. apply Hal, Hin. right. apply elem_of_app. by left.
    + apply list.Forall_forall. intros v Hv. pose proof (N v Hv) as Hn. rewrite elem_of_cons, elem_of_app in Hn.
      split_and!; [apply Hal, elem_of_app; by left|tauto..].
  - intros va Hva. unfold user_byte. destruct (U !! (va / 4096)) as [[pa fl]|] eqn:HU; [|done]. cbn [fmap option_fmap option_map fst]. f_equal.
    assert (KERNBASE + pa ∈ frames U) as Hf by (eapply frame_elem; [exact HU|unfold user, KERNBASE in *; dlia]).
    apply (ldb_same P); [done|]. intros v Hv Hw. apply (N v Hv). right. apply elem_of_app. right. assert (v = KERNBASE + pa) as ->; [|done].
    assert ((KERNBASE + pa) mod 4096 = 0) as Hpa by (apply Hal, Hin; right; apply elem_of_app; by right).
    pose proof (Z.mod_pos_bound va 4096 ltac:(lia)).
    apply (page_disjoint _ _ ((KERNBASE + pa + va mod 4096) / 4)); [apply Hal, elem_of_app; by left|done|done|]. unfold in_page. dlia.
Qed.

Context (KM : gmap Z (Z * Z)) (L0 O : list Z) (m0 : words).
Context (pd : Z) (PT : gmap Z Z) (PU : gmap Z (Z * Z)) (HP : space m0 pd PT PU).
Local Abbreviation others := (pd :: tabs PT ++ frames PU ++ O).
Local Abbreviation loading := (loading kend KM L0 others m0).

(** A directory is a page. *)
Lemma sys_dir_nonneg s L d T U O' : sys kend s L d T U O' -> 0 <= d.
Proof.
  intros [_ _ _ G]. apply list.Forall_app in G as [_ G]. apply list.Forall_cons in G as [G _].
  destruct (page_word kend d G) as (_ & _ & _ & _ & H & _). lia.
Qed.

(** The old address space is still there. *)
Lemma loading_old s d g hi img : loading s d g hi img -> exists L T U,
  sys kend s L d T U others /\ d :: L ++ tabs T ++ frames U ≡ₚ L0 /\ holds KM (kp_mem s) U g hi img /\ space (kp_mem s) pd PT PU /\
  (forall va, 0 <= va < KERNBASE -> user_byte (kp_mem s) PU va = user_byte m0 PU va) /\ same_but L0 m0 (kp_mem s).
Proof.
  intros (L & T & U & H1 & H2 & H3 & H4). exists L, T, U. pose proof H1 as [_ _ N G].
  assert (L ++ d :: tabs T ++ frames U ++ others ≡ₚ (L0 ++ pd :: tabs PT ++ frames PU) ++ O) as E by (rewrite <- H2; solve_Permutation).
  rewrite E in N, G. apply list.NoDup_app in N as (N & _). apply list.Forall_app in G as [G _].
  destruct (space_aside _ _ _ _ _ _ HP H3 N G) as [S1 S2]. by split_and!.
Qed.

(** Giving up: the new space is gone and every page is free again. *)
Lemma loading_free s d g hi img : loading s d g hi img -> exists s' L', freevm kend d s = Ok tt s' /\ sys kend s' L' pd PT PU O /\ L' ≡ₚ L0 /\ same_but L0 m0 (kp_mem s').
Proof.
  intros HL. destruct (loading_old _ _ _ _ _ HL) as (L & T & U & H1 & H2 & _ & H4 & _ & H5).
  destruct (freevm_ok kend Hkend s L d T U others H1) as (s' & L' & E & [F N G] & R2 & R3). exists s', L'. split; [done|].
  assert (L' ≡ₚ L0) as EL by (rewrite R2, <- H2; solve_Permutation).
  assert (same_but L0 m0 (kp_mem s')) as HSB.
  { eapply same_but_weaken; [eapply same_but_trans; [exact H5|exact R3]|]. intros v. rewrite <- H2, !elem_of_app, !elem_of_cons, !elem_of_app. tauto.
    }
  split_and!; [|done|done]. split; [done| |done|done].
  assert (L' ++ others ≡ₚ (L0 ++ pd :: tabs PT ++ frames PU) ++ O) as EP by (rewrite EL; solve_Permutation).
  rewrite EP in N, G. apply list.NoDup_app in N as (N & _). apply list.Forall_app in G as [G _]. by destruct (space_aside _ _ _ _ _ _ HP HSB N G).
Qed.

(** Going over: the old space is gone. *)
Lemma loading_swap s d g hi img : loading s d g hi img -> exists s' L' T U, freevm kend pd s = Ok tt s' /\ sys kend s' L' d T U O /\ holds KM (kp_mem s') U g hi img /\
  L' ++ d :: tabs T ++ frames U ≡ₚ L0 ++ pd :: tabs PT ++ frames PU.
Proof.
  intros HL. destruct (loading_old _ _ _ _ _ HL) as (L & T & U & H1 & H2 & H3 & H4 & _).
  destruct (freevm_ok kend Hkend s L pd PT PU (d :: tabs T ++ frames U ++ O)) as (s' & L' & E & [F N G] & R2 & R3); [by apply sys_swap|].
  exists s', L', T, U. split; [done|].
  pose proof H1 as [_ _ N1 G1].
  assert (L ++ d :: tabs T ++ frames U ++ others ≡ₚ ((pd :: tabs PT ++ frames PU) ++ d :: tabs T ++ frames U) ++ L ++ O) as EP by solve_Permutation.
  rewrite EP in N1, G1. apply list.NoDup_app in N1 as (N1 & _). apply list.Forall_app in G1 as [G1 _].
  destruct (space_aside _ _ _ _ _ _ (sy_space _ _ _ _ _ _ _ H1) R3 N1 G1) as [S1 S2].
  split_and!; [by split| |].
  - destruct H3 as [A B C D F']. split; [done|done| |done|done]. intros va Hva. rewrite S2 by (unfold KERNBASE; lia). by apply C.
  - rewrite R2, <- H2. solve_Permutation.
Qed.
End commit.

(** What [exec] makes of a file and an argument vector. *)
Inductive outcome := Runs (entry g sp top : Z) (ps : list Z) (img : Z -> Z) | Fails | Unspecified.
Definition exec_outcome (c : list Z) (room : Z) (argv : list (list Z)) : outcome :=
  if Z.of_nat (length c) <? ELFHDR_SIZE then Fails else
  let elf := decode_elfhdr (slice c 0 52) in
  if negb (magic elf =? ELF_MAGIC) then Fails else
  match image_of c room (Z.to_nat (phnum elf)) (s32 (phoff elf)) 0 (fun _ => 0) with
  | Outside => Unspecified
  | Refused => Fails
  | Image sz img =>
    if room <? pages_of sz + 2 then Unspecified else
    match stack_layout sz argv with None => Fails | Some (ps, sp, top) => Runs (entry elf) (pages_of sz) sp top ps img end
  end.

Section exec.
Context (present : Z -> bool) (devsw_read : Z -> option (nat -> Z -> Z -> prog kfs (Z * list Z))).
Context (kend kdata : Z) (Hkend : KERNBASE < kend) (Hkdata : kdata_ok kdata).
Implicit Types (k : kmem) (s : kpages) (img : Z -> Z) (a : Spec.astate).

(** Releasing the file. *)
Definition close_fs (i : nat) : prog kfs unit := iunlockput (Some i) ;; v ← iat i; end_op (i_dev v).
Lemma run_close {B} i (f : unit -> prog xmem B) k s a f2 a2 : Spec.run present (close_fs i) (fs k) a = Ok tt (f2, a2) ->
  Spec.run present (close_file i ≫= f) (XMem k s) a = Spec.run present (f tt) (XMem (set_fs f2 k) s) a2.
Proof.
  intros H. rewrite Spec.run_bind. unfold close_fs in H. rewrite Spec.run_bind in H.
  destruct (Spec.run present (iunlockput (Some i)) (fs k) a) as [[] [f1 a1]|? []|[]|[]] eqn:E1; try discriminate H.
  unfold close_file. rewrite (run_on_k present _ _ _ _ tt (set_fs f1 k) _ a1) by (by rewrite on_fs_run, E1).
  unfold on_k. rewrite zoom_run; [|done|done|by intros []]. cbn [xk]. unfold finish_op, dev_of, inode_at.
  rewrite Spec.run_bind, Spec.run_bind, on_fs_run. cbn [fs set_fs].
  rewrite Spec.run_bind in H. destruct (Spec.run present (iat i) f1 a1) as [v [f1' a1']|? []|[]|[]] eqn:E2; try discriminate H.
  cbn [Spec.run mret prog_ret].
  rewrite on_fs_run. cbn [fs set_fs]. by rewrite H.
Qed.

Lemma bad_none d k s a s' : d <> 0 -> freevm kend d s = Ok tt s' -> Spec.run present (bad kend d None) (XMem k s) a = Ok (-1) (XMem k s', a).
Proof. intros Hd E. unfold bad. rewrite (proj2 (Z.eqb_neq _ _) Hd). by rewrite (run_on_vm present _ _ _ _ _ _ _ E). Qed.
Lemma bad_some d ip k s a s' f2 a2 : d <> 0 -> freevm kend d s = Ok tt s' -> Spec.run present (close_fs ip) (fs k) a = Ok tt (f2, a2) ->
  Spec.run present (bad kend d (Some ip)) (XMem k s) a = Ok (-1) (XMem (set_fs f2 k) s', a2).
Proof.
  intros Hd E Hc. unfold bad. rewrite (proj2 (Z.eqb_neq _ _) Hd). rewrite (run_on_vm present _ _ _ _ _ _ _ E).
  by rewrite (run_close _ _ _ _ _ _ _ Hc).
Qed.
Lemma bad_zero ip k s a f2 a2 : Spec.run present (close_fs ip) (fs k) a = Ok tt (f2, a2) ->
  Spec.run present (bad kend 0 (Some ip)) (XMem k s) a = Ok (-1) (XMem (set_fs f2 k) s, a2).
Proof. intros Hc. unfold bad. cbn [Z.eqb]. rewrite Spec.run_bind. cbn [Spec.run mret prog_ret]. by rewrite (run_close _ _ _ _ _ _ _ Hc). Qed.

(** The process of the new program. *)
Definition became (path : list Z) (d sz sp eip : Z) (p : proc) : proc :=
  set_ssp sz (set_tf {| tf_eax := tf_eax (tf p); tf_esp := sp; tf_eip := eip |} (set_sz sz (set_pgdir (Some (Z.to_nat d)) (set_name (take 15 (last_elem path path)) p)))).

Lemma kernel_map_none n : user n -> kernel_map kdata !! n = None.
Proof. intros Hn. unfold kernel_map. rewrite (kernel_map_user _ (2 ^ 19)); [apply lookup_empty|done|by apply kmaps_areas|done]. Qed.

Context (L0 O : list Z) (pd : Z) (PT : gmap Z Z) (PU : gmap Z (Z * Z)).
Local Abbreviation others := (pd :: tabs PT ++ frames PU ++ O).

(** A new address space holds the empty image. *)
Lemma setupkvm_loading s : sys kend s L0 pd PT PU O -> 1025 < Z.of_nat (length L0) ->
  exists d s', setupkvm kdata s = Ok d s' /\ d <> 0 /\ loading kend (kernel_map kdata) L0 others (kp_mem s) s' d None 0 (fun _ => 0).
Proof.
  intros Hs Hl. destruct (setupkvm_ok kend kdata s L0 others (owned_sys _ _ _ _ _ _ _ Hs) Hkdata) as (d & s' & E & R1 & [(_ & R2 & _)|(L' & T & [Hd _] & R2 & R3)]); [lia|].
  exists d, s'. split_and!; [done|done|]. exists L', T, (kernel_map kdata). split_and!; [done| |done|].
  - rewrite (frames_none (kernel_map kdata)), R3; [solve_Permutation|]. intros n x Hx Hu. rewrite kernel_map_none in Hx by done. discriminate Hx.
  - split; [lia|reflexivity|lia|reflexivity|lia].
Qed.

Context (ip : nat) (c : list Z) (room : Z) (path : list Z) (argv : list (list Z)).
Context (Hbytes : Forall is_byte c) (Hlen : Z.of_nat (length c) < 2 ^ 30).
Context (Hroom : 1025 + 2 * room <= Z.of_nat (length L0)) (Hr : 0 < room < 2 ^ 19).
Context (Hargv : Forall (fun t => Forall is_byte t /\ Z.of_nat (length t) + 4 <= 4096) argv).

(** Nothing happened, but for the file that was closed and an error message. *)
Definition gave_up (cp : nat) (f2 : kfs) (k : kmem) (s : kpages) (x : xmem) : Prop := exists L' k', err_only cp (set_fs f2 k) k' /\ xk x = k' /\
  sys kend (xp x) L' pd PT PU O /\ L' ≡ₚ L0 /\ same_but L0 (kp_mem s) (kp_mem (xp x)).

Lemma exec_file_ok k cp p s a f2 a2 : cur k = Some cp -> procs k !! cp = Some p -> pgdir p = Some (Z.to_nat pd) -> sys kend s L0 pd PT PU O ->
  (forall off n, 0 <= off < 2 ^ 32 -> 0 <= n < 2 ^ 32 -> Spec.run present (readi devsw_read ip off n) (fs k) a = Ok (file_read c off n) (fs k, a)) ->
  Spec.run present (close_fs ip) (fs k) a = Ok tt (f2, a2) ->
  match exec_outcome c room argv with
  | Runs eip g sp top ps img => exists d s' L T U img',
      Spec.run present (exec_file devsw_read kend kdata path argv ip) (XMem k s) a =
        Ok 0 (XMem (set_procs (<[cp := became path d top sp eip p]> (procs k)) (set_fs f2 k)) s', a2) /\
      sys kend s' L d T U O /\ holds (kernel_map kdata) (kp_mem s') U (Some g) (g + 2) img' /\
      L ++ d :: tabs T ++ frames U ≡ₚ L0 ++ pd :: tabs PT ++ frames PU /\
      reads img' sp (words4 ([0xffffffff; Z.of_nat (length argv); sp + 12] ++ ps ++ [0])) /\
      Forall2 (fun p t => reads img' p (t ++ [0])) ps argv /\ (forall va, va < sp -> img' va = img va)
  | Fails => exists x, Spec.run present (exec_file devsw_read kend kdata path argv ip) (XMem k s) a = Ok (-1) (x, a2) /\ gave_up cp f2 k s x
  | Unspecified => True
  end.
Proof.
  intros Hc Hp Hpg Hs Hread Hclose. unfold exec_outcome, exec_file.
  assert (forall k', err_only cp k k' -> gave_up cp f2 k s (XMem (set_fs f2 k') s)) as Hnone.
  { intros k' Hk'. exists L0, (set_fs f2 k'). split_and!; [|done|done|done|apply same_but_refl].
    destruct Hk' as [->|(m & ->)]; [by left|right; by exists m]. }
  assert (forall m, Spec.run present (close_fs ip) (fs (k_err cp m k)) a = Ok tt (f2, a2)) as Hclose' by done.
  rewrite (run_xreadi present devsw_read ip (fs k) a c Hread) by (done || unfold ELFHDR_SIZE; lia).
  destruct (Z.ltb_spec (Z.of_nat (length c)) ELFHDR_SIZE) as [Hshort|Hlong].
  { unfold file_read, ELFHDR_SIZE in *. rewrite (proj2 (Z.ltb_ge _ 0)) by lia. cbn [orb]. change (2 ^ 32 <=? 0 + 52) with false. cbv iota.
    rewrite Z.min_r by lia. rewrite u32_small by lia.
    rewrite (proj2 (Z.ltb_lt _ 52)) by lia. rewrite (bad_zero ip k s a f2 a2 Hclose). eexists. split; [reflexivity|]. apply Hnone. by left. }
  rewrite (file_read_ok c 0 ELFHDR_SIZE) by (unfold ELFHDR_SIZE in *; lia). change (u32 ELFHDR_SIZE <? ELFHDR_SIZE) with false. cbv iota zeta.
  change (Z.to_nat 0) with 0%nat. change (Z.to_nat ELFHDR_SIZE) with 52%nat.
  set (elf := decode_elfhdr (slice c 0 52)). destruct (Z.eqb_spec (magic elf) ELF_MAGIC) as [_|_]; cbn [negb].
  2: { rewrite (run_seterr present _ cp) by done. rewrite (bad_zero ip (k_err cp _ k) s a f2 a2 (Hclose' _)). eexists. split; [reflexivity|].
  apply Hnone. right. by eexists. }
  destruct (setupkvm_loading s Hs) as (d & s1 & E1 & Hd & HL); [lia|]. rewrite (run_on_vm present _ _ _ _ _ _ _ E1).
  rewrite (proj2 (Z.eqb_neq _ _) Hd).
  pose proof (load_segments_ok present devsw_read kend (kernel_map kdata) kernel_map_none L0 others (kp_mem s) room Hroom ip (fs k) a c Hread Hbytes Hlen
    d k cp eq_refl Hc (Z.to_nat (phnum elf)) (s32 (phoff elf)) 0 (fun _ => 0) s1 HL ltac:(unfold KERNBASE; lia) ltac:(lia)) as HI. rewrite Spec.run_bind.
  destruct (image_of c room (Z.to_nat (phnum elf)) (s32 (phoff elf)) 0 (fun _ => 0)) as [sz img| |]; [| |done].
  2: { destruct HI as (s' & m & hi & img' & -> & HL').
  destruct (loading_free kend Hkend _ _ _ _ pd PT PU (sy_space _ _ _ _ _ _ _ Hs) _ _ _ _ _ HL') as (s2 & L' & E2 & R1 & R2 & R3).
    rewrite (bad_some d ip (k_err cp m k) s' a s2 f2 a2 Hd E2 (Hclose' m)). eexists. split; [reflexivity|]. exists L', (set_fs f2 (k_err cp m k)).
    split_and!; [right; by exists m|done..]. }
  destruct HI as (s2 & -> & HL2 & Hsz & Hszr). destruct (Z.ltb_spec room (pages_of sz + 2)) as [|Hfit]; [done|].
  rewrite (run_close _ _ _ _ _ _ _ Hclose).
  pose proof (build_stack_ok present kend (kernel_map kdata) kernel_map_none (kernel_map_private kdata) L0 others (kp_mem s) room Hroom a2 d (set_fs f2 k) cp sz img s2 argv Hc HL2 Hsz Hfit ltac:(lia) Hargv) as HB.
  cbv zeta in HB. rewrite Spec.run_bind. destruct (stack_layout sz argv) as [[[ps sp] top]|].
  2: { destruct HB as (k' & s' & img' & -> & Hk' & HL').
  destruct (loading_free kend Hkend _ _ _ _ pd PT PU (sy_space _ _ _ _ _ _ _ Hs) _ _ _ _ _ HL') as (s3 & L' & E2 & R1 & R2 & R3).
    rewrite (bad_none d k' s' a2 s3 Hd E2). eexists. split; [reflexivity|]. by exists L', k'. }
  destruct HB as (s3 & img' & -> & HL3 & B1 & B2 & B3).
  destruct (loading_swap kend Hkend _ _ _ _ pd PT PU (sy_space _ _ _ _ _ _ _ Hs) _ _ _ _ _ HL3) as (s' & L & T & U & E4 & S1 & S2 & S3).
  exists d, s', L, T, U, img'. split; [|by split_and!].
  unfold commit_image. set (k2 := set_fs f2 k).
  rewrite (run_on_k present curproc _ k2 s3 cp k2 a2 a2) by (unfold curproc, kget; cbn [Spec.run mbind prog_bind mret prog_ret]; by rewrite (Hc : cur k2 = Some cp)).
  rewrite (run_on_k present (proc_at cp) _ k2 s3 p k2 a2 a2) by (unfold proc_at, kget; cbn [Spec.run mbind prog_bind mret prog_ret]; by rewrite (Hp : procs k2 !! cp = Some p)).
  set (k3 := set_procs (<[cp := became path d top sp (entry elf) p]> (procs k2)) k2).
  rewrite (run_on_k present (upd_proc cp _) _ k2 s3 tt k3 a2 a2).
  2: { unfold upd_proc, kset, kmodify. cbn [Spec.run]. f_equal. f_equal. unfold k3. f_equal. apply list_eq. intros i.
  destruct (decide (i = cp)) as [->|Hi].
    - rewrite list_lookup_alter_eq, list_lookup_insert_eq by (by eapply lookup_lt_Some, (Hp : procs k2 !! cp = Some p)).
      by rewrite (Hp : procs k2 !! cp = Some p).
    - by rewrite list_lookup_alter_ne, list_lookup_insert_ne by done. }
  rewrite Hpg. rewrite Z2Nat.id by (by eapply sys_dir_nonneg). rewrite (run_on_vm present _ _ _ _ _ _ _ E4). done.
Qed.
End exec.

(** What [readi] answers, off the end and past 4G too. *)
Lemma readi_file present devsw_read i x a ip sb off n : icache x !! i = Some ip -> FsData.readable present a (i_dev ip) -> fs_ok a (i_dev ip) sb -> file_ok a sb ip ->
  i_type ip <> T_DEV -> 0 <= off < 2 ^ 32 -> 0 <= n < 2 ^ 32 -> Spec.run present (readi devsw_read i off n) x a = Ok (file_read (FsData.contents a ip) off n) (x, a).
Proof.
  intros Hi Hr Hfs Hf Ht Ho Hn. unfold file_read. destruct (Z.leb_spec (2 ^ 32) (off + n)) as [Hw|Hw].
  - rewrite orb_true_r. unfold readi. rewrite (run_iat present i ip) by done. rewrite (proj2 (Z.eqb_neq _ _) Ht).
    assert (u32 (off + n) = off + n - 2 ^ 32) as -> by (unfold u32; rewrite <- (Z_mod_plus_full _ (-1)), Z.mod_small; lia).
    rewrite (proj2 (Z.ltb_lt (off + n - 2 ^ 32) off)) by lia. by rewrite orb_true_r.
  - rewrite orb_false_r. rewrite (readi_ok present devsw_read i x a ip sb off n) by (done || lia). done.
Qed.

(** C9: [exec] loads a program or changes nothing.  For a file whose segments are
    page aligned and take at most [room] pages, of which twice as many are free,
    [exec] either returns 0: the process then has a fresh address space, in which
    it reads the segments of the file over zeroes, above them a page it cannot
    reach and the stack with the number and the addresses of its arguments and
    the argument strings, and the pages of the old address space are free.  Or it
    returns -1: the old address space and every other process are as they were,
    no page is lost, and only the error message of the process is set. *)
Theorem exec_all_or_nothing present devsw_read kend kdata L0 O pd PT PU i ip sb room path argv k cp p s a f2 a2 :
  KERNBASE < kend -> kdata_ok kdata -> 1025 + 2 * room <= Z.of_nat (length L0) -> 0 < room < 2 ^ 19 ->
  Forall (fun t => Forall is_byte t /\ Z.of_nat (length t) + 4 <= 4096) argv ->
  cur k = Some cp -> procs k !! cp = Some p -> pgdir p = Some (Z.to_nat pd) -> sys kend s L0 pd PT PU O ->
  icache (fs k) !! i = Some ip -> FsData.readable present a (i_dev ip) -> fs_ok a (i_dev ip) sb -> file_ok a sb ip -> i_type ip <> T_DEV -> Forall is_byte (FsData.contents a ip) ->
  Spec.run present (close_fs i) (fs k) a = Ok tt (f2, a2) ->
  match exec_outcome (FsData.contents a ip) room argv with
  | Runs eip g sp top ps img => exists d s' L T U img',
      Spec.run present (exec_file devsw_read kend kdata path argv i) (XMem k s) a =
        Ok 0 (XMem (set_procs (<[cp := became path d top sp eip p]> (procs k)) (set_fs f2 k)) s', a2) /\
      sys kend s' L d T U O /\ holds (kernel_map kdata) (kp_mem s') U (Some g) (g + 2) img' /\
      L ++ d :: tabs T ++ frames U ≡ₚ L0 ++ pd :: tabs PT ++ frames PU /\
      reads img' sp (words4 ([0xffffffff; Z.of_nat (length argv); sp + 12] ++ ps ++ [0])) /\
      Forall2 (fun p t => reads img' p (t ++ [0])) ps argv /\ (forall va, va < sp -> img' va = img va)
  | Fails => exists x, Spec.run present (exec_file devsw_read kend kdata path argv i) (XMem k s) a = Ok (-1) (x, a2) /\ gave_up kend L0 O pd PT PU cp f2 k s x
  | Unspecified => True
  end.
Proof.
  intros Hk Hd HL Hr Hargv Hc Hp Hpg Hs Hi Hrd Hfs Hf Ht Hb Hcl.
  eapply (exec_file_ok present devsw_read kend kdata Hk Hd L0 O pd PT PU i (FsData.contents a ip) room path argv); try done.
  - rewrite length_contents by apply Hf. pose proof (fo_size _ _ _ Hf). unfold MAXFILE, NINDIRECT in *. lia.
  - intros off n Ho Hn. by apply (readi_file present devsw_read i (fs k) a ip sb).
Qed.

(** ** A program *)

Module ExecSample.
Import Spec BlockIO Sample DataSample.

(** An ELF file with one segment: four bytes of code at 4096, and the arguments. *)
Definition u16s (ws : list Z) : list Z := concat (le_bytes 2 <$> ws).
Definition elf_file : list Z :=
  words4 [ELF_MAGIC; 0; 0; 0; 0; 1; 4096; 52; 0; 0] ++ u16s [52; 32; 1; 0; 0; 0] ++
  words4 [ELF_PROG_LOAD; 84; 4096; 4096; 4; 16; 5; 4096] ++ [184; 1; 0; 195].
Definition elf_block : list Z := elf_file ++ replicate 424 0.
Definition args : list (list Z) := [[101; 99; 104; 111]; [104; 105]].
Definition proc_of (pd : Z) : proc := set_pgdir (Some (Z.to_nat pd)) FileSample.proc1.
Definition kernel_of (pd : Z) : kmem := set_procs [proc_of pd] (set_fs (fs_one 88) FileSample.kmem1).

Lemma exec_all_or_nothing_witness : exists s pd d s' L T U O img f2 a2,
  Spec.run Concrete.only0 (exec_file (fun _ => None) VmSample.kend VmSample.kdata [47; 101] args 0) (XMem (kernel_of pd) s) (drive_one elf_block) =
    Ok 0 (XMem (set_procs [became [47; 101] d 16384 16348 4096 (proc_of pd)] (set_fs f2 (kernel_of pd))) s', a2) /\
  holds (kernel_map VmSample.kdata) (kp_mem s') U (Some 2) 4 img /\ sys VmSample.kend s' L d T U O /\ img 4096 = 184 /\ reads img 16376 [101; 99; 104; 111; 0].
Proof.
  destruct VmSample.some_process as (s & L0 & pd & PT & PU & O & Hs & Hl & _).
  assert (exists f2 a2, Spec.run Concrete.only0 (close_fs 0) (fs (kernel_of pd)) (drive_one elf_block) = Ok tt (f2, a2)) as (f2 & a2 & Hcl) by (eexists _, _; vm_compute; reflexivity).
  assert (FsData.contents (drive_one elf_block) (one_block 88) = elf_file) as EC by (vm_compute; reflexivity).
  pose proof (exec_all_or_nothing Concrete.only0 (fun _ => None) VmSample.kend VmSample.kdata L0 O pd PT PU 0 (one_block 88) sb0 100 [47; 101] args
    (kernel_of pd) 0 (proc_of pd) s (drive_one elf_block) f2 a2) as H. rewrite EC in H.
  assert (match exec_outcome elf_file 100 args with Runs e g sp top ps img => (e, g, sp, top, ps, img 4096) = (4096, 2, 16348, 16384, [16376; 16372], 184) | _ => False end) as Ho by (vm_compute; reflexivity).
  destruct (exec_outcome elf_file 100 args) as [e g sp top ps img| |]; [|done|done]. injection Ho as -> -> -> -> -> Hcode.
  destruct H as (d & s' & L & T & U & img' & R1 & R2 & R3 & _ & _ & R4 & R5).
  - unfold VmSample.kend, KERNBASE. lia.
  - apply VmSample.kdata_fits.
  - lia.
  - lia.
  - by apply (bool_decide_unpack _).
  - done.
  - done.
  - done.
  - done.
  - done.
  - apply readable_one.
  - by apply fs_one_ok.
  - by apply file_one_ok.
  - done.
  - by apply (bool_decide_unpack _).
  - done.
  - exists s, pd, d, s', L, T, U, O, img', f2, a2. split; [exact R1|]. split; [exact R3|]. split; [exact R2|]. split; [by rewrite R5 by lia|].
    apply list.Forall2_cons in R4 as [R4 _]. exact R4.
Defined.
End ExecSample.
