(* ===== verification/Mkproto.v ===== *)
(** The file system builder ([Tools/mkproto.c]).

    A file system under construction is its image file, a map from block numbers
    to blocks, with the bitmap, the superblock and the lists of directories and
    files the program keeps in memory.  Leaving through [exit(1)] is [Panic].
    Strings are the bytes before the NUL.  Allocation on the host succeeds, the
    image file can be opened and written, no two file systems share one; a write
    past an array is a [Panic] too.  Messages are left out. *)

From S2P Require Import Prelude Params CString Bio Disk Log Fs.

(** ** Strings of the host *)

Definition isspace (c : Z) : bool := (c =? 32) || ((9 <=? c) && (c <=? 13)).

(** [strtrim]: trailing and leading space; [before] is the byte before the
    copy, which the first loop reads when nothing else is left. *)
Fixpoint trim_tail (before : Z) (rev : list Z) : option (list Z) :=
  match rev with
  | [] => if isspace before then None else Some []
  | c :: rev' => if isspace c then trim_tail before rev' else Some rev
  end.
Fixpoint trim_head (s : list Z) : list Z :=
  match s with [] => [] | c :: s' => if isspace c then trim_head s' else s end.
Definition strtrim (before : Z) (str : list Z) : option (list Z) := (fun r => trim_head (rev r)) <$> trim_tail before (rev str).

Fixpoint strsep (delim s : list Z) : list Z * option (list Z) :=
  match s with
  | [] => ([], None)
  | c :: s' => if bool_decide (c ∈ delim) then ([], Some s') else let '(t, r) := strsep delim s' in (c :: t, r)
  end.
(** The loop that skips empty tokens; a token that is empty leaves less. *)
Fixpoint strsep_loop (fuel : nat) (delim : list Z) (stringp : option (list Z)) : option (list Z) * option (list Z) :=
  match fuel, stringp with
  | S f, Some s => match strsep delim s with ([], r) => strsep_loop f delim r | (t, r) => (Some t, r) end
  | _, _ => (None, None)
  end.
Definition strsep_wrapper (delim : list Z) (stringp : option (list Z)) : option (list Z) * option (list Z) :=
  strsep_loop (S (length (default [] stringp))) delim stringp.

Definition is_digit (c : Z) : bool := (48 <=? c) && (c <=? 57).
Fixpoint digits (s : list Z) (n : Z) : Z :=
  match s with c :: s' => if is_digit c then digits s' (10 * n + (c - 48)) else n | [] => n end.
Definition decimal (s : list Z) : Z :=
  match trim_head s with 45 :: s' => - digits s' 0 | 43 :: s' => digits s' 0 | s' => digits s' 0 end.
(** Both are limited to the range of the host's 64-bit [long]. *)
Definition strtoul (s : list Z) : Z := let d := decimal s in u32 (if 2 ^ 64 <=? Z.abs d then -1 else d).
Definition atoi (s : list Z) : Z := s32 (Z.max (- 2 ^ 63) (Z.min (2 ^ 63 - 1) (decimal s))).

(** [fgets] into 256 bytes: up to and with a newline, at most 255 bytes; then
    [strdup] stops at a NUL. *)
Fixpoint fgets (n : nat) (s : list Z) : list Z * list Z :=
  match n, s with
  | S n', c :: s' => if c =? 10 then ([c], s') else let '(l, r) := fgets n' s' in (c :: l, r)
  | _, _ => ([], s)
  end.
Fixpoint cut (s : list Z) : list Z := match s with [] => [] | c :: s' => if c =? 0 then [] else c :: cut s' end.
Definition readline (s : list Z) : option (list Z * list Z) :=
  match fgets 255 s with ([], _) => None | (l, r) => Some (cut l, r) end.

(** ** Permissions *)

Definition char_at (s : list Z) (i : nat) : Z := default 0 (s !! i).
(** One letter: set the bit, skip a dash, or neither. *)
Definition perm_letter (s : list Z) (c bit : Z) (st : Z * nat) : Z * nat :=
  let '(perms, i) := st in
  if (char_at s i =? c) && (i <? length s)%nat then (Z.lor perms bit, S i)
  else if (char_at s i =? 45) && (i <? length s)%nat then (perms, S i) else (perms, i).
Definition parseperms2 (s : list Z) (world : bool) : Z :=
  let st := perm_letter s 114 (if world then W_READ else U_READ) (0, 0%nat) in
  let st := perm_letter s 119 (if world then W_WRITE else U_WRITE) st in
  let st := perm_letter s 120 (if world then W_EXEC else U_EXEC) st in
  let '(perms, i) := st in
  if (char_at s i =? 104) && (i <? length s)%nat then Z.lor perms (if world then W_HIDDEN else U_HIDDEN) else perms.
Definition parseperms1 (s : list Z) : Z :=
  if negb (char_at s 1 =? 58) then -1 else
  if (char_at s 0 =? 117) || (char_at s 0 =? 85) then parseperms2 (drop 2 s) false else
  if (char_at s 0 =? 119) || (char_at s 0 =? 87) then parseperms2 (drop 2 s) true else -1.
Definition parseperms (field1 field2 : list Z) : Z := Z.lor (parseperms1 field1) (parseperms1 field2).

(** [(perms&BIT) == BIT ? c : '-'] *)
Definition fmt_letter (perms bit c : Z) : Z := if Z.land perms bit =? bit then c else 45.
Definition fmtpermsn (perms : Z) (buflen : Z) : option (list Z) :=
  if buflen <? 16 then None else
  Some ([117; 58; fmt_letter perms U_READ 114; fmt_letter perms U_WRITE 119; fmt_letter perms U_EXEC 120; fmt_letter perms U_HIDDEN 104; 32;
         119; 58; fmt_letter perms W_READ 114; fmt_letter perms W_WRITE 119; fmt_letter perms W_EXEC 120; fmt_letter perms W_HIDDEN 104]).

(** ** The file system *)

Record Dir := MkDir { d_name : list Z; d_parent : Z; d_ino : Z; d_owner : Z; d_perms : Z }.
Record File := MkFile { fl_name : list Z; srcfile : list Z; fl_home : Z; fl_owner : Z; fl_perms : Z; fl_ino : Z }.
Record Fs := MkFs {
  img : gmap Z block;
  fd : bool;            (* whether the image file is open *)
  fsize : Z;
  freeinode : Z;
  bmap : list Z;
  sb : superblock;
  dirs : list Dir;
  files : list File
}.
Definition set_img (v : gmap Z block) (f : Fs) : Fs := {| img := v; fd := fd f; fsize := fsize f; freeinode := freeinode f; bmap := bmap f; sb := sb f; dirs := dirs f; files := files f |}.
Definition set_fd (v : bool) (f : Fs) : Fs := {| img := img f; fd := v; fsize := fsize f; freeinode := freeinode f; bmap := bmap f; sb := sb f; dirs := dirs f; files := files f |}.
Definition set_freeinode (v : Z) (f : Fs) : Fs := {| img := img f; fd := fd f; fsize := fsize f; freeinode := v; bmap := bmap f; sb := sb f; dirs := dirs f; files := files f |}.
Definition set_bmap (v : list Z) (f : Fs) : Fs := {| img := img f; fd := fd f; fsize := fsize f; freeinode := freeinode f; bmap := v; sb := sb f; dirs := dirs f; files := files f |}.
Definition set_sb (v : superblock) (f : Fs) : Fs := {| img := img f; fd := fd f; fsize := fsize f; freeinode := freeinode f; bmap := bmap f; sb := v; dirs := dirs f; files := files f |}.
Definition set_dirs (v : list Dir) (f : Fs) : Fs := {| img := img f; fd := fd f; fsize := fsize f; freeinode := freeinode f; bmap := bmap f; sb := sb f; dirs := v; files := files f |}.
Definition set_files (v : list File) (f : Fs) : Fs := {| img := img f; fd := fd f; fsize := fsize f; freeinode := freeinode f; bmap := bmap f; sb := sb f; dirs := dirs f; files := v |}.

(** The block at the offset [blk * BSIZE], which is an [uint]. *)
Definition sect (blk : Z) : Z := u32 (blk * 512) / 512.
Definition wsect (buf : block) (blk : Z) : M Fs unit :=
  o ← gets fd;
  if negb o then panic "lseek" else modify (fun f => set_img (<[sect blk := buf]> (img f)) f).
(** Past the end of the image the read is short. *)
Definition rsect (blk : Z) : M Fs block :=
  f ← get;
  if negb (fd f) then panic "lseek" else match img f !! sect blk with Some b => mret b | None => panic "read" end.

Definition rinode (inum : Z) : M Fs (list Z) :=
  s ← gets sb;
  b ← rsect (IBLOCK inum s);
  mret (get_dinode b inum).
Definition winode (inum : Z) (ip : list Z) : M Fs unit :=
  s ← gets sb;
  b ← rsect (IBLOCK inum s);
  wsect (put_dinode b inum ip) (IBLOCK inum s).

(** A new disk inode: type, link count, owner and permissions. *)
Definition new_dinode (type owner perms : Z) : list Z :=
  store_le (store_le (store_le (store_le (replicate DINODE_SIZE 0) 0 2 type) 10 2 1) 6 2 owner) 8 1 perms.
Definition ialloc (type owner perms : Z) : M Fs Z :=
  inum ← gets freeinode;
  modify (set_freeinode (u32 (inum + 1))) ;;
  winode inum (new_dinode type owner perms) ;;
  mret inum.

(** The first clear bit of the bitmap from block 1 on. *)
Definition balloc : M Fs Z :=
  f ← get;
  match scan (fun i => negb (bit (bmap f) (Z.to_nat i))) (seqZ 1 (fsize f - 1)) with
  | Some (_, i) => modify (set_bmap (mark (bmap f) (Z.to_nat i))) ;; mret i
  | None => panic "mkproto: unable to allocate block. filesystem full"
  end.

(** [din.addrs[k]] *)
Definition din_addr (din : list Z) (k : nat) : Z := load_le din (16 + 4 * k) 4.
(** The block for the [fbn]th block of the file, allocating what is missing: the
    inode and the block's number. *)
Definition iappend_block (din : list Z) (fbn : Z) : M Fs (list Z * Z) :=
  let '(bk, pt) := offset2real fbn in
  if (NDIRECT <=? bk)%nat then panic "din.addrs" else
  din ← (if din_addr din bk =? 0 then nb ← balloc; mret (store_le din (16 + 4 * bk) 4 nb) else mret din);
  indirect ← rsect (din_addr din bk);
  if load_le indirect (4 * pt) 4 =? 0 then
    nb ← balloc;
    let indirect := store_le indirect (4 * pt) 4 nb in
    wsect indirect (din_addr din bk) ;;
    mret (din, load_le indirect (4 * pt) 4)
  else mret (din, load_le indirect (4 * pt) 4).

(** The loop of [iappend]; each iteration writes a byte at least. *)
Fixpoint iappend_loop (fuel : nat) (din : list Z) (p : list Z) (off : Z) : M Fs (list Z * Z) :=
  match p with
  | [] => mret (din, off)
  | _ =>
    match fuel with
    | O => panic "iappend: out of fuel"
    | S f =>
      let sz := Z.of_nat (length p) in
      let '(fbn, sboff, wrlen) :=
        if negb (off mod 512 =? 0) then (off / 512, off mod 512, if sz <? 512 - off mod 512 then sz else 512 - off mod 512)
        else if off =? 0 then (0, 0, if sz <? 512 then sz else 512)
        else (off / 512, 0, if sz <? 512 then sz else 512) in
      '(din, raddr) ← iappend_block din fbn;
      buf ← rsect raddr;
      wsect (splice buf (Z.to_nat sboff) (take (Z.to_nat wrlen) p)) raddr ;;
      iappend_loop f din (drop (Z.to_nat wrlen) p) (u32 (off + wrlen))
    end
  end.
Definition iappend (ino : Z) (data : list Z) : M Fs unit :=
  din ← rinode ino;
  '(din, off) ← iappend_loop (length data) din data (load_le din 12 4);
  winode ino (store_le din 12 4 off).

(** ** The superblock and the bitmap *)

Definition encode_sb (s : superblock) : block :=
  label s ++ [version s; bootable s; system s] ++ [0; 0] ++
  concat (le_bytes 4 <$> [sb_size s; nblocks s; ninodes s; nlog s; logstart s; inodestart s; bmapstart s; bootinode s; kerninode s]) ++ replicate 460 0.

(** [for(i = 0; i*BSIZE < bmapsz; i++)] *)
Definition sync_bitmap (f : Fs) : M Fs unit :=
  for_each (seqZ 0 ((fsize f / 4096 + 1 + 511) / 512)) (fun i => wsect (slice (bmap f) (BSIZE * Z.to_nat i) BSIZE) (bmapstart (sb f) + i)).
Definition syncfs : M Fs unit :=
  f ← get;
  sync_bitmap f ;;
  wsect (encode_sb (sb f)) 1.
(** [closefs]; the number of blocks in use is for a message. *)
Definition blocks_used (f : Fs) : Z := 1 + Z.of_nat (length (filter (fun i => bit (bmap f) (Z.to_nat i) = true) (seqZ 1 (fsize f - 1)))).
Definition closefs : M Fs Z :=
  n ← gets blocks_used;
  modify (set_fd false) ;;
  mret n.

(** A directory entry: its name goes in with [strcpy], or [strncpy] for files. *)
Definition dirent (inum : Z) (name : list Z) : list Z := make_dirent name inum.
Definition strcpy_dirent (inum : Z) (name : list Z) : M Fs (list Z) :=
  if (DIRSIZ <=? length name)%nat then panic "strcpy: de.name" else mret (dirent inum name).

Definition nbitmap_of (size : Z) : Z := size / 4096 + 1.
Definition nmeta_of (size logsize inodes : Z) : Z := 2 + logsize + (inodes / IPB + 1) + nbitmap_of size.
Definition sb_of (lbl : list Z) (size logsize inodes : Z) : superblock :=
  {| label := lbl ++ replicate (11 - length lbl) 0; version := 0; bootable := 0; system := 1;
     sb_size := size; nblocks := u32 (size - nmeta_of size logsize inodes); ninodes := inodes; nlog := logsize;
     logstart := 2; inodestart := 2 + logsize; bmapstart := 2 + logsize + (inodes / IPB + 1); bootinode := 0; kerninode := 0 |}.
Definition dirperms : Z := Z.lor (Z.lor U_READ U_EXEC) (Z.lor W_READ W_EXEC).

(** The file system before anything is written: blocks for metadata are marked. *)
Definition blank_fs (lbl : list Z) (size logsize inodes : Z) : Fs :=
  {| img := ∅; fd := true; fsize := size; freeinode := 1;
     bmap := foldl (fun b i => mark b (Z.to_nat i)) (replicate (Z.to_nat (nbitmap_of size) * BSIZE) 0) (seqZ 0 (nmeta_of size logsize inodes));
     sb := sb_of lbl size logsize inodes; dirs := []; files := [] |}.
Definition makefs_body (size : Z) : M Fs unit :=
  for_each (seqZ 0 size) (wsect zero_block) ;;
  s ← gets sb;
  wsect (encode_sb s) 1 ;;
  root ← ialloc T_DIR (-1) dirperms;
  de ← strcpy_dirent root [46];
  iappend root de ;;
  de ← strcpy_dirent root [46; 46];
  iappend root de ;;
  modify (set_dirs [MkDir [47] root root 0 dirperms]) ;;
  syncfs.
Definition makefs (lbl : list Z) (size logsize inodes : Z) : res Fs unit :=
  let f := blank_fs lbl size logsize inodes in
  if (10 <? length lbl)%nat then Panic "mkproto: label too long" f else makefs_body size f.

Definition makedir (name : list Z) (parent : Dir) (owner perms : Z) : M Fs Dir :=
  ino ← ialloc T_DIR owner perms;
  let newdir := MkDir name (d_ino parent) ino owner perms in
  de ← strcpy_dirent ino name;
  iappend (d_ino parent) de ;;
  de ← strcpy_dirent ino [46];
  iappend ino de ;;
  de ← strcpy_dirent (d_ino parent) [46; 46];
  iappend ino de ;;
  modify (fun f => set_dirs (dirs f ++ [newdir]) f) ;;
  mret newdir.

Definition streq (a b : list Z) : bool := bool_decide (a = b).
Definition finddir (f : Fs) (name : list Z) : option Dir := snd <$> scan (fun d => streq name (d_name d)) (dirs f).
Definition findfile (f : Fs) (name : list Z) : option File := snd <$> scan (fun x => streq name (fl_name x)) (files f).

Section host.
(** The files of the host: what successive reads of up to [BSIZE] bytes return
    until there is no more. *)
Context (host : list Z -> option (list (list Z))).

Definition makefile (name : list Z) (home : Dir) (src : list Z) (owner perms : Z) : M Fs File :=
  ino ← ialloc T_FILE owner perms;
  match host src with
  | None => panic "open"
  | Some reads =>
    iappend (d_ino home) (dirent ino name) ;;
    for_each reads (iappend ino) ;;
    let newfile := MkFile name src (d_ino home) owner perms ino in
    modify (fun f => set_files (files f ++ [newfile]) f) ;;
    mret newfile
  end.

Definition kernelbrand (k : File) : M Fs unit :=
  modify (fun f => let s := sb f in
    set_sb {| label := label s; version := version s; bootable := bootable s; system := system s; sb_size := sb_size s; nblocks := nblocks s;
              ninodes := ninodes s; nlog := nlog s; logstart := logstart s; inodestart := inodestart s; bmapstart := bmapstart s;
              bootinode := bootinode s; kerninode := u16 (fl_ino k) |} f).
Definition bootbrand (b : File) : M Fs unit :=
  modify (fun f => let s := sb f in
    set_sb {| label := label s; version := version s; bootable := 1; system := system s; sb_size := sb_size s; nblocks := nblocks s;
              ninodes := ninodes s; nlog := nlog s; logstart := logstart s; inodestart := inodestart s; bmapstart := bmapstart s;
              bootinode := u16 (fl_ino b); kerninode := kerninode s |} f).
Definition writembr (file : list Z) : M Fs unit :=
  match host file with
  | None => panic "open"
  | Some reads =>
    let buf := concat reads in
    if negb (length buf =? 512)%nat then panic "size invalid" else
    if negb ((char_at buf 510 =? 0x55) && (char_at buf 511 =? 0xaa)) then panic "mbr is not signed!" else wsect buf 0
  end.

(** ** Entries *)

Inductive etype := FSYS | DIRECT | EFILE | KERNEL | BOOTLOADER | SYNC | FSYS_NOLOG | MBR.
#[global] Instance etype_eq_dec : EqDecision etype.
Proof. solve_decision. Defined.
Record Entry := MkEntry { e_type : etype; e_active : bool; e_fs : option nat; e_name : list Z; e_home : list Z; e_source : list Z; e_size : Z; e_owner : Z; e_perms : Z }.

(** What [doentry] does to the entry's file system. *)
Definition doentry_fs (e : Entry) : M Fs unit :=
  match e_type e with
  | DIRECT =>
    f ← get;
    match finddir f (e_home e) with
    | None => panic "directory not defined!"
    | Some d => makedir (e_name e) d (e_owner e) (e_perms e) ;; mret tt
    end
  | EFILE =>
    f ← get;
    match finddir f (e_home e) with
    | None => panic "directory not defined!"
    | Some d => makefile (e_name e) d (e_source e) (e_owner e) (e_perms e) ;; mret tt
    end
  | KERNEL =>
    f ← get;
    match findfile f (e_name e) with None => panic "file not defined!" | Some x => kernelbrand x end
  | BOOTLOADER =>
    f ← get;
    match findfile f (e_name e) with None => panic "file not defined!" | Some x => bootbrand x end
  | SYNC => syncfs ;; closefs ;; mret tt
  | MBR => writembr (e_source e)
  | FSYS | FSYS_NOLOG => mret tt
  end.

(** ** The program *)

(** The file systems made so far, the one that entries are added to, and the entries. *)
Record mk := Mk { fss : list Fs; active : option nat; entries : list Entry }.

(** The options: [-n], [-o] and [-s], [-c]; and the byte [strtrim] reads before its copy. *)
Record options := Options { neuter : bool; altfsfile : option (list Z); altsize : option (list Z); cont : bool; before : Z }.
Context (opt : options).

Definition trimmed {S} (s : list Z) : M S (list Z) :=
  match strtrim (before opt) s with Some t => mret t | None => panic "strtrim" end.

(** Run on one of the file systems. *)
Definition on_fs {A} (i : option nat) (c : M Fs A) : M mk A := fun s =>
  match i ≫= (fun i => fss s !! i) with
  | None => Panic "nil fs" s
  | Some f =>
    let put f' := Mk (alter (fun _ => f') (default 0%nat i) (fss s)) (active s) (entries s) in
    match c f with Ok v f' => Ok v (put f') | Panic m f' => Panic m (put f') | Blocked f' => Blocked (put f') | PowerFail f' => PowerFail (put f') end
  end.

Definition makeentry (f : option nat) (t : etype) (name home source : list Z) (size owner perms : Z) : M mk Entry :=
  name ← trimmed name;
  home ← trimmed home;
  source ← trimmed source;
  mret (MkEntry t true f name home source size owner perms).
Definition addentry (e : Entry) : M mk unit := modify (fun s => Mk (fss s) (active s) (entries s ++ [e])).

Definition neuter_fs (name : list Z) : Fs :=
  {| img := ∅; fd := false; fsize := 0; freeinode := 0; bmap := []; sb := decode_sb zero_block; dirs := []; files := [] |}.
(** [doentry] of a file system: the new one is [active] from here on. *)
Definition dofsys (e : Entry) : M mk unit := fun s =>
  let logsize := if bool_decide (e_type e = FSYS) then LOGSIZE else 0 in
  let r := if neuter opt then Ok tt (neuter_fs (e_name e)) else makefs (e_name e) (e_size e) logsize (e_size e / 10) in
  let put f := Mk (fss s ++ [f]) (Some (length (fss s))) (entries s) in
  match r with Ok _ f => Ok tt (put f) | Panic m f => Panic m (put f) | Blocked f => Blocked (put f) | PowerFail f => PowerFail (put f) end.

(** The [i]th entry; one that is done is not done again. *)
Definition doentry (i : nat) : M mk unit :=
  o ← gets (fun s => entries s !! i);
  match o with
  | None => mret tt
  | Some e =>
    if negb (e_active e) then mret tt else
    (if neuter opt && bool_decide (e_type e = MBR) then mret tt else on_fs (e_fs e) (doentry_fs e)) ;;
    modify (fun s => Mk (fss s) (active s)
      (alter (fun e => MkEntry (e_type e) false (e_fs e) (e_name e) (e_home e) (e_source e) (e_size e) (e_owner e) (e_perms e)) i (entries s)))
  end.

(** Fields: [strsep_wrapper] as often as there are delimiters; missing ones are [None]. *)
Fixpoint fields (delims : list (list Z)) (sp : option (list Z)) : list (option (list Z)) :=
  match delims with
  | [] => []
  | d :: ds => let '(t, r) := strsep_wrapper d sp in t :: fields ds r
  end.
Definition blanks : list Z := [32; 9].
Definition commas : list Z := [44; 32; 9].

Definition kw_fsys : list Z := [102; 115; 121; 115].
Definition kw_fsys_nolog : list Z := kw_fsys ++ [95; 110; 111; 108; 111; 103].
Definition kw_direct : list Z := [100; 105; 114; 101; 99; 116].
Definition kw_file : list Z := [102; 105; 108; 101].
Definition kw_kernel : list Z := [107; 101; 114; 110; 101; 108].
Definition kw_boot : list Z := [98; 111; 111; 116].
Definition kw_sync : list Z := [115; 121; 110; 99].
Definition kw_mbr : list Z := [109; 98; 114].

(** Whether the line is good. *)
Definition parseentrystring (line : list Z) : M mk bool :=
  linedup ← trimmed line;
  let '(token, sp) := strsep_wrapper blanks (Some linedup) in
  match token with
  | None => mret true
  | Some token =>
    if char_at token 0 =? 10 then mret true else
    cur ← gets active;
    if streq token kw_fsys || streq token kw_fsys_nolog then
      match fields [blanks; blanks; blanks] sp with
      | [Some name; Some source0; s_size0] =>
        match (match altsize opt with Some a => Some a | None => s_size0 end) with
        | None => mret false
        | Some s_size =>
          e ← makeentry None (if streq token kw_fsys_nolog then FSYS_NOLOG else FSYS) name [] (default source0 (altfsfile opt)) (strtoul s_size) 0 0;
          dofsys e ;;
          addentry (MkEntry (e_type e) false (e_fs e) (e_name e) (e_home e) (e_source e) (e_size e) (e_owner e) (e_perms e)) ;;
          mret true
        end
      | _ => mret false
      end
    else if streq token kw_direct then
      match fields [blanks; blanks; blanks; commas; commas] sp with
      | [Some name; Some home; Some owner; Some perms1; Some perms2] =>
        e ← makeentry cur DIRECT name home [] 0 (atoi owner) (s16 (parseperms perms1 perms2)); addentry e ;; mret true
      | _ => mret false
      end
    else if streq token kw_file then
      match fields [blanks; blanks; blanks; blanks; commas; commas] sp with
      | [Some home; Some name; Some source; Some owner; Some perms1; Some perms2] =>
        e ← makeentry cur EFILE name home source 0 (atoi owner) (s16 (parseperms perms1 perms2)); addentry e ;; mret true
      | _ => mret false
      end
    else if streq token kw_kernel then
      match fields [blanks] sp with [Some name] => e ← makeentry cur KERNEL name [] [] 0 0 0; addentry e ;; mret true | _ => mret false end
    else if streq token kw_boot then
      match fields [blanks] sp with [Some name] => e ← makeentry cur BOOTLOADER name [] [] 0 0 0; addentry e ;; mret true | _ => mret false end
    else if streq token kw_sync then e ← makeentry cur SYNC [] [] [] 0 0 0; addentry e ;; mret true
    else if streq token kw_mbr then
      match fields [blanks] sp with [Some name] => e ← makeentry cur MBR [77; 66; 82] [] name 0 0 0; addentry e ;; mret true | _ => mret false end
    else mret true
  end.

Definition runentries : M mk unit :=
  n ← gets (fun s => length (entries s));
  if neuter opt then mret tt else for_each (seq 0 n) doentry.

(** The prototype file, a line at a time; every line takes a byte at least. *)
Fixpoint read_proto (fuel : nat) (proto : list Z) : M mk bool :=
  match fuel, readline proto with
  | S f, Some (l, rest) => ok ← parseentrystring l; if negb ok && negb (cont opt) then mret false else read_proto f rest
  | _, _ => mret true
  end.
Definition main (proto : list Z) : M mk Z :=
  ok ← read_proto (length proto) proto;
  if negb ok then mret (-1) else runentries ;; mret 0.
End host.
