(* ===== verification/MkprotoFacts.v ===== *)
(** What [mkproto] builds is a file system to the kernel: the superblock, the
    bitmap and the inodes it writes make the kernel's [readi] return the bytes
    of the source files and of the directories. *)

From S2P Require Import Prelude Params CString Bio Disk Log Fs FsFormat FsOps FsData Mkproto.
Import Spec BlockIO.

(** Steps of the monad. *)
Ltac msteps := cbv [mbind M_bind mret M_ret gets get modify panic]; cbn beta iota.

(** ** Bitmaps *)

Section bits.
Local Open Scope nat_scope.
Lemma bit_slice (d : block) j i : i < 4096 -> bit (slice d (BSIZE * j) BSIZE) i = bit d (4096 * j + i).
Proof.
  intros Hi. unfold bit, BSIZE. assert (i / 8 < 512) by (apply Nat.Div0.div_lt_upper_bound; lia). rewrite lookup_slice by done.
  replace ((4096 * j + i) / 8) with (512 * j + i / 8) by (replace (4096 * j + i) with (i + (512 * j) * 8) by lia; rewrite Nat.div_add by lia; lia).
  replace ((4096 * j + i) mod 8) with (i mod 8) by (replace (4096 * j + i) with (i + (512 * j) * 8) by lia; by rewrite Nat.Div0.mod_add). done.
Qed.
Lemma mark_slice (d : block) j i : i < 4096 -> BSIZE * (j + 1) <= length d ->
  slice (mark d (4096 * j + i)) (BSIZE * j) BSIZE = mark (slice d (BSIZE * j) BSIZE) i.
Proof.
  intros Hi Hl. unfold mark, BSIZE in *. assert (i / 8 < 512) by (apply Nat.Div0.div_lt_upper_bound; lia).
  replace ((4096 * j + i) / 8) with (512 * j + i / 8) by (replace (4096 * j + i) with (i + (512 * j) * 8) by lia; rewrite Nat.div_add by lia; lia).
  replace ((4096 * j + i) mod 8) with (i mod 8) by (replace (4096 * j + i) with (i + (512 * j) * 8) by lia; by rewrite Nat.Div0.mod_add).
  apply list_eq. intros k. destruct (decide (k < 512)) as [Hk|Hk].
  - rewrite lookup_slice by done. destruct (decide (k = i / 8)) as [->|Hne].
    + rewrite !list_lookup_alter_eq. by rewrite lookup_slice.
    + rewrite !list_lookup_alter_ne by lia. by rewrite lookup_slice.
  - rewrite lookup_slice_ge by lia. symmetry. apply lookup_ge_None_2. rewrite length_alter, length_slice; lia.
Qed.
Lemma mark_slice_ne (d : block) j j' i : i < 4096 -> j <> j' -> slice (mark d (4096 * j + i)) (BSIZE * j') BSIZE = slice d (BSIZE * j') BSIZE.
Proof.
  intros Hi Hj. unfold mark, BSIZE in *. assert (i / 8 < 512) by (apply Nat.Div0.div_lt_upper_bound; lia).
  replace ((4096 * j + i) / 8) with (512 * j + i / 8) by (replace (4096 * j + i) with (i + (512 * j) * 8) by lia; rewrite Nat.div_add by lia; lia).
  apply list_eq. intros k. destruct (decide (k < 512)) as [Hk|Hk]; [|by rewrite !lookup_slice_ge by lia].
  rewrite !lookup_slice by done. rewrite list_lookup_alter_ne; [done|]. intros E.
  assert (j = j'); [|done]. apply (Nat.mul_cancel_l _ _ 512); [lia|]. destruct (Nat.lt_total j j') as [|[|]]; nia.
Qed.
End bits.

Section store.
Implicit Types (f : Mkproto.Fs) (a : astate) (sb : superblock).

(** The last block of the bitmap. *)
Definition bmap_last sb : Z := bmapstart sb + (sb_size sb - 1) / 4096.
Lemma is_bitmap_iff sb b : 0 < sb_size sb -> is_bitmap sb b <-> bmapstart sb <= b <= bmap_last sb.
Proof.
  intros Hs. unfold is_bitmap, bmap_last, BBLOCK, BPB. split.
  - intros (c & Hc & ->). dlia.
  - intros Hb. exists (4096 * (b - bmapstart sb)). dlia.
Qed.

(** The block as it will be when the bitmap is written. *)
Definition sector f (b : Z) : block :=
  if decide (bmapstart (sb f) <= b <= bmap_last (sb f)) then slice (bmap f) (BSIZE * Z.to_nat (b - bmapstart (sb f))) BSIZE
  else default zero_block (img f !! b).

(** The image under construction is a disk; free blocks are blank. *)
Record store_ok f a : Prop := {
  so_rep : forall b, view a (0, b) = sector f b;
  so_img : forall b, 0 <= b < fsize f -> is_Some (img f !! b);
  so_fsize : fsize f = sb_size (sb f);
  so_fs : fs_ok a 0 (sb f);
  so_zero : forall b, 0 <= b < fsize f -> in_use a 0 (sb f) b = false -> view a (0, b) = zero_block;
  so_bmap : (BSIZE * (Z.to_nat ((fsize f - 1) / 4096) + 1) <= length (bmap f))%nat;
  so_pos : 0 < fsize f;
  so_fd : fd f = true;
  so_rest : forall b, bmapstart (sb f) < b <= bmap_last (sb f) -> img f !! b = Some zero_block
}.

Lemma sector_bit f a b : (forall b, view a (0, b) = sector f b) -> 0 <= b < sb_size (sb f) -> in_use a 0 (sb f) b = bit (bmap f) (Z.to_nat b).
Proof.
  intros H Hb. unfold in_use. rewrite H. unfold sector, bmap_last, BBLOCK, BPB in *. rewrite decide_True by dlia.
  replace (b / 4096 + bmapstart (sb f) - bmapstart (sb f)) with (b / 4096) by lia. rewrite bit_slice by dlia. f_equal. dlia.
Qed.
Lemma use_bit f a b : store_ok f a -> 0 <= b < fsize f -> in_use a 0 (sb f) b = bit (bmap f) (Z.to_nat b).
Proof. intros H Hb. apply sector_bit; [apply (so_rep _ _ H)|by rewrite <- (so_fsize _ _ H)]. Qed.

Lemma sect_small f a b : store_ok f a -> 0 <= b < fsize f -> sect b = b.
Proof. intros H Hb. rewrite (so_fsize _ _ H) in Hb. pose proof (sf_size _ (fk_fits _ _ _ (so_fs _ _ H))) as Hsz. unfold FSSIZE in Hsz. unfold sect. rewrite u32_small by lia. by apply Z.div_mul. Qed.
Lemma wsect_run f a b v : store_ok f a -> 0 <= b < fsize f -> wsect v b f = Ok tt (set_img (<[b := v]> (img f)) f).
Proof. intros H Hb. unfold wsect. msteps. rewrite (so_fd _ _ H). cbn [negb]. by rewrite (sect_small f a). Qed.

(** Writing a block that is in use and not of the bitmap. *)
Lemma dirty_fs_meta a dev sb b v : fs_ok a dev sb -> ~ is_bitmap sb b -> length v = BSIZE -> fs_ok (dirty (dev, b) v a) dev sb.
Proof.
  intros Hf Hb Hv. split; [apply Hf| | |apply Hf].
  - intros c. rewrite view_dirty. case_decide; [done|apply Hf].
  - intros c Hc Hn. unfold in_use. rewrite view_dirty, decide_False; [by apply Hf|]. intros [= E]. apply Hb. by exists c.
Qed.
Lemma wsect_ok f a b v : store_ok f a -> 0 <= b < fsize f -> ~ is_bitmap (sb f) b -> in_use a 0 (sb f) b = true -> length v = BSIZE ->
  store_ok (set_img (<[b := v]> (img f)) f) (dirty (0, b) v a).
Proof.
  intros H Hb Hn Hu Hv. pose proof H as [S1 S2 S3 S4 S5 S6 S7 S8 S9]. assert (~ (bmapstart (sb f) <= b <= bmap_last (sb f))) as Hn' by (rewrite <- is_bitmap_iff by lia; done).
  assert (forall c, 0 <= c < fsize f -> in_use (dirty (0, b) v a) 0 (sb f) c = in_use a 0 (sb f) c) as Hsame.
  { intros c Hc. unfold in_use. rewrite view_dirty, decide_False; [done|]. intros [= E]. apply Hn. exists c. split; [lia|done]. }
  split; cbn [set_img img fd fsize bmap Mkproto.sb]; try done.
  - intros c. rewrite view_dirty. unfold sector. cbn [set_img img bmap Mkproto.sb]. case_decide as E.
    + injection E as ->. rewrite decide_False by done. by rewrite lookup_insert_eq.
    + rewrite S1. unfold sector. case_decide; [done|]. by rewrite lookup_insert_ne by congruence.
  - intros c Hc. destruct (decide (c = b)) as [->|]; [by rewrite lookup_insert_eq; eexists|]. rewrite lookup_insert_ne by done. by apply S2.
  - by apply dirty_fs_meta.
  - intros c Hc. rewrite Hsame by done. intros Hfree. rewrite view_dirty, decide_False; [by apply S5|]. intros [= ->]. congruence.
  - intros c Hc. rewrite lookup_insert_ne by lia. by apply S9.
Qed.
Lemma rsect_ok f a b : store_ok f a -> 0 <= b < fsize f -> ~ is_bitmap (sb f) b -> rsect b f = Ok (view a (0, b)) f.
Proof.
  intros H Hb Hn. unfold rsect. msteps. rewrite (so_fd _ _ H). cbn [negb]. rewrite (sect_small f a) by done. destruct (so_img _ _ H b Hb) as [v Hv]. rewrite Hv. f_equal. rewrite (so_rep _ _ H). unfold sector.
  rewrite decide_False by (rewrite <- is_bitmap_iff by (pose proof (so_fsize _ _ H); pose proof (so_pos _ _ H); lia); done). by rewrite Hv.
Qed.

Definition full : string := "mkproto: unable to allocate block. filesystem full".

(** No block is left. *)
Definition spent f : Prop := forall b, 1 <= b < fsize f -> bit (bmap f) (Z.to_nat b) = true.

Lemma mk_balloc_ok f a : store_ok f a -> balloc f = Panic full f /\ spent f \/
  exists r, balloc f = Ok r (set_bmap (mark (bmap f) (Z.to_nat r)) f) /\ 0 < r < fsize f /\ in_use a 0 (sb f) r = false /\
    store_ok (set_bmap (mark (bmap f) (Z.to_nat r)) f) (allocated a 0 (sb f) r).
Proof.
  intros H. pose proof H as [S1 S2 S3 S4 S5 S6 S7 S8 S9]. unfold balloc. msteps. destruct (scan _ _) as [[k r]|] eqn:E; [right|left; split; [done|]].
  2: { intros b Hb. rewrite scan_None in E. assert (b ∈ seqZ 1 (fsize f - 1)) as [j Hj]%list_elem_of_lookup_1 by (apply elem_of_seqZ; lia). apply negb_false_iff. by apply (E j b). }
  apply scan_Some in E as (E1 & E2 & _). apply lookup_seqZ in E1 as [-> E1]. set (r := 1 + Z.of_nat k) in *. exists r. split; [done|]. assert (0 < r < fsize f) as Hr by lia. split; [done|].
  assert (in_use a 0 (sb f) r = false) as Hu by (rewrite (use_bit f a r H) by lia; by apply negb_true_iff). split; [done|].
  pose proof (data_free a 0 (sb f) r S4 ltac:(lia) Hu) as Hd. pose proof (db_bitmap _ _ Hd) as Hnb. rewrite is_bitmap_iff in Hnb by lia.
  assert (Z.to_nat r = (4096 * Z.to_nat (r / 4096) + Z.to_nat (r mod 4096))%nat) as Er by dlia. assert (Z.to_nat (r mod 4096) < 4096)%nat as Hm by dlia.
  assert (BBLOCK r (sb f) = bmapstart (sb f) + r / 4096) as EB by (unfold BBLOCK, BPB; lia).
  split; cbn [set_bmap img fd fsize bmap Mkproto.sb]; try done.
  - intros b. unfold allocated. rewrite !view_dirty. unfold sector. cbn [set_bmap img bmap Mkproto.sb]. case_decide as E.
    + injection E as ->. rewrite decide_False by done. transitivity (view a (0, r)); [symmetry; apply S5; [lia|done]|]. rewrite S1. unfold sector. by rewrite decide_False.
    + rewrite EB. destruct (decide ((0, b) = (0, bmapstart (sb f) + r / 4096))) as [[= ->]|E'].
      * rewrite decide_True by (unfold bmap_last; dlia). rewrite S1. unfold sector. rewrite decide_True by (unfold bmap_last; dlia).
        replace (bmapstart (sb f) + r / 4096 - bmapstart (sb f)) with (r / 4096) by lia. rewrite Er. unfold BPB. rewrite mark_slice; [done|done|]. unfold BSIZE in *. dlia.
      * rewrite S1. unfold sector. case_decide as Hb; [|done]. rewrite Er, mark_slice_ne; [done|done|]. intros Ej. apply E'. f_equal. pose proof (Z.div_pos r 4096). lia.
  - by apply allocated_fs; [|lia|].
  - intros b Hb Hfree. rewrite allocated_use in Hfree by (done || lia). apply orb_false_iff in Hfree as [Hne%bool_decide_eq_false Hfree].
    pose proof (data_free a 0 (sb f) b S4 ltac:(lia) Hfree) as Hdb. rewrite allocated_view; [by apply S5|congruence| |lia]. intros b' [= ->]. apply Hdb.
  - by rewrite length_mark.
Qed.
End store.

(** ** Inodes *)

Definition base (inum : Z) : inode :=
  {| i_dev := 0; i_inum := inum; i_ref := 0; i_flags := 0; mountroot := None; mountparent := None; mountpoint := None;
     i_type := 0; i_major := 0; i_minor := 0; i_owner := 0; i_perms := 0; i_attrib := 0; i_nlink := 0; i_size := 0; i_addrs := [] |}.
(** What the kernel reads of inode [inum]. *)
Definition inode_of (a : astate) (sb : superblock) (inum : Z) : inode :=
  decode_dinode (get_dinode (view a (0, IBLOCK inum sb)) inum) (base inum).

Section dinodes.
Implicit Types (din : list Z).
Lemma length_load_addrs din : length (load_addrs din) = NDIRECT.
Proof. unfold load_addrs. by rewrite length_fmap, length_seq. Qed.
Lemma lookup_load_addrs din k : (k < NDIRECT)%nat -> load_addrs din !! k = Some (din_addr din k).
Proof. intros Hk. unfold load_addrs. rewrite list_lookup_fmap, lookup_seq_lt by done. done. Qed.
Lemma addr_at_decode din b k : (k < NDIRECT)%nat -> addr_at (decode_dinode din b) k = din_addr din k.
Proof. intros Hk. unfold addr_at. cbn [i_addrs decode_dinode]. by rewrite lookup_load_addrs. Qed.
Lemma decode_store_addr din b bk r : length din = DINODE_SIZE -> (bk < NDIRECT)%nat -> 0 <= r < 2 ^ 32 ->
  decode_dinode (store_le din (16 + 4 * bk) 4 r) b = set_addr bk r (decode_dinode din b).
Proof.
  intros Hl Hb Hr. unfold DINODE_SIZE, NDIRECT in *. unfold decode_dinode, set_addr. cbn [i_dev i_inum i_ref i_flags mountroot mountparent mountpoint i_type i_major i_minor i_owner i_perms i_attrib i_nlink i_size i_addrs].
  rewrite !load_store_ne by lia. f_equal. apply list_eq. intros k. destruct (decide (k < 12)%nat) as [Hk|Hk].
  2: { transitivity (@None Z); [|symmetry]; apply lookup_ge_None_2; rewrite ?length_insert, length_load_addrs; unfold NDIRECT; lia. }
  rewrite lookup_load_addrs by done. unfold din_addr. destruct (decide (k = bk)) as [->|Hne].
  - rewrite load_store_eq by lia. rewrite list_lookup_insert_eq by (rewrite length_load_addrs; unfold NDIRECT; lia).
    f_equal. change (256 ^ Z.of_nat 4) with (2 ^ 32). by apply Z.mod_small.
  - rewrite load_store_ne by lia. rewrite list_lookup_insert_ne by done. by rewrite lookup_load_addrs.
Qed.
Lemma decode_store_size din b n : length din = DINODE_SIZE -> 0 <= n < 2 ^ 32 -> decode_dinode (store_le din 12 4 n) b = set_size n (decode_dinode din b).
Proof.
  intros Hl Hn. unfold DINODE_SIZE in *. unfold decode_dinode, set_size. cbn [i_dev i_inum i_ref i_flags mountroot mountparent mountpoint i_type i_major i_minor i_owner i_perms i_attrib i_nlink i_size i_addrs].
  rewrite load_store_eq, !load_store_ne by lia. change (256 ^ Z.of_nat 4) with (2 ^ 32). rewrite Z.mod_small by lia. f_equal.
  unfold load_addrs. apply list_fmap_ext. intros k x Hx%lookup_seq. rewrite load_store_ne; [done|lia..].
Qed.
End dinodes.

(** ** Appending *)

Section append.
Implicit Types (f : Mkproto.Fs) (a : astate) (din : list Z).

(** Only the image and the bitmap changed. *)
Definition kept f f' : Prop := sb f' = sb f /\ fsize f' = fsize f /\ fd f' = fd f /\ freeinode f' = freeinode f /\ dirs f' = dirs f /\ files f' = files f.
Lemma kept_refl f : kept f f.
Proof. done. Qed.
Lemma kept_trans f1 f2 f3 : kept f1 f2 -> kept f2 f3 -> kept f1 f3.
Proof. unfold kept. intros (? & ? & ? & ? & ? & ?) (? & ? & ? & ? & ? & ?). split_and!; congruence. Qed.

Lemma data_block_range sb b : data_block sb b -> 0 <= b < sb_size sb.
Proof. intros H. pose proof (db_range _ _ H). lia. Qed.

(** The address block of the [fbn]th block is there. *)
Lemma addr_block f a din inum fbn : store_ok f a -> length din = DINODE_SIZE -> file_ok a (sb f) (decode_dinode din (base inum)) -> 0 <= fbn < MAXFILE ->
  let bk := (offset2real fbn).1 in let c := if din_addr din bk =? 0 then nb ← balloc; mret (store_le din (16 + 4 * bk) 4 nb) else mret din in
  (exists f', c f = Panic full f' /\ spent f') \/ exists din' f' a', c f = Ok din' f' /\ kept f f' /\ store_ok f' a' /\ length din' = DINODE_SIZE /\
    let ip := decode_dinode din (base inum) in let ip' := decode_dinode din' (base inum) in
    file_ok a' (sb f) ip' /\ grown (sb f) a ip a' ip' /\ (forall bn, ptr a' ip' bn = ptr a ip bn) /\ same_data a ip a' /\ din_addr din' bk <> 0.
Proof.
  intros H Hl Hf Hb bk c. unfold c. assert (bk < NDIRECT)%nat as Hbk by (unfold bk, offset2real, MAXFILE, NINDIRECT, NDIRECT in *; cbn [fst]; dlia).
  destruct (Z.eqb_spec (din_addr din bk) 0) as [Hz|Hz].
  - destruct (mk_balloc_ok f a H) as [[E Hsp]|(r & E & Hr & Hu & H')]; [left|right].
    { exists f. unfold mbind, M_bind. by rewrite E. }
    rewrite (so_fsize _ _ H) in Hr. pose proof (sf_size _ (fk_fits _ _ _ (so_fs _ _ H))) as Hsz. unfold FSSIZE in Hsz.
    exists (store_le din (16 + 4 * bk) 4 r), (set_bmap (mark (bmap f) (Z.to_nat r)) f), (allocated a 0 (sb f) r). split; [by rewrite (bind_ok _ _ _ _ _ E)|].
    split; [done|]. split; [done|]. split; [rewrite length_store_le; unfold DINODE_SIZE, NDIRECT in *; lia|]. cbv zeta.
    rewrite decode_store_addr by (done || lia). set (ip := decode_dinode din (base inum)) in *.
    assert (addr_at ip bk = 0) as Hza by (unfold ip; by rewrite addr_at_decode).
    pose proof (so_fs _ _ H) as Hfs. assert (0 <= r < sb_size (sb f)) as Hr0 by lia.
    split_and!; [by apply (na_file a (sb f) ip bk r)|by apply (na_grown a (sb f) ip bk r)|..].
    + intros bn. by apply (na_ptr a (sb f) ip bk r).
    + intros bn Hbn Hp. destruct (fo_ptr _ _ _ Hf bn Hbn Hp) as [D U]. by apply (na_view a (sb f) ip r).
    + unfold din_addr. rewrite load_store_eq by (unfold DINODE_SIZE, NDIRECT in *; lia). change (256 ^ Z.of_nat 4) with (2 ^ 32). rewrite Z.mod_small; lia.
  - right. exists din, f, a. split_and!; try done. apply grown_refl.
Qed.

Lemma iappend_block_eq din fbn : let bk := (offset2real fbn).1 in let pt := (offset2real fbn).2 in (bk < NDIRECT)%nat ->
  iappend_block din fbn =
  (din ← (if din_addr din bk =? 0 then nb ← balloc; mret (store_le din (16 + 4 * bk) 4 nb) else mret din);
   indirect ← rsect (din_addr din bk);
   if load_le indirect (4 * pt) 4 =? 0 then
     nb ← balloc;
     let indirect := store_le indirect (4 * pt) 4 nb in
     wsect indirect (din_addr din bk) ;;
     mret (din, load_le indirect (4 * pt) 4)
   else mret (din, load_le indirect (4 * pt) 4)).
Proof. intros bk pt Hb. unfold iappend_block. destruct (offset2real fbn) as [bk' pt'] eqn:E. cbn [fst snd] in *. subst bk pt. by rewrite (proj2 (Nat.leb_gt _ _) Hb). Qed.

(** The [fbn]th block is there, as it was or blank. *)
Lemma iappend_block_ok f a din inum fbn : store_ok f a -> length din = DINODE_SIZE -> file_ok a (sb f) (decode_dinode din (base inum)) -> 0 <= fbn < MAXFILE ->
  (exists f', iappend_block din fbn f = Panic full f' /\ spent f') \/ exists din' r f' a', iappend_block din fbn f = Ok (din', r) f' /\ kept f f' /\ store_ok f' a' /\ length din' = DINODE_SIZE /\
    let ip := decode_dinode din (base inum) in let ip' := decode_dinode din' (base inum) in
    file_ok a' (sb f) ip' /\ grown (sb f) a ip a' ip' /\ same_data a ip a' /\ r = ptr a' ip' fbn /\ r <> 0.
Proof.
  intros H Hl Hf Hb. set (bk := (offset2real fbn).1). set (pt := (offset2real fbn).2). assert (bk < NDIRECT)%nat as Hbk by (unfold bk, offset2real, MAXFILE, NINDIRECT, NDIRECT in *; cbn [fst]; dlia).
  rewrite iappend_block_eq by done. fold bk pt. destruct (addr_block f a din inum fbn H Hl Hf Hb) as [(f' & E & Hsp)|(d1 & f1 & a1 & E & K1 & H1 & Hl1 & Hf1 & G1 & P1 & D1 & Hz1)].
  { left. exists f'. unfold mbind at 1, M_bind at 1. fold bk in E. by rewrite E. }
  fold bk in E, Hz1. rewrite (bind_ok _ _ _ _ _ E). set (ip := decode_dinode din (base inum)) in *. set (ip1 := decode_dinode d1 (base inum)) in *.
  pose proof K1 as (Ksb & Ksz & _). assert (addr_at ip1 bk = din_addr d1 bk) as Ea by (unfold ip1; by rewrite addr_at_decode).
  destruct (fo_addr _ _ _ Hf1 bk) as [Hda Hua]; [by rewrite Ea|]. rewrite Ea in Hda, Hua. change (i_dev ip1) with 0 in Hua. set (ind := din_addr d1 bk) in *.
  rewrite <- Ksb in Hda, Hua. pose proof (data_block_range _ _ Hda) as Hri.
  rewrite (bind_ok _ _ _ _ _ (rsect_ok f1 a1 ind H1 ltac:(rewrite (so_fsize _ _ H1); done) (db_bitmap _ _ Hda))).
  assert (load_le (view a1 (0, ind)) (4 * pt) 4 = ptr a1 ip1 fbn) as Ep.
  { unfold ptr. destruct (offset2real fbn) as [bk' pt'] eqn:Eo. unfold bk, pt in *. cbn [fst snd] in *. rewrite Ea. rewrite (proj2 (Z.eqb_neq _ _) Hz1). done. }
  rewrite Ep. destruct (Z.eqb_spec (ptr a1 ip1 fbn) 0) as [Hz|Hnz].
  2: { right. exists d1, (ptr a1 ip1 fbn), f1, a1. split_and!; done. }
  destruct (mk_balloc_ok f1 a1 H1) as [[E2 Hsp]|(r & E2 & Hr & Hu & H2)]; [left; exists f1; unfold mbind at 1, M_bind at 1; by rewrite E2|right].
  rewrite (bind_ok _ _ _ _ _ E2). set (f2 := set_bmap (mark (bmap f1) (Z.to_nat r)) f1) in *. set (v := store_le (view a1 (0, ind)) (4 * pt) 4 r). cbv zeta.
  rewrite (so_fsize _ _ H1) in Hr. pose proof (so_fs _ _ H1) as Hfs1. pose proof (sf_size _ (fk_fits _ _ _ Hfs1)) as Hsz. unfold FSSIZE in Hsz.
  assert (length v = BSIZE) as Hv by (unfold v; rewrite length_store_le; rewrite (fk_len _ _ _ Hfs1); [done|]; unfold pt, offset2real, BSIZE, NINDIRECT; cbn [snd]; pose proof (Z.mod_pos_bound fbn 128); lia).
  assert (0 <= r < sb_size (sb f1)) as Hr0 by lia. pose proof (data_free a1 0 (sb f1) r Hfs1 Hr0 Hu) as Hdr.
  assert (in_use (allocated a1 0 (sb f1) r) 0 (sb f1) ind = true) as Hu2 by (rewrite allocated_use by done; rewrite Hua; apply orb_true_r).
  pose proof (wsect_ok f2 (allocated a1 0 (sb f1) r) ind v H2 ltac:(rewrite (so_fsize _ _ H2); done) (db_bitmap _ _ Hda) Hu2 Hv) as H3.
  rewrite (bind_ok _ _ _ _ _ (wsect_run f2 _ ind v H2 ltac:(rewrite (so_fsize _ _ H2); done))).
  rewrite <- Ksb in Hf1. assert (addr_at ip1 (offset2real fbn).1 <> 0) as Hia by (fold bk; by rewrite Ea).
  assert (dirty (0, ind) v (allocated a1 0 (sb f1) r) = dirty (i_dev ip1, addr_at ip1 (offset2real fbn).1) (store_le (view a1 (i_dev ip1, addr_at ip1 (offset2real fbn).1)) (4 * (offset2real fbn).2) 4 r) (allocated a1 (i_dev ip1) (sb f1) r)) as Ed.
  { change (offset2real fbn).1 with bk. change (offset2real fbn).2 with pt. by rewrite Ea. }
  eexists d1, _, _, (dirty (0, ind) v (allocated a1 0 (sb f1) r)). split; [reflexivity|]. split; [by eapply kept_trans|]. split; [done|]. split; [done|]. cbv zeta. fold ip ip1.
  rewrite Ed, <- Ksb. split_and!.
  - by apply nd_file.
  - rewrite <- Ksb in G1. eapply grown_trans; [exact G1|]. by apply nd_grown.
  - intros bn Hbn Hp. rewrite <- P1 in Hp |- *. destruct (fo_ptr _ _ _ Hf1 bn Hbn Hp) as [D U]. change (i_dev ip) with (i_dev ip1). rewrite nd_view; [|done..| |done|done].
    + rewrite P1. rewrite P1 in Hp. by apply D1.
    + intros E'. by apply (fo_apart _ _ _ Hf1 (offset2real fbn).1 bn).
  - rewrite nd_ptr by done. rewrite decide_True by done. unfold v. rewrite load_store_eq by (rewrite (fk_len _ _ _ Hfs1); unfold pt, offset2real, BSIZE, NINDIRECT; cbn [snd]; pose proof (Z.mod_pos_bound fbn 128); lia).
    change (256 ^ Z.of_nat 4) with (2 ^ 32). rewrite Z.mod_small; lia.
  - unfold v. rewrite load_store_eq by (rewrite (fk_len _ _ _ Hfs1); unfold pt, offset2real, BSIZE, NINDIRECT; cbn [snd]; pose proof (Z.mod_pos_bound fbn 128); lia).
    change (256 ^ Z.of_nat 4) with (2 ^ 32). rewrite Z.mod_small; lia.
Qed.

(** Why appending stops: the disk is full, or the file is too long for its
    inode. *)
Definition toolong : string := "din.addrs".
Definition stops (long : Prop) (m : string) f : Prop := m = full /\ spent f \/ m = toolong /\ long.
Lemma iappend_block_long din fbn f : MAXFILE <= fbn -> iappend_block din fbn f = Panic toolong f.
Proof. intros Hb. unfold iappend_block. destruct (offset2real fbn) as [bk pt] eqn:E. assert (NDIRECT <= bk)%nat as Hk by (unfold offset2real, MAXFILE, NINDIRECT, NDIRECT in *; injection E as <- _; dlia). by rewrite (proj2 (Nat.leb_le _ _) Hk). Qed.

Lemma iappend_loop_S fuel din p off : p <> [] -> 0 <= off -> iappend_loop (S fuel) din p off =
  (let wrlen := Z.min (Z.of_nat (length p)) (512 - off mod 512) in
   '(din, raddr) ← iappend_block din (off / 512);
   buf ← rsect raddr;
   wsect (splice buf (Z.to_nat (off mod 512)) (take (Z.to_nat wrlen) p)) raddr ;;
   iappend_loop fuel din (drop (Z.to_nat wrlen) p) (u32 (off + wrlen))).
Proof.
  intros Hp Ho. cbn [iappend_loop]. destruct p as [|c p]; [done|]. set (q := c :: p). set (sz := Z.of_nat (length q)). cbv zeta.
  assert (forall x, (if sz <? x then sz else x) = Z.min sz x) as Hmin by (intros x; destruct (Z.ltb_spec sz x); lia). rewrite !Hmin.
  destruct (Z.eqb_spec (off mod 512) 0) as [->|Hm]; cbn [negb]; [|done]. rewrite Z.sub_0_r. by destruct (Z.eqb_spec off 0) as [->|].
Qed.

Lemma iappend_loop_ok inum fuel : forall f a din p off, store_ok f a -> length din = DINODE_SIZE -> file_ok a (sb f) (decode_dinode din (base inum)) ->
  0 <= off <= MAXFILE * 512 -> (length p <= fuel)%nat ->
  (exists m f', iappend_loop fuel din p off f = Panic m f' /\ stops (MAXFILE * 512 < off + Z.of_nat (length p)) m f') \/
  exists din' f' a', iappend_loop fuel din p off f = Ok (din', off + Z.of_nat (length p)) f' /\ off + Z.of_nat (length p) <= MAXFILE * 512 /\ kept f f' /\ store_ok f' a' /\ length din' = DINODE_SIZE /\
    let ip := decode_dinode din (base inum) in let ip' := decode_dinode din' (base inum) in
    file_ok a' (sb f) ip' /\ grown (sb f) a ip a' ip' /\ stored a ip a' ip' off (Z.of_nat (length p)) p.
Proof.
  assert (MAXFILE * 512 = 786432) as Emax by done.
  induction fuel as [|fuel IH]; intros f a din p off H Hl Hf [Ho Hmax] Hfu; (destruct (decide (p = [])) as [->|Hp];
    [right; exists din, f, a; cbn [length]; rewrite Z.add_0_r; split_and!; try done; [apply grown_refl|]; intros o _; by rewrite decide_False by lia|]).
  { destruct p; [done|cbn in Hfu; lia]. }
  rewrite iappend_loop_S by done. cbv zeta. set (m := Z.min (Z.of_nat (length p)) (512 - off mod 512)). pose proof (Z.mod_pos_bound off 512 ltac:(lia)) as Hom.
  assert (0 < Z.of_nat (length p)) as Hp0 by (destruct p; [done|cbn; lia]). assert (0 < m /\ m <= Z.of_nat (length p) /\ off mod 512 + m <= 512) as (Hm0 & Hml & Hmb) by (unfold m; lia).
  destruct (decide (off / 512 < MAXFILE)) as [Hlt|Hge].
  2: { left. exists toolong, f. unfold mbind at 1, M_bind at 1. rewrite iappend_block_long by (unfold MAXFILE, NINDIRECT in *; lia). split; [done|]. right. split; [done|]. unfold MAXFILE, NINDIRECT in *. dlia. }
  assert (0 <= off / 512 < MAXFILE) as Hbn by (unfold MAXFILE, NINDIRECT in *; dlia). set (ip := decode_dinode din (base inum)) in *.
  destruct (iappend_block_ok f a din inum (off / 512) H Hl Hf Hbn) as [(f' & E & Hsp)|(d1 & r & f1 & a1 & E & K1 & H1 & Hl1 & Hf1 & G1 & D1 & -> & Hnz)].
  { left. exists full, f'. unfold mbind at 1, M_bind at 1. rewrite E. split; [done|]. by left. }
  assert (off + m <= 786432) as Hom2 by (unfold MAXFILE, NINDIRECT in *; dlia).
  rewrite (bind_ok _ _ _ _ _ E). set (ip1 := decode_dinode d1 (base inum)) in *. pose proof K1 as (Ksb & _). fold ip in D1, G1. rewrite <- Ksb in G1, Hf1.
  destruct (fo_ptr _ _ _ Hf1 _ Hbn Hnz) as [Hdp Hup]. set (q := ptr a1 ip1 (off / 512)) in *. change (i_dev ip1) with 0 in Hup. pose proof (data_block_range _ _ Hdp) as Hq. pose proof (so_fs _ _ H1) as Hfs1.
  rewrite (bind_ok _ _ _ _ _ (rsect_ok f1 a1 q H1 ltac:(rewrite (so_fsize _ _ H1); done) (db_bitmap _ _ Hdp))).
  destruct (stored_block (fun _ => true) a (sb f1) ip a1 ip1 off m p Hfs1 Hf1 G1 D1 Hnz Ho Hm0 Hmb ltac:(lia) Hml) as [Hv Hst]. fold q in Hv, Hst. change (i_dev ip1) with 0 in Hv, Hst.
  set (v := splice (view a1 (0, q)) (Z.to_nat (off mod 512)) (take (Z.to_nat m) p)) in *.
  pose proof (wsect_ok f1 a1 q v H1 ltac:(rewrite (so_fsize _ _ H1); done) (db_bitmap _ _ Hdp) Hup Hv) as H2. set (f2 := set_img (<[q := v]> (img f1)) f1) in *. set (a2 := dirty (0, q) v a1) in *.
  rewrite (bind_ok _ _ _ _ _ (wsect_run f1 _ q v H1 ltac:(rewrite (so_fsize _ _ H1); done))). fold f2. rewrite u32_small by lia.
  assert (file_ok a2 (sb f2) ip1) as Hf2 by (by apply (st_file a1 (sb f1) ip1 (off / 512) v)).
  assert (grown (sb f1) a1 ip1 a2 ip1) as G2 by (by apply (st_grown a1 (sb f1) ip1 (off / 512) v)).
  destruct (IH f2 a2 d1 (drop (Z.to_nat m) p) (off + m) H2 Hl1 Hf2) as [(m' & f' & E' & Hst')|(d' & f' & a' & E' & Hle & K' & H' & Hl' & Hf' & G' & S')];
    [lia|rewrite length_drop; lia| |right].
  { left. exists m', f'. split; [done|]. rewrite length_drop in Hst'. destruct Hst' as [?|[? ?]]; [by left|right; split; [done|lia]]. }
  exists d', f', a'. rewrite E'. rewrite length_drop in *. split; [do 2 f_equal; lia|]. split; [lia|]. split; [by eapply kept_trans; [|exact K']|]. split; [done|]. split; [done|]. cbv zeta. fold ip. fold ip1 in G', S'.
  change (sb f2) with (sb f1) in *. rewrite <- Ksb. split; [done|]. split; [by eapply grown_trans; [|exact G']; eapply grown_trans|].
  eapply (stored_app (fun _ => true) (sb f1)); [exact Hst| |by eapply grown_trans|exact G'|done|lia]. replace (Z.of_nat (length p) - m) with (Z.of_nat (length p - Z.to_nat m)) by lia. exact S'.
Qed.
End append.

(** ** The files of an image *)

(** A file or directory: the fields of its inode and its bytes. *)
Record node := Node { nd_type : Z; nd_owner : Z; nd_perms : Z; nd_bytes : list Z }.
Definition more (bs : list Z) (nd : node) : node := Node (nd_type nd) (nd_owner nd) (nd_perms nd) (nd_bytes nd ++ bs).

(** Inode [n] is the file [nd]. *)
Record holds_node (a : astate) (sb : superblock) (n : Z) (nd : node) : Prop := {
  hn_file : file_ok a sb (inode_of a sb n);
  hn_bytes : contents a (inode_of a sb n) = nd_bytes nd;
  hn_type : i_type (inode_of a sb n) = nd_type nd;
  hn_owner : i_owner (inode_of a sb n) = nd_owner nd;
  hn_perms : i_perms (inode_of a sb n) = nd_perms nd;
  hn_nlink : i_nlink (inode_of a sb n) = 1
}.

(** The image holds the files [t], one inode each, with no block in two of them. *)
Record image_ok (f : Mkproto.Fs) (a : astate) (t : gmap Z node) : Prop := {
  io_store : store_ok f a;
  io_node : forall n nd, t !! n = Some nd -> holds_node a (sb f) n nd /\ 0 < n < freeinode f;
  io_apart : forall n m, is_Some (t !! n) -> is_Some (t !! m) -> n <> m -> disjoint_files a (inode_of a (sb f) n) (inode_of a (sb f) m);
  io_free : 0 < freeinode f <= ninodes (sb f)
}.

Section nodes.
Implicit Types (f : Mkproto.Fs) (a : astate) (sb : superblock) (t : gmap Z node).

(** Storing a block of metadata changes no file. *)
Lemma meta_file a sb b v jp : fs_ok a 0 sb -> ~ is_bitmap sb b -> (forall d, data_block sb d -> d <> b) -> i_dev jp = 0 -> file_ok a sb jp ->
  let a' := dirty (0, b) v a in file_ok a' sb jp /\ contents a' jp = contents a jp /\ (forall c, owns a' jp c <-> owns a jp c).
Proof.
  intros Hfs Hb Hd Ej Hf a'.
  assert (forall d, data_block sb d -> view a' (i_dev jp, d) = view a (i_dev jp, d)) as Hv.
  { intros d Hdd. unfold a'. rewrite view_dirty, decide_False; [done|]. rewrite Ej. intros [= ->]. by apply (Hd b). }
  assert (forall bn, ptr a' jp bn = ptr a jp bn) as Ep by (apply ptr_frame; intros k Hk; apply Hv; by apply (fo_addr _ _ _ Hf)).
  split_and!.
  - apply (file_frame a); [done| |done]. intros c Hc. rewrite Ej. unfold in_use, a'. rewrite view_dirty, decide_False; [done|]. intros [= E]. apply Hb. by exists c.
  - unfold contents, bytes. apply list_fmap_ext. intros k o Ho%lookup_seqZ. unfold byte_at. rewrite Ep. pose proof (fo_size _ _ _ Hf). rewrite Hv; [done|].
    apply (fo_ptr _ _ _ Hf); [unfold MAXFILE, NINDIRECT in *; dlia|]. apply (fo_mapped _ _ _ Hf); dlia.
  - intros c. unfold owns. split; intros [Hc [H|(bn & H1 & H2)]]; (split; [done|]); [by left|right; exists bn; rewrite <- Ep; done|by left|right; exists bn; rewrite Ep; done].
Qed.

Lemma inode_block sb inum a : fs_ok a 0 sb -> 0 <= inum < ninodes sb -> 0 <= IBLOCK inum sb < sb_size sb /\ ~ is_bitmap sb (IBLOCK inum sb) /\
  in_use a 0 sb (IBLOCK inum sb) = true /\ (forall d, data_block sb d -> d <> IBLOCK inum sb).
Proof.
  intros Hfs Hi. destruct (fk_inodes _ _ _ Hfs inum Hi) as [Hr Hn]. assert (forall d, data_block sb d -> d <> IBLOCK inum sb) as Hd by (intros d H; by apply (db_inode _ _ H)).
  split_and!; [lia|lia|done| |done]. apply (fk_meta _ _ _ Hfs); [done|]. intros H. by apply (Hd _ H).
Qed.

Lemma winode_ok f a inum din : store_ok f a -> 0 <= inum < ninodes (sb f) -> length din = DINODE_SIZE ->
  exists f' a', winode inum din f = Ok tt f' /\ kept f f' /\ store_ok f' a' /\ inode_of a' (sb f) inum = decode_dinode din (base inum) /\
    (forall n, 0 <= n -> n <> inum -> inode_of a' (sb f) n = inode_of a (sb f) n) /\
    (forall jp, i_dev jp = 0 -> file_ok a (sb f) jp -> file_ok a' (sb f) jp /\ contents a' jp = contents a jp /\ (forall c, owns a' jp c <-> owns a jp c)).
Proof.
  intros H Hi Hl. pose proof (so_fs _ _ H) as Hfs. destruct (inode_block (sb f) inum a Hfs Hi) as (Hr & Hnb & Hu & Hd). rewrite <- (so_fsize _ _ H) in Hr.
  set (b := IBLOCK inum (sb f)) in *. set (v := put_dinode (view a (0, b)) inum din). pose proof (fk_len _ _ _ Hfs b) as Hlb.
  assert (length v = BSIZE) as Hv by (by apply put_dinode_len).
  exists (set_img (<[b := v]> (img f)) f), (dirty (0, b) v a). split.
  { unfold winode. erewrite bind_ok by reflexivity. fold b. rewrite (bind_ok _ _ _ _ _ (rsect_ok f a b H Hr Hnb)). by apply (wsect_run f a). }
  split; [done|]. split; [by apply wsect_ok|]. split; [|split].
  - unfold inode_of. fold b. rewrite view_dirty, decide_True by done. unfold v. by rewrite get_put_dinode.
  - intros n Hn Hne. unfold inode_of. rewrite view_dirty. case_decide as E; [|done]. injection E as E. f_equal. rewrite E. unfold v. rewrite get_put_dinode_ne; [done|done|done|].
    unfold b, IBLOCK, IPB in *. dlia.
  - intros jp Ej Hj. by apply meta_file.
Qed.

(** What changes one file and leaves the others alone. *)
Lemma image_update f a t f' a' n nd : image_ok f a t -> store_ok f' a' -> kept f f' -> is_Some (t !! n) -> holds_node a' (sb f) n nd ->
  (forall m nd', m <> n -> t !! m = Some nd' -> holds_node a' (sb f) m nd' /\ disjoint_files a' (inode_of a' (sb f) n) (inode_of a' (sb f) m)) ->
  (forall m m', m <> n -> m' <> n -> m <> m' -> is_Some (t !! m) -> is_Some (t !! m') -> disjoint_files a' (inode_of a' (sb f) m) (inode_of a' (sb f) m')) ->
  image_ok f' a' (<[n := nd]> t).
Proof.
  intros [I1 I2 I3 I4] Hs (Ksb & _ & _ & Kfr & _) Hn Hnd Hoth Hdis. destruct Hn as [nd0 Hn]. split; [done| | |by rewrite Kfr, Ksb].
  - intros m nd'. rewrite Ksb, Kfr. destruct (decide (m = n)) as [->|Hm].
    + rewrite lookup_insert_eq. intros [= <-]. split; [done|]. by apply (I2 n nd0).
    + rewrite lookup_insert_ne by done. intros Hm'. split; [by apply (Hoth m nd')|by apply (I2 m nd')].
  - rewrite Ksb. intros m m' [x Hx] [x' Hx'] Hne. destruct (decide (m = n)) as [->|Hm].
    + rewrite lookup_insert_ne in Hx' by done. by apply (Hoth m' x').
    + rewrite lookup_insert_ne in Hx by done. destruct (decide (m' = n)) as [->|Hm'].
      * intros b Hb1 Hb2. by apply (proj2 (Hoth m x Hm Hx) b).
      * rewrite lookup_insert_ne in Hx' by done. apply Hdis; [done|done|done|by eexists|by eexists].
Qed.

Lemma node_inum a sb n nd : holds_node a sb n nd -> 0 <= n < ninodes sb.
Proof. intros H. apply (fo_inum _ _ _ (hn_file _ _ _ _ H)). Qed.

Lemma grown_owns sb a ip a' ip' jp c : grown sb a ip a' ip' -> file_ok a sb jp -> i_dev jp = i_dev ip -> disjoint_files a ip jp -> owns a' jp c <-> owns a jp c.
Proof.
  intros G Hf Ed Hdis.
  assert (forall bn, ptr a' jp bn = ptr a jp bn) as Ep.
  { apply ptr_frame. intros k Hk. assert (owns a jp (addr_at jp k)) as Ho by (split; [done|left; by exists k]). destruct (owns_data a sb jp _ Hf Ho) as [Hd Hu]. apply (gr_view _ _ _ _ _ G).
    right. cbn [fst snd]. pose proof (db_range _ _ Hd). rewrite <- Ed. split_and!; [lia..|done|apply Hd|]. intros Ho'. by apply (Hdis _ Ho'). }
  unfold owns. split; intros [Hc [H|(bn & H1 & H2)]]; (split; [done|]); [by left|right; exists bn; rewrite <- Ep; done|by left|right; exists bn; rewrite Ep; done].
Qed.

Lemma iappend_ok f a t ino nd data : image_ok f a t -> t !! ino = Some nd ->
  (exists m f', iappend ino data f = Panic m f' /\ stops (MAXFILE * 512 < Z.of_nat (length (nd_bytes nd) + length data)) m f') \/ exists f' a', iappend ino data f = Ok tt f' /\ kept f f' /\ image_ok f' a' (<[ino := more data nd]> t).
Proof.
  intros HI Ht. pose proof HI as [H I2 I3 I4]. destruct (I2 ino nd Ht) as [Hnd Hino]. pose proof (node_inum _ _ _ _ Hnd) as Hi. pose proof (so_fs _ _ H) as Hfs.
  assert (MAXFILE * 512 = 786432) as Emax by done.
  destruct (inode_block (sb f) ino a Hfs Hi) as (Hr & Hnb & _ & _). rewrite <- (so_fsize _ _ H) in Hr. set (b := IBLOCK ino (sb f)) in *.
  set (din := get_dinode (view a (0, b)) ino). assert (length din = DINODE_SIZE) as Hl by (apply get_dinode_len, Hfs).
  destruct Hnd as [N1 N2 N3 N4 N5 N6]. set (ip := inode_of a (sb f) ino) in *. unfold iappend.
  assert (rinode ino f = Ok din f) as Er. { unfold rinode. erewrite bind_ok by reflexivity. fold b. by rewrite (bind_ok _ _ _ _ _ (rsect_ok f a b H Hr Hnb)). }
  rewrite (bind_ok _ _ _ _ _ Er). change (load_le din 12 4) with (i_size ip). pose proof (fo_size _ _ _ N1) as Hsz. pose proof (length_contents a ip ltac:(lia)) as Hlc. rewrite N2 in Hlc.
  destruct (iappend_loop_ok ino (length data) f a din data (i_size ip) H Hl N1) as [(m & f' & E & Hst)|(d1 & f1 & a1 & E & Hmax & K1 & H1 & Hl1 & Hf1 & G1 & S1)]; [lia|done| |right].
  { left. exists m, f'. unfold mbind, M_bind. rewrite E. split; [done|]. destruct Hst as [?|[? ?]]; [by left|right; split; [done|lia]]. }
  rewrite (bind_ok _ _ _ _ _ E). set (s' := i_size ip + Z.of_nat (length data)) in *. change (decode_dinode din (base ino)) with ip in *. set (ip1 := decode_dinode d1 (base ino)) in *.
  destruct (gr_ip _ _ _ _ _ G1) as [adr Eip]. pose proof K1 as (Ksb & _).
  assert (file_ok a1 (sb f) (set_size s' ip1)) as Hf2.
  { apply file_sized; [done|unfold s'; lia|]. intros bn Hbn Hs. destruct (decide (bn * 512 < i_size ip)) as [Hlt|Hge].
    - rewrite (gr_ptr _ _ _ _ _ G1); [by apply (fo_mapped _ _ _ N1)|unfold MAXFILE, NINDIRECT, s' in *; lia|by apply (fo_mapped _ _ _ N1)].
    - specialize (S1 (bn * 512) ltac:(unfold s' in *; lia)). rewrite decide_True in S1 by (unfold s' in *; lia). rewrite Z.div_mul in S1 by lia. apply S1. }
  assert (contents a1 (set_size s' ip1) = nd_bytes nd ++ data) as Hc.
  { rewrite (contents_stored (fun _ => true) a (sb f) ip a1 (set_size s' ip1) (i_size ip) (Z.of_nat (length data)) data N1); [|exact S1|lia|done|unfold s' in *; lia|change (i_size (set_size s' ip1)) with s'; unfold s'; lia].
    rewrite N2. unfold splice. rewrite take_ge, drop_ge by lia. by rewrite app_nil_r. }
  rewrite <- Ksb in Hi. destruct (winode_ok f1 a1 ino (store_le d1 12 4 s') H1 Hi) as (f2 & a2 & E2 & K2 & H2 & W1 & W2 & W3); [rewrite length_store_le; unfold DINODE_SIZE in *; lia|].
  rewrite Ksb in W1, W2, W3. rewrite decode_store_size in W1 by (done || unfold s'; lia). fold ip1 in W1.
  exists f2, a2. split; [exact E2|]. split; [by eapply kept_trans|].
  destruct (W3 (set_size s' ip1) eq_refl Hf2) as (V1 & V2 & V3).
  assert (forall m nd', m <> ino -> t !! m = Some nd' -> file_ok a (sb f) (inode_of a (sb f) m) /\ disjoint_files a ip (inode_of a (sb f) m) /\ inode_of a2 (sb f) m = inode_of a (sb f) m) as Hm.
  { intros m nd' Hne Hm. destruct (I2 m nd' Hm) as [HN Hmr]. split; [apply HN|]. split; [apply I3; [by eexists|by eexists|done]|]. rewrite W2 by (done || lia).
    unfold inode_of. rewrite (gr_view _ _ _ _ _ G1); [done|]. destruct (inode_block (sb f) m a Hfs (node_inum _ _ _ _ HN)) as (Q1 & Q2 & Q3 & Q4). right. cbn [fst snd].
    split_and!; [lia|lia|exact Q3|done|]. intros Ho. destruct (owns_data a (sb f) ip _ N1 Ho) as [D _]. by apply (Q4 _ D). }
  assert (forall m nd', m <> ino -> t !! m = Some nd' -> file_ok a2 (sb f) (inode_of a (sb f) m) /\ contents a2 (inode_of a (sb f) m) = nd_bytes nd' /\
    disjoint_files a2 (set_size s' ip1) (inode_of a (sb f) m) /\ (forall c, owns a2 (inode_of a (sb f) m) c <-> owns a1 (inode_of a (sb f) m) c)) as Hm2.
  { intros m nd' Hne Hm'. destruct (Hm m nd' Hne Hm') as (M1 & M2 & M3). destruct (I2 m nd' Hm') as [HN _].
    destruct (grown_other (fun _ => true) (sb f) a ip a1 ip1 (inode_of a (sb f) m) G1 M1 eq_refl M2) as (J1 & J2 & J3).
    destruct (W3 (inode_of a (sb f) m) eq_refl J1) as (Y1 & Y2 & Y3). split; [done|]. split; [rewrite Y2, J2; apply HN|]. split; [|done].
    intros c Hc1 Hc2. rewrite Y3 in Hc2. rewrite V3 in Hc1. by apply (J3 c). }
  eapply (image_update f a); [exact HI|exact H2|by eapply kept_trans|by eexists| | |].
  - split; rewrite ?W1; [done|by rewrite V2|..]; rewrite Eip; done.
  - intros m nd' Hne Hm'. destruct (Hm m nd' Hne Hm') as (M1 & M2 & M3). destruct (Hm2 m nd' Hne Hm') as (Y1 & Y2 & Y3 & _). rewrite W1. destruct (I2 m nd' Hm') as [[P1 P2 P3 P4 P5 P6] _].
    split; [|by rewrite M3]. split; rewrite M3; done.
  - intros m m' H1' H2' Hne [x Hx] [x' Hx']. destruct (Hm m x H1' Hx) as (M1 & M2 & ->). destruct (Hm m' x' H2' Hx') as (M1' & M2' & ->).
    destruct (Hm2 m x H1' Hx) as (_ & _ & _ & Y4). destruct (Hm2 m' x' H2' Hx') as (_ & _ & _ & Y4'). intros c Hc1 Hc2. rewrite Y4 in Hc1. rewrite Y4' in Hc2.
    rewrite (grown_owns (sb f) a ip) in Hc1, Hc2 by done. by apply (I3 m m' ltac:(by eexists) ltac:(by eexists) Hne c).
Qed.

Lemma s16_wrap x : s16 (x mod 256 ^ Z.of_nat 2) = s16 x.
Proof. change (256 ^ Z.of_nat 2) with (2 ^ 16). unfold s16, signed. dlia. Qed.
Lemma decode_new type owner perms inum : let ip := decode_dinode (new_dinode type owner perms) (base inum) in
  i_type ip = s16 type /\ i_owner ip = s16 owner /\ i_perms ip = perms mod 256 /\ i_nlink ip = 1 /\ i_size ip = 0 /\ i_addrs ip = replicate NDIRECT 0.
Proof.
  cbn [decode_dinode i_type i_owner i_perms i_nlink i_size i_addrs]. unfold new_dinode. set (z := replicate DINODE_SIZE 0).
  assert (length z = 64%nat) as Hz by done. assert (forall o n, (o + n <= 64)%nat -> load_le z o n = 0) as Hz0.
  { intros o n Ho. unfold load_le, slice, z. rewrite drop_replicate, take_replicate. clear. induction (n `min` (DINODE_SIZE - o))%nat as [|k IH]; [done|]. cbn [replicate le_num]. by rewrite IH. }
  split_and!.
  - rewrite !load_store_ne by len. rewrite load_store_eq by len. apply s16_wrap.
  - rewrite load_store_ne, load_store_eq by len. apply s16_wrap.
  - rewrite load_store_eq by len. done.
  - rewrite !load_store_ne by len. rewrite load_store_eq by len. done.
  - rewrite !load_store_ne by len. apply Hz0. lia.
  - unfold load_addrs. transitivity ((fun _ : nat => 0) <$> seq 0 NDIRECT); [|done]. apply list_fmap_ext. intros k x Hx%lookup_seq. unfold NDIRECT in Hx. rewrite !load_store_ne by len. apply Hz0. lia.
Qed.

Lemma empty_file a sb ip : i_addrs ip = replicate NDIRECT 0 -> i_size ip = 0 -> 0 <= i_inum ip < ninodes sb -> file_ok a sb ip /\ contents a ip = [] /\ forall b, ~ owns a ip b.
Proof.
  intros Ha Hs Hi. assert (forall k, addr_at ip k = 0) as Hk.
  { intros k. unfold addr_at. rewrite Ha. destruct (replicate NDIRECT 0 !! k) as [x|] eqn:E; [|done]. by apply lookup_replicate in E as [-> _]. }
  assert (forall bn, ptr a ip bn = 0) as Hp by (intros bn; unfold ptr, offset2real; by rewrite Hk).
  split_and!.
  - split; try done; [by rewrite Ha|rewrite Hs; done|..].
    + intros k Hn. by rewrite Hk in Hn.
    + intros bn _ Hn. by rewrite Hp in Hn.
    + intros j k _ Hn. by rewrite Hk in Hn.
    + intros b c _ _ _ Hn. by rewrite Hp in Hn.
    + intros k b _ Hn. by rewrite Hk in Hn.
    + intros bn Hb Hlt. rewrite Hs in Hlt. lia.
  - unfold contents, bytes. by rewrite Hs.
  - intros b [Hb [[k Ek]|(bn & _ & Ep)]]; [by rewrite Hk in Ek|by rewrite Hp in Ep].
Qed.

Lemma ninodes_small a sb : fs_ok a 0 sb -> ninodes sb < 2 ^ 31.
Proof.
  intros H. destruct (decide (ninodes sb < 2 ^ 31)) as [|Hge]; [done|]. pose proof (sf_size _ (fk_fits _ _ _ H)) as Hs. unfold FSSIZE in Hs.
  destruct (fk_inodes _ _ _ H 0 ltac:(lia)) as [H0 _]. destruct (fk_inodes _ _ _ H 1000000 ltac:(lia)) as [H1 _]. unfold IBLOCK, IPB in *. dlia.
Qed.
Lemma ialloc_ok f a t type owner perms : image_ok f a t -> freeinode f < ninodes (sb f) ->
  exists f' a', ialloc type owner perms f = Ok (freeinode f) f' /\ kept (set_freeinode (freeinode f + 1) f) f' /\
    image_ok f' a' (<[freeinode f := Node (s16 type) (s16 owner) (perms mod 256) []]> t).
Proof.
  intros HI Hlt. pose proof HI as [H I2 I3 I4]. pose proof (ninodes_small _ _ (so_fs _ _ H)) as Hn. set (n := freeinode f) in *. set (f1 := set_freeinode (n + 1) f).
  assert (store_ok f1 a) as H1 by (by destruct H as [? ? ? ? ? ? ? ? ?]; split).
  set (din := new_dinode type owner perms). assert (length din = DINODE_SIZE) as Hl by done.
  destruct (winode_ok f1 a n din H1) as (f' & a' & E & K & H' & W1 & W2 & W3); [cbn; lia|done|]. change (sb f1) with (sb f) in *.
  exists f', a'. split.
  { unfold ialloc. erewrite bind_ok by reflexivity. fold n. rewrite u32_small by lia. rewrite (bind_ok _ _ _ tt f1) by done. by rewrite (bind_ok _ _ _ _ _ E). }
  split; [done|]. pose proof K as (Ksb & _ & _ & Kfr & _). change (sb f1) with (sb f) in *. change (freeinode f1) with (n + 1) in Kfr.
  destruct (decode_new type owner perms n) as (D1 & D2 & D3 & D4 & D5 & D6). fold din in D1, D2, D3, D4, D5, D6. rewrite <- W1 in D1, D2, D3, D4, D5, D6.
  destruct (empty_file a' (sb f) (inode_of a' (sb f) n) D6 D5) as (F1 & F2 & F3); [cbn; lia|].
  assert (forall m nd, t !! m = Some nd -> m <> n /\ inode_of a' (sb f) m = inode_of a (sb f) m /\ file_ok a (sb f) (inode_of a (sb f) m)) as Hm.
  { intros m nd Hm. destruct (I2 m nd Hm) as [HN Hr]. split; [lia|]. split; [apply W2; lia|apply HN]. }
  split; [done| | |rewrite Kfr, Ksb; lia].
  - rewrite Kfr, Ksb. intros m nd. destruct (decide (m = n)) as [->|Hne].
    + rewrite lookup_insert_eq. intros [= <-]. split; [by split|lia].
    + rewrite lookup_insert_ne by done. intros Hm'. destruct (Hm m nd Hm') as (_ & E1 & E2). destruct (I2 m nd Hm') as [[P1 P2 P3 P4 P5 P6] Hr]. split; [|lia].
      destruct (W3 (inode_of a (sb f) m) eq_refl E2) as (V1 & V2 & _). split; rewrite E1; try done. by rewrite V2.
  - rewrite Ksb. intros m m' [x Hx] [x' Hx'] Hne. destruct (decide (m = n)) as [->|Hmn]; [intros b Hb; by apply F3 in Hb|].
    destruct (decide (m' = n)) as [->|Hmn']; [intros b _ Hb; by apply F3 in Hb|]. rewrite lookup_insert_ne in Hx, Hx' by done.
    destruct (Hm m x Hx) as (_ & -> & E2). destruct (Hm m' x' Hx') as (_ & -> & E2'). intros b Hb1 Hb2. destruct (W3 (inode_of a (sb f) m) eq_refl E2) as (_ & _ & Y). destruct (W3 (inode_of a (sb f) m') eq_refl E2') as (_ & _ & Y').
    rewrite Y in Hb1. rewrite Y' in Hb2. by apply (I3 m m' ltac:(by eexists) ltac:(by eexists) Hne b).
Qed.
End nodes.

(** ** Permissions *)

(** The two fields that [fmtpermsn] prints parse to the same permissions. *)
Lemma perms_round_trip p : 0 <= p < 256 -> exists s a b, fmtpermsn p 17 = Some s /\ fields [commas; commas] (Some s) = [Some a; Some b] /\ parseperms a b = p.
Proof.
  intros Hp. pose (ok p := match fmtpermsn p 17 with Some s => match fields [commas; commas] (Some s) with [Some a; Some b] => parseperms a b =? p | _ => false end | None => false end).
  assert (ok p = true) as H by (apply (every 256 ok); [vm_compute; reflexivity|done]). unfold ok in H. destruct (fmtpermsn p 17) as [s|] eqn:E1; [|done].
  destruct (fields _ _) as [|[a|] [|[b|] [|]]] eqn:E2; try done. apply Z.eqb_eq in H. by exists s, a, b.
Qed.

(** A field that is not of the form [u:...] or [w:...] gives every permission. *)
Lemma bad_perms_grant_all a b : char_at a 1 <> 58 -> s16 (parseperms a b) mod 256 = 255.
Proof. intros H. unfold parseperms, parseperms1 at 1. rewrite (proj2 (Z.eqb_neq _ _) H). cbn [negb]. by rewrite Z.lor_m1_l. Qed.
