(* ===== verification/MkprotoBuild.v ===== *)
(** What a run of [mkproto] builds: the entries add files and directories to a
    tree, and the image the program leaves holds that tree for the kernel. *)

From S2P Require Import Prelude Params CString Bio Disk Log Fs FsFormat FsOps FsData Mkproto MkprotoFacts.
Import Spec BlockIO.

(** ** Trees *)

(** The files by inode number, the next number, and the names known so far. *)
Record tree := Tree { t_nodes : gmap Z node; t_next : Z; t_dirs : list Dir; t_files : list Mkproto.File }.

Definition dots (ino parent : Z) : list Z := dirent ino [46] ++ dirent parent [46; 46].
Definition root_tree : tree := Tree {[ 1 := Node T_DIR (-1) dirperms (dots 1 1) ]} 2 [MkDir [47] 1 1 0 dirperms] [].
(** A new node, and its entry in the directory [home]. *)
Definition add (nd : node) (name : list Z) (home : Z) (t : tree) : gmap Z node := alter (more (dirent (t_next t) name)) home (<[t_next t := nd]> (t_nodes t)).
Definition add_dir (name : list Z) (parent : Dir) (owner perms : Z) (t : tree) : tree :=
  Tree (add (Node T_DIR (s16 owner) (perms mod 256) (dots (t_next t) (d_ino parent))) name (d_ino parent) t) (t_next t + 1)
    (t_dirs t ++ [MkDir name (d_ino parent) (t_next t) owner perms]) (t_files t).
Definition add_file (name : list Z) (home : Dir) (src : list Z) (owner perms : Z) (bytes : list Z) (t : tree) : tree :=
  Tree (add (Node T_FILE (s16 owner) (perms mod 256) bytes) name (d_ino home) t) (t_next t + 1)
    (t_dirs t) (t_files t ++ [MkFile name src (d_ino home) owner perms (t_next t)]).

(** What an entry does to the tree: [None] when a name it needs is not known. *)
Definition grow (host : list Z -> option (list (list Z))) (e : Entry) (t : tree) : option tree :=
  match e_type e with
  | DIRECT => d ← snd <$> scan (fun d => streq (e_home e) (d_name d)) (t_dirs t); Some (add_dir (e_name e) d (e_owner e) (e_perms e) t)
  | EFILE => d ← snd <$> scan (fun d => streq (e_home e) (d_name d)) (t_dirs t); reads ← host (e_source e); Some (add_file (e_name e) d (e_source e) (e_owner e) (e_perms e) (concat reads) t)
  | KERNEL | BOOTLOADER => (fun _ => t) <$> scan (fun x => streq (e_name e) (fl_name x)) (t_files t)
  | _ => Some t
  end.

(** The fields of the superblock fit. *)
Record sb_wf (s : superblock) : Prop := {
  sw_label : length (label s) = 11%nat;
  sw_bytes : Forall (fun x => 0 <= x < 256) [version s; bootable s; system s];
  sw_uints : Forall (fun x => 0 <= x < 2 ^ 32) [sb_size s; nblocks s; ninodes s; nlog s; logstart s; inodestart s; bmapstart s; bootinode s; kerninode s]
}.

(** The image under construction holds the tree. *)
Record builds (f : Mkproto.Fs) (a : astate) (t : tree) : Prop := {
  bd_image : image_ok f a (t_nodes t);
  bd_next : freeinode f = t_next t;
  bd_dirs : dirs f = t_dirs t;
  bd_files : files f = t_files t;
  bd_homes : forall d, d ∈ t_dirs t -> is_Some (t_nodes t !! d_ino d);
  bd_layout : 2 <= inodestart (sb f) /\ 2 <= bmapstart (sb f);
  bd_sb : sb_wf (sb f)
}.

(** A file that its inode has no room for. *)
Definition oversize (t : tree) : Prop := exists n nd, t_nodes t !! n = Some nd /\ MAXFILE * 512 < Z.of_nat (length (nd_bytes nd)).

(** ** Runs *)

(** How a run ends: with [Q], or by leaving with [P]. *)
Definition outcome {A} (r : res Mkproto.Fs A) (Q : A -> Mkproto.Fs -> Prop) (P : string -> Mkproto.Fs -> Prop) : Prop :=
  match r with Ok v f => Q v f | Panic m f => P m f | _ => False end.
Lemma outcome_bind {A B} (c : M Mkproto.Fs A) (k : A -> M Mkproto.Fs B) f Q P :
  outcome (c f) (fun v f' => outcome (k v f') Q P) P -> outcome ((v ← c; k v) f) Q P.
Proof. unfold mbind, M_bind. by destruct (c f). Qed.
Lemma outcome_impl {A} (r : res Mkproto.Fs A) (Q Q' : A -> Mkproto.Fs -> Prop) (P P' : string -> Mkproto.Fs -> Prop) :
  outcome r Q P -> (forall v f, Q v f -> Q' v f) -> (forall m f, P m f -> P' m f) -> outcome r Q' P'.
Proof. destruct r; cbn; auto. Qed.

Section entries.
Implicit Types (f : Mkproto.Fs) (a : astate) (t : tree).

Definition append_tree ino bs t : tree := Tree (alter (more bs) ino (t_nodes t)) (t_next t) (t_dirs t) (t_files t).
Lemma builds_append f a t ino bs : builds f a t -> is_Some (t_nodes t !! ino) ->
  outcome (iappend ino bs f) (fun _ f' => sb f' = sb f /\ exists a', builds f' a' (append_tree ino bs t)) (stops (oversize (append_tree ino bs t))).
Proof.
  intros [B1 B2 B3 B4 B5 B6 B7] [nd Hn]. assert (alter (more bs) ino (t_nodes t) = <[ino := more bs nd]> (t_nodes t)) as Ea by (rewrite <- (insert_id (t_nodes t) ino nd Hn) at 1; by rewrite alter_insert_eq).
  destruct (iappend_ok f a _ ino nd bs B1 Hn) as [(m & f' & -> & Hst)|(f' & a' & -> & K & I)]; cbn [outcome].
  - destruct Hst as [?|[-> Hst]]; [by left|right; split; [done|]]. exists ino, (more bs nd). cbn [append_tree t_nodes]. rewrite Ea, lookup_insert_eq. split; [done|]. cbn [more nd_bytes]. rewrite length_app. lia.
  - pose proof K as (Ks & _ & _ & Kn & Kd & Kf). split; [done|]. exists a'. split; cbn [append_tree t_nodes t_next t_dirs t_files]; [by rewrite Ea|congruence..| |by rewrite Ks|by rewrite Ks].
    intros d Hd. rewrite lookup_alter_is_Some. by apply B5.
Qed.

Definition alloc_tree nd t : tree := Tree (<[t_next t := nd]> (t_nodes t)) (t_next t + 1) (t_dirs t) (t_files t).
Lemma builds_fresh f a t : builds f a t -> t_nodes t !! t_next t = None.
Proof. intros [B1 B2 _ _ _ _ _]. destruct (t_nodes t !! t_next t) as [nd|] eqn:E; [|done]. destruct (io_node _ _ _ B1 _ _ E). lia. Qed.
Lemma builds_alloc f a t type owner perms : builds f a t -> t_next t < ninodes (sb f) ->
  exists f' a', ialloc type owner perms f = Ok (t_next t) f' /\ sb f' = sb f /\ builds f' a' (alloc_tree (Node (s16 type) (s16 owner) (perms mod 256) []) t).
Proof.
  intros B Hlt. pose proof B as [B1 B2 B3 B4 B5 B6 B7]. rewrite <- B2 in Hlt. destruct (ialloc_ok f a _ type owner perms B1 Hlt) as (f' & a' & E & K & I). exists f', a'.
  pose proof K as (Ks & _ & _ & Kn & Kd & Kf). cbn [set_freeinode sb freeinode dirs files] in *. rewrite B2 in *. split; [done|]. split; [done|].
  split; cbn [alloc_tree t_nodes t_next t_dirs t_files]; [done|congruence..| |by rewrite Ks|by rewrite Ks]. intros d Hd. rewrite lookup_insert_is_Some'. right. by apply B5.
Qed.

(** The lists of names are not in the image. *)
Lemma image_lists f a n ds fs : image_ok f a n -> image_ok (set_files fs (set_dirs ds f)) a n.
Proof. intros [[S1 S2 S3 S4 S5 S6 S7 S8 S9] I2 I3 I4]. by split; [split|..]. Qed.
Lemma builds_lists f a t ds fs : builds f a t -> (forall d, d ∈ ds -> is_Some (t_nodes t !! d_ino d)) ->
  builds (set_files fs (set_dirs ds f)) a (Tree (t_nodes t) (t_next t) ds fs).
Proof. intros [B1 B2 B3 B4 B5 B6 B7] Hd. split; cbn [t_nodes t_next t_dirs t_files]; try done. by apply image_lists. Qed.

Definition badname : string := "strcpy: de.name".
Definition nodir : string := "directory not defined!".
Definition nofile : string := "file not defined!".

Lemma strcpy_run ino name f : (length name < DIRSIZ)%nat -> strcpy_dirent ino name f = Ok (dirent ino name) f.
Proof. intros Hl. unfold strcpy_dirent. by rewrite (proj2 (Nat.leb_gt _ _) Hl). Qed.

Lemma strcpy_long ino name f : (DIRSIZ <= length name)%nat -> strcpy_dirent ino name f = Panic badname f.
Proof. intros Hl. unfold strcpy_dirent. by rewrite (proj2 (Nat.leb_le _ _) Hl). Qed.

Lemma add_two t ino home nd bs bs' de : ino <> home -> t_nodes t !! ino = None ->
  alter (more bs') ino (alter (more bs) ino (alter (more de) home (<[ino := nd]> (t_nodes t)))) = alter (more de) home (<[ino := more (bs ++ bs') nd]> (t_nodes t)).
Proof.
  intros Hne Hn. apply map_eq. intros n. rewrite !lookup_alter, !lookup_insert. repeat case_decide; subst; try done. cbn. unfold more. cbn. by rewrite app_assoc.
Qed.

(** Appending makes files longer. *)
Definition shorter t1 t2 : Prop := forall n nd, t_nodes t1 !! n = Some nd -> exists nd', t_nodes t2 !! n = Some nd' /\ (length (nd_bytes nd) <= length (nd_bytes nd'))%nat.
#[global] Instance shorter_preorder : PreOrder shorter.
Proof.
  split; [intros t n nd; eauto|]. intros t1 t2 t3 H1 H2 n nd Hn. destruct (H1 n nd Hn) as (nd' & Hn' & Hl). destruct (H2 n nd' Hn') as (nd'' & Hn'' & Hl'). exists nd''. split; [done|lia].
Qed.
Lemma shorter_append ino bs t : shorter t (append_tree ino bs t).
Proof.
  intros n nd Hn. cbn [append_tree t_nodes]. rewrite lookup_alter. case_decide as E; subst; rewrite Hn; eexists; (split; [done|]); [|done]. cbn. rewrite length_app. lia.
Qed.
Lemma stops_shorter t1 t2 m f : shorter t1 t2 -> stops (oversize t1) m f -> stops (oversize t2) m f.
Proof.
  intros Hs [H|[-> (n & nd & Hn & Hl)]]; [by left|]. right. split; [done|]. destruct (Hs n nd Hn) as (nd' & Hn' & Hl'). exists n, nd'. split; [done|lia].
Qed.
(** One append of several. *)
Lemma outcome_append {B} f a t t' ino bs (k : M Mkproto.Fs B) Q P : builds f a t -> is_Some (t_nodes t !! ino) -> shorter (append_tree ino bs t) t' ->
  (forall m g, stops (oversize t') m g -> P m g) ->
  (forall f' a', sb f' = sb f -> builds f' a' (append_tree ino bs t) -> outcome (k f') Q P) -> outcome ((iappend ino bs ;; k) f) Q P.
Proof.
  intros HB Hi Hs HP Hk. apply outcome_bind. eapply outcome_impl; [by apply (builds_append f a t)| |].
  - intros _ f' [Es (a' & HB')]. by apply (Hk f' a').
  - intros m g Hst. apply HP. by eapply stops_shorter.
Qed.

(** A directory is made, unless the disk is full, the parent too long, or the
    name does not fit. *)
Lemma makedir_ok f a t name parent owner perms : builds f a t -> t_next t < ninodes (sb f) -> parent ∈ t_dirs t ->
  let t' := add_dir name parent owner perms t in
  outcome (makedir name parent owner perms f) (fun _ f' => sb f' = sb f /\ exists a', builds f' a' t')
    (fun m f' => stops (oversize t') m f' \/ m = badname /\ (DIRSIZ <= length name)%nat).
Proof.
  intros B Hlt Hp t'. pose proof (builds_fresh f a t B) as Hfr. pose proof (bd_homes _ _ _ B parent Hp) as Hpn. assert (t_next t <> d_ino parent) as Hne by (intros E; rewrite <- E, Hfr in Hpn; by destruct Hpn).
  destruct (builds_alloc f a t T_DIR owner perms B Hlt) as (f1 & a1 & E1 & K1 & B1). unfold makedir. rewrite (bind_ok _ _ _ _ _ E1). cbv zeta. set (ino := t_next t) in *.
  destruct (decide (DIRSIZ <= length name)%nat) as [Hlong|Hshort].
  { apply outcome_bind. rewrite strcpy_long by done. by right. }
  rewrite (bind_ok _ _ _ _ _ (strcpy_run ino name f1 ltac:(lia))).
  set (t1 := alloc_tree _ t) in *. set (t2 := append_tree (d_ino parent) (dirent ino name) t1). set (t3 := append_tree ino (dirent ino [46]) t2). set (t4 := append_tree ino (dirent (d_ino parent) [46; 46]) t3).
  assert (t_nodes t4 = t_nodes t') as E4 by (by apply add_two).
  assert (shorter t4 t') as S4 by (intros n nd; rewrite E4; eauto). assert (shorter t3 t') as S3 by (etrans; [apply shorter_append|exact S4]). assert (shorter t2 t') as S2 by (etrans; [apply shorter_append|exact S3]).
  assert (is_Some (t_nodes t1 !! ino)) as N1 by (cbn; rewrite lookup_insert_eq; by eexists).
  assert (is_Some (t_nodes t2 !! ino)) as N2 by (cbn [t2 append_tree t_nodes]; by rewrite lookup_alter_is_Some).
  assert (is_Some (t_nodes t3 !! ino)) as N3 by (cbn [t3 append_tree t_nodes]; by rewrite lookup_alter_is_Some).
  assert (is_Some (t_nodes t1 !! d_ino parent)) as N0 by (cbn; rewrite lookup_insert_is_Some'; by right).
  eapply (outcome_append f1 a1 t1 t'); [done|done|done|by left|]. intros f2 a2 K2 B2. rewrite (bind_ok _ _ _ _ _ (strcpy_run ino [46] f2 ltac:(cbn; unfold DIRSIZ; lia))).
  eapply (outcome_append f2 a2 t2 t'); [done|done|done|by left|]. intros f3 a3 K3 B3. rewrite (bind_ok _ _ _ _ _ (strcpy_run (d_ino parent) [46; 46] f3 ltac:(cbn; unfold DIRSIZ; lia))).
  eapply (outcome_append f3 a3 t3 t'); [done|done|done|by left|]. intros f4 a4 K4 B4. cbn [outcome mbind M_bind modify mret M_ret]. split; [change (sb f4 = sb f); congruence|]. exists a4. fold t4 in B4.
  pose proof (builds_lists f4 a4 t4 (t_dirs t ++ [MkDir name (d_ino parent) ino owner perms]) (t_files t) B4) as B5. rewrite E4 in B5.
  assert (set_dirs (dirs f4 ++ [MkDir name (d_ino parent) ino owner perms]) f4 = set_files (t_files t) (set_dirs (t_dirs t ++ [MkDir name (d_ino parent) ino owner perms]) f4)) as -> .
  { rewrite (bd_dirs _ _ _ B4). change (t_files t) with (t_files t4). rewrite <- (bd_files _ _ _ B4). by destruct f4. }
  apply B5. intros d [Hd| ->%list_elem_of_singleton]%elem_of_app; rewrite <- E4; [by apply (bd_homes _ _ _ B4)|]. cbn [t4 append_tree t_nodes d_ino]. by rewrite lookup_alter_is_Some.
Qed.

Lemma append_nil ino t : is_Some (t_nodes t !! ino) -> append_tree ino [] t = t.
Proof.
  intros [nd Hn]. destruct t as [ns nx ds fs]. unfold append_tree. cbn [t_nodes t_next t_dirs t_files] in *. f_equal. rewrite <- (insert_id ns ino nd Hn) at 1. rewrite alter_insert_eq.
  unfold more. rewrite app_nil_r. rewrite insert_id; [done|]. by destruct nd.
Qed.
Lemma append_app ino bs bs' t : append_tree ino bs' (append_tree ino bs t) = append_tree ino (bs ++ bs') t.
Proof.
  unfold append_tree. cbn [t_nodes t_next t_dirs t_files]. f_equal. apply map_eq. intros n. rewrite !lookup_alter. repeat case_decide; subst; try done.
  destruct (t_nodes t !! _); [|done]. cbn. unfold more. cbn. by rewrite app_assoc.
Qed.
(** The reads of a file, appended one after the other. *)
Lemma appends_ok ino reads : forall f a t, builds f a t -> is_Some (t_nodes t !! ino) ->
  outcome (for_each reads (iappend ino) f) (fun _ f' => sb f' = sb f /\ exists a', builds f' a' (append_tree ino (concat reads) t)) (stops (oversize (append_tree ino (concat reads) t))).
Proof.
  induction reads as [|bs reads IH]; intros f a t B Hi; [cbn; split; [done|]; exists a; by rewrite append_nil|]. cbn [for_each concat].
  assert (is_Some (t_nodes (append_tree ino bs t) !! ino)) as Hi' by (cbn; by rewrite lookup_alter_is_Some).
  eapply (outcome_append f a t (append_tree ino (bs ++ concat reads) t)); [done|done|rewrite <- append_app; apply shorter_append|done|].
  intros f' a' K B'. rewrite <- append_app. eapply outcome_impl; [by apply (IH f' a')| |done]. intros _ f2 [K2 HB]. split; [congruence|done].
Qed.

(** A file is made, unless its source is missing, the disk full, or a file too
    long. *)
Lemma makefile_ok host f a t name home src owner perms reads : builds f a t -> t_next t < ninodes (sb f) -> home ∈ t_dirs t -> host src = Some reads ->
  let t' := add_file name home src owner perms (concat reads) t in
  outcome (makefile host name home src owner perms f) (fun _ f' => sb f' = sb f /\ exists a', builds f' a' t') (stops (oversize t')).
Proof.
  intros B Hlt Hp Hsrc t'. pose proof (builds_fresh f a t B) as Hfr. pose proof (bd_homes _ _ _ B home Hp) as Hpn. assert (t_next t <> d_ino home) as Hne by (intros E; rewrite <- E, Hfr in Hpn; by destruct Hpn).
  destruct (builds_alloc f a t T_FILE owner perms B Hlt) as (f1 & a1 & E1 & K1 & B1). unfold makefile. rewrite (bind_ok _ _ _ _ _ E1), Hsrc. cbv zeta. set (ino := t_next t) in *.
  set (t1 := alloc_tree _ t) in *. set (t2 := append_tree (d_ino home) (dirent ino name) t1). set (t3 := append_tree ino (concat reads) t2).
  assert (t_nodes t3 = t_nodes t') as E3.
  { cbn [t3 t2 t1 append_tree alloc_tree t_nodes t' add_file]. unfold add. apply map_eq. intros n. rewrite !lookup_alter, !lookup_insert. repeat case_decide; subst; done. }
  assert (shorter t3 t') as S3 by (intros n nd; rewrite E3; eauto). assert (shorter t2 t') as S2 by (etrans; [apply shorter_append|exact S3]).
  assert (is_Some (t_nodes t1 !! ino)) as N1 by (cbn; rewrite lookup_insert_eq; by eexists).
  assert (is_Some (t_nodes t2 !! ino)) as N2 by (cbn [t2 append_tree t_nodes]; by rewrite lookup_alter_is_Some).
  assert (is_Some (t_nodes t1 !! d_ino home)) as N0 by (cbn; rewrite lookup_insert_is_Some'; by right).
  eapply (outcome_append f1 a1 t1 t'); [done|done|done|done|]. intros f2 a2 K2 B2. apply outcome_bind. eapply outcome_impl; [by apply (appends_ok ino reads f2 a2 t2)| |].
  2: { intros m g. by apply stops_shorter. }
  intros _ f3 [K3 [a3 B3]]. cbn [outcome mbind M_bind modify mret M_ret]. split; [change (sb f3 = sb f); congruence|]. exists a3. fold t3 in B3.
  set (nf := MkFile _ _ _ _ _ _). pose proof (builds_lists f3 a3 t3 (t_dirs t) (t_files t ++ [nf]) B3 (bd_homes _ _ _ B3)) as B5. rewrite E3 in B5.
  assert (set_files (files f3 ++ [nf]) f3 = set_files (t_files t ++ [nf]) (set_dirs (t_dirs t) f3)) as ->; [|exact B5].
  rewrite (bd_files _ _ _ B3). change (t_dirs t) with (t_dirs t3). rewrite <- (bd_dirs _ _ _ B3). by destruct f3.
Qed.

(** What the file system's structure depends on; [brand]s change the rest. *)
Definition layout (s : superblock) : list Z := [sb_size s; ninodes s; inodestart s; bmapstart s; logstart s; nlog s].
Section layout.
Context (s s' : superblock) (L : layout s = layout s').
Lemma layout_eqs : sb_size s = sb_size s' /\ ninodes s = ninodes s' /\ inodestart s = inodestart s' /\ bmapstart s = bmapstart s' /\ logstart s = logstart s' /\ nlog s = nlog s'.
Proof. unfold layout in L. by injection L. Qed.
Lemma layout_IBLOCK n : IBLOCK n s = IBLOCK n s'.
Proof. destruct layout_eqs as (_ & _ & E & _). unfold IBLOCK. by rewrite E. Qed.
Lemma layout_BBLOCK b : BBLOCK b s = BBLOCK b s'.
Proof. destruct layout_eqs as (_ & _ & _ & E & _). unfold BBLOCK. by rewrite E. Qed.
Lemma layout_use a d b : in_use a d s b = in_use a d s' b.
Proof. unfold in_use. by rewrite layout_BBLOCK. Qed.
Lemma layout_bitmap b : is_bitmap s b <-> is_bitmap s' b.
Proof. destruct layout_eqs as (E & _). unfold is_bitmap. rewrite E. by setoid_rewrite layout_BBLOCK. Qed.
Lemma layout_data b : data_block s b <-> data_block s' b.
Proof.
  destruct layout_eqs as (E1 & E2 & _ & _ & E5 & E6). split; intros [H1 H2 H3 H4]; (split; [lia|by rewrite layout_bitmap in *|lia|]).
  - intros n Hn. rewrite <- layout_IBLOCK. apply H4. lia.
  - intros n Hn. rewrite layout_IBLOCK. apply H4. lia.
Qed.
Lemma layout_fs a d : fs_ok a d s -> fs_ok a d s'.
Proof.
  destruct layout_eqs as (E1 & E2 & _). intros [[F1 F2] H2 H3 H4]. split; [split| | |].
  - by rewrite <- E1.
  - intros b Hb. rewrite <- layout_BBLOCK. apply F2. lia.
  - done.
  - intros b Hb. rewrite <- layout_use, <- layout_data. apply H3. lia.
  - intros n Hn. rewrite <- layout_bitmap, <- layout_IBLOCK, <- E1. apply H4. lia.
Qed.
Lemma layout_file a ip : file_ok a s ip -> file_ok a s' ip.
Proof.
  destruct layout_eqs as (E1 & E2 & _). intros [H1 H2 H3 H4 H5 H6 H7 H8 H9]. split; try done; [by rewrite <- E2|..].
  - intros k. rewrite <- layout_use, <- layout_data. apply H4.
  - intros bn. rewrite <- layout_use, <- layout_data. apply H5.
Qed.
Lemma layout_inode a n : inode_of a s n = inode_of a s' n.
Proof. unfold inode_of. by rewrite layout_IBLOCK. Qed.
Lemma layout_node a n nd : holds_node a s n nd -> holds_node a s' n nd.
Proof. intros [H1 H2 H3 H4 H5 H6]. rewrite layout_inode in *. split; try done. by apply layout_file. Qed.
End layout.

Lemma sb_branded s b i k : sb_wf s -> 0 <= b < 256 -> 0 <= i < 2 ^ 32 -> 0 <= k < 2 ^ 32 ->
  sb_wf (Superblock (label s) (version s) b (system s) (sb_size s) (nblocks s) (ninodes s) (nlog s) (logstart s) (inodestart s) (bmapstart s) i k).
Proof.
  intros [W1 W2 W3] Hb Hi Hk. split; cbn [label version bootable system sb_size nblocks ninodes nlog logstart inodestart bmapstart bootinode kerninode]; [done|..]; repeat (apply Forall_cons_iff in W2 as [? W2]); repeat (apply Forall_cons_iff in W3 as [? W3]); repeat first [apply Forall_cons_iff; split; [lia|]|constructor].
Qed.
Lemma sb_fields s : sb_wf s -> 0 <= bootable s < 256 /\ 0 <= bootinode s < 2 ^ 32 /\ 0 <= kerninode s < 2 ^ 32.
Proof. intros [W1 W2 W3]. repeat (apply Forall_cons_iff in W2 as [? W2]); repeat (apply Forall_cons_iff in W3 as [? W3]). done. Qed.
Lemma builds_brand f a t s : builds f a t -> layout (sb f) = layout s -> sb_wf s -> builds (set_sb s f) a t.
Proof.
  intros [[[S1 S2 S3 S4 S5 S6 S7 S8 S9] I2 I3 I4] B2 B3 B4 B5 B6 B7] L Hw. pose proof L as (E1 & E2 & E3 & E4 & _ & _)%layout_eqs.
  split; try done; [|cbn; by rewrite <- E3, <- E4]. split; cbn [set_sb sb freeinode].
  - split; cbn [set_sb sb img bmap fsize fd]; try done.
    + intros b. rewrite S1. unfold sector, bmap_last. cbn [set_sb sb img bmap]. by rewrite E1, E4.
    + by rewrite <- E1.
    + by apply (layout_fs (sb f)).
    + intros b. rewrite <- (layout_use (sb f) s L). apply S5.
    + unfold bmap_last. rewrite <- E1, <- E4. exact S9.
  - intros n nd Hn. destruct (I2 n nd Hn) as [HN Hr]. split; [by apply (layout_node (sb f))|done].
  - intros n m Hn Hm Hne. rewrite <- !(layout_inode (sb f) s L). by apply I3.
  - by rewrite <- E2.
Qed.

(** The boot block and the superblock are no file's. *)
Lemma builds_boot f a t b v : builds f a t -> 0 <= b < 2 -> b < fsize f -> length v = BSIZE -> exists a', builds (set_img (<[b := v]> (img f)) f) a' t.
Proof.
  intros [B1 B2 B3 B4 B5 [L1 L2] B7] Hb Hs Hv. pose proof B1 as [S I2 I3 I4]. pose proof (so_fs _ _ S) as Hfs. pose proof (so_fsize _ _ S) as Ez.
  assert (forall d, data_block (sb f) d -> d <> b) as Hd by (intros d H ->; pose proof (db_range _ _ H); lia).
  assert (~ is_bitmap (sb f) b) as Hnb by (rewrite is_bitmap_iff by lia; lia).
  assert (in_use a 0 (sb f) b = true) as Hu by (apply (fk_meta _ _ _ Hfs); [lia|]; intros H; by apply (Hd b)).
  pose proof (wsect_ok f a b v S ltac:(lia) Hnb Hu Hv) as S'. exists (dirty (0, b) v a).
  assert (forall n, 0 <= n -> inode_of (dirty (0, b) v a) (sb f) n = inode_of a (sb f) n) as Ei.
  { intros n Hn. unfold inode_of. rewrite view_dirty, decide_False; [done|]. intros [= E]. unfold IBLOCK, IPB in E. pose proof (Z.div_pos n 8). lia. }
  split; try done. split; cbn [set_img sb freeinode]; try done.
  - intros n nd Hn. destruct (I2 n nd Hn) as [[H1 H2 H3 H4 H5 H6] Hr]. split; [|done]. destruct (meta_file a (sb f) b v (inode_of a (sb f) n) Hfs Hnb Hd eq_refl H1) as (M1 & M2 & _).
    split; rewrite Ei by lia; try done. by rewrite M2.
  - intros n m [x Hn] [y Hm] Hne. destruct (I2 n x Hn) as [Hx Hrx]. destruct (I2 m y Hm) as [Hy Hry]. rewrite !Ei by lia. intros c Hc1 Hc2.
    rewrite (proj2 (proj2 (meta_file a (sb f) b v (inode_of a (sb f) n) Hfs Hnb Hd eq_refl (hn_file _ _ _ _ Hx)))) in Hc1. rewrite (proj2 (proj2 (meta_file a (sb f) b v (inode_of a (sb f) m) Hfs Hnb Hd eq_refl (hn_file _ _ _ _ Hy)))) in Hc2.
    by apply (I3 n m ltac:(by eexists) ltac:(by eexists) Hne c).
Qed.

Definition signed_mbr (v : list Z) : Prop := length v = 512%nat /\ char_at v 510 = 0x55 /\ char_at v 511 = 0xaa.
(** Why an entry is refused. *)
Definition refused (host : list Z -> option (list (list Z))) (e : Entry) t (m : string) f : Prop :=
  stops (exists t', grow host e t = Some t' /\ oversize t') m f \/
  m = badname /\ e_type e = DIRECT /\ (DIRSIZ <= length (e_name e))%nat \/
  grow host e t = None \/
  e_type e = MBR /\ forall reads, host (e_source e) = Some reads -> ~ signed_mbr (concat reads).

(** An entry grows the tree, or is refused for a reason. *)
Lemma doentry_ok host e f a t : builds f a t -> t_next t < ninodes (sb f) -> e_type e <> SYNC ->
  outcome (doentry_fs host e f) (fun _ f' => layout (sb f') = layout (sb f) /\ exists a' t', grow host e t = Some t' /\ builds f' a' t') (refused host e t).
Proof.
  intros B Hlt Hty. unfold doentry_fs, refused, grow. destruct (e_type e) eqn:Et; try done.
  - cbn. eauto.
  - rewrite (bind_ok _ _ _ f f) by done. unfold finddir. rewrite (bd_dirs _ _ _ B). destruct (scan _ _) as [[i d]|] eqn:Es; cbn [fmap option_fmap option_map snd]; [|cbn; tauto].
    apply scan_Some in Es as (Hd%list_elem_of_lookup_2 & _). apply outcome_bind. eapply outcome_impl; [by apply (makedir_ok f a t)| |].
    + intros d' f' [Ks [a' B']]. split; [by rewrite Ks|]. cbn. eauto.
    + intros m g [Hst|[-> Hl]]; [left|by right; left]. destruct Hst as [?|[-> Ho]]; [by left|right; split; [done|]]. cbn. eauto.
  - rewrite (bind_ok _ _ _ f f) by done. unfold finddir. rewrite (bd_dirs _ _ _ B). destruct (scan _ _) as [[i d]|] eqn:Es; cbn [fmap option_fmap option_map snd]; [|cbn; tauto].
    apply scan_Some in Es as (Hd%list_elem_of_lookup_2 & _). apply outcome_bind. destruct (host (e_source e)) as [reads|] eqn:Eh.
    + eapply outcome_impl; [by apply (makefile_ok host f a t)| |].
      * intros d' f' [Ks [a' B']]. split; [by rewrite Ks|]. cbn. eauto.
      * intros m g Hst. left. destruct Hst as [?|[-> Ho]]; [by left|right; split; [done|]]. cbn. eauto.
    + destruct (builds_alloc f a t T_FILE (e_owner e) (e_perms e) B Hlt) as (f1 & a1 & E1 & _). unfold makefile. rewrite (bind_ok _ _ _ _ _ E1), Eh. cbn. tauto.
  - rewrite (bind_ok _ _ _ f f) by done. unfold findfile. rewrite (bd_files _ _ _ B). destruct (scan _ _) as [[i x]|] eqn:Es; cbn [fmap option_fmap option_map snd]; [|cbn; tauto].
    cbn. split; [done|]. exists a, t. split; [done|]. apply builds_brand; [done|done|]. pose proof (bd_sb _ _ _ B) as W. pose proof (Z.mod_pos_bound (fl_ino x) 65536 ltac:(lia) : 0 <= u16 (fl_ino x) < 65536). pose proof (sb_fields _ W). by apply sb_branded; lia || done.
  - rewrite (bind_ok _ _ _ f f) by done. unfold findfile. rewrite (bd_files _ _ _ B). destruct (scan _ _) as [[i x]|] eqn:Es; cbn [fmap option_fmap option_map snd]; [|cbn; tauto].
    cbn. split; [done|]. exists a, t. split; [done|]. apply builds_brand; [done|done|]. pose proof (bd_sb _ _ _ B) as W. pose proof (Z.mod_pos_bound (fl_ino x) 65536 ltac:(lia) : 0 <= u16 (fl_ino x) < 65536). pose proof (sb_fields _ W). by apply sb_branded; lia || done.
  - cbn. eauto.
  - unfold writembr. destruct (host (e_source e)) as [reads|] eqn:Eh; [|cbn; do 3 right; split; [done|by intros]].
    cbv zeta. destruct (Nat.eqb_spec (length (concat reads)) 512) as [Hl|Hl]; cbn [negb].
    2: { cbn. do 3 right. split; [done|]. intros r [= <-] [Hv _]. done. }
    destruct ((char_at _ 510 =? _) && _) eqn:Ec; cbn [negb].
    2: { cbn. do 3 right. split; [done|]. intros r [= <-] (_ & H1 & H2). by rewrite H1, H2 in Ec. }
    pose proof (io_store _ _ _ (bd_image _ _ _ B)) as S. pose proof (so_pos _ _ S). rewrite (wsect_run f a) by (done || lia). cbn [outcome].
    split; [done|]. destruct (builds_boot f a t 0 (concat reads) B) as [a' B']; [lia|lia|done|]. eauto.
Qed.
End entries.
