(* ===== verification/MkprotoImage.v ===== *)
(** The image [mkproto] leaves: [makefs] makes a root directory on a blank disk,
    the entries grow the tree, [syncfs] writes bitmap and superblock; the kernel
    that reads the image finds the superblock and every file. *)

From S2P Require Import Prelude Params CString Bio Disk Log Fs FsFormat FsOps FsData Mkproto MkprotoFacts MkprotoBuild.
Import Spec BlockIO.

Section entries.
Context (host : list Z -> option (list (list Z))).
Implicit Types (f : Mkproto.Fs) (a : astate) (t : tree).

Fixpoint grow_all (es : list Entry) t : option tree :=
  match es with [] => Some t | e :: es' => grow host e t ≫= grow_all es' end.

Lemma grow_next e t t' : grow host e t = Some t' -> t_next t <= t_next t' <= t_next t + 1.
Proof.
  unfold grow. destruct (e_type e); try (intros [= <-]; lia).
  - destruct (scan _ _); cbn; [|done]. intros [= <-]. cbn. lia.
  - destruct (scan _ _); cbn; [|done]. destruct (host _); cbn; [|done]. intros [= <-]. cbn. lia.
  - destruct (scan _ _); cbn; [|done]. intros [= <-]. lia.
  - destruct (scan _ _); cbn; [|done]. intros [= <-]. lia.
Qed.

Definition refused_at (es : list Entry) t m f : Prop := exists es1 e es2 t1, es = es1 ++ e :: es2 /\ grow_all es1 t = Some t1 /\ refused host e t1 m f.

Lemma entries_ok es : forall f a t, builds f a t -> t_next t + Z.of_nat (length es) <= ninodes (sb f) -> Forall (fun e => e_type e <> SYNC) es ->
  outcome (for_each es (doentry_fs host) f) (fun _ f' => layout (sb f') = layout (sb f) /\ exists a' t', grow_all es t = Some t' /\ builds f' a' t') (refused_at es t).
Proof.
  induction es as [|e es IH]; intros f a t B Hn Hs; [cbn; eauto|]. apply Forall_cons_1 in Hs as [Hs1 Hs2]. cbn [for_each length] in *. apply outcome_bind.
  eapply outcome_impl; [apply (doentry_ok host e f a t B); [lia|done]| |].
  - intros _ f1 (L & a1 & t1 & E1 & B1). pose proof (grow_next _ _ _ E1). pose proof (layout_eqs _ _ L) as (_ & En & _). eapply outcome_impl; [apply (IH f1 a1 t1 B1); [lia|done]| |].
    + intros _ f2 (L2 & a2 & t2 & E2 & B2). split; [congruence|]. exists a2, t2. cbn [grow_all]. rewrite E1. done.
    + intros m g (es1 & e' & es2 & t' & -> & E' & R). exists (e :: es1), e', es2, t'. cbn [grow_all]. by rewrite E1.
  - intros m g R. exists [], e, es, t. done.
Qed.
End entries.

(** ** The superblock *)

Lemma length_encode s : length (label s) = 11%nat -> length (encode_sb s) = BSIZE.
Proof. intros H. unfold encode_sb. rewrite !length_app, H. done. Qed.
Lemma sb_decode_encode s : sb_wf s -> decode_sb (encode_sb s) = s.
Proof.
  intros [W1 W2 W3]. repeat (apply Forall_cons_iff in W2 as [? W2]). repeat (apply Forall_cons_iff in W3 as [? W3]).
  destruct s as [l v bo sy z nb ni nl ls ist bst bi ki]. cbn [label version bootable system sb_size nblocks ninodes nlog logstart inodestart bmapstart bootinode kerninode] in *.
  do 11 (destruct l as [|? l]; [done|]). destruct l; [|done].
  assert (forall x, 0 <= x < 2 ^ 32 -> le_num (le_bytes 4 x) = x) as Hx by (intros x Hx; rewrite le_num_bytes; by apply Z.mod_small).
  unfold decode_sb. f_equal; first [reflexivity|by apply Hx|idtac]; (etrans; [apply Z.add_0_r|reflexivity]).
Qed.

(** ** Writing the bitmap and the superblock *)

Section sync.
Implicit Types (f : Mkproto.Fs) (a : astate) (t : tree).

(** The bitmap in the image is not looked at until the end. *)
Lemma builds_bitmap f a t v : builds f a t -> builds (set_img (<[bmapstart (sb f) := v]> (img f)) f) a t.
Proof.
  intros [[[S1 S2 S3 S4 S5 S6 S7 S8 S9] I2 I3 I4] B2 B3 B4 B5 B6]. split; try done. split; try done. split; cbn [set_img sb img bmap fsize fd]; try done.
  - intros b. rewrite S1. unfold sector. cbn [set_img sb img bmap]. case_decide as E; [done|]. rewrite lookup_insert_ne; [done|]. intros <-. apply E. unfold bmap_last. dlia.
  - intros b Hb. rewrite lookup_insert_is_Some'. right. by apply S2.
  - intros b Hb. rewrite lookup_insert_ne by lia. by apply S9.
Qed.

Lemma builds_size f a t : builds f a t -> 2 < fsize f <= FSSIZE /\ 2 <= bmapstart (sb f) < FSSIZE.
Proof.
  intros [[S I2 I3 I4] B2 B3 B4 B5 [L1 L2] B7]. pose proof (so_fs _ _ S) as F. rewrite (so_fsize _ _ S). pose proof (so_pos _ _ S) as Hp. rewrite (so_fsize _ _ S) in Hp.
  destruct (fk_inodes _ _ _ F 0 ltac:(lia)) as [Hi _]. pose proof (sf_size _ (fk_fits _ _ _ F)). pose proof (sf_bmap _ (fk_fits _ _ _ F) 0 ltac:(lia)) as Hb. unfold IBLOCK, IPB, BBLOCK, BPB in *. change (0 / 8) with 0 in Hi. change (0 / 4096) with 0 in Hb. lia.
Qed.
Lemma wsect_low f b v : fd f = true -> 0 <= b < 2 ^ 23 -> wsect v b f = Ok tt (set_img (<[b := v]> (img f)) f).
Proof. intros H Hb. unfold wsect. msteps. rewrite H. cbn [negb]. unfold sect. rewrite u32_small by lia. by rewrite Z.div_mul. Qed.

Lemma sync_run f a t : builds f a t -> exists f' a', syncfs f = Ok tt f' /\ builds f' a' t /\
  f' = set_img (<[1 := encode_sb (sb f)]> (<[bmapstart (sb f) := slice (bmap f) 0 BSIZE]> (img f))) f.
Proof.
  intros B. pose proof (builds_size f a t B) as [Hz Hb]. unfold FSSIZE in *. pose proof (builds_bitmap f a t (slice (bmap f) 0 BSIZE) B) as B1. set (f1 := set_img _ f) in B1.
  destruct (builds_boot f1 a t 1 (encode_sb (sb f)) B1) as [a' B']; [lia|cbn; lia|apply length_encode, (bd_sb _ _ _ B)|].
  eexists _, a'. split; [|split; [exact B'|done]]. unfold syncfs. rewrite (bind_ok _ _ _ f f) by done. pose proof (so_fd _ _ (io_store _ _ _ (bd_image _ _ _ B))) as Hfd.
  assert (sync_bitmap f f = Ok tt f1) as E; [|rewrite (bind_ok _ _ _ _ _ E); by apply wsect_low].
  unfold sync_bitmap. replace ((fsize f / 4096 + 1 + 511) / 512) with 1 by dlia. cbn [seqZ fmap list_fmap seq for_each Z.to_nat Pos.to_nat Pos.iter_op].
  change (seqZ 0 1) with [0]. cbn [for_each]. rewrite Z.add_0_r. by rewrite (bind_ok _ _ _ _ _ (wsect_low f (bmapstart (sb f)) _ Hfd ltac:(lia))).
Qed.

(** With the bitmap of the blocks from 4096 on clear, the image is the disk. *)
Definition low_blocks f : Prop := forall i c, (BSIZE <= i)%nat -> bmap f !! i = Some c -> c = 0.
Lemma synced_sector f a t f' : builds f a t -> syncfs f = Ok tt f' -> low_blocks f -> forall b, default zero_block (img f' !! b) = sector f' b.
Proof.
  intros B E Hlow b. destruct (sync_run f a t B) as (f2 & a2 & E2 & B2 & ->). rewrite E2 in E. injection E as <-. pose proof (builds_size f a t B) as [Hz Hb].
  unfold sector. cbn [set_img sb img bmap]. case_decide as Hr; [|done]. pose proof (bd_layout _ _ _ B) as [_ L2]. rewrite lookup_insert_ne by lia.
  pose proof (io_store _ _ _ (bd_image _ _ _ B)) as S. destruct (decide (b = bmapstart (sb f))) as [->|Hne].
  - rewrite lookup_insert_eq. by rewrite Z.sub_diag.
  - rewrite lookup_insert_ne by done. rewrite (so_rest _ _ S) by lia. change (zero_block = slice (bmap f) (BSIZE * Z.to_nat (b - bmapstart (sb f))) BSIZE). unfold zero_block. symmetry. apply list_eq. intros i. destruct (decide (i < BSIZE)%nat) as [Hi|Hi].
    + rewrite lookup_slice by done. rewrite lookup_replicate_2 by (unfold BSIZE in *; done). destruct (bmap f !! _) as [c|] eqn:Ec; [f_equal; eapply Hlow; [|exact Ec]; unfold BSIZE; lia|].
      apply lookup_ge_None in Ec. pose proof (so_bmap _ _ S) as Hl. rewrite (so_fsize _ _ S) in Hl. unfold bmap_last, BSIZE in *. dlia.
    + rewrite lookup_slice_ge by lia. symmetry. apply lookup_ge_None_2. rewrite length_replicate. unfold BSIZE in *. lia.
Qed.
End sync.

(** ** A new file system *)

(** The disk whose blocks are those of the image. *)
Definition drive (sz : Z) (blk : Z -> block) : astate :=
  {| amedia := list_to_map ((fun b => ((0, b), blk b)) <$> seqZ 0 sz); pin := ∅; abudget := None |}.
Lemma drive_view sz blk b : view (drive sz blk) (0, b) = if decide (0 <= b < sz) then blk b else zero_block.
Proof.
  unfold view, on_media. cbn [drive pin amedia]. rewrite lookup_empty. set (l := _ <$> seqZ 0 sz).
  assert (NoDup l.*1) as Hn. { unfold l. rewrite <- list_fmap_compose. apply (NoDup_fmap_2 (fun b : Z => (0, b))), NoDup_seqZ. }
  case_decide as Hb.
  - rewrite (elem_of_list_to_map_1 l (0, b) (blk b) Hn); [done|]. unfold l. apply list_elem_of_fmap. exists b. split; [done|]. apply elem_of_seqZ. lia.
  - rewrite not_elem_of_list_to_map_1; [done|]. unfold l. rewrite <- list_fmap_compose. intros (x & [= <-] & Hx%elem_of_seqZ)%list_elem_of_fmap. lia.
Qed.

Lemma ream l : forall f, fd f = true -> Forall (fun b => 0 <= b < 2 ^ 23) l ->
  exists m, for_each l (wsect zero_block) f = Ok tt (set_img m f) /\ forall b, m !! b = if decide (b ∈ l) then Some zero_block else img f !! b.
Proof.
  induction l as [|b0 l IH]; intros f Hf Hl.
  - exists (img f). split; [by destruct f|]. intros b. rewrite decide_False; [done|]. apply not_elem_of_nil.
  - apply Forall_cons_1 in Hl as [H0 Hl]. cbn [for_each]. rewrite (bind_ok _ _ _ _ _ (wsect_low f b0 zero_block Hf H0)).
    destruct (IH (set_img (<[b0 := zero_block]> (img f)) f) Hf Hl) as (m & E & Hm). exists m. split; [done|]. intros b. rewrite Hm. cbn [set_img img]. rewrite lookup_insert.
    repeat case_decide; subst; try done; exfalso; set_solver.
Qed.

Lemma bit_marks l : forall (d : list Z) j, Forall (fun i => 0 <= i < 8 * Z.of_nat (length d)) l ->
  bit (foldl (fun b i => mark b (Z.to_nat i)) d l) j = bool_decide (Z.of_nat j ∈ l) || bit d j.
Proof.
  induction l as [|i l IH]; intros d j Hl; cbn [foldl]; [done|]. apply Forall_cons_1 in Hl as [Hi Hl]. rewrite IH by (by rewrite length_mark).
  rewrite bit_mark by (apply Nat.Div0.div_lt_upper_bound; lia). rewrite orb_assoc. f_equal. rewrite <- bool_decide_or. apply bool_decide_ext. rewrite elem_of_cons. split; intros [?|?]; auto; [left|right]; lia.
Qed.
Lemma length_marks l : forall (d : list Z), length (foldl (fun b i => mark b (Z.to_nat i)) d l) = length d.
Proof. induction l as [|i l IH]; intros d; cbn [foldl]; [done|]. by rewrite IH, length_mark. Qed.

Section blank.
Context (lbl : list Z) (sz logsize inodes : Z).
Context (Hlbl : (length lbl <= 10)%nat) (Hlog : 0 <= logsize) (Hino : 2 <= inodes) (Hmeta : nmeta_of sz logsize inodes <= sz) (Hsz : sz <= FSSIZE).
Let nmeta := nmeta_of sz logsize inodes.
Let f0 := blank_fs lbl sz logsize inodes.

Lemma blank_nmeta : 4 <= nmeta /\ nmeta = bmapstart (sb f0) + sz / 4096 + 1 /\ bmapstart (sb f0) = inodestart (sb f0) + inodes / 8 + 1 /\ inodestart (sb f0) = 2 + logsize /\ 4 <= sz /\ 0 <= inodes / 8 /\ 0 <= sz / 4096.
Proof. unfold nmeta, nmeta_of, nbitmap_of, IPB in *. cbn [f0 blank_fs sb sb_of bmapstart inodestart]. unfold IPB. dlia. Qed.
Lemma blank_len : length (bmap f0) = (Z.to_nat (sz / 4096 + 1) * BSIZE)%nat.
Proof. cbn [f0 blank_fs bmap]. rewrite length_marks, length_replicate. done. Qed.
Lemma blank_bit b : 0 <= b < sz -> bit (bmap f0) (Z.to_nat b) = bool_decide (b < nmeta).
Proof.
  intros Hb. destruct blank_nmeta as (N1 & N2 & N3 & N4 & N5 & N6 & N7). cbn [f0 blank_fs bmap]. rewrite bit_marks.
  - assert (bit (replicate (Z.to_nat (nbitmap_of sz) * BSIZE) 0) (Z.to_nat b) = false) as ->.
    { unfold bit. destruct (replicate _ _ !! _) as [c|] eqn:E; [apply lookup_replicate in E as [-> _]|]; done. }
    rewrite orb_false_r. apply bool_decide_ext. rewrite elem_of_seqZ. fold nmeta. lia.
  - rewrite length_replicate. apply Forall_forall. intros i Hi%list_elem_of_In%elem_of_seqZ. fold nmeta in Hi. unfold nbitmap_of, BSIZE. dlia.
Qed.
Lemma blank_wf : sb_wf (sb f0).
Proof.
  destruct blank_nmeta as (N1 & N2 & N3 & N4 & N5 & N6 & N7). unfold FSSIZE in Hsz. split; cbn [f0 blank_fs sb sb_of label version bootable system sb_size nblocks ninodes nlog logstart inodestart bmapstart bootinode kerninode] in *.
  - rewrite length_app, length_replicate. lia.
  - repeat constructor; lia.
  - pose proof (u32_range (sz - nmeta_of sz logsize inodes)). fold nmeta in Hmeta. unfold IPB in *. repeat (apply Forall_cons_iff; split; [done || dlia|]). constructor.
Qed.

Lemma blank_store m : (forall b, m !! b = if decide (b = 1) then Some (encode_sb (sb f0)) else if decide (0 <= b < sz) then Some zero_block else None) ->
  let f := set_img m f0 in store_ok f (drive sz (sector f)).
Proof.
  intros Hm f. destruct blank_nmeta as (N1 & N2 & N3 & N4 & N5 & N6 & N7). pose proof blank_len as Hlen. unfold FSSIZE in Hsz.
  assert (sb_size (sb f0) = sz) as Ez by done. assert (ninodes (sb f0) = inodes) as En by done. assert (logstart (sb f0) = 2) as El by done. assert (nlog (sb f0) = logsize) as Eg by done. assert (fsize f0 = sz) as Ef by done.
  assert (forall b, view (drive sz (sector f)) (0, b) = sector f b) as Hv.
  { intros b. rewrite drive_view. case_decide as Hb; [done|]. unfold sector, bmap_last. cbn [f set_img sb img bmap]. rewrite decide_False by dlia.
    rewrite Hm. rewrite decide_False by lia. by rewrite decide_False. }
  assert (forall b, 0 <= b < sz -> in_use (drive sz (sector f)) 0 (sb f) b = bool_decide (b < nmeta)) as Hu.
  { intros b Hb. rewrite (sector_bit f _ b Hv Hb). by apply blank_bit. }
  split; try done.
  - intros b Hb. cbn [f set_img img]. rewrite Hm. repeat case_decide; [by eexists|by eexists|done].
  - split; [split; [done|]| | |].
    + intros b Hb. unfold BBLOCK, BPB, FSSIZE. cbn [f set_img sb] in *. fold nmeta in Hmeta. dlia.
    + intros b. rewrite Hv. unfold sector. case_decide as Hb; [rewrite length_slice; [done|]|].
      * cbn [f set_img sb bmap] in *. unfold bmap_last, BSIZE in *. rewrite Hlen. dlia.
      * cbn [f set_img img]. rewrite Hm. repeat case_decide; [apply length_encode, blank_wf|done|done].
    + intros b Hb Hn. rewrite Hu by done. apply bool_decide_eq_true. destruct (decide (b < nmeta)) as [|Hge]; [done|]. destruct Hn. cbn [f set_img sb] in *. split.
      * lia.
      * rewrite is_bitmap_iff by lia. unfold bmap_last. dlia.
      * lia.
      * intros n Hn. unfold IBLOCK, IPB. dlia.
    + intros n Hn. cbn [f set_img sb] in *. rewrite is_bitmap_iff by lia. fold nmeta in Hmeta. unfold IBLOCK, IPB. dlia.
  - intros b Hb. cbn [f set_img fsize] in Hb. rewrite Hu by done. intros Hge%bool_decide_eq_false. rewrite Hv. unfold sector. cbn [f set_img sb img]. rewrite decide_False by (unfold bmap_last; dlia).
    rewrite Hm. rewrite decide_False by lia. by rewrite decide_True.
  - cbn [f set_img fsize bmap]. rewrite Hlen. unfold BSIZE. dlia.
  - cbn [f set_img fsize]. lia.
  - intros b Hb. cbn [f set_img sb img] in *. rewrite Hm. unfold bmap_last in Hb. fold nmeta in Hmeta. rewrite decide_False by dlia. by rewrite decide_True by dlia.
Qed.

Lemma blank_builds m : (forall b, m !! b = if decide (b = 1) then Some (encode_sb (sb f0)) else if decide (0 <= b < sz) then Some zero_block else None) ->
  builds (set_img m f0) (drive sz (sector (set_img m f0))) (Tree ∅ 1 [] []).
Proof.
  intros Hm. destruct blank_nmeta as (N1 & N2 & N3 & N4 & N5 & N6 & N7). split; try done; [|intros d Hd; by apply not_elem_of_nil in Hd|cbn [set_img sb]; lia|apply blank_wf].
  split; [by apply blank_store|..].
  - intros n nd. cbn [t_nodes]. by rewrite lookup_empty.
  - intros n n'. cbn [t_nodes]. rewrite lookup_empty. by intros [? ?].
  - split; [done|]. change (1 <= inodes). lia.
Qed.

(** [makefs] makes the root directory, or has no room for it. *)
Lemma makefs_ok : outcome (makefs lbl sz logsize inodes) (fun _ f => layout (sb f) = layout (sb f0) /\ exists a, builds f a root_tree) (fun m f => m = full /\ spent f).
Proof.
  destruct blank_nmeta as (N1 & N2 & N3 & N4 & N5 & N6 & N7). unfold makefs. rewrite (proj2 (Nat.ltb_ge _ _) Hlbl). fold f0. unfold makefs_body.
  destruct (ream (seqZ 0 sz) f0 eq_refl) as (m0 & E0 & Hm0). { apply Forall_forall. intros b Hb%list_elem_of_In%elem_of_seqZ. unfold FSSIZE in Hsz. lia. }
  rewrite (bind_ok _ _ _ _ _ E0). rewrite (bind_ok _ _ _ (sb f0) (set_img m0 f0)) by done. rewrite (bind_ok _ _ _ _ _ (wsect_low (set_img m0 f0) 1 (encode_sb (sb f0)) eq_refl ltac:(lia))).
  set (m1 := <[1 := encode_sb (sb f0)]> m0). change (set_img (<[1 := encode_sb (sb f0)]> (img (set_img m0 f0))) (set_img m0 f0)) with (set_img m1 f0).
  assert (builds (set_img m1 f0) (drive sz (sector (set_img m1 f0))) (Tree ∅ 1 [] [])) as B0.
  { apply blank_builds. intros b. unfold m1. rewrite lookup_insert. destruct (decide (1 = b)) as [<-|Hne]; [done|]. rewrite decide_False by lia. rewrite Hm0. apply decide_ext. rewrite elem_of_seqZ. lia. }
  destruct (builds_alloc _ _ _ T_DIR (-1) dirperms B0 ltac:(change (1 < inodes); lia)) as (f1 & a1 & E1 & K1 & B1). rewrite (bind_ok _ _ _ _ _ E1). cbn [t_next] in *.
  rewrite (bind_ok _ _ _ _ _ (strcpy_run 1 [46] f1 ltac:(cbn; unfold DIRSIZ; lia))). set (t1 := alloc_tree _ _) in B1.
  set (t2 := append_tree 1 (dirent 1 [46]) t1). set (t3 := append_tree 1 (dirent 1 [46; 46]) t2).
  assert (forall m g, stops (oversize t3) m g -> m = full /\ spent g) as Hst.
  { intros m g [?|[_ (n & nd & Hn & Hl)]]; [done|]. exfalso. revert Hn. cbn [t3 t2 t1 append_tree alloc_tree t_nodes t_next]. rewrite !alter_insert_eq, lookup_insert. case_decide; [|by rewrite lookup_empty]. intros [= <-]. by vm_compute in Hl. }
  eapply (outcome_append f1 a1 t1 t3); [done|by eexists|apply shorter_append|done|]. intros f2 a2 K2 B2. rewrite (bind_ok _ _ _ _ _ (strcpy_run 1 [46; 46] f2 ltac:(cbn; unfold DIRSIZ; lia))).
  eapply (outcome_append f2 a2 t2 t3); [done|by eexists|reflexivity|done|]. intros f3 a3 K3 B3. set (root := MkDir [47] 1 1 0 dirperms). rewrite (bind_ok _ _ _ tt (set_dirs [root] f3)) by done.
  assert (builds (set_dirs [root] f3) a3 root_tree) as B4.
  { pose proof (builds_lists f3 a3 t3 [root] [] B3) as B4. assert (t_nodes t3 = t_nodes root_tree) as E4 by (cbn [t3 t2 t1 append_tree alloc_tree t_nodes t_next root_tree]; by rewrite !alter_insert_eq).
    fold t3 in B3. rewrite E4 in B4. assert (set_dirs [root] f3 = set_files [] (set_dirs [root] f3)) as ->; [|apply B4].
    - pose proof (bd_files _ _ _ B3) as Ef. unfold set_files. cbn in *. destruct f3. cbn in *. by subst.
    - intros d ->%list_elem_of_singleton. by eexists. }
  destruct (sync_run _ _ _ B4) as (f5 & a5 & E5 & B5 & ->). rewrite E5. cbn [outcome]. split; [|by exists a5]. change (layout (sb f3) = layout (sb f0)). by rewrite K3, K2, K1.
Qed.
End blank.

(** ** The image as a disk *)

(** The kernel's disk 0, read through its cache, is the image. *)
Definition disk_is (a : astate) (m : gmap Z block) : Prop := forall b, view a (0, b) = default zero_block (m !! b).

(** The disk holds the files [ns]: superblock, bitmap, inodes and data. *)
Record mounts (a : astate) (s : superblock) (ns : gmap Z node) : Prop := {
  mt_sb : decode_sb (view a (0, 1)) = s;
  mt_fs : fs_ok a 0 s;
  mt_node : forall n nd, ns !! n = Some nd -> holds_node a s n nd;
  mt_apart : forall n m, is_Some (ns !! n) -> is_Some (ns !! m) -> n <> m -> disjoint_files a (inode_of a s n) (inode_of a s m)
}.

Section views.
Context (a a' : astate) (V : forall b, view a' (0, b) = view a (0, b)).
Lemma view_use s b : in_use a' 0 s b = in_use a 0 s b.
Proof. unfold in_use. by rewrite V. Qed.
Lemma view_fs s : fs_ok a 0 s -> fs_ok a' 0 s.
Proof. intros [H1 H2 H3 H4]. split; try done; intros b; [by rewrite V|]. rewrite view_use. apply H3. Qed.
Lemma view_inode s n : inode_of a' s n = inode_of a s n.
Proof. unfold inode_of. by rewrite V. Qed.
Lemma view_ptr ip bn : i_dev ip = 0 -> ptr a' ip bn = ptr a ip bn.
Proof. intros E. apply ptr_frame. intros k _. by rewrite E. Qed.
Lemma view_owns ip b : i_dev ip = 0 -> owns a' ip b <-> owns a ip b.
Proof. intros E. unfold owns. split; intros [Hb [H|(bn & H1 & H2)]]; (split; [done|]); [by left|right; exists bn; by rewrite <- view_ptr|by left|right; exists bn; by rewrite view_ptr]. Qed.
Lemma view_node s n nd : holds_node a s n nd -> holds_node a' s n nd.
Proof.
  intros [H1 H2 H3 H4 H5 H6]. split; rewrite view_inode; try done.
  - apply (file_frame a); [done|intros b _; by rewrite (view_use s)|intros bn; by apply view_ptr].
  - rewrite <- H2. unfold contents, bytes. apply list_fmap_ext. intros k o _. unfold byte_at. rewrite view_ptr by done. by rewrite V.
Qed.
End views.

Lemma builds_mounts f a t f' a1 : builds f a t -> low_blocks f -> syncfs f = Ok tt f' -> disk_is a1 (img f') -> mounts a1 (sb f') (t_nodes t).
Proof.
  intros B Hlow E D. pose proof (synced_sector f a t f' B E Hlow) as Hs. destruct (sync_run f a t B) as (f2 & a2 & E2 & B2 & Ef). rewrite E2 in E. injection E as <-.
  pose proof B2 as [[S I2 I3 I4] _ _ _ _ _ W]. assert (forall b, view a1 (0, b) = view a2 (0, b)) as V by (intros b; rewrite D, Hs; symmetry; apply (so_rep _ _ S)).
  split.
  - rewrite D. rewrite Ef at 1. cbn [set_img img]. rewrite lookup_insert_eq. change (decode_sb (encode_sb (sb f)) = sb f2). rewrite sb_decode_encode by apply (bd_sb _ _ _ B). by rewrite Ef.
  - apply (view_fs a2); [done|apply S].
  - intros n nd Hn. apply (view_node a2); [done|]. by apply I2.
  - intros n m Hn Hm Hne c H1 H2. rewrite !(view_inode a2 a1 V) in *. rewrite (view_owns a2 a1 V) in H1, H2 by done. by apply (I3 n m Hn Hm Hne c).
Qed.

(** What the kernel has in its cache after [ilock], whatever was in the slot. *)
Definition locked_inode (a : astate) (s : superblock) (n : Z) (slot : inode) : inode := decode_dinode (get_dinode (view a (0, IBLOCK n s)) n) slot.
Lemma locked_file a s n slot : i_dev slot = 0 -> i_inum slot = n -> let ip := locked_inode a s n slot in
  (file_ok a s (inode_of a s n) -> file_ok a s ip) /\ contents a ip = contents a (inode_of a s n) /\ i_type ip = i_type (inode_of a s n) /\ i_size ip = i_size (inode_of a s n) /\ i_dev ip = 0.
Proof.
  intros Hd Hn ip. unfold ip. destruct slot. cbn in Hd, Hn. subst. split_and!; try done. by intros [H1 H2 H3 H4 H5 H6 H7 H8 H9]; split.
Qed.

(** The kernel reads the bytes of a file of the image. *)
Lemma mounts_read present devsw_read a s ns n nd x i slot : mounts a s ns -> ns !! n = Some nd -> nd_type nd <> T_DEV -> readable present a 0 ->
  i_dev slot = 0 -> i_inum slot = n -> icache x !! i = Some (locked_inode a s n slot) ->
  Spec.run present (readi devsw_read i 0 (Z.of_nat (length (nd_bytes nd)))) x a = Ok (Z.of_nat (length (nd_bytes nd)), nd_bytes nd) (x, a).
Proof.
  intros [M1 M2 M3 M4] Hn Ht Hr Hd Hi Hx. destruct (M3 n nd Hn) as [N1 N2 N3 N4 N5 N6]. destruct (locked_file a s n slot Hd Hi) as (L1 & L2 & L3 & L4 & L5).
  set (ip := locked_inode a s n slot) in *. pose proof (fo_size _ _ _ N1) as Hs. rewrite <- L4 in Hs. assert (MAXFILE * 512 = 786432) as Em by done.
  assert (Z.of_nat (length (nd_bytes nd)) = i_size ip) as Hl by (rewrite <- N2, <- L2; apply length_contents; lia).
  rewrite (readi_ok present devsw_read i x a ip s 0); [|done|by rewrite L5|by rewrite L5|by apply L1|by rewrite L3, N3|lia..]. unfold read_result. rewrite L2, N2.
  rewrite (proj2 (Z.ltb_ge _ 0)) by lia. rewrite Z.sub_0_r, Z.min_id. cbv zeta. unfold slice. rewrite Nat2Z.id, take_ge by (rewrite length_drop; lia). done.
Qed.

(** ** The program *)

(** A run of the program on its only file system. *)
Definition outcome1 {A} (r : res mk A) (Q : A -> Mkproto.Fs -> Prop) (P : string -> Mkproto.Fs -> Prop) : Prop :=
  match r with Ok v s => exists f, fss s = [f] /\ Q v f | Panic m s => exists f, fss s = [f] /\ P m f | _ => False end.
Definition deactivate (e : Entry) : Entry := MkEntry (e_type e) false (e_fs e) (e_name e) (e_home e) (e_source e) (e_size e) (e_owner e) (e_perms e).

Section program.
Context (host : list Z -> option (list (list Z))) (opt : options) (Hopt : neuter opt = false).
Implicit Types (f : Mkproto.Fs) (e : Entry) (es : list Entry).

(** The entry is of the file system and not done. *)
Definition waiting e : Prop := e_active e = true /\ e_fs e = Some 0%nat.

Lemma doentry_one e pre es act f Q P : waiting e -> outcome (doentry_fs host e f) (fun _ f' => Q (Mk [f'] act (pre ++ deactivate e :: es))) P ->
  match doentry host opt (length pre) (Mk [f] act (pre ++ e :: es)) with Ok _ s => Q s | Panic m s => exists f, fss s = [f] /\ P m f | _ => False end.
Proof.
  intros [Ha Hf] H. unfold doentry. erewrite bind_ok by reflexivity. cbn [entries]. rewrite list_lookup_middle by done. rewrite Ha, Hopt. cbn [negb andb].
  unfold mbind at 1, M_bind at 1, on_fs. rewrite Hf. cbn [mbind option_bind fss list_lookup lookup default]. unfold outcome in H. destruct (doentry_fs host e f) as [u f'|m f'|f'|f']; cbn in *; [|by eexists|done|done].
  rewrite alter_app_r_alt by lia. rewrite Nat.sub_diag. exact H.
Qed.
(** One after the other. *)
Lemma entries_one es : forall pre act f Q P, Forall waiting es -> outcome (for_each es (doentry_fs host) f) Q P ->
  outcome1 (for_each (seq (length pre) (length es)) (doentry host opt) (Mk [f] act (pre ++ es))) Q P.
Proof.
  induction es as [|e es IH]; intros pre act f Q P Hw H; [cbn in *; by exists f|]. apply Forall_cons_1 in Hw as [Hw Hws]. cbn [length seq for_each] in *.
  set (k := for_each (seq (S (length pre)) (length es)) (doentry host opt)). unfold mbind at 1, M_bind at 1.
  pose proof (doentry_one e pre es act f (fun s => outcome1 (k s) Q P) P Hw) as Hd. unfold outcome1 at 1. destruct (doentry host opt (length pre) (Mk [f] act (pre ++ e :: es))) as [u s|m s|s|s]; apply Hd; clear Hd.
  all: unfold mbind, M_bind in H; destruct (doentry_fs host e f) as [u' f'|m' f'|f'|f'] eqn:E; cbn [outcome] in *; try done.
  all: specialize (IH (pre ++ [deactivate e]) act f' Q P Hws H); rewrite length_app, Nat.add_1_r in IH; cbn [length] in IH; rewrite <- app_assoc in IH; exact IH.
Qed.

Lemma inactive_skip e pre es act f : e_active e = false -> doentry host opt (length pre) (Mk [f] act (pre ++ e :: es)) = Ok tt (Mk [f] act (pre ++ e :: es)).
Proof. intros Ha. unfold doentry. erewrite bind_ok by reflexivity. cbn [entries]. rewrite list_lookup_middle by done. by rewrite Ha. Qed.

Lemma for_each_snoc {A} (l : list A) x (c : A -> M Mkproto.Fs unit) f : for_each (l ++ [x]) c f = (for_each l c ;; c x) f.
Proof.
  revert f. induction l as [|y l IH]; intros f; cbn [app for_each].
  - unfold mbind, M_bind. cbn. by destruct (c x f) as [[]| | |].
  - rewrite bind_assoc. cbv [mbind M_bind] in IH |- *. destruct (c y f); [apply IH|done..].
Qed.

(** What is done before the last entry, which syncs. *)
Context (lbl : list Z) (sz logsize inodes : Z) (fsys last : Entry) (es : list Entry).
Context (Hlbl : (length lbl <= 10)%nat) (Hlog : 0 <= logsize) (Hsz : nmeta_of sz logsize inodes <= sz <= FSSIZE) (Hino : 2 + Z.of_nat (length es) <= inodes).
Context (Hfsys : e_active fsys = false) (Hes : Forall waiting es) (Hns : Forall (fun e => e_type e <> SYNC) es) (Hlast : waiting last) (Hsync : e_type last = SYNC).

Lemma mkproto_ok : match makefs lbl sz logsize inodes with
  | Ok _ f => outcome1 (runentries host opt (Mk [f] (Some 0%nat) (fsys :: es ++ [last])))
      (fun _ f' => fd f' = false /\ (low_blocks f' -> exists t, grow_all host es root_tree = Some t /\ forall a, disk_is a (img f') -> mounts a (sb f') (t_nodes t)))
      (refused_at host es root_tree)
  | Panic m f => m = full /\ spent f
  | _ => False
  end.
Proof.
  pose proof (makefs_ok lbl sz logsize inodes Hlbl Hlog ltac:(lia) ltac:(lia) ltac:(lia)) as H. destruct (makefs lbl sz logsize inodes) as [u f|m f|f|f]; cbn [outcome] in *; [|done..].
  destruct H as [L [a B]]. pose proof (layout_eqs _ _ L) as (_ & En & _). unfold runentries. erewrite bind_ok by reflexivity. rewrite Hopt. cbn [entries length seq for_each].
  rewrite (bind_ok _ _ _ _ _ (inactive_skip fsys [] (es ++ [last]) _ f Hfsys)). apply (entries_one (es ++ [last]) [fsys]); [by apply Forall_app_2; [|apply Forall_singleton]|].
  rewrite for_each_snoc. apply outcome_bind. eapply outcome_impl; [apply (entries_ok host es f a root_tree B); [rewrite En; cbn; lia|done]| |done].
  intros _ f1 (_ & a1 & t1 & E1 & B1). unfold doentry_fs. rewrite Hsync. destruct (sync_run f1 a1 t1 B1) as (f2 & a2 & E2 & _ & Ef). rewrite (bind_ok _ _ _ _ _ E2). cbn. split; [done|].
  intros Hlow. exists t1. split; [done|]. intros a3 D. apply (builds_mounts f1 a1 t1 f2 a3 B1); [|done|done]. by rewrite Ef in Hlow.
Qed.
End program.

(** C4: what [mkproto] builds is a file system to the kernel.  On a disk of at
    most [FSSIZE] blocks, with an inode for every entry, [makefs] makes an empty
    file system or finds no block left; then doing the entries either leaves
    because of an entry that the tree cannot take (a name that is not known or
    does not fit, a source that is missing, an MBR that is not signed, a file too
    long for an inode, no block left), or writes an image.  If no block from 4096
    on was allocated, the kernel that reads it finds the superblock, a consistent
    bitmap, and every file and directory the entries ask for: type, owner,
    permissions, one link, exactly its bytes, no block in two of them. *)
Theorem mkproto_image host opt lbl sz logsize inodes fsys last es :
  neuter opt = false -> (length lbl <= 10)%nat -> 0 <= logsize -> nmeta_of sz logsize inodes <= sz <= FSSIZE -> 2 + Z.of_nat (length es) <= inodes ->
  e_active fsys = false -> Forall waiting es -> Forall (fun e => e_type e <> SYNC) es -> waiting last -> e_type last = SYNC ->
  match makefs lbl sz logsize inodes with
  | Ok _ f => outcome1 (runentries host opt (Mk [f] (Some 0%nat) (fsys :: es ++ [last])))
      (fun _ f' => fd f' = false /\ (low_blocks f' -> exists t, grow_all host es root_tree = Some t /\ forall a, disk_is a (img f') -> mounts a (sb f') (t_nodes t)))
      (refused_at host es root_tree)
  | Panic m f => m = full /\ spent f
  | _ => False
  end.
Proof. intros. by apply mkproto_ok. Qed.

(** The kernel reads back what went in.  After a run that ended, for every
    file of the tree the kernel's [readi] on the inode that [ilock] loads from the
    image returns the bytes of the file. *)
Theorem mkproto_read_back host opt lbl sz logsize inodes fsys last es f s u v f' :
  neuter opt = false -> (length lbl <= 10)%nat -> 0 <= logsize -> nmeta_of sz logsize inodes <= sz <= FSSIZE -> 2 + Z.of_nat (length es) <= inodes ->
  e_active fsys = false -> Forall waiting es -> Forall (fun e => e_type e <> SYNC) es -> waiting last -> e_type last = SYNC ->
  makefs lbl sz logsize inodes = Ok u f -> runentries host opt (Mk [f] (Some 0%nat) (fsys :: es ++ [last])) = Ok v s -> fss s = [f'] -> low_blocks f' ->
  exists t, grow_all host es root_tree = Some t /\
  forall a n nd present devsw_read x i slot, disk_is a (img f') -> readable present a 0 -> t_nodes t !! n = Some nd -> nd_type nd <> T_DEV ->
    i_dev slot = 0 -> i_inum slot = n -> icache x !! i = Some (locked_inode a (decode_sb (view a (0, 1))) n slot) ->
    Spec.run present (readi devsw_read i 0 (Z.of_nat (length (nd_bytes nd)))) x a = Ok (Z.of_nat (length (nd_bytes nd)), nd_bytes nd) (x, a).
Proof.
  intros H1 H2 H3 H4 H5 H6 H7 H8 H9 H10 Em Er Ef Hlow. pose proof (mkproto_ok host opt H1 lbl sz logsize inodes fsys last es H2 H3 H4 H5 H6 H7 H8 H9 H10) as H. rewrite Em in H. unfold outcome1 in H. rewrite Er in H.
  destruct H as (f2 & Ef2 & _ & H). rewrite Ef in Ef2. injection Ef2 as <-. destruct (H Hlow) as (t & Et & Hm). exists t. split; [done|].
  intros a n nd present devsw_read x i slot D Hr Hn Ht Hd Hi Hx. specialize (Hm a D). rewrite (mt_sb _ _ _ Hm) in Hx. by apply (mounts_read present devsw_read a (sb f') (t_nodes t) n nd x i slot).
Qed.

(** ** Example *)

Module MkSample.
Definition host (n : list Z) : option (list (list Z)) := if streq n [95; 97] then Some [replicate 512 7; replicate 10 8] else None.
Definition opt : options := Options false None None false 0.
Definition lbl : list Z := [86; 83; 68].
Definition bin : list Z := [98; 105; 110].
Definition entry (t : etype) (name home source : list Z) (owner perms : Z) : Entry := MkEntry t true (Some 0%nat) name home source 0 owner perms.
Definition fsys : Entry := deactivate (entry FSYS lbl [] [] 0 0).
Definition last : Entry := entry SYNC [] [] [] 0 0.
(** A directory, a file in it, and the brand of the kernel. *)
Definition es : list Entry := [entry DIRECT bin [47] [] (-1) 0x55; entry EFILE [97] bin [95; 97] 3 0x15; entry KERNEL [97] [] [] 0 0].
Definition text : list Z := replicate 512 7 ++ replicate 10 8.

Lemma runs : match makefs lbl 200 30 20 with
  | Ok _ f => match runentries host opt (Mk [f] (Some 0%nat) (fsys :: es ++ [last])) with
              | Ok _ s => match fss s with [f'] => (length (bmap f') =? 512)%nat && (kerninode (sb f') =? 3) | _ => false end
              | _ => false end
  | _ => false end = true.
Proof. vm_compute. reflexivity. Qed.
Lemma waiting_es : Forall waiting es.
Proof. repeat constructor. Qed.
Lemma nosync_es : Forall (fun e => e_type e <> SYNC) es.
Proof. by repeat constructor. Qed.
Lemma file_tree : (fun t => t_nodes t !! 3) <$> grow_all host es root_tree = Some (Some (Node T_FILE 3 0x15 text)).
Proof. vm_compute. reflexivity. Qed.
Lemma room : nmeta_of 200 30 20 <= 200 <= FSSIZE.
Proof. done. Qed.

Lemma mkproto_image_witness : exists f s f', makefs lbl 200 30 20 = Ok tt f /\ runentries host opt (Mk [f] (Some 0%nat) (fsys :: es ++ [last])) = Ok tt s /\ fss s = [f'] /\
  exists t, grow_all host es root_tree = Some t /\ forall a, disk_is a (img f') -> mounts a (sb f') (t_nodes t).
Proof.
  pose proof (mkproto_image host opt lbl 200 30 20 fsys last es eq_refl ltac:(cbn; lia) ltac:(lia) room ltac:(cbn; lia) eq_refl waiting_es nosync_es (conj eq_refl eq_refl) eq_refl) as H.
  pose proof runs as R. destruct (makefs lbl 200 30 20) as [[] f|m f|f|f]; try done. unfold outcome1 in H. destruct (runentries host opt _) as [[] s|m s|s|s] eqn:Er; try done.
  destruct H as (f' & E & _ & H). rewrite E in R. apply andb_true_iff in R as [Hl%Nat.eqb_eq _]. exists f, s, f'. split_and!; try done. apply H. intros i c Hi Hc. apply lookup_lt_Some in Hc. unfold BSIZE in Hi. lia.
Defined.

Definition slot0 : inode := base 3.
Definition image_disk (m : gmap Z block) : astate := {| amedia := kmap (pair 0) m; pin := ∅; abudget := None |}.
Lemma disk_image m : disk_is (image_disk m) m.
Proof. intros b. unfold view, on_media. cbn [image_disk pin amedia]. rewrite lookup_empty. by rewrite (lookup_kmap (pair 0)). Qed.
Lemma disk_readable m : readable Concrete.only0 (image_disk m) 0.
Proof. split; [intros h v; cbn [image_disk pin]; by rewrite lookup_empty|vm_compute; lia|done]. Qed.
Definition cached (a : astate) : kfs := {| disks := []; icache := [locked_inode a (decode_sb (view a (0, 1))) 3 slot0]; rootdir := None; havesysfs := true |}.

Lemma mkproto_read_back_witness : exists f', let a := image_disk (img f') in
  Spec.run Concrete.only0 (readi (fun _ => None) 0 0 522) (cached a) a = Ok (522, text) (cached a, a).
Proof.
  pose proof runs as R. destruct (makefs lbl 200 30 20) as [[] f|m f|f|f] eqn:Em; [|discriminate R..]. destruct (runentries host opt _) as [[] s|m s|s|s] eqn:Er; [|discriminate R..].
  destruct (fss s) as [|f' [|]] eqn:Es; [discriminate R| |discriminate R]. apply andb_true_iff in R as [Hl%Nat.eqb_eq _]. exists f'. cbv zeta.
  destruct (mkproto_read_back host opt lbl 200 30 20 fsys last es f s tt tt f' eq_refl ltac:(cbn; lia) ltac:(lia) room ltac:(cbn; lia) eq_refl waiting_es nosync_es (conj eq_refl eq_refl) eq_refl Em Er Es) as (t & Et & H).
  { intros i c Hi Hc. apply lookup_lt_Some in Hc. unfold BSIZE in Hi. lia. }
  pose proof file_tree as T. rewrite Et in T. injection T as T. apply (H (image_disk (img f')) 3 _ Concrete.only0 (fun _ => None) (cached (image_disk (img f'))) 0%nat slot0 (disk_image _) (disk_readable _) T); done.
Defined.
End MkSample.
