(* ===== verification/Dispatch.v ===== *)
(** System calls and traps: the calls that only forward, error strings
    ([proc.c]), [chroot] ([syschroot.c]), growing a process, the dispatch table
    ([syscall.c]) and the trap handler ([trap.c]).

    Most calls work on the kernel's tables; [exec] and [sbrk] work on page tables
    too, so the dispatcher runs on the pair of memories of Exec.v.  A call
    returns its value and what it stores in the caller's memory.  [ticks] is the
    clock while the call runs; messages on the console are left out. *)

From Stdlib Require Import Ascii.
From S2P Require Import Prelude Params CString Bio Disk Log Fs FsOps Kernel File Proc Syscall Alloc Vm Exec.
Import BlockIO.

(** ** Error strings *)

Definition ERRMAX : Z := 256.
Definition bytes_of (s : string) : list Z := (fun c => Z.of_N (N_of_ascii c)) <$> String.list_ascii_of_string s.
Definition string_of (bs : list Z) : string := String.string_of_list_ascii ((fun b => ascii_of_N (Z.to_N b)) <$> bs).

(** The texts of [errstr.h] by the names of their macros. *)
Definition errstrings : list (string * string) :=
  [("EAIJU", "no.");
   ("EDBADCMD", "bad driver command");
   ("EDFUCKYOU", "fuck you.");
   ("EDNOREAD", "could not read from device");
   ("EDNOTEXIST", "the requested device does not exist");
   ("EDNOWRITE", "could not write to device");
   ("EDSTARTFAIL", "could not start driver");
   ("EDTOOLONG", "nbytes+boff > BSIZE");
   ("EIBADTYPE", "file is the wrong type");
   ("EIBOFFSET", "read offset is out of bounds");
   ("EICANTFIND", "cannot find file");
   ("EICANTOPEN", "cannot open file");
   ("EIDIFFDEV", "can not link across devices");
   ("EIDIRFULL", "directory not empty");
   ("EIDKMAN", "general error");
   ("EIEOF", "end of file");
   ("EIEXIST", "file exists");
   ("EIFSALLOC", "cannot allocate file");
   ("EIFSFULL", "filesystem full: bitmap full");
   ("EIFSNOINODE", "filesystem full: could not alloc inode");
   ("EIFUNKNOWN", "fd type is unknown");
   ("EILNDIR", "cannot make links of directories");
   ("EINOCREATE", "cannot create file");
   ("EINODOTS", "unable to create links . and ..");
   ("EINOLINK", "cannot link file");
   ("EINOPARENT", "target inode has no parent");
   ("EINOTOPEN", "the file is not open");
   ("EINOUNLINK", "cannot unlink file");
   ("EISHORTWRITE", "a short write to file occured");
   ("EIUNREAD", "file is unreadable");
   ("EIUNWRITE", "file is unwriteable");
   ("EKBADARG", "unknown arguments given to system call");
   ("EKBADSYSCALL", "system call does not exist or is not implemented");
   ("EKBADUVMALLOC", "allocuvm failed");
   ("EKBADUVMLOAD", "loaduvm failed");
   ("EKDISABLED", "system call is disabled");
   ("EKKVMFAIL", "setupkvm() failed");
   ("EKNOMEM", "system is out of memory");
   ("EMVEETY", "what?");
   ("EP2MANYT", "parent has maximum number of child threads");
   ("EPBADHEADERREAD", "bad header read");
   ("EPBADMAGIC", "not an executable");
   ("EPCANTFIND", "cannot find file");
   ("EPCANTOPEN", "cannot open file");
   ("EPCANTREAD", "short read");
   ("EPCLONENP", "no free processes");
   ("EPEXECFAIL", "exec failed");
   ("EPFILETOOBIG", "elf memsz < filesz");
   ("EPFORKNP", "no free processes");
   ("EPFORKNS", "could not copy parent state");
   ("EPNOARGV", "no known arguments");
   ("EPNOTHREADS", "threading is disabled");
   ("EPTHREADEXEC", "threads are unable to exec");
   ("EPTOOMANYARGS", "argv is more than MAXARG");
   ("EPWAITNOCH", "no children's deaths to mourn");
   ("EROBPIKE", "object oriented design is the roman numerals of computing");
   ("ES2001", "I'm sorry Dave");
   ("ESBADAUTH", "syntax error in password");
   ("ESBADPASS", "password does not exist");
   ("ESBADSYSCALL", "not enough permissions to run syscall");
   ("ESBADUSER", "user does not exist");
   ("ESCANTOPEN", "not owner or allowed");
   ("ESCBADARGS", "Missing or malformed syscall arguments");
   ("ESNOFREEUSER", "no free slots in users table");
   ("ESNOPERMS", "not allowed");
   ("ESNOTOWN", "not owner of the file");
   ("ESNOUSER", "user does not exist");
   ("ESUNAMEGIRTH", "given username is too girthy");
   ("ESUNAMETOOLONG", "given username is too long");
   ("ESUNAMETOOSHORT", "given username is too short")].
(** What a process wrote itself is marked, so that it is not taken for a macro. *)
Definition user_mark : string := "user:".
Definition err_text (m : string) : list Z :=
  if String.prefix user_mark m then drop (String.length user_mark) (bytes_of m)
  else bytes_of (default "" (snd <$> (snd <$> scan (fun e => bool_decide (fst e = m)) errstrings)))%string.
(** The array [errstr]. *)
Definition errstr (p : proc) : list Z := match err p with Some m => take 256 (err_text m ++ replicate 256 0) | None => replicate 256 0 end.

(** [werrstr] of bytes of the caller; a negative count is a huge one to
    [memmove]. *)
Definition werrstr (buf : list Z) (nbytes : Z) : K Z :=
  let nbytes := if ERRMAX <=? nbytes then ERRMAX - 1 else nbytes in
  if nbytes <? 0 then fail "memmove" else
  c ← curproc;
  upd_proc c (set_err (Some (user_mark ++ string_of (take (Z.to_nat nbytes) buf))%string)) ;;
  mret nbytes.

Section calls.
Context (devsw_read : Z -> option (nat -> Z -> Z -> prog kfs (Z * list Z))).
Context (devsw_write : Z -> option (nat -> list Z -> Z -> Z -> prog kfs Z)).
Context (umem : Z -> Z).
Context (kend kdata : Z).
Context (ticks : Z).
Context (beyond : nat -> Z).   (* what follows the name in [struct proc] *)

(** The bytes from [errstr] on: the flag, the name, and what follows. *)
Definition errstr_on (p : proc) (n : nat) : list Z :=
  take n (errstr p ++ [Z.b2z (errset p)] ++ take 128 (name p ++ replicate 128 0) ++ (beyond <$> seq 0 n)).
(** The bytes for the caller's buffer. *)
Definition rerrstr (nbytes : Z) : K (Z * list Z) :=
  c ← curproc; p ← proc_at c;
  if nbytes =? 0 then mret (if errset p then 1 else 0, []) else
  if nbytes <? 0 then fail "memset" else
  upd_proc c (set_errset false) ;;
  mret (0, errstr_on p (Z.to_nat (nbytes - 1)) ++ [0]).

(** [buf] is not set when [nbytes] is not positive. *)
Definition sys_errstr : K sysret :=
  direc ← argint umem 0;
  match direc with None => mret (-1, []) | Some direc =>
  n ← argint umem 2;
  match n with None => mret (-1, []) | Some nbytes =>
  buf ← (if 0 <? nbytes then argptr umem 1 nbytes else mret (Some 0));
  match buf with None => mret (-1, []) | Some buf =>
  if direc =? 0 then '(r, bs) ← rerrstr nbytes; mret (r, match bs with [] => [] | _ => [(buf, bs)] end)
  else if direc =? 1 then r ← werrstr (ubytes umem buf nbytes) nbytes; mret (r, [])
  else mret (-1, [])
  end end end.

(** ** [chroot] *)

(** [safestrcpy(proc->rdirpath, pathbf, 128)], of a path with a slash at its end. *)
Definition jail_path (path : list Z) : list Z :=
  take 127 (if last path 0 =? 47 then path else path ++ [47]).

Definition chroot (path : list Z) : K Z :=
  c ← curproc; p ← proc_at c;
  if injail p then mret (-1) else
  if negb (uid p =? -1) then mret (-1) else
  if negb (hd 0 path =? 47) then mret (-1) else
  o ← knamei_direct devsw_read path;
  match o with
  | None => mret (-1)
  | Some rp =>
    v ← inode_at rp;
    root ← on_fs (kget rootdir);
    match root with None => fail "nil rootdir" | Some root =>
    rv ← inode_at root;
    if i_inum v =? i_inum rv then upd_proc c (set_p_root None) ;; mret 0 else
    start_op rp ;;
    on_fs (ilock (Some rp)) ;;
    if 122 <=? Z.of_nat (length path) + 1 then on_fs (iunlockput (Some rp)) ;; finish_op rp ;; mret (-1) else
    v ← inode_at rp;
    if negb (i_type v =? T_DIR) then on_fs (iunlockput (Some rp)) ;; finish_op rp ;; mret (-1) else
    upd_proc c (set_rdirpath (jail_path path)) ;;
    (match p_root p with Some r => on_fs (iput (Some r)) | None => mret tt end) ;;
    r ← on_fs (idup (Some rp));
    upd_proc c (fun p => set_injail true (set_cwd r (set_p_root r p))) ;;
    finish_op rp ;;
    mret 0
    end
  end.
Definition sys_chroot : K Z := o ← argstr umem 0; match o with None => mret (-1) | Some path => chroot path end.

(** ** Processes *)

(** [tfork] is disabled. *)
Definition tfork : K Z := seterr "EKDISABLED" ;; mret (-1).

Definition sys_fork : K Z := fork.
(** Not come back from. *)
Definition sys_exit : K Z := exit ;; sleep.
Definition sys_wait : K Z := wait.
Definition sys_getpid : K Z := p ← this; mret (pid p).
Definition sys_uptime : K Z := mret (s32 ticks).
Definition sys_disallow : K Z := disallow.
Definition sys_getuid : K Z := p ← this; mret (uid p).
Definition sys_getsid : K Z := p ← this; mret (sid p).
Definition sys_getts : K Z := b ← kget singleuser; mret (Z.b2z b).
Definition sys_tfork : K Z := tfork.
Definition sys_recvwait : K Z := precvwait.
Definition sys_fssync : K Z := mret 0.

(** The channel [&ticks]. *)
Definition ch_ticks : channel := ChOther 0.
(** The condition of the loop, an [uint] comparison, and one pass of it. *)
Definition sleep_pass (ticks0 n : Z) : K Z :=
  if u32 (ticks - ticks0) <? u32 n then
    p ← this;
    if killed p then mret (-1) else ksleep ch_ticks
  else mret 0.
Definition sys_sleep : K Z :=
  o ← argint umem 0;
  match o with
  | None => mret (-1)
  | Some n => if n =? 0 then yield ;; p ← this; mret (if killed p then -1 else 0) else sleep_pass ticks (if 0 <? n then s32 (n * 100) else 5)
  end.

(** Growing the process; the size of its threads follows.  The loop follows
    every entry of the list of threads, empty ones too. *)
Definition thread_size (c : nat) (newsz : Z) (t : nat) : K unit :=
  p ← proc_at c;
  match threads p !! t with
  | Some (Some j) => q ← proc_at j; if negb (is_unused q) then upd_proc j (set_sz newsz) else mret tt
  | _ => fail "nil thread"
  end.
Definition pgdir_addr (p : proc) : Z := match pgdir p with Some d => Z.of_nat d | None => 0 end.
Definition growproc (n : Z) : prog xmem Z :=
  c ← on_k curproc; p ← on_k (proc_at c);
  newsz ← (if 0 <? n then on_vm (allocuvm kend (pgdir_addr p) (sz p) (u32 (sz p + n)))
           else if n <? 0 then on_vm (deallocuvm kend (pgdir_addr p) (sz p) (u32 (sz p + n)))
           else mret (sz p));
  if negb (n =? 0) && (newsz =? 0) then mret (-1) else
  on_k (upd_proc c (set_sz newsz)) ;;
  (if 0 <? threadi p then on_k (pfor (seq 0 THREADMAX) (thread_size c newsz)) else mret tt) ;;
  mret 0.
Definition sys_sbrk : prog xmem Z :=
  o ← on_k (argint umem 0);
  match o with
  | None => mret (-1)
  | Some n => p ← on_k this; r ← growproc n; mret (if r <? 0 then -1 else s32 (sz p))
  end.

(** ** The dispatch table *)

Definition plain (c : K Z) : prog xmem sysret := on_k (v ← c; mret (v, [])).
(** The fields of [struct stat] that [stati] stores. *)
Definition stat_writes (a : Z) (st : stat) : list (Z * list Z) :=
  [(a, le_bytes 2 (st_type st)); (a + 4, le_bytes 4 (st_dev st)); (a + 8, le_bytes 4 (st_ino st)); (a + 12, le_bytes 2 (st_nlink st));
   (a + 16, le_bytes 4 (st_size st)); (a + 20, le_bytes 2 (st_owner st)); (a + 22, le_bytes 1 (st_perms st))].

Definition syscalls (num : Z) : option (prog xmem sysret) :=
  match num with
  | 1 => Some (plain sys_fork)
  | 2 => Some (plain sys_exit)
  | 3 => Some (plain sys_wait)
  | 4 => Some (on_k (sys_pipe umem))
  | 5 => Some (on_k (sys_read devsw_read umem))
  | 6 => Some (plain (sys_kill umem))
  | 7 => Some (v ← sys_exec devsw_read kend kdata umem; mret (v, []))
  | 8 => Some (on_k ('(v, w) ← sys_fstat umem; mret (v, match w with Some (a, st) => stat_writes a st | None => [] end)))
  | 9 => Some (plain (sys_chdir devsw_read umem))
  | 10 => Some (plain (sys_dup umem))
  | 11 => Some (plain sys_getpid)
  | 12 => Some (v ← sys_sbrk; mret (v, []))
  | 13 => Some (plain sys_sleep)
  | 14 => Some (plain sys_uptime)
  | 15 => Some (plain (sys_open devsw_read devsw_write umem))
  | 16 => Some (plain (sys_write devsw_write umem))
  | 17 => Some (plain (sys_mknod devsw_read devsw_write umem))
  | 18 => Some (plain (sys_unlink devsw_read devsw_write umem))
  | 19 => Some (plain (sys_link devsw_read devsw_write umem))
  | 20 => Some (plain (sys_mkdir devsw_read devsw_write umem))
  | 21 => Some (plain (sys_close umem))
  | 22 => Some (plain (sys_chuser umem))
  | 23 => Some (plain (sys_chsystem umem))
  | 24 => Some (plain sys_disallow)
  | 25 => Some (plain sys_getuid)
  | 26 => Some (plain sys_getsid)
  | 27 => Some (plain sys_getts)
  | 28 => Some (plain sys_chroot)
  | 29 => Some (on_k sys_errstr)
  | 30 => Some (plain (sys_chperms devsw_read umem))
  | 31 => Some (plain (sys_seek umem))
  | 32 => Some (plain sys_tfork)
  | 33 => Some (plain (sys_clone umem))
  | 34 => Some (plain (sys_sendmsg umem))
  | 35 => Some (on_k (sys_recvmsg umem))
  | 36 => Some (plain sys_recvwait)
  | 37 => Some (plain sys_fssync)
  | _ => None
  end.

Definition set_eax (v : Z) (p : proc) : proc := set_tf {| tf_eax := u32 v; tf_esp := tf_esp (tf p); tf_eip := tf_eip (tf p) |} p.
Definition syscall : prog xmem (list (Z * list Z)) :=
  p ← on_k this;
  match syscalls (s32 (tf_eax (tf p))) with
  | Some call => '(v, w) ← call; c ← on_k curproc; on_k (upd_proc c (set_eax v)) ;; mret w
  | None => c ← on_k curproc; on_k (upd_proc c (set_eax (-1))) ;; mret []
  end.

(** ** Traps *)

Definition T_SYSCALL : Z := 64.
Definition T_IRQ0 : Z := 32.
Definition IRQ_TIMER : Z := 0.
(** Interrupts of devices: they change the drivers' state only. *)
Definition device_irq (trapno : Z) : bool :=
  bool_decide (trapno ∈ [T_IRQ0 + 14; T_IRQ0 + 15; T_IRQ0 + 1; T_IRQ0 + 4; T_IRQ0 + 3; T_IRQ0 + 7; T_IRQ0 + 31]).

(** [if(proc && P) exit()] *)
Definition exit_if (P : proc -> bool) : K unit :=
  o ← kget cur;
  match o with
  | None => mret tt
  | Some c => p ← proc_at c; if P p then exit ;; sleep else mret tt
  end.

(** [user]: the trap came from user mode; [cpu0]: on the processor that keeps
    the clock. *)
Definition trap (trapno : Z) (user cpu0 : bool) : prog xmem (list (Z * list Z)) :=
  if trapno =? T_SYSCALL then
    on_k (exit_if killed) ;;
    w ← syscall;
    on_k (exit_if killed) ;;
    mret w
  else
    on_k
      ((if trapno =? T_IRQ0 + IRQ_TIMER then (if cpu0 then wakeup ch_ticks else mret tt)
        else if device_irq trapno then mret tt
        else
          o ← kget cur;
          match o with
          | None => fail "trap"
          | Some c => if negb user then fail "trap" else upd_proc c (fun p => set_crashed true (set_killed true p))
          end) ;;
       exit_if (fun p => killed p && user) ;;
       exit_if (fun p => killed p && bool_decide (state p = MSGWAIT)) ;;
       o ← kget cur;
       (match o with
        | None => mret tt
        | Some c => p ← proc_at c; if bool_decide (state p = RUNNING) && (trapno =? T_IRQ0 + IRQ_TIMER) then yield else mret tt
        end) ;;
       exit_if (fun p => killed p && user)) ;;
    mret [].
End calls.
