(* ===== verification/Steady.v ===== *)
(** Predicates that system calls keep, whatever they are: a predicate on the users,
    states and descriptors of processes that allows a few kinds of updates
    ([Steady]) holds after every call but the ones that make, end or change
    processes. *)

From S2P Require Import Prelude Params CString Bio Disk Log Fs FsOps Kernel File Proc Wp Syscall SyscallFacts Alloc Vm Exec Dispatch.
Import BlockIO.

Create HintDb stays.

(** A slot without a process. *)
Definition dead (p : proc) : bool := match state p with UNUSED | ZOMBIE | CRASHED => true | _ => false end.

(** ** Predicates that routines keep *)

(** Updates of any process, and of the running one. *)
Definition mild (g : proc -> proc) : Prop := forall p, uid (g p) = uid p /\ sid (g p) = sid p /\ ofile (g p) = ofile p /\ state (g p) = state p.
Definition gentle (g : proc -> proc) : Prop := forall p, uid (g p) = uid p /\ sid (g p) = sid p /\ length (ofile (g p)) = length (ofile p) /\ (dead (g p) = true -> dead p = true).

(** A predicate that depends on the running process [c0], on the users, states
    and descriptors of processes and on the counts and types of files, and allows
    the updates; those of descriptors and of counts only when [W]. *)
Class Steady (c0 : nat) (W : Prop) (P : kmem -> Prop) : Prop := {
  sd_cur k : P k -> cur k = Some c0;
  sd_fs x k : P k -> P (set_fs x k);
  sd_ftab v k : W -> P k -> P (set_ftab v k);
  sd_file i g k : (forall f, f_ref (g f) = f_ref f /\ f_type (g f) = f_type f) -> P k -> P (set_ftab (alter g i (ftab k)) k);
  sd_pipes v k : P k -> P (set_pipes v k);
  sd_msgs v k : P k -> P (set_msgs v k);
  sd_fresh v k : P k -> P (set_fresh v k);
  sd_oracle v k : P k -> P (set_oracle v k);
  sd_nextpid v k : P k -> P (set_nextpid v k);
  sd_wake c k : P k -> P (set_procs (wake c <$> procs k) k);
  sd_mild i g k : mild g -> P k -> P (set_procs (alter g i (procs k)) k);
  sd_gentle g k : gentle g -> (forall p, ofile (g p) = ofile p) \/ W -> P k -> P (set_procs (alter g c0 (procs k)) k);
  sd_rouse i p k : procs k !! i = Some p -> state p = SLEEPING \/ state p = MSGWAIT -> P k -> P (set_procs (alter (set_state RUNNABLE) i (procs k)) k)
}.

Section stays.
Context (present : Z -> bool) (c0 : nat) (W : Prop) (P R : kmem -> Prop) `{ST : !Steady c0 W P} (HPR : forall k, P k -> R k).

Definition stays {A} (p : K A) : Prop := forall k, P k -> wp present p (fun _ => P) R k.

Lemma stays_ret {A} (x : A) : stays (mret x).
Proof. intros k Hk. by apply wp_ret. Qed.
Lemma stays_bind {A B} (p : K A) (f : A -> K B) : stays p -> (forall x, stays (f x)) -> stays (p ≫= f).
Proof. intros Hp Hf k Hk. apply wp_bind. eapply wp_mono; [by apply Hp| |done]. intros x k' Hk'. by apply Hf. Qed.
Lemma stays_fail {A} m : stays (fail m : K A).
Proof. intros k _. apply wp_fail. Qed.
Lemma stays_sleep {A} : stays (sleep : K A).
Proof. intros k Hk. apply wp_sleep. auto. Qed.
Lemma stays_kget {A} (g : kmem -> A) : stays (kget g).
Proof. intros k Hk. by apply wp_kget. Qed.
Lemma stays_kset g : (forall k, P k -> P (g k)) -> stays (kset g).
Proof. intros H k Hk. apply wp_kset. auto. Qed.
Lemma stays_on_fs {A} (p : prog kfs A) : stays (on_fs p).
Proof. intros k Hk. apply wp_on_fs; intros; [|apply HPR]; by apply sd_fs. Qed.
Lemma stays_file_at i : stays (file_at i).
Proof. intros k Hk. by apply wp_file_at. Qed.
Lemma stays_proc_at i : stays (proc_at i).
Proof. intros k Hk. by apply wp_proc_at. Qed.
Lemma stays_pipe_at i : stays (pipe_at i).
Proof. apply stays_bind; [apply stays_kget|]. intros [p|]; [apply stays_ret|apply stays_fail]. Qed.
Lemma stays_msg_at i : stays (msg_at i).
Proof. apply stays_bind; [apply stays_kget|]. intros [p|]; [apply stays_ret|apply stays_fail]. Qed.
(** The running process is [c0]. *)
Lemma stays_curproc {A} (f : nat -> K A) : stays (f c0) -> stays (curproc ≫= f).
Proof. intros H k Hk. apply wp_bind, wp_curproc. intros i Hi. rewrite (sd_cur k Hk) in Hi. injection Hi as <-. by apply H. Qed.
Lemma stays_upd_proc i g : mild g -> stays (upd_proc i g).
Proof. intros H. apply stays_kset. intros k. by apply sd_mild. Qed.
Lemma stays_upd_cur g : gentle g -> (forall p, ofile (g p) = ofile p) -> stays (upd_proc c0 g).
Proof. intros H Ho. apply stays_kset. intros k. apply sd_gentle; [done|by left]. Qed.
Lemma stays_upd_fds g : W -> gentle g -> stays (upd_proc c0 g).
Proof. intros HW H. apply stays_kset. intros k. apply sd_gentle; [done|by right]. Qed.
Lemma stays_upd_file i g : (forall f, f_ref (g f) = f_ref f /\ f_type (g f) = f_type f) -> stays (upd_file i g).
Proof. intros H. apply stays_kset. intros k. by apply sd_file. Qed.
Lemma stays_upd_ref i g : W -> stays (upd_file i g).
Proof. intros HW. apply stays_kset. intros k. by apply sd_ftab. Qed.
Lemma stays_set_pipe i p : stays (set_pipe i p).
Proof. apply stays_kset. intros k. apply sd_pipes. Qed.
Lemma stays_set_msg i m : stays (set_msg i m).
Proof. apply stays_kset. intros k. apply sd_msgs. Qed.
Lemma stays_wakeup c : stays (wakeup c).
Proof. apply stays_kset. intros k. apply sd_wake. Qed.
Lemma stays_kscan {A} (tbl : kmem -> list A) f : stays (kscan tbl f).
Proof. apply stays_kget. Qed.
Lemma stays_seterr m : stays (seterr m).
Proof. by apply stays_curproc, stays_upd_cur; intros p. Qed.
Lemma stays_ksleep {A} c : stays (ksleep c : K A).
Proof. apply stays_curproc, stays_bind; [by apply stays_upd_cur; intros p|]. intros _. apply stays_sleep. Qed.
Lemma stays_alloc : stays alloc.
Proof.
  apply stays_bind; [apply stays_kget|]. intros [|b o]; [apply stays_ret|]. apply stays_bind; [|intros; apply stays_ret]. apply stays_kset. intros k.
  apply sd_oracle.
Qed.
Lemma stays_new_addr : stays new_addr.
Proof. apply stays_bind; [apply stays_kget|]. intros n. apply stays_bind; [|intros; apply stays_ret]. apply stays_kset. intros k. apply sd_fresh. Qed.
Lemma stays_pfor {A} (l : list A) f : (forall x, stays (f x)) -> stays (pfor l f).
Proof. intros H. induction l as [|x l IH]; cbn [pfor]; [apply stays_ret|]. by apply stays_bind. Qed.
End stays.

#[export] Hint Resolve stays_ret stays_fail stays_sleep stays_kget stays_on_fs stays_file_at stays_proc_at stays_pipe_at stays_msg_at
  stays_set_pipe stays_set_msg stays_wakeup stays_kscan stays_seterr stays_ksleep stays_alloc stays_new_addr : stays.
#[export] Hint Extern 2 (stays _ _ _ (upd_proc _ _)) => first [eapply stays_upd_cur; [eassumption|by intros ?|by intros ?]|eapply stays_upd_proc; [eassumption|by intros ?]] : stays.
#[export] Hint Extern 2 (stays _ _ _ (upd_file _ _)) => first [eapply stays_upd_file; [eassumption|by intros ?]|eapply stays_upd_ref; [eassumption|eassumption]] : stays.
#[export] Hint Extern 2 (stays _ _ _ (kset _)) => apply stays_kset; intros; first [by apply sd_pipes|by apply sd_msgs|by apply sd_nextpid] : stays.

(** Decompose a routine into its steps. *)
Ltac stays_step :=
  first
    [ solve [eauto 3 with stays]
    | eapply stays_curproc; [eassumption|]
    | apply stays_bind; [|intros ?]
    | eapply stays_pfor; intros ?
    | match goal with
      | |- stays _ _ _ (if ?b then _ else _) => destruct b
      | |- stays _ _ _ (match ?x with _ => _ end) => destruct x
      end ].
Ltac stays := repeat stays_step.

Section traverse.
Context (present : Z -> bool) (c0 : nat) (W : Prop) (P R : kmem -> Prop) (ST : Steady c0 W P) (HW : W) (HPR : forall k, P k -> R k).
Context (devsw_read : Z -> option (nat -> Z -> Z -> prog kfs (Z * list Z))).
Context (devsw_write : Z -> option (nat -> list Z -> Z -> Z -> prog kfs Z)).
Context (umem : Z -> Z).
Abbreviation stays' := (stays present P R).

Lemma st_pipeclose p w : stays' (pipeclose p w).
Proof. unfold pipeclose. stays. Qed.
Lemma st_inode_at i : stays' (inode_at i).
Proof. unfold inode_at. stays. Qed.
#[local] Hint Resolve st_pipeclose st_inode_at : stays.
Lemma st_dev_of i : stays' (dev_of i).
Proof. unfold dev_of. stays. Qed.
Lemma st_checkinodeperm i op : stays' (checkinodeperm i op).
Proof. unfold checkinodeperm. stays. Qed.
#[local] Hint Resolve st_dev_of st_checkinodeperm : stays.
Lemma st_checkfileperm i op : stays' (checkfileperm i op).
Proof. unfold checkfileperm. stays. Qed.
Lemma st_pipewrite_loop p src : stays' (pipewrite_loop p src).
Proof. induction src as [|c src IH]; cbn [pipewrite_loop]; stays. Qed.
#[local] Hint Resolve st_checkfileperm st_pipewrite_loop : stays.
Lemma st_pipewrite p src n : stays' (pipewrite p src n).
Proof. unfold pipewrite. stays. Qed.
Lemma st_piperead p n : stays' (piperead p n).
Proof. unfold piperead. stays. Qed.
Lemma st_filealloc : stays' filealloc.
Proof. unfold filealloc. stays. Qed.
Lemma st_filedup i : stays' (filedup i).
Proof. unfold filedup. stays. Qed.
Lemma st_fileclose i : stays' (fileclose i).
Proof. unfold fileclose. stays. Qed.
#[local] Hint Resolve st_pipewrite st_piperead st_filealloc st_filedup st_fileclose : stays.
Lemma st_pipealloc : stays' pipealloc.
Proof. unfold pipealloc. stays. Qed.
Lemma st_fileread i n : stays' (fileread devsw_read i n).
Proof. unfold fileread. stays. Qed.
Lemma st_filestat i : stays' (filestat i).
Proof. unfold filestat. stays. Qed.
Lemma st_fileseek i n d : stays' (fileseek i n d).
Proof. unfold fileseek. stays. Qed.
Lemma st_filewrite_loop fuel fi ip src i n : stays' (filewrite_loop devsw_write fuel fi ip src i n).
Proof. revert i. induction fuel as [|fuel IH]; intros i; cbn [filewrite_loop]; stays. Qed.
#[local] Hint Resolve st_pipealloc st_fileread st_filestat st_fileseek st_filewrite_loop : stays.
Lemma st_filewrite i src n : stays' (filewrite devsw_write i src n).
Proof. unfold filewrite. stays. Qed.
Lemma st_this : stays' this.
Proof. unfold this. stays. Qed.
#[local] Hint Resolve st_filewrite st_this : stays.
Lemma st_fetchint addr : stays' (fetchint umem addr).
Proof. unfold fetchint. stays. Qed.
Lemma st_fetchstr addr : stays' (fetchstr umem addr).
Proof. unfold fetchstr. stays. Qed.
#[local] Hint Resolve st_fetchint st_fetchstr : stays.
Lemma st_argint n : stays' (argint umem n).
Proof. unfold argint. stays. Qed.
#[local] Hint Resolve st_argint : stays.
Lemma st_argptr n size : stays' (argptr umem n size).
Proof. unfold argptr. stays. Qed.
Lemma st_argstr n : stays' (argstr umem n).
Proof. unfold argstr. stays. Qed.
Lemma st_argfd n : stays' (argfd umem n).
Proof. unfold argfd. stays. Qed.
Lemma st_fdalloc f : stays' (fdalloc f).
Proof. unfold fdalloc. stays. eapply stays_upd_fds; [eassumption..|]. intros q. cbn. by rewrite length_insert. Qed.
Lemma st_here : stays' here.
Proof. unfold here. stays. Qed.
#[local] Hint Resolve st_argptr st_argstr st_argfd st_fdalloc st_here : stays.
Lemma st_knamei_direct path : stays' (knamei_direct devsw_read path).
Proof. unfold knamei_direct. stays. Qed.
Lemma st_knameiparent path : stays' (knameiparent devsw_read path).
Proof. unfold knameiparent. stays. Qed.
Lemma st_knameiparent_direct path : stays' (knameiparent_direct devsw_read path).
Proof. unfold knameiparent_direct. stays. Qed.
Lemma st_start_op i : stays' (start_op i).
Proof. unfold start_op. stays. Qed.
Lemma st_finish_op i : stays' (finish_op i).
Proof. unfold finish_op. stays. Qed.
Lemma st_relink i n : stays' (relink i n).
Proof. unfold relink. stays. Qed.
#[local] Hint Resolve st_knamei_direct st_knameiparent st_knameiparent_direct st_start_op st_finish_op st_relink : stays.
Lemma st_link_bad i : stays' (link_bad i).
Proof. unfold link_bad. stays. Qed.
Lemma st_unlink_bad i : stays' (unlink_bad i).
Proof. unfold unlink_bad. stays. Qed.
#[local] Hint Resolve st_link_bad st_unlink_bad : stays.
Lemma st_create path ty ma mi b : stays' (create devsw_read devsw_write path ty ma mi b).
Proof. unfold create. stays. Qed.
#[local] Hint Resolve st_create : stays.
Lemma st_open_inode path m : stays' (open_inode devsw_read devsw_write path m).
Proof. unfold open_inode. stays. Qed.
Lemma st_canread f m : stays' (canread f m).
Proof. unfold canread. stays. Qed.
Lemma st_canwrite f m : stays' (canwrite f m).
Proof. unfold canwrite. stays. Qed.
#[local] Hint Resolve st_open_inode st_canread st_canwrite : stays.

(** The calls on files. *)
Lemma st_sys_dup : stays' (sys_dup umem).
Proof. unfold sys_dup. stays. Qed.
Lemma st_sys_read : stays' (sys_read devsw_read umem).
Proof. unfold sys_read. stays. Qed.
Lemma st_sys_write : stays' (sys_write devsw_write umem).
Proof. unfold sys_write. stays. Qed.
Lemma st_sys_seek : stays' (sys_seek umem).
Proof. unfold sys_seek. stays. Qed.
Lemma st_sys_close : stays' (sys_close umem).
Proof. unfold sys_close. stays. eapply stays_upd_fds; [eassumption..|]. intros q. cbn. by rewrite length_insert. Qed.
Lemma st_sys_fstat : stays' (sys_fstat umem).
Proof. unfold sys_fstat. stays. Qed.
Lemma st_sys_link : stays' (sys_link devsw_read devsw_write umem).
Proof. unfold sys_link. stays. Qed.
Lemma st_sys_unlink : stays' (sys_unlink devsw_read devsw_write umem).
Proof. unfold sys_unlink. stays. Qed.
Lemma st_sys_mkdir : stays' (sys_mkdir devsw_read devsw_write umem).
Proof. unfold sys_mkdir, bad_ip. stays. Qed.
Lemma st_sys_mknod : stays' (sys_mknod devsw_read devsw_write umem).
Proof. unfold sys_mknod, bad_ip. stays. Qed.
Lemma st_sys_chdir : stays' (sys_chdir devsw_read umem).
Proof. unfold sys_chdir, bad_ip. stays. Qed.
Lemma st_sys_chperms : stays' (sys_chperms devsw_read umem).
Proof. unfold sys_chperms. stays. Qed.
Lemma st_close_opt o : stays' (close_opt o).
Proof. unfold close_opt. stays. Qed.
#[local] Hint Resolve st_close_opt : stays.
Lemma st_sys_open : stays' (sys_open devsw_read devsw_write umem).
Proof. unfold sys_open. stays. Qed.
Lemma st_sys_pipe : stays' (sys_pipe umem).
Proof. unfold sys_pipe. stays; (eapply stays_upd_fds; [eassumption..|]; intros q; cbn; by rewrite ?length_insert). Qed.

(** ** The other calls *)

Lemma st_kill target : stays' (kill target).
Proof.
  unfold kill. eapply stays_curproc; [eassumption|]. do 2 (apply stays_bind; [stays|intros ?]). intros k Hk. apply wp_bind. unfold kscan.
  apply wp_kget. destruct (scan _ _) as [[i p]|] eqn:E; [|by apply wp_ret].
  apply scan_Some in E as (Hi & _). apply wp_bind, wp_kset. set (k1 := set_procs (alter (set_killed true) i (procs k)) k).
  assert (P k1) as Hk1 by (apply sd_mild; [by intros ?|done]).
  assert (procs k1 !! i = Some (set_killed true p)) as Hi1 by (cbn; by rewrite list_lookup_alter_eq, Hi).
  apply wp_bind. destruct (bool_decide (state p = SLEEPING) || bool_decide (state p = MSGWAIT)) eqn:Eb; [|by apply wp_ret, wp_ret].
  apply wp_kset, wp_ret. eapply (sd_rouse _ _ _ Hi1); [|done]. by rewrite orb_true_iff, !bool_decide_eq_true in Eb.
Qed.
Lemma st_add_message mb m : stays' (add_message mb m).
Proof. unfold add_message. stays. Qed.
#[local] Hint Resolve st_kill st_add_message : stays.
Lemma st_psendmsg i m : stays' (psendmsg i m).
Proof.
  unfold psendmsg. do 3 (apply stays_bind; [stays|intros ?]). intros k Hk. apply wp_bind, wp_proc_at. intros p Hp. apply wp_bind.
  destruct (bool_decide (state p = MSGWAIT)) eqn:Eb; [|by apply wp_ret, wp_ret].
  apply wp_kset, wp_ret. eapply (sd_rouse _ _ _ Hp); [|done]. right. by apply bool_decide_eq_true in Eb.
Qed.
Lemma st_findpid n : stays' (findpid n).
Proof. unfold findpid. stays. Qed.
Lemma st_msgwait {A} i : i = c0 -> stays' (msgwait i : K A).
Proof. intros ->. unfold msgwait. stays. Qed.
#[local] Hint Resolve st_psendmsg st_findpid st_msgwait : stays.
Lemma st_precvwait : stays' precvwait.
Proof. unfold precvwait. stays. Qed.
Lemma st_precvmsg : stays' precvmsg.
Proof. unfold precvmsg. stays. Qed.
Lemma st_yield : stays' yield.
Proof. unfold yield. stays. Qed.
#[local] Hint Resolve st_precvwait st_precvmsg st_yield : stays.
Lemma st_sys_kill : stays' (sys_kill umem).
Proof. unfold sys_kill. stays. Qed.
Lemma st_sys_sendmsg : stays' (sys_sendmsg umem).
Proof. unfold sys_sendmsg. stays. Qed.
Lemma st_sys_recvmsg : stays' (sys_recvmsg umem).
Proof. unfold sys_recvmsg. stays. Qed.
Lemma st_sys_sleep ticks : stays' (sys_sleep umem ticks).
Proof. unfold sys_sleep, sleep_pass. stays. Qed.
Lemma st_sys_errstr beyond : stays' (sys_errstr umem beyond).
Proof. unfold sys_errstr, rerrstr, werrstr. stays. Qed.
Lemma st_chroot path : stays' (chroot devsw_read path).
Proof. unfold chroot. stays. Qed.
#[local] Hint Resolve st_chroot : stays.
Lemma st_sys_chroot : stays' (sys_chroot devsw_read umem).
Proof. unfold sys_chroot. stays. Qed.
Lemma st_thread_size c n t : stays' (thread_size c n t).
Proof. unfold thread_size. stays. Qed.
Lemma st_fetch_argv n : forall i u, stays' (fetch_argv umem n i u).
Proof. induction n as [|n IH]; intros i u; cbn [fetch_argv]; stays. Qed.
#[local] Hint Resolve st_thread_size st_fetch_argv : stays.

(** ** Calls on page tables *)

Context (kend kdata : Z).

Definition wpx {A} (p : prog xmem A) (Q : A -> xmem -> Prop) (RX : xmem -> Prop) (x : xmem) : Prop :=
  forall a, match Spec.run present p x a with Ok v (x', _) => Q v x' | Blocked (x', _) => RX x' | _ => True end.
Definition staysx {A} (p : prog xmem A) : Prop := forall x, P (xk x) -> wpx p (fun _ x' => P (xk x')) (fun x' => R (xk x')) x.

Lemma wpx_on_k {A} (p : K A) Q RX x : wp present p (fun v k => Q v (XMem k (xp x))) (fun k => RX (XMem k (xp x))) (xk x) -> wpx (on_k p) Q RX x.
Proof.
  intros H a. specialize (H a). unfold on_k. rewrite zoom_run; [|done|done|by intros []].
  destruct (Spec.run present p (xk x) a) as [v [k' a']|m [k' a']|[k' a']|[k' a']]; done.
Qed.
Lemma sx_ret {A} (v : A) : staysx (mret v).
Proof. by intros x Hx a. Qed.
Lemma sx_fail {A} m : staysx (fail m : prog xmem A).
Proof. by intros x Hx a. Qed.
Lemma sx_bind {A B} (p : prog xmem A) (f : A -> prog xmem B) : staysx p -> (forall v, staysx (f v)) -> staysx (p ≫= f).
Proof.
  intros Hp Hf x Hx a. specialize (Hp x Hx a). rewrite Spec.run_bind.
  destruct (Spec.run present p x a) as [v [x' a']|m s|[x' a']|s]; [by apply Hf|done..].
Qed.
Lemma sx_on_k {A} (p : K A) : stays' p -> staysx (on_k p).
Proof. intros Hp x Hx. apply wpx_on_k. by apply Hp. Qed.
Lemma sx_on_vm {A} (c : M kpages A) : staysx (on_vm c).
Proof. intros [k s] Hx a. unfold on_vm. cbn. destruct (c s); cbn; auto. Qed.
#[local] Hint Resolve sx_ret sx_fail sx_on_vm : stays.
#[local] Ltac staysx :=
  repeat first
    [ solve [eauto 3 with stays]
    | apply sx_on_k; solve [stays]
    | apply sx_bind; [|intros ?]
    | match goal with
      | |- staysx (if ?b then _ else _) => destruct b
      | |- staysx (match ?x with _ => _ end) => destruct x
      end ].

Lemma sx_on_curproc {A} (f : nat -> prog xmem A) : staysx (f c0) -> staysx (on_k curproc ≫= f).
Proof.
  intros H x Hx a. rewrite Spec.run_bind. unfold on_k. rewrite zoom_run; [|done|done|by intros []]. unfold curproc. cbn. rewrite (sd_cur _ Hx). cbn.
  apply (H (XMem (xk x) (xp x))). done.
Qed.
Lemma sx_growproc n : staysx (growproc kend n).
Proof. unfold growproc. apply sx_on_curproc. staysx. Qed.
#[local] Hint Resolve sx_growproc : stays.
Lemma sx_sys_sbrk : staysx (sys_sbrk umem kend).
Proof. unfold sys_sbrk. staysx. Qed.

Lemma sx_xreadi i off n : staysx (xreadi devsw_read i off n).
Proof. unfold xreadi. staysx. Qed.
#[local] Hint Resolve sx_xreadi : stays.
Lemma sx_loaduvm_loop fuel pgdir addr ip offset sz : forall i, staysx (loaduvm_loop devsw_read fuel pgdir addr ip offset sz i).
Proof. induction fuel as [|fuel IH]; intros i; cbn [loaduvm_loop]; staysx. Qed.
#[local] Hint Resolve sx_loaduvm_loop : stays.
Lemma sx_loaduvm pgdir addr ip offset sz : staysx (loaduvm devsw_read pgdir addr ip offset sz).
Proof. unfold loaduvm. staysx. Qed.
#[local] Hint Resolve sx_loaduvm : stays.
Lemma sx_load_segments n ip pgdir : forall off sz, staysx (load_segments devsw_read kend n ip pgdir off sz).
Proof. induction n as [|n IH]; intros off sz; cbn [load_segments]; staysx. Qed.
Lemma sx_push_args pgdir argv : forall argc sp, staysx (push_args argc pgdir sp argv).
Proof. induction argv as [|s argv IH]; intros argc sp; cbn [push_args]; staysx. Qed.
#[local] Hint Resolve sx_load_segments sx_push_args : stays.
Lemma sx_build_stack pgdir sz argv : staysx (build_stack kend pgdir sz argv).
Proof. unfold build_stack. staysx. Qed.
Lemma sx_close_file i : staysx (close_file i).
Proof. unfold close_file. staysx. Qed.
#[local] Hint Resolve sx_build_stack sx_close_file : stays.
Lemma sx_bad pgdir ip : staysx (bad kend pgdir ip).
Proof. unfold bad. staysx. Qed.
Lemma sx_commit_image path pgdir' sz' sp ssp' eip : staysx (commit_image kend path pgdir' sz' sp ssp' eip).
Proof. unfold commit_image. apply sx_on_curproc. staysx. Qed.
#[local] Hint Resolve sx_bad sx_commit_image : stays.
Lemma sx_exec_file path argv ip : staysx (exec_file devsw_read kend kdata path argv ip).
Proof. unfold exec_file. staysx. Qed.
#[local] Hint Resolve sx_exec_file : stays.
Lemma sx_exec path argv : staysx (exec devsw_read kend kdata path argv).
Proof. unfold exec. staysx. Qed.
#[local] Hint Resolve sx_exec : stays.
Lemma sx_sys_exec : staysx (sys_exec devsw_read kend kdata umem).
Proof. unfold sys_exec. staysx. Qed.

(** The calls that make, end, reap or change processes, and those that move
    descriptors. *)
Definition on_processes (num : Z) : bool := bool_decide (num ∈ [1; 2; 3; 22; 23; 24; 33]).
Definition on_descriptors (num : Z) : bool := bool_decide (num ∈ [4; 10; 15; 21]).
Lemma sx_plain c : stays' c -> staysx (plain c).
Proof. intros H. unfold plain. apply sx_on_k. by apply stays_bind; [|intros; apply stays_ret]. Qed.
Lemma sx_syscalls ticks beyond num call : syscalls devsw_read devsw_write umem kend kdata ticks beyond num = Some call ->
  on_processes num = false -> on_descriptors num = false -> staysx call.
Proof.
  intros E Hn Hd. unfold syscalls in E. repeat case_match; simplify_eq; try done.
  all: first
    [ apply sx_plain; first [apply st_sys_kill|apply st_sys_chdir|apply st_sys_sleep|apply st_sys_write|apply st_sys_mknod|apply st_sys_unlink|apply st_sys_link|apply st_sys_mkdir|apply st_sys_chroot|apply st_sys_chperms|apply st_sys_seek|apply st_sys_sendmsg|unfold sys_recvwait, sys_getpid, sys_uptime, sys_getuid, sys_getsid, sys_getts, sys_tfork, tfork, sys_fssync; solve [stays]]
    | apply sx_on_k; first [apply st_sys_read|apply st_sys_errstr|apply st_sys_recvmsg|apply stays_bind; [apply st_sys_fstat|intros [? ?]; apply stays_ret]]
    | apply sx_bind; [first [apply sx_sys_exec|apply sx_sys_sbrk]|intros; apply sx_ret] ].
Qed.
Lemma sx_syscalls_fd ticks beyond num call : syscalls devsw_read devsw_write umem kend kdata ticks beyond num = Some call -> on_descriptors num = true -> staysx call.
Proof.
  intros E Hd. apply bool_decide_eq_true in Hd. rewrite !elem_of_cons in Hd.
  destruct Hd as [->|[->|[->|[->|H]]]]; [..|by apply not_elem_of_nil in H]; injection E as <-.
  - apply sx_on_k, st_sys_pipe.
  - apply sx_plain, st_sys_dup.
  - apply sx_plain, st_sys_open.
  - apply sx_plain, st_sys_close.
Qed.
End traverse.
