(* ===== verification/DispatchFacts.v ===== *)
(** What holds whatever system calls are made: the tables stay well formed and
    files are closed when their last descriptor goes, and only the superuser
    changes who a process runs as. *)

From S2P Require Import Prelude Params CString Bio Disk Log Fs FsOps Kernel File Proc Wp Syscall SyscallFacts Alloc Vm Exec Dispatch Steady.
Import BlockIO.

(** ** The tables *)

Definition no_fds (p : proc) : Prop := forall o, o ∈ ofile p -> o = None.

(** Every process has its descriptors, and a slot without a process has none
    open. *)
Definition tables (k : kmem) : Prop := forall j p, procs k !! j = Some p -> length (ofile p) = NOFILE /\ (dead p = true -> no_fds p).

(** During a call of process [c0]. *)
Definition calm (c0 : nat) (k : kmem) : Prop := cur k = Some c0 /\ tables k /\ exists p, procs k !! c0 = Some p /\ dead p = false.
Definition counted (c0 : nat) (k : kmem) : Prop := cur k = Some c0 /\ fd_ok k.
Definition inv (c0 : nat) (k : kmem) : Prop := calm c0 k /\ counted c0 k.

Lemma alter_inv {A} (g : A -> A) i (l : list A) j x : alter g i l !! j = Some x -> (j <> i /\ l !! j = Some x) \/ (j = i /\ exists y, l !! j = Some y /\ x = g y).
Proof.
  destruct (decide (j = i)) as [->|Hne].
  - rewrite list_lookup_alter_eq. destruct (l !! i) as [y|]; [|done]. intros [= <-]. right. eauto.
  - rewrite list_lookup_alter_ne by done. by left.
Qed.

(** An update of a process that leaves its descriptors and does not end it. *)
Lemma calm_alter c0 i (g : proc -> proc) k : (forall p, procs k !! i = Some p -> length (ofile (g p)) = length (ofile p) /\ (dead (g p) = true -> dead p = true /\ ofile (g p) = ofile p)) ->
  calm c0 k -> calm c0 (set_procs (alter g i (procs k)) k).
Proof.
  intros Hg (Hc & Ht & p & Hp & Hd). split; [done|]. split.
  - intros j q. cbn [set_procs procs]. intros [[_ Hq]|[-> (q0 & Hq & ->)]]%alter_inv; [by apply (Ht j)|]. destruct (Hg q0 Hq) as [G1 G2].
    destruct (Ht i q0 Hq) as [T1 T2].
    split; [congruence|]. intros D. destruct (G2 D) as [D' E]. unfold no_fds. rewrite E. by apply T2.
  - cbn [set_procs procs]. destruct (decide (i = c0)) as [->|Hne]; [|exists p; by rewrite list_lookup_alter_ne by done]. exists (g p).
    rewrite list_lookup_alter_eq, Hp. split; [done|].
    destruct (dead (g p)) eqn:E; [|done]. destruct (Hg p Hp) as [_ G2]. destruct (G2 E). congruence.
Qed.
Lemma dead_state p q : state p = state q -> dead p = dead q.
Proof. unfold dead. by intros ->. Qed.

#[export] Instance calm_steady c0 : Steady c0 True (calm c0).
Proof.
  split; try (intros; done); try (intros v k (? & ? & ?); done).
  - by intros k [? _].
  - intros c k (Hc & Ht & p & Hp & Hd). split; [done|]. assert (forall q, ofile (wake c q) = ofile q /\ dead (wake c q) = dead q) as Hw.
    { intros q. unfold wake. destruct (bool_decide (state q = SLEEPING)) eqn:E; cbn [andb]; [|done]. apply bool_decide_eq_true in E.
      destruct (bool_decide _); [|done]. split; [done|]. unfold dead. by rewrite E. }
    split.
    + intros j q. cbn [set_procs procs]. rewrite list_lookup_fmap. destruct (procs k !! j) as [q0|] eqn:E; [|done]. intros [= <-].
      destruct (Hw q0) as [W1 W2]. unfold no_fds. rewrite W1, W2. by apply (Ht j).
    + exists (wake c p). cbn [set_procs procs]. rewrite list_lookup_fmap, Hp. split; [done|]. destruct (Hw p) as [_ ->]. done.
  - intros i g k Hg. apply calm_alter. intros p _. destruct (Hg p) as (_ & _ & Eo & Es). rewrite Eo, (dead_state (g p) p Es). done.
  - intros g k Hg _ Hk. pose proof Hk as (_ & _ & p0 & Hp0 & Hd0). revert Hk. apply calm_alter. intros p Hp. rewrite Hp in Hp0. injection Hp0 as ->.
    destruct (Hg p0) as (_ & _ & El & Ed). split; [done|]. intros D. apply Ed in D. congruence.
  - intros i p k Hp Hs Hk. revert Hk. apply calm_alter. intros q Hq. done.
Qed.
Lemma fd_wake c k : fdview (set_procs (wake c <$> procs k) k) = fdview k.
Proof.
  unfold fdview. cbn [procs set_procs ftab cur]. do 2 f_equal. rewrite <- list_fmap_compose. apply list_fmap_ext. intros j q _. unfold wake, compose.
  by destruct (_ && _).
Qed.
#[export] Instance counted_steady c0 : Steady c0 False (counted c0).
Proof.
  assert (forall k k', cur k' = cur k -> fdview k' = fdview k -> counted c0 k -> counted c0 k') as H.
  { intros k k' Ec E [Hc Hf]. split; [congruence|]. by apply (fd_ok_same k). }
  split; try (intros; done).
  - by intros k [? _].
  - intros i g k Hg. apply H; [done|]. by apply fdview_upd_file.
  - intros c k. apply H; [done|]. apply fd_wake.
  - intros i g k Hg. apply H; [done|]. apply fdview_upd_proc. intros p. apply Hg.
  - intros g k Hg [Ho|[]]. apply H; [done|]. by apply fdview_upd_proc.
  - intros i p k Hp Hs. apply H; [done|]. by apply fdview_upd_proc.
Qed.
Lemma steady_and c0 (W W' : Prop) P Q : Steady c0 W P -> Steady c0 W' Q -> Steady c0 (W /\ W') (fun k => P k /\ Q k).
Proof. intros [] []. split; try (intros; split; naive_solver). naive_solver. Qed.
#[export] Instance inv_steady c0 : Steady c0 (True /\ False) (inv c0) := steady_and c0 True False (calm c0) (counted c0) _ _.

Lemma wp_and {A} present (p : K A) (Q Q' : A -> kmem -> Prop) (R R' : kmem -> Prop) k : wp present p Q R k -> wp present p Q' R' k -> wp present p (fun v k => Q v k /\ Q' v k) (fun k => R k /\ R' k) k.
Proof. intros H1 H2 a. specialize (H1 a). specialize (H2 a). by destruct (Spec.run present p k a) as [v [? ?]|m s|[? ?]|s]. Qed.

(** ** Making and ending processes *)

Section processes.
Context (present : Z -> bool) (c0 : nat).

(** Slot [i] is a process whose descriptors in [D] are closed. *)
Definition clear (i : nat) (D : nat -> Prop) (k : kmem) : Prop :=
  inv c0 k /\ exists q, procs k !! i = Some q /\ dead q = false /\ forall fd f, D fd -> ofile q !! fd <> Some (Some f).
Abbreviation newborn np n := (clear np (fun fd => (n <= fd)%nat)).

Lemma clear_upd np D k i (g : proc -> proc) : (forall p, ofile (g p) = ofile p /\ (dead p = false -> dead (g p) = false)) -> clear np D k -> clear np D (set_procs (alter g i (procs k)) k).
Proof.
  intros Hg ([Hc Hf] & q & Hq & Hd & Ho). split; [split|].
  - revert Hc. apply calm_alter. intros p _. destruct (Hg p) as [E G]. rewrite E. split; [done|]. destruct (dead p); [done|]. rewrite G by done. done.
  - split; [apply Hf|]. eapply fd_ok_same; [|apply Hf]. apply fdview_upd_proc. intros p. apply Hg.
  - cbn [set_procs procs]. destruct (decide (i = np)) as [->|Hi]; [|exists q; by rewrite list_lookup_alter_ne by done]. exists (g q).
    rewrite list_lookup_alter_eq, Hq. destruct (Hg q) as [-> G]. auto.
Qed.
Lemma clear_keep np D k k' : inv c0 k' -> (forall q, procs k !! np = Some q -> exists q', procs k' !! np = Some q' /\ ofile q' = ofile q /\ (dead q = false -> dead q' = false)) -> clear np D k -> clear np D k'.
Proof. intros Hi H (_ & q & Hq & Hd & Ho). split; [done|]. destruct (H q Hq) as (q' & Hq' & E & G). exists q'. rewrite E. auto. Qed.
#[local] Instance clear_steady np D : Steady c0 False (clear np D).
Proof.
  pose proof (inv_steady c0) as SI.
  assert (forall f k, (forall k, procs (f k) = procs k) -> (inv c0 k -> inv c0 (f k)) -> clear np D k -> clear np D (f k)) as HS.
  { intros f k Ef Hi Hk. apply (clear_keep np D k); [apply Hi, Hk| |done]. intros q Hq. rewrite Ef. eauto. }
  split.
  - intros k Hk. by apply Hk.
  - intros x k. apply (HS (set_fs x)); [done|]. apply (sd_fs (Steady:=SI)).
  - done.
  - intros i g k Hg. apply (HS (fun k => set_ftab (alter g i (ftab k)) k)); [done|]. by apply (sd_file (Steady:=SI)).
  - intros x k. apply (HS (set_pipes x)); [done|]. apply (sd_pipes (Steady:=SI)).
  - intros x k. apply (HS (set_msgs x)); [done|]. apply (sd_msgs (Steady:=SI)).
  - intros x k. apply (HS (set_fresh x)); [done|]. apply (sd_fresh (Steady:=SI)).
  - intros x k. apply (HS (set_oracle x)); [done|]. apply (sd_oracle (Steady:=SI)).
  - intros x k. apply (HS (set_nextpid x)); [done|]. apply (sd_nextpid (Steady:=SI)).
  - intros c k Hk. apply (clear_keep np D k); [apply (sd_wake (Steady:=SI)), Hk| |done]. intros q Hq. cbn [set_procs procs].
    rewrite list_lookup_fmap, Hq. eexists. split; [done|]. unfold wake. by destruct (_ && _).
  - intros i g k Hg. apply clear_upd. intros p. destruct (Hg p) as (_ & _ & E & Es). by rewrite (dead_state (g p) p Es).
  - intros g k Hg [Ho|[]]. apply clear_upd. intros p. split; [done|]. destruct (Hg p) as (_ & _ & _ & G). destruct (dead (g p)); [|done]. intros E.
    by rewrite G in E.
  - intros i p k Hp Hs. by apply clear_upd.
Qed.

(** A slot with nothing open can be made free again. *)
Lemma inv_alter i (g : proc -> proc) k : i <> c0 -> (forall p, ofile (g p) = ofile p) -> (forall p, procs k !! i = Some p -> no_fds p \/ dead (g p) = false) -> inv c0 k ->
  inv c0 (set_procs (alter g i (procs k)) k).
Proof.
  intros Hne Ho Hn [(Hc & Ht & p & Hp & Hd) [_ Hf]]. split; [split; [done|]; split|split; [done|]].
  - intros j q. cbn [set_procs procs]. intros [[_ Hq]|[-> (q0 & Hq & ->)]]%alter_inv; [by apply (Ht j)|]. rewrite Ho. destruct (Ht i q0 Hq) as [T1 _].
    split; [done|]. intros D.
    destruct (Hn q0 Hq) as [N|D']; [|congruence]. unfold no_fds. by rewrite Ho.
  - exists p. cbn [set_procs procs]. by rewrite list_lookup_alter_ne by done.
  - eapply fd_ok_same; [|exact Hf]. by apply fdview_upd_proc.
Qed.
Lemma newborn_free np g k : np <> c0 -> (forall p, ofile (g p) = ofile p) -> newborn np 0 k -> inv c0 (set_procs (alter g np (procs k)) k).
Proof.
  intros Hne Ho (Hi & q & Hq & Hd & Hn). apply inv_alter; [done|done| |done]. intros p Hp. left. rewrite Hq in Hp. injection Hp as <-.
  intros o Hx. apply list_elem_of_lookup in Hx as [fd Hx]. destruct o as [f|]; [|done]. by destruct (Hn fd f ltac:(lia)).
Qed.

Abbreviation stays' P := (stays present P (inv c0)).
Lemma wp_allocproc k : inv c0 k -> wp present allocproc (fun o k' => match o with None => inv c0 k' | Some np => np <> c0 /\ newborn np 0 k' end) (inv c0) k.
Proof.
  intros Hk. unfold allocproc, kscan. apply wp_bind, wp_kget. destruct (scan is_unused (procs k)) as [[i p]|] eqn:E; [|by apply wp_ret].
  apply scan_Some in E as (Hi & Hu & _). unfold is_unused in Hu. apply bool_decide_eq_true in Hu.
  assert (dead p = true) as Hdp by (unfold dead; by rewrite Hu).
  pose proof Hk as [(_ & Ht & p0 & Hp0 & Hd0) _]. assert (i <> c0) as Hne by congruence. destruct (Ht i p Hi) as [_ Hn]. specialize (Hn Hdp).
  apply wp_bind, wp_kget, wp_bind, wp_kset, wp_bind, wp_kset. set (g := fun p => set_err _ _). set (k1 := set_procs _ _).
  assert (newborn i 0 k1) as H1.
  { split; [apply inv_alter; [done|done|intros q _; by right|done]|]. exists (g p). cbn [k1 set_procs procs set_nextpid].
    rewrite list_lookup_alter_eq, Hi. split; [done|]. split; [done|].
    intros fd f _ Hx. apply list_elem_of_lookup_2, Hn in Hx. done. }
  pose proof (stays_alloc present c0 False (newborn i 0) (inv c0)) as HA.
  apply wp_bind. eapply wp_mono; [by apply HA| |done].
  intros ok k2 H2. destruct ok; cbn [negb].
  - apply wp_bind, wp_kset, wp_bind. unfold initmailbox. apply wp_bind. eapply wp_mono; [apply HA; by apply clear_upd| |done].
    intros v k3 H3. by apply wp_ret, wp_ret.
  - apply wp_bind, wp_kset, wp_ret. by apply newborn_free.
Qed.

(** The descriptors below [S fd] may be open. *)
Lemma dup_fd_step np fd k : np <> c0 -> newborn np fd k -> wp present (dup_fd c0 np fd) (fun _ => newborn np (S fd)) (inv c0) k.
Proof.
  intros Hne Hk. assert (newborn np (S fd) k) as Hk'. { destruct Hk as (? & q & ? & ? & Ho). split; [done|]. exists q. split; [done|]. split; [done|].
  intros x f Hx. apply Ho. lia. }
  unfold dup_fd. apply wp_bind, wp_proc_at. intros p Hp. destruct (ofile p !! fd) as [[f|]|] eqn:Ef; [|by apply wp_ret..].
  destruct Hk as ([(Hc & Ht & Hl) [_ Hf]] & q & Hq & Hd & Ho). destruct (fdview k) as [cu [os fs]] eqn:E.
  assert (fd_inv (os, fs)) as HI by (unfold fd_ok in Hf; by rewrite E in Hf).
  unfold filedup. apply wp_bind, wp_bind, wp_file_at. intros v Hv. destruct (_ <? _); [apply wp_fail|]. apply wp_bind, wp_kset, wp_ret, wp_kset.
  cbn [procs set_ftab].
  assert (ofile q !! fd = Some None) as Hn. { destruct (Ht np q Hq) as [L _].
  destruct (lookup_lt_is_Some_2 (ofile q) fd) as [[g|] Hx]; [|by destruct (Ho fd g ltac:(lia))|done]. apply lookup_lt_Some in Ef.
  destruct (Ht c0 p Hp) as [L' _]. lia. }
  split.
  - split; [|split; [done|]].
    + split; [done|]. split.
      * intros j r. cbn [set_procs procs set_ftab]. intros [[_ Hr]|[-> (r0 & Hr & ->)]]%alter_inv; [by apply (Ht j)|]. cbn. rewrite length_insert.
        split; [by apply (Ht np)|]. intros D. rewrite Hq in Hr. injection Hr as <-.
        change (dead q = true) in D. congruence.
      * destruct Hl as (r & Hr & Hdr). exists r. cbn [set_procs procs set_ftab]. by rewrite list_lookup_alter_ne by done.
    + pose proof (fdview_set_fds np fd (Some f) (set_ftab (alter (fun x => set_f_ref (f_ref x + 1) x) f (ftab k)) k) q Hq) as EV.
      cbn [procs set_ftab] in EV.
      eapply fd_ok_view; [rewrite EV; cbn [procs set_ftab cur ftab]; reflexivity|].
      pose proof (fdview_set_file f (fun x => set_f_ref (f_ref x + 1) x) k v Hv) as EF. unfold fdview in EF at 1. injection EF as EF.
      cbn [ftab set_ftab] in EF. rewrite EF.
      injection E as <- <- <-. eapply inv_take; [exact HI|by rewrite list_lookup_fmap, Hq|done|]. by rewrite list_lookup_fmap, Hv.
  - eexists. cbn [set_procs procs set_ftab]. rewrite list_lookup_alter_eq, Hq. split; [done|]. split; [done|]. intros x g Hx. cbn.
    rewrite list_lookup_insert_ne by lia. apply Ho. lia.
Qed.
Lemma dup_fds np n m k : np <> c0 -> newborn np n k -> wp present (pfor (seq n m) (dup_fd c0 np)) (fun _ => newborn np (n + m)) (inv c0) k.
Proof.
  intros Hne. revert n k. induction m as [|m IH]; intros n k Hk; cbn [seq pfor].
  - apply wp_ret. by rewrite Nat.add_0_r.
  - apply wp_bind. eapply wp_mono; [by apply dup_fd_step| |done]. intros v k1 H1. rewrite <- Nat.add_succ_comm. by apply IH.
Qed.
Lemma clear_inv np D k : clear np D k -> inv c0 k.
Proof. by intros []. Qed.
#[local] Hint Resolve clear_inv : stays.
#[local] Ltac clear_stays np D := pose proof (clear_steady np D); pose proof (clear_inv np D); stays.
(** [wp] of a routine that keeps [P], before the rest of the run. *)
Lemma wp_then {A B} (P R : kmem -> Prop) (p : K A) (f : A -> K B) Q k : stays present P R p -> P k -> (forall v k, P k -> wp present (f v) Q R k) -> wp present (p ≫= f) Q R k.
Proof. intros Hp Hk Hf. apply wp_bind. eapply wp_mono; [by apply Hp|done|done]. Qed.
Lemma st_upd_clear np D i g : (forall p, ofile (g p) = ofile p /\ (dead p = false -> dead (g p) = false)) -> stays present (clear np D) (inv c0) (upd_proc i g).
Proof. intros H k Hk. apply wp_kset. by apply clear_upd. Qed.
#[local] Hint Extern 1 (stays _ (clear _ _) _ (upd_proc _ _)) => apply st_upd_clear; by intros ? : stays.
Lemma wp_clear {A} np D (p : K A) k : stays present (clear np D) (inv c0) p -> clear np D k -> wp present p (fun _ => inv c0) (inv c0) k.
Proof. intros Hp Hk. eapply wp_mono; [by apply Hp|by intros ? ? []|done]. Qed.
Lemma st_seterr_ret m v k : inv c0 k -> wp present (seterr m ;; mret v : K Z) (fun _ => inv c0) (inv c0) k.
Proof.
  intros Hk. apply (stays_bind present (inv c0) (inv c0)); [apply (stays_seterr present c0 (True /\ False) (inv c0) (inv c0))|intros; by apply stays_ret|done].
Qed.
(** Copying the caller's descriptors and directories to the new process. *)
Lemma wp_copy {A} np (f : unit -> K A) k Q : np <> c0 -> newborn np 0 k -> (forall v k', newborn np NOFILE k' -> wp present (f v) Q (inv c0) k') ->
  wp present (pfor (seq 0 NOFILE) (dup_fd c0 np) ;; dup_dirs c0 np ≫= f) Q (inv c0) k.
Proof.
  intros Hne Hk Hf. apply wp_bind. eapply wp_mono; [by apply (dup_fds np 0 NOFILE)| |done]. intros v k1 H1.
  eapply (wp_then (newborn np NOFILE)); [unfold dup_dirs; clear_stays np (fun fd => (NOFILE <= fd)%nat)|exact H1|]. done.
Qed.
Lemma inv_fork : stays present (inv c0) (inv c0) fork.
Proof.
  unfold fork. eapply stays_curproc; [apply inv_steady|]. intros k Hk. apply wp_bind. eapply wp_mono; [by apply wp_allocproc| |done].
  intros [np|] k1 H1; [destruct H1 as [Hne H1]|by apply st_seterr_ret].
  eapply (wp_then (newborn np 0)); [by apply (stays_alloc present c0 False (newborn np 0) (inv c0))|exact H1|]. intros ok k2 H2.
  destruct ok; cbn [negb].
  - eapply (wp_then (newborn np 0)); [by apply (stays_new_addr present c0 False (newborn np 0) (inv c0))|exact H2|]. intros pg k3 H3.
    apply wp_bind, wp_proc_at. intros p Hp.
    eapply (wp_then (newborn np 0)); [by apply st_upd_clear; intros ?|exact H3|]. intros v4 k4 H4. apply wp_copy; [done|exact H4|]. intros v5 k5 H5.
    eapply wp_clear; [|exact H5]. clear_stays np (fun fd => (NOFILE <= fd)%nat).
  - apply wp_bind, wp_kset. apply st_seterr_ret. by apply newborn_free.
Qed.
Lemma inv_clone stack : stays present (inv c0) (inv c0) (clone stack).
Proof.
  pose proof (inv_steady c0) as SI. unfold clone.
  do 6 first [eapply stays_curproc; [exact SI|]|apply stays_bind; [solve [stays]|intros ?]|match goal with |- stays _ _ _ (if ?b then _ else _) => destruct b end; [solve [stays]|]].
  match goal with |- stays _ _ _ (if ?b then _ else _) => destruct b end; [solve [stays]|].
  intros k Hk. apply wp_bind. eapply wp_mono; [by apply wp_allocproc| |done]. intros [np|] k1 H1; [destruct H1 as [Hne H1]|by apply st_seterr_ret].
  cbv zeta.
  eapply (wp_then (newborn np 0)); [by apply st_upd_clear; intros ?|exact H1|]. intros v2 k2 H2. apply wp_copy; [done|exact H2|]. intros v3 k3 H3.
  eapply wp_clear; [|exact H3]. unfold addchild. clear_stays np (fun fd => (NOFILE <= fd)%nat).
Qed.

Lemma st_upd_inv R i g : (forall k, inv c0 k -> R k) -> (forall p, ofile (g p) = ofile p /\ dead (g p) = dead p) -> stays present (inv c0) R (upd_proc i g).
Proof.
  intros HR Hg. apply stays_kset. intros k [Hc Hf]. split.
  - revert Hc. apply calm_alter. intros p _. by destruct (Hg p) as [-> ->].
  - split; [apply Hf|]. eapply fd_ok_same; [|apply Hf]. apply fdview_upd_proc. intros p. apply Hg.
Qed.
Lemma inv_chuser u : stays present (inv c0) (inv c0) (chuser u).
Proof. pose proof (inv_steady c0). unfold chuser. stays. by apply st_upd_inv; [|intros ?]. Qed.
Lemma inv_chsystem u : stays present (inv c0) (inv c0) (chsystem u).
Proof. pose proof (inv_steady c0). unfold chsystem. stays. by apply st_upd_inv; [|intros ?]. Qed.
Lemma inv_disallow : stays present (inv c0) (inv c0) disallow.
Proof. pose proof (inv_steady c0). unfold disallow. stays; by apply stays_kset. Qed.

(** A dead process stays dead. *)
Lemma wp_dead D R i g k : (forall p, ofile (g p) = ofile p) -> (forall p, procs k !! i = Some p -> dead p = true) -> clear c0 D k -> wp present (upd_proc i g) (fun _ => clear c0 D) R k.
Proof.
  intros Ho Hd (Hk & q & Hq & Hdq & Hn). apply wp_kset. assert (i <> c0) as Hne by (intros ->; apply Hd in Hq; congruence). split.
  - apply inv_alter; [done|done| |done]. intros p Hp. left. apply Hk in Hp as HT. apply HT. eauto.
  - exists q. cbn [set_procs procs]. by rewrite list_lookup_alter_ne by done.
Qed.
Lemma clear_wait1 D (R : kmem -> Prop) : (forall k, clear c0 D k -> R k) -> stays present (clear c0 D) R wait1.
Proof.
  intros HR. pose proof (clear_steady c0 D) as SI. unfold wait1. eapply stays_curproc; [exact SI|]. intros k Hk. apply wp_bind. unfold kscan.
  apply wp_kget. destruct (scan (zombie_child c0) (procs k)) as [[i p]|] eqn:E.
  - apply scan_Some in E as (Hi & Hz & _). unfold zombie_child in Hz. apply andb_true_iff in Hz as [[_ Hz]%andb_true_iff _].
    apply bool_decide_eq_true in Hz.
    assert (forall q, procs k !! i = Some q -> dead q = true) as Hd by (intros q Hq; rewrite Hi in Hq; injection Hq as <-; unfold dead; by rewrite Hz).
    destruct (crashed p); apply wp_bind; (eapply wp_mono; [by apply (wp_dead D R)|intros ? ? ?; by apply wp_ret|done]).
  - revert k Hk E. assert (stays present (clear c0 D) R (kids ← kscan procs (fun p => bool_decide (parent p = Some c0)); p ← proc_at c0;
      if bool_decide (kids = None) || killed p then seterr "EPWAITNOCH" ;; mret (-1) else upd_proc c0 (fun p => set_waitrounds WAITROUNDS (set_state WAIT p)) ;; sleep)) as HS by stays.
    intros k Hk _. by apply HS.
Qed.
Lemma inv_wait1 : stays present (inv c0) (inv c0) wait1.
Proof.
  intros k Hk. eapply wp_mono; [apply (clear_wait1 (fun _ => False) (inv c0)); [by intros ? []|]|by intros ? ? []|done].
  split; [done|]. pose proof Hk as [(_ & _ & p & Hp & Hd) _]. by exists p.
Qed.

(** [exit] closes the caller's descriptors one by one. *)
Abbreviation emptied n := (clear c0 (fun fd => (fd < n)%nat)).
Abbreviation any := (fun _ : kmem => True).
Lemma emptied_S n k p : procs k !! c0 = Some p -> (forall f, ofile p !! n <> Some (Some f)) -> emptied n k -> emptied (S n) k.
Proof.
  intros Hp Hn (Hi & q & Hq & Hd & Ho). rewrite Hp in Hq. injection Hq as <-. split; [done|]. exists p. split; [done|]. split; [done|].
  intros fd f Hlt. destruct (decide (fd = n)) as [->|]; [apply Hn|]. apply Ho. lia.
Qed.
Lemma close_fd_step n k : emptied n k -> wp present (close_fd c0 n) (fun _ => emptied (S n)) any k.
Proof.
  intros Hk. pose proof Hk as ([Hc [_ Hf]] & p & Hp & Hd & Ho). unfold close_fd. apply wp_bind, wp_proc_at. intros p' Hp'. rewrite Hp in Hp'.
  injection Hp' as <-.
  destruct (ofile p !! n) as [[f|]|] eqn:Ef; [|apply wp_ret, (emptied_S n k p); [done|congruence|done]..].
  destruct (fdview k) as [cu [os fs]] eqn:E. assert (fd_inv (os, fs)) as HI by (unfold fd_ok in Hf; by rewrite E in Hf).
  apply wp_bind. pose proof (st_fileclose present c0 True (calm c0) any _ I (fun _ _ => I) f k Hc) as HC. cbn beta in HC.
  apply wp_mono with (fun _ k1 => calm c0 k1 /\ exists r t, fs !! f = Some (r, t) /\ fdview k1 = (cu, (os, <[f := closed r t]> fs))) (fun k => True /\ True); [|intros v k1 (Hc1 & r & t & Hr & E1)|done].
  { apply wp_and; [exact HC|]. eapply wp_fileclose; [exact E|eauto|done]. }
  apply wp_kset. assert (os !! c0 = Some (ofile p)) as Hos by exact (fdview_proc _ _ _ _ _ _ E Hp).
  assert (exists p1, procs k1 !! c0 = Some p1 /\ ofile p1 = ofile p) as (p1 & Hp1 & Eo).
  { unfold fdview in E1. injection E1 as _ E1 _. rewrite <- E1, list_lookup_fmap in Hos. destruct (procs k1 !! c0) as [p1|]; [|done].
    injection Hos as Hos. eauto. }
  split.
  - split.
    + apply (sd_gentle (W:=True)); [|by right|done]. intros q. cbn. by rewrite length_insert.
    + split; [apply Hc1|]. eapply fd_ok_view; [rewrite (fdview_set_fds _ _ _ _ _ Hp1); reflexivity|]. rewrite Eo. unfold fdview in E1.
      injection E1 as _ E1 E2. rewrite E1, E2. by apply inv_drop.
  - eexists. cbn [set_procs procs]. rewrite list_lookup_alter_eq, Hp1. split; [done|]. destruct Hc1 as (_ & _ & p2 & Hp2 & Hd2). rewrite Hp1 in Hp2.
    injection Hp2 as <-. split; [done|].
    intros fd g Hlt. cbn. rewrite Eo. destruct (decide (fd = n)) as [->|Hne]; [|rewrite list_lookup_insert_ne by done; apply Ho; lia].
    rewrite list_lookup_insert_eq; [done|]. by eapply lookup_lt_Some.
Qed.
Lemma close_fds n m k : emptied n k -> wp present (pfor (seq n m) (close_fd c0)) (fun _ => emptied (n + m)) any k.
Proof.
  revert n k. induction m as [|m IH]; intros n k Hk; cbn [seq pfor].
  - apply wp_ret. by rewrite Nat.add_0_r.
  - apply wp_bind. eapply wp_mono; [by apply close_fd_step| |done]. intros v k1 H1. rewrite <- Nat.add_succ_comm. by apply IH.
Qed.
Lemma clear_wait_all D fuel : stays present (clear c0 D) any (wait_all fuel).
Proof.
  induction fuel as [|fuel IH]; cbn [wait_all]; [apply stays_fail|]. apply stays_bind; [by apply clear_wait1|]. intros r.
  destruct (r =? -1); [by apply stays_ret|done].
Qed.
Lemma clear_exit_files k : inv c0 k -> wp present (exit_files c0) (fun _ => emptied NOFILE) any k.
Proof.
  intros Hk. pose proof Hk as [(_ & _ & p & Hp & Hd) _]. apply wp_bind. eapply wp_mono; [apply (close_fds 0 NOFILE)| |done].
  { split; [done|]. exists p. split; [done|]. split; [done|]. lia. }
  intros v k1 H1. revert k1 H1. pose proof (clear_steady c0 (fun fd => (fd < NOFILE)%nat)) as SI.
  assert (forall k, emptied NOFILE k -> any k) as HR by done.
  pose proof (clear_wait_all (fun fd => (fd < NOFILE)%nat) (S NPROC)) as HW. cbn [Nat.add].
  match goal with |- forall k, _ -> wp _ ?p _ _ _ => change (stays present (emptied NOFILE) any p) end. unfold dev_of, kill_thread. stays.
Qed.

(** Between calls. *)
Definition settled (k : kmem) : Prop := tables k /\ fd_ok k.
Lemma inv_settled k : inv c0 k -> settled k.
Proof. by intros [(_ & ? & _) [_ ?]]. Qed.
Lemma settled_same k k' : (forall j q', procs k' !! j = Some q' -> exists q, procs k !! j = Some q /\ ofile q' = ofile q /\ (dead q' = true -> dead q = true \/ no_fds q)) ->
  (fdview k').2 = (fdview k).2 -> settled k -> settled k'.
Proof.
  intros H E [Ht Hf]. split; [|unfold fd_ok; by rewrite E]. intros j q' Hq'. destruct (H j q' Hq') as (q & Hq & Eo & Hd).
  destruct (Ht j q Hq) as [T1 T2]. unfold no_fds in *. rewrite Eo. split; [done|].
  intros D. destruct (Hd D) as [D'|N]; [by apply T2|exact N].
Qed.
Lemma st_flush_loop D fuel c : stays present (clear c0 D) any (flush_loop fuel c).
Proof.
  pose proof (clear_steady c0 D) as SI. assert (forall k, clear c0 D k -> any k) as HR by done. revert c.
  induction fuel as [|fuel IH]; intros [m|]; cbn [flush_loop]; unfold free_message; stays.
Qed.
Lemma wake_if_same o q : ofile (wake_if o q) = ofile q /\ dead (wake_if o q) = dead q.
Proof.
  destruct o as [j|]; [|done]. unfold wake_if, wake. destruct (bool_decide (state q = SLEEPING)) eqn:E; cbn [andb]; [|done].
  apply bool_decide_eq_true in E. destruct (bool_decide _); [|done].
  split; [done|]. unfold dead. by rewrite E.
Qed.
Lemma settled_exit_table ini k : emptied NOFILE k -> wp present (exit_table c0 ini) (fun _ => settled) any k.
Proof.
  intros Hk. unfold exit_table. apply wp_bind, wp_proc_at. intros p Hp. unfold flush_mailbox. apply wp_bind, wp_bind, wp_kget.
  eapply wp_mono; [by apply st_flush_loop| |done]. clear k Hk Hp. intros v k (Hi & q & Hq & Hd & Hn). apply wp_kset.
  apply (settled_same k); [| |by apply inv_settled].
  - cbn [set_procs procs]. unfold exit_procs. intros j q' Hq'. set (o := existsb _ _) in Hq'. apply alter_inv in Hq'.
    assert (forall y, ((λ q : proc, wake_if (if o then ini else None) (reparent c0 ini q)) <$> (wake_if (parent p) <$> procs k)) !! j = Some y -> exists x, procs k !! j = Some x /\ ofile y = ofile x /\ dead y = dead x) as HF.
    { intros y. rewrite !list_lookup_fmap. destruct (procs k !! j) as [x|]; [|done]. intros [= <-]. exists x. split; [done|].
      destruct (wake_if_same (if o then ini else None) (reparent c0 ini (wake_if (parent p) x))) as [-> ->].
      destruct (wake_if_same (parent p) x) as [E1 E2]. unfold reparent. by case_bool_decide. }
    destruct Hq' as [[Hj Hq']|[-> (y & Hy & ->)]].
    + destruct (HF _ Hq') as (x & Hx & Eo & Ed). exists x. split; [done|]. split; [done|]. rewrite Ed. auto.
    + destruct (HF _ Hy) as (x & Hx & Eo & Ed). exists x. split; [done|]. split; [done|]. intros _. right. rewrite Hq in Hx. injection Hx as <-.
      pose proof Hi as [(_ & Ht & _) _]. destruct (Ht c0 q Hq) as [L _].
      intros e He. apply list_elem_of_lookup in He as [fd He]. destruct e as [f|]; [|done]. exfalso. apply (Hn fd f); [|done].
      apply lookup_lt_Some in He. by rewrite <- L.
  - unfold fdview. cbn [procs set_procs ftab cur snd]. f_equal. unfold exit_procs. apply list_eq. intros j. rewrite !list_lookup_fmap.
    set (o := existsb _ _).
    assert (forall q, ofile (wake_if (if o then ini else None) (reparent c0 ini (wake_if (parent p) q))) = ofile q) as HO.
    { intros x. destruct (wake_if_same (if o then ini else None) (reparent c0 ini (wake_if (parent p) x))) as [-> _].
      destruct (wake_if_same (parent p) x) as [E1 _]. unfold reparent. by case_bool_decide. }
    destruct (decide (j = c0)) as [->|Hj]; [rewrite list_lookup_alter_eq|rewrite list_lookup_alter_ne by done]; rewrite !list_lookup_fmap.
    + destruct (procs k !! c0) as [x|]; [|done]. exact (f_equal Some (HO x)).
    + destruct (procs k !! j) as [x|]; [|done]. exact (f_equal Some (HO x)).
Qed.
Lemma settled_exit k : inv c0 k -> wp present exit (fun _ => settled) any k.
Proof.
  intros Hk. unfold exit. apply wp_bind, wp_curproc. intros c Hc. pose proof Hk as [(Hc' & _) _]. rewrite Hc' in Hc. injection Hc as <-.
  apply wp_bind, wp_kget. case_bool_decide; [apply wp_fail|].
  apply wp_bind. eapply wp_mono; [by apply clear_exit_files| |done]. intros v k1 H1. by apply settled_exit_table.
Qed.

(** The scheduler. *)
Lemma settled_alter i g k : (forall p, procs k !! i = Some p -> ofile (g p) = ofile p /\ (dead (g p) = true -> dead p = true)) -> settled k -> settled (set_procs (alter g i (procs k)) k).
Proof.
  intros H. apply settled_same.
  - cbn [set_procs procs]. intros j q' [[_ Hq]|[-> (q & Hq & ->)]]%alter_inv; [eauto|]. destruct (H q Hq) as [-> D]. exists q. auto.
  - unfold fdview. cbn [procs set_procs ftab cur snd]. f_equal. apply list_eq. intros j. rewrite !list_lookup_fmap.
    destruct (decide (j = i)) as [->|Hj]; [|by rewrite list_lookup_alter_ne by done].
    rewrite list_lookup_alter_eq. destruct (procs k !! i) as [x|] eqn:E; [|done]. apply (f_equal Some), (H x eq_refl).
Qed.
Lemma settled_upd R i g k : (forall p, ofile (g p) = ofile p /\ dead (g p) = dead p) -> settled k -> wp present (upd_proc i g) (fun _ => settled) R k.
Proof. intros H Hk. apply wp_kset, settled_alter; [|done]. intros p _. by destruct (H p) as [-> ->]. Qed.
Lemma settled_bury i p k : procs k !! i = Some p -> dead p = true -> settled k ->
  wp present (upd_proc i (set_kstack false) ;; (match parent p with Some j => _ ← removechild j i; mret tt | None => fail "nil parent" end) ;; upd_proc i free_slot) (fun _ => settled) settled k.
Proof.
  intros Hi Hd Hk. apply wp_bind, wp_kset, wp_bind. set (k1 := set_procs _ k). assert (settled k1) as H1 by (by apply settled_alter).
  assert (forall q, procs k1 !! i = Some q -> dead q = true) as D1 by (cbn; rewrite list_lookup_alter_eq, Hi; by intros q [= <-]).
  clearbody k1. clear Hi.
  assert (forall k2, settled k2 -> (forall q, procs k2 !! i = Some q -> dead q = true) -> wp present (upd_proc i free_slot) (fun _ => settled) settled k2) as HF.
  { intros k2 H2 D2. apply wp_kset, settled_alter; [|done]. intros q Hq. split; [done|]. intros _. eauto. }
  destruct (parent p) as [j|]; [|apply wp_fail]. apply wp_bind. unfold removechild. apply wp_bind, wp_proc_at. intros q Hq.
  destruct (scan _ _) as [[t o]|]; [|by apply wp_ret, wp_ret, HF].
  apply wp_bind, wp_kset, wp_ret, wp_ret, HF; [by apply settled_alter|]. cbn. intros q' [[_ H]|[-> (q0 & H & ->)]]%alter_inv; [eauto|].
  by apply D1 in H.
Qed.
Lemma settled_sched_visit i k : settled k -> wp present (sched_visit i) (fun _ => settled) settled k.
Proof.
  intros Hk. unfold sched_visit. apply wp_bind, wp_proc_at. intros p Hp. apply wp_bind.
  assert (forall k, settled k -> wp present (p ← proc_at i; fst_ ← kget first;
    if fst_ && negb (pid p =? 0) then mret false else
    single ← kget singleuser;
    if negb (uid p =? -1) && single then mret false else
    if negb (bool_decide (state p = RUNNABLE)) then
      (if bool_decide (state p = WAIT) then if 0 <? waitrounds p then upd_proc i (set_waitrounds (waitrounds p - 1)) else upd_proc i (set_state RUNNABLE) else mret tt) ;; mret false
    else kset (set_cur (Some i)) ;; upd_proc i (set_state RUNNING) ;; mret true) (fun _ => settled) settled k) as HR.
  { clear k Hk p Hp. intros k Hk. apply wp_bind, wp_proc_at. intros p Hp. apply wp_bind, wp_kget. destruct (_ && _); [by apply wp_ret|].
    apply wp_bind, wp_kget. destruct (_ && _); [by apply wp_ret|].
    destruct (bool_decide (state p = RUNNABLE)) eqn:Er; cbn [negb].
    - apply wp_bind, wp_kset, wp_bind, wp_kset, wp_ret. apply settled_alter; [done|exact Hk].
    - apply wp_bind. destruct (bool_decide (state p = WAIT)); [|by apply wp_ret, wp_ret].
      destruct (0 <? _); apply wp_kset, wp_ret, settled_alter; done. }
  case_match eqn:Eb; [|by apply wp_ret, HR]. apply andb_true_iff in Eb as [_ Eb]. apply bool_decide_eq_true in Eb.
  eapply wp_mono; [apply settled_bury; [exact Hp|unfold dead; by rewrite Eb|done]| |done]. intros v k1 H1. by apply HR.
Qed.
End processes.

(** ** Every call *)

Section calls.
Context (present : Z -> bool).
Context (devsw_read : Z -> option (nat -> Z -> Z -> prog kfs (Z * list Z))).
Context (devsw_write : Z -> option (nat -> list Z -> Z -> Z -> prog kfs Z)).

Section call.
Context (umem : Z -> Z) (kend kdata ticks : Z) (beyond : nat -> Z) (c0 : nat).
Abbreviation calls := (syscalls devsw_read devsw_write umem kend kdata ticks beyond).

Lemma wpx_and {A} (p : prog xmem A) Q Q' R R' x : wpx present p Q R x -> wpx present p Q' R' x -> wpx present p (fun v x => Q v x /\ Q' v x) (fun x => R x /\ R' x) x.
Proof. intros H1 H2 a. specialize (H1 a). specialize (H2 a). by destruct (Spec.run present p x a) as [v [? ?]|m s|[? ?]|s]. Qed.
Lemma wpx_mono {A} (p : prog xmem A) (Q Q' : A -> xmem -> Prop) (R R' : xmem -> Prop) x :
  wpx present p Q R x -> (forall v x, Q v x -> Q' v x) -> (forall x, R x -> R' x) -> wpx present p Q' R' x.
Proof. intros H HQ HR a. specialize (H a). destruct (Spec.run present p x a) as [v [? ?]|m s|[? ?]|s]; auto. Qed.

Abbreviation keeps_inv call := (staysx present (inv c0) (inv c0) call).
Lemma inv_descriptors num call : calls num = Some call -> on_descriptors num = true -> keeps_inv call.
Proof.
  intros E Hd x [Hc [Hcu Hf]].
  assert (wpx present call (fun _ x' => fd_ok (xk x')) (fun x' => fd_ok (xk x')) x) as HF.
  { assert (forall c, (forall k, fd_ok k -> wp present c (fun _ => fd_ok) fd_ok k) -> wpx present (plain c) (fun _ x' => fd_ok (xk x')) (fun x' => fd_ok (xk x')) x) as Hpl.
    { intros c H. apply wpx_on_k. apply wp_bind. eapply wp_mono; [by apply H| |done]. intros v k Hk. by apply wp_ret. }
    apply bool_decide_eq_true in Hd. rewrite !elem_of_cons in Hd.
    destruct Hd as [->|[->|[->|[->|H]]]]; [..|by apply not_elem_of_nil in H]; injection E as <-.
    - apply wpx_on_k. by apply sys_pipe_preserves.
    - apply Hpl, sys_dup_preserves.
    - apply Hpl, sys_open_preserves.
    - apply Hpl, sys_close_preserves. }
  pose proof (sx_syscalls_fd present c0 True (calm c0) (calm c0) (calm_steady c0) I (fun k H => H) devsw_read devsw_write umem kend kdata ticks beyond num call E Hd x Hc) as HC.
  eapply wpx_mono; [exact (wpx_and _ _ _ _ _ _ HC HF)| |].
  - intros v x' [H1 H2]. split; [done|]. split; [apply H1|done].
  - intros x' [H1 H2]. split; [done|]. split; [apply H1|done].
Qed.

(** Every call but [exit] keeps the tables. *)
Lemma inv_call num call : calls num = Some call -> num <> 2 -> keeps_inv call.
Proof.
  intros E Hn. destruct (on_descriptors num) eqn:Hd; [by eapply inv_descriptors|]. destruct (on_processes num) eqn:Hp.
  2:{ by apply (sx_syscalls present c0 (True /\ False) (inv c0) (inv c0) (inv_steady c0) (fun k H => H) devsw_read devsw_write umem kend kdata ticks beyond num call E).
  }
  pose proof (inv_steady c0) as SI. assert (forall n, stays present (inv c0) (inv c0) (argint umem n)) as HA by (intros n; by eapply st_argint).
  pose proof (inv_fork present c0). pose proof (inv_clone present c0). pose proof (inv_chuser present c0). pose proof (inv_chsystem present c0).
  pose proof (inv_disallow present c0). pose proof (inv_wait1 present c0).
  apply bool_decide_eq_true in Hp. rewrite !elem_of_cons in Hp.
  destruct Hp as [->|[->|[->|[->|[->|[->|[->|Hp]]]]]]]; [..|by apply not_elem_of_nil in Hp]; injection E as <-; try done.
  all: apply sx_plain; unfold sys_fork, sys_wait, wait, sys_chuser, sys_chsystem, sys_disallow, sys_clone; stays.
Qed.

Lemma wpx_syscall (W : Prop) (P R : kmem -> Prop) (ST : Steady c0 W P) x p : (forall k, P k -> R k) -> P (xk x) -> procs (xk x) !! c0 = Some p ->
  (forall call, calls (s32 (tf_eax (tf p))) = Some call -> wpx present call (fun _ x' => P (xk x')) (fun x' => R (xk x')) x) ->
  wpx present (syscall devsw_read devsw_write umem kend kdata ticks beyond) (fun _ x' => P (xk x')) (fun x' => R (xk x')) x.
Proof.
  intros HR Hx Hp Hcall.
  assert (forall v w, staysx present P R (c ← on_k curproc; on_k (upd_proc c (set_eax v)) ;; mret w : prog xmem (list (Z * list Z)))) as HE.
  { intros v w. eapply sx_on_curproc; [exact ST|]. apply sx_bind; [|intros; by apply sx_ret]. apply sx_on_k.
    eapply stays_upd_proc; [exact ST|by intros ?]. }
  intros a. unfold syscall. rewrite Spec.run_bind. unfold on_k at 1. rewrite zoom_run; [|done|done|by intros []].
  rewrite (run_this present (xk x) a c0 p (sd_cur _ Hx) Hp). cbn beta iota.
  destruct (calls _) as [call|] eqn:E.
  - revert a. change (wpx present ('(v, w) ← call; c ← on_k curproc; on_k (upd_proc c (set_eax v)) ;; mret w) (fun _ x' => P (xk x')) (fun x' => R (xk x')) (XMem (xk x) (xp x))).
    intros a. rewrite Spec.run_bind. specialize (Hcall call eq_refl a). destruct x as [k0 s0]. cbn [xk xp].
    destruct (Spec.run present call _ a) as [[v w] [x' a']|m s|[x' a']|s]; [|done..]. by apply HE.
  - apply (HE (-1) [] (XMem (xk x) (xp x)) Hx).
Qed.
End call.

(** ** Any sequence of steps *)

(** Process [c] of the table, running, enters the kernel with any memory of its
    own; the drive may hold anything.  [who] says which processes do.  A call runs
    until it returns or goes to sleep, an exit to its end; in between, a running
    process sets its registers and memory as it likes. *)
Definition enters (x : xmem) (c : nat) : xmem := XMem (set_cur (Some c) (xk x)) (xp x).
Inductive kstep (kend kdata : Z) (who : proc -> Prop) : xmem -> xmem -> Prop :=
| kstep_ret umem ticks beyond x c p a w x' a' : procs (xk x) !! c = Some p -> state p = RUNNING -> who p ->
    Spec.run present (syscall devsw_read devsw_write umem kend kdata ticks beyond) (enters x c) a = Ok w (x', a') -> kstep kend kdata who x x'
| kstep_sleep umem ticks beyond x c p a x' a' : procs (xk x) !! c = Some p -> state p = RUNNING -> who p -> s32 (tf_eax (tf p)) <> 2 ->
    Spec.run present (syscall devsw_read devsw_write umem kend kdata ticks beyond) (enters x c) a = Blocked (x', a') -> kstep kend kdata who x x'
| kstep_exit x c p a k' a' : procs (xk x) !! c = Some p -> state p = RUNNING -> who p ->
    Spec.run present exit (set_cur (Some c) (xk x)) a = Ok tt (k', a') -> kstep kend kdata who x (XMem k' (xp x))
| kstep_sched i x a b k' a' : Spec.run present (sched_visit i) (xk x) a = Ok b (k', a') -> kstep kend kdata who x (XMem k' (xp x))
| kstep_user x c p t s : procs (xk x) !! c = Some p -> state p = RUNNING -> kstep kend kdata who x (XMem (set_procs (alter (set_tf t) c (procs (xk x))) (xk x)) s).

Lemma inv_enters x c p : procs (xk x) !! c = Some p -> state p = RUNNING -> settled (xk x) -> inv c (xk (enters x c)).
Proof. intros Hp Hs [Ht Hf]. split; [|done]. split; [done|]. split; [done|]. exists p. split; [done|]. unfold dead. by rewrite Hs. Qed.
(** [exit] does not come back. *)
Lemma exit_no_return x (Q : sysret -> xmem -> Prop) : wpx present (plain sys_exit) Q (fun _ => True) x.
Proof.
  apply wpx_on_k. apply wp_bind. unfold sys_exit. apply wp_bind. intros a.
  destruct (Spec.run present exit (xk x) a) as [v [k' a']|m s|[k' a']|s]; [|done..]. by apply wp_sleep.
Qed.
Lemma settled_step kend kdata who x x' : kstep kend kdata who x x' -> settled (xk x) -> settled (xk x').
Proof.
  intros H Hx. destruct H as [umem ticks beyond x c p a w x' a' Hp Hs _ E|umem ticks beyond x c p a x' a' Hp Hs _ Hn E|x c p a k' a' Hp Hs _ E|i x a b k' a' E|x c p t s Hp Hs].
  - pose proof (inv_enters _ _ _ Hp Hs Hx) as Hi.
    pose proof (wpx_syscall umem kend kdata ticks beyond c _ (inv c) (fun _ => True) _ (enters x c) p (fun _ _ => I) Hi Hp) as HW.
    eapply inv_settled. specialize (fun H => HW H a). rewrite E in HW. apply HW. intros call Hcall.
    destruct (decide (s32 (tf_eax (tf p)) = 2)) as [E2|Hn].
    + rewrite E2 in Hcall. injection Hcall as <-. apply exit_no_return.
    + eapply wpx_mono; [eapply (inv_call umem kend kdata ticks beyond c _ call Hcall Hn _ Hi)|done|done].
  - pose proof (inv_enters _ _ _ Hp Hs Hx) as Hi.
    pose proof (wpx_syscall umem kend kdata ticks beyond c _ (inv c) (inv c) _ (enters x c) p (fun _ H => H) Hi Hp) as HW.
    eapply inv_settled. specialize (fun H => HW H a). rewrite E in HW. apply HW. intros call Hcall.
    exact (inv_call umem kend kdata ticks beyond c _ call Hcall Hn _ Hi).
  - pose proof (settled_exit present c _ (inv_enters _ _ _ Hp Hs Hx) a) as HW. cbn [enters xk] in HW. by rewrite E in HW.
  - pose proof (settled_sched_visit present i (xk x) Hx a) as HW. by rewrite E in HW.
  - by apply settled_alter.
Qed.

(** C12: from a kernel with no open files, after any sequence of system calls by
    running processes, exits and visits of the scheduler, whatever is in the
    processes' memories and on the drives: each file's reference count is the
    number of descriptors of all processes that name it, and a file without one
    has no type; every process has its table of descriptors, no descriptor names
    a slot outside the file table, and a dead process has none open. *)
Theorem file_refcounts kend kdata x0 x :
  (forall f, f ∈ ftab (xk x0) -> f_ref f = 0 /\ f_type f = FD_NONE) ->
  (forall p, p ∈ procs (xk x0) -> ofile p = replicate NOFILE None) ->
  rtc (kstep kend kdata (fun _ => True)) x0 x ->
  (forall i f, ftab (xk x) !! i = Some f -> f_ref f = Z.of_nat (fdcounts i (ofile <$> procs (xk x))) /\ (f_ref f = 0 -> f_type f = FD_NONE)) /\
  (forall p, p ∈ procs (xk x) -> length (ofile p) = NOFILE /\ (forall i, Some i ∈ ofile p -> (i < length (ftab (xk x)))%nat) /\
     (dead p = true -> ofile p = replicate NOFILE None)).
Proof.
  intros Hf Hp HS. assert (settled (xk x)) as [Ht [R1 R2 R3]].
  { assert (settled (xk x0)) as H0.
    { split; [|apply fd_ok_none; [done|intros p o Hin Ho; rewrite (Hp p Hin) in Ho; by apply elem_of_replicate in Ho as [-> _]]].
      intros j p Hj. apply list_elem_of_lookup_2, Hp in Hj. unfold no_fds. rewrite Hj, length_replicate. split; [done|]. intros _ o Ho.
      by apply elem_of_replicate in Ho as [-> _]. }
    clear Hf Hp. induction HS as [|x0 x1 x2 H01 _ IH]; [done|]. apply IH. by eapply settled_step. }
  cbn [fdview fst snd] in *. split.
  - intros i f Hi. specialize (R1 i (f_ref f) (f_type f)). specialize (R2 i (f_ref f) (f_type f)). rewrite list_lookup_fmap, Hi in R1, R2. auto.
  - intros p Hin. pose proof Hin as [j Hj]%list_elem_of_lookup. destruct (Ht j p Hj) as [L N]. split; [done|]. split.
    + intros i Hi. specialize (R3 (ofile p) i). rewrite length_fmap in R3. apply R3; [|done]. by apply list_elem_of_fmap_2.
    + intros D. apply list_eq. intros fd.
      destruct (decide (fd < NOFILE)%nat) as [Hlt|Hge]; [|rewrite !lookup_ge_None_2; [done|rewrite length_replicate; lia|rewrite L; lia]].
      rewrite lookup_replicate_2 by done. destruct (lookup_lt_is_Some_2 (ofile p) fd) as [o Ho]; [by rewrite L|]. rewrite Ho.
      by rewrite (N D o (list_elem_of_lookup_2 _ _ _ Ho)).
Qed.
End calls.

Lemma kstep_mono present dr dw kend kdata (who who' : proc -> Prop) x x' : (forall p, who p -> who' p) -> kstep present dr dw kend kdata who x x' -> kstep present dr dw kend kdata who' x x'.
Proof. intros H []; [eapply kstep_ret|eapply kstep_sleep|eapply kstep_exit|eapply kstep_sched|eapply kstep_user]; eauto. Qed.

(** ** Error strings *)

Lemma bytes_of_string bs : Forall (fun b => 0 <= b < 256) bs -> bytes_of (string_of bs) = bs.
Proof.
  unfold bytes_of, string_of. rewrite String.list_ascii_of_string_of_list_ascii. induction 1 as [|b bs Hb _ IH]; [done|]. rewrite !fmap_cons, IH.
  f_equal.
  rewrite Ascii.N_ascii_embedding by lia. lia.
Qed.
Lemma err_text_user bs : Forall (fun b => 0 <= b < 256) bs -> err_text (user_mark ++ string_of bs) = bs.
Proof.
  intros H. unfold err_text.
  assert (String.prefix user_mark (user_mark ++ string_of bs) = true) as -> by (apply String.prefix_correct; cbn; by destruct (string_of bs)).
  by apply bytes_of_string.
Qed.

(** What a process writes as its error string it reads back: a message of [n]
    bytes is cut to 255, and a read for [m] bytes gets its first [m - 1], padded
    with zeros, and a terminator; the read clears the mark that there is an
    error. *)
Theorem errstr_round_trip present beyond k a c p buf n m :
  cur k = Some c -> procs k !! c = Some p -> Forall (fun b => 0 <= b < 256) buf -> 0 <= n -> 1 <= m <= ERRMAX + 1 ->
  exists k' q, Spec.run present (werrstr buf n ;; rerrstr beyond m) k a =
      Ok (0, take (Z.to_nat (m - 1)) (take (Z.to_nat (Z.min n (ERRMAX - 1))) buf ++ replicate 256 0) ++ [0]) (k', a) /\
    procs k' !! c = Some q /\ errset q = false.
Proof.
  intros Hc Hp Hb Hn Hm. unfold ERRMAX in *.
  assert ((if ERRMAX <=? n then ERRMAX - 1 else n) = Z.min n 255) as En by (unfold ERRMAX; destruct (Z.leb_spec 256 n); lia).
  unfold werrstr. rewrite En. rewrite (proj2 (Z.ltb_ge _ 0)) by lia. set (bs := take (Z.to_nat (Z.min n 255)) buf).
  rewrite Spec.run_bind, (run_curproc present c) by done. rewrite run_upd_proc. cbn [Spec.run mret prog_ret]. unfold rerrstr.
  rewrite (run_curproc present c) by done. set (k1 := with_proc _ _ k).
  set (p1 := set_err (Some (user_mark ++ string_of bs)%string) p). assert (procs k1 !! c = Some p1) as Hp1 by (by apply with_proc_lookup).
  rewrite (run_proc_at present c p1) by done.
  rewrite (proj2 (Z.eqb_neq _ _)), (proj2 (Z.ltb_ge m 0)) by lia. rewrite run_upd_proc. cbn [Spec.run mret prog_ret].
  assert (Forall (fun b => 0 <= b < 256) bs) as Hbs by (by apply Forall_take).
  assert (length bs <= 255)%nat as Hl by (unfold bs; rewrite length_take; lia).
  assert (errstr_on beyond p1 (Z.to_nat (m - 1)) = take (Z.to_nat (m - 1)) (bs ++ replicate 256 0)) as ->.
  { unfold errstr_on. assert (errstr p1 = take 256 (bs ++ replicate 256 0)) as -> by (unfold errstr; cbn [err p1 set_err]; by rewrite err_text_user).
    rewrite take_app_le by (rewrite length_take, length_app, length_replicate; lia). by rewrite take_take, Nat.min_l by lia. }
  eexists _, _. split; [reflexivity|]. split; [by apply with_proc_lookup|done].
Qed.

(** ** A concrete run *)
Module DispatchSample.
Import FileSample SysSample AllocSample.

(** Processes 0, of user 500, and 1, a superuser. *)
Definition boot : xmem := XMem (set_procs [set_uid 500 caller; set_uid (-1) (set_sid (-1) (set_pid 2 caller)); proc_zero]
  (set_nextpid 3 (set_ftab (replicate 4 file_zero) kmem1))) two_pages.
Definition trapframe1 (num : Z) : trapframe := {| tf_eax := num; tf_esp := 0; tf_eip := 0 |}.
Definition user (c : nat) (num : Z) (x : xmem) : xmem := XMem (set_procs (alter (set_tf (trapframe1 num)) c (procs (xk x))) (xk x)) (xp x).
Definition call (c : nat) (l : list Z) (x : xmem) : xmem :=
  match Spec.run Concrete.only0 (syscall no_dev no_dev (args l) 0 0 0 (fun _ => 0)) (enters x c) Sample.drive0 with Ok _ (x', _) => x' | _ => x end.
Definition visit (i : nat) (x : xmem) : xmem :=
  match Spec.run Concrete.only0 (sched_visit i) (xk x) Sample.drive0 with Ok _ (k', _) => XMem k' (xp x) | _ => x end.
(** Process 0 makes a pipe and forks; the child runs and closes descriptor 0. *)
Definition after : xmem := call 2 [0] (user 2 21 (visit 2 (call 0 [] (user 0 1 (call 0 [16] (user 0 4 boot)))))).
Example after_fds : ofile <$> procs (xk after) =
  [Some 0%nat :: Some 1%nat :: replicate 14 None; replicate 16 None; None :: Some 1%nat :: replicate 14 None] /\
  f_ref <$> ftab (xk after) = [1; 2; 0; 0].
Proof. vm_compute. split; reflexivity. Qed.
Definition by_500 (p : proc) : Prop := uid p = 500 /\ s32 (tf_eax (tf p)) <> 23.
Abbreviation step := (kstep Concrete.only0 no_dev no_dev 0 0 by_500).
Definition running (c : nat) (x : xmem) (f : proc -> bool) : bool := match procs (xk x) !! c with Some p => bool_decide (state p = RUNNING) && f p | None => false end.
Definition returns {A S} (o : res S A) : bool := match o with Ok _ _ => true | _ => false end.
Lemma running_spec c x f : running c x f = true -> exists p, procs (xk x) !! c = Some p /\ state p = RUNNING /\ f p = true.
Proof. unfold running. destruct (procs (xk x) !! c) as [p|]; [|done]. intros [E H]%andb_true_iff. apply bool_decide_eq_true in E. eauto. Qed.
Lemma user_step c num x : running c x (fun _ => true) = true -> step x (user c num x).
Proof. intros (p & Hp & Hs & _)%running_spec. by apply (kstep_user _ _ _ _ _ _ x c p). Qed.
Lemma call_step c l x : running c x (fun p => (uid p =? 500) && negb (s32 (tf_eax (tf p)) =? 23)) = true ->
  returns (Spec.run Concrete.only0 (syscall no_dev no_dev (args l) 0 0 0 (fun _ => 0)) (enters x c) Sample.drive0) = true -> step x (call c l x).
Proof.
  intros (p & Hp & Hs & [Hu Hn]%andb_true_iff)%running_spec HR. unfold call. destruct (Spec.run _ _ _ _) as [w [x' a']| | |] eqn:E; [|done..].
  apply (kstep_ret _ _ _ _ _ _ (args l) 0 (fun _ => 0) x c p Sample.drive0 w _ a'); [done|done| |done]. split; [by apply Z.eqb_eq|].
  by apply negb_true_iff, Z.eqb_neq in Hn.
Qed.
Lemma visit_step i x : returns (Spec.run Concrete.only0 (sched_visit i) (xk x) Sample.drive0) = true -> step x (visit i x).
Proof.
  intros HR. unfold visit. destruct (Spec.run _ _ _ _) as [b [k' a']| | |] eqn:E; [|done..].
  by apply (kstep_sched _ _ _ _ _ _ i x Sample.drive0 b k' a').
Qed.
Lemma after_steps : rtc step boot after.
Proof.
  unfold after. eapply rtc_l; [apply (user_step 0 4)|eapply rtc_l; [apply (call_step 0 [16])|eapply rtc_l; [apply (user_step 0 1)|eapply rtc_l; [apply (call_step 0 [])|
    eapply rtc_l; [apply (visit_step 2)|eapply rtc_l; [apply (user_step 2 21)|apply rtc_once, (call_step 2 [0])]]]]]].
  all: vm_compute; reflexivity.
Qed.

Lemma errstr_round_trip_witness : exists k' q,
  Spec.run Concrete.only0 (werrstr [111; 111; 112; 115] 4 ;; rerrstr (fun _ => 0) 4) (xk boot) Sample.drive0 =
    Ok (0, take 3 (take 4 [111; 111; 112; 115] ++ replicate 256 0) ++ [0]) (k', Sample.drive0) /\
  procs k' !! 0%nat = Some q /\ errset q = false.
Proof.
  apply (errstr_round_trip Concrete.only0 (fun _ => 0) (xk boot) Sample.drive0 0 (set_uid 500 caller) [111; 111; 112; 115] 4 4); [reflexivity|reflexivity| |lia|unfold ERRMAX; lia].
  repeat constructor; lia.
Defined.
(** A read for more bytes than the string has gets the process's other fields
    too: here byte 385 after the start, which is past its name. *)
Example errstr_leaks : match Spec.run Concrete.only0 (rerrstr (fun i => 1000 + Z.of_nat i) 387) (xk boot) Sample.drive0 with
  | Ok (_, bs) _ => bs !! 385%nat = Some 1000 | _ => False end.
Proof. vm_compute. reflexivity. Qed.
(** A process in a jail makes a child that is not in one. *)
Example fork_leaves_jail : injail <$> procs (xk (call 0 [] (user 0 1 (XMem (set_procs (alter (set_injail true) 0%nat (procs (xk boot))) (xk boot)) (xp boot))))) = [true; false; false].
Proof. vm_compute. reflexivity. Qed.

Lemma file_refcounts_witness :
  (forall i f, ftab (xk after) !! i = Some f -> f_ref f = Z.of_nat (fdcounts i (ofile <$> procs (xk after))) /\ (f_ref f = 0 -> f_type f = FD_NONE)) /\
  (forall p, p ∈ procs (xk after) -> length (ofile p) = NOFILE /\ (forall i, Some i ∈ ofile p -> (i < length (ftab (xk after)))%nat) /\
     (dead p = true -> ofile p = replicate NOFILE None)).
Proof.
  apply (file_refcounts Concrete.only0 no_dev no_dev 0 0 boot after).
  - intros f Hf. apply elem_of_replicate in Hf as [-> _]. split; reflexivity.
  - intros p Hp. cbn [boot xk procs set_procs] in Hp. repeat (apply elem_of_cons in Hp as [->|Hp]; [reflexivity|]). by apply not_elem_of_nil in Hp.
  - eapply rtc_subrel; [|exact after_steps]. intros x x'. by apply kstep_mono.
Defined.
End DispatchSample.
