(* ===== verification/Privilege.v ===== *)
(** Users: in multi-user mode, who a process can become by system calls, and that
    nobody becomes a superuser of the machine. *)

From S2P Require Import Prelude Params CString Bio Disk Log Fs FsOps Kernel File Proc Wp Syscall SyscallFacts Alloc Vm Exec Dispatch Steady DispatchFacts.
Import BlockIO.

(** A process that may run, now or later. *)
Definition runs (p : proc) : bool := negb (dead p) && negb (bool_decide (state p = EMBRYO)).
Definition same_user (p q : proc) : Prop := uid p = uid q /\ sid p = sid q.

(** What may come of a process [m]: the same user of the same system; whoever it
    likes of another system, when it is of the global one and calls [chsystem];
    and whoever it likes of its own system, when it is a superuser there. *)
Definition descends (p m : proc) : Prop :=
  same_user p m \/ (sid m = -1 /\ 0 <= sid p) \/ (uid m = -1 /\ sid m <> -1 /\ sid p = sid m).
(** The superusers of the machine. *)
Definition machine_user (p : proc) : Prop := uid p = -1 /\ sid p = -1.

(** Everybody in [k] that may run is somebody of [k0], or came of [me]. *)
Definition as_me (p : proc) (me : option proc) : Prop := match me with Some m => descends p m | None => False end.
Definition from (k0 : kmem) (me : option proc) (k : kmem) : Prop := singleuser k = false /\
  forall j p, procs k !! j = Some p -> runs p = true -> (exists p0, procs k0 !! j = Some p0 /\ runs p0 = true /\ same_user p p0) \/ as_me p me.
(** During a call of process [c0], which runs as [me]. *)
Definition held (c0 : nat) (k0 : kmem) (me : proc) (k : kmem) : Prop :=
  cur k = Some c0 /\ from k0 (Some me) k /\ exists p, procs k !! c0 = Some p /\ dead p = false /\ descends p me.

Lemma runs_state p q : state p = state q -> runs p = runs q.
Proof. unfold runs, dead. by intros ->. Qed.
Lemma runs_dead p : runs p = true -> dead p = false.
Proof. unfold runs. by destruct (dead p). Qed.

Lemma same_user_trans p q r : same_user p q -> same_user q r -> same_user p r.
Proof. unfold same_user. intros [-> ->] [-> ->]. done. Qed.
Lemma descends_refl p : descends p p.
Proof. by left. Qed.
Lemma descends_same p q m : same_user p q -> descends q m -> descends p m.
Proof. unfold descends, same_user. intros [-> ->]. done. Qed.
Lemma descends_trans p q m : descends p q -> descends q m -> descends p m.
Proof.
  unfold descends, same_user. intros [[-> ->]|[[H1 H2]|(H1 & H2 & H3)]]; [done| |]; intros [[G1 G2]|[[G1 G2]|(G1 & G2 & G3)]].
  - right. left. split; [congruence|done].
  - lia.
  - congruence.
  - right. right. split_and!; congruence.
  - right. left. split; [done|lia].
  - right. right. split_and!; congruence.
Qed.
Lemma from_alter k0 me i g k : (forall p, procs k !! i = Some p -> runs (g p) = true -> (runs p = true /\ same_user (g p) p) \/ as_me (g p) me) -> from k0 me k ->
  from k0 me (set_procs (alter g i (procs k)) k).
Proof.
  intros Hg [Hs Hk]. split; [done|]. intros j q. cbn [set_procs procs]. intros [[_ Hq]|[-> (p & Hp & ->)]]%alter_inv R; [by eapply Hk|].
  destruct (Hg p Hp R) as [[R' E]|H]; [|by right].
  destruct (Hk i p Hp R') as [(p0 & H0 & R0 & E')|E']; [left; exists p0; eauto using same_user_trans|right].
  destruct me as [m|]; [|done]. by eapply descends_same.
Qed.

Section users.
Context (present : Z -> bool) (c0 : nat) (k0 : kmem) (me : proc).
Abbreviation held' := (held c0 k0 me).

(** Updates of processes, and of the caller to what may come of it. *)
Lemma held_alter' i g k : (forall p, procs k !! i = Some p -> i <> c0 -> runs (g p) = true -> (runs p = true /\ same_user (g p) p) \/ descends (g p) me) ->
  (forall p, procs k !! i = Some p -> i = c0 -> dead p = false -> descends p me -> dead (g p) = false /\ descends (g p) me) -> held' k -> held' (set_procs (alter g i (procs k)) k).
Proof.
  intros Hg Hc (Hcu & Hf & p & Hp & Hd & Hm). assert (i = c0 -> dead (g p) = false /\ descends (g p) me) as Hme by (intros ->; by apply Hc).
  split; [done|]. split.
  - apply from_alter; [|done]. intros q Hq R. destruct (decide (i = c0)) as [E|Hne]; [|by apply Hg]. right. subst i. rewrite Hp in Hq.
    injection Hq as <-. by apply Hme.
  - cbn [set_procs procs]. destruct (decide (i = c0)) as [->|Hne]; [|exists p; by rewrite list_lookup_alter_ne by done]. exists (g p).
    rewrite list_lookup_alter_eq, Hp. split; [done|]. by apply Hme.
Qed.
(** An update that does not move the caller to another user. *)
Lemma held_alter i g k : (forall p, procs k !! i = Some p -> i <> c0 -> runs (g p) = true -> (runs p = true /\ same_user (g p) p) \/ descends (g p) me) ->
  (forall p, procs k !! i = Some p -> i = c0 -> dead p = false -> dead (g p) = false /\ same_user (g p) p) -> held' k -> held' (set_procs (alter g i (procs k)) k).
Proof.
  intros Hg Hc. apply held_alter'; [done|]. intros p Hp Hi Hd Hm. destruct (Hc p Hp Hi Hd) as [D E]. split; [done|]. by eapply descends_same.
Qed.
(** Updates that keep users and do not bring anybody to life. *)
Lemma held_upd i g k : (forall p, procs k !! i = Some p -> same_user (g p) p /\ (runs (g p) = true -> runs p = true) /\ (dead p = false -> dead (g p) = false)) -> held' k -> held' (set_procs (alter g i (procs k)) k).
Proof. intros H. apply held_alter; [intros p Hp _ R; left|intros p Hp _ D]; destruct (H p Hp) as (? & ? & ?); auto. Qed.
Lemma wake_user c q : runs (wake c q) = runs q /\ dead (wake c q) = dead q /\ same_user (wake c q) q.
Proof.
  unfold wake. destruct (bool_decide (state q = SLEEPING)) eqn:E; cbn [andb]; [|done]. apply bool_decide_eq_true in E.
  destruct (bool_decide _); [|done]. unfold runs, dead. by rewrite E.
Qed.
#[local] Instance held_steady : Steady c0 True held'.
Proof.
  split; try (intros; done).
  - by intros k [? _].
  - intros c k (Hcu & [Hs Hf] & p & Hp & Hd & Hm). split; [done|]. split; [split; [done|]|].
    + intros j q. cbn [set_procs procs]. rewrite list_lookup_fmap. destruct (procs k !! j) as [q0|] eqn:E; [|done]. intros [= <-].
      destruct (wake_user c q0) as (-> & _ & [E1 E2]). unfold as_me, descends, same_user. rewrite E1, E2. by apply Hf.
    + exists (wake c p). cbn [set_procs procs]. rewrite list_lookup_fmap, Hp. split; [done|]. destruct (wake_user c p) as (_ & -> & [E1 E2]).
      split; [done|]. by eapply descends_same.
  - intros i g k Hg. apply held_upd. intros p _. destruct (Hg p) as (E1 & E2 & _ & Es). by rewrite (runs_state (g p) p Es), (dead_state (g p) p Es).
  - intros g k Hg _. apply held_alter; [done|]. intros p _ _ D. destruct (Hg p) as (E1 & E2 & _ & Ed). split; [|done]. destruct (dead (g p)); [|done].
    by rewrite Ed in D.
  - intros i p k Hp Hs. apply held_upd. intros q Hq. rewrite Hp in Hq. injection Hq as <-. split; [done|]. split; [|done]. intros _.
    unfold runs, dead. by destruct Hs as [-> | ->].
Qed.

Abbreviation any := (fun _ : kmem => True).
(** The new process of a call came of the caller. *)
Definition child (np : nat) (k : kmem) : Prop := held' k /\ forall q, procs k !! np = Some q -> descends q me.
Lemma child_upd np i g k : (forall p, same_user (g p) p /\ (dead p = false -> dead (g p) = false)) -> (i = np \/ forall p, runs (g p) = true -> runs p = true) -> child np k -> child np (set_procs (alter g i (procs k)) k).
Proof.
  intros Hg Hr [Hk Hq]. split.
  - revert Hk. apply held_alter; [|intros p _ _ D; destruct (Hg p); auto]. intros p Hp _ R. destruct Hr as [->|Hr]; [|left; split; [auto|apply Hg]].
    right. eapply descends_same; [apply Hg|by apply Hq].
  - cbn [set_procs procs]. intros q [[_ H]|[-> (p & Hp & ->)]]%alter_inv; [auto|]. eapply descends_same; [apply Hg|by apply Hq].
Qed.
#[local] Instance child_steady np : Steady c0 True (child np).
Proof.
  pose proof held_steady as SH.
  assert (forall f k, (forall k, procs (f k) = procs k) -> (held' k -> held' (f k)) -> child np k -> child np (f k)) as HS.
  { intros f k Ef Hi [Hk Hq]. split; [auto|]. by rewrite Ef. }
  split.
  - intros k [Hk _]. by apply Hk.
  - intros x k. apply (HS (set_fs x)); [done|]. apply (sd_fs (Steady:=SH)).
  - intros x k _. apply (HS (set_ftab x)); [done|]. by apply (sd_ftab (Steady:=SH)).
  - intros i g k Hg. apply (HS (fun k => set_ftab (alter g i (ftab k)) k)); [done|]. by apply (sd_file (Steady:=SH)).
  - intros x k. apply (HS (set_pipes x)); [done|]. apply (sd_pipes (Steady:=SH)).
  - intros x k. apply (HS (set_msgs x)); [done|]. apply (sd_msgs (Steady:=SH)).
  - intros x k. apply (HS (set_fresh x)); [done|]. apply (sd_fresh (Steady:=SH)).
  - intros x k. apply (HS (set_oracle x)); [done|]. apply (sd_oracle (Steady:=SH)).
  - intros x k. apply (HS (set_nextpid x)); [done|]. apply (sd_nextpid (Steady:=SH)).
  - intros c k [Hk Hq]. split; [by apply (sd_wake (Steady:=SH))|]. intros q. cbn [set_procs procs]. rewrite list_lookup_fmap.
    destruct (procs k !! np) as [q0|]; [|done]. intros [= <-].
    eapply descends_same; [apply wake_user|by apply Hq].
  - intros i g k Hg. apply child_upd; [|right]; intros p; destruct (Hg p) as (E1 & E2 & _ & Es); [by rewrite (dead_state (g p) p Es)|by rewrite (runs_state (g p) p Es)].
  - intros g k Hg _ [Hk Hq]. split; [apply (sd_gentle (Steady:=SH)); auto|]. cbn [set_procs procs].
    intros q [[_ H]|[-> (p & Hp & ->)]]%alter_inv; [auto|]. destruct (Hg p) as (E1 & E2 & _). eapply descends_same; [|by apply Hq]. by split.
  - intros i p k Hp Hs [Hk Hq]. split; [by apply (sd_rouse (Steady:=SH) i p)|]. cbn [set_procs procs].
    intros q [[_ H]|[-> (p' & Hp' & ->)]]%alter_inv; [auto|]. by apply Hq in Hp'.
Qed.

Section kept.
Context (R : kmem -> Prop) (HR : forall k, held' k -> R k).
Lemma child_R np k : child np k -> R k.
Proof. intros [Hk _]. by apply HR. Qed.
Abbreviation hstays := (stays present held' R).
Lemma held_dead i g k : (forall p, runs (g p) = false) -> i <> c0 -> held' k -> held' (set_procs (alter g i (procs k)) k).
Proof. intros Hg Hne. apply held_alter; [|done]. intros p _ _ H. by rewrite Hg in H. Qed.
Lemma held_allocproc k : held' k -> wp present allocproc (fun o k' => held' k' /\ o <> Some c0) R k.
Proof.
  pose proof held_steady as SH. unfold allocproc, kscan. intros Hk. apply wp_bind, wp_kget.
  destruct (scan is_unused (procs k)) as [[i p]|] eqn:E; [|by apply wp_ret].
  apply scan_Some in E as (Hi & Hu & _). unfold is_unused in Hu. apply bool_decide_eq_true in Hu. pose proof Hk as (_ & _ & p0 & Hp0 & Hd0 & _).
  assert (i <> c0) as Hne by (intros ->; rewrite Hp0 in Hi; injection Hi as ->; unfold dead in Hd0; by rewrite Hu in Hd0).
  apply wp_bind, wp_kget, wp_bind, wp_kset, wp_bind, wp_kset. set (k1 := set_procs _ _). assert (held' k1) as H1 by (by apply held_dead).
  eapply (wp_then present held' R); [by eapply stays_alloc|exact H1|]. intros ok k2 H2. destruct ok; cbn [negb].
  - eapply (wp_then present held' R); [stays|exact H2|]. intros v k3 H3. eapply (wp_then present held' R); [unfold initmailbox; stays|exact H3|].
    intros v4 k4 H4. apply wp_ret. split; [done|congruence].
  - apply wp_bind, wp_kset, wp_ret. split; [by apply held_dead|done].
Qed.
(** Copying descriptors and directories. *)
Lemma child_dup_fd np fd : stays present (child np) R (dup_fd c0 np fd).
Proof.
  pose proof (child_steady np) as SC. pose proof (child_R np) as CR.
  assert (forall i, stays present (child np) R (filedup i)) as HF by (intros i; by eapply (st_filedup present c0 True)).
  unfold dup_fd. stays; eapply stays_kset; intros k; (apply child_upd; [done|by right]).
Qed.
Lemma child_dup_dirs np : stays present (child np) R (dup_dirs c0 np).
Proof. pose proof (child_steady np) as SC. pose proof (child_R np) as CR. unfold dup_dirs. stays. Qed.
#[local] Hint Resolve child_dup_fd child_dup_dirs : stays.
(** The update that gives the new process the caller's user. *)
Lemma child_born np g k : np <> c0 -> (forall q, descends (g q) me) -> held' k -> child np (set_procs (alter g np (procs k)) k).
Proof.
  intros Hne Hg Hk. split; [revert Hk; apply held_alter; [auto|done]|]. cbn [set_procs procs].
  intros q [[? _]|[_ (p & _ & ->)]]%alter_inv; [done|apply Hg].
Qed.
Lemma held_me k p : held' k -> procs k !! c0 = Some p -> descends p me.
Proof. intros (_ & _ & q & Hq & _ & H) Hp. rewrite Hp in Hq. by injection Hq as ->. Qed.
Lemma wp_child {A} np (p : K A) k : stays present (child np) R p -> child np k -> wp present p (fun _ => held') R k.
Proof. intros Hp Hk. eapply wp_mono; [by apply Hp|by intros ? ? []|done]. Qed.
#[local] Ltac child_stays np := pose proof (child_steady np); pose proof (child_R np); stays; try (eapply stays_kset; intros ?; apply child_upd; [done|by left]).
Lemma held_fork : hstays fork.
Proof.
  pose proof held_steady as SH. unfold fork. eapply stays_curproc; [exact SH|]. intros k Hk. apply wp_bind.
  eapply wp_mono; [by apply held_allocproc| |done]. intros [np|] k1 [H1 Hne].
  2:{ revert k1 H1 Hne. assert (hstays (seterr "EPFORKNP" ;; mret (-1))) as HS by stays. intros k1 H1 _. by apply HS. }
  assert (np <> c0) as Hnp by congruence. eapply (wp_then present held' R); [by eapply stays_alloc|exact H1|]. intros ok k2 H2.
  destruct ok; cbn [negb].
  - eapply (wp_then present held' R); [by eapply stays_new_addr|exact H2|]. intros pg k3 H3. apply wp_bind, wp_proc_at. intros p Hp.
    apply wp_bind, wp_kset.
    pose proof (held_me _ _ H3 Hp) as Hm. eapply wp_child; [|by apply child_born; [|intros q; apply (descends_same _ p)|]]. child_stays np.
  - apply wp_bind, wp_kset. assert (hstays (seterr "EPFORKNS" ;; mret (-1))) as HS by stays. apply HS. by apply held_dead.
Qed.
Lemma held_clone stack : hstays (clone stack).
Proof.
  pose proof held_steady as SH. unfold clone. eapply stays_curproc; [exact SH|]. apply stays_bind; [stays|intros at_]. destruct (negb at_); [stays|].
  apply stays_bind; [stays|intros uc]. destruct (negb uc); [stays|].
  intros k Hk. apply wp_bind, wp_proc_at. intros p Hp. destruct (_ <=? _).
  { assert (hstays (seterr "EP2MANYT" ;; mret (-1))) as HS by stays. by apply HS. }
  pose proof (held_me _ _ Hk Hp) as Hm. apply wp_bind. eapply wp_mono; [by apply held_allocproc| |done]. intros [np|] k1 [H1 Hne].
  2:{ assert (hstays (seterr "EPCLONENP" ;; mret (-1))) as HS by stays. by apply HS. }
  assert (np <> c0) as Hnp by congruence. cbv zeta. apply wp_bind, wp_kset.
  eapply wp_child; [|by apply child_born; [|intros q; apply (descends_same _ p)|]].
  unfold addchild. child_stays np.
Qed.
Lemma held_wait1 : hstays wait1.
Proof.
  pose proof held_steady as SH. unfold wait1. eapply stays_curproc; [exact SH|]. intros k Hk. apply wp_bind. unfold kscan. apply wp_kget.
  destruct (scan (zombie_child c0) (procs k)) as [[i p]|] eqn:E.
  - apply scan_Some in E as (Hi & Hz & _). unfold zombie_child in Hz. apply andb_true_iff in Hz as [[_ Hz]%andb_true_iff _].
    apply bool_decide_eq_true in Hz.
    pose proof Hk as (_ & _ & p0 & Hp0 & Hd0 & _).
    assert (i <> c0) as Hne by (intros ->; rewrite Hp0 in Hi; injection Hi as ->; unfold dead in Hd0; by rewrite Hz in Hd0).
    destruct (crashed p); apply wp_bind, wp_kset, wp_ret; by apply held_dead.
  - clear E. revert k Hk. match goal with |- forall k, _ -> wp _ ?p _ _ _ => change (hstays p) end. stays.
Qed.
Lemma held_wait_all fuel : hstays (wait_all fuel).
Proof. pose proof held_steady as SH. pose proof held_wait1 as HW. induction fuel as [|fuel IH]; cbn [wait_all]; stays. Qed.
Lemma held_exit_files : hstays (exit_files c0).
Proof.
  pose proof held_steady as SH. pose proof (held_wait_all (S NPROC)) as HW.
  assert (forall i, stays present held' R (fileclose i)) as HF by (intros i; by eapply (st_fileclose present c0 True)).
  unfold exit_files, close_fd, dev_of, kill_thread.
  stays; (eapply (stays_upd_fds present c0 True); [exact SH|done|]; intros q; cbn; by rewrite length_insert).
Qed.
Lemma held_self g k : (forall p, dead (g p) = dead p) -> (forall p, descends p me -> procs k !! c0 = Some p -> descends (g p) me) -> held' k -> held' (set_procs (alter g c0 (procs k)) k).
Proof. intros Hd Hg. apply held_alter'; [done|]. intros p Hp _ D Hm. rewrite Hd. split; [done|]. by apply Hg. Qed.
(** What the caller may make of itself. *)
Lemma held_chuser u : ~ machine_user me -> hstays (chuser u).
Proof.
  intros Hu k Hk. unfold chuser. apply wp_bind, wp_kget. pose proof Hk as (_ & [-> _] & _). apply wp_bind, wp_curproc. intros c Hc.
  pose proof Hk as (Hcu & _). rewrite Hcu in Hc. injection Hc as <-. apply wp_bind, wp_proc_at. intros p Hp.
  destruct (Z.eqb_spec (uid p) (-1)) as [E|E]; cbn [andb]; [|by apply wp_ret]. destruct (-1 <=? u); [|by apply wp_ret].
  apply wp_bind, wp_kset, wp_ret. apply held_self; [done| |done]. intros q Hq Hp'. rewrite Hp in Hp'. injection Hp' as <-.
  unfold descends, same_user in *. cbn.
  destruct Hq as [[E1 E2]|[?|(? & ? & ?)]]; [|by right; left|by right; right]. right. right.
  split; [congruence|]. split; [|done]. intros E3. apply Hu. split; congruence.
Qed.
Lemma held_chsystem u : hstays (chsystem u).
Proof.
  intros k Hk. unfold chsystem. apply wp_bind, wp_kget. pose proof Hk as (_ & [-> _] & _). apply wp_bind, wp_curproc. intros c Hc.
  pose proof Hk as (Hcu & _). rewrite Hcu in Hc. injection Hc as <-. apply wp_bind, wp_proc_at. intros p Hp.
  destruct (Z.eqb_spec (sid p) (-1)) as [E|E]; cbn [andb]; [|by apply wp_ret]. destruct (Z.leb_spec 0 u) as [H0|]; [|by apply wp_ret].
  apply wp_bind, wp_kset, wp_ret. apply held_self; [done| |done]. intros q Hq Hp'. rewrite Hp in Hp'. injection Hp' as <-.
  unfold descends, same_user in *. cbn.
  destruct Hq as [[E1 E2]|[[? ?]|(? & ? & ?)]]; [right; left; split; [congruence|done]|lia|congruence].
Qed.
Lemma held_disallow : ~ machine_user me -> hstays disallow.
Proof.
  intros Hu k Hk. unfold disallow. apply wp_bind, wp_kget. pose proof Hk as (_ & [-> _] & _). apply wp_bind, wp_curproc. intros c Hc.
  pose proof Hk as (Hcu & _). rewrite Hcu in Hc. injection Hc as <-. apply wp_bind, wp_proc_at. intros p Hp.
  assert ((uid p =? -1) && (sid p =? -1) = false) as ->; [|by apply wp_ret]. apply andb_false_iff. rewrite !Z.eqb_neq.
  destruct (decide (uid p = -1)) as [E1|]; [right; intros E2|by left].
  destruct (held_me _ _ Hk Hp) as [[F1 F2]|[[? ?]|(? & ? & ?)]]; [apply Hu; split; congruence|lia|congruence].
Qed.
End kept.

Lemma held_flush fuel c : stays present held' any (flush_loop fuel c).
Proof.
  pose proof held_steady as SH. assert (forall k, held' k -> any k) as HR by done. revert c.
  induction fuel as [|fuel IH]; intros [m|]; cbn [flush_loop]; unfold free_message; stays.
Qed.
Lemma wake_if_user o q : runs (wake_if o q) = runs q /\ same_user (wake_if o q) q.
Proof. destruct o as [j|]; [|done]. destruct (wake_user (ChProc j) q) as (? & _ & ?). done. Qed.
Lemma held_exit k : held' k -> wp present exit (fun _ => from k0 (Some me)) any k.
Proof.
  intros Hk. unfold exit. apply wp_bind, wp_curproc. intros c Hc. pose proof Hk as (Hcu & _). rewrite Hcu in Hc. injection Hc as <-.
  apply wp_bind, wp_kget. generalize (initproc k) as ini. intros ini. case_bool_decide; [apply wp_fail|].
  apply wp_bind. eapply wp_mono; [by apply (held_exit_files any)| |done]. clear k Hk Hcu H. intros v k Hk. unfold exit_table.
  apply wp_bind, wp_proc_at. intros p Hp. unfold flush_mailbox. apply wp_bind, wp_bind, wp_kget.
  eapply wp_mono; [by apply held_flush| |done]. clear k Hk Hp. intros v' k (_ & [Hs Hf] & _). apply wp_kset. split; [done|]. intros j q.
  cbn [set_procs procs]. unfold exit_procs. set (o := existsb _ _).
  intros [[_ H]|[_ (y & _ & ->)]]%alter_inv; [|by intros].
  rewrite !list_lookup_fmap in H. destruct (procs k !! j) as [x|] eqn:Hx; [|done]. injection H as <-.
  match goal with |- runs (wake_if ?a (reparent ?b ?c ?d)) = true -> _ => destruct (wake_if_user a (reparent b c d)) as [-> [U1 U2]]; set (y := reparent b c d) in * end.
  assert (runs y = runs x /\ same_user y x) as [-> [V1 V2]]. { destruct (wake_if_user (parent p) x) as [W1 [W2 W3]]. unfold y, reparent.
  by case_bool_decide. }
  unfold as_me, descends, same_user. rewrite U1, U2, V1, V2. by apply Hf.
Qed.
End users.

(** ** Any sequence of steps *)

Section steps.
Context (present : Z -> bool).
Context (devsw_read : Z -> option (nat -> Z -> Z -> prog kfs (Z * list Z))).
Context (devsw_write : Z -> option (nat -> list Z -> Z -> Z -> prog kfs Z)).

(** Every call of a caller that is not a superuser of the machine. *)
Lemma held_call umem kend kdata ticks beyond c0 k0 me num call : syscalls devsw_read devsw_write umem kend kdata ticks beyond num = Some call ->
  num <> 2 -> ~ machine_user me -> staysx present (held c0 k0 me) (held c0 k0 me) call.
Proof.
  intros E Hn Hu. set (P := held c0 k0 me). pose proof (held_steady c0 k0 me) as SH. assert (forall k, P k -> P k) as HR by done.
  destruct (on_descriptors num) eqn:Hd; [by eapply (sx_syscalls_fd present c0 True P P SH)|]. destruct (on_processes num) eqn:Hp.
  2:{ by apply (sx_syscalls present c0 True P P SH HR devsw_read devsw_write umem kend kdata ticks beyond num call E). }
  assert (forall n, stays present P P (argint umem n)) as HA by (intros n; by eapply (st_argint present c0 True)).
  pose proof (held_fork present c0 k0 me P HR). pose proof (held_clone present c0 k0 me P HR).
  pose proof (fun u => held_chuser present c0 k0 me P u Hu). pose proof (held_disallow present c0 k0 me P Hu).
  pose proof (held_chsystem present c0 k0 me P). pose proof (held_wait1 present c0 k0 me P HR).
  apply bool_decide_eq_true in Hp. rewrite !elem_of_cons in Hp.
  destruct Hp as [->|[->|[->|[->|[->|[->|[->|Hp]]]]]]]; [..|by apply not_elem_of_nil in Hp]; injection E as <-; try done.
  all: apply sx_plain; unfold sys_fork, sys_wait, wait, sys_chuser, sys_chsystem, sys_disallow, sys_clone; stays.
Qed.

(** The scheduler moves nobody to another user. *)
Lemma from_sched_visit i k k0 : from k0 None k -> wp present (sched_visit i) (fun _ => from k0 None) (fun _ => True) k.
Proof.
  intros Hk. assert (forall g k, (forall p, procs k !! i = Some p -> runs (g p) = true -> runs p = true /\ same_user (g p) p) -> from k0 None k -> from k0 None (set_procs (alter g i (procs k)) k)) as HA.
  { intros g k1 Hg. apply from_alter. intros p Hp R. left. by apply Hg. }
  unfold sched_visit. apply wp_bind, wp_proc_at. intros p Hp. apply wp_bind.
  apply wp_mono with (fun _ => from k0 None) (fun _ => True); [|clear k Hk p Hp; intros v k Hk|done].
  - case_match; [|by apply wp_ret]. apply wp_bind, wp_kset, wp_bind.
    apply wp_mono with (fun _ => from k0 None) (fun _ => True); [|clear k Hk Hp; intros v k Hk; apply wp_kset; by apply HA|done].
    destruct (parent p) as [j|]; [|apply wp_fail]. apply wp_bind. unfold removechild. apply wp_bind, wp_proc_at. intros q Hq.
    assert (from k0 None (set_procs (alter (set_kstack false) i (procs k)) k)) as H1 by (by apply HA).
    destruct (scan _ _) as [[t o]|]; [|by apply wp_ret, wp_ret].
    apply wp_bind, wp_kset, wp_ret, wp_ret, from_alter; [|done]. intros r _ R. by left.
  - apply wp_bind, wp_proc_at. intros p Hp. apply wp_bind, wp_kget. destruct (_ && _); [by apply wp_ret|]. apply wp_bind, wp_kget.
    destruct (_ && _); [by apply wp_ret|].
    destruct (bool_decide (state p = RUNNABLE)) eqn:Er; cbn [negb].
    + apply bool_decide_eq_true in Er. apply wp_bind, wp_kset, wp_bind, wp_kset, wp_ret. apply HA; [|done]. cbn. intros q Hq _. rewrite Hp in Hq.
      injection Hq as <-. split; [|done]. unfold runs, dead. by rewrite Er.
    + clear Er. apply wp_bind. case_bool_decide as Ew; [|by apply wp_ret, wp_ret]. destruct (0 <? _); apply wp_kset, wp_ret, HA; [done|done| |done].
      intros q Hq _. rewrite Hp in Hq. injection Hq as <-. split; [|done]. unfold runs, dead. by rewrite Ew.
Qed.

Lemma held_enters x c p : procs (xk x) !! c = Some p -> state p = RUNNING -> singleuser (xk x) = false -> held c (xk x) p (xk (enters x c)).
Proof.
  intros Hp Hs Hm. split; [done|]. split; [split; [done|]|].
  - intros j q Hq R. left. by exists q.
  - exists p. split; [done|]. split; [unfold dead; by rewrite Hs|apply descends_refl].
Qed.
(** One step: everybody is who they were, or came of the caller. *)
Lemma from_step kend kdata x x' : kstep present devsw_read devsw_write kend kdata (fun p => ~ machine_user p) x x' -> singleuser (xk x) = false ->
  exists me, from (xk x) me (xk x') /\ match me with Some p => ~ machine_user p /\ runs p = true /\ exists c, procs (xk x) !! c = Some p | None => True end.
Proof.
  intros H Hm. destruct H as [umem ticks beyond x c p a w x' a' Hp Hs U E|umem ticks beyond x c p a x' a' Hp Hs U Hn E|x c p a k' a' Hp Hs U E|i x a b k' a' E|x c p t s Hp Hs].
  1-3: exists (Some p); (split; [|split; [done|]; split; [unfold runs, dead; by rewrite Hs|by exists c]]); pose proof (held_enters _ _ _ Hp Hs Hm) as Hi; pose proof (held_steady c (xk x) p) as SH.
  - pose proof (wpx_syscall present devsw_read devsw_write umem kend kdata ticks beyond c True _ (fun _ => True) SH (enters x c) p (fun _ _ => I) Hi Hp) as HW.
    specialize (fun H => HW H a). rewrite E in HW. apply HW. intros call Hcall. destruct (decide (s32 (tf_eax (tf p)) = 2)) as [E2|Hn].
    + rewrite E2 in Hcall. injection Hcall as <-. apply exit_no_return.
    + eapply wpx_mono; [by eapply (held_call umem kend kdata ticks beyond c (xk x) p _ call Hcall)|done|done].
  - pose proof (wpx_syscall present devsw_read devsw_write umem kend kdata ticks beyond c True _ _ SH (enters x c) p (fun _ H => H) Hi Hp) as HW.
    specialize (fun H => HW H a). rewrite E in HW. apply HW. intros call Hcall.
    by eapply (held_call umem kend kdata ticks beyond c (xk x) p _ call Hcall).
  - pose proof (held_exit present c (xk x) p _ Hi a) as HW. cbn [enters xk] in HW. by rewrite E in HW.
  - exists None. split; [|done]. assert (from (xk x) None (xk x)) as H0. { split; [done|]. intros j q Hq R. left. by exists q. }
    pose proof (from_sched_visit i (xk x) (xk x) H0 a) as HW. by rewrite E in HW.
  - exists None. split; [|done]. apply from_alter; [intros q _ R; by left|]. split; [done|]. intros j q Hq R. left. by exists q.
Qed.

(** C13: who processes can become.  In multi-user mode, after any sequence of
    system calls, whatever they are, and exits of processes that are not
    superusers of the machine, and of visits of the scheduler: the machine is
    still in multi-user mode; nobody has become a superuser of the machine; and
    every process that may run came of one that could run before and has either
    its user and system, or, if that one was a superuser of a system, some user of
    the same system, or, if that one was of the global system, some user of
    another system, which [chsystem] allows every user.  So an ordinary user of an
    ordinary system never runs as anybody else. *)
Theorem no_escalation kend kdata x0 x :
  singleuser (xk x0) = false -> rtc (kstep present devsw_read devsw_write kend kdata (fun p => ~ machine_user p)) x0 x ->
  singleuser (xk x) = false /\
  (forall j p, procs (xk x) !! j = Some p -> runs p = true -> machine_user p -> exists p0, procs (xk x0) !! j = Some p0 /\ runs p0 = true /\ machine_user p0) /\
  (forall j p, procs (xk x) !! j = Some p -> runs p = true -> exists i p0, procs (xk x0) !! i = Some p0 /\ runs p0 = true /\
    (uid p = uid p0 /\ sid p = sid p0 \/ uid p0 = -1 /\ sid p0 <> -1 /\ sid p = sid p0 \/ sid p0 = -1 /\ 0 <= sid p)).
Proof.
  intros Hs H. revert Hs. induction H as [x|x0 x1 x2 H01 _ IH]; intros Hs.
  { split; [done|]. split; [intros j p Hp R M; by exists p|]. intros j p Hp R. exists j, p. split; [done|]. split; [done|]. by left. }
  destruct (from_step _ _ _ _ H01 Hs) as (me & [Hs1 H1] & Hme). destruct (IH Hs1) as (Hs2 & HM & H2). split; [done|]. split.
  - intros j p Hp R M. destruct (HM j p Hp R M) as (p1 & Hp1 & R1 & [M1 M2]). destruct (H1 j p1 Hp1 R1) as [(p0 & Hp0 & R0 & [E1 E2])|E].
    + exists p0. split; [done|]. split; [done|]. split; congruence.
    + destruct me as [m|]; [|done]. destruct Hme as (Hu & _).
      destruct E as [[F1 F2]|[[? ?]|(? & ? & ?)]]; [destruct Hu; split; congruence|lia|congruence].
  - intros j p Hp R. destruct (H2 j p Hp R) as (i & p1 & Hp1 & R1 & D). assert (descends p p1) as D1 by (unfold descends, same_user; tauto).
    destruct (H1 i p1 Hp1 R1) as [(p0 & Hp0 & R0 & E)|E].
    + exists i, p0. split; [done|]. split; [done|]. assert (descends p p0) as D0 by (eapply descends_trans; [exact D1|by left]).
      unfold descends, same_user in D0. tauto.
    + destruct me as [m|]; [|done]. destruct Hme as (_ & Rm & c & Hc). exists c, m. split; [done|]. split; [done|].
      pose proof (descends_trans _ _ _ D1 E) as D0. unfold descends, same_user in D0. tauto.
Qed.
End steps.

Lemma no_escalation_witness :
  singleuser (xk DispatchSample.after) = false /\
  (forall j p, procs (xk DispatchSample.after) !! j = Some p -> runs p = true -> machine_user p -> exists p0, procs (xk DispatchSample.boot) !! j = Some p0 /\ runs p0 = true /\ machine_user p0) /\
  (forall j p, procs (xk DispatchSample.after) !! j = Some p -> runs p = true -> exists i p0, procs (xk DispatchSample.boot) !! i = Some p0 /\ runs p0 = true /\
    (uid p = uid p0 /\ sid p = sid p0 \/ uid p0 = -1 /\ sid p0 <> -1 /\ sid p = sid p0 \/ sid p0 = -1 /\ 0 <= sid p)).
Proof.
  apply (no_escalation Concrete.only0 SysSample.no_dev SysSample.no_dev 0 0 DispatchSample.boot); [reflexivity|].
  eapply rtc_subrel; [|exact DispatchSample.after_steps]. intros x x'. apply kstep_mono. intros p [E Hn] [M _]. congruence.
Defined.
