(* ===== verification/Boot.v ===== *)
(** The boot loaders ([newboot/mbrmain.c], [newboot/bootelf.c],
    [newboot/bootbin.c]): from the master boot record to the kernel's first
    instruction.

    They run on the bare machine.  Memory is a function from addresses to bytes,
    the screen part of it; the serial port collects what is sent to it, and a
    sector is read by way of the controller's registers, as the drive decodes
    them (Ide.v).  Waiting for the drive or the port is left out, and so is the
    set-up of the port.  A loader ends by jumping to an address, which is what it
    returns; [hlt] in a loop is a panic.  Addresses are not reduced modulo 2^32. *)

From S2P Require Import Prelude Params Bio Disk Fs Format Ide Exec.

(** ** Memory *)

Abbreviation memory := (Z -> Z).
Definition put (a : Z) (bs : list Z) (m : memory) : memory :=
  fun x => if (a <=? x) && (x <? a + Z.of_nat (length bs)) then default 0 (bs !! Z.to_nat (x - a)) else m x.
Definition clear (a n : Z) (m : memory) : memory := fun x => if (a <=? x) && (x <? a + n) then 0 else m x.
(** The [n] bytes at [a], and the little-endian number they are. *)
Definition ram_bytes (m : memory) (a n : Z) : list Z := m <$> seqZ a n.
Definition num (m : memory) (a n : Z) : Z := le_num (ram_bytes m a n).

Record machine := Machine {
  ram : memory; serial : list Z;
  cur_line : Z; cur_col : Z; cur_line2 : Z; cur_col2 : Z; stiter : Z;
  heap : Z; hoffset : Z; heaplen : Z
}.
Definition set_ram v s := Machine v (serial s) (cur_line s) (cur_col s) (cur_line2 s) (cur_col2 s) (stiter s) (heap s) (hoffset s) (heaplen s).
Definition set_serial v s := Machine (ram s) v (cur_line s) (cur_col s) (cur_line2 s) (cur_col2 s) (stiter s) (heap s) (hoffset s) (heaplen s).
Definition set_cursor l c s := Machine (ram s) (serial s) l c (cur_line2 s) (cur_col2 s) (stiter s) (heap s) (hoffset s) (heaplen s).
Definition set_cursor2 l c s := Machine (ram s) (serial s) (cur_line s) (cur_col s) l c (stiter s) (heap s) (hoffset s) (heaplen s).
Definition set_stiter v s := Machine (ram s) (serial s) (cur_line s) (cur_col s) (cur_line2 s) (cur_col2 s) v (heap s) (hoffset s) (heaplen s).
Definition set_heap h o l s := Machine (ram s) (serial s) (cur_line s) (cur_col s) (cur_line2 s) (cur_col2 s) (stiter s) h o l.

Definition store (a : Z) (bs : list Z) : M machine unit := modify (fun s => set_ram (put a bs (ram s)) s).
Definition erase (a n : Z) : M machine unit := modify (fun s => set_ram (clear a n (ram s)) s).
Definition load (a n : Z) : M machine Z := gets (fun s => num (ram s) a n).

Definition c_nl : Z := 10.
Definition c_bs : Z := 8.
Definition VGA : Z := 0xb8000.

(** ** The screen and the serial port *)

(** A cell: the character, which is signed, and the attribute. *)
Definition cell (c : Z) : list Z := [u8 c; Z.lor 7 (if s8 (u8 c) <? 0 then 255 else 0)].
(** [vgaputch] of bootelf. *)
Definition vgaputch (c : Z) : M machine unit := modify (fun s =>
  let l := cur_line s in let k := cur_col s in
  let '(l, k) := if c =? c_nl then (l + 1, 0)
                 else if c =? c_bs then (if k =? 0 then (if l =? 0 then (l, k) else (l - 1, 24)) else (l, k - 1))
                 else (l, k) in
  let '(l, k) := if l =? 25 then (0, 0) else (l, k) in
  let '(l, k) := if k =? 80 then (l + 1, 0) else (l, k) in
  if (c =? c_nl) || (c =? c_bs) then set_cursor l k s
  else set_cursor l (k + 1) (set_ram (put (VGA + (l * 80 + k) * 2) (cell c) (ram s)) s)).
(** [putch] of bootbin, which has lines of 25 cells. *)
Definition binputch (c : Z) : M machine unit := modify (fun s =>
  let l := cur_line s in let k := cur_col s in
  let '(l, k) := if c =? c_nl then (l + 1, 0)
                 else if c =? c_bs then (if k =? 0 then (if l =? 0 then (l, k) else (l - 1, 24)) else (l, k - 1))
                 else (l, k) in
  let '(l, k) := if k =? 25 then (l + 1, 0) else (l, k) in
  let '(l, k) := if l =? 80 then (l + 1, 0) else (l, k) in
  if (c =? c_nl) || (c =? c_bs) then set_cursor l k s
  else set_cursor l (k + 1) (set_ram (put (VGA + (l * 25 + k) * 2) (cell c) (ram s)) s)).
Definition uartputch (c : Z) : M machine unit := modify (fun s => set_serial (serial s ++ [c]) s).
Definition putch (c : Z) : M machine unit := vgaputch c ;; uartputch c.

Definition printint (xx base : Z) (sgn : bool) : M machine unit := for_each (kprintint xx base sgn) putch.
Definition printstr (str : list Z) : M machine unit := for_each str putch.
(** On the second cursor. *)
Definition on_cursor2 (p : M machine unit) : M machine unit :=
  s ← get;
  modify (set_cursor (cur_line2 s) (cur_col2 s)) ;;
  p ;;
  s' ← get;
  modify (fun t => set_cursor (cur_line s) (cur_col s) (set_cursor2 (cur_line s') (cur_col s') t)).
Definition printint2 (xx base : Z) (sgn : bool) : M machine unit := on_cursor2 (printint xx base sgn).
Definition printstr2 (str : list Z) : M machine unit := on_cursor2 (printstr str).

(** ** Loading *)

Section loader.
Context (drives : Z -> Z -> block).   (* the sectors of each unit *)

Definition sector_regs (offset : Z) : regs :=
  Regs 1 (u8 offset) (u8 (Z.shiftr offset 8)) (u8 (Z.shiftr offset 16)) (u8 (Z.lor (Z.shiftr offset 24) 0xE0)) IDE_CMD_READ [].
Definition readsect (dst offset : Z) : M machine unit :=
  let r := sector_regs offset in store dst (drives (decode_unit r) (decode_lba r)).

(** [show] is the routine that puts a character on the screen. *)
Section shown.
Context (show : Z -> M machine unit).

Definition printst : M machine unit :=
  s ← get;
  let it := if 3 <? stiter s then 0 else stiter s in
  modify (set_cursor 0 0) ;;
  (if it =? 0 then show 124 else if it =? 1 then show 47 else if it =? 2 then show 45 else if it =? 3 then show 92 else mret tt) ;;
  modify (fun t => set_cursor (cur_line s) (cur_col s) (set_stiter (it + 1) t)).

Definition smalloc_init (h len : Z) : M machine unit :=
  modify (set_heap h 0 len) ;; erase h len.
Definition smalloc (halt : M machine unit) (sz : Z) : M machine Z :=
  s ← get;
  (if heaplen s <=? u32 (hoffset s + sz) then halt else mret tt) ;;
  modify (set_heap (heap s) (u32 (hoffset s + sz)) (heaplen s)) ;;
  mret (heap s + hoffset s).

(** The block numbers are the words at [addrs]; whole blocks only. *)
Definition readfile (addrs pa count offset : Z) : M machine unit :=
  for_each (seqZ 0 (count / 512)) (fun i =>
    b ← load (addrs + 4 * (offset / 512 + i)) 4;
    readsect (pa - offset mod 512 + i * 512) b ;;
    printst).

(** [for(i = 0; kinode->addrs[i] != 0; i++)]: nothing stops it but a zero word;
    without one within the fuel it does not come back. *)
Fixpoint read_addrs (fuel : nat) (kinode xptr i : Z) : M machine unit :=
  match fuel with
  | O => blocked
  | S fuel' =>
    b ← load (kinode + 16 + 4 * i) 4;
    if b =? 0 then mret tt else
    printst ;;
    readsect xptr b ;;
    read_addrs fuel' kinode (xptr + 512) (i + 1)
  end.
End shown.

Definition ADDRFUEL : nat := 1024.
Definition blank_screen (show : Z -> M machine unit) : M machine unit :=
  for_each (seqZ 0 (80 * 25)) (fun _ => show 32) ;; modify (set_cursor 0 0).

(** *** The master boot record *)

Fixpoint mbr_blocks (fuel : nat) (addrs bootelf i : Z) : M machine unit :=
  match fuel with
  | O => blocked
  | S fuel' =>
    b ← load (addrs + 4 * i) 4;
    if b =? 0 then mret tt else
    readsect (bootelf + i * 512) b ;;
    mbr_blocks fuel' addrs bootelf (i + 1)
  end.
(** [struct superblock] at an address. *)
Definition sb_at (m : memory) (a : Z) : superblock := decode_sb (ram_bytes m a 52).
Definition mbrmain : M machine Z :=
  let fsbuf := 0x8000 in let dn := 0x8300 in let addrs := 0x8600 in let bootelf := 0x9000 in
  readsect fsbuf 1 ;;
  sb ← gets (fun s => sb_at (ram s) fsbuf);
  readsect dn (u32 (bootinode sb / IPB + inodestart sb)) ;;
  sb ← gets (fun s => sb_at (ram s) fsbuf);
  b ← load (dn + 64 * (bootinode sb mod IPB) + 16) 4;
  readsect addrs b ;;
  mbr_blocks ADDRFUEL addrs bootelf 0 ;;
  mret bootelf.

(** *** bootelf *)

Definition panic_elf {A} : M machine A := putch 33 ;; panic "panic".
Definition smalloc_panic : M machine unit := putch 109 ;; putch 33 ;; panic "smalloc".

(** The loop runs forward byte by byte. *)
Definition memcpy (dst src len : Z) : M machine unit :=
  for_each (seqZ 0 len) (fun i => b ← gets (fun s => ram s (src + i)); store (dst + i) [b]).

Definition elf_buf : Z := 0x10000.
Definition title : list Z := [32; 32; 118; 115; 100; 46; 101; 108; 102; 32].
Definition bootelf_setup : M machine (Z * Z) :=
  modify (fun s => set_stiter 0 (set_cursor 0 0 (set_cursor2 1 0 s))) ;;
  smalloc_init 0x700 0x7e00 ;;
  blank_screen vgaputch ;;
  printstr title ;;
  vgaputch 48 ;;
  sb ← smalloc smalloc_panic 52;
  dn ← smalloc smalloc_panic 64;
  _ ← smalloc smalloc_panic 512;
  erase elf_buf 0x1000 ;;
  mret (sb, dn).
(** A stage's number replaces that of the stage before. *)
Definition stage (show : Z -> M machine unit) (n : Z) : M machine unit := show c_bs ;; show (48 + n).
(** Superblock and kernel inode: its size and address. *)
Definition find_kernel (show : Z -> M machine unit) (halt : forall A, M machine A) (sb dn : Z) : M machine (Z * Z) :=
  stage show 1 ;;
  readsect sb 1 ;;
  b ← gets (fun s => sb_at (ram s) sb);
  (if system b =? 0 then halt unit else mret tt) ;;
  readsect dn (u32 (kerninode b / IPB + inodestart b)) ;;
  stage show 2 ;;
  b ← gets (fun s => sb_at (ram s) sb);
  let kinode := dn + 64 * (kerninode b mod IPB) in
  ksize ← load (kinode + 12) 4;
  mret (kinode, ksize).

(** [struct proghdr] at an address; [paddr] is the field exec does not use. *)
Definition ph_at (m : memory) (a : Z) : proghdr := decode_proghdr (ram_bytes m a 32).
Definition paddr_at (m : memory) (a : Z) : Z := num m (a + 12) 4.
Definition c_kernel : list Z := [107; 101; 114; 110; 101; 108; 61].
Fixpoint load_phdrs (n : nat) (ph j : Z) : M machine unit :=
  match n with
  | O => mret tt
  | S n' =>
    printst vgaputch ;;
    p ← gets (fun s => ph_at (ram s) ph);
    pa ← gets (fun s => paddr_at (ram s) ph);
    (if pa =? 0 then mret tt else printint2 j 10 false ;; printstr2 [58] ;; printint2 (s32 pa) 16 false ;; printstr2 [32]) ;;
    if ph_memsz p <? 1 then (if 0 <? j then mret tt else panic_elf) else
    memcpy pa (elf_buf + ph_off p) (ph_filesz p) ;;
    p ← gets (fun s => ph_at (ram s) ph);
    (if ph_filesz p <? ph_memsz p then printst vgaputch ;; erase (pa + ph_filesz p) (ph_memsz p - ph_filesz p) else mret tt) ;;
    load_phdrs n' (ph + 32) (j + 1)
  end.
Definition bootelf : M machine Z :=
  '(sb, dn) ← bootelf_setup;
  '(kinode, ksize) ← find_kernel vgaputch (fun A => panic_elf) sb dn;
  addrs ← smalloc smalloc_panic ((ksize / 512 + (if ksize mod 512 =? 0 then 0 else 1)) * 4);
  read_addrs vgaputch ADDRFUEL kinode addrs 0 ;;
  stage vgaputch 3 ;;
  readfile vgaputch addrs elf_buf ksize 0 ;;
  hdr ← gets (fun s => decode_elfhdr (ram_bytes (ram s) elf_buf 52));
  (if magic hdr =? ELF_MAGIC then mret tt else panic_elf) ;;
  stage vgaputch 4 ;;
  printstr2 c_kernel ;;
  load_phdrs (Z.to_nat (phnum hdr)) (elf_buf + phoff hdr) 0 ;;
  stage vgaputch 5 ;;
  gets (fun s => entry (decode_elfhdr (ram_bytes (ram s) elf_buf 52))).

(** *** bootbin *)

Definition panic_bin {A} : M machine A := binputch 33 ;; panic "panic".
Definition kernel_bin : Z := 0x100000.
Definition bin_title : list Z := [32; 32; 118; 115; 100; 46; 98; 105; 110; 32; 48].
Definition bootbin : M machine Z :=
  modify (fun s => set_stiter 0 (set_cursor 0 0 s)) ;;
  smalloc_init 0x800000 0x100000 ;;
  blank_screen binputch ;;
  for_each bin_title binputch ;;
  sb ← smalloc (panic "smalloc") 52;
  dn ← smalloc (panic "smalloc") 64;
  _ ← smalloc (panic "smalloc") 512;
  erase kernel_bin 0x1000 ;;
  '(kinode, ksize) ← find_kernel binputch (fun A => panic_bin) sb dn;
  addrs ← smalloc (panic "smalloc") (512 * (ksize / 65536 + (if ksize mod 65536 =? 0 then 0 else 1)));
  read_addrs binputch ADDRFUEL kinode addrs 0 ;;
  stage binputch 3 ;;
  readfile binputch addrs kernel_bin ksize 0 ;;
  stage binputch 5 ;;
  mret kernel_bin.
End loader.
