(* ===== verification/BootFacts.v ===== *)
(** The boot loaders load what the disk holds: the boot record the loader, the
    loader the kernel. *)

From S2P Require Import Prelude Params Bio Disk Log Fs Format FsFormat FsOps FsData Ide Exec Mkproto MkprotoFacts MkprotoBuild MkprotoImage Boot.
Import Spec BlockIO.

(** ** Memory *)

Definition has (m : memory) (a : Z) (bs : list Z) : Prop := forall j b, bs !! j = Some b -> m (a + Z.of_nat j) = b.

Lemma put_in a bs m j b : bs !! j = Some b -> put a bs m (a + Z.of_nat j) = b.
Proof.
  intros H. pose proof (lookup_lt_Some _ _ _ H). unfold put. rewrite (proj2 (Z.leb_le _ _)), (proj2 (Z.ltb_lt _ _)) by lia. cbn [andb].
  replace (Z.to_nat (a + Z.of_nat j - a)) with j by lia. by rewrite H.
Qed.
Lemma put_out a bs m x : ~ (a <= x < a + Z.of_nat (length bs)) -> put a bs m x = m x.
Proof. intros H. unfold put. destruct (Z.leb_spec a x), (Z.ltb_spec x (a + Z.of_nat (length bs))); try done. lia. Qed.
Lemma clear_in a n m x : a <= x < a + n -> clear a n m x = 0.
Proof. intros H. unfold clear. rewrite (proj2 (Z.leb_le _ _)), (proj2 (Z.ltb_lt _ _)) by lia. done. Qed.
Lemma clear_out a n m x : ~ (a <= x < a + n) -> clear a n m x = m x.
Proof. intros H. unfold clear. destruct (Z.leb_spec a x), (Z.ltb_spec x (a + n)); try done. lia. Qed.
Lemma has_put a bs m : has (put a bs m) a bs.
Proof. intros j b H. by apply put_in. Qed.
Lemma has_app m a l1 l2 : has m a l1 -> has m (a + Z.of_nat (length l1)) l2 -> has m a (l1 ++ l2).
Proof.
  intros H1 H2 j b H. apply lookup_app_Some in H as [H|[Hl H]]; [by apply H1|]. apply H2 in H. rewrite <- H. f_equal. lia.
Qed.
Lemma has_frame m m' a bs : (forall x, a <= x < a + Z.of_nat (length bs) -> m' x = m x) -> has m a bs -> has m' a bs.
Proof. intros E H j b Hj. pose proof (lookup_lt_Some _ _ _ Hj). rewrite E by lia. by apply H. Qed.
Lemma has_slice m a bs i n : has m a bs -> has m (a + Z.of_nat i) (slice bs i n).
Proof.
  intros H j b Hj. unfold slice in Hj. apply lookup_take_Some in Hj as [Hj _]. rewrite lookup_drop in Hj. apply H in Hj. rewrite <- Hj. f_equal. lia.
Qed.
Lemma peek_has m a bs : has m a bs -> ram_bytes m a (Z.of_nat (length bs)) = bs.
Proof.
  intros H. unfold ram_bytes. apply list_eq. intros j. rewrite list_lookup_fmap. destruct (decide (j < length bs)%nat) as [Hj|Hj].
  - rewrite lookup_seqZ_lt by lia. cbn. destruct (lookup_lt_is_Some_2 bs j Hj) as [b Hb]. rewrite Hb. f_equal. rewrite <- (H j b Hb). done.
  - rewrite lookup_seqZ_ge by lia. cbn. by rewrite lookup_ge_None_2 by lia.
Qed.
Lemma peek_part m a bs i n : has m a bs -> 0 <= i -> 0 <= n -> i + n <= Z.of_nat (length bs) -> ram_bytes m (a + i) n = slice bs (Z.to_nat i) (Z.to_nat n).
Proof.
  intros H Hi Hn Hl. pose proof (has_slice m a bs (Z.to_nat i) (Z.to_nat n) H) as HS. apply peek_has in HS. rewrite length_slice in HS by lia.
  rewrite !Z2Nat.id in HS by lia. done.
Qed.
Lemma num_part m a bs i n : has m a bs -> 0 <= i -> 0 <= n -> i + n <= Z.of_nat (length bs) -> num m (a + i) n = load_le bs (Z.to_nat i) (Z.to_nat n).
Proof. intros. unfold num, load_le. by rewrite (peek_part m a bs). Qed.

(** ** Runs *)

(** The run of a sequence at the head of a longer one. *)
Lemma bind_ok2 {A B C D} (c1 : M machine A) (c2 : M machine B) (c3 : B -> M machine C) (k : C -> M machine D) s b s' : (c1 ;; y ← c2; c3 y) s = Ok b s' -> (c1 ;; y ← c2; x ← c3 y; k x) s = k b s'.
Proof.
  intros E. cbv [mbind M_bind] in *. destruct (c1 s) as [? s1|?|?|?]; try discriminate E. destruct (c2 s1) as [y s2|?|?|?]; try discriminate E.
  by rewrite E.
Qed.
Lemma bind_ok3 {A B C D} (c1 : M machine A) (c2 : M machine B) (c3 : M machine C) (k : C -> M machine D) s b s' : (c1 ;; c2 ;; c3) s = Ok b s' -> (c1 ;; c2 ;; x ← c3; k x) s = k b s'.
Proof.
  intros E. cbv [mbind M_bind] in *. destruct (c1 s) as [? s1|?|?|?]; try discriminate E. destruct (c2 s1) as [? s2|?|?|?]; try discriminate E.
  by rewrite E.
Qed.

(** The run changes memory only in [P], and not the heap. *)
Definition frame (P : Z -> Prop) (s s' : machine) : Prop :=
  (forall x, ~ P x -> ram s' x = ram s x) /\ heap s' = heap s /\ hoffset s' = hoffset s /\ heaplen s' = heaplen s.
Lemma frame_trans (P Q R : Z -> Prop) s1 s2 s3 : frame P s1 s2 -> frame Q s2 s3 -> (forall x, P x \/ Q x -> R x) -> frame R s1 s3.
Proof.
  intros (M1 & H1 & O1 & L1) (M2 & H2 & O2 & L2) HR. split; [|split_and!; congruence]. intros x Hx.
  rewrite M2, M1; [done|..]; intros H; apply Hx, HR; auto.
Qed.
Lemma frame_has P s s' a bs : frame P s s' -> (forall x, P x -> ~ (a <= x < a + Z.of_nat (length bs))) -> has (ram s) a bs -> has (ram s') a bs.
Proof. intros (M & _) H. apply has_frame. intros x Hx. apply M. intros HP. by apply (H x HP). Qed.
Definition vga_cells (x : Z) : Prop := VGA <= x < VGA + 0x2000.

(** *** The screen of bootelf *)

Definition cursors (s : machine) : Prop := (0 <= cur_line s <= 25 /\ 0 <= cur_col s <= 80) /\ 0 <= cur_line2 s <= 25 /\ 0 <= cur_col2 s <= 80.
(** A routine that only writes on the screen. *)
Definition shows (ok : machine -> Prop) (p : M machine unit) : Prop := forall s, ok s -> exists s', p s = Ok tt s' /\ ok s' /\ frame vga_cells s s'.

Lemma frame_refl P s : frame P s s.
Proof. done. Qed.
Lemma shows_ret ok : shows ok (mret tt).
Proof. intros s Hs. exists s. split; [done|]. split; [done|apply frame_refl]. Qed.
Lemma shows_bind ok p q : shows ok p -> shows ok q -> shows ok (p ;; q).
Proof.
  intros Hp Hq s Hs. destruct (Hp s Hs) as (s1 & E1 & H1 & F1). destruct (Hq s1 H1) as (s2 & E2 & H2 & F2). exists s2. cbv [mbind M_bind]. rewrite E1.
  split; [done|]. split; [done|].
  eapply frame_trans; [exact F1|exact F2|]. tauto.
Qed.
Lemma shows_each {A} ok (l : list A) f : (forall x, x ∈ l -> shows ok (f x)) -> shows ok (for_each l f).
Proof.
  induction l as [|x l IH]; intros H; cbn [for_each]; [apply shows_ret|]. apply shows_bind; [apply H; by left|]. apply IH. intros y Hy. apply H.
  by right.
Qed.

Lemma shows_vgaputch c : c <> c_nl -> shows cursors (vgaputch c).
Proof.
  intros Hc s [[Hl Hk] H2]. unfold vgaputch, modify. rewrite (proj2 (Z.eqb_neq _ _) Hc). cbn [orb].
  assert (forall l k, 0 <= l <= 25 -> 0 <= k <= 80 -> let '(l, k) := if l =? 25 then (0, 0) else (l, k) in let '(l, k) := if k =? 80 then (l + 1, 0) else (l, k) in 0 <= l <= 25 /\ 0 <= k < 80 /\ l * 80 + k <= 2000) as HC.
  { intros l k H1 H3. destruct (Z.eqb_spec l 25); [cbn; lia|]. destruct (Z.eqb_spec k 80); lia. }
  destruct (Z.eqb_spec c c_bs) as [->|Hb].
  - set (p := if cur_col s =? 0 then _ else _).
    assert (0 <= p.1 <= 25 /\ 0 <= p.2 <= 80) as [P1 P2] by (unfold p; destruct (Z.eqb_spec (cur_col s) 0), (Z.eqb_spec (cur_line s) 0); cbn; lia).
    destruct p as [l k]. cbn [fst snd] in *. specialize (HC l k P1 P2). destruct (if l =? 25 then (0, 0) else (l, k)) as [l1 k1].
    destruct (if k1 =? 80 then (l1 + 1, 0) else (l1, k1)) as [l2 k2].
    eexists. split; [done|]. split; [|done]. split; [cbn; lia|done].
  - specialize (HC (cur_line s) (cur_col s) Hl Hk). destruct (if cur_line s =? 25 then (0, 0) else (cur_line s, cur_col s)) as [l1 k1].
    destruct (if k1 =? 80 then (l1 + 1, 0) else (l1, k1)) as [l2 k2].
    eexists. split; [done|]. split; [split; [cbn; lia|done]|]. split; [|done]. intros x Hx. cbn. apply put_out. unfold vga_cells in Hx.
    cbn [length cell]. lia.
Qed.
Lemma shows_uart ok c : (forall s v, ok s -> ok (set_serial v s)) -> shows ok (uartputch c).
Proof. intros H s Hs. eexists. split; [done|]. split; [by apply H|done]. Qed.
Lemma shows_putch c : c <> c_nl -> shows cursors (putch c).
Proof. intros Hc. apply shows_bind; [by apply shows_vgaputch|]. by apply shows_uart. Qed.
Lemma shows_printstr str : c_nl ∉ str -> shows cursors (printstr str).
Proof. intros H. apply shows_each. intros c Hc. apply shows_putch. by intros ->. Qed.
Lemma shows_printint xx base : 2 <= base <= 16 -> shows cursors (printint xx base false).
Proof.
  intros Hb. apply shows_each. intros c Hc. apply shows_putch. intros ->. unfold kprintint, Format.printint in Hc. cbn [andb app] in Hc.
  assert (0 <= u32 xx < base ^ Z.of_nat 32) as Hr. { pose proof (u32_range xx). split; [lia|]. apply (Z.lt_le_trans _ (2 ^ 32)); [lia|].
  apply Z.pow_le_mono_l. lia. }
  pose proof (digits_ok 32 false base Hb (u32 xx) Hr ltac:(lia)) as (_ & HF & _). rewrite list.Forall_forall in HF. apply HF in Hc. unfold c_nl in Hc.
  lia.
Qed.
Lemma shows_cursor2 p : shows cursors p -> shows cursors (on_cursor2 p).
Proof.
  intros Hp s [H1 H2]. unfold on_cursor2, get, modify. cbv [mbind M_bind].
  destruct (Hp (set_cursor (cur_line2 s) (cur_col2 s) s)) as (s' & E & [C1 C2] & F); [done|]. rewrite E. eexists. split; [done|].
  split; [done|]. exact F.
Qed.

(** The rotating bar is at the corner; the cursor is put back. *)
Definition at_corner (show : Z -> M machine unit) : Prop := forall c s, c <> c_nl -> c <> c_bs -> cur_line s = 0 -> cur_col s = 0 ->
  exists s', show c s = Ok tt s' /\ frame vga_cells s s' /\ cur_line2 s' = cur_line2 s /\ cur_col2 s' = cur_col2 s.
Definition cursor_only (ok : machine -> Prop) : Prop := forall s s', cur_line s' = cur_line s -> cur_col s' = cur_col s -> cur_line2 s' = cur_line2 s -> cur_col2 s' = cur_col2 s -> ok s -> ok s'.
Lemma corner_vga : at_corner vgaputch.
Proof.
  intros c s H1 H2 Hl Hk. unfold vgaputch, modify. rewrite (proj2 (Z.eqb_neq _ _) H1), (proj2 (Z.eqb_neq _ _) H2), Hl, Hk. cbn. eexists.
  split; [done|]. split; [|done].
  split; [|done]. intros x Hx. apply put_out. unfold vga_cells in Hx. cbn [length cell]. unfold VGA in *. lia.
Qed.
Lemma corner_bin : at_corner binputch.
Proof.
  intros c s H1 H2 Hl Hk. unfold binputch, modify. rewrite (proj2 (Z.eqb_neq _ _) H1), (proj2 (Z.eqb_neq _ _) H2), Hl, Hk. cbn. eexists.
  split; [done|]. split; [|done].
  split; [|done]. intros x Hx. apply put_out. unfold vga_cells in Hx. cbn [length cell]. unfold VGA in *. lia.
Qed.
Lemma shows_printst show ok : at_corner show -> cursor_only ok -> shows ok (printst show).
Proof.
  intros HC HO s Hs. unfold printst, get, modify. cbv [mbind M_bind]. set (it := if 3 <? stiter s then 0 else stiter s).
  set (pic := if it =? 0 then _ else _).
  assert (exists s1, pic (set_cursor 0 0 s) = Ok tt s1 /\ frame vga_cells s s1 /\ cur_line2 s1 = cur_line2 s /\ cur_col2 s1 = cur_col2 s) as (s1 & E1 & F1 & L1 & K1).
  { unfold pic. repeat match goal with |- context [if ?b then _ else _] => destruct b end; first [by apply (HC _ (set_cursor 0 0 s))|by eexists]. }
  rewrite E1. eexists. split; [done|]. split; [|exact F1]. by apply (HO s).
Qed.
Lemma cursors_only : cursor_only cursors.
Proof. intros s s' E1 E2 E3 E4. unfold cursors. by rewrite E1, E2, E3, E4. Qed.
Lemma shows_stage n : 0 <= n -> shows cursors (stage vgaputch n).
Proof. intros Hn. apply shows_bind; apply shows_vgaputch; unfold c_bs, c_nl; lia. Qed.

(** *** The screen of bootbin: its cursor stays in the first line. *)

Definition bin_cursor (s : machine) : Prop := cur_line s = 0 /\ 1 <= cur_col s <= 24.
Lemma bin_show c s n : c <> c_nl -> c <> c_bs -> 0 <= n < 2000 -> cur_line s * 25 + cur_col s = n -> 0 <= cur_line s -> 0 <= cur_col s <= 25 ->
  exists s', binputch c s = Ok tt s' /\ frame vga_cells s s' /\ cur_line s' * 25 + cur_col s' = n + 1 /\ 0 <= cur_line s' /\ 1 <= cur_col s' <= 25.
Proof.
  intros H1 H2 Hn Hp Hl Hk. unfold binputch, modify. rewrite (proj2 (Z.eqb_neq _ _) H1), (proj2 (Z.eqb_neq _ _) H2). cbn [orb].
  assert (exists l k, (if cur_col s =? 25 then (cur_line s + 1, 0) else (cur_line s, cur_col s)) = (l, k) /\ l * 25 + k = n /\ 0 <= l < 80 /\ 0 <= k < 25) as (l & k & -> & Ep & Hl' & Hk').
  { destruct (Z.eqb_spec (cur_col s) 25); eexists _, _; (split; [reflexivity|]); lia. }
  rewrite (proj2 (Z.eqb_neq l 80)) by lia. eexists. split; [done|]. split; [|cbn; lia]. split; [|done]. intros x Hx. apply put_out.
  unfold vga_cells, VGA in *. cbn [length cell]. lia.
Qed.
Lemma shows_bin_stage n : 0 <= n -> shows bin_cursor (stage binputch n).
Proof.
  intros Hn s [Hl Hk]. unfold stage. cbv [mbind M_bind].
  assert (exists s1, binputch c_bs s = Ok tt s1 /\ frame vga_cells s s1 /\ cur_line s1 = 0 /\ cur_col s1 = cur_col s - 1) as (s1 & E1 & F1 & L1 & K1).
  { unfold binputch, modify. change (c_bs =? c_nl) with false. change (c_bs =? c_bs) with true. cbv iota. cbn [orb]. rewrite Hl.
    rewrite (proj2 (Z.eqb_neq (cur_col s) 0)) by lia.
    rewrite (proj2 (Z.eqb_neq (cur_col s - 1) 25)) by lia. change (0 =? 80) with false. cbv iota. by eexists. }
  rewrite E1. destruct (bin_show (48 + n) s1 (cur_col s1)) as (s2 & E2 & F2 & P2 & L2 & K2); [unfold c_nl; lia|unfold c_bs; lia|lia|lia|lia|lia|].
  exists s2. split; [done|]. split; [unfold bin_cursor; lia|]. eapply frame_trans; [exact F1|exact F2|]. tauto.
Qed.
Lemma bin_shows l : (forall c, c ∈ l -> c <> c_nl /\ c <> c_bs) -> forall s n, 0 <= n -> n + Z.of_nat (length l) <= 2000 -> cur_line s * 25 + cur_col s = n -> 0 <= cur_line s -> 0 <= cur_col s <= 25 ->
  exists s', for_each l binputch s = Ok tt s' /\ frame vga_cells s s' /\ cur_line s' * 25 + cur_col s' = n + Z.of_nat (length l) /\ 0 <= cur_line s' /\ 0 <= cur_col s' <= 25.
Proof.
  induction l as [|c l IH]; intros Hc s n Hn Hlen Hp Hl Hk; cbn [for_each length] in *; [eexists; split; [done|]; split; [done|lia]|].
  destruct (bin_show c s n) as (s1 & E1 & F1 & P1 & L1 & K1); [apply Hc; by left|apply Hc; by left|lia|done|done|done|]. cbv [mbind M_bind].
  rewrite E1.
  destruct (IH ltac:(intros d Hd; apply Hc; by right) s1 (n + 1)) as (s2 & E2 & F2 & P2 & L2 & K2); [lia|lia|done|done|lia|]. exists s2.
  split; [done|]. split; [|lia]. eapply frame_trans; [exact F1|exact F2|]. tauto.
Qed.

(** ** What is read from the disk *)

Lemma slice_take {A} (l : list A) i n k : (i + n <= k)%nat -> slice (take k l) i n = slice l i n.
Proof. intros H. unfold slice. rewrite !take_drop_commute, take_take. do 2 f_equal. lia. Qed.
Lemma decode_sb_take b : decode_sb (take 52 b) = decode_sb b.
Proof. unfold decode_sb, load_le. by rewrite !slice_take by lia. Qed.

(** Equal pieces one after another. *)
Lemma length_join {A} (f : nat -> list A) k n : (forall i, length (f i) = k) -> length (mjoin (f <$> seq 0 n)) = (k * n)%nat.
Proof.
  intros Hf. induction n as [|n IH]; [cbn; lia|]. rewrite seq_S, fmap_app, join_app, length_app, IH. cbn. rewrite app_nil_r, Hf. lia.
Qed.
Lemma join_slice {A} (f : nat -> list A) k n q r l : (forall i, length (f i) = k) -> (q < n)%nat -> (r + l <= k)%nat -> slice (mjoin (f <$> seq 0 n)) (k * q + r) l = slice (f q) r l.
Proof.
  intros Hf Hq Hr. assert (mjoin (f <$> seq 0 n) = mjoin (f <$> seq 0 q) ++ f q ++ mjoin (f <$> seq (S q) (n - S q))) as ->.
  { replace n with (q + S (n - S q))%nat at 1 by lia. by rewrite seq_app, fmap_app, join_app. }
  unfold slice. rewrite drop_app_ge by (rewrite (length_join f k) by done; lia). rewrite (length_join f k) by done.
  replace (k * q + r - k * q)%nat with r by lia.
  rewrite drop_app_le, take_app_le by (rewrite ?length_drop, ?Hf; lia). done.
Qed.

Section disk.
Context (a : astate) (drives : Z -> Z -> block) (sb : superblock).
Hypothesis Hdr : forall b, 0 <= b < FSSIZE -> drives 0 b = view a (0, b).
Hypothesis Hsb : decode_sb (view a (0, 1)) = sb.
Hypothesis Hfs : fs_ok a 0 sb.

Lemma readsect_run dst b s : 0 <= b < FSSIZE -> readsect drives dst b s = Ok tt (set_ram (put dst (view a (0, b)) (ram s)) s).
Proof.
  intros Hb. assert (forallb (fun b => (decode_unit (sector_regs b) =? 0) && (decode_lba (sector_regs b) =? b)) (seqZ 0 FSSIZE) = true) as HF by (vm_compute; reflexivity).
  rewrite forallb_forall in HF. specialize (HF b ltac:(apply list_elem_of_In, elem_of_seqZ; lia)).
  apply andb_true_iff in HF as [E1%Z.eqb_eq E2%Z.eqb_eq].
  unfold readsect, store, modify. cbv zeta. by rewrite E1, E2, Hdr.
Qed.
Lemma block_len b : length (view a (0, b)) = 512%nat.
Proof. apply (fk_len _ _ _ Hfs). Qed.
Lemma sb_at_has m x : has m x (take 52 (view a (0, 1))) -> sb_at m x = sb.
Proof.
  intros H. apply peek_has in H. rewrite length_take, block_len in H. unfold sb_at. change 52 with (Z.of_nat (52 `min` 512)).
  by rewrite H, decode_sb_take.
Qed.
(** The words of the inode in the block at [dn]. *)
Lemma slice_slice {A} (l : list A) i n j k : (j + k <= n)%nat -> slice (slice l i n) j k = slice l (i + j) k.
Proof. intros H. unfold slice. rewrite (take_drop_commute _ k j), take_take, Nat.min_l by lia. rewrite <- take_drop_commute, drop_drop. done. Qed.
Lemma inode_word m dn n j k : has m dn (view a (0, IBLOCK n sb)) -> 0 <= n -> (j + k <= 64)%nat ->
  num m (dn + 64 * (n mod IPB) + Z.of_nat j) (Z.of_nat k) = load_le (get_dinode (view a (0, IBLOCK n sb)) n) j k.
Proof.
  intros H Hn Hj. unfold IPB in *. pose proof (Z.mod_pos_bound n 8 ltac:(lia)). rewrite <- Z.add_assoc.
  rewrite (num_part m dn _ (64 * (n mod 8) + Z.of_nat j) (Z.of_nat k) H) by (rewrite ?block_len; lia).
  unfold load_le, get_dinode. rewrite slice_slice by (unfold DINODE_SIZE; lia). do 2 f_equal; unfold ioff, DINODE_SIZE, IPB; lia.
Qed.
Lemma inode_addr m dn n i : has m dn (view a (0, IBLOCK n sb)) -> 0 <= n -> 0 <= i < 12 ->
  num m (dn + 64 * (n mod IPB) + 16 + 4 * i) 4 = addr_at (inode_of a sb n) (Z.to_nat i).
Proof.
  intros H Hn Hi. pose proof (inode_word m dn n (16 + 4 * Z.to_nat i) 4 H Hn ltac:(lia)) as E.
  replace (dn + 64 * (n mod IPB) + 16 + 4 * i) with (dn + 64 * (n mod IPB) + Z.of_nat (16 + 4 * Z.to_nat i)) by lia.
  change (Z.of_nat 4) with 4 in E. rewrite E. unfold addr_at, inode_of, decode_dinode, load_addrs. cbn [i_addrs].
  rewrite list_lookup_fmap, lookup_seq_lt by (unfold NDIRECT; lia). done.
Qed.

Section reading.
Context (show : Z -> M machine unit) (ok : machine -> Prop).
Hypothesis Hcorner : at_corner show.
Hypothesis Hok : cursor_only ok.
Hypothesis Hstage : forall k, 0 <= k -> shows ok (stage show k).

Lemma ok_ram m s : ok s -> ok (set_ram m s).
Proof. by apply Hok. Qed.
Lemma iblock_range n : 0 <= n < ninodes sb -> 0 <= IBLOCK n sb < FSSIZE.
Proof. intros Hn. destruct (fk_inodes _ _ _ Hfs n Hn) as [H _]. pose proof (sf_size _ (fk_fits _ _ _ Hfs)). lia. Qed.

Lemma find_kernel_run halt sbp dn s : ok s -> dn = sbp + 52 -> (forall x, sbp <= x < dn + 512 -> ~ vga_cells x) -> 0 <= kerninode sb < ninodes sb -> system sb <> 0 ->
  exists s', find_kernel drives show halt sbp dn s = Ok (dn + 64 * (kerninode sb mod IPB), i_size (inode_of a sb (kerninode sb))) s' /\ ok s' /\
    frame (fun x => vga_cells x \/ sbp <= x < dn + 512) s s' /\ has (ram s') dn (view a (0, IBLOCK (kerninode sb) sb)).
Proof.
  intros Hs -> Hsc Hn Hsys. unfold find_kernel. cbv [mbind M_bind]. destruct (Hstage 1 ltac:(lia) s Hs) as (s1 & -> & O1 & F1).
  rewrite readsect_run by (unfold FSSIZE; lia).
  set (s2 := set_ram _ s1). assert (has (ram s2) sbp (view a (0, 1))) as B2 by apply has_put. unfold gets. cbn [mret M_ret].
  assert (forall m, has m sbp (take 52 (view a (0, 1))) -> sb_at m sbp = sb) as SB by (intros m; apply sb_at_has).
  assert (has (ram s2) sbp (take 52 (view a (0, 1)))) as T2. { intros j b Hj. apply B2. by apply lookup_take_Some in Hj as [Hj _]. }
  rewrite (SB _ T2). rewrite (proj2 (Z.eqb_neq _ _) Hsys). cbn [mret M_ret].
  pose proof (iblock_range _ Hn) as HI. rewrite u32_small by (unfold IBLOCK, FSSIZE in HI; lia). fold (IBLOCK (kerninode sb) sb).
  rewrite readsect_run by done. set (s3 := set_ram _ s2).
  assert (has (ram s3) (sbp + 52) (view a (0, IBLOCK (kerninode sb) sb))) as B3 by apply has_put.
  assert (has (ram s3) sbp (take 52 (view a (0, 1)))) as T3.
  { apply (has_frame (ram s2)); [|done]. intros x Hx. rewrite length_take, block_len in Hx. apply put_out. lia. }
  destruct (Hstage 2 ltac:(lia) s3) as (s4 & -> & O4 & F4); [by do 2 apply ok_ram|].
  assert (has (ram s4) (sbp + 52) (view a (0, IBLOCK (kerninode sb) sb))) as B4. { eapply frame_has; [exact F4| |done]. rewrite block_len.
  intros x Hx H. apply (Hsc x); [lia|done]. }
  assert (has (ram s4) sbp (take 52 (view a (0, 1)))) as T4. { eapply frame_has; [exact F4| |done]. rewrite length_take, block_len. intros x Hx H.
  apply (Hsc x); [lia|done]. }
  rewrite (SB _ T4). exists s4. unfold load, gets.
  assert (num (ram s4) (sbp + 52 + 64 * (kerninode sb mod IPB) + 12) 4 = i_size (inode_of a sb (kerninode sb))) as ->.
  { change 12 with (Z.of_nat 12). change 4 with (Z.of_nat 4). by rewrite inode_word by (done || lia). }
  split; [done|]. split; [done|]. split; [|done].
  eapply (frame_trans vga_cells (fun x => vga_cells x \/ sbp <= x < sbp + 52 + 512)); [exact F1| |tauto].
  eapply (frame_trans (fun x => sbp <= x < sbp + 52 + 512) vga_cells _ s1 s3); [|exact F4|tauto].
  split; [|done]. intros x Hx. cbn [s3 s2 set_ram ram]. rewrite !put_out by (rewrite block_len; lia). done.
Qed.

(** The address blocks and data blocks of inode [n]. *)
Context (n : Z).
Let ip : inode := inode_of a sb n.
Hypothesis Hn : 0 <= n < ninodes sb.
Hypothesis Hfile : file_ok a sb ip.
Definition ablock (k : nat) : block := view a (0, addr_at (inode_of a sb n) k).
Definition dblock (k : nat) : block := view a (0, ptr a (inode_of a sb n) (Z.of_nat k)).
Lemma length_ablock k : length (ablock k) = 512%nat.
Proof. apply block_len. Qed.
Lemma length_dblock k : length (dblock k) = 512%nat.
Proof. apply block_len. Qed.
Lemma addr_range k : addr_at ip k <> 0 -> 0 <= addr_at ip k < FSSIZE.
Proof. intros H. destruct (fo_addr _ _ _ Hfile k H) as [[R _ _ _] _]. pose proof (sf_size _ (fk_fits _ _ _ Hfs)). lia. Qed.
Lemma ptr_range k : 0 <= k < MAXFILE -> ptr a ip k <> 0 -> 0 <= ptr a ip k < FSSIZE.
Proof. intros Hk H. destruct (fo_ptr _ _ _ Hfile k Hk H) as [[R _ _ _] _]. pose proof (sf_size _ (fk_fits _ _ _ Hfs)). lia. Qed.

Lemma printst_run s : ok s -> exists s', printst show s = Ok tt s' /\ ok s' /\ frame vga_cells s s'.
Proof. by apply (shows_printst show ok). Qed.

(** The loop of stage 2 leaves the address blocks one after another. *)
Lemma read_addrs_run m dn addrs : (m < 12)%nat -> (forall k, (k < m)%nat -> addr_at ip k <> 0) -> addr_at ip m = 0 ->
  (forall x, addrs <= x < addrs + 512 * Z.of_nat m -> ~ vga_cells x /\ ~ dn <= x < dn + 512) -> (forall x, dn <= x < dn + 512 -> ~ vga_cells x) ->
  forall d i fuel s, (i + d = m)%nat -> (d < fuel)%nat -> ok s -> has (ram s) dn (view a (0, IBLOCK n sb)) -> has (ram s) addrs (mjoin (ablock <$> seq 0 i)) ->
  exists s', read_addrs drives show fuel (dn + 64 * (n mod IPB)) (addrs + 512 * Z.of_nat i) (Z.of_nat i) s = Ok tt s' /\ ok s' /\
    frame (fun x => vga_cells x \/ addrs <= x < addrs + 512 * Z.of_nat m) s s' /\ has (ram s') addrs (mjoin (ablock <$> seq 0 m)).
Proof.
  intros Hm Hnz Hz Hreg Hdn.
  induction d as [|d IH]; intros i [|fuel] s Hi Hfu Hs Hin Hpre; [lia| |lia|]; cbn [read_addrs]; cbv [mbind M_bind]; unfold load, gets;
    rewrite (inode_addr (ram s) dn n (Z.of_nat i) Hin) by lia; rewrite Nat2Z.id; fold ip.
  - replace i with m by lia. rewrite Hz. cbn. exists s. split; [done|]. split; [done|]. split; [done|]. by replace m with i by lia.
  - assert (addr_at ip i <> 0) as Ha by (apply Hnz; lia). rewrite (proj2 (Z.eqb_neq _ _) Ha). destruct (printst_run s Hs) as (s1 & -> & O1 & F1).
    rewrite readsect_run by (by apply addr_range).
    set (s2 := set_ram _ s1).
    assert (frame (fun x => vga_cells x \/ addrs <= x < addrs + 512 * Z.of_nat m) s s2) as F2.
    { eapply (frame_trans _ (fun x => addrs <= x < addrs + 512 * Z.of_nat m)); [exact F1| |tauto]. split; [|done]. intros x Hx. apply put_out.
      rewrite block_len. lia. }
    destruct (IH (S i) fuel s2) as (s3 & E3 & O3 & F3 & B3); [lia|lia|by apply ok_ram|..].
    + eapply frame_has; [exact F2| |done]. rewrite block_len. intros x [Hx|Hx] H; [by apply (Hdn x)|]. by destruct (Hreg x Hx).
    + rewrite seq_S, fmap_app, join_app. cbn. rewrite app_nil_r. apply has_app.
      * apply (has_frame (ram s)); [|done]. rewrite (length_join ablock 512) by apply length_ablock. intros x Hx. destruct F1 as [M1 _].
        rewrite <- M1; [|apply Hreg; lia].
        cbn [s2 set_ram ram]. apply put_out. lia.
      * rewrite (length_join ablock 512) by apply length_ablock. replace (addrs + Z.of_nat (512 * i)) with (addrs + 512 * Z.of_nat i) by lia.
        apply has_put.
    + replace (addrs + 512 * Z.of_nat i + 512) with (addrs + 512 * Z.of_nat (S i)) by lia. replace (Z.of_nat i + 1) with (Z.of_nat (S i)) by lia.
      exists s3. split; [done|]. split; [done|]. split; [|done].
      eapply frame_trans; [exact F2|exact F3|]. tauto.
Qed.

(** Its words are the block numbers of the file. *)
Lemma addrs_word m addrs s j : has (ram s) addrs (mjoin (ablock <$> seq 0 m)) -> 0 <= j < 128 * Z.of_nat m -> (forall k, (k < m)%nat -> addr_at ip k <> 0) ->
  num (ram s) (addrs + 4 * j) 4 = ptr a ip j.
Proof.
  intros H Hj Hnz. rewrite (num_part _ _ _ (4 * j) 4 H) by (rewrite ?(length_join ablock 512) by apply length_ablock; lia).
  unfold ptr, offset2real, NINDIRECT. 
  rewrite (proj2 (Z.eqb_neq _ _)) by (apply Hnz; dlia). unfold load_le.
  replace (Z.to_nat (4 * j)) with (512 * Z.to_nat (j / 128) + 4 * Z.to_nat (j mod 128))%nat by dlia.
  rewrite (join_slice ablock 512) by (apply length_ablock || dlia). done.
Qed.

(** The whole blocks of the file. *)
Lemma readfile_run m addrs pa t : (forall k, (k < m)%nat -> addr_at ip k <> 0) -> 0 <= t -> t <= 128 * Z.of_nat m -> t * 512 <= i_size ip ->
  (forall x, pa <= x < pa + 512 * t -> ~ vga_cells x /\ ~ addrs <= x < addrs + 512 * Z.of_nat m) -> (forall x, addrs <= x < addrs + 512 * Z.of_nat m -> ~ vga_cells x) ->
  forall d i s, 0 <= i -> Z.of_nat d = t - i -> ok s -> has (ram s) addrs (mjoin (ablock <$> seq 0 m)) -> has (ram s) pa (mjoin (dblock <$> seq 0 (Z.to_nat i))) ->
  exists s', for_each (seqZ i (t - i)) (fun i => b ← load (addrs + 4 * (0 / 512 + i)) 4; readsect drives (pa - 0 mod 512 + i * 512) b ;; printst show) s = Ok tt s' /\ ok s' /\
    frame (fun x => vga_cells x \/ pa <= x < pa + 512 * t) s s' /\ has (ram s') pa (mjoin (dblock <$> seq 0 (Z.to_nat t))).
Proof.
  intros Hnz Ht Htm Hsz Hreg Hadr. induction d as [|d IH]; intros i s Hi Hd Hs Hw Hpre.
  - replace (t - i) with 0 by lia. cbn. exists s. split; [done|]. split; [done|]. split; [done|]. by replace t with i by lia.
  - rewrite seqZ_cons by lia. cbn [for_each]. cbv [mbind M_bind]. unfold load at 1, gets at 1. change (0 / 512) with 0. change (0 mod 512) with 0.
    rewrite Z.add_0_l, Z.sub_0_r.
    rewrite (addrs_word m addrs s i Hw) by (done || lia).
    assert (0 <= i < MAXFILE) as HM by (pose proof (fo_size _ _ _ Hfile); unfold MAXFILE, NINDIRECT in *; lia).
    assert (ptr a ip i <> 0) as Hp by (apply (fo_mapped _ _ _ Hfile); lia). rewrite readsect_run by (by apply ptr_range). set (s1 := set_ram _ s).
    destruct (printst_run s1) as (s2 & E2 & O2 & F2); [by apply ok_ram|].
    rewrite E2.
    assert (frame (fun x => vga_cells x \/ pa <= x < pa + 512 * t) s s2) as F.
    { eapply (frame_trans (fun x => pa <= x < pa + 512 * t)); [|exact F2|tauto]. split; [|done]. intros x Hx. apply put_out. rewrite block_len. lia. }
    destruct (IH (i + 1) s2) as (s3 & E3 & O3 & F3 & B3); [lia|lia|done|..].
    + eapply frame_has; [exact F| |done]. rewrite (length_join ablock 512) by apply length_ablock. intros x [Hx|Hx] H; [apply (Hadr x); [lia|done]|].
      destruct (Hreg x Hx). lia.
    + replace (Z.to_nat (i + 1)) with (S (Z.to_nat i)) by lia. rewrite seq_S, fmap_app, join_app. cbn. rewrite app_nil_r. pose proof F2 as [M2 _].
      apply (has_frame (ram s1)); [rewrite length_app, (length_join dblock 512), length_dblock by apply length_dblock; intros x Hx; apply M2, Hreg; lia|].
      apply has_app.
      * apply (has_frame (ram s)); [|done]. rewrite (length_join dblock 512) by apply length_dblock. intros x Hx. apply put_out. lia.
      * rewrite (length_join dblock 512) by apply length_dblock. replace (pa + Z.of_nat (512 * Z.to_nat i)) with (pa + i * 512) by lia. unfold dblock.
        rewrite Z2Nat.id by lia. apply has_put.
    + replace (t - (i + 1)) with (Z.pred (t - i)) in E3 by lia. rewrite Z.add_1_r in E3. change (0 mod 512) with 0 in E3. rewrite Z.sub_0_r in E3.
      exists s3. split; [exact E3|]. split; [done|]. split; [|done]. eapply frame_trans; [exact F|exact F3|]. tauto.
Qed.

(** They are the file's bytes. *)
Lemma length_file : length (contents a ip) = Z.to_nat (i_size ip).
Proof. unfold contents, bytes. by rewrite length_fmap, length_seqZ. Qed.
Lemma blocks_lookup t j : (j < 512 * t)%nat -> (j < Z.to_nat (i_size ip))%nat -> mjoin (dblock <$> seq 0 t) !! j = contents a ip !! j.
Proof.
  intros Hj Hl. unfold contents, bytes. rewrite list_lookup_fmap, lookup_seqZ_lt by lia. cbn [fmap option_fmap option_map].
  pose proof (join_slice dblock 512 t (j / 512) (j mod 512) 1 length_dblock) as E. pose proof (Nat.div_mod j 512 ltac:(lia)) as Ej.
  pose proof (Nat.mod_upper_bound j 512 ltac:(lia)) as Hm.
  specialize (E ltac:(apply Nat.Div0.div_lt_upper_bound; lia) ltac:(lia)). rewrite <- Ej in E.
  assert (mjoin (dblock <$> seq 0 t) !! j = dblock (j / 512) !! (j mod 512)%nat) as ->.
  { pose proof (f_equal (fun l => l !! 0%nat) E) as E0. cbn beta in E0. rewrite !lookup_slice, !Nat.add_0_r in E0 by lia. done. }
  destruct (lookup_lt_is_Some_2 (dblock (j / 512)) (j mod 512)) as [b Hb]; [rewrite length_dblock; lia|]. rewrite Hb. f_equal.
  unfold byte_at, dblock in *.
  rewrite Z.add_0_l. replace (Z.of_nat j / 512) with (Z.of_nat (j / 512)) by (rewrite Nat2Z.inj_div; done).
  replace (Z.of_nat j mod 512) with (Z.of_nat (j mod 512)) by (rewrite Nat2Z.inj_mod; done).
  rewrite Nat2Z.id. change (i_dev ip) with 0. unfold ip. by rewrite Hb.
Qed.
Lemma has_blocks m x t : has m x (mjoin (dblock <$> seq 0 t)) -> has m x (take (512 * t) (contents a ip)).
Proof.
  intros H j b Hj. apply lookup_take_Some in Hj as [Hj Ht]. apply H. rewrite blocks_lookup; [done|done|]. rewrite <- length_file.
  by eapply lookup_lt_Some.
Qed.

(** *** The boot record *)

Lemma mbr_blocks_run addrs dst t : addr_at ip 0 <> 0 -> (forall k, (k < t)%nat -> ptr a ip (Z.of_nat k) <> 0) -> ptr a ip (Z.of_nat t) = 0 -> (t < 128)%nat -> addrs + 512 <= dst ->
  forall d i fuel s, (i + d = t)%nat -> (d < fuel)%nat -> has (ram s) addrs (ablock 0) -> has (ram s) dst (mjoin (dblock <$> seq 0 i)) ->
  exists s', mbr_blocks drives fuel addrs dst (Z.of_nat i) s = Ok tt s' /\ has (ram s') dst (mjoin (dblock <$> seq 0 t)).
Proof.
  intros Ha Hnz Hz Ht Hdst.
  assert (forall i s, (i < 128)%nat -> has (ram s) addrs (ablock 0) -> num (ram s) (addrs + 4 * Z.of_nat i) 4 = ptr a ip (Z.of_nat i)) as HW.
  { intros i s Hi H. assert (has (ram s) addrs (mjoin (ablock <$> seq 0 1))) as H1 by (cbn; by rewrite app_nil_r).
    apply (addrs_word 1 addrs s); [done|lia|]. intros k Hk. by replace k with 0%nat by lia. }
  induction d as [|d IH]; intros i [|fuel] s Hi Hfu Hin Hpre; [lia| |lia|]; cbn [mbr_blocks]; cbv [mbind M_bind]; unfold load, gets; rewrite HW by (done || lia).
  - replace i with t by lia. rewrite Hz. exists s. split; [done|]. by replace t with i by lia.
  - assert (ptr a ip (Z.of_nat i) <> 0) as Hp by (apply Hnz; lia). rewrite (proj2 (Z.eqb_neq _ _) Hp).
    rewrite readsect_run by (apply ptr_range; [unfold MAXFILE, NINDIRECT; lia|done]). fold (dblock i).
    set (s1 := set_ram _ s). destruct (IH (S i) fuel s1) as (s2 & E2 & B2); [lia|lia|..].
    + apply (has_frame (ram s)); [|done]. rewrite length_ablock. intros x Hx. apply put_out. lia.
    + rewrite seq_S, fmap_app, join_app. cbn. rewrite app_nil_r. apply has_app.
      * apply (has_frame (ram s)); [|done]. rewrite (length_join dblock 512) by apply length_dblock. intros x Hx. apply put_out. lia.
      * rewrite (length_join dblock 512) by apply length_dblock. replace (dst + Z.of_nat (512 * i)) with (dst + Z.of_nat i * 512) by lia.
        apply has_put.
    + replace (Z.of_nat i + 1) with (Z.of_nat (S i)) by lia. by exists s2.
Qed.
End reading.

Lemma mbrmain_run nd s : let n := bootinode sb in holds_node a sb n nd -> 0 < Z.of_nat (length (nd_bytes nd)) <= 127 * 512 ->
  ptr a (inode_of a sb n) ((Z.of_nat (length (nd_bytes nd)) + 511) / 512) = 0 ->
  exists s', mbrmain drives s = Ok 0x9000 s' /\ has (ram s') 0x9000 (nd_bytes nd).
Proof.
  intros n HN Hlen Hend. pose proof (hn_file _ _ _ _ HN) as Hfile. pose proof (fo_inum _ _ _ Hfile) as Hn.
  change (i_inum (inode_of a sb n)) with n in Hn.
  pose proof (fo_size _ _ _ Hfile) as Hsz. assert (Z.of_nat (length (nd_bytes nd)) = i_size (inode_of a sb n)) as Hl.
  { rewrite <- (hn_bytes _ _ _ _ HN). unfold contents, bytes. rewrite length_fmap, length_seqZ. lia. }
  set (t := Z.to_nat ((Z.of_nat (length (nd_bytes nd)) + 511) / 512)).
  assert (Z.of_nat t = (Z.of_nat (length (nd_bytes nd)) + 511) / 512) as Et by (unfold t; dlia). rewrite <- Et in Hend.
  assert (forall k, (k < t)%nat -> ptr a (inode_of a sb n) (Z.of_nat k) <> 0) as Hnz by (intros k Hk; apply (fo_mapped _ _ _ Hfile); dlia).
  assert (addr_at (inode_of a sb n) 0 <> 0) as Ha by (apply (ptr_addr a _ 0); apply (Hnz 0%nat); dlia).
  unfold mbrmain. cbv zeta. cbv [mbind M_bind]. rewrite readsect_run by (unfold FSSIZE; lia). set (s1 := set_ram _ s). unfold gets.
  assert (has (ram s1) 0x8000 (take 52 (view a (0, 1)))) as T1. { intros j b Hj. apply lookup_take_Some in Hj as [Hj _].
  by apply (has_put 0x8000 (view a (0, 1))). }
  rewrite (sb_at_has _ _ T1). fold n. pose proof (iblock_range n Hn) as HI. rewrite u32_small by (unfold IBLOCK, FSSIZE in HI; lia).
  fold (IBLOCK n sb). rewrite readsect_run by done. set (s2 := set_ram _ s1).
  assert (has (ram s2) 0x8000 (take 52 (view a (0, 1)))) as T2. { apply (has_frame (ram s1)); [|done]. rewrite length_take, block_len. intros x Hx.
  apply put_out. lia. }
  rewrite (sb_at_has _ _ T2). unfold load, gets. fold n. pose proof (inode_addr (ram s2) 0x8300 n 0 (has_put _ _ _) ltac:(lia) ltac:(lia)) as EA.
  rewrite Z.add_0_r in EA. change (Z.to_nat 0) with 0%nat in EA. rewrite EA.
  rewrite readsect_run by (by apply (addr_range n Hfile)). set (s3 := set_ram _ s2).
  destruct (mbr_blocks_run n Hn Hfile 0x8600 0x9000 t Ha Hnz Hend ltac:(dlia) ltac:(lia) t 0 ADDRFUEL s3) as (s4 & E4 & B4); [lia|unfold ADDRFUEL; dlia|apply has_put|by intros j b|].
  change (Z.of_nat 0) with 0 in E4. rewrite E4. exists s4. split; [done|]. apply has_blocks in B4.
  rewrite take_ge in B4 by (rewrite length_file; dlia). by rewrite <- (hn_bytes _ _ _ _ HN).
Qed.

End disk.

(** ** bootelf *)

Lemma smalloc_run halt sz s : 0 <= hoffset s -> 0 <= sz -> hoffset s + sz < heaplen s -> heaplen s < 2 ^ 32 ->
  smalloc halt sz s = Ok (heap s + hoffset s) (set_heap (heap s) (hoffset s + sz) (heaplen s) s).
Proof. intros. unfold smalloc. cbv [mbind M_bind get mret M_ret modify]. rewrite u32_small by lia. by rewrite (proj2 (Z.leb_gt _ _)) by lia. Qed.

Lemma bootelf_setup_run s : exists s', bootelf_setup s = Ok (0x700, 0x734) s' /\ cursors s' /\ heap s' = 0x700 /\ hoffset s' = 628 /\ heaplen s' = 0x7e00.
Proof.
  unfold bootelf_setup. cbv [mbind M_bind modify smalloc_init erase]. set (s1 := set_ram _ _).
  assert (cursors s1) as C1 by (unfold cursors; cbn; lia).
  destruct (shows_each cursors (seqZ 0 (80 * 25)) (fun _ => vgaputch 32)) with (s := s1) as (s2 & E2 & C2 & F2); [intros; by apply shows_vgaputch|done|].
  unfold blank_screen. cbv [mbind M_bind modify]. rewrite E2. set (s3 := set_cursor 0 0 s2).
  assert (cursors s3) as C3 by (split; [cbn; lia|apply C2]).
  destruct (shows_printstr title) with (s := s3) as (s4 & -> & C4 & F4); [apply (bool_decide_unpack _); vm_compute; exact I|done|].
  destruct (shows_vgaputch 48) with (s := s4) as (s5 & -> & C5 & F5); [done|done|].
  assert (heap s5 = 0x700 /\ hoffset s5 = 0 /\ heaplen s5 = 0x7e00) as (H1 & H2 & H3).
  { destruct F2 as (_ & A1 & A2 & A3), F4 as (_ & B1 & B2 & B3), F5 as (_ & D1 & D2 & D3). rewrite D1, D2, D3, B1, B2, B3. unfold s3.
    cbn [set_cursor heap hoffset heaplen]. rewrite A1, A2, A3. split_and!; reflexivity. }
  rewrite (smalloc_run _ 52 s5) by (rewrite ?H2, ?H3; lia). rewrite H1, H2, H3. rewrite smalloc_run by (cbn; lia). rewrite smalloc_run by (cbn; lia).
  eexists. split; [done|]. split; [exact C5|]. split_and!; reflexivity.
Qed.

(** The loop copies what does not overlap. *)
Lemma memcpy_run dst src bs s : has (ram s) src bs -> (forall x, src <= x < src + Z.of_nat (length bs) -> ~ dst <= x < dst + Z.of_nat (length bs)) ->
  exists s', memcpy dst src (Z.of_nat (length bs)) s = Ok tt s' /\ frame (fun x => dst <= x < dst + Z.of_nat (length bs)) s s' /\ has (ram s') dst bs /\
    (forall ok, cursor_only ok -> ok s -> ok s').
Proof.
  intros Hb Hap. unfold memcpy. set (N := Z.of_nat (length bs)) in *.
  assert (forall d i s, (i + d = length bs)%nat -> has (ram s) src bs -> has (ram s) dst (take i bs) ->
    exists s', for_each (seqZ (Z.of_nat i) (Z.of_nat d)) (fun i => b ← gets (fun s => ram s (src + i)); store (dst + i) [b]) s = Ok tt s' /\
      frame (fun x => dst <= x < dst + N) s s' /\ has (ram s') dst bs /\ (forall ok, cursor_only ok -> ok s -> ok s')) as HL.
  { clear s Hb. induction d as [|d IH]; intros i s Hi Hb Hpre.
    - cbn. exists s. split; [done|]. split; [done|]. split; [|done]. by rewrite take_ge in Hpre by lia.
    - rewrite seqZ_cons by lia. cbn [for_each]. cbv [mbind M_bind gets store modify]. destruct (lookup_lt_is_Some_2 bs i ltac:(lia)) as [b Hbi].
      rewrite (Hb i b Hbi).
      set (s1 := set_ram _ s). replace (Z.succ (Z.of_nat i)) with (Z.of_nat (S i)) by lia. replace (Z.pred (Z.of_nat (S d))) with (Z.of_nat d) by lia.
      destruct (IH (S i) s1) as (s2 & E2 & F2 & B2 & O2); [lia|..].
      + apply (has_frame (ram s)); [|done]. intros x Hx. apply put_out. cbn [length]. specialize (Hap x Hx). lia.
      + rewrite (take_S_r _ _ _ Hbi). apply has_app.
        * apply (has_frame (ram s)); [|done]. rewrite length_take. intros x Hx. apply put_out. cbn [length]. lia.
        * rewrite length_take, Nat.min_l by lia. apply has_put.
      + exists s2. split; [exact E2|]. split; [|split; [done|]]. 
        * eapply frame_trans; [|exact F2|intros x H; exact (match H with or_introl h => h | or_intror h => h end)]. split; [|done]. intros x Hx.
          apply put_out. cbn [length]. lia.
        * intros ok Hok Hs. apply O2; [done|]. by apply (Hok s). }
  destruct (HL (length bs) 0%nat s) as (s' & E & H); [lia|done|by intros j b|]. by exists s'.
Qed.

(** A kernel that bootelf can load: the headers and segments lie in the whole
    blocks of the file, which fits below the vga_cells; the segments are for memory
    from the first megabyte on, and apart. *)
Definition hdr_of (f : list Z) : elfhdr := decode_elfhdr (take 52 f).
Definition ph_of (f : list Z) (k : Z) : proghdr := decode_proghdr (slice f (Z.to_nat (phoff (hdr_of f) + 32 * k)) 32).
Definition paddr_of (f : list Z) (k : Z) : Z := load_le f (Z.to_nat (phoff (hdr_of f) + 32 * k + 12)) 4.
Definition whole (f : list Z) : Z := 512 * (Z.of_nat (length f) / 512).
Record loadable (f : list Z) : Prop := {
  lo_len : Z.of_nat (length f) <= 0xa8000;
  lo_magic : magic (hdr_of f) = ELF_MAGIC;
  lo_phdrs : 52 <= whole f /\ 0 <= phoff (hdr_of f) /\ 0 <= phnum (hdr_of f) /\ phoff (hdr_of f) + 32 * phnum (hdr_of f) <= whole f;
  lo_seg k : 0 <= k < phnum (hdr_of f) -> 0 <= ph_off (ph_of f k) /\ 0 <= ph_filesz (ph_of f k) /\ ph_off (ph_of f k) + ph_filesz (ph_of f k) <= whole f /\
    ph_filesz (ph_of f k) <= ph_memsz (ph_of f k) /\ 1 <= ph_memsz (ph_of f k) /\ 0x100000 <= paddr_of f k;
  lo_apart j k : 0 <= j < k -> k < phnum (hdr_of f) ->
    paddr_of f j + ph_memsz (ph_of f j) <= paddr_of f k \/ paddr_of f k + ph_memsz (ph_of f k) <= paddr_of f j
}.
(** The bytes of segment [k] in memory: the file's, then zeros. *)
Definition segment (f : list Z) (k : Z) : list Z :=
  let p := ph_of f k in slice f (Z.to_nat (ph_off p)) (Z.to_nat (ph_filesz p)) ++ replicate (Z.to_nat (ph_memsz p - ph_filesz p)) 0.

Section segments.
Context (f : list Z) (Hf : loadable f).
Abbreviation rd := (take (Z.to_nat (whole f)) f).
Lemma whole_len : 0 <= whole f <= Z.of_nat (length f).
Proof. unfold whole. dlia. Qed.
Lemma length_rd : Z.of_nat (length rd) = whole f.
Proof. rewrite length_take. pose proof whole_len. lia. Qed.
Lemma rd_slice i n : (i + n <= Z.to_nat (whole f))%nat -> slice rd i n = slice f i n.
Proof. apply slice_take. Qed.
Lemma hdr_at m : has m elf_buf rd -> decode_elfhdr (ram_bytes m elf_buf 52) = hdr_of f.
Proof.
  intros H. destruct (lo_phdrs _ Hf) as (H1 & _). pose proof (peek_part m elf_buf rd 0 52 H ltac:(lia) ltac:(lia) ltac:(rewrite length_rd; lia)) as E.
  rewrite Z.add_0_r in E. rewrite E.
  change (Z.to_nat 0) with 0%nat. rewrite rd_slice by lia. unfold slice. by rewrite drop_0.
Qed.
Lemma ph_of_at m k : has m elf_buf rd -> 0 <= k < phnum (hdr_of f) -> ph_at m (elf_buf + (phoff (hdr_of f) + 32 * k)) = ph_of f k /\ paddr_at m (elf_buf + (phoff (hdr_of f) + 32 * k)) = paddr_of f k.
Proof.
  intros H Hk. destruct (lo_phdrs _ Hf) as (H1 & H2 & H3 & H4). split.
  - unfold ph_at, ph_of. rewrite (peek_part m elf_buf rd _ 32 H) by (rewrite ?length_rd; lia). by rewrite rd_slice by lia.
  - unfold paddr_at, paddr_of. rewrite <- Z.add_assoc. rewrite (num_part m elf_buf rd _ 4 H) by (rewrite ?length_rd; lia). unfold load_le.
    by rewrite rd_slice by lia.
Qed.

Lemma length_segment k : 0 <= k < phnum (hdr_of f) -> Z.of_nat (length (segment f k)) = ph_memsz (ph_of f k).
Proof.
  intros Hk. destruct (lo_seg _ Hf k Hk) as (H1 & H2 & H3 & H4 & H5 & H6). pose proof whole_len. unfold segment. cbv zeta.
  rewrite length_app, length_slice, length_replicate by lia. lia.
Qed.
(** What is above the first megabyte is neither buffer nor screen. *)
Lemma buffer_low x : elf_buf <= x < elf_buf + Z.of_nat (length rd) -> x < VGA.
Proof. rewrite length_rd. pose proof whole_len. pose proof (lo_len _ Hf). unfold elf_buf, VGA. lia. Qed.
Lemma shows_keeps p s : shows cursors p -> cursors s -> has (ram s) elf_buf rd -> exists s', p s = Ok tt s' /\ cursors s' /\ has (ram s') elf_buf rd /\ forall x, 0x100000 <= x -> ram s' x = ram s x.
Proof.
  intros Hp Hs Hr. destruct (Hp s Hs) as (s' & E & C & F). exists s'. split; [done|]. split; [done|]. split.
  - eapply frame_has; [exact F| |done]. intros x Hx H. apply buffer_low in H. unfold vga_cells in Hx. lia.
  - intros x Hx. apply F. unfold vga_cells, VGA. lia.
Qed.
Lemma shows_header j pa : shows cursors (if pa =? 0 then mret tt else printint2 j 10 false ;; printstr2 [58] ;; printint2 (s32 pa) 16 false ;; printstr2 [32]).
Proof.
  destruct (pa =? 0); [apply shows_ret|].
  repeat apply shows_bind; apply shows_cursor2; first [apply shows_printint; lia|apply shows_printstr; apply (bool_decide_unpack _); vm_compute; exact I].
Qed.
(** One segment: copied and padded, everything else above the first megabyte
    kept. *)
Lemma load_segment_run k s : 0 <= k < phnum (hdr_of f) -> cursors s -> has (ram s) elf_buf rd ->
  let p := ph_of f k in let pa := paddr_of f k in
  exists s', (memcpy pa (elf_buf + ph_off p) (ph_filesz p) ;; q ← gets (fun s => ph_at (ram s) (elf_buf + (phoff (hdr_of f) + 32 * k)));
      (if ph_filesz q <? ph_memsz q then printst vgaputch ;; erase (pa + ph_filesz q) (ph_memsz q - ph_filesz q) else mret tt)) s = Ok tt s' /\
    cursors s' /\ has (ram s') elf_buf rd /\ has (ram s') pa (segment f k) /\ forall x, 0x100000 <= x -> ~ pa <= x < pa + ph_memsz p -> ram s' x = ram s x.
Proof.
  intros Hk Hs Hr p pa. destruct (lo_seg _ Hf k Hk) as (H1 & H2 & H3 & H4 & H5 & H6). fold p pa in H1, H2, H3, H4, H5, H6. pose proof whole_len as Hw.
  set (bs := slice f (Z.to_nat (ph_off p)) (Z.to_nat (ph_filesz p))).
  assert (Z.of_nat (length bs) = ph_filesz p) as Hbl by (unfold bs; rewrite length_slice by lia; lia).
  assert (has (ram s) (elf_buf + ph_off p) bs) as Hb. { unfold bs. rewrite <- rd_slice by lia. rewrite <- (Z2Nat.id (ph_off p)) at 1 by lia.
  by apply has_slice. }
  destruct (memcpy_run pa (elf_buf + ph_off p) bs s Hb) as (s1 & E1 & F1 & B1 & O1).
  { intros x Hx. rewrite Hbl in Hx. pose proof (buffer_low x ltac:(rewrite length_rd; lia)). unfold VGA in *. lia. }
  rewrite Hbl in E1, F1.
  assert (has (ram s1) elf_buf rd) as R1. { eapply frame_has; [exact F1| |done]. cbn beta. intros x Hx H. apply buffer_low in H. unfold VGA in H. lia.
  }
  rewrite (bind_ok _ _ _ _ _ E1), (bind_ok _ _ _ p s1) by (unfold gets; by rewrite (proj1 (ph_of_at (ram s1) k R1 Hk))). cbv [mbind M_bind].
  assert (cursors s1) as C1 by (by apply (O1 cursors cursors_only)).
  destruct (Z.ltb_spec (ph_filesz p) (ph_memsz p)) as [Hlt|Hge].
  - destruct (shows_keeps (printst vgaputch) s1) as (s2 & -> & C2 & R2 & K2); [apply (shows_printst _ _ corner_vga cursors_only)|done|done|].
    unfold erase, modify. eexists. split; [done|]. split; [done|]. split; [|split].
    + apply (has_frame (ram s2)); [|done]. intros x Hx. apply clear_out. apply buffer_low in Hx. unfold VGA in Hx. lia.
    + change (segment f k) with (bs ++ replicate (Z.to_nat (ph_memsz p - ph_filesz p)) 0). apply has_app.
      * apply (has_frame (ram s1)); [|done]. intros x Hx. cbn [set_ram ram]. rewrite clear_out by lia. apply K2. lia.
      * intros j b Hj. apply lookup_replicate in Hj as [-> Hj]. cbn [set_ram ram]. apply clear_in. lia.
    + intros x Hx Hout. cbn [set_ram ram]. rewrite clear_out by lia. rewrite K2 by done. apply F1. lia.
  - exists s1. split; [done|]. split; [done|]. split; [done|]. split.
    + replace (segment f k) with bs; [done|]. change (segment f k) with (bs ++ replicate (Z.to_nat (ph_memsz p - ph_filesz p)) 0).
      replace (ph_memsz p - ph_filesz p) with 0 by lia. by rewrite app_nil_r.
    + intros x Hx Hout. apply F1. lia.
Qed.

Lemma load_phdrs_run : forall d j s, 0 <= j -> j + Z.of_nat d = phnum (hdr_of f) -> cursors s -> has (ram s) elf_buf rd -> (forall k, 0 <= k < j -> has (ram s) (paddr_of f k) (segment f k)) ->
  exists s', load_phdrs d (elf_buf + (phoff (hdr_of f) + 32 * j)) j s = Ok tt s' /\ cursors s' /\ has (ram s') elf_buf rd /\
    forall k, 0 <= k < phnum (hdr_of f) -> has (ram s') (paddr_of f k) (segment f k).
Proof.
  assert (forall k m m', 0 <= k < phnum (hdr_of f) -> (forall x, 0x100000 <= x -> m' x = m x) -> has m (paddr_of f k) (segment f k) -> has m' (paddr_of f k) (segment f k)) as HK.
  { intros k m m' Hk E. apply has_frame. intros x Hx. apply E. destruct (lo_seg _ Hf k Hk) as (_ & _ & _ & _ & _ & H6). lia. }
  induction d as [|d IH]; intros j s Hj Hd Hs Hr Hseg; cbn [load_phdrs]; [exists s; split; [done|]; split; [done|]; split; [done|]; intros k Hk; apply Hseg; lia|].
  assert (0 <= j < phnum (hdr_of f)) as Hjn by lia.
  destruct (shows_keeps (printst vgaputch) s) as (s1 & E1 & C1 & R1 & K1); [apply (shows_printst _ _ corner_vga cursors_only)|done|done|].
  rewrite (bind_ok _ _ _ _ _ E1). destruct (ph_of_at (ram s1) j R1 Hjn) as [Ep Ea].
  rewrite (bind_ok _ _ _ (ph_of f j) s1) by (unfold gets; by rewrite Ep). rewrite (bind_ok _ _ _ (paddr_of f j) s1) by (unfold gets; by rewrite Ea).
  destruct (shows_keeps _ s1 (shows_header j (paddr_of f j)) C1 R1) as (s2 & E2 & C2 & R2 & K2). rewrite (bind_ok _ _ _ _ _ E2).
  destruct (lo_seg _ Hf j Hjn) as (_ & _ & _ & _ & H5 & _). rewrite (proj2 (Z.ltb_ge _ 1)) by lia.
  destruct (load_segment_run j s2 Hjn C2 R2) as (s3 & E3 & C3 & R3 & B3 & K3). rewrite (bind_ok2 _ _ _ _ _ _ _ E3).
  assert (forall k, 0 <= k < j + 1 -> has (ram s3) (paddr_of f k) (segment f k)) as Hseg3.
  { intros k Hk. destruct (decide (k = j)) as [->|Hne]; [done|]. apply (has_frame (ram s2)).
    - rewrite length_segment by lia. intros x Hx. apply K3; [destruct (lo_seg _ Hf k ltac:(lia)) as (_ & _ & _ & _ & _ & H6); lia|].
      destruct (lo_apart _ Hf k j ltac:(lia) ltac:(lia)); lia.
    - apply (HK k (ram s1)); [lia|done|]. apply (HK k (ram s)); [lia|done|]. apply Hseg. lia. }
  replace (elf_buf + (phoff (hdr_of f) + 32 * j) + 32) with (elf_buf + (phoff (hdr_of f) + 32 * (j + 1))) by lia. apply IH; [lia|lia|done|done|done].
Qed.
End segments.

(** ** The loaders *)

Section loaders.
Context (a : astate) (drives : Z -> Z -> block) (sb : superblock) (nd : node).
Hypothesis Hdr : forall b, 0 <= b < FSSIZE -> drives 0 b = view a (0, b).
Hypothesis Hsb : decode_sb (view a (0, 1)) = sb.
Hypothesis Hfs : fs_ok a 0 sb.
Hypothesis Hsys : system sb <> 0.
Hypothesis Hnode : holds_node a sb (kerninode sb) nd.
(** The address blocks of the kernel's file; none behind its end. *)
Let ip : inode := inode_of a sb (kerninode sb).
Let m : nat := Z.to_nat ((Z.of_nat (length (nd_bytes nd)) + 65535) / 65536).
Hypothesis Hend : addr_at ip m = 0.

Lemma kernel_size : i_size ip = Z.of_nat (length (nd_bytes nd)).
Proof.
  pose proof (fo_size _ _ _ (hn_file _ _ _ _ Hnode)). rewrite <- (hn_bytes _ _ _ _ Hnode). unfold contents, bytes. rewrite length_fmap, length_seqZ.
  unfold ip. lia.
Qed.
Lemma kernel_inum : 0 <= kerninode sb < ninodes sb.
Proof. apply (fo_inum _ _ _ (hn_file _ _ _ _ Hnode)). Qed.
Lemma kernel_addrs k : (k < m)%nat -> addr_at ip k <> 0.
Proof.
  intros Hk. assert (ptr a ip (128 * Z.of_nat k) <> 0) as H. { apply (fo_mapped _ _ _ (hn_file _ _ _ _ Hnode)); [lia|]. fold ip. rewrite kernel_size.
  unfold m in Hk. dlia. }
  apply ptr_addr in H. unfold offset2real, NINDIRECT in H. cbn [fst] in H. by replace (Z.to_nat (128 * Z.of_nat k / 128)) with k in H by dlia.
Qed.

(** Stages 1 to 3 with the buffer for block numbers at [addrs]. *)
Lemma read_kernel_run show ok dn addrs pa s : at_corner show -> cursor_only ok -> (forall k, 0 <= k -> shows ok (stage show k)) -> ok s -> (m < 12)%nat ->
  has (ram s) dn (view a (0, IBLOCK (kerninode sb) sb)) -> let t := i_size ip / 512 in
  (forall x, addrs <= x < addrs + 512 * Z.of_nat m -> ~ vga_cells x /\ ~ dn <= x < dn + 512) -> (forall x, dn <= x < dn + 512 -> ~ vga_cells x) ->
  (forall x, pa <= x < pa + 512 * t -> ~ vga_cells x /\ ~ addrs <= x < addrs + 512 * Z.of_nat m) ->
  exists s', (read_addrs drives show ADDRFUEL (dn + 64 * (kerninode sb mod IPB)) addrs 0 ;; stage show 3 ;; readfile drives show addrs pa (i_size ip) 0) s = Ok tt s' /\ ok s' /\
    has (ram s') pa (take (Z.to_nat (whole (nd_bytes nd))) (nd_bytes nd)).
Proof.
  intros Hc Hok Hst Hs Hm Hin t R1 R2 R3. pose proof (hn_file _ _ _ _ Hnode) as Hfile. pose proof kernel_inum as Hn.
  pose proof (fo_size _ _ _ Hfile) as Hsz. fold ip in Hsz, Hfile.
  assert (Z.of_nat m = (i_size ip + 65535) / 65536) as Em by (rewrite kernel_size; unfold m; pose proof (Z.div_pos (Z.of_nat (length (nd_bytes nd)) + 65535) 65536); lia).
  destruct (read_addrs_run a drives sb Hdr Hfs show ok Hc Hok (kerninode sb) Hn Hfile m dn addrs Hm kernel_addrs Hend R1 R2 m 0 ADDRFUEL s) as (s1 & E1 & O1 & F1 & B1);
    [lia|unfold ADDRFUEL; lia|done|done|by intros j b|]. change (Z.of_nat 0) with 0 in E1. rewrite Z.mul_0_r, Z.add_0_r in E1. cbv [mbind M_bind].
    rewrite E1.
  destruct (Hst 3 ltac:(lia) s1 O1) as (s2 & -> & O2 & F2).
  assert (has (ram s2) addrs (mjoin (ablock a sb (kerninode sb) <$> seq 0 m))) as B2.
  { eapply frame_has; [exact F2| |done]. rewrite (length_join _ 512) by (intros k; by apply length_ablock). intros x Hx H.
    destruct (R1 x); [lia|done]. }
  assert (0 <= t /\ t <= 128 * Z.of_nat m /\ t * 512 <= i_size ip) as (T1 & T2 & T3) by (unfold t; rewrite Em; clear - Hsz; dlia).
  unfold readfile. fold t.
  destruct (readfile_run a drives sb Hdr Hfs show ok Hc Hok (kerninode sb) Hn Hfile m addrs pa t kernel_addrs T1 T2 T3 R3 ltac:(intros x Hx; by apply R1)
    (Z.to_nat t) 0 s2) as (s3 & E3 & O3 & F3 & B3); [lia|lia|done|done|by intros j b|]. rewrite Z.sub_0_r in E3. exists s3. split; [exact E3|]. split; [done|].
  apply has_blocks in B3; [|done..]. rewrite (hn_bytes _ _ _ _ Hnode) in B3.
  replace (Z.to_nat (whole (nd_bytes nd))) with (512 * Z.to_nat t)%nat; [done|]. unfold whole. rewrite <- kernel_size. fold t. lia.
Qed.

Lemma bootelf_run s : loadable (nd_bytes nd) ->
  exists s', bootelf drives s = Ok (entry (hdr_of (nd_bytes nd))) s' /\ forall k, 0 <= k < phnum (hdr_of (nd_bytes nd)) -> has (ram s') (paddr_of (nd_bytes nd) k) (segment (nd_bytes nd) k).
Proof.
  intros Hlo. set (f := nd_bytes nd) in *. pose proof (lo_len _ Hlo) as Hlen. pose proof kernel_size as Hks. fold f in Hks.
  assert (Z.of_nat m <= 11) as Em by (unfold m; fold f; clear - Hlen; dlia).
  set (sz := (i_size ip / 512 + (if i_size ip mod 512 =? 0 then 0 else 1)) * 4).
  assert (0 <= sz <= 5380) as Hsz by (unfold sz; rewrite Hks; clear - Hlen; destruct (_ =? 0); dlia).
  assert (0 <= 512 * (i_size ip / 512) <= 0xa8000) as Ht by (rewrite Hks; clear - Hlen; dlia).
  unfold bootelf. destruct (bootelf_setup_run s) as (s1 & E1 & C1 & H1 & O1 & L1). rewrite (bind_ok _ _ _ _ _ E1). cbv beta iota.
  destruct (find_kernel_run a drives sb Hdr Hsb Hfs vgaputch cursors cursors_only shows_stage (fun A => panic_elf) 0x700 0x734 s1 C1 eq_refl) as (s2 & E2 & C2 & F2 & B2);
    [unfold vga_cells, VGA; lia|apply kernel_inum|done|]. rewrite (bind_ok _ _ _ _ _ E2). cbv beta iota. fold ip. fold sz.
  destruct F2 as (_ & H2 & O2 & L2). rewrite H1 in H2. rewrite O1 in O2. rewrite L1 in L2.
  rewrite (bind_ok _ _ _ _ _ (smalloc_run smalloc_panic sz s2 ltac:(lia) ltac:(lia) ltac:(lia) ltac:(lia))).
  rewrite H2, O2, L2. set (s3 := set_heap _ _ _ s2). assert (cursors s3) as C3 by exact C2.
  destruct (read_kernel_run vgaputch cursors 0x734 (0x700 + 628) elf_buf s3 corner_vga cursors_only shows_stage C3) as (s4 & E4 & C4 & R4);
    [lia|done|unfold vga_cells, VGA; lia|unfold vga_cells, VGA; lia|unfold vga_cells, VGA, elf_buf; lia|]. fold f in R4.
    rewrite (bind_ok3 _ _ _ _ _ _ _ E4).
  rewrite (bind_ok _ _ s4 (hdr_of f) s4) by (unfold gets; by rewrite (hdr_at f Hlo)). rewrite (proj2 (Z.eqb_eq _ _) (lo_magic _ Hlo)).
  rewrite (bind_ok _ _ s4 tt s4) by done.
  destruct (shows_keeps f Hlo (stage vgaputch 4) s4 (shows_stage 4 ltac:(lia)) C4 R4) as (s5 & E5 & C5 & R5 & _). rewrite (bind_ok _ _ _ _ _ E5).
  destruct (shows_keeps f Hlo (printstr2 c_kernel) s5) as (s6 & E6 & C6 & R6 & _); [apply shows_cursor2, shows_printstr; apply (bool_decide_unpack _); vm_compute; exact I|done|done|].
  rewrite (bind_ok _ _ _ _ _ E6).
  destruct (lo_phdrs _ Hlo) as (_ & _ & P3 & _).
  destruct (load_phdrs_run f Hlo (Z.to_nat (phnum (hdr_of f))) 0 s6) as (s7 & E7 & C7 & R7 & B7); [lia|lia|done|done|lia|].
  rewrite Z.mul_0_r, Z.add_0_r in E7. rewrite (bind_ok _ _ _ _ _ E7).
  destruct (shows_keeps f Hlo (stage vgaputch 5) s7 (shows_stage 5 ltac:(lia)) C7 R7) as (s8 & E8 & C8 & R8 & K8). rewrite (bind_ok _ _ _ _ _ E8).
  exists s8. split; [unfold gets; by rewrite (hdr_at f Hlo)|]. intros k Hk. apply (has_frame (ram s7)); [|by apply B7]. intros x Hx. apply K8.
  destruct (lo_seg _ Hlo k Hk) as (_ & _ & _ & _ & _ & H6). lia.
Qed.

Lemma each_const {A} (l : list A) c : for_each l (fun _ => binputch c) = for_each (replicate (length l) c) binputch.
Proof. induction l as [|x l IH]; [done|]. cbn [for_each length replicate]. by rewrite IH. Qed.
Lemma bootbin_run s : Z.of_nat (length (nd_bytes nd)) < 11 * 65536 ->
  exists s', bootbin drives s = Ok 0x100000 s' /\ has (ram s') 0x100000 (take (Z.to_nat (whole (nd_bytes nd))) (nd_bytes nd)).
Proof.
  intros Hlen. pose proof kernel_size as Hks. assert (Z.of_nat m <= 11) as Em by (unfold m; clear - Hlen; dlia).
  set (sz := 512 * (i_size ip / 65536 + (if i_size ip mod 65536 =? 0 then 0 else 1))).
  assert (0 <= sz <= 6144) as Hsz by (unfold sz; rewrite Hks; clear - Hlen; destruct (_ =? 0); dlia).
  assert (0 <= 512 * (i_size ip / 512) <= 720896) as Ht by (rewrite Hks; clear - Hlen; dlia).
  assert (cursor_only bin_cursor) as HO by (intros t t' E1 E2 _ _; unfold bin_cursor; by rewrite E1, E2).
  unfold bootbin. set (s0 := set_stiter 0 (set_cursor 0 0 s)). rewrite (bind_ok _ _ _ tt s0) by done.
  set (s1 := set_ram (clear 0x800000 0x100000 (ram s)) (set_heap 0x800000 0 0x100000 s0)). rewrite (bind_ok _ _ _ tt s1) by done.
  destruct (bin_shows (replicate 2000 32)) with (s := s1) (n := 0) as (s2 & E2 & F2 & _); [intros c [-> _]%elem_of_replicate; done|lia|rewrite length_replicate; lia|done|done|cbn; lia|].
  set (s3 := set_cursor 0 0 s2). rewrite (bind_ok _ _ _ tt s3).
  2:{ unfold blank_screen. rewrite each_const, length_seqZ. change (Z.to_nat (80 * 25)) with 2000%nat. by rewrite (bind_ok _ _ _ _ _ E2). }
  destruct (bin_shows bin_title) with (s := s3) (n := 0) as (s4 & E4 & F4 & P4 & L4 & K4); [intros c Hc; unfold bin_title in Hc; rewrite !elem_of_cons in Hc; unfold c_nl, c_bs; assert (c ∉ ([] : list Z)) by apply not_elem_of_nil; intuition lia|lia|cbn; lia|done|done|cbn; lia|].
  rewrite (bind_ok _ _ _ _ _ E4). cbn [bin_title length] in P4.
  assert (bin_cursor s4) as C4 by (unfold bin_cursor; lia). assert (heap s4 = 0x800000 /\ hoffset s4 = 0 /\ heaplen s4 = 0x100000) as (H4 & O4 & T4).
  { destruct F2 as (_ & A1 & A2 & A3), F4 as (_ & B1 & B2 & B3). rewrite B1, B2, B3. unfold s3. cbn [set_cursor heap hoffset heaplen].
    rewrite A1, A2, A3. split_and!; reflexivity. }
  rewrite (bind_ok _ _ _ _ _ (smalloc_run (panic "smalloc") 52 s4 ltac:(lia) ltac:(lia) ltac:(lia) ltac:(lia))). rewrite H4, O4, T4.
  set (u1 := set_heap 0x800000 (0 + 52) 0x100000 s4).
  rewrite (bind_ok _ _ _ _ _ (smalloc_run (panic "smalloc") 64 u1 ltac:(cbn; lia) ltac:(lia) ltac:(cbn; lia) ltac:(cbn; lia))).
  set (u2 := set_heap _ _ _ u1).
  rewrite (bind_ok _ _ _ _ _ (smalloc_run (panic "smalloc") 512 u2 ltac:(cbn; lia) ltac:(lia) ltac:(cbn; lia) ltac:(cbn; lia))).
  set (u3 := set_heap _ _ _ u2). change (heap u1 + hoffset u1) with 0x800034. change (0x800000 + 0) with 0x800000.
  match goal with |- context [(erase ?x ?n ;; _) ?t] => set (s5 := set_ram (clear x n (ram t)) t); rewrite (bind_ok _ _ t tt s5) by done end.
  assert (bin_cursor s5) as C5 by exact C4.
  destruct (find_kernel_run a drives sb Hdr Hsb Hfs binputch bin_cursor HO shows_bin_stage (fun A => panic_bin) 0x800000 0x800034 s5 C5 eq_refl) as (s6 & E6 & C6 & F6 & B6);
    [unfold vga_cells, VGA; lia|apply kernel_inum|done|].
  rewrite (bind_ok _ _ _ _ _ E6). cbv beta iota. fold ip. fold sz.
  destruct F6 as (_ & H6 & O6 & T6). change (heap s5) with 0x800000 in H6. change (hoffset s5) with 628 in O6.
  change (heaplen s5) with 0x100000 in T6.
  rewrite (bind_ok _ _ _ _ _ (smalloc_run (panic "smalloc") sz s6 ltac:(lia) ltac:(lia) ltac:(lia) ltac:(lia))). rewrite H6, O6, T6.
  set (s7 := set_heap _ _ _ s6). assert (bin_cursor s7) as C7 by exact C6.
  destruct (read_kernel_run binputch bin_cursor 0x800034 (0x800000 + 628) kernel_bin s7 corner_bin HO shows_bin_stage C7) as (s8 & E8 & C8 & R8);
    [lia|done|unfold vga_cells, VGA; lia|unfold vga_cells, VGA; lia|unfold vga_cells, VGA, kernel_bin; lia|]. rewrite (bind_ok3 _ _ _ _ _ _ _ E8).
  destruct (shows_bin_stage 5 ltac:(lia) s8 C8) as (s9 & E9 & C9 & F9). rewrite (bind_ok _ _ _ _ _ E9). exists s9. split; [done|].
  eapply frame_has; [exact F9| |exact R8]. rewrite length_take. unfold vga_cells, VGA. lia.
Qed.
End loaders.

(** The bytes behind the last whole block are not read. *)
Lemma readfile_whole_blocks drives show addrs pa count offset s : readfile drives show addrs pa count offset s = readfile drives show addrs pa (count - count mod 512) offset s.
Proof. unfold readfile. by replace ((count - count mod 512) / 512) with (count / 512) by dlia. Qed.

(** C10: from the boot record to the kernel.  On a disk that holds a file system
    whose boot inode is a file of at most 127 blocks and whose kernel inode is an
    ELF file that can be loaded (at most 0xa8000 bytes; headers and segments inside
    its whole blocks, since a last partial block is not read; segments apart and
    from 1 MB on), neither with blocks behind its end, the boot
    record puts the whole boot file at 0x9000 and goes there; the loader started
    there, whatever it finds in memory, goes to the kernel's entry point with
    every segment at its physical address, the bytes of the file first and zeros
    up to its size in memory.  The flat loader puts the whole blocks of the
    kernel's file at 1 MB and goes there. *)
Theorem boot_chain a drives s ns boot kern st :
  mounts a s ns -> (forall b, 0 <= b < FSSIZE -> drives 0 b = view a (0, b)) -> system s <> 0 ->
  ns !! bootinode s = Some boot -> 0 < Z.of_nat (length (nd_bytes boot)) <= 127 * 512 ->
  ptr a (inode_of a s (bootinode s)) ((Z.of_nat (length (nd_bytes boot)) + 511) / 512) = 0 ->
  ns !! kerninode s = Some kern -> loadable (nd_bytes kern) ->
  addr_at (inode_of a s (kerninode s)) (Z.to_nat ((Z.of_nat (length (nd_bytes kern)) + 65535) / 65536)) = 0 ->
  exists st1, mbrmain drives st = Ok 0x9000 st1 /\ has (ram st1) 0x9000 (nd_bytes boot) /\
  (exists st2, bootelf drives st1 = Ok (entry (hdr_of (nd_bytes kern))) st2 /\
     forall k, 0 <= k < phnum (hdr_of (nd_bytes kern)) -> has (ram st2) (paddr_of (nd_bytes kern) k) (segment (nd_bytes kern) k)) /\
  (exists st2, bootbin drives st1 = Ok kernel_bin st2 /\ has (ram st2) kernel_bin (take (Z.to_nat (whole (nd_bytes kern))) (nd_bytes kern))).
Proof.
  intros [Msb Mfs Mnode _] Hdr Hsys Hboot Hlen Hbend Hkern Hlo Hkend.
  destruct (mbrmain_run a drives s Hdr Msb Mfs boot st (Mnode _ _ Hboot) Hlen Hbend) as (st1 & E1 & R1).
  exists st1. split; [exact E1|]. split; [exact R1|]. pose proof (lo_len _ Hlo) as Hl. split.
  - exact (bootelf_run a drives s kern Hdr Msb Mfs Hsys (Mnode _ _ Hkern) Hkend st1 Hlo).
  - apply (bootbin_run a drives s kern Hdr Msb Mfs Hsys (Mnode _ _ Hkern) Hkend st1). lia.
Qed.

(** ** Example *)

(** An image with a boot file of 600 bytes and a kernel of two segments. *)
Module BootSample.
Definition word (x : Z) : list Z := le_bytes 4 x.
Definition ehdr : list Z := word ELF_MAGIC ++ replicate 20 0 ++ word 0x80100004 ++ word 52 ++ replicate 12 0 ++ le_bytes 2 2 ++ replicate 6 0.
Definition phdr (off pa fsz msz : Z) : list Z := word 1 ++ word off ++ word (0x80000000 + pa) ++ word pa ++ word fsz ++ word msz ++ word 7 ++ word 4096.
Definition kernel : list Z := ehdr ++ phdr 512 0x100000 16 16 ++ phdr 528 0x200000 8 32 ++ replicate 396 0 ++ replicate 16 1 ++ replicate 8 2 ++ replicate 488 0.
Definition loader : list Z := replicate 600 5.
Definition host (n : list Z) : option (list (list Z)) :=
  if streq n [95; 107] then Some [take 512 kernel; drop 512 kernel] else if streq n [95; 98] then Some [take 512 loader; drop 512 loader] else None.
Definition entry (t : etype) (name source : list Z) : Entry := MkEntry t true (Some 0%nat) name [47] source 0 0 0x55.
Definition fsys : Entry := deactivate (entry FSYS [86] []).
Definition last : Entry := entry SYNC [] [].
Definition es : list Entry := [entry EFILE [107] [95; 107]; entry EFILE [98] [95; 98]; entry KERNEL [107] []; entry BOOTLOADER [98] []].
Definition opt : options := Options false None None false 0.
Definition sample_disk (f : Mkproto.Fs) : astate := MkSample.image_disk (img f).

Definition good (f : Mkproto.Fs) : bool :=
  (length (bmap f) =? 512)%nat && (kerninode (sb f) =? 2) && (bootinode (sb f) =? 3) && (system (sb f) =? 1)
  && (ptr (sample_disk f) (inode_of (sample_disk f) (sb f) 3) 2 =? 0) && (addr_at (inode_of (sample_disk f) (sb f) 2) 1 =? 0).
Lemma image : match makefs [86] 200 30 20 with
  | Ok _ f => match runentries host opt (Mk [f] (Some 0%nat) (fsys :: es ++ [last])) with Ok _ s => match fss s with [f'] => good f' | _ => false end | _ => false end
  | _ => false end = true.
Proof. vm_compute. reflexivity. Qed.
Lemma nodes : (fun t => (t_nodes t !! 2, t_nodes t !! 3)) <$> grow_all host es root_tree = Some (Some (Node T_FILE 0 0x55 kernel), Some (Node T_FILE 0 0x55 loader)).
Proof. vm_compute. reflexivity. Qed.
Lemma kernel_loadable : loadable kernel.
Proof.
  assert (phnum (hdr_of kernel) = 2) as En by (vm_compute; reflexivity). split.
  - vm_compute. discriminate.
  - vm_compute. reflexivity.
  - rewrite En. split_and!; vm_compute; discriminate.
  - intros k Hk. rewrite En in Hk. assert (k = 0 \/ k = 1) as [-> | ->] by lia; split_and!; vm_compute; discriminate.
  - intros j k Hj Hk. rewrite En in Hk. assert (j = 0 /\ k = 1) as [-> ->] by lia. left. vm_compute. discriminate.
Qed.
Definition off : machine := Machine (fun _ => 0) [] 0 0 0 0 0 0 0 0.

Lemma boot_chain_witness : exists drives st1 st2, mbrmain drives off = Ok 0x9000 st1 /\ has (ram st1) 0x9000 loader /\
  bootelf drives st1 = Ok 0x80100004 st2 /\ has (ram st2) 0x100000 (replicate 16 1) /\ has (ram st2) 0x200000 (replicate 8 2 ++ replicate 24 0).
Proof.
  pose proof image as R.
  pose proof (mkproto_ok host opt eq_refl [86] 200 30 20 fsys last es ltac:(cbn; lia) ltac:(lia) MkSample.room ltac:(cbn; lia) eq_refl
    ltac:(repeat constructor) ltac:(repeat constructor; discriminate) (conj eq_refl eq_refl) eq_refl) as H.
  destruct (makefs [86] 200 30 20) as [[] f|m f|f|f]; [|discriminate R..]. unfold outcome1 in H.
  destruct (runentries host opt _) as [[] s|m s|s|s]; [|discriminate R..].
  destruct H as (f' & E & _ & H). rewrite E in R. unfold good in R. rewrite !andb_true_iff, !Z.eqb_eq in R.
  destruct R as (((((Hl%Nat.eqb_eq & Hk) & Hb) & Hs) & Hp) & Ha).
  destruct H as (t & Et & H). { intros i c Hi Hc. apply lookup_lt_Some in Hc. unfold BSIZE in Hi. lia. }
  pose proof nodes as T. rewrite Et in T. injection T as T2 T3.
  destruct (boot_chain (sample_disk f') (fun _ b => view (sample_disk f') (0, b)) (sb f') (t_nodes t) (Node T_FILE 0 0x55 loader) (Node T_FILE 0 0x55 kernel) off) as (st1 & E1 & R1 & (st2 & E2 & R2) & _).
  - apply H, MkSample.disk_image.
  - done.
  - by rewrite Hs.
  - by rewrite Hb.
  - split; vm_compute; [reflexivity|discriminate].
  - rewrite Hb. exact Hp.
  - by rewrite Hk.
  - exact kernel_loadable.
  - rewrite Hk. exact Ha.
  - exists (fun _ b => view (sample_disk f') (0, b)), st1, st2. split; [exact E1|]. split; [exact R1|]. split; [exact E2|].
    split; [exact (R2 0 ltac:(split; vm_compute; [discriminate|reflexivity]))|exact (R2 1 ltac:(split; vm_compute; [discriminate|reflexivity]))].
Defined.
End BootSample.
