(* ===== verification/Start.v ===== *)
(** Start-up of the kernel ([main.c]): the page tables it is entered with, and
    how [main] gives memory to the page allocator.

    [main] also sets up consoles, interrupt controllers, tables and devices, which
    does not touch pages; the first two processes are made by [kernelinit] and
    [userinit] (Proc.v).  What the boot code leaves at 0x500 and the image of
    [entryother.S] are arguments. *)

From S2P Require Import Prelude Params Alloc Vm VmFacts.

(** ** The page tables at entry *)

Definition PGSHIFT : Z := 12.
Definition PDXSHIFT : Z := 22.
Definition entry_pte (i : Z) : Z := Z.lor (Z.lor (Z.shiftl i PGSHIFT) PTE_P) PTE_W.
Definition entrypgtable1 : list Z := entry_pte <$> seqZ 0 NPTENTRIES.
Definition entrypgtable2 : list Z := entry_pte <$> seqZ 0 NPTENTRIES.

(** [entry] in [entry.S] fills in the directory, by the physical addresses of the tables. *)
Definition entry_pde (t : Z) : Z := Z.lor (Z.lor (Z.land t 0xfffff000) PTE_P) PTE_W.
Definition entrypgdir (t1 t2 : Z) : list Z := <[0%nat := entry_pde t1]> (<[512%nat := entry_pde t2]> (replicate NPDENTRIES 0)).
(** [setuppgdir], which nothing calls, would fill in these. *)
Definition setuppgdir_pde (t : Z) : Z := u32 (Z.lor (Z.lor (Z.shiftl (Z.ldiff (v2p t) 0xfff) PGSHIFT) PTE_P) PTE_W).
Definition setuppgdir (t1 t2 : Z) (d : list Z) : list Z :=
  <[Z.to_nat (Z.shiftr KERNBASE PDXSHIFT) := setuppgdir_pde t2]> (<[0%nat := setuppgdir_pde t1]> d).

(** ** Memory *)

Definition ISAHOLEEND : Z := 0x1000000.
Definition KSTACKSIZE : Z := 4096.
Definition NCPU : Z := 24.
(** The sizes at 0x500 and 0x504: KB from 1 MB on, blocks of 64 KB from 16 MB on. *)
Record e801 := E801 { mem1 : Z; mem2 : Z }.
Definition lowmem (b : e801) : Z := u32 (mem1 b * 1024).
Definition highmem (b : e801) : Z := u32 (mem2 b * (64 * 1024)).

Section main.
Context (kend kdata : Z).                     (* [end] and [data], from the linker script *)
Context (entryother : list Z) (mpenter entrypgdir_at : Z).
Context (ncpu : Z) (cpunum : Z).

(** The other processors are started one at a time; each finds its stack, where
    to go and its page directory below the code at 0x7000. *)
Definition start_one (code : Z) : M kpages unit :=
  stack ← kalloc_page;
  stw ((code - 4) / 4) (u32 (stack + KSTACKSIZE)) ;;
  stw ((code - 8) / 4) mpenter ;;
  stw ((code - 12) / 4) (v2p entrypgdir_at).
Definition startothers : M kpages unit :=
  let code := p2v 0x7000 in
  on_mem (st_bytes code entryother) ;;
  for_each (seqZ 0 ncpu) (fun c => if c =? cpunum then mret tt else start_one code).

Definition main (b : e801) : M kpages Z :=
  if lowmem b <? 0x3e0000 then blocked else
  allocmem1 ← (if 4 * 1024 * 1024 <? lowmem b then kinit1 kend kend (p2v (4 * 1024 * 1024)) ;; mret (lowmem b - 4 * 1024 * 1024)
               else kinit1 kend kend (p2v (lowmem b)) ;; mret 0);
  kpgdir ← setupkvm kdata;
  startothers ;;
  (if 0 <? allocmem1 then kinit2 kend (p2v (4 * 1024 * 1024)) (p2v (lowmem b)) else mret tt) ;;
  (if 0 <? highmem b then
     if PHYSTOP <? highmem b then kinit2 kend (p2v ISAHOLEEND) (p2v PHYSTOP) else kinit2 kend (p2v ISAHOLEEND) (p2v (highmem b))
   else mret tt) ;;
  mret kpgdir.
End main.

(** ** Freeing ranges *)

Definition run_of (p n : Z) : list Z := (fun i => p + 4096 * i) <$> seqZ 0 n.
Lemma run_of_cons p n : 0 < n -> run_of p n = p :: run_of (p + 4096) (n - 1).
Proof.
  intros Hn. unfold run_of. rewrite seqZ_cons by lia. cbn [fmap list_fmap]. f_equal; [lia|].
  change (seqZ (Z.succ 0) (Z.pred n)) with (seqZ (1 + 0) (n - 1)).
  rewrite <- fmap_add_seqZ. rewrite <- list_fmap_compose. apply list_fmap_ext. intros _ i _. cbn. lia.
Qed.
Lemma run_of_app p n m : 0 <= n -> 0 <= m -> run_of p (n + m) = run_of p n ++ run_of (p + 4096 * n) m.
Proof.
  intros Hn Hm. unfold run_of. rewrite seqZ_app by lia. rewrite fmap_app. f_equal. rewrite <- (Z.add_comm n 0), <- fmap_add_seqZ.
  rewrite <- list_fmap_compose.
  apply list_fmap_ext. intros _ i _. cbn. lia.
Qed.
Lemma elem_run v p n : v ∈ run_of p n <-> exists i, v = p + 4096 * i /\ 0 <= i < n.
Proof. unfold run_of. rewrite list_elem_of_fmap. split; intros (i & -> & H); exists i; (split; [done|]); rewrite elem_of_seqZ in *; lia. Qed.
Lemma nodup_run p n : NoDup (run_of p n).
Proof. apply NoDup_fmap_2; [intros i j H; lia|apply NoDup_seqZ]. Qed.

Section freeing.
(** Anything that survives freeing a page that is in use. *)
Context (kend : Z) (I : kpages -> list Z -> list Z -> Prop).
Context (I_free : forall s L v O, I s L (v :: O) -> exists s', kfree kend v s = Ok tt s' /\ I s' (v :: L) O).

Lemma freerange_loop_run fuel : forall n p vend s L O, I s L (run_of p n ++ O) -> 0 <= p -> 0 <= n -> p + 4096 * n + 4096 < 2 ^ 32 -> vend < p + 4096 * n + 4096 ->
  (n = 0 \/ p + 4096 * n <= vend) -> n <= Z.of_nat fuel -> exists s' L', freerange_loop kend fuel p vend s = Ok tt s' /\ I s' L' O /\ L' ≡ₚ run_of p n ++ L.
Proof.
  induction fuel as [|fuel IH]; intros n p vend s L O HI Hp Hn Hb Hv Hv2 Hf.
  - assert (n = 0) as -> by lia. exists s, L. by split.
  - cbn [freerange_loop]. unfold PGSIZE. rewrite u32_small by lia. destruct (decide (n = 0)) as [->|Hn0].
    + rewrite (proj2 (Z.leb_gt _ _)) by lia. exists s, L. by split.
    + rewrite (proj2 (Z.leb_le _ _)) by lia. rewrite run_of_cons in HI by lia. destruct (I_free s L p _ HI) as (s1 & E1 & I1).
      rewrite (bind_ok _ _ _ _ _ E1).
      destruct (IH (n - 1) (p + 4096) vend s1 (p :: L) O I1) as (s' & L' & E & I' & P); try lia.
      exists s', L'. split; [done|]. split; [done|]. rewrite P, (run_of_cons p n) by lia. solve_Permutation.
Qed.
End freeing.

(** The whole pages from [lo] to [hi]. *)
Definition first_page (lo : Z) : Z := (lo + 4095) / 4096 * 4096.
Definition pages_in (lo hi : Z) : list Z := run_of (first_page lo) (Z.max 0 ((hi - first_page lo) / 4096)).
Lemma elem_pages v lo hi : v ∈ pages_in lo hi -> v mod 4096 = 0 /\ lo <= v /\ v + 4096 <= hi.
Proof. unfold pages_in, first_page. intros (i & -> & Hi)%elem_run. dlia. Qed.
Lemma pages_in_split lo mid hi : mid mod 4096 = 0 -> lo <= mid <= hi -> pages_in lo hi = pages_in lo mid ++ pages_in mid hi.
Proof.
  intros Hm H. unfold pages_in. assert (first_page mid = mid) as E by (unfold first_page; dlia).
  assert (first_page lo <= mid) as Hf by (unfold first_page; dlia). rewrite E.
  assert (first_page lo mod 4096 = 0) as Hl by (unfold first_page; dlia).
  replace (Z.max 0 ((hi - first_page lo) / 4096)) with (Z.max 0 ((mid - first_page lo) / 4096) + Z.max 0 ((hi - mid) / 4096)) by dlia.
  rewrite run_of_app by lia. do 2 f_equal. dlia.
Qed.

Section ranges.
Context (kend : Z) (I : kpages -> list Z -> list Z -> Prop).
Context (I_free : forall s L v O, I s L (v :: O) -> exists s', kfree kend v s = Ok tt s' /\ I s' (v :: L) O).
Context (I_lock : forall s L O b, I s L O -> I (KPages (kp_mem s) (Pages b (freelist (kp_pages s)))) L O).

Lemma freerange_run vstart vend s L O : I s L (pages_in vstart vend ++ O) -> 0 <= vstart <= 0xF0000000 -> 0 <= vend <= 0xF0000000 ->
  exists s' L', freerange kend vstart vend s = Ok tt s' /\ I s' L' O /\ L' ≡ₚ pages_in vstart vend ++ L.
Proof.
  intros HI Hs He. unfold freerange. rewrite PGROUNDUP_eq by (unfold PGSIZE; lia).
  change ((vstart + PGSIZE - 1) / PGSIZE * PGSIZE) with ((vstart + 4096 - 1) / 4096 * 4096).
  replace ((vstart + 4096 - 1) / 4096 * 4096) with (first_page vstart) by (unfold first_page; f_equal; f_equal; lia).
  apply (freerange_loop_run kend I I_free); [done|..]; unfold first_page, PGSIZE; dlia.
Qed.
Lemma kinit1_run vstart vend s L O : I s L (pages_in vstart vend ++ O) -> 0 <= vstart <= 0xF0000000 -> 0 <= vend <= 0xF0000000 ->
  exists s' L', kinit1 kend vstart vend s = Ok tt s' /\ I s' L' O /\ L' ≡ₚ pages_in vstart vend ++ L.
Proof. intros HI Hs He. unfold kinit1. erewrite bind_ok by reflexivity. apply freerange_run; [by apply I_lock|done|done]. Qed.
Lemma kinit2_run vstart vend s L O : I s L (pages_in vstart vend ++ O) -> 0 <= vstart <= 0xF0000000 -> 0 <= vend <= 0xF0000000 ->
  exists s' L', kinit2 kend vstart vend s = Ok tt s' /\ I s' L' O /\ L' ≡ₚ pages_in vstart vend ++ L.
Proof.
  intros HI Hs He. unfold kinit2. destruct (freerange_run vstart vend s L O HI Hs He) as (s1 & L1 & E & I1 & P). rewrite (bind_ok _ _ _ _ _ E).
  eexists _, L1. split; [reflexivity|]. split; [by apply I_lock|done].
Qed.
End ranges.

Lemma kfree_sys kend s L pgdir T U v O : sys kend s L pgdir T U (v :: O) -> exists s', kfree kend v s = Ok tt s' /\ sys kend s' (v :: L) pgdir T U O.
Proof.
  intros Hs. pose proof (owned_sys _ _ _ _ _ _ _ Hs) as Ho. destruct Hs as [F S N G].
  assert (pgdir :: tabs T ++ frames U ++ v :: O ≡ₚ v :: pgdir :: tabs T ++ frames U ++ O) as EP by solve_Permutation.
  destruct (kfree_owned kend s L v (pgdir :: tabs T ++ frames U ++ O) (owned_perm _ _ _ _ _ EP Ho)) as (s' & E & [F' N' G'] & Hsb). exists s'.
  split; [done|].
  split; [done| |done|done]. rewrite EP in N, G. apply list.Forall_app in G as [_ G]. apply list.Forall_cons in G as [Gv G].
  apply list.Forall_cons in G as [Gd G]. apply list.Forall_app in G as [G _].
  apply list.NoDup_app in N as (_ & _ & N). apply list.NoDup_cons in N as [N _].
  eapply space_frame; [exact S|exact Hsb|by destruct Gd| |].
  - eapply list.Forall_impl; [exact G|]. by intros u [? _].
  - constructor; [|constructor]. split; [by destruct Gv|]. split; intros H; apply N; [subst; by left|]. right. apply elem_of_app. by left.
Qed.
Lemma sys_perm kend s L d T U O O' : O ≡ₚ O' -> sys kend s L d T U O -> sys kend s L d T U O'.
Proof. intros E [F S N G]. split; [done|done|by rewrite <- E|by rewrite <- E]. Qed.
Lemma owned_lock kend s L O b : owned kend s L O -> owned kend (KPages (kp_mem s) (Pages b (freelist (kp_pages s)))) L O.
Proof. by intros [F N G]. Qed.
Lemma sys_lock kend pgdir T U s L O b : sys kend s L pgdir T U O -> sys kend (KPages (kp_mem s) (Pages b (freelist (kp_pages s)))) L pgdir T U O.
Proof. by intros [F S N G]. Qed.

(** ** The other processors *)

Section others.
Context (kend kdata : Z) (entryother : list Z) (mpenter entrypgdir_at ncpu cpunum : Z).
Context (Hkend : KERNBASE + EXTMEM < kend) (Hcode : Z.of_nat (length entryother) <= 4096).

(** Writes below the first megabyte are of no concern to pages. *)
Lemma sys_low s L pgdir T U O p m' : sys kend s L pgdir T U O -> p mod 4096 = 0 -> p <= KERNBASE + 0x7000 -> same_but [p] (kp_mem s) m' -> sys kend (KPages m' (kp_pages s)) L pgdir T U O.
Proof.
  intros Hs Hp Hl Hsb. pose proof Hs as [F S N G]. eapply sys_frame; [exact Hs|exact Hsb|]. constructor; [|constructor].
  rewrite list.Forall_forall in G.
  assert (~ freeable kend p) as Hnp by (intros (_ & ? & _); unfold EXTMEM in *; lia).
  split; [done|]. split; [|split]; intros H; apply Hnp, G; rewrite ?elem_of_app, ?elem_of_cons, ?elem_of_app; auto.
Qed.
Lemma start_one_run s v L pgdir T U O : sys kend s (v :: L) pgdir T U O -> exists s', start_one mpenter entrypgdir_at (p2v 0x7000) s = Ok tt s' /\ sys kend s' L pgdir T U (v :: O).
Proof.
  intros Hs. pose proof (kalloc_page_ok _ _ _ _ _ _ _ Hs) as (s1 & E & _ & H1 & _). unfold start_one. rewrite (bind_ok _ _ _ _ _ E).
  cbv [stw on_mem modify mbind M_bind]. cbn [kp_mem kp_pages].
  assert (in_page (KERNBASE + 0x6000) ((p2v 0x7000 - 4) / 4) /\ in_page (KERNBASE + 0x6000) ((p2v 0x7000 - 8) / 4) /\ in_page (KERNBASE + 0x6000) ((p2v 0x7000 - 12) / 4)) as (P1 & P2 & P3).
  { unfold in_page. split_and!; vm_compute; done. }
  eexists. split; [reflexivity|].
  refine (sys_low (KPages _ (kp_pages s1)) L pgdir T U (v :: O) (KERNBASE + 0x6000) _ _ eq_refl ltac:(lia) (same_but_insert _ _ _ _ P3)).
  refine (sys_low (KPages _ (kp_pages s1)) L pgdir T U (v :: O) (KERNBASE + 0x6000) _ _ eq_refl ltac:(lia) (same_but_insert _ _ _ _ P2)).
  exact (sys_low s1 L pgdir T U (v :: O) (KERNBASE + 0x6000) _ H1 eq_refl ltac:(lia) (same_but_insert _ _ _ _ P1)).
Qed.
(** A stack for each of them. *)
Lemma start_all cs : forall s L pgdir T U O, sys kend s L pgdir T U O -> (length cs <= length L)%nat ->
  exists s' L' st, for_each cs (fun c => if c =? cpunum then mret tt else start_one mpenter entrypgdir_at (p2v 0x7000)) s = Ok tt s' /\ sys kend s' L' pgdir T U (st ++ O) /\
    L ≡ₚ L' ++ st /\ length st = length (filter (fun c => c <> cpunum) cs).
Proof.
  induction cs as [|c cs IH]; intros s L pgdir T U O Hs Hl; cbn [for_each]; [exists s, L, []; rewrite app_nil_r; done|]. cbn [length] in Hl.
  destruct (Z.eqb_spec c cpunum) as [->|Hne].
  - rewrite (bind_ok _ _ _ tt s) by done. rewrite filter_cons_False by (intros H; by apply H). apply IH; [done|lia].
  - destruct L as [|v L]; [cbn in Hl; lia|]. destruct (start_one_run s v L pgdir T U O Hs) as (s1 & E1 & H1). rewrite (bind_ok _ _ _ _ _ E1).
    cbn [length] in Hl.
    destruct (IH s1 L pgdir T U (v :: O) H1 ltac:(lia)) as (s' & L' & st & E & H' & P & Hst). exists s', L', (st ++ [v]). split; [done|].
    rewrite filter_cons_True by done.
    split; [by rewrite <- app_assoc|]. split; [rewrite P; solve_Permutation|]. rewrite length_app, Hst. cbn [length]. lia.
Qed.
Lemma startothers_run s L pgdir T U O : sys kend s L pgdir T U O -> ncpu <= Z.of_nat (length L) ->
  exists s' L' st, startothers entryother mpenter entrypgdir_at ncpu cpunum s = Ok tt s' /\ sys kend s' L' pgdir T U (st ++ O) /\ L ≡ₚ L' ++ st /\
    length st = length (filter (fun c => c <> cpunum) (seqZ 0 ncpu)).
Proof.
  intros Hs Hl. unfold startothers. erewrite bind_ok by reflexivity. apply start_all.
  - apply (sys_low s _ _ _ _ _ (KERNBASE + 0x7000)); [done|done|lia|]. apply st_bytes_same; [done|unfold p2v, KERNBASE; rewrite u32_small; lia|].
    unfold p2v, KERNBASE. rewrite u32_small; lia.
  - rewrite length_seqZ. lia.
Qed.
End others.

Lemma all_but_one c n : 0 <= c < n -> Z.of_nat (length (filter (fun x => x <> c) (seqZ 0 n))) = n - 1.
Proof.
  intros H. replace n with (c + (1 + (n - c - 1))) at 1 by lia. rewrite seqZ_app by lia. rewrite (seqZ_app _ 1 (n - c - 1)) by lia.
  change (seqZ (0 + c) 1) with [Z.of_nat 0 + (0 + c)].
  assert (forall l : list Z, (forall x, x ∈ l -> x <> c) -> filter (fun x => x <> c) l = l) as HF.
  { intros l Hl. induction l as [|x l IH]; [done|]. rewrite filter_cons_True by (apply Hl; by left). f_equal. apply IH. intros y Hy. apply Hl.
    by right. }
  rewrite !list.filter_app, (HF (seqZ 0 c)), (HF (seqZ _ (n - c - 1))) by (intros x Hx%elem_of_seqZ; lia).
  rewrite filter_cons_False by (intros Hx; apply Hx; cbn; lia).
  rewrite !length_app, !length_seqZ. cbn. lia.
Qed.

(** ** The memory of the machine *)

(** The pages [main] hands out: behind the kernel, and above the ISA hole. *)
Definition boot_pages (kend : Z) (b : e801) : list Z :=
  pages_in kend (KERNBASE + lowmem b) ++ pages_in (KERNBASE + ISAHOLEEND) (KERNBASE + Z.min (highmem b) PHYSTOP).
(** A physical page that is memory, by what the BIOS says. *)
Definition is_ram (b : e801) (pa : Z) : Prop :=
  0x100000 <= pa /\ pa + 4096 <= 0x100000 + mem1 b * 1024 \/ 0x1000000 <= pa /\ pa + 4096 <= 0x1000000 + mem2 b * 65536.
Record machine_ok (kend kdata : Z) (b : e801) : Prop := {
  mo_end : KERNBASE + EXTMEM < kend <= KERNBASE + 0x380000;
  mo_data : kdata_ok kdata;
  mo_mem1 : 0x3e0000 <= mem1 b * 1024 <= 15 * 1024 * 1024;
  mo_mem2 : 0 <= mem2 b < 2 ^ 16
}.

Section boot.
Context (kend kdata : Z) (b : e801) (Hm : machine_ok kend kdata b).
Lemma low_eq : lowmem b = mem1 b * 1024.
Proof. destruct Hm as [_ _ H _]. unfold lowmem. apply u32_small. lia. Qed.
Lemma high_range : 0 <= highmem b <= mem2 b * 65536.
Proof. destruct Hm as [_ _ _ H]. unfold highmem, u32. split; [apply Z.mod_pos_bound; lia|apply Z.mod_le; lia]. Qed.
Lemma boot_page v : v ∈ boot_pages kend b -> freeable kend v /\ is_ram b (v - KERNBASE).
Proof.
  pose proof low_eq. pose proof high_range. destruct Hm as [H1 _ H3 H4].
  unfold boot_pages, freeable, is_ram, PGSIZE, KERNBASE, EXTMEM, PHYSTOP, ISAHOLEEND in *.
  intros [Hv|Hv]%elem_of_app; apply elem_pages in Hv; lia.
Qed.
Lemma boot_nodup : NoDup (boot_pages kend b).
Proof.
  pose proof low_eq. destruct Hm as [H1 _ H3 H4]. apply list.NoDup_app. split; [apply nodup_run|]. split; [|apply nodup_run].
  intros v Hv Hv'. apply elem_pages in Hv, Hv'. unfold ISAHOLEEND, KERNBASE in *. lia.
Qed.
Lemma boot_owned s : freelist (kp_pages s) = 0 -> owned kend s [] (boot_pages kend b).
Proof. intros Hs. split; [done|apply boot_nodup|]. apply list.Forall_forall. intros v Hv. by apply boot_page. Qed.
(** The first pages are enough for the kernel's page table and the stacks. *)
Lemma low_room top : 0x3e0000 <= top -> 96 <= Z.of_nat (length (pages_in kend (KERNBASE + top))).
Proof.
  destruct Hm as [H1 _ _ _]. intros Ht. unfold pages_in, run_of, first_page. rewrite length_fmap, length_seqZ. unfold KERNBASE, EXTMEM in *. dlia.
Qed.

Definition give_high : M kpages unit :=
  if 0 <? highmem b then if PHYSTOP <? highmem b then kinit2 kend (p2v ISAHOLEEND) (p2v PHYSTOP) else kinit2 kend (p2v ISAHOLEEND) (p2v (highmem b)) else mret tt.
Lemma main_high s L d T U st : sys kend s L d T U (pages_in (KERNBASE + ISAHOLEEND) (KERNBASE + Z.min (highmem b) PHYSTOP) ++ st) ->
  exists s' L', give_high s = Ok tt s' /\ sys kend s' L' d T U st /\ L' ≡ₚ pages_in (KERNBASE + ISAHOLEEND) (KERNBASE + Z.min (highmem b) PHYSTOP) ++ L.
Proof.
  intros Hs. pose proof high_range as Hh. unfold give_high.
  assert (forall x, 0 <= x <= PHYSTOP -> p2v x = KERNBASE + x) as Ev by (intros x Hx; unfold p2v, KERNBASE, PHYSTOP in *; rewrite u32_small; lia).
  pose proof (kinit2_run kend (fun s L O => sys kend s L d T U O) (fun s L v O => kfree_sys kend s L d T U v O) (fun s L O b => sys_lock kend d T U s L O b)
      (KERNBASE + ISAHOLEEND) (KERNBASE + Z.min (highmem b) PHYSTOP) s L st Hs ltac:(unfold KERNBASE, ISAHOLEEND; lia) ltac:(unfold KERNBASE, PHYSTOP; lia)) as HR.
  destruct (Z.ltb_spec 0 (highmem b)) as [Hp|Hp].
  - destruct (Z.ltb_spec PHYSTOP (highmem b)) as [Hq|Hq].
    + rewrite Z.min_r in HR |- * by lia. by rewrite !Ev by (unfold ISAHOLEEND, PHYSTOP; lia).
    + rewrite Z.min_l in HR |- * by lia. by rewrite !Ev by (unfold ISAHOLEEND, PHYSTOP in *; lia).
  - exists s, L. assert (pages_in (KERNBASE + ISAHOLEEND) (KERNBASE + Z.min (highmem b) PHYSTOP) = []) as E.
    { unfold pages_in, first_page, KERNBASE, ISAHOLEEND, PHYSTOP. replace (Z.max 0 _) with 0; [done|]. symmetry. apply Z.max_l. dlia. }
    rewrite E in Hs |- *. done.
Qed.

Context (entryother : list Z) (mpenter entrypgdir_at ncpu cpunum : Z).
Context (Hcode : Z.of_nat (length entryother) <= 4096) (Hcpu : 0 <= cpunum < ncpu) (Hncpu : ncpu <= NCPU).

(** From the first pages to the processors: [O] are the pages not yet given out. *)
Lemma kvm_run s top O : owned kend s [] (pages_in kend (KERNBASE + top) ++ O) -> 0x3e0000 <= top <= 4 * 1024 * 1024 ->
  exists s' L kpgdir T st, (kinit1 kend kend (p2v top) ;; d ← setupkvm kdata; startothers entryother mpenter entrypgdir_at ncpu cpunum ;; mret d) s = Ok kpgdir s' /\
    sys kend s' L kpgdir T (kernel_map kdata) (st ++ O) /\ L ++ kpgdir :: tabs T ++ st ≡ₚ pages_in kend (KERNBASE + top) /\ Z.of_nat (length st) = ncpu - 1.
Proof.
  intros Ho Ht. pose proof (low_room top ltac:(lia)) as Hr. destruct Hm as [H1 H2 _ _].
  assert (p2v top = KERNBASE + top) as Ev by (unfold p2v, KERNBASE; rewrite u32_small; lia). rewrite Ev.
  destruct (kinit1_run kend (owned kend) (fun s L v O H => let '(ex_intro _ s' (conj E (conj H' _))) := kfree_owned kend s L v O H in ex_intro _ s' (conj E H'))
    (owned_lock kend) kend (KERNBASE + top) s [] O Ho) as (s1 & L1 & E1 & I1 & P1); [unfold KERNBASE, EXTMEM in *; lia..|]. rewrite (bind_ok _ _ _ _ _ E1).
  rewrite app_nil_r in P1. rewrite <- P1 in Hr.
  destruct (setupkvm_ok kend kdata s1 L1 O I1 H2) as (d & s2 & E2 & _ & [(_ & Hl & _)|(L2 & T & [_ HT] & I2 & P2)]); [lia|].
  rewrite (bind_ok _ _ _ _ _ E2). rewrite P2, length_app in Hr. cbn [length] in Hr. unfold NCPU in Hncpu.
  destruct (startothers_run kend entryother mpenter entrypgdir_at ncpu cpunum ltac:(lia) Hcode s2 L2 d T (kernel_map kdata) O I2 ltac:(lia)) as (s3 & L3 & st & E3 & I3 & P3 & Hst).
  exists s3, L3, d, T, st. rewrite (bind_ok _ _ _ _ _ E3). split; [done|]. split; [done|]. split; [|rewrite Hst; by apply all_but_one].
  rewrite <- P1, P2, P3. solve_Permutation.
Qed.

Lemma kinit_prefix {A B} (c1 c3 : M kpages unit) (c2 : M kpages A) (a : Z) (k : Z -> A -> M kpages B) s d s' :
  (c1 ;; d ← c2; c3 ;; mret d) s = Ok d s' -> (x ← (c1 ;; mret a); d ← c2; c3 ;; k x d) s = k a d s'.
Proof.
  intros E. cbv [mbind M_bind mret M_ret] in *. destruct (c1 s) as [[] s1|?|?|?]; try discriminate E.
  destruct (c2 s1) as [d' s2|?|?|?]; try discriminate E.
  destruct (c3 s2) as [[] s3|?|?|?]; try discriminate E. by injection E as -> ->.
Qed.
Lemma main_low s O : owned kend s [] (pages_in kend (KERNBASE + lowmem b) ++ O) ->
  exists s' L kpgdir T st, main kend kdata entryother mpenter entrypgdir_at ncpu cpunum b s = (give_high ;; mret kpgdir) s' /\
    sys kend s' L kpgdir T (kernel_map kdata) (O ++ st) /\ Z.of_nat (length st) = ncpu - 1 /\ L ++ kpgdir :: tabs T ++ st ≡ₚ pages_in kend (KERNBASE + lowmem b).
Proof.
  intros Ho. pose proof low_eq as El. destruct Hm as [H1 H2 H3 H4]. unfold main. rewrite (proj2 (Z.ltb_ge _ _)) by lia.
  destruct (Z.ltb_spec (4 * 1024 * 1024) (lowmem b)) as [Hlt|Hge].
  - rewrite (pages_in_split _ (KERNBASE + 4 * 1024 * 1024)) in Ho |- * by (unfold KERNBASE, EXTMEM in *; dlia). rewrite <- app_assoc in Ho.
    set (P := pages_in (KERNBASE + 4 * 1024 * 1024) (KERNBASE + lowmem b)) in *.
    destruct (kvm_run s (4 * 1024 * 1024) (P ++ O) Ho ltac:(lia)) as (s1 & L1 & d & T & st & E & I & P1 & Hst).
    rewrite (kinit_prefix _ _ _ _ _ _ _ _ E). rewrite (proj2 (Z.ltb_lt 0 (lowmem b - 4 * 1024 * 1024))) by lia.
    assert (forall x, 0 <= x <= 15 * 1024 * 1024 -> p2v x = KERNBASE + x) as Ev by (intros x Hx; unfold p2v, KERNBASE; rewrite u32_small; lia).
    rewrite (Ev (lowmem b)), (Ev (4 * 1024 * 1024)) by lia.
    destruct (kinit2_run kend (fun s L O => sys kend s L d T (kernel_map kdata) O) (fun s L v O => kfree_sys kend s L d T (kernel_map kdata) v O) (fun s L O b => sys_lock kend d T (kernel_map kdata) s L O b)
      (KERNBASE + 4 * 1024 * 1024) (KERNBASE + lowmem b) s1 L1 (O ++ st)) as (s2 & L2 & E2 & I2 & P2); [|unfold KERNBASE; lia..|].
    { eapply sys_perm; [|exact I]. fold P. solve_Permutation. }
    rewrite (bind_ok _ _ _ _ _ E2). exists s2, L2, d, T, st. split; [done|]. split; [done|]. split; [done|]. fold P in P2. rewrite P2, <- P1.
    solve_Permutation.
  - destruct (kvm_run s (lowmem b) O Ho ltac:(lia)) as (s1 & L1 & d & T & st & E & I & P1 & Hst).
    rewrite (kinit_prefix _ _ _ _ _ _ _ _ E). exists s1, L1, d, T, st. split; [done|]. split; [|done]. eapply sys_perm; [|exact I]. solve_Permutation.
Qed.
End boot.

(** The size of the memory above 16 MB is taken for its end: up to 16 MB of it
    are not used at all. *)
Lemma small_highmem_unused b : 0 <= mem2 b <= 256 -> pages_in (KERNBASE + ISAHOLEEND) (KERNBASE + Z.min (highmem b) PHYSTOP) = [].
Proof.
  intros H. unfold pages_in, first_page, highmem, KERNBASE, ISAHOLEEND, PHYSTOP. rewrite u32_small by lia. replace (Z.max 0 _) with 0; [done|].
  symmetry. apply Z.max_l. dlia.
Qed.

(** ** Translation at entry *)

(** How the processor finds the page of an address: directory, then table. *)
Definition translate (mem : Z -> Z) (cr3 va : Z) : option Z :=
  let pde := mem (cr3 + 4 * PDX va) in
  if negb (has pde PTE_P) then None else
  let pte := mem (PTE_ADDR pde + 4 * PTX va) in
  if negb (has pte PTE_P) then None else Some (PTE_ADDR pte + va mod 4096).
Definition table_at (mem : Z -> Z) (a : Z) (tbl : list Z) : Prop := forall i w, tbl !! i = Some w -> mem (a + 4 * Z.of_nat i) = w.

Lemma lor_rw pa : pa mod 4096 = 0 -> Z.lor (Z.lor pa PTE_P) PTE_W = pa + 3.
Proof. intros H. rewrite <- Z.lor_assoc. by rewrite lor_page. Qed.
Lemma entry_pte_eq i : entry_pte i = 4096 * i + 3.
Proof.
  unfold entry_pte. rewrite Z.shiftl_mul_pow2 by (unfold PGSHIFT; lia). rewrite lor_rw by (unfold PGSHIFT; change (2 ^ 12) with 4096; dlia).
  unfold PGSHIFT. lia.
Qed.
Lemma entry_pde_eq t : t mod 4096 = 0 -> 0 <= t < 2 ^ 32 -> entry_pde t = t + 3.
Proof.
  intros H Hr. unfold entry_pde. assert (Z.land t 0xfffff000 = t) as ->; [|by apply lor_rw].
  apply Z.bits_inj'. intros n Hn. rewrite Z.land_spec. destruct (Z.testbit t n) eqn:E; [|done]. cbn [andb].
  assert (12 <= n < 32) as Hb.
  { split; apply Z.nlt_ge || apply Z.nle_gt; intros Hlt.
    - assert (Z.testbit (t mod 2 ^ 12) n = true) as Hx by (by rewrite Z.mod_pow2_bits_low). change (2 ^ 12) with 4096 in Hx.
      rewrite H, Z.bits_0 in Hx. done.
    - rewrite Z.bits_above_log2 in E; [done|lia|]. destruct (decide (t = 0)) as [->|]; [cbn; lia|]. apply Z.log2_lt_pow2; [lia|].
      eapply Z.lt_le_trans; [apply Hr|]. apply Z.pow_le_mono_r; lia. }
  assert (forall k, 12 <= k < 32 -> Z.testbit 0xfffff000 k = true) as HB; [|by apply HB]. intros k Hk.
  assert (k ∈ seqZ 12 20) as Hin by (apply elem_of_seqZ; lia).
  assert (Forall (fun k => Z.testbit 0xfffff000 k = true) (seqZ 12 20)) as HF by (vm_compute; repeat constructor). rewrite list.Forall_forall in HF.
  by apply HF.
Qed.

Section entry_tables.
Context (mem : Z -> Z) (d t1 t2 : Z).
Context (Hd : table_at mem d (entrypgdir t1 t2)) (H1 : table_at mem t1 entrypgtable1) (H2 : table_at mem t2 entrypgtable2).
Context (A1 : t1 mod 4096 = 0 /\ 0 <= t1 < 2 ^ 32) (A2 : t2 mod 4096 = 0 /\ 0 <= t2 < 2 ^ 32).

Lemma table_entry t : table_at mem t (entry_pte <$> seqZ 0 NPTENTRIES) -> forall i, 0 <= i < 1024 -> mem (t + 4 * i) = 4096 * i + 3.
Proof.
  intros H i Hi. rewrite <- (Z2Nat.id i) at 1 by lia. apply H. rewrite list_lookup_fmap, lookup_seqZ_lt by (unfold NPTENTRIES; lia).
  cbn [fmap option_fmap option_map]. rewrite entry_pte_eq. f_equal. lia.
Qed.
Lemma dir_entry i : 0 <= i < 1024 -> mem (d + 4 * i) = if decide (i = 0) then t1 + 3 else if decide (i = 512) then t2 + 3 else 0.
Proof.
  intros Hi. rewrite <- (Z2Nat.id i) at 1 by lia. apply Hd. unfold entrypgdir, NPDENTRIES. repeat case_decide.
  - subst. rewrite list_lookup_insert_eq by (rewrite length_insert, length_replicate; lia). by rewrite entry_pde_eq by apply A1.
  - subst. rewrite list_lookup_insert_ne by done. rewrite list_lookup_insert_eq by (rewrite length_replicate; lia).
    by rewrite entry_pde_eq by apply A2.
  - rewrite !list_lookup_insert_ne by lia. apply lookup_replicate_2. lia.
Qed.
Lemma present_rw t : t mod 4096 = 0 -> has (t + 3) PTE_P = true /\ PTE_ADDR (t + 3) = t.
Proof. intros H. split; [unfold PTE_P; by rewrite has_entry|]. rewrite PTE_ADDR_eq. dlia. Qed.

(** The tables map the first 4 MB twice: where it is, and at [KERNBASE]. *)
Lemma entry_translate va : 0 <= va < 2 ^ 32 -> translate mem d va =
  if decide (va < 4 * 1024 * 1024) then Some va else if decide (KERNBASE <= va < KERNBASE + 4 * 1024 * 1024) then Some (va - KERNBASE) else None.
Proof.
  intros Hva. unfold translate. rewrite PDX_eq, PTX_eq by lia. set (i := va / 4096 / 1024 mod 1024). set (j := va / 4096 mod 1024).
  assert (0 <= i < 1024 /\ 0 <= j < 1024) as [Hi Hj] by (unfold i, j; dlia).
  rewrite dir_entry by done. assert (has 0 PTE_P = false) as H0 by done. repeat case_decide; unfold KERNBASE in *; try (exfalso; unfold i in *; dlia).
  - destruct (present_rw t1 (proj1 A1)) as [-> ->]. cbn [negb]. rewrite (table_entry t1 H1 j Hj).
    destruct (present_rw (4096 * j) ltac:(dlia)) as [-> ->]. cbn [negb]. f_equal. unfold i, j in *. dlia.
  - destruct (present_rw t2 (proj1 A2)) as [-> ->]. cbn [negb]. rewrite (table_entry t2 H2 j Hj).
    destruct (present_rw (4096 * j) ltac:(dlia)) as [-> ->]. cbn [negb]. f_equal. unfold i, j in *. dlia.
  - by rewrite H0.
Qed.
End entry_tables.

(** [setuppgdir] shifts an address as if it were a page number: the entry for
    the table at physical 0x101000 points to 0x1000000. *)
Lemma setuppgdir_misses : PTE_ADDR (setuppgdir_pde (KERNBASE + 0x101000)) = 0x1000000 /\ PTE_ADDR (entry_pde 0x101000) = 0x101000.
Proof. vm_compute. done. Qed.

(** C11: the memory the kernel starts with.  On a machine with
    between 3.875 and 15 MB of memory from 1 MB on and a kernel that ends below
    3.5 MB, [main] comes through its set-up of memory: the kernel's page table maps exactly the kernel's mappings, every other processor
    has a stack of its own, and the pages that are free, page tables or stacks are,
    each once, the pages behind the kernel up to [lowmem] and from the end of the
    ISA hole to the address [highmem] or [PHYSTOP].  [highmem] is the amount of
    memory above the hole, so the last 16 MB are not among them.  Each of them is memory by what the BIOS
    reports, and none is part of the kernel.  This is the state that the theorems
    on virtual memory start from.  The pages that are freed before the kernel has
    its own page table are mapped by the tables it is entered with. *)
Theorem main_memory kend kdata b entryother mpenter entrypgdir_at ncpu cpunum s :
  machine_ok kend kdata b -> Z.of_nat (length entryother) <= 4096 -> 0 <= cpunum < ncpu -> ncpu <= NCPU -> freelist (kp_pages s) = 0 ->
  exists s' L kpgdir T st, main kend kdata entryother mpenter entrypgdir_at ncpu cpunum b s = Ok kpgdir s' /\
    sys kend s' L kpgdir T (kernel_map kdata) st /\ Z.of_nat (length st) = ncpu - 1 /\
    L ++ kpgdir :: tabs T ++ st ≡ₚ boot_pages kend b /\
    (forall v, v ∈ boot_pages kend b -> is_ram b (v - KERNBASE) /\ kend <= v) /\
    forall mem d t1 t2 v o, table_at mem d (entrypgdir t1 t2) -> table_at mem t1 entrypgtable1 -> table_at mem t2 entrypgtable2 ->
      t1 mod 4096 = 0 /\ 0 <= t1 < 2 ^ 32 -> t2 mod 4096 = 0 /\ 0 <= t2 < 2 ^ 32 ->
      v ∈ pages_in kend (KERNBASE + Z.min (lowmem b) (4 * 1024 * 1024)) -> 0 <= o < 4096 -> translate mem d (v + o) = Some (v + o - KERNBASE).
Proof.
  intros Hm Hcode Hcpu Hncpu Hs. pose proof (boot_owned kend kdata b Hm s Hs) as Ho. pose proof (boot_page kend kdata b Hm) as HB.
  set (O2 := pages_in (KERNBASE + ISAHOLEEND) (KERNBASE + Z.min (highmem b) PHYSTOP)).
  destruct (main_low kend kdata b Hm entryother mpenter entrypgdir_at ncpu cpunum Hcode Hcpu Hncpu s O2 Ho) as (s1 & L1 & kpgdir & T & st & E1 & I1 & Hst & P1).
  destruct (main_high kend kdata b Hm s1 L1 kpgdir T (kernel_map kdata) st I1) as (s2 & L2 & E2 & I2 & P2).
  exists s2, L2, kpgdir, T, st. rewrite E1, (bind_ok _ _ _ _ _ E2). split; [done|]. split; [done|]. split; [done|]. split.
  - rewrite P2. unfold boot_pages. rewrite <- P1. fold O2. solve_Permutation.
  - split; [intros v Hv; by destruct (HB v Hv) as [(_ & ? & _) ?]|]. intros mem d t1 t2 v o T0 T1 T2 A1 A2 Hv Ho'. apply elem_pages in Hv.
    destruct Hm as [H1 _ _ _].
    unfold KERNBASE, EXTMEM in *. rewrite (entry_translate mem d t1 t2 T0 T1 T2 A1 A2) by lia. rewrite decide_False by lia.
    by rewrite decide_True by (unfold KERNBASE; lia).
Qed.

(** ** Example *)

(** Two processors and 80 MB, and the kernel's tables at 1 MB. *)
Module StartSample.
Definition kend : Z := KERNBASE + 0x200000.
Definition kdata : Z := KERNBASE + 0x180000.
Definition bios : e801 := E801 0x3c00 0x400.
Lemma machine : machine_ok kend kdata bios.
Proof. split; cbn; unfold kend, kdata_ok, kdata, KERNBASE, EXTMEM, KERNLINK, PHYSTOP; unfold KERNBASE, EXTMEM; try lia. by split; [|lia]. Qed.
Definition phys (x : Z) : Z :=
  if decide (0x100000 <= x < 0x101000) then default 0 (entrypgdir 0x101000 0x102000 !! Z.to_nat ((x - 0x100000) / 4))
  else entry_pte (x / 4 mod 1024).
Lemma phys_tables : table_at phys 0x100000 (entrypgdir 0x101000 0x102000) /\ table_at phys 0x101000 entrypgtable1 /\ table_at phys 0x102000 entrypgtable2.
Proof.
  assert (forall t, 0x101000 <= t -> t mod 4096 = 0 -> table_at phys t (entry_pte <$> seqZ 0 NPTENTRIES)) as H.
  { intros t Ht Hm i w. rewrite list_lookup_fmap. intros (k & [-> Hk]%lookup_seqZ & ->)%fmap_Some_1. unfold phys. rewrite decide_False by lia.
    f_equal. unfold NPTENTRIES in Hk. dlia. }
  split; [|by split; apply H]. intros i w Hw. pose proof (lookup_lt_Some _ _ _ Hw) as Hl. unfold entrypgdir in Hl.
  rewrite !length_insert, length_replicate in Hl. unfold NPDENTRIES in Hl.
  unfold phys. rewrite decide_True by lia. replace (Z.to_nat _) with i by dlia. by rewrite Hw.
Qed.
Lemma main_memory_witness : exists s' L kpgdir T st, main kend kdata [0xfa] 0x80101234 (KERNBASE + 0x100000) 2 0 bios (KPages ∅ (Pages false 0)) = Ok kpgdir s' /\
  sys kend s' L kpgdir T (kernel_map kdata) st /\ length st = 1%nat /\ translate phys 0x100000 (kend + 17) = Some 0x200011.
Proof.
  destruct (main_memory kend kdata bios [0xfa] 0x80101234 (KERNBASE + 0x100000) 2 0 (KPages ∅ (Pages false 0)) machine) as (s' & L & kpgdir & T & st & E & HS & Hst & _ & _ & HT); [cbn; lia|lia|unfold NCPU; lia|reflexivity|].
  exists s', L, kpgdir, T, st. split; [exact E|]. split; [exact HS|]. split; [lia|]. destruct phys_tables as (T0 & T1 & T2).
  assert (kend ∈ pages_in kend (KERNBASE + Z.min (lowmem bios) (4 * 1024 * 1024))) as Hin by (apply elem_run; exists 0; split; [reflexivity|split; vm_compute; [discriminate|reflexivity]]).
  assert (0x101000 mod 4096 = 0 /\ 0 <= 0x101000 < 2 ^ 32) as A1 by (split; [reflexivity|lia]).
  assert (0x102000 mod 4096 = 0 /\ 0 <= 0x102000 < 2 ^ 32) as A2 by (split; [reflexivity|lia]).
  exact (HT phys 0x100000 0x101000 0x102000 kend 17 T0 T1 T2 A1 A2 Hin ltac:(lia)).
Defined.
End StartSample.
