(* ===== verification/Keyboard.v ===== *)
(** The keyboard ([kbd.c], [kbd.h]): scan codes to characters.

    The controller holds the bytes that were not read yet; [kbdgetc] takes one of
    them.  The tables are those of [kbd.h], entry by entry. *)

From S2P Require Import Prelude Console.

(** ** Tables *)

Definition SHIFT : Z := 1.
Definition CTL : Z := 2.
Definition ALT : Z := 4.
Definition CAPSLOCK : Z := 8.
Definition NUMLOCK : Z := 16.
Definition SCROLLLOCK : Z := 32.
Definition E0ESC : Z := 64.

(** An array with its first entries given, then some by their index. *)
Definition uchar_table (l : list Z) (ds : list (Z * Z)) : list Z :=
  foldl (fun t '(i, v) => <[Z.to_nat i := u8 v]> t) (take 256 ((u8 <$> l) ++ replicate 256 0)) ds.
Definition shiftcode : list Z := uchar_table [] [(0x1D, CTL); (0x2A, SHIFT); (0x36, SHIFT); (0x38, ALT); (0x9D, CTL); (0xB8, ALT)].
Definition togglecode : list Z := uchar_table [] [(0x3A, CAPSLOCK); (0x45, NUMLOCK); (0x46, SCROLLLOCK)].
(** The keys behind an 0xE0: arrows and the block above them. *)
Definition special : list (Z * Z) :=
  [(0xC8, 0xE2); (0xD0, 0xE3); (0xC9, 0xE6); (0xD1, 0xE7); (0xCB, 0xE4); (0xCD, 0xE5); (0x97, 0xE0); (0xCF, 0xE1); (0xD2, 0xE8); (0xD3, 0xE9)].
Definition normalmap : list Z := uchar_table
  [0; 27; 49; 50; 51; 52; 53; 54; 55; 56; 57; 48; 45; 61; 8; 9;
   113; 119; 101; 114; 116; 121; 117; 105; 111; 112; 91; 93; 10; 0; 97; 115;
   100; 102; 103; 104; 106; 107; 108; 59; 39; 96; 0; 92; 122; 120; 99; 118;
   98; 110; 109; 44; 46; 47; 0; 42; 0; 32; 0; 0; 0; 0; 0; 0;
   0; 0; 0; 0; 0; 0; 0; 55; 56; 57; 45; 52; 53; 54; 43; 49;
   50; 51; 48; 46; 0; 0; 0; 0]
  ((0x9C, 10) :: (0xB5, 47) :: special).
Definition shiftmap : list Z := uchar_table
  [0; 27; 33; 64; 35; 36; 37; 94; 38; 42; 40; 41; 95; 43; 8; 9;
   81; 87; 69; 82; 84; 89; 85; 73; 79; 80; 123; 125; 10; 0; 65; 83;
   68; 70; 71; 72; 74; 75; 76; 58; 34; 126; 0; 124; 90; 88; 67; 86;
   66; 78; 77; 60; 62; 63; 0; 42; 0; 32; 0; 0; 0; 0; 0; 0;
   0; 0; 0; 0; 0; 0; 0; 55; 56; 57; 45; 52; 53; 54; 43; 49;
   50; 51; 48; 46; 0; 0; 0; 0]
  ((0x9C, 10) :: (0xB5, 47) :: special).
Definition ctlmap : list Z := uchar_table
  [0; 0; 0; 0; 0; 0; 0; 0; 0; 0; 0; 0; 0; 0; 0; 0;
   17; 23; 5; 18; 20; 25; 21; 9; 15; 16; 0; 0; 13; 0; 1; 19;
   4; 6; 7; 8; 10; 11; 12; 0; 0; 0; 0; 28; 26; 24; 3; 22;
   2; 14; 13; 0; 0; -17; 0; 0]
  ((0x9C, 13) :: (0xB5, -17) :: special).
Definition at_key (t : list Z) (data : Z) : Z := default 0 (t !! Z.to_nat data).
Definition charcode (i : Z) : list Z := if i =? 0 then normalmap else if i =? 1 then shiftmap else ctlmap.

(** ** [kbdgetc] *)

(** On the byte the controller has, and the static [shift]. *)
Definition kbd_byte (data shift : Z) : Z * Z :=
  if data =? 0xE0 then (0, Z.lor shift E0ESC)
  else if has data 0x80 then
    let data := if has shift E0ESC then data else Z.land data 0x7F in
    (0, Z.ldiff shift (Z.lor (at_key shiftcode data) E0ESC))
  else
    let '(data, shift) := if has shift E0ESC then (Z.lor data 0x80, Z.ldiff shift E0ESC) else (data, shift) in
    let shift := Z.lor shift (at_key shiftcode data) in
    let shift := Z.lxor shift (at_key togglecode data) in
    let c := at_key (charcode (Z.land shift (Z.lor CTL SHIFT))) data in
    let c := if has shift CAPSLOCK then
               if (97 <=? c) && (c <=? 122) then c - 32 else if (65 <=? c) && (c <=? 90) then c + 32 else c
             else c in
    (c, shift).
Definition kbdgetc (s : list Z * Z) : Z * (list Z * Z) :=
  match s with
  | ([], shift) => (-1, ([], shift))
  | (data :: q, shift) => let '(c, shift') := kbd_byte data shift in (c, (q, shift'))
  end.

(** [consoleintr(kbdgetc, &input, 0)]: what [kbdgetc] yields until it is -1. *)
Fixpoint kbd_chars (q : list Z) (shift : Z) : list Z * Z :=
  match q with
  | [] => ([], shift)
  | data :: q' => let '(c, shift1) := kbd_byte data shift in let '(cs, shift2) := kbd_chars q' shift1 in (c :: cs, shift2)
  end.
Definition kbdintr (q : list Z) (shift : Z) (ib : inputbuf) : Z * (inputbuf * list Z * bool * bool) :=
  let '(cs, shift') := kbd_chars q shift in (shift', consoleintr cs ib).

(** ** What was pressed and released *)

Inductive event := Press (k : Z) | Release (k : Z).
(** A byte is a prefix, or the key, by its number with the prefix, and whether it goes down. *)
Definition decode (esc : bool) (b : Z) : bool * option event :=
  if b =? 0xE0 then (true, None)
  else if 128 <=? b then (false, Some (Release (if esc then b else b - 128)))
  else (false, Some (Press (if esc then b + 128 else b))).

(** The history, the last event first.  A modifier is held when the last event of
    its keys was a press; a lock is on after an odd number of presses. *)
Fixpoint held (ks : list Z) (h : list event) : bool :=
  match h with
  | [] => false
  | Press k :: h' => bool_decide (k ∈ ks) || held ks h'
  | Release k :: h' => negb (bool_decide (k ∈ ks)) && held ks h'
  end.
Fixpoint locked (k0 : Z) (h : list event) : bool :=
  match h with
  | [] => false
  | Press k :: h' => xorb (k =? k0) (locked k0 h')
  | Release _ :: h' => locked k0 h'
  end.
Definition shift_keys : list Z := [0x2A; 0x36].
Definition ctl_keys : list Z := [0x1D; 0x9D].
Definition alt_keys : list Z := [0x38; 0xB8].
Definition caps_key : Z := 0x3A.
Definition num_key : Z := 0x45.
Definition scroll_key : Z := 0x46.

Definition swapcase (c : Z) : Z := if (97 <=? c) && (c <=? 122) then c - 32 else if (65 <=? c) && (c <=? 90) then c + 32 else c.
Definition glyph_of (k : Z) (ctl shift caps : bool) : Z :=
  let c := at_key (if ctl then ctlmap else if shift then shiftmap else normalmap) k in if caps then swapcase c else c.
(** The character of a press, [h] with it. *)
Definition glyph (k : Z) (h : list event) : Z := glyph_of k (held ctl_keys h) (held shift_keys h) (locked caps_key h).
Definition event_char (e : event) (h : list event) : list Z := match e with Press k => if glyph k h =? 0 then [] else [glyph k h] | Release _ => [] end.
Fixpoint typed (q : list Z) (esc : bool) (h : list event) : list Z * (bool * list event) :=
  match q with
  | [] => ([], (esc, h))
  | b :: q' =>
    let '(esc', o) := decode esc b in
    match o with
    | None => typed q' esc' h
    | Some e => let '(cs, r) := typed q' esc' (e :: h) in (event_char e (e :: h) ++ cs, r)
    end
  end.

(** ** One byte

    The state is finite: every byte in every state is checked. *)

Definition bits (esc shift ctl alt caps num scroll : bool) : Z :=
  Z.b2z shift + 2 * Z.b2z ctl + 4 * Z.b2z alt + 8 * Z.b2z caps + 16 * Z.b2z num + 32 * Z.b2z scroll + 64 * Z.b2z esc.
Definition hold (ks : list Z) (o : option event) (old : bool) : bool :=
  match o with Some (Press k) => bool_decide (k ∈ ks) || old | Some (Release k) => negb (bool_decide (k ∈ ks)) && old | None => old end.
Definition toggle (k0 : Z) (o : option event) (old : bool) : bool := match o with Some (Press k) => xorb (k =? k0) old | _ => old end.
Definition char_after (o : option event) (ctl shift caps : bool) : Z := match o with Some (Press k) => glyph_of k ctl shift caps | _ => 0 end.
Definition byte_ok (b : Z) (esc shift ctl alt caps num scroll : bool) : bool :=
  let '(esc', o) := decode esc b in
  let shift' := hold shift_keys o shift in let ctl' := hold ctl_keys o ctl in let caps' := toggle caps_key o caps in
  bool_decide (kbd_byte b (bits esc shift ctl alt caps num scroll) =
    (char_after o ctl' shift' caps', bits esc' shift' ctl' (hold alt_keys o alt) caps' (toggle num_key o num) (toggle scroll_key o scroll))).
Definition both (P : bool -> bool) : bool := P true && P false.
Lemma both_ok P : both P = true -> forall b, P b = true.
Proof. unfold both. intros [H1 H2]%andb_true_iff []; done. Qed.

Lemma every_byte : forallb (fun b => both (fun esc => both (fun s => both (fun c => both (fun a => both (fun cl => both (fun n => both (fun sc => byte_ok b esc s c a cl n sc)))))))) (seqZ 0 256) = true.
Proof. vm_compute. reflexivity. Qed.
Lemma byte_step b esc s c a cl n sc : 0 <= b < 256 -> byte_ok b esc s c a cl n sc = true.
Proof.
  intros Hb. pose proof every_byte as H. rewrite forallb_forall in H. specialize (H b).
  assert (List.In b (seqZ 0 256)) as Hin by (apply list_elem_of_In, elem_of_seqZ; lia). specialize (H Hin).
  exact (both_ok _ (both_ok _ (both_ok _ (both_ok _ (both_ok _ (both_ok _ (both_ok _ H esc) s) c) a) cl) n) sc).
Qed.

(** ** The keyboard follows the history *)

Definition shift_after (esc : bool) (h : list event) : Z :=
  bits esc (held shift_keys h) (held ctl_keys h) (held alt_keys h) (locked caps_key h) (locked num_key h) (locked scroll_key h).
Definition is_char (c : Z) : Prop := c <> 0.

Lemma hold_held ks e h : hold ks (Some e) (held ks h) = held ks (e :: h).
Proof. by destruct e. Qed.
Lemma toggle_locked k e h : toggle k (Some e) (locked k h) = locked k (e :: h).
Proof. by destruct e. Qed.
Lemma byte_event b esc h : 0 <= b < 256 -> kbd_byte b (shift_after esc h) =
  let '(esc', o) := decode esc b in
  match o with
  | None => (0, shift_after esc' h)
  | Some e => (match e with Press k => glyph k (e :: h) | Release _ => 0 end, shift_after esc' (e :: h))
  end.
Proof.
  intros Hb. pose proof (byte_step b esc (held shift_keys h) (held ctl_keys h) (held alt_keys h) (locked caps_key h) (locked num_key h) (locked scroll_key h) Hb) as H. unfold byte_ok in H.
  destruct (decode esc b) as [esc' [e|]]; apply bool_decide_eq_true in H; [|exact H]. rewrite !hold_held, !toggle_locked in H. unfold shift_after.
  rewrite H. by destruct e.
Qed.
Lemma glyph_byte k h : 0 <= glyph k h < 256.
Proof.
  unfold glyph, glyph_of. set (t := if held ctl_keys h then _ else _). assert (Forall (fun c => 0 <= c < 256) t) as Ht.
  { unfold t. destruct (held ctl_keys h); [|destruct (held shift_keys h)]; apply (bool_decide_unpack _); vm_compute; exact I. }
  assert (0 <= at_key t k < 256) as Hc.
  { unfold at_key. destruct (t !! Z.to_nat k) as [c|] eqn:E; [|cbn; lia]. rewrite list.Forall_forall in Ht. apply Ht. by eapply list_elem_of_lookup_2.
    }
  destruct (locked caps_key h); [|done]. unfold swapcase.
  repeat case_match; repeat match goal with H : _ && _ = _ |- _ => apply andb_true_iff in H as [? ?] end; lia.
Qed.
Lemma chars_typed q : forall esc h, Forall (fun b => 0 <= b < 256) q ->
  let '(cs, shift') := kbd_chars q (shift_after esc h) in let '(cs', (esc', h')) := typed q esc h in
  filter is_char cs = cs' /\ Forall (fun c => 0 <= c < 256) cs /\ shift' = shift_after esc' h'.
Proof.
  induction q as [|b q IH]; intros esc h Hq; cbn [kbd_chars typed]; [split_and!; try done; constructor|]. apply list.Forall_cons in Hq as [Hb Hq].
  rewrite (byte_event b esc h Hb).
  destruct (decode esc b) as [esc' [e|]].
  - specialize (IH esc' (e :: h) Hq). destruct (kbd_chars q (shift_after esc' (e :: h))) as [cs sh].
    destruct (typed q esc' (e :: h)) as [cs' [esc2 h2]]. destruct IH as (E & F & S).
    split; [|split; [constructor; [|done]|done]]; destruct e as [k|k]; [|rewrite filter_cons_False by (intros H; by apply H); done|apply glyph_byte|lia].
    unfold event_char.
    destruct (Z.eqb_spec (glyph k (Press k :: h)) 0) as [E0|E0]; [rewrite filter_cons_False by (intros H; by apply H)|rewrite filter_cons_True by done; cbn [app]; f_equal]; done.
  - specialize (IH esc' h Hq). destruct (kbd_chars q (shift_after esc' h)) as [cs sh]. destruct (typed q esc' h) as [cs' [esc2 h2]].
    destruct IH as (E & F & S).
    split; [rewrite filter_cons_False by (intros H; by apply H); done|]. split; [constructor; [lia|done]|done].
Qed.

(** A zero is no key to the console. *)
Lemma keys_chars cs : forall d, keys_spec cs d = keys_spec (filter is_char cs) d.
Proof.
  induction cs as [|c cs IH]; intros d; [done|]. destruct (decide (is_char c)) as [Hc|Hc].
  - rewrite filter_cons_True by done. cbn [keys_spec]. destruct (key_spec c d) as [[d1 e1] w1]. by rewrite IH.
  - rewrite filter_cons_False by done. assert (c = 0) as -> by (unfold is_char in Hc; lia). cbn [keys_spec].
    change (key_spec 0 d) with (d, @nil Z, false). cbv iota. rewrite IH. by destruct (keys_spec _ d) as [[? ?] ?].
Qed.

(** C36: from scan codes to lines.  Whatever bytes the keyboard sends, after them
    [shift] tells which modifiers are held (the last event of one of their keys was
    a press), which locks are on (an odd number of presses) and whether a prefix is
    pending; and the console's line discipline has received, in order, the
    character of each press: from the table for control, shift or neither, letters
    with the case changed under caps lock, nothing for keys without a character. *)
Theorem keyboard_refines q esc h ib d : Forall (fun b => 0 <= b < 256) q -> rep ib d ->
  let '(shift', (ib', echo, wake, _)) := kbdintr q (shift_after esc h) ib in
  let '(cs, (esc', h')) := typed q esc h in
  let '(d', echo', wake') := keys_spec cs d in
  shift' = shift_after esc' h' /\ rep ib' d' /\ echo = echo' /\ wake = wake'.
Proof.
  intros Hq Hr. unfold kbdintr. pose proof (chars_typed q esc h Hq) as H. destruct (kbd_chars q (shift_after esc h)) as [cs sh].
  destruct (typed q esc h) as [cs' [esc' h']]. destruct H as (E & F & S).
  pose proof (consoleintr_refines cs ib d Hr F) as HC. destruct (consoleintr cs ib) as [[[ib' echo] wake] dump]. rewrite keys_chars, E in HC.
  destruct (keys_spec cs' d) as [[d' echo'] wake']. by split.
Qed.

(** Shift down, a, shift up, caps lock, a, right control with b, enter. *)
Lemma keyboard_refines_witness : exists ib' d', (kbdintr [0x2A; 0x1E; 0x9E; 0xAA; 0x3A; 0xBA; 0x1E; 0x9E; 0xE0; 0x1D; 0x30; 0xB0; 0xE0; 0x9D; 0x1C] 0 sample_ib).2.1.1.1 = ib' /\ rep ib' d' /\ queue d' = [65; 65; 2; 10].
Proof.
  pose proof (keyboard_refines [0x2A; 0x1E; 0x9E; 0xAA; 0x3A; 0xBA; 0x1E; 0x9E; 0xE0; 0x1D; 0x30; 0xB0; 0xE0; 0x9D; 0x1C] false [] sample_ib (Disc [] []) ltac:(repeat constructor; lia) sample_rep) as H.
  change (shift_after false []) with 0 in H. destruct (kbdintr _ 0 sample_ib) as [sh [[[ib' e] w] du]].
  destruct (typed _ _ _) as [cs [esc' h']] eqn:Et. vm_compute in Et. injection Et as <- <- <-.
  destruct (keys_spec _ _) as [[d' e'] w'] eqn:E. vm_compute in E. injection E as <- <- <-. destruct H as (_ & H & _). exists ib'. eexists.
  split; [reflexivity|]. split; [exact H|reflexivity].
Defined.

(** The table has Home under 0x97; the key is 0x47 behind the prefix, which is
    0xC7 there and gives nothing. *)
Lemma home_is_lost : fst (typed [0xE0; 0x47] false []) = [] /\ at_key normalmap 0x97 = 0xE0.
Proof. vm_compute. done. Qed.
(** Letting go of one shift key lets go of both. *)
Lemma one_shift_released : fst (typed [0x2A; 0x36; 0xB6; 0x1E] false []) = [97].
Proof. vm_compute. done. Qed.
