(* ===== verification/Devices.v ===== *)
(** Devices without hardware: [bitbucket.c] (null, zero and robpike), the system
    parameters of [devsysctl.c], and the fields of a command, [kfields.c].

    A write gets the memory of the process from the buffer on: the routines read
    it as a C string, whatever [nbytes] is.  Messages on the console are left out,
    and so is the clock, which neither reads nor writes. *)

From Stdlib Require Import Ascii.
From S2P Require Import Prelude CString.

Definition text (s : string) : list Z := (fun c => Z.of_N (N_of_ascii c)) <$> String.list_ascii_of_string s.

(** ** State *)

Record device := Device {
  d_sysuart : bool; d_syscons : bool; d_singleuser : bool; d_allowthreads : bool; d_useclone : bool; d_msgnote : bool;
  halted : bool; sysname : list Z; sysnamelen : Z; robcounter : Z; d_err : option string
}.
Inductive knob := Sysuart | Syscons | Singleuser | Allowthreads | Useclone | Msgnote.
Definition setting (k : knob) (d : device) : bool :=
  match k with Sysuart => d_sysuart d | Syscons => d_syscons d | Singleuser => d_singleuser d | Allowthreads => d_allowthreads d | Useclone => d_useclone d | Msgnote => d_msgnote d end.
Definition set_knob (k : knob) (v : bool) (d : device) : device :=
  match d with
  | Device u c s a l m h n nl r e =>
    match k with
    | Sysuart => Device v c s a l m h n nl r e
    | Syscons => Device u v s a l m h n nl r e
    | Singleuser => Device u c v a l m h n nl r e
    | Allowthreads => Device u c s v l m h n nl r e
    | Useclone => Device u c s a v m h n nl r e
    | Msgnote => Device u c s a l v h n nl r e
    end
  end.
Definition set_halted (v : bool) (d : device) : device :=
  Device (d_sysuart d) (d_syscons d) (d_singleuser d) (d_allowthreads d) (d_useclone d) (d_msgnote d) v (sysname d) (sysnamelen d) (robcounter d) (d_err d).
Definition set_sysname (n : list Z) (len : Z) (d : device) : device :=
  Device (d_sysuart d) (d_syscons d) (d_singleuser d) (d_allowthreads d) (d_useclone d) (d_msgnote d) (halted d) n len (robcounter d) (d_err d).
Definition set_robcounter (v : Z) (d : device) : device :=
  Device (d_sysuart d) (d_syscons d) (d_singleuser d) (d_allowthreads d) (d_useclone d) (d_msgnote d) (halted d) (sysname d) (sysnamelen d) v (d_err d).
Definition set_derr (e : string) (d : device) : device :=
  Device (d_sysuart d) (d_syscons d) (d_singleuser d) (d_allowthreads d) (d_useclone d) (d_msgnote d) (halted d) (sysname d) (sysnamelen d) (robcounter d) (Some e).
Definition refuse {A} (e : string) (v : A) : M device A := modify (set_derr e) ;; mret v.

(** ** The bit bucket *)

(** A read returns its result and the bytes it put into the buffer. *)
Inductive transfer := Read | Write.
Definition nullrw (dir : transfer) (nbytes : Z) : M device (Z * list Z) :=
  match dir with Read => refuse "EDNOREAD" (-1, []) | Write => mret (nbytes, []) end.
Definition zerorw (dir : transfer) (nbytes : Z) : M device (Z * list Z) :=
  match dir with Read => mret (nbytes, replicate (Z.to_nat nbytes) 0) | Write => mret (nbytes, []) end.
(** With the NUL. *)
Definition quote : list Z := text "I'd spell creat with an e." ++ [10; 0].
Definition robrw (dir : transfer) (nbytes : Z) : M device (Z * list Z) :=
  modify (fun d => if 28 <=? robcounter d then set_robcounter 0 d else d) ;;
  d ← get;
  match dir with
  | Read =>
    let left := 28 - robcounter d in
    let readlen := if u32 nbytes <=? left then nbytes else left in
    modify (set_robcounter (robcounter d + readlen)) ;;
    mret (readlen, slice quote (Z.to_nat (robcounter d)) (Z.to_nat readlen))
  | Write => refuse "EDFUCKYOU" (0, [])
  end.
Definition bitbucket (dir : transfer) (minor nbytes : Z) : M device (Z * list Z) :=
  if minor =? 0 then nullrw dir nbytes else if minor =? 1 then zerorw dir nbytes else if minor =? 2 then robrw dir nbytes
  else refuse "EDNOTEXIST" (-1, []).
Definition bitbucket_read (minor nbytes : Z) : M device (Z * list Z) := bitbucket Read minor nbytes.
Definition bitbucket_write (minor nbytes : Z) : M device Z := '(r, _) ← bitbucket Write minor nbytes; mret r.

(** ** Fields *)

Definition is_sep (c : Z) : bool := (c =? 0) || (c =? 32) || (c =? 10) || (c =? 9).
Definition FIELDMAX : nat := 256.   (* the callers' buffers *)
(** [None]: a write behind the buffer. *)
Fixpoint copy_field (obf s : list Z) (i : nat) : option (list Z * nat) :=
  match s with
  | [] => Some (obf, i)
  | c :: s' => if is_sep c then Some (obf, i) else if (i <? FIELDMAX)%nat then copy_field (<[i := c]> obf) s' (S i) else None
  end.
(** The buffer, the pointer it returns ([None] for nil), [*iter] and [*status]. *)
Definition getnextfield (mem obf : list Z) (inbf : nat) (iter : Z) : option (list Z * option nat * Z * bool) :=
  len ← Kernel.strlen mem inbf;
  match mem !! inbf with
  | Some 0 => Some (obf, None, iter, true)
  | _ =>
    '(obf, i) ← copy_field obf (take len (drop inbf mem)) 0;
    if (i <? FIELDMAX)%nat then
      let iter := iter + Z.of_nat i + 1 in Some (<[i := 0]> obf, Some (inbf + Z.to_nat iter)%nat, iter, false)
    else None
  end.
Definition field (mem obf : list Z) (inbf : nat) (iter : Z) : M device (list Z * option nat * Z * bool) :=
  match getnextfield mem obf inbf iter with Some r => mret r | None => panic "getnextfield" end.

(** ** System parameters *)

Definition scmsgsz : Z := 15.
Definition scmsg (k : knob) (on : bool) : list Z :=
  text (match k with
  | Sysuart => if on then "sysuart 1     " else "sysuart 0     "
  | Singleuser => if on then "singleuser 1  " else "singleuser 0  "
  | Allowthreads => if on then "allowthreads 1" else "allowthreads 0"
  | Useclone => if on then "useclone 1    " else "useclone 0    "
  | Msgnote => if on then "msgnote 1     " else "msgnote 0     "
  | Syscons => if on then "syscons 1     " else "syscons 0     "
  end) ++ [10].
Definition report (d : device) : list Z :=
  mjoin ((fun k => scmsg k (setting k d)) <$> [Sysuart; Syscons; Singleuser; Allowthreads; Useclone; Msgnote]).
Definition diskctl_read : M device (Z * list Z) := mret (0, []).
Definition sysctl_read (minor nbytes off : Z) : M device (Z * list Z) :=
  let scmsz := scmsgsz * 6 in
  if minor =? 0 then
    if scmsz <=? off then mret (0, []) else
    let rnbytes := if scmsz <=? nbytes then scmsz else nbytes in
    d ← get;
    if rnbytes <? 0 then panic "memmove" else mret (rnbytes, take (Z.to_nat rnbytes) (report d ++ replicate 5 0))
  else if minor =? 1 then diskctl_read else mret (0, []).

(** [reboot] and [shutdown(0)] do not come back. *)
Definition reboot : M device Z := modify (fun d => set_knob Syscons true (set_knob Sysuart true d)) ;; blocked.
Definition shutdown : M device Z := modify (fun d => set_halted true (set_knob Syscons true (set_knob Sysuart true d))) ;; blocked.
(** Hours, minutes and seconds of its message. *)
Definition uptime (ticks : Z) : Z * Z * Z :=
  let rsbuf := ticks / 100 in
  let hours := rsbuf / 60 / 60 in
  let rsbuf := rsbuf - rsbuf / 60 / 60 * 60 * 60 in
  (hours, rsbuf / 60, rsbuf - rsbuf / 60 * 60).
Definition startdrv : Z := 1.

Definition word_is (buf : list Z) (w : string) : bool := bool_decide (until0 buf = text w).
(** [yes] and [no]; [lone] is for a command without a second field. *)
Definition second_field (lone : option bool) (k : knob) (mem buf : list Z) (rbf : nat) (i : Z) : M device Z :=
  '(buf, _, i, st) ← field mem buf rbf i;
  (if (st : bool) then match lone with Some v => modify (set_knob k v) | None => mret tt end else mret tt) ;;
  (if st && (if lone is None then true else false) then mret tt
   else if word_is buf "yes" then modify (set_knob k true) else if word_is buf "no" then modify (set_knob k false) else mret tt) ;;
  mret i.
(** Every branch of the loop's body leaves the loop, so it runs once. *)
Definition sysctl_write (uid sid minor : Z) (mem : list Z) (nbytes : Z) : M device Z :=
  if negb (minor =? 0) then mret 0 else
  if nbytes <=? 0 then refuse "EDNOWRITE" (-1) else
  if (0 <=? uid) || (0 <=? sid) then refuse "EDFUCKYOU" (-1) else
  '(buf, rbf, i, st) ← field mem (replicate 256 0) 0 0;
  let rbf := default 0%nat rbf in
  if (st : bool) then mret i
  else if word_is buf "reboot" then reboot
  else if word_is buf "halt" then shutdown
  else if word_is buf "nosysuart" then modify (set_knob Sysuart false) ;; mret i
  else if word_is buf "sysuart" then second_field (Some true) Sysuart mem buf rbf i
  else if word_is buf "syscons" then second_field (Some true) Syscons mem buf rbf i
  else if word_is buf "singleuser" then second_field None Singleuser mem buf rbf i
  else if word_is buf "allowthreads" then second_field None Allowthreads mem buf rbf i
  else if word_is buf "useclone" then second_field None Useclone mem buf rbf i
  else if word_is buf "startdrv" then
    '(_, _, i, st) ← field mem buf rbf i;
    if (st : bool) then mret i else if startdrv =? 0 then refuse "EDSTARTFAIL" (-1) else mret i
  else if word_is buf "msgnote" then second_field None Msgnote mem buf rbf i
  else refuse "EDBADCMD" (-1).

(** ** The name of the system *)

(** [while(a[i] != 0 && i < n)]: the bytes before. *)
Fixpoint upto (l : list Z) (n : nat) : option (list Z) :=
  match l, n with
  | [], _ => None
  | 0 :: _, _ => Some []
  | _, O => Some []
  | c :: l', S n' => cons c <$> upto l' n'
  end.
Definition sysname_init : list Z := text "amnesiac" ++ replicate 248 0.
Definition sysname_read (nbytes off : Z) : M device (Z * list Z) :=
  modify (fun d => if sysnamelen d =? 0 then set_sysname (sysname d) (Z.of_nat (length (until0 (sysname d)))) d else d) ;;
  d ← get;
  if (256 <=? off) || (sysnamelen d <=? off) then mret (0, []) else
  match upto (sysname d) (Z.to_nat nbytes) with None => panic "sysname" | Some bs => mret (Z.of_nat (length bs), bs) end.
Definition sysname_write (pid sid : Z) (mem : list Z) (nbytes : Z) : M device Z :=
  if nbytes <=? 0 then refuse "EDNOWRITE" (-1) else
  if (0 <=? pid) || (0 <=? sid) then refuse "EDFUCKYOU" (-1) else
  match upto mem (Z.to_nat nbytes) with
  | None => panic "page fault"
  | Some bs =>
    d ← get;
    if (length (sysname d) <? length bs)%nat then panic "sysname" else
    modify (set_sysname (bs ++ drop (length bs) (sysname d)) (Z.of_nat (length bs))) ;; mret (Z.of_nat (length bs))
  end.

(** ** The clock *)

Definition systime_write : M device Z := refuse "EDNOWRITE" (-1).
Definition systime_read : M device Z := refuse "EDNOREAD" (-1).

(** ** Properties *)

Definition plain (w : list Z) : Prop := Forall (fun c => is_sep c = false) w.
Lemma copy_word w : forall obf s i, plain w -> (i + length w <= 256)%nat -> length obf = 256%nat -> match s with [] => True | c :: _ => is_sep c = true end ->
  copy_field obf (w ++ s) i = Some (take i obf ++ w ++ drop (i + length w) obf, (i + length w)%nat).
Proof.
  induction w as [|c w IH]; intros obf s i Hw Hl Ho Hs; cbn [app length].
  - rewrite Nat.add_0_r, take_drop. destruct s as [|c s]; cbn [copy_field]; [done|]. by rewrite Hs.
  - apply list.Forall_cons in Hw as [Hc Hw]. cbn [length] in Hl. cbn [copy_field].
    rewrite Hc, (proj2 (Nat.ltb_lt i FIELDMAX)) by (unfold FIELDMAX; lia).
    rewrite IH by (rewrite ?length_insert; done || lia). rewrite (take_S_r _ i c) by (apply list_lookup_insert_eq; lia).
    rewrite take_insert_ge by lia. rewrite drop_insert_lt by lia.
    rewrite <- app_assoc. cbn [app]. replace (S i + length w)%nat with (i + S (length w))%nat by lia. done.
Qed.
Lemma plain_nonzero w : plain w -> Forall (fun c => c <> 0) w.
Proof. intros H. eapply list.Forall_impl; [exact H|]. by intros c Hc ->. Qed.
Lemma strlen_until0 mem p : (0 : Z) ∈ drop p mem -> Kernel.strlen mem p = Some (length (until0 (drop p mem))).
Proof.
  intros H. unfold Kernel.strlen. induction (drop p mem) as [|c l IH]; [by apply not_elem_of_nil in H|]. cbn. destruct (Z.eqb_spec c 0); [done|].
  apply elem_of_cons in H as [H|H]; [by subst|]. by rewrite (IH H).
Qed.
Lemma until0_word w c s : plain w -> is_sep c = true -> take (length (until0 (w ++ c :: s))) (w ++ c :: s) = w ++ if c =? 0 then [] else take (length (until0 (c :: s))) (c :: s).
Proof.
  intros Hw Hc. induction Hw as [|x w Hx _ IH]; cbn [app until0].
  - destruct (Z.eqb_spec c 0); done.
  - destruct (Z.eqb_spec x 0) as [->|]; [done|]. cbn [length take]. by rewrite IH.
Qed.
Lemma take_until0 l : take (length (until0 l)) l = until0 l.
Proof. induction l as [|c l IH]; [done|]. cbn [until0]. destruct (c =? 0); [done|]. cbn [length take]. by rewrite IH. Qed.

(** A field that ends at a separator: its text, and the way to the next. *)
Lemma field_run mem obf p iter w c s (d : device) : drop p mem = w ++ c :: s -> plain w -> w <> [] -> (length w < 256)%nat -> is_sep c = true -> (0 : Z) ∈ c :: s -> length obf = 256%nat -> 0 <= iter ->
  field mem obf p iter d = Ok (w ++ 0 :: drop (S (length w)) obf, Some (p + Z.to_nat (iter + Z.of_nat (length w) + 1))%nat, iter + Z.of_nat (length w) + 1, false) d.
Proof.
  intros E Hw Hne Hl Hc H0 Ho Hi. unfold field, getnextfield. rewrite strlen_until0 by (rewrite E; apply elem_of_app; by right).
  cbn [mbind option_bind].
  assert (exists x, mem !! p = Some x /\ x <> 0) as (x & Ex & Hx).
  { destruct w as [|x w]; [done|]. exists x. split; [|by apply plain_nonzero in Hw; apply list.Forall_cons in Hw as [? _]].
    rewrite <- (Nat.add_0_r p), <- lookup_drop, E. done. }
  rewrite Ex. rewrite E, until0_word by done. set (r := if c =? 0 then _ else _).
  assert (match r with [] => True | c :: _ => is_sep c = true end) as Hr.
  { unfold r. cbn [until0]. destruct (Z.eqb_spec c 0); done. }
  rewrite (copy_word w obf r 0 Hw ltac:(lia) Ho Hr).
  rewrite Nat.add_0_l, take_0. cbn [app mbind option_bind]. rewrite (proj2 (Nat.ltb_lt (length w) FIELDMAX)) by (unfold FIELDMAX; lia).
  assert (<[length w := 0]> (w ++ drop (length w) obf) = w ++ 0 :: drop (S (length w)) obf) as EI.
  { rewrite insert_app_r_alt by lia. rewrite Nat.sub_diag. f_equal.
    destruct (drop (length w) obf) as [|y l] eqn:Ed; [apply (f_equal length) in Ed; rewrite length_drop in Ed; cbn in Ed; lia|].
    cbn. f_equal. replace (S (length w)) with (length w + 1)%nat by lia. rewrite <- drop_drop, Ed. done. }
  rewrite EI. destruct x as [|x|x]; done.
Qed.

Definition knob_name (k : knob) : string :=
  match k with Sysuart => "sysuart" | Syscons => "syscons" | Singleuser => "singleuser" | Allowthreads => "allowthreads" | Useclone => "useclone" | Msgnote => "msgnote" end.
Definition answer (v : bool) : string := if v then "yes" else "no".
#[export] Instance knob_eq_dec : EqDecision knob.
Proof. solve_decision. Defined.
Lemma setting_set k v k' d : setting k' (set_knob k v d) = if decide (k' = k) then v else setting k' d.
Proof. destruct d, k, k'; done. Qed.

(** Where the report says what a parameter is. *)
Definition knobs : list knob := [Sysuart; Syscons; Singleuser; Allowthreads; Useclone; Msgnote].
Definition shown_at (k : knob) : nat := match k with Sysuart => 8 | Syscons => 23 | Singleuser => 41 | Allowthreads => 58 | Useclone => 69 | Msgnote => 83 end.
Lemma report_shows d k : report d !! shown_at k = Some (48 + Z.b2z (setting k d)) /\ length (report d) = 90%nat.
Proof. destruct d as [[] [] [] [] [] [] ? ? ? ? ?], k; split; vm_compute; done. Qed.
Lemma report_length d : length (report d) = 90%nat.
Proof. apply (report_shows d Sysuart). Qed.
Lemma read_report d : sysctl_read 0 90 0 d = Ok (90, report d) d.
Proof.
  transitivity (Ok (90, take 90 (report d ++ replicate 5 0)) d : res device (Z * list Z)); [reflexivity|]. do 2 f_equal.
  rewrite take_app_le by (rewrite report_length; lia). apply take_ge. rewrite report_length. lia.
Qed.

(** Words of commands. *)
Lemma name_plain k : plain (text (knob_name k)) /\ text (knob_name k) <> [] /\ (length (text (knob_name k)) < 20)%nat.
Proof. destruct k; (split; [apply (bool_decide_unpack _); vm_compute; exact I|split; [done|vm_compute; lia]]). Qed.
Lemma answer_plain v : plain (text (answer v)) /\ text (answer v) <> [] /\ (length (text (answer v)) < 20)%nat.
Proof. destruct v; (split; [apply (bool_decide_unpack _); vm_compute; exact I|split; [done|vm_compute; lia]]). Qed.
Lemma word_after w rest v : plain w -> word_is (w ++ 0 :: rest) v = bool_decide (w = text v).
Proof. intros Hw. unfold word_is. by rewrite until0_app by by apply plain_nonzero. Qed.

Lemma second_field_run lone k mem buf p i v c s d : drop p mem = text (answer v) ++ c :: s -> is_sep c = true -> (0 : Z) ∈ c :: s -> length buf = 256%nat -> 0 <= i ->
  second_field lone k mem buf p i d = Ok (i + Z.of_nat (length (text (answer v))) + 1) (set_knob k v d).
Proof.
  intros E Hc H0 Hb Hi. destruct (answer_plain v) as (P1 & P2 & P3). unfold second_field.
  rewrite (bind_ok _ _ _ _ _ (field_run _ _ _ _ _ _ _ d E P1 P2 ltac:(lia) Hc H0 Hb Hi)). cbn beta iota.
  rewrite (bind_ok _ _ _ tt d) by done. cbn [andb]. rewrite !word_after by done.
  assert (bool_decide (text (answer v) = text "yes") = v) as -> by (destruct v; apply (bool_decide_unpack _); vm_compute; exact I).
  assert (bool_decide (text (answer v) = text "no") = negb v) as -> by (destruct v; apply (bool_decide_unpack _); vm_compute; exact I). by destruct v.
Qed.

(** C37: system parameters through their device.  A write to it by anybody but a
    process that is superuser of the machine changes none of them.  A superuser's
    command, a parameter's name and [yes] or [no] with one separator between, not
    NUL, and one behind, in a text that ends in a NUL, sets exactly that parameter;
    and a read of the device then returns the report, which shows every parameter
    as it is. *)
Theorem sysctl_sets uid sid k v c1 c2 rest nbytes d :
  is_sep c1 = true -> c1 <> 0 -> is_sep c2 = true -> (0 : Z) ∈ c2 :: rest -> 0 < nbytes ->
  let mem := text (knob_name k) ++ c1 :: text (answer v) ++ c2 :: rest in
  if decide (uid < 0 /\ sid < 0) then
    exists n d', sysctl_write uid sid 0 mem nbytes d = Ok n d' /\ (forall k', setting k' d' = if decide (k' = k) then v else setting k' d) /\
      sysctl_read 0 90 0 d' = Ok (90, report d') d' /\ forall k', report d' !! shown_at k' = Some (48 + Z.b2z (setting k' d'))
  else forall minor mem' n', exists r d', sysctl_write uid sid minor mem' n' d = Ok r d' /\ r <= 0 /\ forall k', setting k' d' = setting k' d.
Proof.
  intros H1 H1' H2 H0 Hn mem. case_decide as Hu.
  - destruct (name_plain k) as (P1 & P2 & P3). set (w := text (knob_name k)) in *.
    assert (drop 0 mem = w ++ c1 :: (text (answer v) ++ c2 :: rest)) as E1 by done.
    assert (drop (length w + 1) mem = text (answer v) ++ c2 :: rest) as E2.
    { unfold mem. rewrite drop_app_ge by lia. replace (length w + 1 - length w)%nat with 1%nat by lia. done. }
    unfold sysctl_write. rewrite Z.eqb_refl, (proj2 (Z.leb_gt nbytes 0)), (proj2 (Z.leb_gt 0 uid)), (proj2 (Z.leb_gt 0 sid)) by lia. cbn [negb orb].
    assert ((0 : Z) ∈ c1 :: (text (answer v) ++ c2 :: rest)) as H0'. { apply elem_of_cons. right. apply elem_of_app. by right. }
    rewrite (bind_ok _ _ _ _ _ (field_run mem (replicate 256 0) 0 0 w c1 _ d E1 P1 P2 ltac:(lia) H1 H0' ltac:(done) ltac:(lia))). cbn beta iota.
    cbn [default]. replace (0 + Z.to_nat (0 + Z.of_nat (length w) + 1))%nat with (length w + 1)%nat by lia. rewrite !word_after by done.
    set (buf := w ++ 0 :: drop (S (length w)) (replicate 256 0)).
    assert (length buf = 256%nat) as Hb by (unfold buf; rewrite length_app; cbn [length]; rewrite length_drop, length_replicate; lia).
    set (i := 0 + Z.of_nat (length w) + 1).
    assert (forall lone, second_field lone k mem buf (length w + 1) i d = Ok (i + Z.of_nat (length (text (answer v))) + 1) (set_knob k v d)) as HS
      by (intros lone; exact (second_field_run lone k mem buf _ i v c2 rest d E2 H2 H0 Hb ltac:(lia))).
    eexists _, (set_knob k v d). split; [|split; [intros k'; apply setting_set|split; [apply read_report|intros k'; apply report_shows]]].
    destruct k; [exact (HS (Some true))|exact (HS (Some true))|exact (HS None)..].
  - intros minor mem' n'. unfold sysctl_write. destruct (minor =? 0); cbn [negb]; [|exists 0, d; by split_and!].
    destruct (n' <=? 0); [eexists (-1), _; split_and!; [reflexivity|lia|by intros []]|].
    assert ((0 <=? uid) || (0 <=? sid) = true) as -> by (apply orb_true_iff; rewrite !Z.leb_le; lia). eexists (-1), _.
    split_and!; [reflexivity|lia|by intros []].
Qed.

Definition fresh : device := Device true true true true true false false sysname_init 0 0 None.
(** [singleuser no] *)
Lemma sysctl_sets_witness : exists n d', sysctl_write (-1) (-1) 0 (text "singleuser no" ++ [10; 0]) 14 fresh = Ok n d' /\ setting Singleuser d' = false /\ setting Sysuart d' = true /\
  report d' !! 41%nat = Some 48.
Proof.
  pose proof (sysctl_sets (-1) (-1) Singleuser false 32 10 [0] 14 fresh eq_refl ltac:(lia) eq_refl ltac:(right; left) ltac:(lia)) as H. cbv zeta in H.
  rewrite decide_True in H by lia.
  destruct H as (n & d' & E & S & _ & R). exists n, d'. split; [exact E|]. split; [exact (S Singleuser)|]. split; [exact (S Sysuart)|].
  pose proof (R Singleuser) as R1. rewrite (S Singleuser) in R1. exact R1.
Defined.

(** [shutdown] splits the time the machine was up. *)
Lemma uptime_splits ticks : 0 <= ticks -> let '(h, m, s) := uptime ticks in 3600 * h + 60 * m + s = ticks / 100 /\ 0 <= m < 60 /\ 0 <= s < 60.
Proof. intros H. unfold uptime. dlia. Qed.

(** Reads of /dev/robpike go round the quote. *)
Lemma robpike_reads n d : 0 <= n < 2 ^ 31 -> 0 <= robcounter d < 28 -> let m := Z.min n (28 - robcounter d) in
  robrw Read n d = Ok (m, slice quote (Z.to_nat (robcounter d)) (Z.to_nat m)) (set_robcounter (robcounter d + m) d) /\ 0 <= robcounter d + m <= 28.
Proof.
  intros Hn Hr m. unfold robrw. rewrite (bind_ok _ _ _ tt d) by (unfold modify; by rewrite (proj2 (Z.leb_gt _ _)) by lia).
  rewrite (bind_ok _ _ _ d d) by done.
  assert ((if u32 n <=? 28 - robcounter d then n else 28 - robcounter d) = m) as Em.
  { rewrite u32_small by lia. unfold m. destruct (Z.leb_spec n (28 - robcounter d)); lia. }
  rewrite Em. split; [done|]. unfold m. lia.
Qed.

(** Nobody can set the system's name: the test is on the process's number. *)
Lemma sysname_never_written pid sid mem nbytes d : 0 <= pid -> exists e, sysname_write pid sid mem nbytes d = Ok (-1) (set_derr e d).
Proof. intros H. unfold sysname_write. rewrite (proj2 (Z.leb_le 0 pid) H). destruct (nbytes <=? 0); by eexists. Qed.
(** A reader in small pieces gets the beginning again and again. *)
Lemma sysctl_read_restarts off d : 0 <= off < 90 -> sysctl_read 0 10 off d = sysctl_read 0 10 0 d.
Proof. intros H. unfold sysctl_read. change (scmsgsz * 6) with 90. rewrite !(proj2 (Z.leb_gt 90 _)) by lia. done. Qed.
(** A command without its second field goes on behind the end of the string, and
    the result counts the separator behind the last field. *)
Lemma sysctl_reads_behind : exists d', sysctl_write (-1) (-1) 0 (text "sysuart" ++ [0] ++ text "no" ++ [0]) 7 fresh = Ok 11 d' /\ d_sysuart d' = false.
Proof. eexists. vm_compute. done. Qed.
(** A field of more than 255 bytes is written behind the buffer. *)
Lemma long_field_overruns : getnextfield (replicate 300 97 ++ [0]) (replicate 256 0) 0 0 = None.
Proof. vm_compute. done. Qed.
