(* ===== verification/Args.v ===== *)
(** Command-line options of user programs ([args.c]).

    An argument is its bytes, without the NUL.  [flags] is the caller's array; a
    store outside it is [None]. *)

From S2P Require Import Prelude.

Definition minus : Z := 45.
(** [argv[i][j]], 0 at the end. *)
Definition at_char (s : list Z) (j : nat) : Z := default 0 (s !! j).

Fixpoint findinstring_from (c : Z) (str : list Z) (i : Z) : Z :=
  match str with [] => -1 | x :: str' => if c =? x then i else findinstring_from c str' (i + 1) end.
Definition findinstring (c : Z) (str : list Z) : Z := findinstring_from c str 0.

(** The characters behind the minus.  [inr]: [args] returns. *)
Fixpoint option_chars (cs options flags : list Z) (i last : Z) : option (list Z * (Z + Z)) :=
  match cs with
  | [] => Some (flags, inl last)
  | c :: cs' =>
    let fg := findinstring c options in
    if fg =? -1 then Some (flags, inr (if c =? minus then i else -1)) else
    if Z.of_nat (length flags) <=? fg then None else
    option_chars cs' options (<[Z.to_nat fg := 1]> flags) i i
  end.
Fixpoint args_from (argv : list (list Z)) (options flags : list Z) (i last : Z) : option (list Z * Z) :=
  match argv with
  | [] => Some (flags, last)
  | a :: argv' =>
    if at_char a 0 =? minus then
      '(flags, r) ← option_chars (drop 1 a) options flags i last;
      match r with inr v => Some (flags, v) | inl last => args_from argv' options flags (i + 1) last end
    else args_from argv' options flags (i + 1) last
  end.
Definition args (argv : list (list Z)) (options flags : list Z) : option (list Z * Z) := args_from argv options flags 0 0.

Fixpoint argf (argv : list (list Z)) (c : Z) : option (list Z) :=
  match argv with
  | [] => None
  | a :: argv' =>
    if (at_char a 0 =? minus) && (at_char a 1 =? minus) then None else
    if (at_char a 0 =? minus) && (at_char a 1 =? c) then
      match argv' with [] => None | v :: _ => if negb (at_char v 0 =? minus) then Some v else None end
    else argf argv' c
  end.

Fixpoint lastarg_from (argv : list (list Z)) (opts : list Z) (i last : Z) (nextgood : bool) : Z :=
  match argv with
  | [] => last
  | a :: argv' =>
    if at_char a 0 =? minus then
      if at_char a 1 =? minus then i else
      lastarg_from argv' opts (i + 1) i (nextgood || (0 <=? findinstring (at_char a 1) opts))
    else if nextgood then lastarg_from argv' opts (i + 1) i false
    else lastarg_from argv' opts (i + 1) last false
  end.
Definition lastarg (argv : list (list Z)) (opts : list Z) : Z := lastarg_from argv opts 0 0 false.

(** ** Properties *)

Lemma find_from c str : forall i, findinstring_from c str i = match list_find (eq c) str with Some (k, _) => i + Z.of_nat k | None => -1 end.
Proof.
  induction str as [|x str IH]; intros i; cbn [findinstring_from list_find]; [done|].
  destruct (Z.eqb_spec c x) as [->|Hne]; [rewrite decide_True by done; lia|].
  rewrite decide_False by done. rewrite IH. destruct (list_find (eq c) str) as [[k y]|]; cbn; [lia|done].
Qed.
Lemma find_in c str : c ∈ str -> exists k, findinstring c str = Z.of_nat k /\ str !! k = Some c /\ forall j, (j < k)%nat -> str !! j <> Some c.
Proof.
  intros H. unfold findinstring. rewrite find_from. destruct (list_find (eq c) str) as [[k y]|] eqn:E.
  - apply list_find_Some in E as (E1 & <- & E2). exists k. split; [lia|]. split; [done|]. intros j Hj Ej. by apply (E2 j c Ej Hj).
  - apply list_find_None in E. rewrite list.Forall_forall in E. by destruct (E c H).
Qed.

Definition options_of (argv : list (list Z)) : list Z := mjoin ((fun a => if at_char a 0 =? minus then drop 1 a else []) <$> argv).
(** The flag of an option, by its first place among the options. *)
Definition flag_at (options flags : list Z) (c : Z) : option Z := flags !! Z.to_nat (findinstring c options).

Lemma option_chars_run cs options i : forall flags last, Forall (fun c => c ∈ options) cs -> length flags = length options ->
  exists flags', option_chars cs options flags i last = Some (flags', inl (if decide (cs = []) then last else i)) /\ length flags' = length options /\
    forall c, c ∈ options -> flag_at options flags' c = if decide (c ∈ cs) then Some 1 else flag_at options flags c.
Proof.
  induction cs as [|c cs IH]; intros flags last Hcs Hl; cbn [option_chars].
  - exists flags. split; [done|]. split; [done|]. intros c _. rewrite decide_False; [done|apply not_elem_of_nil].
  - apply list.Forall_cons in Hcs as [Hc Hcs]. destruct (find_in c options Hc) as (k & Ek & Hk & _). pose proof (lookup_lt_Some _ _ _ Hk) as Hlt.
    rewrite Ek.
    rewrite (proj2 (Z.eqb_neq _ (-1))) by lia. rewrite (proj2 (Z.leb_gt _ _)) by lia. rewrite Nat2Z.id.
    destruct (IH (<[k := 1]> flags) i Hcs) as (f' & E & Hf & HF); [by rewrite length_insert|].
    exists f'. rewrite E. split; [by case_decide|]. split; [done|]. intros x Hx. rewrite (HF x Hx).
    destruct (find_in x options Hx) as (j & Ej & Hj & _). destruct (decide (x ∈ cs)) as [Hin|Hin].
    + rewrite decide_True by (by right). done.
    + unfold flag_at. rewrite Ej, Nat2Z.id. destruct (decide (j = k)) as [->|Hne].
      * rewrite list_lookup_insert_eq by lia. assert (x = c) as -> by congruence. rewrite decide_True by (by left). done.
      * rewrite list_lookup_insert_ne by done. rewrite decide_False; [done|]. intros [->|?]%elem_of_cons; [|done]. apply Hne. rewrite Ek in Ej. lia.
Qed.

(** With known options only, [args] sets exactly the flags of the options that
    are given. *)
Theorem args_sets_flags argv options flags : Forall (fun c => c ∈ options) (options_of argv) -> length flags = length options ->
  exists flags' n, args argv options flags = Some (flags', n) /\ length flags' = length options /\
    forall c, c ∈ options -> flag_at options flags' c = if decide (c ∈ options_of argv) then Some 1 else flag_at options flags c.
Proof.
  unfold args. generalize 0 at 2. generalize 0. revert flags. induction argv as [|a argv IH]; intros flags i last Ho Hl; cbn [args_from].
  - exists flags, last. split; [done|]. split; [done|]. intros c _. rewrite decide_False; [done|apply not_elem_of_nil].
  - change (options_of (a :: argv)) with ((if at_char a 0 =? minus then drop 1 a else []) ++ options_of argv) in *.
    destruct (at_char a 0 =? minus); [|by apply IH].
    apply list.Forall_app in Ho as [Ha Ho]. destruct (option_chars_run (drop 1 a) options i flags last Ha Hl) as (f1 & E1 & L1 & F1). rewrite E1.
    cbn [mbind option_bind].
    destruct (IH f1 (i + 1) (if decide (drop 1 a = []) then last else i) Ho L1) as (f2 & n & E2 & L2 & F2). exists f2, n. split; [done|].
    split; [done|].
    intros c Hc. rewrite (F2 c Hc), (F1 c Hc). repeat case_decide; try done; exfalso; set_solver.
Qed.
