(* ===== verification/Ulock.v ===== *)
(** Locks of user programs ([ulocks.c]): threads that share memory take turns.

    A thread is named by its process number.  Each access to the lock is a step,
    so that threads interleave between any two of them; [cmpswp] is one step.
    Sleeping between attempts and the lock's name are left out. *)

From S2P Require Import Prelude.

Record ulock := ULock { l_val : Z; l_pid : Z }.
(** Where a thread is in [lock] or [unlock]. *)
Inductive upc := Outside | Trying | Swapped | Inside | Leaving.
#[export] Instance upc_eq_dec : EqDecision upc.
Proof. solve_decision. Defined.
Record ustate := UState { lk : ulock; pcs : gmap Z upc }.

(** *** The routines, one access at a time *)

(** The old value, and the new. *)
Definition cmpswp (l : ulock) (new : Z) : Z * ulock := (l_val l, ULock new (l_pid l)).
Definition held (l : ulock) (me : Z) : bool := l_pid l =? me.
(** [lock]: refuse the holder, swap until the old value is 0, note the holder. *)
Definition lock_enter (l : ulock) (me : Z) : option upc := if held l me then None else Some Trying.
Definition lock_swap (l : ulock) : ulock * upc := let '(old, l') := cmpswp l 1 in (l', if old =? 0 then Swapped else Trying).
Definition lock_note (l : ulock) (me : Z) : ulock := ULock (l_val l) me.
(** [unlock]: refuse a free lock, forget the holder, swap in 0. *)
Definition unlock_enter (l : ulock) : option ulock := if l_val l =? 0 then None else Some (ULock (l_val l) 0).
Definition unlock_swap (l : ulock) : ulock := snd (cmpswp l 0).
Definition canlock (l : ulock) : bool := l_val l =? 0.
Definition canunlock (l : ulock) : Z := l_val l.

(** *** Threads that keep to the rules: each unlocks what it has locked *)

Definition goto (me : Z) (pc : upc) (l : ulock) (s : ustate) : ustate := UState l (<[me := pc]> (pcs s)).
Inductive ustep : ustate -> ustate -> Prop :=
| u_lock s me : pcs s !! me = Some Outside -> lock_enter (lk s) me = Some Trying -> ustep s (goto me Trying (lk s) s)
| u_swap s me l pc : pcs s !! me = Some Trying -> lock_swap (lk s) = (l, pc) -> ustep s (goto me pc l s)
| u_note s me : pcs s !! me = Some Swapped -> ustep s (goto me Inside (lock_note (lk s) me) s)
| u_unlock s me l : pcs s !! me = Some Inside -> unlock_enter (lk s) = Some l -> ustep s (goto me Leaving l s)
| u_leave s me : pcs s !! me = Some Leaving -> ustep s (goto me Outside (unlock_swap (lk s)) s).

Definition owns_it (pc : upc) : bool := match pc with Swapped | Inside | Leaving => true | _ => false end.
(** One thread at most has it; the value says whether, and the number who. *)
Record turn (s : ustate) : Prop := {
  tn_one : forall i j pi pj, pcs s !! i = Some pi -> pcs s !! j = Some pj -> owns_it pi = true -> owns_it pj = true -> i = j;
  tn_val : forall i pc, pcs s !! i = Some pc -> owns_it pc = true -> l_val (lk s) = 1;
  tn_pid : forall i pc, pcs s !! i = Some pc -> (l_pid (lk s) = i <-> pc = Inside);
  tn_nonzero : pcs s !! 0 = None;
  tn_none : l_pid (lk s) <> 0 -> exists pc, pcs s !! l_pid (lk s) = Some pc;
  tn_free : l_val (lk s) <> 0 -> exists i pc, pcs s !! i = Some pc /\ owns_it pc = true
}.

Lemma turn_goto me pc pc' l s : turn s -> pcs s !! me = Some pc' ->
  (owns_it pc = true -> forall i p, pcs s !! i = Some p -> owns_it p = true -> i = me) ->
  (forall i p, pcs s !! i = Some p -> i <> me -> owns_it p = true -> l_val l = 1) -> (owns_it pc = true -> l_val l = 1) ->
  (forall i p, pcs s !! i = Some p -> i <> me -> l_pid l = i <-> p = Inside) -> (l_pid l = me <-> pc = Inside) ->
  (l_pid l = 0 \/ l_pid l = me \/ l_pid l = l_pid (lk s)) -> (l_val l <> 0 -> owns_it pc = true \/ exists i p, i <> me /\ pcs s !! i = Some p /\ owns_it p = true) ->
  turn (goto me pc l s).
Proof.
  intros [T1 T2 T3 T4 T5 T6] Hme C1 C2 C2' C3 C3' C5 C6. split; cbn [goto pcs lk].
  - intros i j pi pj. rewrite !lookup_insert.
    repeat case_decide; intros E1 E2 P1 P2; simplify_eq; [done|symmetry; by eapply C1|by eapply C1|by eapply T1].
  - intros i p. rewrite lookup_insert. case_decide; intros E Hp; simplify_eq; [by apply C2'|by eapply C2].
  - intros i p. rewrite lookup_insert. case_decide; intros E; simplify_eq; [done|by apply C3].
  - rewrite lookup_insert_ne; [done|]. intros ->. by rewrite T4 in Hme.
  - intros H0. destruct (decide (l_pid l = me)) as [E|E]; [exists pc; by rewrite E, lookup_insert_eq|]. destruct C5 as [C5|[C5|C5]]; [done|done|].
    rewrite lookup_insert_ne by done. rewrite C5 in *. by apply T5.
  - intros [H|(i & p & Hne & Hi & Hp)]%C6; [exists me, pc; by rewrite lookup_insert_eq|]. exists i, p. by rewrite lookup_insert_ne.
Qed.
Lemma turn_step s s' : turn s -> ustep s s' -> turn s'.
Proof.
  intros T H. pose proof T as [T1 T2 T3 T4 T5 T6].
  assert (forall me pc, pcs s !! me = Some pc -> pc <> Inside -> l_pid (lk s) <> me) as HP by (intros me pc Hme Hne E; by apply (T3 me pc Hme) in E).
  destruct H as [s me Hpc H|s me l pc Hpc H|s me Hpc|s me l Hpc H|s me Hpc].
  - eapply turn_goto; [done|done|done|by eauto|done|by eauto| |by auto|]; [split; [by intros E; destruct (HP _ _ Hpc ltac:(done))|done]|].
    intros (i & p & Hi & Hp)%T6. right. exists i, p. split_and!; [|done|done]. intros ->. by simplify_eq.
  - unfold lock_swap, cmpswp in H. injection H as <- <-. destruct (Z.eqb_spec (l_val (lk s)) 0) as [E|E].
    + assert (forall i p, pcs s !! i = Some p -> owns_it p = false) as HN. { intros i p Hi. destruct (owns_it p) eqn:Ep; [|done].
      rewrite (T2 i p Hi Ep) in E. done. }
      eapply turn_goto; [done|done|intros _ i p Hi Hp; by rewrite (HN i p Hi) in Hp|done|done|by eauto| |by auto|by left].
      split; [by intros E'; destruct (HP _ _ Hpc ltac:(done))|done].
    + eapply turn_goto; [done|done|done|done|done|by eauto| |by auto|]; [split; [by intros E'; destruct (HP _ _ Hpc ltac:(done))|done]|].
      intros _. destruct (T6 E) as (i & p & Hi & Hp). right. exists i, p. split_and!; [|done|done]. intros ->. by simplify_eq.
  - eapply turn_goto; [done|done|intros _ i p Hi Hp; by eapply T1|by eauto|intros _; by eapply T2| |done|by auto|by left].
    intros i p Hi Hne. split; [by intros <-|]. intros ->. exfalso. apply Hne. by eapply T1.
  - unfold unlock_enter in H. destruct (l_val (lk s) =? 0); [done|]. injection H as <-.
    eapply turn_goto; [done|done|intros _ i p Hi Hp; by eapply T1|by eauto|intros _; by eapply T2| | |by auto|by left].
    + intros i p Hi Hne. split; [cbn; intros <-; by rewrite T4 in Hi|]. intros ->. exfalso. apply Hne. by eapply T1.
    + split; [|done]. cbn. intros <-. by rewrite T4 in Hpc.
  - eapply turn_goto; [done|done|done| |done|by eauto| |by auto|done].
    + intros i p Hi Hne Hp. exfalso. apply Hne. by eapply T1.
    + split; [by intros E'; destruct (HP _ _ Hpc ltac:(done))|done].
Qed.

(** In every interleaving of threads that unlock only what they locked, at most
    one is inside, [held] is true for it alone, and nobody else can enter. *)
Theorem user_lock_exclusive s0 s : lk s0 = ULock 0 0 -> pcs s0 !! 0 = None -> (forall i pc, pcs s0 !! i = Some pc -> pc = Outside) -> rtc ustep s0 s ->
  (forall i j, pcs s !! i = Some Inside -> pcs s !! j = Some Inside -> i = j) /\
  (forall i pc, pcs s !! i = Some pc -> held (lk s) i = bool_decide (pc = Inside)) /\
  (forall i, pcs s !! i = Some Inside -> canlock (lk s) = false /\ (lock_swap (lk s)).2 = Trying).
Proof.
  intros H1 H2 H3 Hr. assert (turn s) as [T1 T2 T3 T4 T5 T6].
  { assert (turn s0) as H0.
    { split; rewrite ?H1; cbn [l_val l_pid]; [| | |done|done|done].
      - intros i j pi pj Hi _ Hp. apply H3 in Hi as ->. done.
      - intros i pc Hi Hp. apply H3 in Hi as ->. done.
      - intros i pc Hi. split; [intros <-; by rewrite H2 in Hi|]. intros ->. apply H3 in Hi. done. }
    revert H0. clear H1 H2 H3. induction Hr as [|x y z Hxy _ IH]; [done|]. intros H. apply IH. by eapply turn_step. }
  split_and!.
  - intros i j Hi Hj. by eapply T1.
  - intros i pc Hi. unfold held.
    destruct (Z.eqb_spec (l_pid (lk s)) i) as [E|E]; symmetry; [apply bool_decide_eq_true|apply bool_decide_eq_false]; by rewrite <- (T3 i pc Hi).
  - intros i Hi. pose proof (T2 i Inside Hi eq_refl) as Hv. unfold canlock, lock_swap, cmpswp. by rewrite Hv.
Qed.

(** Nothing keeps a thread from unlocking what another holds. *)
Lemma unlock_by_anyone : unlock_enter (ULock 1 5) = Some (ULock 1 0) /\ canlock (unlock_swap (ULock 1 0)) = true.
Proof. done. Qed.
