(* ===== verification/Usermsg.v ===== *)
(** Messages in user programs ([message.c]): what goes through the kernel's queue,
    and the mailboxes that keep messages until they are asked for.

    [inbox] is the process's queue in the kernel (Proc.v shows that it is first in,
    first out), [outbox] what was sent.  Messages and mailboxes are objects in the
    process's heap; whether an allocation succeeds is the allocator's business, as
    in Kernel.v.  The mailbox lock is Ulock.v's; a routine runs under it. *)

From S2P Require Import Prelude CString.

(** ** State *)

Record umsg := UMsg { u_sentinel : Z; u_len : Z; u_payload : list Z; u_next : option nat }.
Definition set_u_next (v : option nat) (m : umsg) : umsg := UMsg (u_sentinel m) (u_len m) (u_payload m) v.
Record ubox := UBox { messages : Z; ub_head : option nat; ub_cur : option nat }.
Record usr := Usr { inbox : list (list Z); outbox : list (Z * list Z); umsgs : gmap nat umsg; uboxes : gmap nat ubox; answers : list bool }.
Definition set_inbox v s := Usr v (outbox s) (umsgs s) (uboxes s) (answers s).
Definition set_outbox v s := Usr (inbox s) v (umsgs s) (uboxes s) (answers s).
Definition set_umsgs v s := Usr (inbox s) (outbox s) v (uboxes s) (answers s).
Definition set_uboxes v s := Usr (inbox s) (outbox s) (umsgs s) v (answers s).
Definition set_answers v s := Usr (inbox s) (outbox s) (umsgs s) (uboxes s) v.

(** ** Objects *)

Definition msgpanic {A} (str : string) : M usr A := panic str.
(** [mallocz], with [msgpanic("bad malloc")] when it fails. *)
Definition must_alloc : M usr unit :=
  s ← get;
  match answers s with
  | [] => mret tt
  | ok :: l => modify (set_answers l) ;; if (ok : bool) then mret tt else msgpanic "bad malloc"
  end.
Definition new_msg (m : umsg) : M usr nat :=
  s ← get; let p := fresh (dom (umsgs s)) in modify (set_umsgs (<[p := m]> (umsgs s))) ;; mret p.
Definition msg (p : nat) : M usr umsg := s ← get; match umsgs s !! p with Some m => mret m | None => panic "no such message" end.
Definition upd_msg (p : nat) (f : umsg -> umsg) : M usr unit := m ← msg p; modify (fun s => set_umsgs (<[p := f m]> (umsgs s)) s).
Definition box (b : nat) : M usr ubox := s ← get; match uboxes s !! b with Some x => mret x | None => panic "no such mailbox" end.
Definition set_box (b : nat) (x : ubox) : M usr unit := modify (fun s => set_uboxes (<[b := x]> (uboxes s)) s).

(** ** Sending *)

(** [struct mmessage] is its bytes. *)
Definition marshal (sentinel : Z) (payload : list Z) : list Z := le_bytes 4 (u32 sentinel) ++ payload.
Definition marshal_message (m : umsg) : M usr (list Z) :=
  must_alloc ;; must_alloc ;; mret (marshal (u_sentinel m) (u_payload m)).
Definition send2 (pid : Z) (data : list Z) : M usr unit := modify (fun s => set_outbox (outbox s ++ [(pid, data)]) s).
Definition send1 (pid : Z) (m : umsg) : M usr unit := data ← marshal_message m; send2 pid data.
(** [payload] is the memory the caller's pointer and length name. *)
Definition send (pid sentinel : Z) (payload : list Z) : M usr unit :=
  must_alloc ;; send1 pid (UMsg sentinel (Z.of_nat (length payload)) payload None).

(** ** Receiving *)

(** [recvwait] gives the size of the first message and [recvmsg] the message;
    without one the process waits. *)
Definition recv2 : M usr (list Z) :=
  must_alloc ;;
  s ← get;
  match inbox s with
  | [] => blocked
  | data :: q => must_alloc ;; modify (set_inbox q) ;; mret data
  end.
(** The length of the payload is computed without a check: of a message of less
    than four bytes it wraps around, and clearing the buffer faults. *)
Definition unmarshal_message (data : list Z) : M usr nat :=
  must_alloc ;;
  let len := u32 (Z.of_nat (length data) - 4) in
  must_alloc ;;
  if (length data <? 4)%nat then panic "page fault" else
  new_msg (UMsg (s32 (load_le data 0 4)) len (drop 4 data) None).
Definition recv1 : M usr nat := data ← recv2; unmarshal_message data.

(** ** Mailboxes *)

Definition freemsg (p : nat) : M usr Z :=
  m ← msg p;
  match u_next m with
  | Some _ => mret (-1)
  | None => modify (fun s => set_umsgs (delete p (umsgs s)) s) ;; mret 0
  end.
Definition receive (mbox : option nat) : M usr (option nat) :=
  match mbox with
  | Some b =>
    x ← box b;
    match ub_cur x with
    | None =>
      p ← recv1;
      x ← box b;
      upd_msg p (set_u_next (ub_head x)) ;;
      set_box b (UBox (u32 (messages x + 1)) (Some p) (Some p)) ;;
      mret (Some p)
    | Some p =>
      m ← msg p;
      set_box b (UBox (messages x) (ub_head x) (u_next m)) ;;
      mret (Some p)
    end
  | None => p ← recv1; freemsg p ;; mret None
  end.

(** The fuel bounds the number of messages. *)
Fixpoint select_loop (fuel : nat) (b p : nat) (prev cur : option nat) : M usr unit :=
  match fuel, cur with
  | _, None => mret tt
  | O, _ => blocked
  | S fuel', Some c =>
    m ← msg c;
    if (c =? p)%nat then
      x ← box b;
      let x := match prev with None => UBox (messages x) (u_next m) (ub_cur x) | Some _ => x end in
      (match prev with None => mret tt | Some q => upd_msg q (set_u_next (u_next m)) end) ;;
      let x := if bool_decide (Some p = ub_cur x) then UBox (messages x) (ub_head x) (u_next m) else x in
      set_box b (UBox (u32 (messages x - 1)) (ub_head x) (ub_cur x)) ;;
      upd_msg p (set_u_next None)
    else select_loop fuel' b p (Some c) (u_next m)
  end.
Definition selectmsg (mbox : option nat) (p : nat) : M usr unit :=
  match mbox with
  | None => mret tt
  | Some b => s ← get; x ← box b; select_loop (S (size (umsgs s))) b p None (ub_head x)
  end.

Fixpoint flush_loop (fuel : nat) (b : nat) (cur : nat) : M usr unit :=
  match fuel with
  | O => blocked
  | S fuel' =>
    m ← msg cur;
    x ← box b;
    modify (fun s => set_umsgs (delete cur (umsgs s)) s) ;;
    set_box b (UBox (u32 (messages x - 1)) (ub_head x) (ub_cur x)) ;;
    match u_next m with None => mret tt | Some n => flush_loop fuel' b n end
  end.
Definition flush (b : nat) : M usr unit :=
  s ← get;
  x ← box b;
  match ub_head x with None => mret tt | Some c => flush_loop (S (size (umsgs s))) b c end.
Definition mailbox : M usr nat :=
  must_alloc ;;
  s ← get; let b := fresh (dom (uboxes s)) in modify (set_uboxes (<[b := UBox 0 None None]> (uboxes s))) ;; mret b.

(** ** What a mailbox shows *)

(** The messages [l] are linked in this order. *)
Definition links (h : gmap nat umsg) (l : list nat) : Prop := forall i x, l !! i = Some x -> exists m, h !! x = Some m /\ u_next m = l !! S i.
(** Mailbox [b] keeps [l]; the last of them, [t], were not looked at since the
    last message came. *)
Record shows (s : usr) (b : nat) (l t : list nat) : Prop := {
  sh_box : uboxes s !! b = Some (UBox (u32 (Z.of_nat (length l))) (head l) (head t));
  sh_links : links (umsgs s) l;
  sh_nodup : NoDup l;
  sh_suffix : t `suffix_of` l
}.
(** A message without its link. *)
Definition content (m : umsg) : Z * Z * list Z := (u_sentinel m, u_len m, u_payload m).
Definition kept (l : list nat) (h h' : gmap nat umsg) : Prop := forall x, x ∈ l -> content <$> h' !! x = content <$> h !! x.

Lemma links_tail h x l : links h (x :: l) -> links h l.
Proof. intros H i y Hi. exact (H (S i) y Hi). Qed.
Lemma links_app h pre l : links h (pre ++ l) -> links h l.
Proof. induction pre as [|x pre IH]; [done|]. intros H%links_tail. by apply IH. Qed.
Lemma links_head h x l : links h (x :: l) -> exists m, h !! x = Some m /\ u_next m = head l.
Proof. intros H. destruct (H 0%nat x eq_refl) as (m & E & Hn). exists m. split; [done|]. rewrite Hn. by destruct l. Qed.
Lemma links_frame h h' l : links h l -> (forall x, x ∈ l -> h' !! x = h !! x) -> links h' l.
Proof. intros H E i x Hi. rewrite E by (by eapply list_elem_of_lookup_2). by apply H. Qed.
Lemma links_cons h x m l : links h l -> h !! x = Some m -> u_next m = head l -> links h (x :: l).
Proof. intros H Hx Hn [|i] y Hi; [injection Hi as <-; exists m; split; [done|]; rewrite Hn; by destruct l|]. exact (H i y Hi). Qed.
Lemma links_size h l : links h l -> NoDup l -> (length l <= size h)%nat.
Proof.
  intros H Hn. rewrite <- size_dom. rewrite <- (size_list_to_set (C := gset nat) l) by done. apply subseteq_size. intros x Hx%elem_of_list_to_set.
  apply list_elem_of_lookup in Hx as [i Hi].
  apply elem_of_dom. destruct (H i x Hi) as (m & -> & _). by eexists.
Qed.

Lemma run_msg p m s : umsgs s !! p = Some m -> msg p s = Ok m s.
Proof. intros H. unfold msg. cbv [mbind M_bind get]. by rewrite H. Qed.
Lemma run_box b x s : uboxes s !! b = Some x -> box b s = Ok x s.
Proof. intros H. unfold box. cbv [mbind M_bind get]. by rewrite H. Qed.
Lemma run_upd p m f s : umsgs s !! p = Some m -> upd_msg p f s = Ok tt (set_umsgs (<[p := f m]> (umsgs s)) s).
Proof. intros H. unfold upd_msg. rewrite (bind_ok _ _ _ _ _ (run_msg p m s H)). done. Qed.
Lemma run_alloc s : answers s = [] -> must_alloc s = Ok tt s.
Proof. intros H. unfold must_alloc. cbv [mbind M_bind get]. by rewrite H. Qed.

(** ** Sending and receiving *)

Lemma unmarshal_marshal sentinel payload : - 2 ^ 31 <= sentinel < 2 ^ 31 -> s32 (load_le (marshal sentinel payload) 0 4) = sentinel /\ drop 4 (marshal sentinel payload) = payload.
Proof.
  intros H. split; [|done]. unfold marshal.
  assert (load_le (le_bytes 4 (u32 sentinel) ++ payload) 0 4 = le_num (le_bytes 4 (u32 sentinel))) as -> by done. rewrite le_num_bytes.
  rewrite Z.mod_small by apply u32_range. unfold s32, signed, u32. dlia.
Qed.
Lemma send_run pid sentinel payload s : answers s = [] -> send pid sentinel payload s = Ok tt (set_outbox (outbox s ++ [(pid, marshal sentinel payload)]) s).
Proof.
  intros H. unfold send, send1, marshal_message. rewrite (bind_ok _ _ _ _ _ (run_alloc s H)).
  erewrite bind_ok; [|rewrite (bind_ok _ _ _ _ _ (run_alloc s H)), (bind_ok _ _ _ _ _ (run_alloc s H)); reflexivity]. done.
Qed.
Lemma recv1_run s sentinel payload q : answers s = [] -> inbox s = marshal sentinel payload :: q -> - 2 ^ 31 <= sentinel < 2 ^ 31 -> Z.of_nat (length payload) < 2 ^ 31 ->
  let p := fresh (dom (umsgs s)) in
  recv1 s = Ok p (set_umsgs (<[p := UMsg sentinel (Z.of_nat (length payload)) payload None]> (umsgs s)) (set_inbox q s)).
Proof.
  intros Ha Hi Hs Hl p. destruct (unmarshal_marshal sentinel payload Hs) as [E1 E2]. unfold recv1, recv2. erewrite bind_ok.
  2:{ rewrite (bind_ok _ _ _ _ _ (run_alloc s Ha)). rewrite (bind_ok _ _ _ s s) by done. rewrite Hi. rewrite (bind_ok _ _ _ _ _ (run_alloc s Ha)).
  reflexivity. }
  unfold unmarshal_message. assert (answers (set_inbox q s) = []) as Ha' by done. rewrite (bind_ok _ _ _ _ _ (run_alloc _ Ha')). cbv zeta.
  rewrite (bind_ok _ _ _ _ _ (run_alloc _ Ha')).
  assert (length (marshal sentinel payload) = (4 + length payload)%nat) as El by done. rewrite El. rewrite (proj2 (Nat.ltb_ge _ 4)) by lia.
  rewrite E1, E2.
  replace (u32 (Z.of_nat (4 + length payload) - 4)) with (Z.of_nat (length payload)) by (rewrite u32_small; lia). done.
Qed.

(** ** Mailboxes *)

Lemma receive_old s b l p t : shows s b l (p :: t) -> exists s', receive (Some b) s = Ok (Some p) s' /\ shows s' b l t /\ umsgs s' = umsgs s /\ inbox s' = inbox s.
Proof.
  intros [H1 H2 H3 [pre H4]]. unfold receive. rewrite (bind_ok _ _ _ _ _ (run_box b _ s H1)). cbn [ub_cur head].
  pose proof H2 as H2'. rewrite H4 in H2'. destruct (links_head _ _ _ (links_app _ _ _ H2')) as (m & Em & En).
  rewrite (bind_ok _ _ _ _ _ (run_msg p m s Em)).
  eexists. split; [reflexivity|]. split; [|done]. split; [cbn; rewrite lookup_insert_eq, En; done|done|done|]. exists (pre ++ [p]).
  by rewrite <- app_assoc.
Qed.
Lemma receive_new s b l sentinel payload q : shows s b l [] -> answers s = [] -> inbox s = marshal sentinel payload :: q -> - 2 ^ 31 <= sentinel < 2 ^ 31 -> Z.of_nat (length payload) < 2 ^ 31 ->
  exists s' p, receive (Some b) s = Ok (Some p) s' /\ (p ∉ l) /\ shows s' b (p :: l) (p :: l) /\ kept l (umsgs s) (umsgs s') /\
    content <$> umsgs s' !! p = Some (sentinel, Z.of_nat (length payload), payload) /\ inbox s' = q.
Proof.
  intros [H1 H2 H3 H4] Ha Hi Hs Hl. unfold receive. rewrite (bind_ok _ _ _ _ _ (run_box b _ s H1)). cbn [ub_cur head].
  set (p := fresh (dom (umsgs s))).
  rewrite (bind_ok _ _ _ _ _ (recv1_run s sentinel payload q Ha Hi Hs Hl)). fold p. set (s1 := set_umsgs _ _).
  assert (uboxes s1 !! b = Some (UBox (u32 (Z.of_nat (length l))) (head l) None)) as Hb by exact H1.
  rewrite (bind_ok _ _ _ _ _ (run_box b _ s1 Hb)).
  assert (umsgs s1 !! p = Some (UMsg sentinel (Z.of_nat (length payload)) payload None)) as Hp by apply lookup_insert_eq.
  rewrite (bind_ok _ _ _ _ _ (run_upd p _ _ s1 Hp)). assert (umsgs s !! p = None) as Hf by (apply not_elem_of_dom, is_fresh).
  assert (forall x, x ∈ l -> x <> p) as Hne. { intros x [i Hx]%list_elem_of_lookup ->. destruct (H2 i p Hx) as (m & Em & _). by rewrite Hf in Em. }
  eexists _, p. split; [reflexivity|]. cbn [set_umsgs set_uboxes umsgs uboxes inbox messages ub_head]. split; [intros Hin; by apply (Hne p Hin)|].
  split; [split|].
  - cbn. rewrite lookup_insert_eq. do 2 f_equal. cbn [length]. unfold u32. rewrite Nat2Z.inj_succ. by rewrite Zplus_mod_idemp_l.
  - cbn. eapply links_cons; [|apply lookup_insert_eq|done]. eapply links_frame; [exact H2|]. intros x Hx.
    by rewrite !lookup_insert_ne by (intros E; by apply (Hne x Hx)).
  - constructor; [|done]. intros Hin. by apply (Hne p Hin).
  - done.
  - split; [|split; [cbn; by rewrite lookup_insert_eq|done]]. intros x Hx. cbn. by rewrite !lookup_insert_ne by (intros E; by apply (Hne x Hx)).
Qed.

(** Taking a message out. *)
Lemma nodup_filter (p : nat) (l : list nat) : p ∉ l -> filter (fun x => x <> p) l = l.
Proof. induction l as [|x l IH]; [done|]. rewrite not_elem_of_cons. intros [H1 H2]. rewrite filter_cons_True by done. f_equal. by apply IH. Qed.
Lemma filter_middle (p : nat) (pre post : list nat) : NoDup (pre ++ p :: post) -> filter (fun x => x <> p) (pre ++ p :: post) = pre ++ post.
Proof.
  intros (_ & H2 & [H3 _]%list.NoDup_cons)%list.NoDup_app. rewrite list.filter_app, filter_cons_False by (intros H; by apply H).
  rewrite !nodup_filter; [done|done|]. intros H. apply (H2 p H). by left.
Qed.
Lemma filter_suffix (p : nat) (t pre post : list nat) : NoDup (pre ++ p :: post) -> t `suffix_of` pre ++ p :: post ->
  filter (fun x => x <> p) t `suffix_of` pre ++ post /\ head (filter (fun x => x <> p) t) = if decide (Some p = head t) then head post else head t.
Proof.
  intros Hn [k Hk]. split.
  - exists (filter (fun x => x <> p) k). rewrite <- list.filter_app, <- Hk. symmetry. by apply filter_middle.
  - destruct t as [|x t]; [done|]. cbn [head]. case_decide as E.
    + injection E as <-. rewrite filter_cons_False by (intros H; by apply H).
      assert (length k = length pre) as El. { eapply (NoDup_lookup (pre ++ p :: post)); [done|rewrite Hk|]; by apply list_lookup_middle. }
      pose proof (app_inj_1 _ _ _ _ El (eq_sym Hk)) as [_ Ht]. injection Ht as ->. apply list.NoDup_app in Hn as (_ & _ & [Hp _]%list.NoDup_cons).
      by rewrite nodup_filter.
    + rewrite filter_cons_True by (intros ->; by apply E). done.
Qed.

(** The link before it goes past it, and its own is cut. *)
Definition unlinked (h : gmap nat umsg) (q : option nat) (p : nat) (nx : option nat) : gmap nat umsg := alter (set_u_next None) p (match q with None => h | Some q => alter (set_u_next nx) q h end).
Lemma unlinked_lookup h pre p post x : NoDup (pre ++ p :: post) -> unlinked h (list.last pre) p (head post) !! x =
  if decide (x = p) then set_u_next None <$> h !! x else if decide (Some x = list.last pre) then set_u_next (head post) <$> h !! x else h !! x.
Proof.
  intros (_ & Hd & _)%list.NoDup_app. unfold unlinked. destruct (decide (x = p)) as [->|E1].
  - rewrite lookup_alter_eq. destruct (list.last pre) as [q|] eqn:El; [|done]. rewrite lookup_alter_ne; [done|]. intros ->.
    apply last_Some_elem_of in El. apply (Hd p El). by left.
  - rewrite lookup_alter_ne by done. destruct (list.last pre) as [q|]; [|by rewrite decide_False].
    destruct (decide (Some x = Some q)) as [[= ->]|E2]; [by rewrite lookup_alter_eq|].
    rewrite lookup_alter_ne; [done|]. intros ->. by apply E2.
Qed.
Lemma links_unlinked h pre p post : links h (pre ++ p :: post) -> NoDup (pre ++ p :: post) -> links (unlinked h (list.last pre) p (head post)) (pre ++ post).
Proof.
  intros H Hn i x Hi. assert (x <> p) as Hxp. { intros ->. rewrite <- (filter_middle p pre post Hn) in Hi.
  apply list_elem_of_lookup_2, list_elem_of_filter in Hi as [Hi _]. done. }
  rewrite (unlinked_lookup h pre p post x Hn), decide_False by done. destruct (decide (i < length pre)%nat) as [Hlt|Hge].
  - rewrite lookup_app_l in Hi by done. destruct (H i x) as (m & Em & En); [by rewrite lookup_app_l|]. rewrite last_lookup. case_decide as El.
    + assert (i = Nat.pred (length pre)) as ->. { pose proof Hn as (Hnp & _ & _)%list.NoDup_app. by eapply (NoDup_lookup pre). }
      rewrite Em. eexists. split; [reflexivity|]. cbn [u_next set_u_next]. replace (S (Nat.pred (length pre))) with (length pre) by lia.
      rewrite lookup_app_r, Nat.sub_diag by lia. by destruct post.
    + exists m. split; [done|]. rewrite En. assert (S i <> length pre)%nat as Hne. { intros E. apply El. rewrite <- E. cbn [Nat.pred]. by rewrite Hi.
      }
      by rewrite !lookup_app_l by lia.
  - rewrite lookup_app_r in Hi by lia. destruct (H (S i) x) as (m & Em & En). { rewrite lookup_app_r by lia.
    by replace (S i - length pre)%nat with (S (i - length pre)) by lia. }
    rewrite decide_False.
    + exists m. split; [done|]. rewrite En, !lookup_app_r by lia. by replace (S (S i) - length pre)%nat with (S (S i - length pre)) by lia.
    + intros El. pose proof Hn as (_ & Hd & _)%list.NoDup_app. symmetry in El. apply last_Some_elem_of in El. apply (Hd x El). right.
      by eapply list_elem_of_lookup_2.
Qed.
Lemma kept_unlinked h q p nx l : kept l h (unlinked h q p nx).
Proof.
  intros x _. unfold unlinked. assert (forall (g : gmap nat umsg) y v, content <$> alter (set_u_next v) y g !! x = content <$> g !! x) as E.
  { intros g y v. rewrite lookup_alter. case_decide; [subst; by destruct (g !! x)|done]. }
  rewrite E. destruct q; [by rewrite E|done].
Qed.
Lemma insert_alter (h : gmap nat umsg) p m f : h !! p = Some m -> <[p := f m]> h = alter f p h.
Proof.
  intros H. apply map_eq. intros i.
  destruct (decide (i = p)) as [->|]; [by rewrite lookup_insert_eq, lookup_alter_eq, H|by rewrite lookup_insert_ne, lookup_alter_ne].
Qed.
(** The three assignments of [selectmsg]. *)
Lemma unlink_run b p m s pre post t n : uboxes s !! b = Some (UBox n (head (pre ++ p :: post)) (head t)) -> links (umsgs s) (pre ++ p :: post) -> NoDup (pre ++ p :: post) ->
  umsgs s !! p = Some m -> u_next m = head post -> t `suffix_of` pre ++ p :: post -> forall fuel,
  select_loop (S fuel) b p (list.last pre) (Some p) s =
    Ok tt (set_umsgs (unlinked (umsgs s) (list.last pre) p (head post)) (set_uboxes (<[b := UBox (u32 (n - 1)) (head (pre ++ post)) (head (filter (fun x => x <> p) t))]> (uboxes s)) s)).
Proof.
  intros H1 H2 H3 Em En H4 fuel. cbn [select_loop].
  rewrite (bind_ok _ _ _ _ _ (run_msg p m s Em)), Nat.eqb_refl, (bind_ok _ _ _ _ _ (run_box b _ s H1)), En.
  rewrite (proj2 (filter_suffix p t pre post H3 H4)).
  assert (forall A (x y : A), (if bool_decide (Some p = head t) then x else y) = if decide (Some p = head t) then x else y) as EB by (intros A x y; destruct (decide (Some p = head t)); [by rewrite bool_decide_true|by rewrite bool_decide_false]).
  destruct (list.last pre) as [q|] eqn:El.
  - assert (exists mq, umsgs s !! q = Some mq) as [mq Eq]. { apply last_Some in El as [k ->].
    destruct (H2 (length k) q) as (mq & Eq & _); [|by exists mq]. rewrite <- app_assoc. by apply list_lookup_middle. }
    assert (q <> p) as Hqp. { intros ->. apply last_Some_elem_of in El. apply list.NoDup_app in H3 as (_ & Hd & _). apply (Hd p El). by left. }
    assert (head (pre ++ p :: post) = head (pre ++ post)) as -> by (destruct pre; done).
    rewrite (bind_ok _ _ _ _ _ (run_upd q mq _ s Eq)). rewrite (insert_alter _ _ _ _ Eq). cbn [ub_cur messages ub_head].
    erewrite bind_ok by reflexivity.
    rewrite (run_upd p m) by (cbn; by rewrite lookup_alter_ne). cbn [umsgs set_uboxes set_umsgs uboxes inbox outbox answers].
    rewrite (insert_alter _ p m) by (by rewrite lookup_alter_ne). unfold unlinked. unfold set_umsgs, set_uboxes. cbn.
    rewrite EB. by case_decide.
  - apply last_None in El. subst pre. rewrite (bind_ok _ _ _ tt s) by done. cbn [ub_cur messages ub_head app]. erewrite bind_ok by reflexivity.
    rewrite (run_upd p m) by done. cbn [umsgs set_uboxes set_umsgs uboxes inbox outbox answers]. rewrite (insert_alter _ p m) by done.
    unfold unlinked. unfold set_umsgs, set_uboxes. cbn. rewrite EB. by case_decide.
Qed.
(** The loop finds the message behind the part it went through. *)
Lemma select_loop_run b p l t : forall post0 fuel s pre, shows s b l t -> l = pre ++ post0 -> p ∈ post0 -> (length post0 <= fuel)%nat ->
  exists s', select_loop fuel b p (list.last pre) (head post0) s = Ok tt s' /\ shows s' b (filter (fun x => x <> p) l) (filter (fun x => x <> p) t) /\ kept l (umsgs s) (umsgs s') /\
    u_next <$> umsgs s' !! p = Some None /\ (inbox s' = inbox s /\ answers s' = answers s).
Proof.
  induction post0 as [|c post IH]; intros fuel s pre Hsh El Hin Hf; [by apply not_elem_of_nil in Hin|]. destruct fuel as [|fuel]; [cbn in Hf; lia|].
  cbn [head].
  pose proof Hsh as [H1 H2 H3 H4]. subst l. destruct (links_head _ _ _ (links_app _ _ _ H2)) as (m & Em & En).
  destruct (decide (c = p)) as [->|Hne].
  - eexists. split; [exact (unlink_run b p m s pre post t _ H1 H2 H3 Em En H4 fuel)|]. split; [|split; [apply kept_unlinked|split; [|done]]].
    + rewrite (filter_middle p pre post H3). split; cbn [set_umsgs set_uboxes umsgs uboxes].
      * rewrite lookup_insert_eq. do 2 f_equal. rewrite !length_app. cbn [length]. unfold u32. dlia.
      * by apply links_unlinked.
      * rewrite <- (filter_middle p pre post H3). by apply list.NoDup_filter.
      * by apply filter_suffix.
    + cbn [set_umsgs umsgs]. rewrite (unlinked_lookup _ _ _ _ p H3), decide_True by done. by rewrite Em.
  - cbn [select_loop]. rewrite (bind_ok _ _ _ _ _ (run_msg c m s Em)), (proj2 (Nat.eqb_neq c p) Hne), En.
    apply elem_of_cons in Hin as [Hin|Hin]; [done|]. cbn [length] in Hf. replace (Some c) with (list.last (pre ++ [c])) by apply last_snoc.
    apply IH; [done|by rewrite <- app_assoc|done|lia].
Qed.
Lemma select_run s b p l t : shows s b l t -> p ∈ l ->
  exists s', selectmsg (Some b) p s = Ok tt s' /\ shows s' b (filter (fun x => x <> p) l) (filter (fun x => x <> p) t) /\ kept l (umsgs s) (umsgs s') /\
    u_next <$> umsgs s' !! p = Some None /\ (inbox s' = inbox s /\ answers s' = answers s).
Proof.
  intros Hs Hp. pose proof Hs as [H1 H2 H3 H4]. unfold selectmsg. rewrite (bind_ok _ _ _ s s) by done. rewrite (bind_ok _ _ _ _ _ (run_box b _ s H1)).
  cbn [ub_head].
  apply (select_loop_run b p l t l _ s []); [done|done|done|]. pose proof (links_size _ _ H2 H3). lia.
Qed.

(** C38: mailboxes of user programs, while memory can be had.  A message that is
    sent goes out as its
    sentinel and its bytes.  [receive] gives the messages of the scan one by
    one, in their order; when the scan is at its end it takes the next message off
    the process's queue, if that is one that [send] made, returns it with the
    sentinel and the bytes that were sent, puts it in front, and the scan starts
    over with all messages, the one just returned first; with an empty queue it
    waits.  [selectmsg] takes exactly one message out, wherever it is;
    what is left keeps its order, its contents and its place in the scan, and the
    message that was taken out can be freed. *)
Theorem mailbox_refines s b l t : shows s b l t -> answers s = [] ->
  (forall pid sentinel payload, send pid sentinel payload s = Ok tt (set_outbox (outbox s ++ [(pid, marshal sentinel payload)]) s)) /\
  match t, inbox s with
  | p :: t', _ => exists s', receive (Some b) s = Ok (Some p) s' /\ shows s' b l t' /\ umsgs s' = umsgs s /\ inbox s' = inbox s
  | [], [] => receive (Some b) s = Blocked s
  | [], data :: q => forall sentinel payload, data = marshal sentinel payload -> - 2 ^ 31 <= sentinel < 2 ^ 31 -> Z.of_nat (length payload) < 2 ^ 31 ->
      exists s' p, receive (Some b) s = Ok (Some p) s' /\ (p ∉ l) /\ shows s' b (p :: l) (p :: l) /\ kept l (umsgs s) (umsgs s') /\
        content <$> umsgs s' !! p = Some (sentinel, Z.of_nat (length payload), payload) /\ inbox s' = q
  end /\
  forall p, p ∈ l -> exists s', selectmsg (Some b) p s = Ok tt s' /\ shows s' b (filter (fun x => x <> p) l) (filter (fun x => x <> p) t) /\
    kept l (umsgs s) (umsgs s') /\ exists s'', freemsg p s' = Ok 0 s'' /\ shows s'' b (filter (fun x => x <> p) l) (filter (fun x => x <> p) t).
Proof.
  intros Hs Ha. split; [intros; by apply send_run|]. split.
  - destruct t as [|p t']; [|by apply receive_old]. destruct (inbox s) as [|data q] eqn:Ei.
    + unfold receive, recv1, recv2. rewrite (bind_ok _ _ _ _ _ (run_box b _ s (sh_box _ _ _ _ Hs))). cbn [ub_cur head]. cbv [mbind M_bind get].
      rewrite (run_alloc s Ha), Ei. done.
    + intros sentinel payload -> H1 H2. by apply receive_new.
  - intros p Hp. destruct (select_run s b p l t Hs Hp) as (s' & E & Hsh & Hk & Hn & _). exists s'. split; [done|]. split; [done|]. split; [done|].
    destruct (umsgs s' !! p) as [m|] eqn:Em; [|done]. injection Hn as Hn. unfold freemsg. rewrite (bind_ok _ _ _ _ _ (run_msg p m s' Em)), Hn.
    eexists. split; [reflexivity|].
    destruct Hsh as [B1 B2 B3 B4]. split; cbn [umsgs uboxes set_umsgs]; [done| |done|done]. eapply links_frame; [exact B2|].
    intros x [Hx _]%list_elem_of_filter. cbn. by rewrite lookup_delete_ne.
Qed.

(** Two messages; the second is looked at first, and is taken out. *)
Definition sample_usr : usr := Usr [marshal 7 [1; 2]; marshal (-3) []] [] ∅ {[ 0%nat := UBox 0 None None ]} [].
Lemma sample_shows : shows sample_usr 0 [] [].
Proof. split; [done|intros i x H; by rewrite lookup_nil in H|constructor|done]. Qed.
Lemma mailbox_refines_witness : exists s p s' , receive (Some 0%nat) sample_usr = Ok (Some p) s /\ content <$> umsgs s !! p = Some (7, 2, [1; 2]) /\
  selectmsg (Some 0%nat) p s = Ok tt s' /\ shows s' 0 [] [].
Proof.
  destruct (mailbox_refines sample_usr 0 [] [] sample_shows eq_refl) as (_ & H & _).
  destruct (H 7 [1; 2] eq_refl ltac:(lia) ltac:(cbn; lia)) as (s & p & E & _ & Hs & _ & Hc & _).
  assert (answers s = []) as Ha. { assert (forall q r, receive (Some 0%nat) sample_usr = Ok q r -> answers r = []) as HA; [|by eapply HA].
  intros q r Er. vm_compute in Er. injection Er as <- <-. done. }
  destruct (mailbox_refines s 0 [p] [p] Hs Ha) as (_ & _ & HS). destruct (HS p ltac:(left)) as (s' & E' & Hs' & _). exists s, p, s'.
  split; [exact E|]. split; [exact Hc|]. split; [exact E'|].
  assert (filter (fun x => x <> p) [p] = []) as Ef by (rewrite filter_cons_False by (intros Hx; by apply Hx); done). rewrite Ef in Hs'. exact Hs'.
Defined.

(** [flush] frees the messages and leaves the mailbox pointing to them. *)
Lemma flush_dangles : exists p s' s'', receive (Some 0%nat) sample_usr = Ok (Some p) s' /\ flush 0 s' = Ok tt s'' /\ uboxes s'' !! 0%nat = Some (UBox 0 (Some p) (Some p)) /\ umsgs s'' !! p = None.
Proof. eexists _, _, _. split; [vm_compute; reflexivity|]. split; [vm_compute; reflexivity|]. split; vm_compute; reflexivity. Qed.
(** The oldest message has no successor: it can be freed where it is. *)
Lemma freemsg_in_use : exists p s' s'', receive (Some 0%nat) sample_usr = Ok (Some p) s' /\ freemsg p s' = Ok 0 s'' /\ ub_head <$> uboxes s'' !! 0%nat = Some (Some p).
Proof. eexists _, _, _. split; [vm_compute; reflexivity|]. split; vm_compute; reflexivity. Qed.
(** A message that was not made by [send] and is short breaks the receiver. *)
Lemma short_message_faults s b l q : shows s b l [] -> answers s = [] -> inbox s = [1; 2] :: q -> exists s', receive (Some b) s = Panic "page fault" s'.
Proof.
  intros Hs Ha Hi. unfold receive, recv1, recv2. rewrite (bind_ok _ _ _ _ _ (run_box b _ s (sh_box _ _ _ _ Hs))). cbn [ub_cur head].
  cbv [mbind M_bind get modify mret M_ret]. rewrite !(run_alloc s Ha), Hi, (run_alloc s Ha).
  unfold unmarshal_message. assert (answers (set_inbox q s) = []) as Ha' by done. cbv [mbind M_bind]. rewrite !(run_alloc _ Ha'). by eexists.
Qed.
