(* ===== verification/Devd.v ===== *)
(** The device daemon ([devd.c]): it reads /etc/devices and makes the nodes under
    /dev.

    The file is its bytes; whether [mknod] succeeds on a path, and whether a path
    can be opened, are arguments.  Reading behind the end of a string, or writing
    behind a buffer or a table, is a panic.  Messages, options and the daemon's
    loop (a scan, a message to the parent the first time, a pause) are left out. *)

From S2P Require Import Prelude CString.

Record devicedef := Def { fname : option (list Z); d_major : Z; d_minor : Z }.
Definition nodef : devicedef := Def None 0 0.
Definition MAXDEFS : nat := 256.
(** [defs] has the [ddi] devices that are known; [made] are the calls of [mknod]. *)
Record devd := Devd { newdefs : list devicedef; nddi : nat; defs : list devicedef; made : list (list Z * Z * Z) }.
Definition devd_start : devd := Devd (replicate MAXDEFS nodef) 0 [] [].

(** ** Lines *)

(** [fgets(fd, buf, max)]: a line, or as much as fits. *)
Fixpoint fgets (max : nat) (file : list Z) : list Z * list Z :=
  match max, file with
  | O, _ | _, [] => ([], file)
  | S n, c :: file' => if (c =? 10) || (c =? 13) then ([c], file') else let '(l, r) := fgets n file' in (c :: l, r)
  end.
(** [None]: nothing was read, or a NUL first. *)
Definition readline (file : list Z) : option (list Z * list Z) :=
  let '(l, r) := fgets 126 file in if (default 0 (l !! 0%nat) =? 0) then None else Some (until0 l, r).

(** ** Entries *)

Definition is_end (c : Z) : bool := (c =? 32) || (c =? 10).
Fixpoint token (s : list Z) : option (list Z * list Z) :=
  match s with
  | [] => None
  | c :: s' => if is_end c then Some ([], s') else '(t, r) ← token s'; Some (c :: t, r)
  end.
Definition need (b : bool) (what : string) : M devd unit := assert_or b what.
Definition parseent (och : list Z) : M devd unit :=
  if (length och <? 2)%nat then mret tt else
  if default 0 (och !! 0%nat) =? 35 then mret tt else
  match token och with
  | None => panic "behind the string"
  | Some (bf1, s2) =>
    need (length bf1 <? 42)%nat "bf1" ;;
    match token s2 with
    | None => panic "behind the string"
    | Some (bf2, bf3) =>
      need (length bf2 <? 42)%nat "bf2" ;; need (length bf3 <? 42)%nat "bf3" ;;
      d ← get;
      need (nddi d <? MAXDEFS)%nat "newdefs" ;;
      match User.atoi (bf2 ++ [0]) 0, User.atoi (bf3 ++ [0]) 0 with
      | Some ma, Some mi => modify (fun d => Devd (<[nddi d := Def (Some bf1) ma mi]> (newdefs d)) (S (nddi d)) (defs d) (made d))
      | _, _ => panic "atoi"
      end
    end
  end.

(** ** Scanning the file *)

Definition dev_prefix : list Z := [47; 100; 101; 118; 47].
(** Every line takes a byte of the file at least. *)
Fixpoint read_lines (fuel : nat) (file : list Z) : M devd unit :=
  match fuel with
  | O => blocked
  | S fuel' =>
    match readline file with
    | None => mret tt
    | Some (bf, rest) =>
      let c0 := default 0 (bf !! 0%nat) in
      if c0 =? 35 then read_lines fuel' rest else
      if c0 =? 10 then read_lines fuel' rest else
      if (c0 =? 101) && (default 0 (bf !! 1%nat) =? 110) && (default 0 (bf !! 2%nat) =? 100) then mret tt else
      parseent bf ;; read_lines fuel' rest
    end
  end.
(** 1 for a new device, 0 for one that is known, -1 for an empty entry. *)
Definition newdev (a : devicedef) (known : list devicedef) : Z :=
  match fname a with
  | None => -1
  | Some n => if bool_decide (Some n ∈ fname <$> known) then 0 else 1
  end.

Section scan.
Context (mknod can_open : list Z -> bool).

(** The second loop; [false] when it returns -1. *)
Fixpoint add_devices (l : list devicedef) : M devd bool :=
  match l with
  | [] => mret true
  | a :: l' =>
    d ← get;
    if newdev a (defs d) =? 1 then
      if (length (defs d) <? MAXDEFS)%nat then
        let path := dev_prefix ++ default [] (fname a) in
        need (length path <? 256)%nat "fnbuf" ;;
        modify (fun d => Devd (newdefs d) (nddi d) (defs d) (made d ++ [(path, s16 (d_major a), s16 (d_minor a))])) ;;
        if negb (mknod path) && negb (can_open path) then mret false
        else modify (fun d => Devd (newdefs d) (nddi d) (defs d ++ [a]) (made d)) ;; add_devices l'
      else mret false
    else if newdev a (defs d) =? -1 then mret true
    else add_devices l'
  end.
Definition readfile (file : list Z) : M devd Z :=
  read_lines (S (length file)) file ;;
  d ← get;
  need (nddi d <=? MAXDEFS)%nat "newdefs" ;;
  ok ← add_devices (take (nddi d) (newdefs d));
  if (ok : bool) then modify (fun d => Devd (replicate MAXDEFS nodef) (nddi d) (defs d) (made d)) ;; mret 0 else mret (-1).
End scan.

(** ** Properties *)

(** An entry of the file: a name and the digits of two numbers. *)
Record entry := Entry { e_name : list Z; e_major : list Z; e_minor : list Z }.
Definition line_of (e : entry) : list Z := e_name e ++ [32] ++ e_major e ++ [32] ++ e_minor e ++ [10].
Definition def_of (e : entry) : devicedef := Def (Some (e_name e)) (dec_value 0 (e_major e)) (dec_value 0 (e_minor e)).
Definition number (ds : list Z) : Prop := Forall is_digit ds /\ (length ds < 41)%nat /\ dec_value 0 ds < 2 ^ 15.
Record proper (e : entry) : Prop := {
  pr_name : Forall (fun c => c <> 0 /\ c <> 10 /\ c <> 13 /\ c <> 32) (e_name e);
  pr_len : (0 < length (e_name e) < 42)%nat;
  pr_first : e_name e !! 0%nat <> Some 35 /\ take 3 (e_name e) <> [101; 110; 100];
  pr_major : number (e_major e);
  pr_minor : number (e_minor e)
}.

Lemma fgets_line max l rest : Forall (fun c => c <> 10 /\ c <> 13) l -> (length l < max)%nat -> fgets max (l ++ 10 :: rest) = (l ++ [10], rest).
Proof.
  revert max. induction l as [|c l IH]; intros [|n] Hl Hm; cbn [length] in Hm; try lia; cbn [app fgets]; [done|].
  apply list.Forall_cons in Hl as [[H1 H2] Hl].
  rewrite (proj2 (Z.eqb_neq c 10) H1), (proj2 (Z.eqb_neq c 13) H2). cbn [orb]. by rewrite (IH n Hl ltac:(lia)).
Qed.
Lemma token_word w c s : Forall (fun c => c <> 10 /\ c <> 32) w -> is_end c = true -> token (w ++ c :: s) = Some (w, s).
Proof.
  intros Hw Hc. induction Hw as [|x w [H1 H2] _ IH]; cbn [app token]; [by rewrite Hc|]. unfold is_end.
  rewrite (proj2 (Z.eqb_neq x 32) H2), (proj2 (Z.eqb_neq x 10) H1). cbn [orb]. by rewrite IH.
Qed.
Lemma until0_nonzero_eq l : Forall (fun c => c <> 0) l -> until0 l = l.
Proof. induction 1 as [|c l Hc _ IH]; [done|]. cbn [until0]. by rewrite (proj2 (Z.eqb_neq c 0) Hc), IH. Qed.
Lemma atoi_stops s c rest acc : Forall is_digit s -> 0 <= acc -> dec_value acc s < 2 ^ 31 -> c = 0 \/ c = 10 -> User.atoi_loop (s ++ c :: rest) acc = Some (dec_value acc s).
Proof.
  intros Hs. revert acc. induction Hs as [|x s Hx Hs IH]; intros acc Ha Hv Hc; cbn [app User.atoi_loop dec_value]; [by destruct Hc as [-> | ->]|].
  cbn [dec_value] in Hv. pose proof (dec_value_mono (acc * 10 + (x - 48)) s) as Hm. unfold is_digit in Hx. specialize (Hm ltac:(lia) Hs).
  rewrite s8_digit by done.
  rewrite (proj2 (Z.leb_le 48 x)), (proj2 (Z.leb_le x 57)) by lia. cbn [andb]. rewrite s32_small by lia.
  replace (acc * 10 + x - 48) with (acc * 10 + (x - 48)) by lia. apply IH; [lia|done|done].
Qed.
Lemma digits_plain ds : Forall is_digit ds -> Forall (fun c => c <> 0 /\ c <> 10 /\ c <> 13 /\ c <> 32) ds.
Proof. intros H. eapply list.Forall_impl; [exact H|]. unfold is_digit. intros c Hc. lia. Qed.

Section one.
Context (e : entry) (He : proper e).
Lemma line_shape : exists body, line_of e = body ++ [10] /\ Forall (fun c => c <> 10 /\ c <> 13) body /\ Forall (fun c => c <> 0) body /\ (length body < 126)%nat.
Proof.
  destruct He as [H1 H2 _ [H4 [H4' _]] [H5 [H5' _]]]. apply digits_plain in H4, H5. exists (e_name e ++ [32] ++ e_major e ++ [32] ++ e_minor e).
  split; [unfold line_of; by rewrite <- !app_assoc|].
  split; [|split].
  - repeat (apply Forall_app_2 || (constructor; [done|]) || constructor); eapply list.Forall_impl; try (exact H1 || exact H4 || exact H5); cbn; tauto.
  - repeat (apply Forall_app_2 || (constructor; [done|]) || constructor); eapply list.Forall_impl; try (exact H1 || exact H4 || exact H5); cbn; tauto.
  - rewrite !length_app. cbn [length]. lia.
Qed.
Lemma readline_entry rest : readline (line_of e ++ rest) = Some (line_of e, rest).
Proof.
  destruct line_shape as (body & E & H1 & H2 & H3). unfold readline. rewrite E, <- app_assoc. cbn [app]. rewrite (fgets_line 126 body rest H1 H3).
  assert (exists c body', body = c :: body' /\ c <> 0) as (c & body' & -> & Hc).
  { destruct body as [|c body']; [|exists c, body'; by apply list.Forall_cons in H2 as [? _]]. destruct He as [_ Hl _ _ _].
    apply (f_equal length) in E. unfold line_of in E. rewrite !length_app in E. cbn in E. lia. }
  change (default 0 (((c :: body') ++ [10]) !! 0%nat)) with c. rewrite (proj2 (Z.eqb_neq c 0) Hc). rewrite until0_nonzero_eq; [done|].
  apply (Forall_app_2 _ (c :: body') [10]); [done|by repeat constructor].
Qed.
Lemma parseent_entry d : (nddi d < 256)%nat -> parseent (line_of e) d = Ok tt (Devd (<[nddi d := def_of e]> (newdefs d)) (S (nddi d)) (defs d) (made d)).
Proof.
  intros Hn. destruct He as [H1 H2 [H3 _] [H4 [H4' H4'']] [H5 [H5' H5'']]]. unfold parseent.
  assert ((length (line_of e) <? 2)%nat = false) as -> by (apply Nat.ltb_ge; unfold line_of; rewrite !length_app; cbn; lia).
  assert (exists c w, e_name e = c :: w) as (c & w & Ew) by (destruct (e_name e); [cbn in H2; lia|by eexists _, _]).
  assert (default 0 (line_of e !! 0%nat) =? 35 = false) as ->. { apply Z.eqb_neq. unfold line_of. rewrite Ew. cbn. intros ->. apply H3. by rewrite Ew.
  }
  assert (forall l, Forall (fun c => c <> 0 /\ c <> 10 /\ c <> 13 /\ c <> 32) l -> Forall (fun c => c <> 10 /\ c <> 32) l) as HP by (intros l Hl; eapply list.Forall_impl; [exact Hl|]; cbn; tauto).
  change (line_of e) with (e_name e ++ 32 :: (e_major e ++ 32 :: (e_minor e ++ [10]))). rewrite (token_word (e_name e) 32 _ (HP _ H1) eq_refl).
  unfold need, assert_or.
  rewrite (proj2 (Nat.ltb_lt _ 42)) by lia. rewrite (bind_ok _ _ _ tt d) by done.
  rewrite (token_word (e_major e) 32 _ (HP _ (digits_plain _ H4)) eq_refl).
  rewrite (proj2 (Nat.ltb_lt (length (e_major e)) 42)) by lia. rewrite (bind_ok _ _ _ tt d) by done.
  rewrite (proj2 (Nat.ltb_lt (length (e_minor e ++ [10])) 42)) by (rewrite length_app; cbn; lia).
  rewrite (bind_ok _ _ _ tt d), (bind_ok _ _ _ d d) by done. rewrite (proj2 (Nat.ltb_lt (nddi d) MAXDEFS)) by (unfold MAXDEFS; lia).
  rewrite (bind_ok _ _ _ tt d) by done.
  unfold User.atoi. rewrite !drop_0. rewrite (atoi_stops (e_major e) 0 [] 0) by (done || lia || auto). rewrite <- app_assoc. cbn [app].
  rewrite (atoi_stops (e_minor e) 10 [0] 0) by (done || lia || auto). done.
Qed.
End one.

(** Reading the file fills the table of entries from [nddi] on. *)
Lemma insert_next {A} (l : list A) n x r : (n + length r < length l)%nat -> take n (<[n := x]> l) ++ x :: r ++ drop (S n + length r) (<[n := x]> l) = take n l ++ (x :: r) ++ drop (n + S (length r)) l.
Proof.
  intros H. rewrite take_insert_ge by lia. rewrite drop_insert_lt by lia. cbn [app].
  by replace (S n + length r)%nat with (n + S (length r))%nat by lia.
Qed.
Lemma read_lines_run es : forall fuel d, Forall proper es -> length (newdefs d) = 256%nat -> (nddi d + length es <= 256)%nat -> (length (mjoin (line_of <$> es)) < fuel)%nat ->
  read_lines fuel (mjoin (line_of <$> es)) d = Ok tt (Devd (take (nddi d) (newdefs d) ++ (def_of <$> es) ++ drop (nddi d + length es) (newdefs d)) (nddi d + length es) (defs d) (made d)).
Proof.
  induction es as [|e es IH]; intros fuel d He Hl Hn Hf.
  - destruct fuel as [|fuel]; [lia|]. cbn. rewrite Nat.add_0_r, take_drop. by destruct d.
  - apply list.Forall_cons in He as [He Hes]. change (mjoin (line_of <$> e :: es)) with (line_of e ++ mjoin (line_of <$> es)) in Hf |- *.
    destruct fuel as [|fuel]; [lia|]. cbn [read_lines]. rewrite (readline_entry e He).
    pose proof He as [P1 P2 [P3 P4] P5 P6].
    assert (exists c w, e_name e = c :: w) as (c & w & Ew) by (destruct (e_name e); [cbn in P2; lia|by eexists _, _]).
    assert (line_of e = c :: (w ++ [32] ++ e_major e ++ [32] ++ e_minor e ++ [10])) as El by (unfold line_of; by rewrite Ew).
    assert (default 0 (line_of e !! 0%nat) = c) as E0 by by rewrite El. rewrite E0. pose proof P1 as P1'. rewrite Ew in P1'.
    apply list.Forall_cons in P1' as [(_ & Hc10 & _ & _) _].
    rewrite (proj2 (Z.eqb_neq c 35)) by (intros ->; apply P3; by rewrite Ew). rewrite (proj2 (Z.eqb_neq c 10) Hc10).
    assert ((c =? 101) && (default 0 (line_of e !! 1%nat) =? 110) && (default 0 (line_of e !! 2%nat) =? 100) = false) as ->.
    { apply not_true_iff_false. rewrite !andb_true_iff, !Z.eqb_eq. intros [[-> H1] H2]. rewrite El in H1, H2. apply P4. rewrite Ew. clear - H1 H2.
      destruct w as [|x [|y w]]; cbn in H1, H2; [done|done|]. by subst. }
    pose proof (parseent_entry e He d) as HP. cbn [length] in Hn. rewrite (bind_ok _ _ _ _ _ (HP ltac:(lia))).
    rewrite (IH fuel); [|done|cbn; by rewrite length_insert|cbn; lia|rewrite length_app in Hf; rewrite El in Hf; cbn [length] in Hf; lia].
    cbn [nddi newdefs defs made length].
    f_equal. f_equal; [|lia]. cbn [fmap list_fmap]. rewrite (take_S_r _ (nddi d) (def_of e)) by (apply list_lookup_insert_eq; lia).
    rewrite <- app_assoc. cbn [app].
    pose proof (insert_next (newdefs d) (nddi d) (def_of e) (def_of <$> es)) as HI. rewrite length_fmap in HI. cbn [app] in HI. apply HI. lia.
Qed.

(** The devices of a list that are not known, each once. *)
Fixpoint fresh_devices (known l : list devicedef) : list devicedef :=
  match l with [] => [] | a :: l' => if bool_decide (fname a ∈ fname <$> known) then fresh_devices known l' else a :: fresh_devices (known ++ [a]) l' end.
Definition node_of (a : devicedef) : list Z * Z * Z := (dev_prefix ++ default [] (fname a), s16 (d_major a), s16 (d_minor a)).

Lemma fresh_length l : forall known, (length (fresh_devices known l) <= length l)%nat.
Proof.
  induction l as [|a l IH]; intros known; cbn [fresh_devices length]; [lia|].
  case_bool_decide; [specialize (IH known)|specialize (IH (known ++ [a])); cbn [length]]; lia.
Qed.
Lemma fresh_spec l : forall known, (forall a, a ∈ l -> fname a ∈ fname <$> known ++ fresh_devices known l) /\ (NoDup (fname <$> known) -> NoDup (fname <$> known ++ fresh_devices known l)) /\
  forall a, a ∈ fresh_devices known l -> a ∈ l /\ fname a ∉ fname <$> known.
Proof.
  induction l as [|a l IH]; intros known; cbn [fresh_devices].
  - rewrite app_nil_r. split_and!; [intros a H; by apply not_elem_of_nil in H|done|intros a H; by apply not_elem_of_nil in H].
  - case_bool_decide as Hb.
    + destruct (IH known) as (F1 & F2 & F3). split_and!; [|done|intros x (Hx & ?)%F3; split; [by right|done]].
      intros x [->|Hx]%elem_of_cons; [|by apply F1]. rewrite fmap_app. apply elem_of_app. by left.
    + destruct (IH (known ++ [a])) as (F1 & F2 & F3). rewrite <- app_assoc in F1, F2. cbn [app] in F1, F2. split_and!.
      * intros x [->|Hx]%elem_of_cons; [|by apply F1]. rewrite fmap_app. apply elem_of_app. right. by left.
      * intros H. apply F2. rewrite fmap_app. apply list.NoDup_app. split; [done|]. split; [|apply NoDup_singleton].
        intros x Hx ->%list_elem_of_singleton. done.
      * intros x [->|Hx]%elem_of_cons; [split; [by left|done]|]. apply F3 in Hx as [Hx1 Hx2]. split; [by right|]. intros H. apply Hx2.
        rewrite fmap_app. apply elem_of_app. by left.
Qed.

Section scanning.
Context (mknod can_open : list Z -> bool).
Definition usable (a : devicedef) : Prop := exists n, fname a = Some n /\ (length n < 42)%nat /\ (mknod (dev_prefix ++ n) = true \/ can_open (dev_prefix ++ n) = true).
Lemma add_devices_run l : forall d, Forall usable l -> (length (defs d) + length (fresh_devices (defs d) l) <= 256)%nat ->
  add_devices mknod can_open l d = Ok true (Devd (newdefs d) (nddi d) (defs d ++ fresh_devices (defs d) l) (made d ++ (node_of <$> fresh_devices (defs d) l))).
Proof.
  induction l as [|a l IH]; intros d Hl Hn; cbn [add_devices fresh_devices].
  - cbn. rewrite !app_nil_r. by destruct d.
  - apply list.Forall_cons in Hl as [(n & En & Hlen & Hok) Hl]. cbn [fresh_devices] in Hn. rewrite (bind_ok _ _ _ d d) by done. unfold newdev.
    rewrite En in Hn |- *.
    destruct (bool_decide (Some n ∈ fname <$> defs d)) eqn:EB; rewrite ?EB in Hn; [change (0 =? 1) with false; change (0 =? -1) with false; cbv iota; by apply IH|].
    change (1 =? 1) with true. cbv iota. cbn [length] in Hn. rewrite (proj2 (Nat.ltb_lt _ MAXDEFS)) by (unfold MAXDEFS; lia).
    change (default [] (Some n)) with n. unfold need, assert_or.
    rewrite (proj2 (Nat.ltb_lt (length (dev_prefix ++ n)) 256)) by (rewrite length_app; cbn; lia). rewrite (bind_ok _ _ _ tt d) by done.
    erewrite bind_ok by reflexivity.
    assert (negb (mknod (dev_prefix ++ n)) && negb (can_open (dev_prefix ++ n)) = false) as -> by (destruct Hok as [-> | ->]; [done|apply andb_false_r]).
    erewrite bind_ok by reflexivity.
    rewrite IH; [|done|cbn; rewrite length_app; cbn [length]; lia]. cbn [newdefs nddi defs made]. rewrite <- !app_assoc. cbn [app fmap list_fmap].
    assert (node_of a = (dev_prefix ++ n, s16 (d_major a), s16 (d_minor a))) as -> by (unfold node_of; by rewrite En). done.
Qed.

(** The first scan of /etc/devices.  For a file of at most 256 proper entries
    the daemon learns exactly the devices of the file, each name once, in order,
    with the numbers written there, and has made a node under /dev for each. *)
Theorem devd_first_scan es : Forall proper es -> (length es <= 256)%nat -> (forall e, e ∈ es -> mknod (dev_prefix ++ e_name e) = true \/ can_open (dev_prefix ++ e_name e) = true) ->
  exists d, readfile mknod can_open (mjoin (line_of <$> es)) devd_start = Ok 0 d /\
    defs d = fresh_devices [] (def_of <$> es) /\ made d = node_of <$> defs d /\
    (forall e, e ∈ es -> Some (e_name e) ∈ fname <$> defs d) /\ NoDup (fname <$> defs d) /\ (forall a, a ∈ defs d -> exists e, e ∈ es /\ a = def_of e).
Proof.
  intros He Hn Hok. assert (Forall usable (def_of <$> es)) as Hu.
  { apply Forall_fmap, list.Forall_forall. intros e Hin. rewrite list.Forall_forall in He. exists (e_name e). split; [done|].
    split; [apply (pr_len _ (He e Hin))|by apply Hok]. }
  unfold readfile. rewrite (bind_ok _ _ _ _ _ (read_lines_run es (S (length (mjoin (line_of <$> es)))) devd_start He eq_refl Hn ltac:(lia))).
  erewrite (bind_ok get) by reflexivity.
  cbn [nddi newdefs devd_start]. rewrite Nat.add_0_l, take_0. cbn [app]. unfold need, assert_or.
  rewrite (proj2 (Nat.leb_le (length es) MAXDEFS)) by (unfold MAXDEFS; lia). erewrite bind_ok by reflexivity.
  rewrite (take_app_length' (def_of <$> es)) by (by rewrite length_fmap).
  pose proof (fresh_length (def_of <$> es) []) as HL. rewrite length_fmap in HL.
  match goal with |- context [(add_devices _ _ _ ≫= _) ?s] => set (d1 := s) end.
  assert (length (defs d1) + length (fresh_devices (defs d1) (def_of <$> es)) <= 256)%nat as HL' by (change (defs d1) with (@nil devicedef); cbn [length]; lia).
  rewrite (bind_ok _ _ _ _ _ (add_devices_run (def_of <$> es) d1 Hu HL')).
  eexists. split; [reflexivity|]. cbn [defs made app]. split; [done|]. split; [done|]. destruct (fresh_spec (def_of <$> es) []) as (F1 & F2 & F3).
  split; [|split].
  - intros e Hin. apply (F1 (def_of e)). by apply list_elem_of_fmap_2.
  - apply F2. constructor.
  - intros a (Ha & _)%F3. apply list_elem_of_fmap in Ha as (e & -> & He'). by exists e.
Qed.
End scanning.

(** ** Later scans *)

(** [nddi] is never set back, and the table is cleared from its beginning: once a
    scan has read an entry the next ones stop at the first, and no device is
    added any more. *)
Lemma devd_rescan_blind mknod can_open es d : Forall proper es -> newdefs d = replicate MAXDEFS nodef -> (0 < nddi d)%nat -> (nddi d + length es <= 256)%nat ->
  exists d', readfile mknod can_open (mjoin (line_of <$> es)) d = Ok 0 d' /\ defs d' = defs d /\ made d' = made d.
Proof.
  intros He Hd Hn Hl. unfold readfile.
  rewrite (bind_ok _ _ _ _ _ (read_lines_run es (S (length (mjoin (line_of <$> es)))) d He ltac:(by rewrite Hd) Hl ltac:(lia))).
  erewrite (bind_ok get) by reflexivity.
  cbn [nddi newdefs]. unfold need, assert_or. rewrite (proj2 (Nat.leb_le _ MAXDEFS)) by (unfold MAXDEFS; lia). erewrite bind_ok by reflexivity.
  assert (exists l, take (nddi d + length es) (take (nddi d) (newdefs d) ++ (def_of <$> es) ++ drop (nddi d + length es) (newdefs d)) = nodef :: l) as [l ->].
  { destruct (nddi d) as [|n]; [lia|]. rewrite Hd. unfold MAXDEFS. by eexists. }
  erewrite bind_ok by reflexivity. by eexists.
Qed.
(** And then the table overflows. *)
Lemma devd_overflows e d : proper e -> nddi d = 256%nat -> parseent (line_of e) d = Panic "newdefs" d.
Proof.
  intros He Hd. pose proof He as [H1 H2 [H3 _] [H4 [H4' H4'']] [H5 [H5' H5'']]]. unfold parseent.
  assert ((length (line_of e) <? 2)%nat = false) as -> by (apply Nat.ltb_ge; unfold line_of; rewrite !length_app; cbn; lia).
  assert (exists c w, e_name e = c :: w) as (c & w & Ew) by (destruct (e_name e); [cbn in H2; lia|by eexists _, _]).
  assert (default 0 (line_of e !! 0%nat) =? 35 = false) as ->. { apply Z.eqb_neq. unfold line_of. rewrite Ew. cbn. intros ->. apply H3. by rewrite Ew.
  }
  assert (forall l, Forall (fun c => c <> 0 /\ c <> 10 /\ c <> 13 /\ c <> 32) l -> Forall (fun c => c <> 10 /\ c <> 32) l) as HP by (intros l Hl; eapply list.Forall_impl; [exact Hl|]; cbn; tauto).
  change (line_of e) with (e_name e ++ 32 :: (e_major e ++ 32 :: (e_minor e ++ [10]))). rewrite (token_word (e_name e) 32 _ (HP _ H1) eq_refl).
  unfold need, assert_or.
  rewrite (proj2 (Nat.ltb_lt _ 42)) by lia. rewrite (bind_ok _ _ _ tt d) by done.
  rewrite (token_word (e_major e) 32 _ (HP _ (digits_plain _ H4)) eq_refl).
  rewrite (proj2 (Nat.ltb_lt (length (e_major e)) 42)) by lia. rewrite (bind_ok _ _ _ tt d) by done.
  rewrite (proj2 (Nat.ltb_lt (length (e_minor e ++ [10])) 42)) by (rewrite length_app; cbn; lia).
  rewrite (bind_ok _ _ _ tt d), (bind_ok _ _ _ d d) by done. by rewrite Hd.
Qed.

(** Null and zero, null twice. *)
Definition sample_entries : list entry := [Entry [110; 117; 108; 108] [50] [48]; Entry [122; 101; 114; 111] [50] [49]; Entry [110; 117; 108; 108] [50] [48]].
Lemma devd_first_scan_witness : exists d, readfile (fun _ => true) (fun _ => false) (mjoin (line_of <$> sample_entries)) devd_start = Ok 0 d /\
  made d = [(dev_prefix ++ [110; 117; 108; 108], 2, 0); (dev_prefix ++ [122; 101; 114; 111], 2, 1)].
Proof.
  destruct (devd_first_scan (fun _ => true) (fun _ => false) sample_entries) as (d & E & Hd & Hm & _).
  - repeat constructor; cbn; lia || discriminate || (unfold is_digit; lia).
  - cbn. lia.
  - intros e _. by left.
  - exists d. split; [exact E|]. rewrite Hm, Hd. vm_compute. reflexivity.
Defined.
