(* ===== verification/Mp.v ===== *)
(** The processors of the machine ([mp.c]): finding the tables the firmware leaves
    in memory and reading the processors and the interrupt controller from them.

    Memory is read through the kernel's mapping, so addresses here are physical
    ones.  The loop over the table may not come back; its fuel counts the visits
    to an entry, and [None] is a loop still running. *)

From S2P Require Import Prelude Params Boot BootFacts Start.

(** ** The tables *)

(** Sizes of [struct mp], [mpconf], [mpproc] and [mpioapic]. *)
Definition MP_SIZE : Z := 16.
Definition MPCONF_SIZE : Z := 44.
Definition MPPROC_SIZE : Z := 20.
Definition MPIOAPIC_SIZE : Z := 8.
Definition MPPROC : Z := 0x00.
Definition MPBUS : Z := 0x01.
Definition MPIOAPIC : Z := 0x02.
Definition MPIOINTR : Z := 0x03.
Definition MPLINTR : Z := 0x04.
Definition mp_sig : list Z := [95; 77; 80; 95].
Definition mpconf_sig : list Z := [80; 67; 77; 80].

Definition mp_physaddr (m : memory) (mp : Z) : Z := num m (mp + 4) 4.
Definition mp_imcrp (m : memory) (mp : Z) : Z := num m (mp + 12) 1.
Definition conf_length (m : memory) (conf : Z) : Z := num m (conf + 4) 2.
Definition conf_version (m : memory) (conf : Z) : Z := num m (conf + 6) 1.
Definition conf_lapicaddr (m : memory) (conf : Z) : Z := num m (conf + 36) 4.

Definition sum (m : memory) (addr len : Z) : Z := u8 (fold_left (fun s b => s32 (s + b)) (ram_bytes m addr len) 0).

Definition mpsearch1 (m : memory) (a len : Z) : option Z :=
  find (fun p => bool_decide (ram_bytes m p 4 = mp_sig) && (sum m p MP_SIZE =? 0))
       ((fun i => a + MP_SIZE * i) <$> seqZ 0 ((len + MP_SIZE - 1) / MP_SIZE)).

(** The extended BIOS area, whose segment is at 0x40E, else the end of base
    memory, whose size in KB is at 0x413; then the ROM. *)
Definition mpsearch (m : memory) : option Z :=
  let rom := mpsearch1 m 0xF0000 0x10000 in
  let p := Z.shiftl (Z.lor (Z.shiftl (num m 0x40F 1) 8) (num m 0x40E 1)) 4 in
  if negb (p =? 0) then
    match mpsearch1 m p 1024 with Some mp => Some mp | None => rom end
  else
    let p := Z.lor (Z.shiftl (num m 0x414 1) 8) (num m 0x413 1) * 1024 in
    match mpsearch1 m (u32 (p - 1024)) 1024 with Some mp => Some mp | None => rom end.

(** The pointer structure and the table it points to. *)
Definition mpconfig (m : memory) : option (Z * Z) :=
  match mpsearch m with
  | None => None
  | Some mp =>
    if mp_physaddr m mp =? 0 then None else
    let conf := mp_physaddr m mp in
    if negb (bool_decide (ram_bytes m conf 4 = mpconf_sig)) then None
    else if negb (conf_version m conf =? 1) && negb (conf_version m conf =? 4) then None
    else if negb (sum m conf (conf_length m conf) =? 0) then None
    else Some (mp, conf)
  end.

(** ** Reading the table *)

Record mps := Mps { ismp : bool; ncpu : Z; cpus : list Z; ioapicid : Z; lapic : Z; outs : list (Z * Z) }.
(** The kernel's variables before [mpinit]; [cpus] holds the [id] of each entry. *)
Definition mp_zero : mps := Mps false 0 (replicate (Z.to_nat NCPU) 0) 0 0 [].

Definition add_cpu (apicid : Z) (s : mps) : mps :=
  if ncpu s <? NCPU then Mps (ismp s) (ncpu s + 1) (<[Z.to_nat (ncpu s) := apicid]> (cpus s)) (ioapicid s) (lapic s) (outs s) else s.
Definition set_ioapicid (apicno : Z) (s : mps) : mps := Mps (ismp s) (ncpu s) (cpus s) apicno (lapic s) (outs s).
Definition not_mp (s : mps) : mps := Mps false (ncpu s) (cpus s) (ioapicid s) (lapic s) (outs s).

Fixpoint mpinit_loop (fuel : nat) (m : memory) (p e : Z) (s : mps) : option mps :=
  match fuel with
  | O => None
  | S fuel' =>
    if e <=? p then Some s else
    let t := num m p 1 in
    if t =? MPPROC then mpinit_loop fuel' m (p + MPPROC_SIZE) e (add_cpu (num m (p + 1) 1) s)
    else if t =? MPIOAPIC then mpinit_loop fuel' m (p + MPIOAPIC_SIZE) e (set_ioapicid (num m (p + 1) 1) s)
    else if (t =? MPBUS) || (t =? MPIOINTR) || (t =? MPLINTR) then mpinit_loop fuel' m (p + 8) e s
    else mpinit_loop fuel' m p e (not_mp s)
  end.

(** [imcr] is what port 0x23 reads. *)
Definition mpinit (fuel : nat) (m : memory) (imcr : Z) (s : mps) : option mps :=
  match mpconfig m with
  | None => Some (Mps (ismp s) (ncpu s) (cpus s) (ioapicid s) 0 (outs s))
  | Some (mp, conf) =>
    let s := Mps true (ncpu s) (cpus s) (ioapicid s) (conf_lapicaddr m conf) (outs s) in
    match mpinit_loop fuel m (conf + MPCONF_SIZE) (conf + conf_length m conf) s with
    | None => None
    | Some s =>
      if negb (ismp s) then Some (Mps false 1 (cpus s) 0 0 (outs s))
      else if negb (mp_imcrp m mp =? 0)
           then Some (Mps (ismp s) (ncpu s) (cpus s) (ioapicid s) (lapic s) (outs s ++ [(0x22, 0x70); (0x23, Z.lor imcr 1)]))
           else Some s
    end
  end.
(** [main] then makes up for a machine without the tables. *)
Definition main_ncpu (s : mps) : mps := if negb (ismp s) then Mps (ismp s) 1 (cpus s) (ioapicid s) (lapic s) (outs s) else s.

(** ** What a table says *)

Inductive mpentry :=
| EProc (apicid : Z) (rest : list Z)
| EIoapic (apicno : Z) (rest : list Z)
| EOther (t : Z) (rest : list Z).
Definition entry_ok (x : mpentry) : Prop :=
  match x with
  | EProc a r => is_byte a /\ length r = 18%nat
  | EIoapic a r => is_byte a /\ length r = 6%nat
  | EOther t r => t ∈ [MPBUS; MPIOINTR; MPLINTR] /\ length r = 7%nat
  end.
Definition entry_bytes (x : mpentry) : list Z :=
  match x with EProc a r => MPPROC :: a :: r | EIoapic a r => MPIOAPIC :: a :: r | EOther t r => t :: r end.
Definition table_bytes (es : list mpentry) : list Z := es ≫= entry_bytes.
Definition processors (es : list mpentry) : list Z := omap (fun x => match x with EProc a _ => Some a | _ => None end) es.
Definition controllers (es : list mpentry) : list Z := omap (fun x => match x with EIoapic a _ => Some a | _ => None end) es.

(** What the processors and controllers found after [ids] and [io] make of the variables. *)
Definition found (ids : list Z) (io : Z) (s : mps) : Prop :=
  ismp s = true /\ ncpu s = Z.of_nat (length (take 24 ids)) /\ length (cpus s) = 24%nat /\
  take (Z.to_nat (ncpu s)) (cpus s) = take 24 ids /\ ioapicid s = io.
Lemma found_zero l o : found [] 0 (Mps true 0 (cpus mp_zero) 0 l o).
Proof. by repeat split. Qed.

Definition see (x : mpentry) (s : mps) : mps :=
  match x with EProc a _ => add_cpu a s | EIoapic a _ => set_ioapicid a s | EOther _ _ => s end.

Lemma add_cpu_found ids io a s : found ids io s -> found (ids ++ [a]) io (add_cpu a s).
Proof.
  intros (M & N & L & T & I). unfold add_cpu, NCPU. rewrite length_take in N. destruct (Z.ltb_spec (ncpu s) 24) as [Hn|Hn].
  - assert (length ids < 24)%nat as Hl by lia. rewrite (take_ge ids) in T by lia. unfold found. cbn [ismp ncpu cpus ioapicid].
    rewrite take_ge by (rewrite length_app; cbn; lia). split; [done|]. split; [rewrite length_app; cbn; lia|]. split; [by rewrite length_insert|].
    split; [|done]. assert (Z.to_nat (ncpu s) = length ids) as E by lia. rewrite E in *.
    replace (Z.to_nat (ncpu s + 1)) with (S (length ids)) by lia. rewrite (take_S_r _ _ a) by (apply list_lookup_insert_eq; lia).
    by rewrite take_insert_ge, T by lia.
  - assert (24 <= length ids)%nat as Hl by lia. unfold found. rewrite take_app_le by lia. by rewrite length_take.
Qed.
Lemma see_found ids io x s : found ids io s -> found (ids ++ processors [x]) (default io (list.last (controllers [x]))) (see x s).
Proof.
  destruct x as [a r|a r|t r]; intros H; cbn; rewrite ?app_nil_r; [by apply add_cpu_found| |done].
  destruct H as (?&?&?&?&_). by repeat split.
Qed.

Lemma num_byte m p : num m p 1 = m p.
Proof. unfold num, ram_bytes. change (seqZ p 1) with [0 + p]. cbn [fmap list_fmap le_num]. rewrite Z.add_0_l. lia. Qed.
Lemma first_byte m p b bs : has m p (b :: bs) -> num m p 1 = b.
Proof. intros H. rewrite num_byte. specialize (H 0%nat b eq_refl). by rewrite Z.add_0_r in H. Qed.
Lemma second_byte m p b c bs : has m p (b :: c :: bs) -> num m (p + 1) 1 = c.
Proof. intros H. rewrite num_byte. exact (H 1%nat c eq_refl). Qed.
Lemma has_app_l m p l1 l2 : has m p (l1 ++ l2) -> has m p l1.
Proof. intros H j b Hj. apply H. by apply lookup_app_l_Some. Qed.
Lemma has_app_r m p l1 l2 : has m p (l1 ++ l2) -> has m (p + Z.of_nat (length l1)) l2.
Proof. intros H j b Hj. rewrite <- Z.add_assoc, <- Nat2Z.inj_add. apply H. by rewrite lookup_app_r, Nat.add_comm, Nat.add_sub by lia. Qed.

(** One entry of the table is read. *)
Lemma loop_entry fuel m p e x s : entry_ok x -> has m p (entry_bytes x) -> p + Z.of_nat (length (entry_bytes x)) <= e ->
  mpinit_loop (S fuel) m p e s = mpinit_loop fuel m (p + Z.of_nat (length (entry_bytes x))) e (see x s).
Proof.
  intros Hx H He. cbn [mpinit_loop]. destruct x as [a r|a r|t r]; cbn [entry_bytes entry_ok see] in *; rewrite (first_byte _ _ _ _ H);
    destruct Hx as [Ha Hr]; cbn [length] in *; rewrite Hr in *; rewrite (proj2 (Z.leb_gt _ _)) by lia.
  - change (MPPROC =? MPPROC) with true. cbv iota. by rewrite (second_byte _ _ _ _ _ H).
  - change (MPIOAPIC =? MPPROC) with false. change (MPIOAPIC =? MPIOAPIC) with true. cbv iota. by rewrite (second_byte _ _ _ _ _ H).
  - assert (t = MPBUS \/ t = MPIOINTR \/ t = MPLINTR) as [->|[->| ->]] by set_solver; done.
Qed.
Lemma entry_nonempty x : (0 < length (entry_bytes x))%nat.
Proof. destruct x; cbn; lia. Qed.
Lemma omap_cons_app {A B} (f : A -> option B) x l : omap f (x :: l) = omap f [x] ++ omap f l.
Proof. cbn. by destruct (f x). Qed.
Lemma last_default {A} (d : A) l1 l2 : default d (list.last (l1 ++ l2)) = default (default d (list.last l1)) (list.last l2).
Proof. rewrite last_app. by destruct (list.last l2). Qed.

(** A run of entries is read, whatever follows it. *)
Lemma loop_entries m e es : forall fuel p ids io s, Forall entry_ok es -> has m p (table_bytes es) -> p + Z.of_nat (length (table_bytes es)) <= e ->
  found ids io s -> exists s',
    mpinit_loop (length es + fuel) m p e s = mpinit_loop fuel m (p + Z.of_nat (length (table_bytes es))) e s' /\
    found (ids ++ processors es) (default io (list.last (controllers es))) s' /\ lapic s' = lapic s /\ outs s' = outs s.
Proof.
  induction es as [|x es IH]; intros fuel p ids io s Hok H He F.
  - exists s. cbn. by rewrite Z.add_0_r, app_nil_r.
  - apply list.Forall_cons in Hok as [Hx Hok]. change (table_bytes (x :: es)) with (entry_bytes x ++ table_bytes es) in *. rewrite length_app in *.
    cbn [length Nat.add]. rewrite (loop_entry _ _ _ _ x) by first [done|lia|exact (has_app_l _ _ _ _ H)].
    destruct (IH fuel (p + Z.of_nat (length (entry_bytes x))) _ _ (see x s) Hok (has_app_r _ _ _ _ H) ltac:(lia) (see_found _ _ x _ F))
      as (s' & E & F' & L' & O').
    exists s'. split; [rewrite E; f_equal; lia|]. unfold processors, controllers in *. rewrite !(omap_cons_app _ x es), last_default, app_assoc.
    split; [done|]. rewrite L', O'. by destruct x; cbn; unfold add_cpu; destruct (ncpu s <? NCPU).
Qed.
(** A loop that is stuck behind a run of entries does not end. *)
Lemma loop_stuck m e es : forall fuel p s, Forall entry_ok es -> has m p (table_bytes es) -> p + Z.of_nat (length (table_bytes es)) <= e ->
  (forall k s', mpinit_loop k m (p + Z.of_nat (length (table_bytes es))) e s' = None) -> mpinit_loop fuel m p e s = None.
Proof.
  induction es as [|x es IH]; intros fuel p s Hok H He Hs; [by rewrite <- (Z.add_0_r p)|].
  apply list.Forall_cons in Hok as [Hx Hok]. change (table_bytes (x :: es)) with (entry_bytes x ++ table_bytes es) in *. rewrite length_app in *.
  destruct fuel as [|fuel]; [done|]. rewrite (loop_entry _ _ _ _ x) by first [done|lia|exact (has_app_l _ _ _ _ H)].
  apply IH; [done|exact (has_app_r _ _ _ _ H)|lia|]. intros k s'. rewrite <- (Hs k s'). f_equal. lia.
Qed.

(** ** The machine's processors *)

(** Where [mpinit] looks, in its order. *)
Definition mp_at (m : memory) (p : Z) : bool := bool_decide (ram_bytes m p 4 = mp_sig) && (sum m p MP_SIZE =? 0).
Lemma mpsearch1_first m a len p : mpsearch1 m a len = Some p <->
  exists i, p = a + 16 * i /\ 0 <= i < (len + 15) / 16 /\ mp_at m p = true /\ forall j, 0 <= j < i -> mp_at m (a + 16 * j) = false.
Proof.
  unfold mpsearch1, MP_SIZE. replace (len + 16 - 1) with (len + 15) by lia. set (n := (len + 15) / 16). clearbody n.
  assert (forall k l, find (mp_at m) ((fun i => a + 16 * i) <$> seqZ k l) = Some p <->
            exists i, p = a + 16 * i /\ k <= i < k + l /\ mp_at m p = true /\ forall j, k <= j < i -> mp_at m (a + 16 * j) = false) as G.
  { intros k l. destruct (decide (0 <= l)) as [Hl|Hl]; cycle 1.
    { rewrite seqZ_nil by lia. cbn. split; [done|]. intros (i & _ & Hi & _). lia. }
    revert k. pattern l. apply natlike_ind; [|clear l Hl|done].
    - intros k. rewrite seqZ_nil by lia. cbn. split; [done|]. intros (i & _ & Hi & _). lia.
    - intros l Hl IH k. rewrite seqZ_cons by lia. cbn [fmap list_fmap find]. rewrite Z.pred_succ. destruct (mp_at m (a + 16 * k)) eqn:E.
      + split; [intros [= <-]; exists k; repeat split; [lia|lia|done|lia]|]. intros (i & -> & Hi & _ & Hj). f_equal.
        destruct (decide (i = k)) as [->|Hik]; [done|]. rewrite Hj in E by lia. done.
      + rewrite IH. split; intros (i & -> & Hi & Ei & Hj).
        * exists i. repeat split; [lia|lia|done|]. intros j Hj'. destruct (decide (j = k)) as [->|]; [done|]. apply Hj. lia.
        * exists i. destruct (decide (i = k)) as [->|Hik]; [by rewrite Ei in E|]. repeat split; [lia|lia|done|]. intros j Hj'. apply Hj. lia. }
  exact (G 0 n).
Qed.

Section table.
Context (m : memory) (mp conf : Z) (es : list mpentry).
Hypothesis Hconf : mpconfig m = Some (mp, conf).
Hypothesis Hes : Forall entry_ok es.
Hypothesis Hmem : has m (conf + MPCONF_SIZE) (table_bytes es).

(** The whole table is read: the first processors the kernel has room for, in the
    order of the table, and the last interrupt controller. *)
Theorem mpinit_reads_table fuel imcr : conf_length m conf = MPCONF_SIZE + Z.of_nat (length (table_bytes es)) -> (length es < fuel)%nat -> exists s,
  mpinit fuel m imcr mp_zero = Some s /\ found (processors es) (default 0 (list.last (controllers es))) s /\
  lapic s = conf_lapicaddr m conf /\ main_ncpu s = s.
Proof.
  intros Hlen Hf. unfold mpinit. rewrite Hconf. replace fuel with (length es + S (fuel - length es - 1))%nat by lia. rewrite Hlen, Z.add_assoc.
  destruct (loop_entries m (conf + MPCONF_SIZE + Z.of_nat (length (table_bytes es))) es (S (fuel - length es - 1)) _ [] 0 _ Hes Hmem ltac:(lia)
              (found_zero (conf_lapicaddr m conf) [])) as (s' & E & F & L & O).
  cbn [mp_zero ncpu ioapicid outs ismp lapic] in *. rewrite E. cbn [mpinit_loop]. rewrite Z.leb_refl. pose proof F as (M & _). rewrite M. cbn [negb].
  destruct F as (_&?&?&?&?). unfold main_ncpu.
  destruct (negb (mp_imcrp m mp =? 0)); eexists; (split; [reflexivity|]); unfold found; cbn [ismp ncpu cpus ioapicid lapic]; rewrite ?M; cbn [negb]; by split_and!.
Qed.

(** An entry of a type the specification does not know keeps the loop where it is,
    for ever: the [break] leaves the [switch] only, and the code after the loop
    that falls back to one processor is not reached. *)
Theorem mpinit_stuck fuel imcr t rest : has m (conf + MPCONF_SIZE) (table_bytes es ++ t :: rest) ->
  MPCONF_SIZE + Z.of_nat (length (table_bytes es)) < conf_length m conf -> ~ 0 <= t <= 4 -> mpinit fuel m imcr mp_zero = None.
Proof.
  intros H Hlen Ht. unfold mpinit. rewrite Hconf. cbn [mp_zero ncpu ioapicid outs ismp cpus].
  set (e := conf + conf_length m conf). set (q := conf + MPCONF_SIZE + Z.of_nat (length (table_bytes es))).
  assert (num m q 1 = t) as Et by (apply has_app_r in H; exact (first_byte _ _ _ _ H)).
  assert (q < e) as Hq by (unfold q, e; lia).
  assert (forall k s, mpinit_loop k m q e s = None) as Hs.
  { induction k as [|k IH]; intros s; cbn [mpinit_loop]; [done|]. rewrite (proj2 (Z.leb_gt _ _)), Et by lia.
    unfold MPPROC, MPIOAPIC, MPBUS, MPIOINTR, MPLINTR. rewrite !(proj2 (Z.eqb_neq t _)) by lia. apply IH. }
  erewrite (loop_stuck m e es fuel _ _ Hes (has_app_l _ _ _ _ H)); [done|lia|exact Hs].
Qed.
End table.

(** ** A machine with two processors *)

Module MpSample.
Definition fix_sum (bs : list Z) (i : nat) : list Z := <[i := u8 (- fold_left Z.add bs 0)]> bs.
Definition pointer : list Z := fix_sum (mp_sig ++ le_bytes 4 0x80000 ++ [1; 4; 0; 0; 0; 0; 0; 0]) 10.
Definition entries : list mpentry :=
  [EProc 0 (replicate 18 0); EProc 3 (replicate 18 0); EOther MPBUS (replicate 7 0); EIoapic 2 (replicate 6 0)].
Definition conf_table (body : list Z) : list Z :=
  fix_sum (mpconf_sig ++ le_bytes 2 (44 + Z.of_nat (length body)) ++ [4; 0] ++ replicate 28 0 ++ le_bytes 4 0xFEE00000 ++ replicate 4 0 ++ body) 7.
Definition firmware (at_ : Z) (body : list Z) : memory := put at_ pointer (put 0x80000 (conf_table body) (fun _ => 0)).
Example two_processors : (fun s => (ncpu s, take 2 (cpus s), ioapicid s, lapic s)) <$> mpinit 5 (firmware 0xF0010 (table_bytes entries)) 0 mp_zero =
  Some (2, [0; 3], 2, 0xFEE00000).
Proof. vm_compute. reflexivity. Qed.
(** The comment of [mpsearch] has the ROM begin at 0xE0000; the code starts at 0xF0000. *)
Example mpsearch_skips_rom : mpsearch (firmware 0xE0000 (table_bytes entries)) = None /\ mp_at (firmware 0xE0000 (table_bytes entries)) 0xE0000 = true.
Proof. vm_compute. split; reflexivity. Qed.
End MpSample.
