(* ===== verification/Interrupts.v ===== *)
(** The interrupt controllers and the clock ([picirq.c], [ioapic.c], [timer.c],
    [lapic.c]).

    A write to a port or to a register of the local controller is an element of a
    trace; the I/O controller's registers are reached by way of a select register,
    as its comment describes them.  Waiting for the hardware, and reads that only
    wait, are left out. *)

From S2P Require Import Prelude Dispatch.
Local Open Scope Z_scope.

(** ** The 8259A controllers *)

Abbreviation trace := (list (Z * Z)).
Definition outb (port v : Z) (tr : trace) : trace := tr ++ [(port, u8 v)].
(** What was last written to a port. *)
Fixpoint last_out (port : Z) (tr : trace) : option Z :=
  match tr with
  | [] => None
  | (p, v) :: tr' => match last_out port tr' with Some w => Some w | None => if p =? port then Some v else None end
  end.

Definition IO_PIC1 : Z := 0x20.
Definition IO_PIC2 : Z := 0xA0.
Definition IRQ_SLAVE : Z := 2.
Record pics := Pics { irqmask : Z; pic_out : trace }.
Definition pics_start : pics := Pics (Z.land 0xFFFF (Z.lnot (Z.shiftl 1 IRQ_SLAVE))) [].

Definition picsetmask (mask : Z) (s : pics) : pics :=
  let mask := u16 mask in Pics mask (outb (IO_PIC2 + 1) (Z.shiftr mask 8) (outb (IO_PIC1 + 1) mask (pic_out s))).
Definition picenable (irq : Z) (s : pics) : pics := picsetmask (Z.land (irqmask s) (Z.lnot (Z.shiftl 1 irq))) s.

Definition outbs (ws : trace) (tr : trace) : trace := fold_left (fun tr w => outb w.1 w.2 tr) ws tr.
Definition pic_setup : trace :=
  [(IO_PIC1 + 1, 0xFF); (IO_PIC2 + 1, 0xFF);
   (IO_PIC1, 0x11); (IO_PIC1 + 1, T_IRQ0); (IO_PIC1 + 1, Z.shiftl 1 IRQ_SLAVE); (IO_PIC1 + 1, 0x3);
   (IO_PIC2, 0x11); (IO_PIC2 + 1, T_IRQ0 + 8); (IO_PIC2 + 1, IRQ_SLAVE); (IO_PIC2 + 1, 0x3);
   (IO_PIC1, 0x68); (IO_PIC1, 0x0a); (IO_PIC2, 0x68); (IO_PIC2, 0x0a)].
Definition picinit (s : pics) : pics :=
  let s := Pics (irqmask s) (outbs pic_setup (pic_out s)) in
  if negb (irqmask s =? 0xFFFF) then picsetmask (irqmask s) s else s.

(** The timer's channel 0 as a rate generator. *)
Definition TIMER_DIV (x : Z) : Z := (1193182 + x / 2) / x.
Definition timerinit (s : pics) : pics :=
  picenable IRQ_TIMER (Pics (irqmask s) (outbs [(0x43, 0x34); (0x40, TIMER_DIV 100 mod 256); (0x40, TIMER_DIV 100 / 256)] (pic_out s))).

(** ** The I/O controller *)

Definition REG_ID : Z := 0x00.
Definition REG_VER : Z := 0x01.
Definition REG_TABLE : Z := 0x10.
Definition INT_DISABLED : Z := 0x00010000.
Record ioapic := Ioapic { io_sel : Z; io_regs : Z -> Z }.
Definition ioapicread (reg : Z) (a : ioapic) : Z * ioapic := (io_regs a reg, Ioapic reg (io_regs a)).
Definition ioapicwrite (reg data : Z) (a : ioapic) : ioapic := Ioapic reg (fun r => if r =? reg then u32 data else io_regs a r).
Definition ioapicinit (ismp : bool) (a : ioapic) : ioapic :=
  if negb ismp then a else
  let '(ver, a) := ioapicread REG_VER a in
  let maxintr := Z.land (Z.shiftr ver 16) 0xFF in
  let '(_, a) := ioapicread REG_ID a in
  fold_left (fun a i => ioapicwrite (REG_TABLE + 2 * i + 1) 0 (ioapicwrite (REG_TABLE + 2 * i) (Z.lor INT_DISABLED (T_IRQ0 + i)) a)) (seqZ 0 (maxintr + 1)) a.
Definition ioapicenable (ismp : bool) (irq cpunum : Z) (a : ioapic) : ioapic :=
  if negb ismp then a else ioapicwrite (REG_TABLE + 2 * irq + 1) (Z.shiftl cpunum 24) (ioapicwrite (REG_TABLE + 2 * irq) (T_IRQ0 + irq) a).

(** ** The local controller *)

Module Lapic.
Definition ID : Z := 0x0020 / 4.
Definition VER : Z := 0x0030 / 4.
Definition TPR : Z := 0x0080 / 4.
Definition EOI : Z := 0x00B0 / 4.
Definition SVR : Z := 0x00F0 / 4.
Definition ENABLE : Z := 0x00000100.
Definition ESR : Z := 0x0280 / 4.
Definition ICRLO : Z := 0x0300 / 4.
Definition INIT : Z := 0x00000500.
Definition STARTUP : Z := 0x00000600.
Definition ASSERT : Z := 0x00004000.
Definition LEVEL : Z := 0x00008000.
Definition BCAST : Z := 0x00080000.
Definition ICRHI : Z := 0x0310 / 4.
Definition TIMER : Z := 0x0320 / 4.
Definition X1 : Z := 0x0000000B.
Definition PERIODIC : Z := 0x00020000.
Definition PCINT : Z := 0x0340 / 4.
Definition LINT0 : Z := 0x0350 / 4.
Definition LINT1 : Z := 0x0360 / 4.
Definition ERROR : Z := 0x0370 / 4.
Definition MASKED : Z := 0x00010000.
Definition TICR : Z := 0x0380 / 4.
Definition TDCR : Z := 0x03E0 / 4.
End Lapic.
Import Lapic.
Definition IRQ_ERROR : Z := 19.
Definition IRQ_SPURIOUS : Z := 31.

(** The writes of each routine; [ver] and [id] are what the registers VER and ID
    read, [lapic] whether there is a controller. *)
Definition lapicw (index value : Z) : Z * Z := (index, u32 value).
Definition lapicinit (lapic : bool) (ver : Z) : trace :=
  if negb lapic then [] else
  [lapicw SVR (Z.lor ENABLE (T_IRQ0 + IRQ_SPURIOUS)); lapicw TDCR X1; lapicw TIMER (Z.lor PERIODIC (T_IRQ0 + IRQ_TIMER)); lapicw TICR 10000000;
   lapicw LINT0 MASKED; lapicw LINT1 MASKED] ++
  (if 4 <=? Z.land (Z.shiftr ver 16) 0xFF then [lapicw PCINT MASKED] else []) ++
  [lapicw ERROR (T_IRQ0 + IRQ_ERROR); lapicw ESR 0; lapicw ESR 0; lapicw EOI 0; lapicw ICRHI 0; lapicw ICRLO (Z.lor (Z.lor BCAST INIT) LEVEL); lapicw TPR 0].
Definition cpunum (lapic : bool) (id : Z) : Z := if lapic then Z.shiftr id 24 else 0.
Definition lapicid (lapic : bool) (id : Z) : Z := if negb lapic then 0 else Z.shiftr id 24.
Definition lapiceoi (lapic : bool) : trace := if lapic then [lapicw EOI 0] else [].

(** The CMOS ports, the two halves of the warm reset vector, and the local
    controller's commands. *)
Record start_ap := StartAp { cmos_out : trace; wrv : list Z; apic_out : trace }.
Definition lapicstartap (apicid addr : Z) : start_ap :=
  let icr := [lapicw ICRHI (Z.shiftl apicid 24); lapicw ICRLO (Z.lor STARTUP (Z.shiftr addr 12))] in
  StartAp [(0x70, 0xF); (0x71, 0x0A)] [0; u16 (Z.shiftr addr 4)]
    ([lapicw ICRHI (Z.shiftl apicid 24); lapicw ICRLO (Z.lor (Z.lor INIT LEVEL) ASSERT); lapicw ICRLO (Z.lor INIT LEVEL)] ++ icr ++ icr).

(** ** The clock *)

Record rtcdate := Rtc { second : Z; minute : Z; hour : Z; day : Z; month : Z; year : Z }.
#[global] Instance rtcdate_eq : EqDecision rtcdate.
Proof. solve_decision. Defined.
Definition CMOS_STATA : Z := 0x0a.
Definition CMOS_STATB : Z := 0x0b.
Definition CMOS_UIP : Z := Z.shiftl 1 7.

Section clock.
(** What register [reg] of the clock gives when it is the [n]th one read. *)
Context (rtc : nat -> Z -> Z).
Definition cmos_read (reg : Z) (n : nat) : Z * nat := (u8 (rtc n reg), S n).
Definition fill_rtcdate (n : nat) : rtcdate * nat :=
  let '(s, n) := cmos_read 0x00 n in let '(mi, n) := cmos_read 0x02 n in let '(h, n) := cmos_read 0x04 n in
  let '(d, n) := cmos_read 0x07 n in let '(mo, n) := cmos_read 0x08 n in let '(y, n) := cmos_read 0x09 n in
  (Rtc s mi h d mo y, n).
(** [for(;;)]; no date within the fuel is a loop still running. *)
Fixpoint cmos_loop (fuel n : nat) : option (rtcdate * nat) :=
  match fuel with
  | O => None
  | S fuel' =>
    let '(t1, n) := fill_rtcdate n in
    let '(a, n) := cmos_read CMOS_STATA n in
    if negb (Z.land a CMOS_UIP =? 0) then cmos_loop fuel' n else
    let '(t2, n) := fill_rtcdate n in
    if bool_decide (t1 = t2) then Some (t1, n) else cmos_loop fuel' n
  end.
Definition conv (x : Z) : Z := Z.shiftr x 4 * 10 + Z.land x 0xf.
Definition conv_date (t : rtcdate) : rtcdate := Rtc (conv (second t)) (conv (minute t)) (conv (hour t)) (conv (day t)) (conv (month t)) (conv (year t)).
Definition cmostime (fuel : nat) : option rtcdate :=
  let '(sb, n) := cmos_read CMOS_STATB 0 in
  let bcd := Z.land sb (Z.shiftl 1 2) =? 0 in
  match cmos_loop fuel n with
  | None => None
  | Some (t1, _) =>
    let t1 := if bcd then conv_date t1 else t1 in
    Some (Rtc (second t1) (minute t1) (hour t1) (day t1) (month t1) (year t1 + 2000))
  end.
End clock.

(** ** Which interrupts arrive *)

Lemma last_out_app port tr p v : last_out port (outb p v tr) = if p =? port then Some (u8 v) else last_out port tr.
Proof.
  unfold outb. induction tr as [|[q w] tr IH]; cbn; [by destruct (p =? port)|]. rewrite IH. by destruct (p =? port).
Qed.
(** The masks in force leave exactly the interrupts [on] open. *)
Record masks (on : list Z) (s : pics) : Prop := {
  mask_range : 0 <= irqmask s < 65536;
  mask_bits i : 0 <= i < 16 -> Z.testbit (irqmask s) i = negb (bool_decide (i ∈ on));
  mask_low : last_out 0x21 (pic_out s) = Some (u8 (irqmask s));
  mask_high : last_out 0xA1 (pic_out s) = Some (u8 (Z.shiftr (irqmask s) 8)) }.
Lemma testbit_above x n k : 0 <= n <= k -> 0 <= x < 2 ^ n -> Z.testbit x k = false.
Proof.
  intros Hk Hx. destruct (decide (x = 0)) as [->|]; [apply Z.bits_0|]. apply Z.bits_above_log2; [lia|].
  enough (Z.log2 x < n) by lia. apply Z.log2_lt_pow2; lia.
Qed.
Lemma ldiff_range x b n : 0 <= n -> 0 <= x < 2 ^ n -> 0 <= Z.ldiff x b < 2 ^ n.
Proof.
  intros Hn Hx. assert (Z.ldiff x b mod 2 ^ n = Z.ldiff x b) as <-; [|apply Z.mod_pos_bound; lia].
  apply Z.bits_inj'. intros k Hk. destruct (Z.ltb_spec k n).
  - by rewrite Z.mod_pow2_bits_low.
  - by rewrite Z.mod_pow2_bits_high, Z.ldiff_spec, (testbit_above x n k) by lia.
Qed.
Lemma setmask_masks on mask s : 0 <= mask < 65536 -> (forall i, 0 <= i < 16 -> Z.testbit mask i = negb (bool_decide (i ∈ on))) -> masks on (picsetmask mask s).
Proof.
  intros Hm Hb. unfold picsetmask. rewrite u16_small by done. split; cbn [irqmask pic_out]; [done|done| |]; by rewrite !last_out_app.
Qed.
Lemma enable_masks on irq s : masks on s -> 0 <= irq < 16 -> masks (irq :: on) (picenable irq s).
Proof.
  intros [Hr Hb _ _] Hi. unfold picenable. rewrite <- Z.ldiff_land. apply setmask_masks; [by apply (ldiff_range _ _ 16)|].
  intros i Hi'. rewrite Z.ldiff_spec, Hb by done. rewrite Z.shiftl_spec by lia. destruct (decide (i = irq)) as [->|Hne].
  - rewrite Z.sub_diag, (bool_decide_eq_true_2 (irq ∈ irq :: on)) by set_solver. cbn. by rewrite andb_false_r.
  - rewrite (bool_decide_ext (i ∈ irq :: on) (i ∈ on)) by set_solver. replace (Z.testbit 1 (i - irq)) with false; [by rewrite andb_true_r|].
    symmetry. destruct (Z.ltb_spec (i - irq) 0); [by apply Z.testbit_neg_r|]. apply (testbit_above 1 1); lia.
Qed.

(** After [picinit] and any calls of [picenable], the controllers let through the
    interrupts asked for, the line of the second controller, and no others. *)
Theorem pic_delivers irqs : Forall (fun i => 0 <= i < 16) irqs ->
  masks (rev irqs ++ [IRQ_SLAVE]) (fold_left (fun s i => picenable i s) irqs (picinit pics_start)).
Proof.
  assert (masks [IRQ_SLAVE] (picinit pics_start)) as H.
  { split; [by vm_compute| |by vm_compute|by vm_compute]. intros i Hi. apply (every 16 (fun i => eqb (Z.testbit (irqmask (picinit pics_start)) i)
      (negb (bool_decide (i ∈ [IRQ_SLAVE]))))) in Hi; [by apply eqb_prop in Hi|by vm_compute]. }
  revert H. generalize (picinit pics_start) as s, [IRQ_SLAVE] as on. induction irqs as [|i irqs IH]; intros s on H Hi; [done|].
  apply list.Forall_cons in Hi as [Hi Hs]. cbn [fold_left rev]. rewrite <- app_assoc. apply IH; [by apply enable_masks|done].
Qed.
Lemma pic_delivers_witness : masks [14; 1; 2] (picenable 14 (picenable 1 (picinit pics_start))).
Proof. apply (pic_delivers [1; 14]). repeat constructor; lia. Defined.

(** The entry of an interrupt in the I/O controller's table. *)
Definition redirection (a : ioapic) (i : Z) : Z * Z := (io_regs a (REG_TABLE + 2 * i), io_regs a (REG_TABLE + 2 * i + 1)).
Lemma redirection_write a i j lo hi : redirection (ioapicwrite (REG_TABLE + 2 * j + 1) hi (ioapicwrite (REG_TABLE + 2 * j) lo a)) i =
  if i =? j then (u32 lo, u32 hi) else redirection a i.
Proof.
  unfold redirection, ioapicwrite. cbn [io_regs]. destruct (Z.eqb_spec i j) as [->|Hne].
  - rewrite (proj2 (Z.eqb_neq (REG_TABLE + 2 * j) (REG_TABLE + 2 * j + 1))), !Z.eqb_refl by lia. done.
  - by rewrite !(proj2 (Z.eqb_neq _ _)) by lia.
Qed.
Lemma init_entries l : forall a i, redirection (fold_left (fun a i => ioapicwrite (REG_TABLE + 2 * i + 1) 0
    (ioapicwrite (REG_TABLE + 2 * i) (Z.lor INT_DISABLED (T_IRQ0 + i)) a)) l a) i =
  if bool_decide (i ∈ l) then (u32 (Z.lor INT_DISABLED (T_IRQ0 + i)), 0) else redirection a i.
Proof.
  induction l as [|j l IH]; intros a i; cbn [fold_left]; [done|]. rewrite IH, redirection_write. destruct (decide (i ∈ l)) as [Hi|Hi].
  - by rewrite !bool_decide_eq_true_2 by set_solver.
  - rewrite (bool_decide_eq_false_2 (i ∈ l)) by done. destruct (Z.eqb_spec i j) as [->|Hij].
    + by rewrite bool_decide_eq_true_2 by set_solver.
    + by rewrite bool_decide_eq_false_2 by set_solver.
Qed.
(** The processor an interrupt was last routed to. *)
Fixpoint routed (i : Z) (l : list (Z * Z)) : option Z :=
  match l with [] => None | (j, c) :: l' => match routed i l' with Some d => Some d | None => if i =? j then Some c else None end end.

(** After [ioapicinit] and any calls of [ioapicenable], an interrupt that was
    enabled arrives as trap [T_IRQ0 + i] at the processor named last, and every
    other one is masked. *)
Theorem ioapic_delivers l a i : 0 <= i <= Z.land (Z.shiftr (io_regs a REG_VER) 16) 0xFF ->
  redirection (fold_left (fun a p => ioapicenable true p.1 p.2 a) l (ioapicinit true a)) i =
  match routed i l with
  | Some c => (T_IRQ0 + i, u32 (Z.shiftl c 24))
  | None => (Z.lor INT_DISABLED (T_IRQ0 + i), 0)
  end.
Proof.
  intros Hi. assert (i < 256) as Hb.
  { pose proof (Z.land_ones (Z.shiftr (io_regs a REG_VER) 16) 8 ltac:(lia)) as E. change (Z.ones 8) with 0xFF in E. rewrite E in Hi.
    pose proof (Z.mod_pos_bound (Z.shiftr (io_regs a REG_VER) 16) (2 ^ 8) ltac:(lia)). lia. }
  assert (redirection (ioapicinit true a) i = (Z.lor INT_DISABLED (T_IRQ0 + i), 0)) as H0.
  { unfold ioapicinit, ioapicread. cbn [negb fst snd io_regs]. rewrite init_entries, bool_decide_eq_true_2 by (apply elem_of_seqZ; lia).
    assert (0 <= i < 256) as Hi' by lia. apply (every 256 (fun i => u32 (Z.lor INT_DISABLED (T_IRQ0 + i)) =? Z.lor INT_DISABLED (T_IRQ0 + i))) in Hi';
      [|by vm_compute]. apply Z.eqb_eq in Hi'. by rewrite Hi'. }
  revert H0. generalize (ioapicinit true a) as b. clear -Hi Hb.
  assert (forall b, redirection (fold_left (fun a p => ioapicenable true p.1 p.2 a) l b) i =
            match routed i l with Some c => (T_IRQ0 + i, u32 (Z.shiftl c 24)) | None => redirection b i end) as G.
  { induction l as [|[j c] l IH]; intros b; cbn [fold_left routed fst snd]; [done|]. rewrite IH. destruct (routed i l); [done|].
    unfold ioapicenable. cbn [negb]. rewrite redirection_write. destruct (Z.eqb_spec i j) as [->|]; [|done].
    unfold T_IRQ0. by rewrite u32_small by lia. }
  intros b H. rewrite G. by destruct (routed i l).
Qed.
Lemma ioapic_delivers_witness :
  redirection (fold_left (fun a p => ioapicenable true p.1 p.2 a) [(14, 3); (1, 0)] (ioapicinit true (Ioapic 0 (fun _ => 0x170011)))) 14 = (46, 0x3000000).
Proof. rewrite (ioapic_delivers [(14, 3); (1, 0)] (Ioapic 0 (fun _ => 0x170011)) 14); [reflexivity|vm_compute; split; discriminate]. Defined.

(** ** Starting a processor *)

(** The commands that carry [STARTUP] name the page the code is on, and the warm
    reset vector points at it. *)
Theorem startap_vector apicid addr : is_byte apicid -> 0 <= addr < 2 ^ 20 -> addr mod 4096 = 0 ->
  let s := lapicstartap apicid addr in
  Forall (fun w => w.1 = ICRLO -> Z.land w.2 0x700 = STARTUP -> Z.land w.2 0xFF * 4096 = addr) (apic_out s) /\
  length (List.filter (fun w => (w.1 =? ICRLO) && (Z.land w.2 0x700 =? STARTUP)) (apic_out s)) = 2%nat /\
  Forall (fun w => w.1 = ICRHI -> Z.shiftr w.2 24 = apicid) (apic_out s) /\
  (exists seg, wrv s = [0; seg] /\ seg * 16 = addr).
Proof.
  intros Ha Hr Hm s. unfold is_byte in Ha. assert (exists k, addr = 4096 * k /\ 0 <= k < 256) as (k & -> & Hk) by (exists (addr / 4096); dlia).
  assert (Z.shiftr (4096 * k) 12 = k) as E1 by (rewrite Z.shiftr_div_pow2 by lia; dlia).
  assert (Z.shiftr (4096 * k) 4 = 256 * k) as E2 by (rewrite Z.shiftr_div_pow2 by lia; dlia).
  assert (u32 (Z.shiftl apicid 24) = apicid * 2 ^ 24) as E3 by (rewrite Z.shiftl_mul_pow2 by lia; apply u32_small; lia).
  assert (Z.shiftr (apicid * 2 ^ 24) 24 = apicid) as E4 by (rewrite Z.shiftr_div_pow2 by lia; dlia).
  pose proof (every 256 (fun k => (Z.land (u32 (Z.lor STARTUP k)) 0x700 =? STARTUP) && (Z.land (u32 (Z.lor STARTUP k)) 0xFF =? k)) ltac:(by vm_compute) k Hk) as [K1 K2]%andb_prop.
  apply Z.eqb_eq in K1, K2. unfold s, lapicstartap. cbn [apic_out wrv]. rewrite E1, E2. unfold lapicw. rewrite E3. cbn [app].
  split_and!.
  - repeat constructor; cbn [fst snd]; try done; intros _ _; rewrite K2; lia.
  - cbn [List.filter fst snd]. rewrite K1. reflexivity.
  - repeat constructor; cbn [fst snd]; try done.
  - exists (256 * k). rewrite u16_small by lia. split; [done|lia].
Qed.
Lemma startap_vector_witness : exists seg, wrv (lapicstartap 3 0x7000) = [0; seg] /\ seg * 16 = 0x7000.
Proof. destruct (startap_vector 3 0x7000) as (_ & _ & _ & H); [split; lia|lia|reflexivity|exact H]. Defined.

(** ** Reading the clock *)

Section reading.
Context (rtc : nat -> Z -> Z).
(** The date that six reads from the [n]th on give. *)
Definition date_at (n : nat) : rtcdate :=
  Rtc (u8 (rtc n 0x00)) (u8 (rtc (n + 1) 0x02)) (u8 (rtc (n + 2) 0x04)) (u8 (rtc (n + 3) 0x07)) (u8 (rtc (n + 4) 0x08)) (u8 (rtc (n + 5) 0x09)).
Lemma fill_date n : fill_rtcdate rtc n = (date_at n, n + 6)%nat.
Proof. unfold fill_rtcdate, cmos_read, date_at. rewrite !Nat.add_succ_r, Nat.add_0_r. done. Qed.
(** A date is returned only when it was read twice with no update in progress in between. *)
Lemma cmos_loop_sound fuel : forall n t n', cmos_loop rtc fuel n = Some (t, n') ->
  exists k, (n <= k)%nat /\ t = date_at k /\ Z.land (u8 (rtc (k + 6) CMOS_STATA)) CMOS_UIP = 0 /\ t = date_at (k + 7).
Proof.
  induction fuel as [|fuel IH]; intros n t n' H; [done|]. cbn [cmos_loop] in H. rewrite fill_date in H. cbn [cmos_read] in H. rewrite fill_date in H.
  destruct (Z.eqb_spec (Z.land (u8 (rtc (n + 6) CMOS_STATA)) CMOS_UIP) 0) as [E|E]; cbn [negb] in H.
  - case_bool_decide as Ed.
    + injection H as <- <-. exists n. replace (n + 7)%nat with (S (n + 6)) by lia. by split_and!.
    + apply IH in H as (k & Hk & Hd). exists k. split; [lia|done].
  - apply IH in H as (k & Hk & Hd). exists k. split; [lia|done].
Qed.
End reading.

Definition bcd_of (x : Z) : Z := Z.lor (Z.shiftl (x / 10) 4) (x mod 10).
Lemma conv_bcd x : 0 <= x < 100 -> conv (bcd_of x) = x /\ u8 (bcd_of x) = bcd_of x.
Proof.
  intros Hx. pose proof (every 100 (fun x => (conv (bcd_of x) =? x) && (u8 (bcd_of x) =? bcd_of x)) ltac:(by vm_compute) x Hx) as [H1 H2]%andb_prop.
  by apply Z.eqb_eq in H1, H2.
Qed.
(** The registers of a clock that shows a date, in binary or in decimal digits. *)
Definition shows (bcd : bool) (t : rtcdate) (reg : Z) : Z :=
  let f := if bcd then bcd_of else id in
  if reg =? 0x00 then f (second t) else if reg =? 0x02 then f (minute t) else if reg =? 0x04 then f (hour t)
  else if reg =? 0x07 then f (day t) else if reg =? 0x08 then f (month t) else if reg =? 0x09 then f (year t)
  else if reg =? CMOS_STATB then (if bcd then 2 else 6) else 0.
Definition two_digits (t : rtcdate) : Prop := Forall (fun x => 0 <= x < 100) [second t; minute t; hour t; day t; month t; year t].

(** A clock that does not change meanwhile is read in one pass, whichever way it
    writes its numbers. *)
Theorem cmostime_reads_clock bcd t fuel : two_digits t -> (0 < fuel)%nat ->
  cmostime (fun _ => shows bcd t) fuel = Some (Rtc (second t) (minute t) (hour t) (day t) (month t) (year t + 2000)).
Proof.
  intros Ht Hf. unfold two_digits in Ht. rewrite !list.Forall_cons in Ht. destruct Ht as (H1 & H2 & H3 & H4 & H5 & H6 & _).
  destruct fuel as [|fuel]; [lia|]. unfold cmostime. cbn [cmos_read cmos_loop]. rewrite fill_date. cbn [cmos_read]. rewrite fill_date.
  unfold date_at, shows, CMOS_STATA, CMOS_STATB. cbn [Z.eqb Pos.eqb]. destruct bcd.
  - rewrite !(fun x H => proj2 (conv_bcd x H)) by done. change (Z.land (u8 0) CMOS_UIP =? 0) with true. cbn [negb].
    rewrite bool_decide_eq_true_2 by done. change (Z.land (u8 2) (Z.shiftl 1 2) =? 0) with true. cbn [conv_date second minute hour day month year].
    by rewrite !(fun x H => proj1 (conv_bcd x H)) by done.
  - cbn [id]. rewrite !u8_small by lia. change (Z.land 0 CMOS_UIP =? 0) with true. cbn [negb]. rewrite bool_decide_eq_true_2 by done.
    change (Z.land 6 (Z.shiftl 1 2) =? 0) with false. done.
Qed.
Lemma cmostime_reads_clock_witness : cmostime (fun _ => shows true (Rtc 59 30 12 24 6 24)) 1 = Some (Rtc 59 30 12 24 6 2024).
Proof. apply (cmostime_reads_clock true (Rtc 59 30 12 24 6 24) 1); [repeat constructor; cbn; lia|lia]. Defined.
