(* ===== verification/Uart.v ===== *)
(** The serial ports ([uart.c]): two ports with the console's line discipline on
    each ([consoleintr], Console.v).

    A write to an I/O port is an element of a trace (Interrupts.v); the characters
    waiting in a port when it interrupts are an argument, and so is whether the
    port answers.  Waiting for the transmitter is left out. *)

From S2P Require Import Prelude Console Interrupts.
Local Open Scope Z_scope.

Record port := Port { p_addr : Z; uartin : inputbuf }.
(** [driver]: the functions of device 4 are those for no port, or the real ones. *)
Record uarts := Uarts { uart : bool; uartn : Z; ports : list port; driver : option bool; wire : trace; uart_irqs : list Z }.
Definition set_ports v u := Uarts (uart u) (uartn u) v (driver u) (wire u) (uart_irqs u).
Definition set_wire v u := Uarts (uart u) (uartn u) (ports u) (driver u) v (uart_irqs u).
Definition set_driver on v u := Uarts on (uartn u) (ports u) (Some v) (wire u) (uart_irqs u).
Definition COM1 : Z := 0x3f8.

(** [&uarts[i]]: outside the table, a stray access. *)
Definition port_at (i : Z) : M uarts port := fun u =>
  match (if i <? 0 then None else ports u !! Z.to_nat i) with Some p => Ok p u | None => Panic "fault" u end.
Definition put_port (i : Z) (p : port) : M uarts unit := modify (fun u => set_ports (<[Z.to_nat i := p]> (ports u)) u).
Definition out (a v : Z) : M uarts unit := modify (fun u => set_wire (outb a v (wire u)) u).

Definition uartputc (saddr c : Z) : M uarts unit :=
  u ← gets uart;
  if negb u then mret tt else out (u16 saddr + 0) (if c =? BACKSPACE then ctl 72 else c).
Definition sysuartputc (c : Z) : M uarts unit := p ← port_at 0; uartputc (p_addr p) c.
Definition earlyuartputc (c : Z) : M uarts unit := out (COM1 + 0) (if c =? 8 then 72 - 64 else c).
Definition earlyuartprintstr (str : list Z) : M uarts unit := for_each str earlyuartputc.

Definition IRQ_COM1 : Z := 4.
Definition IRQ_COM2 : Z := 3.
(** [present] is false when the status port reads 0xFF. *)
Definition uartinit (addr : Z) (present : bool) : M uarts unit :=
  n ← gets uartn;
  p ← port_at n;
  put_port n (Port addr (uartin p)) ;;
  out (addr + 2) 0 ;; out (addr + 3) 0x80 ;; out (addr + 0) (115200 / 9600) ;; out (addr + 1) 0 ;;
  out (addr + 3) 0x03 ;; out (addr + 4) 0 ;; out (addr + 1) 0x01 ;;
  u ← gets uart;
  if negb present then (if negb u then modify (set_driver false false) else mret tt) else
  (if negb u then modify (set_driver true true) else mret tt) ;;
  assert_or (n <=? 1) "uartn > 1" ;;
  modify (fun u => Uarts (uart u) (n + 1) (ports u) (driver u) (wire u) (uart_irqs u ++ [if n =? 0 then IRQ_COM1 else IRQ_COM2])).

(** [uartgetc] yields what is waiting, one character a call, then -1. *)
Definition uartgetc (on : bool) (waiting : list Z) : list Z := if negb on then [] else u8 <$> waiting.
Definition uartintr (i : Z) (waiting : list Z) : M uarts unit :=
  n ← gets uartn;
  if n <=? i then mret tt else
  p ← port_at i;
  on ← gets uart;
  let '(ib, echo, _, _) := consoleintr (uartgetc on waiting) (uartin p) in
  for_each echo (uartputc (p_addr p)) ;;
  put_port i (Port (p_addr p) ib).

(** The two loops are those of [consoleread]; [None] is the error return. *)
Definition left_in (r : reading) : inputbuf := match r with Done _ ib | Killed ib | Asleep _ _ ib => ib end.
Definition uart_read (minor : Z) (nbytes : nat) (killed : bool) : M uarts (option reading) :=
  n ← gets uartn;
  if n <=? minor then mret None else
  p ← port_at minor;
  let r := read_loop nbytes true killed (uartin p) in
  put_port minor (Port (p_addr p) (left_in r)) ;;
  mret (Some r).
Definition uart_write (minor : Z) (buf : list Z) : M uarts Z :=
  n ← gets uartn;
  if n <=? minor then mret (-1) else
  p ← port_at minor;
  for_each buf (fun b => uartputc (p_addr p) (Z.land b 0xff)) ;;
  mret (Z.of_nat (length buf)).
Definition nouart_read (minor : Z) (nbytes : nat) (killed : bool) : M uarts (option reading) := mret None.
Definition nouart_write (minor : Z) (buf : list Z) : M uarts Z := mret (-1).

(** ** What users of the ports see *)

(** Port [i] is set up and its buffer stands for [d]. *)
Definition on_port (u : uarts) (i : Z) (a : Z) (d : discipline) : Prop :=
  uart u = true /\ 0 <= i < uartn u /\ exists ib, ports u !! Z.to_nat i = Some (Port a ib) /\ rep ib d.
(** The bytes that go out for a character. *)
Definition tx (c : Z) : Z := if c =? BACKSPACE then 8 else u8 c.
Definition sent (a : Z) (cs : list Z) : trace := (fun c => (u16 a, tx c)) <$> cs.

Lemma tx_byte b : tx (Z.land b 0xff) = u8 b.
Proof.
  change 0xff with (Z.ones 8). rewrite Z.land_ones by lia. change (b mod 2 ^ 8) with (u8 b). pose proof (u8_range b). unfold tx, BACKSPACE.
  rewrite (proj2 (Z.eqb_neq _ _)) by lia. by apply u8_small.
Qed.
Lemma port_at_ok u i p : 0 <= i -> ports u !! Z.to_nat i = Some p -> port_at i u = Ok p u.
Proof. intros Hi H. unfold port_at. by rewrite (proj2 (Z.ltb_ge _ _)), H by lia. Qed.
Lemma putc_ok a c u : uart u = true -> uartputc a c u = Ok tt (set_wire (wire u ++ sent a [c]) u).
Proof.
  intros H. unfold uartputc, out, outb. rewrite (bind_ok _ _ u true u) by (unfold gets; by rewrite H). cbn. rewrite Z.add_0_r. unfold tx.
  by destruct (c =? BACKSPACE).
Qed.
Lemma puts_ok a cs : forall u, uart u = true -> for_each cs (uartputc a) u = Ok tt (set_wire (wire u ++ sent a cs) u).
Proof.
  induction cs as [|c cs IH]; intros u H; [by destruct u; cbn; rewrite app_nil_r|]. cbn [for_each].
  rewrite (bind_ok _ _ _ _ _ (putc_ok a c u H)), IH by done. unfold sent. cbn. by rewrite <- app_assoc.
Qed.
Lemma for_each_fmap {S A B} (h : A -> B) (l : list A) (f : B -> M S unit) s : for_each l (fun x => f (h x)) s = for_each (h <$> l) f s.
Proof. revert s. induction l as [|x l IH]; intros s; cbn; [done|]. cbv [mbind M_bind]. by destruct (f (h x) s). Qed.

(** Characters that arrive at a port are edited into its lines, echoed to it, and
    a read of it returns its finished lines; what is written to it goes out of it
    byte for byte.  The other ports are not touched. *)
Theorem uart_serves_lines u i a d : on_port u i a d ->
  (forall waiting, Forall is_byte waiting ->
     let '(d', echo, _) := keys_spec waiting d in exists u', uartintr i waiting u = Ok tt u' /\ on_port u' i a d' /\
     wire u' = wire u ++ sent a echo /\ forall j, j <> i -> 0 <= j -> ports u' !! Z.to_nat j = ports u !! Z.to_nat j) /\
  (forall n, exists u', wire u' = wire u /\ (forall j, j <> i -> 0 <= j -> ports u' !! Z.to_nat j = ports u !! Z.to_nat j) /\
     match take_line n true (queue d) with
     | TDone o q => on_port u' i a (Disc q (edit d)) /\ exists ib, uart_read i n false u = Ok (Some (Done o ib)) u'
     | TWait o k => on_port u' i a (Disc [] (edit d)) /\ exists ib, uart_read i n false u = Ok (Some (Asleep o k ib)) u'
     end) /\
  (forall buf, uart_write i buf u = Ok (Z.of_nat (length buf)) (set_wire (wire u ++ ((fun b => (u16 a, u8 b)) <$> buf)) u)).
Proof.
  intros (Hu & Hi & ib & Hp & R). pose proof (port_at_ok u i _ ltac:(lia) Hp) as EP. pose proof (lookup_lt_Some _ _ _ Hp) as Hl.
  assert (forall ib' d' w, rep ib' d' -> on_port (set_ports (<[Z.to_nat i := Port a ib']> (ports u)) (set_wire w u)) i a d') as Hon.
  { intros ib' d' w R'. split; [done|]. split; [done|]. exists ib'. split; [by apply list_lookup_insert_eq|done]. }
  assert (forall ib' j, j <> i -> 0 <= j -> <[Z.to_nat i := Port a ib']> (ports u) !! Z.to_nat j = ports u !! Z.to_nat j) as Hoff
    by (intros; apply list_lookup_insert_ne; lia).
  split_and!.
  - intros waiting Hw. pose proof (consoleintr_refines waiting ib d R Hw) as K. destruct (keys_spec waiting d) as [[d' echo] wake] eqn:Ed.
    unfold uartintr. erewrite bind_ok by reflexivity. rewrite (proj2 (Z.leb_gt _ _)) by lia. rewrite (bind_ok _ _ _ _ _ EP). cbn [uartin p_addr].
    rewrite (bind_ok _ _ u true u) by (unfold gets; by rewrite Hu). unfold uartgetc. cbn [negb].
    assert (u8 <$> waiting = waiting) as ->.
    { clear -Hw. induction Hw as [|c cs Hc _ IH]; [done|]. cbn. by rewrite IH, u8_small. }
    destruct (consoleintr waiting ib) as [[[ib' echo'] wake'] dump]. destruct K as (R' & -> & _).
    rewrite (bind_ok _ _ _ _ _ (puts_ok a echo u Hu)). eexists. split; [reflexivity|]. split; [by apply Hon|]. split; [done|]. cbn. apply Hoff.
  - intros n. unfold uart_read. pose proof (read_refines n true ib (queue d) (edit d) ltac:(by destruct d)) as K.
    exists (set_ports (<[Z.to_nat i := Port a (left_in (read_loop n true false ib))]> (ports u)) (set_wire (wire u) u)).
    split; [done|]. split; [apply Hoff|].
    assert (forall r, read_loop n true false ib = r -> (n0 ← gets uartn; if n0 <=? i then mret None else p ← port_at i;
       (put_port i (Port (p_addr p) (left_in (read_loop n true false (uartin p)))) ;; mret (Some (read_loop n true false (uartin p))))) u =
       Ok (Some r) (set_ports (<[Z.to_nat i := Port a (left_in r)]> (ports u)) (set_wire (wire u) u))) as E.
    { intros r <-. erewrite bind_ok by reflexivity. rewrite (proj2 (Z.leb_gt _ _)) by lia. rewrite (bind_ok _ _ _ _ _ EP). by destruct u. }
    destruct (take_line n true (queue d)); destruct K as (ib' & Er & R'); rewrite Er; (split; [by apply Hon|]); exists ib'; exact (E _ Er).
  - intros buf. unfold uart_write. erewrite bind_ok by reflexivity. rewrite (proj2 (Z.leb_gt _ _)) by lia. rewrite (bind_ok _ _ _ _ _ EP).
    cbn [p_addr].
    pose proof (puts_ok a ((fun b => Z.land b 0xff) <$> buf) u Hu) as E. rewrite <- for_each_fmap in E. rewrite (bind_ok _ _ _ _ _ E).
    cbn. do 3 f_equal. unfold sent. rewrite <- list_fmap_compose. apply list_fmap_ext. intros _ b _. cbn. by rewrite tx_byte.
Qed.

(** ** Two ports *)

Definition boot_uarts : uarts := Uarts false 0 (replicate 4 (Port 0 (Ib (replicate 128 0) 0 0 0))) None [] [].
Definition two_ports : uarts := match (uartinit COM1 true ;; uartinit 0x2f8 true) boot_uarts with Ok _ u => u | _ => boot_uarts end.
Example two_ports_up : (uart two_ports, uartn two_ports, p_addr <$> ports two_ports, driver two_ports, uart_irqs two_ports) = (true, 2, [COM1; 0x2f8; 0; 0], Some true, [IRQ_COM1; IRQ_COM2]).
Proof. reflexivity. Qed.
Lemma uart_serves_lines_witness : exists u', uartintr 1 [104; 105; 13] two_ports = Ok tt u' /\ on_port u' 1 0x2f8 (Disc [104; 105; 10] []) /\
  wire u' = wire two_ports ++ sent 0x2f8 [104; 105; 10].
Proof.
  destruct (uart_serves_lines two_ports 1 0x2f8 (Disc [] [])) as (H & _).
  - split; [reflexivity|]. split; [change (uartn two_ports) with 2; lia|]. exists (Ib (replicate 128 0) 0 0 0). split; [reflexivity|].
    split; cbn; try done; lia.
  - destruct (H [104; 105; 13]) as (u' & E & P & W & _); [repeat constructor; lia|]. exists u'. exact (conj E (conj P W)).
Defined.

(** A minor number is signed, and only its upper bound is checked: a device file
    with minor number -1 makes the driver use what lies before the table. *)
Example uart_negative_minor : uart_read (-1) 1 false two_ports = Panic "fault" two_ports /\ uart_write (-1) [65] two_ports = Panic "fault" two_ports.
Proof. split; reflexivity. Qed.
