(* ===== verification/Rawdisk.v ===== *)
(** The raw disk devices ([bdisk_read], [bdisk_write] of [bio.c]): reading and
    writing a part of one block of a disk through the buffer cache, with the
    disk's number as the minor number of the device file; and the disk in memory that
    can stand in for the driver ([memide.c]).

    [bread] returns a valid buffer or does not return (Bio.v), so the test of
    [B_VALID] after it always succeeds and is left out.  A copy that leaves the
    buffer is a stray access. *)

From S2P Require Import Prelude Params Bio Disk Fs FsOps FsData.
Import Spec BlockIO.
Local Open Scope Z_scope.

(** Block and offset: [int] division, then stored in [uint]s. *)
Definition raw_block (off : Z) : Z := u32 (Z.quot off 512).
Definition raw_offset (off : Z) : Z := u32 (Z.rem off 512).
Definition raw_refused (off nbytes : Z) : bool := 512 <? u32 (raw_offset off + nbytes).
(** Whether the copy stays inside the block. *)
Definition raw_inside (off nbytes : Z) : bool := (0 <=? nbytes) && (raw_offset off + nbytes <=? 512).

(** [None] is the error return. *)
Definition bdisk_read (minor nbytes off : Z) : prog kfs (option (list Z)) :=
  if raw_refused off nbytes then mret None else
  b ← bread (u32 minor) (raw_block off);
  d ← bdata b;
  if negb (raw_inside off nbytes) then fail "fault" else
  brelse b ;;
  mret (Some (slice d (Z.to_nat (raw_offset off)) (Z.to_nat nbytes))).
Definition bdisk_write (minor : Z) (bf : list Z) (nbytes off : Z) : prog kfs (option Z) :=
  if raw_refused off nbytes then mret None else
  b ← bread (u32 minor) (raw_block off);
  d ← bdata b;
  if negb (raw_inside off nbytes) then fail "fault" else
  bset b (splice d (Z.to_nat (raw_offset off)) (take (Z.to_nat nbytes) bf)) ;;
  bwrite b ;;
  brelse b ;;
  mret (Some nbytes).

Section facts.
Context (present : Z -> bool).
Implicit Types (a : astate) (x : kfs).

(** Bytes [off] to [off + n] are within block [b]. *)
Definition within (b off n : Z) : Prop := 0 <= off < 2 ^ 31 /\ 0 <= n /\ b * 512 <= off /\ off + n <= (b + 1) * 512 /\ off < (b + 1) * 512.
Lemma within_block b off n : within b off n ->
  raw_block off = b /\ raw_offset off = off - b * 512 /\ raw_refused off n = false /\ raw_inside off n = true.
Proof.
  intros H. unfold within in H. assert (off / 512 = b) as Eb by dlia. assert (off mod 512 = off - b * 512) as Em by dlia.
  assert (raw_block off = b) as E1 by (unfold raw_block; rewrite Z.quot_div_nonneg, Eb by lia; apply u32_small; dlia).
  assert (raw_offset off = off - b * 512) as E2 by (unfold raw_offset; rewrite Z.rem_mod_nonneg, Em by lia; apply u32_small; dlia).
  split; [done|]. split; [done|]. unfold raw_refused, raw_inside. rewrite E2, u32_small by lia. split; [apply Z.ltb_ge; lia|].
  rewrite (proj2 (Z.leb_le 0 n)) by lia. apply Z.leb_le. lia.
Qed.

(** A part of a block that is free is read as it stands, and nothing changes. *)
Theorem bdisk_read_spec d b off n x a : readable present a d -> in_u32 d -> b < FSSIZE -> within b off n ->
  Spec.run present (bdisk_read d n off) x a = Ok (Some (slice (view a (d, b)) (Z.to_nat (off - b * 512)) (Z.to_nat n))) (x, a).
Proof.
  intros Hr Hd Hb (E1 & E2 & E3 & E4)%within_block. unfold bdisk_read. rewrite E1, E2, E3, E4, (u32_small d) by done. cbn [negb].
  rewrite (run_read present d b (fun w => mret (Some (slice w _ _))) x a Hr Hb). done.
Qed.

Definition on_disk (h : key) (v : block) a : astate := AState (<[h := v]> (amedia a)) (pin a) (abudget a).
(** A part of a block outside any transaction is changed on the disk, at once, and
    nothing else is. *)
Theorem bdisk_write_spec d b off bf x a : readable present a d -> in_u32 d -> b < FSSIZE -> within b off (Z.of_nat (length bf)) ->
  pin a !! (d, b) = None -> abudget a = None ->
  Spec.run present (bdisk_write d bf (Z.of_nat (length bf)) off) x a =
  Ok (Some (Z.of_nat (length bf))) (x, on_disk (d, b) (splice (view a (d, b)) (Z.to_nat (off - b * 512)) bf) a).
Proof.
  intros [H1 H2 H3] Hd Hb (E1 & E2 & E3 & E4)%within_block Hp Hbud. unfold bdisk_write. rewrite E1, E2, E3, E4, (u32_small d) by done. cbn [negb].
  rewrite (run_bread present []); [|done|apply not_elem_of_nil|done..]. rewrite run_bdata. rewrite Nat2Z.id, take_ge by lia.
  set (v := splice _ _ _). clearbody v. cbn [BlockIO.bset BlockIO.bwrite BlockIO.brelse mbind prog_bind mret prog_ret Spec.run].
  unfold Spec.bset, Spec.bwrite, Spec.brelse, with_busy, hold, set_pin. cbn [pin amedia abudget]. rewrite lookup_insert_eq.
  cbn [p_busy lift_res p_dirty p_data pin].
  rewrite insert_insert_eq, lookup_insert_eq, Hbud. cbn [p_busy lift_res p_dirty p_data pin amedia abudget].
  rewrite insert_insert_eq, lookup_insert_eq.
  cbn [p_busy p_dirty p_data]. rewrite bool_decide_eq_true_2 by (unfold on_media; cbn [amedia]; by rewrite lookup_insert_eq).
  cbn [lift_res fmap option_fmap option_map]. unfold on_disk. by rewrite delete_insert_id, Hbud.
Qed.
Lemma view_on_disk h v a k : pin a !! h = None -> view (on_disk h v a) k = if bool_decide (k = h) then v else view a k.
Proof.
  intros Hp. unfold view, on_disk, on_media. cbn [pin amedia]. case_bool_decide as E; [subst; by rewrite Hp, lookup_insert_eq|].
  destruct (pin a !! k); [done|]. by rewrite lookup_insert_ne.
Qed.

(** What was written is read back. *)
Theorem bdisk_round_trip d b off bf x a : readable present a d -> in_u32 d -> b < FSSIZE -> within b off (Z.of_nat (length bf)) ->
  pin a !! (d, b) = None -> abudget a = None -> length (view a (d, b)) = 512%nat -> exists a',
  Spec.run present (bdisk_write d bf (Z.of_nat (length bf)) off) x a = Ok (Some (Z.of_nat (length bf))) (x, a') /\
  Spec.run present (bdisk_read d (Z.of_nat (length bf)) off) x a' = Ok (Some bf) (x, a') /\
  forall k, k <> (d, b) -> view a' k = view a k.
Proof.
  intros Hr Hd Hb Hw Hp Hbud Hl. eexists. split; [by apply bdisk_write_spec|].
  assert (forall v, readable present (on_disk (d, b) v a) d) as Hr' by (intros v; destruct Hr as [? ? ?]; by split).
  split; [|intros k Hk; rewrite view_on_disk, bool_decide_eq_false_2; done].
  rewrite (bdisk_read_spec d b off _ x _ (Hr' _) Hd Hb Hw), view_on_disk, bool_decide_eq_true_2 by done. destruct Hw as (? & ? & ? & ? & ?).
  rewrite Nat2Z.id, slice_splice by lia. done.
Qed.
End facts.

(** An offset of 2^31 or more arrives as a negative number: the remainder is
    negative too, the sum wraps around the test, and the copy begins before the
    buffer. *)
Example bdisk_before_buffer x : raw_refused (-1) 1 = false /\ Spec.run (fun _ => true) (bdisk_read 1 1 (-1)) x (AState ∅ ∅ None) =
  Panic "fault" (x, hold (1, 0) (AState ∅ ∅ None)).
Proof. split; vm_compute; reflexivity. Qed.
(** Reading behind the end of the disk stops the system. *)
Example bdisk_past_end x : Spec.run (fun _ => true) (bdisk_read 1 1 (FSSIZE * 512)) x (AState ∅ ∅ None) = Panic "incorrect blockno" (x, AState ∅ ∅ None).
Proof. vm_compute. reflexivity. Qed.

(** ** The disk in memory ([memide.c]) *)

Section memdisk.
Import Cache.
(** [size] is the number of blocks of the image, which is the disk 1 of [media]. *)
Context (memdisk_size : Z).
Definition mem_iderw (i : nat) : M bstate unit := fun s =>
  match bufs s !! i with
  | None => Panic "no such buffer" s
  | Some b =>
    if negb (has (flags b) B_BUSY) then Panic "iderw: buf not busy" s else
    if Z.land (flags b) (Z.lor B_VALID B_DIRTY) =? B_VALID then Panic "iderw: nothing to do" s else
    if negb (dev b =? 1) then Panic "iderw: request not for disk 1" s else
    if memdisk_size <=? blockno b then Panic "iderw: block out of range" s else
    if has (flags b) B_DIRTY
    then Ok tt {| bufs := <[i := set_flags (setf (clrf (flags b) B_DIRTY) B_VALID) b]> (bufs s); lru := lru s;
                  media := <[b_key b := data b]> (media s); budget := budget s |}
    else Ok tt (set_buf i (set_flags (setf (flags b) B_VALID) (set_data (default zero_block (media s !! b_key b)) b)) s)
  end.

Lemma flags_commute f : setf (clrf f B_DIRTY) B_VALID = clrf (setf f B_VALID) B_DIRTY.
Proof.
  unfold setf, clrf. apply Z.bits_inj'. intros n Hn. rewrite Z.lor_spec, !Z.ldiff_spec, Z.lor_spec.
  destruct (Z.testbit f n), (Z.testbit B_DIRTY n) eqn:E1, (Z.testbit B_VALID n) eqn:E2; try done.
  all: exfalso; assert (Z.land B_DIRTY B_VALID = 0) as H by reflexivity; apply (f_equal (fun x => Z.testbit x n)) in H;
    rewrite Z.land_spec, E1, E2, Z.bits_0 in H; done.
Qed.
Lemma flags_clean f : has f B_DIRTY = false -> setf f B_VALID = clrf (setf f B_VALID) B_DIRTY.
Proof.
  intros H. rewrite <- flags_commute. f_equal. unfold has in H. apply negb_false_iff, Z.eqb_eq in H. unfold clrf.
  apply Z.bits_inj'. intros n Hn. rewrite Z.ldiff_spec. apply (f_equal (fun x => Z.testbit x n)) in H. rewrite Z.land_spec, Z.bits_0 in H.
  by destruct (Z.testbit f n), (Z.testbit B_DIRTY n).
Qed.
(** For the blocks of the image the disk in memory does what the drive does. *)
Theorem mem_iderw_is_diskrw present i b s : bufs s !! i = Some b -> present 1 = true -> dev b = 1 -> blockno b < memdisk_size -> memdisk_size <= FSSIZE ->
  budget s = None -> mem_iderw i s = Cache.diskrw present i s.
Proof.
  intros Hb Hp Hd Hn Hs Hbud. unfold mem_iderw, diskrw. rewrite Hb, Hd, Hp. cbn [negb].
  rewrite (proj2 (Z.leb_gt memdisk_size _)), (proj2 (Z.leb_gt FSSIZE _)) by lia.
  destruct (negb (has (flags b) B_BUSY)); [done|]. destruct (_ =? B_VALID); [done|]. change (1 =? 1) with true. cbn [negb].
  destruct (has (flags b) B_DIRTY) eqn:E; rewrite ?Hbud; cbn [fmap option_fmap option_map].
  - by rewrite flags_commute.
  - unfold set_data at 2. cbn [flags]. by rewrite <- flags_clean.
Qed.
End memdisk.
