(* ===== verification/Programs.v ===== *)
(** Small programs: [cat.c], [wc.c], [cp.c], [echo.c], [ls.c], [rfperms.c],
    [chperms.c], [sysctl.c], [uname.c], [login.c], and the shell's reading of its input
    ([getcmd] and [main] of [sh.c]).

    A file that is read is the list of the results of [read]: the bytes of each, or
    [None] for an error; after the last comes the end of the file.  What a program
    writes to a descriptor is a list of bytes. *)

From S2P Require Import Prelude Params CString Fs Format Shell Devices Devd.
Local Open Scope Z_scope.

Abbreviation reads := (list (option (list Z))).
Definition plain_reads (chunks : list (list Z)) : reads := Some <$> chunks.

(** ** cat *)

(** The output, and whether the end was reached without an error. *)
Fixpoint cat (rs : reads) : list Z * bool :=
  match rs with
  | [] => ([], true)
  | None :: _ => ([], false)
  | Some [] :: _ => ([], true)
  | Some bs :: rs' => let '(out, ok) := cat rs' in (bs ++ out, ok)
  end.
(** [main]: an error, or a file that cannot be opened, ends the program. *)
Fixpoint cat_files (fs : list (option reads)) : list Z * bool :=
  match fs with
  | [] => ([], true)
  | None :: _ => ([], false)
  | Some rs :: fs' =>
    let '(out, ok) := cat rs in
    if ok then let '(out', ok') := cat_files fs' in (out ++ out', ok') else (out, false)
  end.

(** ** wc *)

Record counts := Counts { c_l : Z; c_w : Z; c_c : Z; inword : bool }.
Definition wc_space (c : Z) : bool := bool_decide (c ∈ [32; 13; 9; 10; 11]).
Definition wc_byte (s : counts) (b : Z) : counts :=
  let l := if b =? 10 then s32 (c_l s + 1) else c_l s in
  let c := s32 (c_c s + 1) in
  if wc_space b then Counts l (c_w s) c false
  else if negb (inword s) then Counts l (s32 (c_w s + 1)) c true else Counts l (c_w s) c true.
(** [None]: a read error. *)
Fixpoint wc_loop (rs : reads) (s : counts) : option counts :=
  match rs with
  | [] => Some s
  | None :: _ => None
  | Some [] :: _ => Some s
  | Some bs :: rs' => wc_loop rs' (fold_left wc_byte bs s)
  end.
Definition wc (rs : reads) : option (Z * Z * Z) := (fun s => (c_l s, c_w s, c_c s)) <$> wc_loop rs (Counts 0 0 0 false).

(** ** cp *)

(** [buf] is 1024 bytes of the stack; a read fills its front, and the whole buffer
    is written.  An error is not the end of the file: the buffer is written again. *)
Fixpoint cp_loop (buf : list Z) (rs : reads) : list Z :=
  match rs with
  | [] => []
  | Some [] :: _ => []
  | None :: rs' => buf ++ cp_loop buf rs'
  | Some bs :: rs' => let buf' := bs ++ drop (length bs) buf in buf' ++ cp_loop buf' rs'
  end.

(** ** echo *)

Fixpoint echo (args : list (list Z)) : list Z :=
  match args with
  | [] => []
  | [a] => a ++ [10]
  | a :: args' => a ++ [32] ++ echo args'
  end.

(** ** ls *)

Definition ls_type (t : Z) : list Z := text (if t =? T_FILE then "File  " else if t =? T_DIR then "Direct" else "Device").
(** The buffer of [fmtname] has no room for a NUL behind a padded name: [after] are
    the bytes of memory that follow it, up to a NUL. *)
Definition fmtname (after path : list Z) : list Z :=
  if (DIRSIZ + 1 <=? length (basename path))%nat then fmtnamen path (DIRSIZ + 1) else fmtnamen path (DIRSIZ + 1) ++ after.
Definition fmtfield (data : list Z) (fieldsize : nat) : option (list Z) := until0 <$> fmtfieldn data fieldsize 32 64.
Definition ls_line (after path : list Z) (st : stat) : option (list Z) :=
  ino ← fmtfield (swriteint (st_ino st) 10 false) 5;
  size ← fmtfield (swriteint (st_size st) 10 false) 7;
  owner ← fmtfield (swriteint (st_owner st) 10 true) 5;
  perms ← fmtpermsn (st_perms st) 16;
  Some (fmtname after path ++ [32] ++ ls_type (st_type st) ++ [32] ++ ino ++ [32] ++ size ++ [32] ++ owner ++ [32] ++ until0 perms ++ [10]).
(** The entries of a directory: inode number and name.  Those without an inode are
    passed over, and so, with a message, are those that [stat] refuses. *)
Section ls.
Context (after : list Z) (stat_of : list Z -> option stat).
Definition ls_path (path name : list Z) : list Z := path ++ [47] ++ until0 (take DIRSIZ name).
Fixpoint ls_entries (path : list Z) (es : list (Z * list Z)) : option (list Z) :=
  match es with
  | [] => Some []
  | (inum, name) :: es' =>
    if inum =? 0 then ls_entries path es' else
    match stat_of (ls_path path name) with
    | None => ls_entries path es'
    | Some st => l ← ls_line after (ls_path path name) st; r ← ls_entries path es'; Some (l ++ r)
    end
  end.
(** [ls] of a path that was opened, with its status. *)
Definition ls (path : list Z) (st : stat) (es : list (Z * list Z)) : option (list Z) :=
  if st_type st =? T_DIR then
    if (512 <? length path + 1 + DIRSIZ + 1)%nat then Some [] else ls_entries path es
  else ls_line after path st.
End ls.

(** ** rfperms and chperms *)

Definition flag_or_dash (perms bit c : Z) : Z := if Z.land perms bit =? bit then c else 45.
(** Both groups are tested with the user's bits. *)
Definition rfperms_groups (perms : Z) : list Z * list Z :=
  let g := [flag_or_dash perms U_READ 114; flag_or_dash perms U_WRITE 119; flag_or_dash perms U_EXEC 120; flag_or_dash perms U_HIDDEN 104] in (g, g).

Definition perm_step (c bit : Z) (st : list Z * Z) : list Z * Z :=
  match st.1 with x :: s' => if x =? c then (s', Z.lor st.2 bit) else st | [] => st end.
Definition parseperms (strperms : list Z) (world : bool) : Z :=
  (perm_step 104 (if world then W_HIDDEN else U_HIDDEN)
    (perm_step 120 (if world then W_EXEC else U_EXEC)
      (perm_step 119 (if world then W_WRITE else U_WRITE)
        (perm_step 114 (if world then W_READ else U_READ) (strperms, 0))))).2.
(** The flags [u], [w], [f], [m] and [h]; [None] is the usage message. *)
Definition chperms_new (fu fw ff fm fh : bool) (userstr worldstr : list Z) (oldperms : Z) : option Z :=
  if fh || ((negb fu || negb fw) && negb ff) then None else
  let userperms := if fu then parseperms userstr false else 0 in
  let worldperms := if fw then parseperms worldstr true else 0 in
  Some (if fm then Z.lor (Z.lor oldperms userperms) worldperms else Z.lor (Z.lor 0 userperms) worldperms).

(** ** sysctl *)

Definition sysctl_text (k : knob) (st : Z) : list Z :=
  text (match k, negb (st =? 0) with
  | Sysuart, true => "sysuart yes  " | Sysuart, false => "sysuart no  "
  | Syscons, true => "syscons yes  " | Syscons, false => "syscons no  "
  | Singleuser, true => "singleuser yes  " | Singleuser, false => "singleuser no  "
  | Allowthreads, true => "allowthreads yes  " | Allowthreads, false => "allowthreads no  "
  | Useclone, true => "useclone yes  " | Useclone, false => "useclone no  "
  | Msgnote, true => "msgnote yes   " | Msgnote, false => "msgnote no   "
  end).
(** What [main] writes to the device, given [argv[1]] and [argv[2]]; [None] is a message and the end. *)
Definition sysctl_main (uid : Z) (cmd : list Z) (arg : option (list Z)) : option (list Z) :=
  if -1 <? uid then None else
  k ← (if bool_decide (cmd = text "sysuart") then Some Sysuart else if bool_decide (cmd = text "syscons") then Some Syscons
       else if bool_decide (cmd = text "singleuser") then Some Singleuser else if bool_decide (cmd = text "allowthreads") then Some Allowthreads
       else if bool_decide (cmd = text "useclone") then Some Useclone else if bool_decide (cmd = text "msgnote") then Some Msgnote else None);
  a ← arg;
  v ← User.atoi (a ++ [0]) 0;
  Some (sysctl_text k v).

(** ** uname *)

Record shown := Shown { u_kern : bool; u_ver : bool; u_node : bool; u_rel : bool; u_mach : bool; u_proc : bool; u_plat : bool; u_os : bool }.
Definition word (on : bool) (s : list Z) : list Z := if on then s ++ [32] else [].
Definition printuname (host : list Z) (f : shown) : list Z :=
  word (u_os f) (text "xv6") ++ word (u_node f) host ++ word (u_ver f) (text "prerelease") ++ word (u_kern f) (text "vsd") ++ word (u_rel f) (text "1") ++
  word (u_mach f) (text "i386") ++ word (u_proc f) (text "i386") ++ word (u_plat f) (text "IBM-PC") ++ [10].
Fixpoint uname_flags (x : list Z) (f : shown) : option shown :=
  let '(Shown k v n r m p i o) := f in
  match x with
  | [] => Some f
  | c :: x' =>
    if c =? 97 then Some (Shown true true true true true true true true)
    else if c =? 115 then uname_flags x' (Shown true v n r m p i o) else if c =? 110 then uname_flags x' (Shown k v true r m p i o)
    else if c =? 114 then uname_flags x' (Shown k v n true m p i o) else if c =? 118 then uname_flags x' (Shown k true n r m p i o)
    else if c =? 109 then uname_flags x' (Shown k v n r true p i o) else if c =? 112 then uname_flags x' (Shown k v n r m true i o)
    else if c =? 105 then uname_flags x' (Shown k v n r m p true o) else if c =? 111 then uname_flags x' (Shown k v n r m p i true)
    else None
  end.
Definition nothing_shown : shown := Shown false false false false false false false false.
(** [None] is the usage message. *)
Definition uname (host : list Z) (arg : option (list Z)) : option (list Z) :=
  match arg with
  | None => Some (printuname host (Shown false false false false false false false true))
  | Some x => printuname host <$> uname_flags (match x with 45 :: x' => x' | _ => x end) nothing_shown
  end.

(** ** login *)

(** The name without its last character, the newline. *)
Definition parseuname (bf : list Z) : Z :=
  let bf := if (0 <? length bf)%nat then take (length bf - 1) bf else bf in
  if streq bf (text "system") then -1 else if streq bf (text "root") then 0 else -3.
(** What one round of the loop does: the user a shell is started for. *)
Inductive round := Shell_for (uid : Z) | Invalid | Refused.
Definition runshell (single : bool) (uid : Z) : round := if single && negb (uid =? -1) then Refused else Shell_for uid.
Definition login_round (single : bool) (line : list Z) : round :=
  if single then runshell single (-1) else
  let uid := parseuname (until0 line) in
  if uid =? -1 then runshell single uid else if uid =? -3 then Invalid else runshell single uid.

(** ** The shell's input *)

(** [getcmd]: a line into the 100 bytes, [None] at the end of the file. *)
Definition getcmd (input : list Z) : option (list Z * list Z) :=
  let '(l, rest) := fgets 99 input in if default 0 (head l) =? 0 then None else Some (until0 l, rest).
Fixpoint sh_loop (fuel : nat) (input : list Z) : list action :=
  match fuel with
  | O => []
  | S fuel' =>
    match getcmd input with
    | None => []
    | Some (line, rest) => match line_action line with Quit => [Quit] | a => a :: sh_loop fuel' rest end
    end
  end.
(** Every line takes a character of the input at least. *)
Definition sh_session (input : list Z) : list action := sh_loop (S (length input)) input.
(** The options: no prompt, the boot console; [None] is the usage message. *)
Fixpoint sh_flags (x : list Z) (noprompt bootsh : bool) : option (bool * bool) :=
  match x with
  | [] => Some (noprompt, bootsh)
  | c :: x' => if c =? 115 then sh_flags x' true bootsh else if c =? 98 then sh_flags x' noprompt true else None
  end.
Definition sh_options (arg : option (list Z)) : option (bool * bool) :=
  match arg with None => Some (false, false) | Some x => sh_flags (match x with 45 :: x' => x' | _ => x end) false false end.

(** ** What the programs do *)

(** However the reads cut a file, [cat] writes its bytes. *)
Theorem cat_copies chunks : Forall (fun c => c <> []) chunks -> cat (plain_reads chunks) = (mjoin chunks, true).
Proof.
  induction 1 as [|c chunks Hc _ IH]; [done|]. cbn [plain_reads fmap list_fmap cat mjoin list_join]. unfold plain_reads in IH. rewrite IH.
  by destruct c.
Qed.

(** The words of a text: the longest runs without white space.  [open] is whether a
    word is being read. *)
Fixpoint words_from (open : bool) (l : list Z) : nat :=
  match l with
  | [] => 0
  | b :: l' => if wc_space b then words_from false l' else if open then words_from true l' else S (words_from true l')
  end.
Inductive split_words : list Z -> list (list Z) -> Prop :=
| sw_nil : split_words [] []
| sw_space b l ws : wc_space b = true -> split_words l ws -> split_words (b :: l) ws
| sw_word w l ws : w <> [] -> Forall (fun b => wc_space b = false) w -> match l with [] => True | b :: _ => wc_space b = true end ->
    split_words l ws -> split_words (w ++ l) (w :: ws).
Lemma words_open w l : Forall (fun b => wc_space b = false) w -> words_from true (w ++ l) = words_from true l.
Proof. induction 1 as [|b w Hb _ IH]; [done|]. cbn. by rewrite Hb. Qed.
Lemma words_split l ws : split_words l ws -> words_from false l = length ws.
Proof.
  induction 1 as [|b l ws Hb _ IH|w l ws Hw Hs Hl _ IH]; [done| |]; cbn [words_from length app].
  - by rewrite Hb.
  - destruct w as [|b w]; [done|]. apply list.Forall_cons in Hs as [Hb Hs]. cbn [app words_from]. rewrite Hb, (words_open w l Hs). f_equal.
    rewrite <- IH. destruct l as [|c l]; [done|]. cbn. by rewrite Hl.
Qed.
Lemma split_exists l : exists ws, split_words l ws.
Proof.
  assert (forall n l, (length l <= n)%nat -> exists ws, split_words l ws) as H; [|by apply (H (length l))].
  clear l. induction n as [|n IH]; intros l Hl; (destruct l as [|b l]; [exists []; constructor|cbn in Hl]); [lia|].
  destruct (wc_space b) eqn:Hb.
  - destruct (IH l ltac:(lia)) as [ws H]. exists ws. by constructor.
  - assert (exists w r, l = w ++ r /\ Forall (fun b => wc_space b = false) w /\ match r with [] => True | b :: _ => wc_space b = true end) as (w & r & -> & Hw & Hr).
    { clear. induction l as [|c l (w & r & -> & Hw & Hr)]; [by exists [], []|]. destruct (wc_space c) eqn:Hc; [by exists [], (c :: w ++ r)|].
      exists (c :: w), r. split; [done|]. split; [by constructor|done]. }
    destruct (IH r) as [ws H]; [rewrite length_app in Hl; lia|]. exists ((b :: w) :: ws).
    apply (sw_word (b :: w) r ws); [done|by constructor|done|done].
Qed.

Definition newlines (l : list Z) : nat := length (filter (fun b => b = 10) l).
Lemma wc_fold l : forall s, 0 <= c_l s -> 0 <= c_w s -> 0 <= c_c s -> c_l s + Z.of_nat (length l) < 2 ^ 31 -> c_w s + Z.of_nat (length l) < 2 ^ 31 ->
  c_c s + Z.of_nat (length l) < 2 ^ 31 ->
  let s' := fold_left wc_byte l s in c_l s' = c_l s + Z.of_nat (newlines l) /\ c_w s' = c_w s + Z.of_nat (words_from (inword s) l) /\ c_c s' = c_c s + Z.of_nat (length l).
Proof.
  induction l as [|b l IH]; intros [cl cw cc iw] H1 H2 H3 H4 H5 H6; cbn [c_l c_w c_c inword length fold_left] in *; [cbn; lia|].
  assert (exists k, (k <= 1)%nat /\ newlines (b :: l) = (k + newlines l)%nat /\ (if b =? 10 then cl + 1 else cl) = cl + Z.of_nat k) as (k & Hk & En & Ek).
  { unfold newlines. rewrite filter_cons. destruct (decide (b = 10)) as [->|Hb]; [exists 1%nat; split_and!; [lia|done|rewrite Z.eqb_refl; lia]|].
    exists 0%nat.
    rewrite (proj2 (Z.eqb_neq b 10) Hb). split_and!; [lia|done|lia]. }
  assert (words_from iw (b :: l) = (words_from iw [b] + words_from (negb (wc_space b)) l)%nat /\ (words_from iw [b] <= 1)%nat) as [Ew Hw]
    by (cbn; destruct (wc_space b), iw; cbn; lia).
  assert (wc_byte (Counts cl cw cc iw) b = Counts (cl + Z.of_nat k) (cw + Z.of_nat (words_from iw [b])) (cc + 1) (negb (wc_space b))) as ->.
  { unfold wc_byte. cbn [c_l c_w c_c inword words_from]. rewrite !(s32_small (_ + 1)) by lia. rewrite Ek.
    destruct (wc_space b), iw; cbn; f_equal; lia. }
  rewrite En, Ew. edestruct (IH (Counts (cl + Z.of_nat k) (cw + Z.of_nat (words_from iw [b])) (cc + 1) (negb (wc_space b)))) as (-> & -> & ->);
    cbn [c_l c_w c_c inword]; lia.
Qed.
Lemma wc_loop_joins chunks : forall s, Forall (fun c => c <> []) chunks -> wc_loop (plain_reads chunks) s = Some (fold_left wc_byte (mjoin chunks) s).
Proof.
  induction chunks as [|c chunks IH]; intros s Hc; [done|]. apply list.Forall_cons in Hc as [Hc Hs]. unfold plain_reads in *.
  cbn [fmap list_fmap wc_loop mjoin list_join]. rewrite fold_left_app. destruct c; [done|]. by apply IH.
Qed.

(** [wc] counts the newlines, the words and the bytes of a file, however the reads
    cut it. *)
Theorem wc_counts chunks ws : Forall (fun c => c <> []) chunks -> split_words (mjoin chunks) ws -> Z.of_nat (length (mjoin chunks)) < 2 ^ 31 ->
  wc (plain_reads chunks) = Some (Z.of_nat (newlines (mjoin chunks)), Z.of_nat (length ws), Z.of_nat (length (mjoin chunks))).
Proof.
  intros Hc Hs Hl. unfold wc. rewrite wc_loop_joins by done. cbn [fmap option_fmap option_map].
  destruct (wc_fold (mjoin chunks) (Counts 0 0 0 false)) as (-> & -> & ->); cbn [c_l c_w c_c inword]; try lia. by rewrite (words_split _ ws Hs).
Qed.
Lemma wc_counts_witness : wc (plain_reads [[97; 98]; [99; 32; 10; 100]]) = Some (1, 2, 6).
Proof.
  apply (wc_counts [[97; 98]; [99; 32; 10; 100]] [[97; 98; 99]; [100]]); [repeat constructor; discriminate| |cbn; lia].
  apply (sw_word [97; 98; 99] [32; 10; 100]); [discriminate|repeat constructor|reflexivity|]. apply sw_space; [reflexivity|].
  apply sw_space; [reflexivity|].
  apply (sw_word [100] []); [discriminate|repeat constructor|exact I|constructor].
Defined.

(** [cp] writes whole buffers: the copy is the file only when every read fills the
    buffer, and its length is always a multiple of 1024. *)
Theorem cp_whole_buffers chunks buf : length buf = 1024%nat -> Forall (fun c => c <> [] /\ (length c <= 1024)%nat) chunks ->
  length (cp_loop buf (plain_reads chunks)) = (1024 * length chunks)%nat /\
  (Forall (fun c => length c = 1024%nat) chunks -> cp_loop buf (plain_reads chunks) = mjoin chunks).
Proof.
  intros Hb Hc. revert buf Hb. induction Hc as [|c chunks [Hc Hl] _ IH]; intros buf Hb; [done|]. unfold plain_reads in *.
  destruct c as [|x c]; [done|]. cbn [fmap list_fmap cp_loop mjoin list_join]. set (d := x :: c) in *. clearbody d.
  destruct (IH (d ++ drop (length d) buf)) as [E1 E2]; [rewrite length_app, length_drop; lia|]. split.
  - rewrite length_app, E1, length_app, length_drop. cbn [length]. lia.
  - intros [Hd Hs]%list.Forall_cons. rewrite (E2 Hs), drop_ge, app_nil_r by lia. done.
Qed.
Example cp_pads : length (cp_loop (replicate 1024 7) (plain_reads [[104; 105; 10]])) = 1024%nat /\
  take 4 (cp_loop (replicate 1024 7) (plain_reads [[104; 105; 10]])) = [104; 105; 10; 7].
Proof. split; reflexivity. Qed.

(** [ls]: the columns. *)
Lemma digits_nonzero f u base : 0 < base -> forall x acc, Forall (fun c => c <> 0) acc -> Forall (fun c => c <> 0) (digits f u x base acc).
Proof.
  intros Hb. induction f as [|f IH]; intros x acc H; cbn [digits]; [done|].
  assert (digit u (x mod base) <> 0) as Hd. { pose proof (Z.mod_pos_bound x base Hb). unfold digit. destruct (_ <? 10), u; lia. }
  destruct (x / base =? 0); [by constructor|]. apply IH. by constructor.
Qed.
Lemma swriteint_nonzero x sgn : Forall (fun c => c <> 0) (swriteint x 10 sgn).
Proof.
  unfold swriteint, printint. destruct (sgn && _); [constructor; [done|]|]; apply digits_nonzero; done || constructor.
Qed.
Lemma fmtfield_length data n : Forall (fun c => c <> 0) data -> (length data <= n < 64)%nat -> exists l, fmtfield data n = Some l /\ length l = n.
Proof.
  intros H Hn. unfold fmtfield. rewrite fmtfieldn_centres by done. eexists. split; [reflexivity|].
  set (half := ((n - length data) / 2)%nat). assert (half <= n - length data)%nat by (apply Nat.Div0.div_le_upper_bound; lia).
  rewrite !app_assoc. replace (64 - n)%nat with (S (63 - n)) by lia. cbn [replicate]. rewrite until0_app.
  - rewrite !length_app, !length_replicate. lia.
  - rewrite !list.Forall_app. split; [split; [|done]|]; by apply Forall_replicate.
Qed.
Lemma perms_text perms : exists b, fmtpermsn perms 16 = Some b /\ length (until0 b) = 13%nat.
Proof.
  eexists. split; [reflexivity|]. rewrite (until0_app _ [0; 0]); [done|].
  assert (forall bit c, c <> 0 -> flag_char perms bit c <> 0) as Hf by (intros bit c Hc; unfold flag_char; by destruct (Z.land perms bit =? bit)).
  repeat (constructor; [first [done|by apply Hf]|]). constructor.
Qed.
(** Names and numbers that fit their columns give lines of one length, if the bytes
    behind the buffer of [fmtname] happen to begin with a NUL. *)
Theorem ls_columns path st : (length (basename path) <= DIRSIZ)%nat -> (length (swriteint (st_ino st) 10 false) <= 5)%nat -> (length (swriteint (st_size st) 10 false) <= 7)%nat -> (length (swriteint (st_owner st) 10 true) <= 5)%nat ->
  exists l, ls_line [] path st = Some l /\ length l = 57%nat.
Proof.
  intros Hp Hi Hs Ho. unfold ls_line.
  destruct (fmtfield_length _ 5 (swriteint_nonzero (st_ino st) false)) as (l1 & -> & L1); [lia|].
  destruct (fmtfield_length _ 7 (swriteint_nonzero (st_size st) false)) as (l2 & -> & L2); [lia|].
  destruct (fmtfield_length _ 5 (swriteint_nonzero (st_owner st) true)) as (l3 & -> & L3); [lia|].
  destruct (perms_text (st_perms st)) as (b & -> & L4).
  cbn [mbind option_bind]. eexists. split; [reflexivity|]. rewrite !length_app, L1, L2, L3, L4.
  assert (length (fmtname [] path) = 15%nat) as ->.
  { unfold fmtname, fmtnamen, DIRSIZ in *. rewrite (proj2 (Nat.leb_gt _ _)) by lia. rewrite app_nil_r, length_app, length_replicate. lia. }
  assert (length (ls_type (st_type st)) = 6%nat) as -> by (unfold ls_type; destruct (st_type st =? T_FILE), (st_type st =? T_DIR); done). done.
Qed.
(** In general it is not terminated: what is behind the buffer is printed too. *)
Example ls_prints_behind : fmtname [33; 33] (text "/bin/ls") = text "ls             !!".
Proof. reflexivity. Qed.

(** [rfperms] prints the user's permissions twice. *)
Example rfperms_hides_world : (rfperms_groups (Z.lor W_READ W_WRITE)).2 = [45; 45; 45; 45] /\ forall perms, (rfperms_groups perms).1 = (rfperms_groups perms).2.
Proof. split; [reflexivity|done]. Qed.

(** [parseperms] takes the letters present, in the order rwxh; a letter out of
    order, and all behind it, are ignored. *)
Definition perm_letters (r w x h : bool) : list Z := (if r then [114] else []) ++ (if w then [119] else []) ++ (if x then [120] else []) ++ (if h then [104] else []).
Definition perm_bits (world r w x h : bool) : Z :=
  Z.lor (if r then if world then W_READ else U_READ else 0) (Z.lor (if w then if world then W_WRITE else U_WRITE else 0)
    (Z.lor (if x then if world then W_EXEC else U_EXEC else 0) (if h then if world then W_HIDDEN else U_HIDDEN else 0))).
Theorem parseperms_reads r w x h world : parseperms (perm_letters r w x h) world = perm_bits world r w x h.
Proof. by destruct r, w, x, h, world. Qed.
Example parseperms_order : parseperms [120; 114] false = U_EXEC.
Proof. reflexivity. Qed.

(** A [sysctl] command run by the system's user sets the parameter it names to the
    truth of its number, by way of the device, and leaves the others. *)
Theorem sysctl_program k (v : bool) d : exists msg r,
  sysctl_main (-1) (text (knob_name k)) (Some (if v then [49] else [48])) = Some msg /\
  sysctl_write (-1) (-1) 0 (msg ++ [0]) (Z.of_nat (length msg)) d = Ok r (set_knob k v d).
Proof.
  destruct k, v; (eexists _, _; split; [vm_compute; reflexivity|]).
  all: destruct d; vm_compute; reflexivity.
Qed.
(** Nobody else's is written. *)
Theorem sysctl_refuses uid cmd arg : 0 <= uid -> sysctl_main uid cmd arg = None.
Proof. intros H. unfold sysctl_main. by rewrite (proj2 (Z.ltb_lt _ _)) by lia. Qed.

(** Only two names get a shell. *)
Lemma streq_eq a b : streq a b = true -> a = b.
Proof.
  unfold streq. intros [H1 H2]%andb_prop. apply Nat.eqb_eq in H1. revert b H1 H2. induction a as [|x a IH]; intros [|y b] Hl H; try done.
  cbn in *. apply andb_prop in H as [Hx H]. apply Z.eqb_eq in Hx as ->. f_equal. apply IH; [lia|done].
Qed.
Theorem login_users line uid : login_round false (line ++ [10]) = Shell_for uid -> Forall (fun c => c <> 0) line ->
  (uid = -1 /\ line = text "system") \/ (uid = 0 /\ line = text "root").
Proof.
  intros H Hn. unfold login_round, runshell, parseuname in H.
  rewrite until0_nonzero_eq in H by (apply list.Forall_app; split; [done|by repeat constructor]).
  rewrite length_app, Nat.add_sub, take_app_length in H. cbn [length andb] in H. rewrite (proj2 (Nat.ltb_lt 0 _)) in H by lia.
  destruct (streq line (text "system")) eqn:E1; [left; injection H as <-; by apply streq_eq in E1|].
  destruct (streq line (text "root")) eqn:E2; [right; injection H as <-; by apply streq_eq in E2|]. done.
Qed.
Lemma login_users_witness : (0 = -1 /\ text "root" = text "system") \/ (0 = 0 /\ text "root" = text "root").
Proof. apply (login_users (text "root") 0); [reflexivity|repeat constructor; discriminate]. Defined.
(** The user [guest] of the password file is not among them, and no password is asked for. *)
Example login_knows_no_guest : login_round false (text "guest" ++ [10]) = Invalid /\ login_round false (text "system" ++ [10]) = Shell_for (-1).
Proof. split; reflexivity. Qed.

(** ** Lines of the shell *)

(** A line [getcmd] can take whole. *)
Definition cmd_line (l : list Z) : Prop := Forall (fun c => c <> 0 /\ c <> 10 /\ c <> 13) l /\ (length l < 99)%nat.
Fixpoint until_quit (ls : list (list Z)) : list action :=
  match ls with [] => [] | l :: ls' => match line_action (l ++ [10]) with Quit => [Quit] | a => a :: until_quit ls' end end.
Definition script (ls : list (list Z)) : list Z := ls ≫= (fun l => l ++ [10]).
Lemma getcmd_line l rest : cmd_line l -> getcmd (l ++ 10 :: rest) = Some (l ++ [10], rest).
Proof.
  intros [Hl Hn]. unfold getcmd. rewrite fgets_line; [|eapply list.Forall_impl; [exact Hl|]; cbn; tauto|done].
  rewrite until0_nonzero_eq; [|apply list.Forall_app; split; [eapply list.Forall_impl; [exact Hl|]; cbn; tauto|by repeat constructor]].
  assert (default 0 (head (l ++ [10])) =? 0 = false) as ->; [|done]. apply Z.eqb_neq. destruct l as [|c l]; [done|].
  apply list.Forall_cons in Hl as [[Hc _] _]. done.
Qed.

Lemma sh_loop_S fuel input line rest : getcmd input = Some (line, rest) ->
  sh_loop (S fuel) input = match line_action line with Quit => [Quit] | a => a :: sh_loop fuel rest end.
Proof. intros E. cbn [sh_loop]. by rewrite E. Qed.

(** The shell takes the lines of its input one by one until the end or [exit]. *)
Theorem sh_takes_lines ls : Forall cmd_line ls -> sh_session (script ls) = until_quit ls.
Proof.
  intros H. unfold sh_session. assert (length ls <= length (script ls))%nat as Hf.
  { clear H. induction ls as [|l ls IH]; [done|]. cbn. rewrite !length_app. cbn. unfold script in IH. lia. }
  revert Hf. generalize (length (script ls)) as n. induction H as [|l ls Hl _ IH]; intros n Hf; [done|].
  change (script (l :: ls)) with ((l ++ [10]) ++ script ls). rewrite <- app_assoc. cbn [app length] in *. destruct n as [|n]; [lia|].
  cbn [until_quit]. rewrite (sh_loop_S _ _ _ _ (getcmd_line l (script ls) Hl)), (IH n) by lia. done.
Qed.
Lemma sh_takes_lines_witness : sh_session (text "cd /tmp" ++ [10] ++ text "exit" ++ [10] ++ text "ls" ++ [10]) = [Chdir (text "/tmp"); Quit].
Proof. apply (sh_takes_lines [text "cd /tmp"; text "exit"; text "ls"]). repeat constructor; try discriminate; vm_compute; lia. Defined.
(** A longer line is cut: what is behind the 99th character is run as a command of its own. *)
Example sh_cuts_lines : sh_session (text "echo " ++ replicate 94 97 ++ text "rm x" ++ [10]) =
  [Run (text "echo " ++ replicate 94 97); Run (text "rm x" ++ [10])].
Proof. vm_compute. reflexivity. Qed.
