(* ===== verification/Uthread.v ===== *)
(** User threads ([uthread.c]): a table of slots, a slot for each thread, found and
    filled under a lock, and marked free by the thread that ends.

    Between the lock and the end of [spawn] the new thread runs alongside, so the
    operations are cut into the steps that other threads can see: finding the slot
    (under the lock, hence one step), the system call, the store of the pid, the
    end of the new thread's function, its exit.  With [clone] the threads share the
    table; with [fork] the new one has a copy of it, and its store is not seen. *)

From S2P Require Import Prelude.
Local Open Scope Z_scope.

Record slot := Slot { t_pid : Z; t_stack : bool }.
(** A thread in [spawn]: its slot, and the pid the system call returned. *)
Record pool := Pool {
  slots : list slot;                  (* from [head] to [tail] *)
  spawning : list nat;                (* slots taken, before the system call *)
  storing : list (nat * Z);           (* after it, before [new->pid = tpid] *)
  live : list (nat * Z);              (* threads inside their function, with their slots *)
  ending : list (nat * Z)             (* threads that are done with it and have not exited *)
}.
Definition set_pid (i : nat) (pid : Z) (p : pool) : pool :=
  Pool (alter (fun t => Slot pid (t_stack t)) i (slots p)) (spawning p) (storing p) (live p) (ending p).

(** [_vsd_allocate_thread]: the first slot with pid -1, or a new one at the end. *)
Definition allocate_thread (p : pool) : nat * list slot :=
  match scan (fun t => t_pid t =? -1) (slots p) with
  | Some (i, _) => (i, slots p)
  | None => (length (slots p), slots p ++ [Slot 0 false])
  end.
(** [spawn] and [pspawn] up to the system call; [useclone] gets a stack. *)
Definition spawn_begin (useclone : bool) (p : pool) : pool :=
  let '(i, ts) := allocate_thread p in
  Pool (alter (fun t => Slot 0 (t_stack t || useclone)) i ts) (i :: spawning p) (storing p) (live p) (ending p).
(** The call succeeds: the thread [tpid] begins to run. *)
Definition spawn_child (i : nat) (tpid : Z) (rest : list nat) (p : pool) : pool :=
  Pool (slots p) rest ((i, tpid) :: storing p) ((i, tpid) :: live p) (ending p).
(** It fails: [new->pid = -1]. *)
Definition spawn_fail (i : nat) (rest : list nat) (p : pool) : pool := set_pid i (-1) (Pool (slots p) rest (storing p) (live p) (ending p)).
(** [new->pid = tpid]. *)
Definition spawn_store (i : nat) (tpid : Z) (rest : list (nat * Z)) (p : pool) : pool :=
  set_pid i tpid (Pool (slots p) (spawning p) rest (live p) (ending p)).
(** [_vsd_threadentry] after [entry(args)]: [me->pid = -1], in the memory the thread
    has; then [exit]. *)
Definition thread_done (shared : bool) (i : nat) (tpid : Z) (rest : list (nat * Z)) (p : pool) : pool :=
  let q := Pool (slots p) (spawning p) (storing p) rest ((i, tpid) :: ending p) in if shared then set_pid i (-1) q else q.
Definition thread_exit (rest : list (nat * Z)) (p : pool) : pool := Pool (slots p) (spawning p) (storing p) (live p) rest.

Section steps.
Context (shared : bool).
Inductive tstep : pool -> pool -> Prop :=
| t_begin p useclone : tstep p (spawn_begin useclone p)
| t_child p i tpid rest : spawning p ≡ₚ i :: rest -> 0 < tpid -> tstep p (spawn_child i tpid rest p)
| t_fail p i rest : spawning p ≡ₚ i :: rest -> tstep p (spawn_fail i rest p)
| t_store p i tpid rest : storing p ≡ₚ (i, tpid) :: rest -> tstep p (spawn_store i tpid rest p)
| t_done p i tpid rest : live p ≡ₚ (i, tpid) :: rest -> tstep p (thread_done shared i tpid rest p)
| t_exit p i tpid rest : ending p ≡ₚ (i, tpid) :: rest -> tstep p (thread_exit rest p).
(** [_vsd_threadstart]. *)
Definition no_threads : pool := Pool [] [] [] [] [].
Definition reachable (p : pool) : Prop := rtc tstep no_threads p.

(** The slots in use: being filled, or of a thread inside its function. *)
Definition users (p : pool) : list nat := spawning p ++ (live p).*1.
Record tinv (p : pool) : Prop := {
  ti_nodup : NoDup (users p);
  ti_busy i : i ∈ users p -> exists t, slots p !! i = Some t /\ t_pid t <> -1;
  ti_pids i tpid : (i, tpid) ∈ storing p -> 0 < tpid }.

Lemma busy_alter (ts : list slot) (us : list nat) i (f : slot -> slot) : (forall j, j ∈ us -> exists t, ts !! j = Some t /\ t_pid t <> -1) ->
  (i ∈ us -> forall t, t_pid (f t) <> -1) -> forall j, j ∈ us -> exists t, alter f i ts !! j = Some t /\ t_pid t <> -1.
Proof.
  intros H Hf j Hj. destruct (H j Hj) as (t & E & Ht). destruct (decide (i = j)) as [->|Hne].
  - exists (f t). rewrite list_lookup_alter_eq, E. split; [done|by apply Hf].
  - exists t. by rewrite list_lookup_alter_ne.
Qed.
Lemma begin_inv useclone p : tinv p -> tinv (spawn_begin useclone p).
Proof.
  intros [N B P]. unfold spawn_begin, allocate_thread. destruct (scan _ (slots p)) as [[i t]|] eqn:E.
  - apply scan_Some in E as (Ei & Et & _). apply Z.eqb_eq in Et. assert (i ∉ users p) as Hi.
    { intros Hi. destruct (B i Hi) as (t' & Et' & Ht'). congruence. }
    split; [by apply list.NoDup_cons| |done]. cbn [slots users spawning live app]. intros j [->|Hj]%elem_of_cons.
    + exists (Slot 0 (t_stack t || useclone)). by rewrite list_lookup_alter_eq, Ei.
    + by apply (busy_alter _ _ _ _ B).
  - assert (length (slots p) ∉ users p) as Hi. { intros Hi. destruct (B _ Hi) as (t & Et & _). apply lookup_lt_Some in Et. lia. }
    split; [by apply list.NoDup_cons| |done]. cbn [slots users spawning live app]. intros j [->|Hj]%elem_of_cons.
    + eexists. rewrite list_lookup_alter_eq, lookup_app_r, Nat.sub_diag by lia. done.
    + revert j Hj. apply busy_alter; [|done]. intros j Hj. destruct (B j Hj) as (t & Et & Ht). exists t. by rewrite (lookup_app_l_Some _ _ _ _ Et).
Qed.
(** A thread leaves its slot, which may be marked free. *)
Lemma leave_inv p q i : tinv p -> users p ≡ₚ i :: users q -> slots q = slots p \/ slots q = alter (fun t => Slot (-1) (t_stack t)) i (slots p) ->
  (forall j tpid, (j, tpid) ∈ storing q -> 0 < tpid) -> tinv q.
Proof.
  intros [N B _] E Hs P. rewrite E in N. apply list.NoDup_cons in N as [Hi N]. split; [done| |done].
  assert (forall j, j ∈ users q -> exists t, slots p !! j = Some t /\ t_pid t <> -1) as B' by (intros j Hj; apply B; rewrite E; by right).
  destruct Hs as [-> | ->]; [done|]. by apply busy_alter.
Qed.

Lemma tstep_inv p q : tstep p q -> tinv p -> tinv q.
Proof.
  intros Hs Hp. pose proof Hp as [N B P]. destruct Hs as [p useclone|p i tpid rest E Ht|p i rest E|p i tpid rest E|p i tpid rest E|p i tpid rest E].
  - by apply begin_inv.
  - assert (users p ≡ₚ users (spawn_child i tpid rest p)) as EU by (unfold users, spawn_child; cbn; rewrite E; solve_Permutation).
    split; [by rewrite <- EU|intros j Hj; apply B; by rewrite EU|]. intros j u [[= -> ->]|Hj]%elem_of_cons; [done|by apply (P j)].
  - apply (leave_inv p _ i); [done|unfold users; cbn; by rewrite E|by right|done].
  - assert ((i, tpid) ∈ storing p) as Hi by (rewrite E; left). specialize (P i tpid Hi) as Ht. split; [done| |].
    + apply (busy_alter _ _ _ _ B). intros _ t. cbn. lia.
    + intros j u Hj. apply (P j u). rewrite E. by right.
  - apply (leave_inv p _ i); [done| |unfold thread_done; destruct shared; [by right|by left]|unfold thread_done; by destruct shared].
    unfold users, thread_done. destruct shared; cbn; rewrite E; cbn; solve_Permutation.
  - by split.
Qed.

(** However the threads interleave, no two of them that are inside their functions,
    or being started, have the same slot. *)
Theorem threads_have_own_slots p : reachable p -> NoDup (users p) /\ forall i, i ∈ users p -> exists t, slots p !! i = Some t /\ t_pid t <> -1.
Proof.
  intros H. assert (tinv p) as [N B _]; [|done]. unfold reachable in H. assert (tinv no_threads) as H0 by (split; [constructor|..]; set_solver).
  revert H0. induction H as [|p q r Hs _ IH]; [done|]. intros Hp. apply IH. by eapply tstep_inv.
Qed.
End steps.

(** The thread may end before [spawn] stores its pid: the store then marks the slot
    as used, and nobody is left to free it. *)
Example slot_lost : exists p, reachable true p /\ spawning p = [] /\ storing p = [] /\ live p = [] /\ ending p = [] /\ slots p = [Slot 7 true].
Proof.
  eexists. split.
  { eapply rtc_l; [apply (t_begin true no_threads true)|]. eapply rtc_l; [by apply (t_child true _ 0%nat 7 [])|].
    eapply rtc_l; [by apply (t_done true _ 0%nat 7 [])|]. eapply rtc_l; [by apply (t_exit true _ 0%nat 7 [])|].
    eapply rtc_l; [by apply (t_store true _ 0%nat 7 [])|]. apply rtc_refl. }
  by split_and!.
Qed.
(** A thread marks its slot free before it exits: another one can be started on the
    stack it is still running on. *)
Example stack_reused : exists p, reachable true p /\ live p = [(0%nat, 8)] /\ ending p = [(0%nat, 7)] /\ slots p = [Slot 0 true].
Proof.
  eexists. split.
  { eapply rtc_l; [apply (t_begin true no_threads true)|]. eapply rtc_l; [by apply (t_child true _ 0%nat 7 [])|].
    eapply rtc_l; [by apply (t_store true _ 0%nat 7 [])|]. eapply rtc_l; [by apply (t_done true _ 0%nat 7 [])|].
    eapply rtc_l; [apply (t_begin true _ true)|]. eapply rtc_l; [by apply (t_child true _ 0%nat 8 [])|]. apply rtc_refl. }
  by split_and!.
Qed.
