(* ===== verification/Segments.v ===== *)
(** Protection: segments and gates ([mmu.h], [seginit] and [switchuvm] of [vm.c],
    [tvinit] of [trap.c]), the processor's own entry ([mycpu], [sched] of [proc.c])
    and starting the other processors ([startothers] of [main.c]).

    Descriptors are records of the bit fields of [mmu.h], each cut to its width.
    Loading them into the processor is left out; what it makes of a descriptor is
    what the comments of [mmu.h] say. *)

From S2P Require Import Prelude Params Spinlock Kernel Dispatch Vm Start Mp Interrupts.
Local Open Scope Z_scope.

(** ** Descriptors *)

Record segdesc := SegDesc {
  lim_15_0 : Z; base_15_0 : Z; base_23_16 : Z; sd_type : Z; sd_s : Z; sd_dpl : Z; sd_p : Z;
  lim_19_16 : Z; avl : Z; sd_rsv1 : Z; db : Z; g : Z; base_31_24 : Z }.
Definition bits (w x : Z) : Z := x mod 2 ^ w.
Definition SEG (type base lim dpl : Z) : segdesc :=
  SegDesc (bits 16 (Z.land (Z.shiftr lim 12) 0xffff)) (bits 16 (Z.land (u32 base) 0xffff)) (bits 8 (Z.land (Z.shiftr (u32 base) 16) 0xff))
    (bits 4 type) 1 (bits 2 dpl) 1 (bits 4 (Z.shiftr (u32 lim) 28)) 0 0 1 1 (bits 8 (Z.shiftr (u32 base) 24)).
Definition SEG16 (type base lim dpl : Z) : segdesc :=
  SegDesc (bits 16 (Z.land lim 0xffff)) (bits 16 (Z.land (u32 base) 0xffff)) (bits 8 (Z.land (Z.shiftr (u32 base) 16) 0xff))
    (bits 4 type) 1 (bits 2 dpl) 1 (bits 4 (Z.shiftr (u32 lim) 16)) 0 0 1 0 (bits 8 (Z.shiftr (u32 base) 24)).
Definition set_s (v : Z) (d : segdesc) : segdesc :=
  SegDesc (lim_15_0 d) (base_15_0 d) (base_23_16 d) (sd_type d) v (sd_dpl d) (sd_p d) (lim_19_16 d) (avl d) (sd_rsv1 d) (db d) (g d) (base_31_24 d).
(** The segment a descriptor stands for: its first address and its last. *)
Definition seg_base (d : segdesc) : Z := base_15_0 d + base_23_16 d * 2 ^ 16 + base_31_24 d * 2 ^ 24.
Definition seg_limit (d : segdesc) : Z :=
  let l := lim_15_0 d + lim_19_16 d * 2 ^ 16 in if g d =? 1 then l * 4096 + 4095 else l.

Definition DPL_USER : Z := 0x3.
Definition STA_X : Z := 0x8.
Definition STA_W : Z := 0x2.
Definition STA_R : Z := 0x2.
Definition STS_T32A : Z := 0x9.
Definition STS_IG32 : Z := 0xE.
Definition STS_TG32 : Z := 0xF.
Definition SEG_KCODE : nat := 1.
Definition SEG_KDATA : nat := 2.
Definition SEG_KCPU : nat := 3.
Definition SEG_UCODE : nat := 4.
Definition SEG_UDATA : nat := 5.
Definition SEG_TSS : nat := 6.
Definition NSEGS : nat := 7.

Record gatedesc := GateDesc { off_15_0 : Z; gd_cs : Z; gd_args : Z; gd_rsv1 : Z; gd_type : Z; gd_s : Z; gd_dpl : Z; gd_p : Z; off_31_16 : Z }.
Definition SETGATE (istrap : bool) (sel off d : Z) : gatedesc :=
  GateDesc (bits 16 (Z.land (u32 off) 0xffff)) (bits 16 sel) 0 0 (if istrap then STS_TG32 else STS_IG32) 0 (bits 2 d) 1 (bits 16 (Z.shiftr (u32 off) 16)).

(** ** The tables *)

(** [seginit] on one processor's table; [at_] is the address of its [cpu] field. *)
Definition seginit (at_ : Z) (gdt : list segdesc) : list segdesc :=
  let gdt := <[SEG_KCODE := SEG (Z.lor STA_X STA_R) 0 0xffffffff 0]> gdt in
  let gdt := <[SEG_KDATA := SEG STA_W 0 0xffffffff 0]> gdt in
  let gdt := <[SEG_UCODE := SEG (Z.lor STA_X STA_R) 0 0xffffffff DPL_USER]> gdt in
  let gdt := <[SEG_UDATA := SEG STA_W 0 0xffffffff DPL_USER]> gdt in
  <[SEG_KCPU := SEG STA_W at_ 8 0]> gdt.
Definition tvinit (vectors : list Z) : list gatedesc :=
  let idt := (fun v => SETGATE false (Z.shiftl (Z.of_nat SEG_KCODE) 3) v 0) <$> vectors in
  <[Z.to_nat T_SYSCALL := SETGATE true (Z.shiftl (Z.of_nat SEG_KCODE) 3) (default 0 (vectors !! Z.to_nat T_SYSCALL)) DPL_USER]> idt.

(** What [switchuvm] leaves for the next trap: the stack, and the page directory.
    [kstack] is that of the running process. *)
Record entry_state := Entry { e_gdt : list segdesc; ss0 : Z; esp0 : Z; cr3 : Z }.
Definition switchuvm (ts_at ts_size kstack pgdir : Z) : M entry_state unit :=
  modify (fun e => Entry (<[SEG_TSS := set_s 0 (SEG16 STS_T32A ts_at (ts_size - 1) 0)]> (e_gdt e)) (Z.shiftl (Z.of_nat SEG_KDATA) 3) (u32 (kstack + KSTACKSIZE)) (cr3 e)) ;;
  assert_or (negb (pgdir =? 0)) "switchuvm: no pgdir" ;;
  modify (fun e => Entry (e_gdt e) (ss0 e) (esp0 e) (v2p pgdir)).
Definition switchkvm (kpgdir : Z) : M entry_state unit := modify (fun e => Entry (e_gdt e) (ss0 e) (esp0 e) (v2p kpgdir)).

(** ** The running processor *)

(** Its place in [cpus], by the id of its controller. *)
Definition mycpu (irqs_on : bool) (apicid : Z) (s : mps) : res mps nat :=
  if irqs_on then Panic "mycpu called with interrupts enabled" s else
  match scan (fun id => id =? apicid) (take (Z.to_nat (ncpu s)) (Mp.cpus s)) with
  | Some (i, _) => Ok i s
  | None => Panic "unknown apicid" s
  end.
(** [sched] checks that it may switch; the switch itself keeps [intena]. *)
Definition sched (c : nat) (ptable : Spinlock.spinlock) (running : bool) (p : Spinlock.cpu) : res Spinlock.cpu unit :=
  if negb (Spinlock.holding c ptable) then Panic "sched ptable.lock" p
  else if negb (Spinlock.ncli p =? 1) then Panic "sched locks" p
  else if running then Panic "sched running" p
  else if Spinlock.eflags_if p then Panic "sched interruptible" p
  else Ok tt p.

(** [startothers]: processor [c] is started and sets [started] in the entry its
    [cpunum] names; the loop waits for entry [c].  [None]: it waits for ever. *)
Fixpoint start_cpus (boot : Z) (l : list (Z * Z)) (started : list Z) : option (list Z) :=
  match l with
  | [] => Some started
  | (c, id) :: l' =>
    if c =? boot then start_cpus boot l' started else
    let started := id :: started in
    if bool_decide (c ∈ started) then start_cpus boot l' started else None
  end.
Definition startothers_waits (boot : Z) (ids : list Z) : option (list Z) := start_cpus boot (imap (fun c id => (Z.of_nat c, id)) ids) [].

(** ** What user programs can reach *)

(** [int n] in a program at privilege level [cpl]. *)
Definition int_instr (cpl : Z) (idt : list gatedesc) (n : Z) : option gatedesc :=
  match idt !! Z.to_nat n with Some d => if (gd_p d =? 1) && (cpl <=? gd_dpl d) then Some d else None | None => None end.
Definition gate_offset (d : gatedesc) : Z := off_15_0 d + off_31_16 d * 2 ^ 16.

Lemma bits_small w x : 0 <= x < 2 ^ w -> bits w x = x.
Proof. apply Z.mod_small. Qed.
Lemma low16 x : Z.land x 0xffff = x mod 2 ^ 16.
Proof. change 0xffff with (Z.ones 16). apply Z.land_ones. lia. Qed.
Lemma gate_offset_set t sel off d : in_u32 off -> gate_offset (SETGATE t sel off d) = off.
Proof.
  intros H. unfold gate_offset, SETGATE, bits. cbn [off_15_0 off_31_16]. rewrite low16, u32_small, Z.shiftr_div_pow2 by done.
  rewrite Zmod_mod. rewrite (Z.mod_small (off / 2 ^ 16)) by dlia. dlia.
Qed.
Lemma seg_base_SEG t base lim d : in_u32 base -> seg_base (SEG t base lim d) = base.
Proof.
  intros H. unfold seg_base, SEG, bits. cbn [base_15_0 base_23_16 base_31_24]. rewrite low16, u32_small, !Z.shiftr_div_pow2 by done.
  change 0xff with (Z.ones 8). rewrite Z.land_ones by lia. rewrite !Zmod_mod. rewrite (Z.mod_small (base / 2 ^ 24)) by dlia. dlia.
Qed.
Lemma seg_limit_SEG t base lim d : in_u32 lim -> seg_limit (SEG t base lim d) = lim / 4096 * 4096 + 4095.
Proof.
  intros H. unfold seg_limit, SEG, bits. cbn [lim_15_0 lim_19_16 g]. rewrite low16, u32_small, !Z.shiftr_div_pow2 by done. cbn [Z.eqb Pos.eqb].
  rewrite Zmod_mod, (Z.mod_small (lim / 2 ^ 28)) by dlia. change (2 ^ 12) with 4096. dlia.
Qed.

Lemma tvinit_lookup vectors n : length vectors = 256%nat -> 0 <= n < 256 -> exists v, vectors !! Z.to_nat n = Some v /\
  tvinit vectors !! Z.to_nat n = Some (SETGATE (n =? T_SYSCALL) 8 v (if n =? T_SYSCALL then DPL_USER else 0)).
Proof.
  intros Hl Hn. destruct (lookup_lt_is_Some_2 vectors (Z.to_nat n)) as [v Hv]; [lia|]. exists v. split; [done|]. unfold tvinit.
  destruct (Z.eqb_spec n T_SYSCALL) as [->|Hne].
  - rewrite list_lookup_insert_eq by (rewrite length_fmap, Hl; vm_compute; lia). by rewrite Hv.
  - rewrite list_lookup_insert_ne by (unfold T_SYSCALL in *; lia). rewrite list_lookup_fmap, Hv. done.
Qed.

(** C39: with the tables of [seginit] and [tvinit] the only trap a user program can ask
    for is [T_SYSCALL]; every trap, asked for or not, enters the kernel at its own
    vector, in a segment with the kernel's privilege that covers all memory; only
    the system call leaves interrupts on. *)
Theorem gates_protect vectors at_ gdt n : length vectors = 256%nat -> Forall (fun v => in_u32 v) vectors -> length gdt = NSEGS -> 0 <= n < 256 ->
  ((exists d, int_instr 3 (tvinit vectors) n = Some d) <-> n = T_SYSCALL) /\
  exists d s, tvinit vectors !! Z.to_nat n = Some d /\ Some (gate_offset d) = vectors !! Z.to_nat n /\ gd_p d = 1 /\
    (gd_type d = STS_TG32 <-> n = T_SYSCALL) /\
    seginit at_ gdt !! Z.to_nat (gd_cs d / 8) = Some s /\ sd_dpl s = 0 /\ seg_base s = 0 /\ seg_limit s = 0xffffffff.
Proof.
  intros Hl Hv Hg Hn. destruct (tvinit_lookup vectors n Hl Hn) as (v & Ev & Et).
  assert (in_u32 v) as Hb by (rewrite list.Forall_forall in Hv; apply Hv; by apply list_elem_of_lookup_2 in Ev).
  split.
  - unfold int_instr. rewrite Et. destruct (Z.eqb_spec n T_SYSCALL) as [->|Hne]; cbn; split; try done; [by eexists|by intros [d Hd]].
  - eexists _, (SEG (Z.lor STA_X STA_R) 0 0xffffffff 0). split; [exact Et|]. split; [by rewrite gate_offset_set, Ev|]. split; [done|].
    split; [destruct (Z.eqb_spec n T_SYSCALL); cbn; split; done|]. split; [|by split_and!].
    change (Z.to_nat _) with SEG_KCODE. unfold seginit. do 4 (rewrite list_lookup_insert_ne by done).
    by rewrite list_lookup_insert_eq by (rewrite Hg; unfold NSEGS, SEG_KCODE; lia).
Qed.
Lemma gates_protect_witness : (exists d, int_instr 3 (tvinit (seqZ 0 256)) 64 = Some d) <-> 64 = T_SYSCALL.
Proof.
  apply (gates_protect (seqZ 0 256) 0 (replicate 7 (SEG 0 0 0 0)) 64); [reflexivity| |reflexivity|lia].
  apply list.Forall_forall. intros v Hv. apply elem_of_seqZ in Hv. lia.
Defined.

(** The user's own segments cover all memory at the user's privilege, so that pages
    alone decide what a program reaches. *)
Lemma user_segments at_ gdt i : length gdt = NSEGS -> i = SEG_UCODE \/ i = SEG_UDATA -> exists s,
  seginit at_ gdt !! i = Some s /\ sd_dpl s = DPL_USER /\ seg_base s = 0 /\ seg_limit s = 0xffffffff.
Proof.
  intros Hg Hi. destruct gdt as [|? [|? [|? [|? [|? [|? [|? [|]]]]]]]]; try discriminate Hg. destruct Hi as [-> | ->]; eexists; by split_and!.
Qed.

(** A trap from user mode after [switchuvm] begins on top of the process's kernel stack, in its page directory. *)
Theorem switchuvm_entry ts_at ts_size kstack pgdir e : length (e_gdt e) = NSEGS -> in_u32 ts_at -> 0 < ts_size <= 65536 -> pgdir <> 0 -> exists e' d,
  switchuvm ts_at ts_size kstack pgdir e = Ok tt e' /\ esp0 e' = u32 (kstack + 4096) /\ ss0 e' / 8 = Z.of_nat SEG_KDATA /\ cr3 e' = v2p pgdir /\
  e_gdt e' !! SEG_TSS = Some d /\ seg_base d = ts_at /\ seg_limit d = ts_size - 1 /\ sd_s d = 0.
Proof.
  intros Hl Ht Hs Hp. unfold switchuvm. rewrite (proj2 (Z.eqb_neq pgdir 0) Hp). eexists _, _. split; [reflexivity|]. cbn [esp0 ss0 cr3 e_gdt].
  split; [done|]. split; [done|]. split; [done|]. split; [by rewrite list_lookup_insert_eq by (rewrite Hl; unfold NSEGS, SEG_TSS; lia)|].
  split; [exact (seg_base_SEG 0 ts_at 0 0 Ht)|]. split; [|done]. unfold seg_limit, SEG16, set_s, bits. cbn [lim_15_0 lim_19_16 g].
  rewrite low16, u32_small, Z.shiftr_div_pow2 by lia. cbn [Z.eqb]. dlia.
Qed.

(** ** Starting the processors *)

Lemma start_in_order boot l : forall started, Forall (fun p => p.1 = p.2) l -> is_Some (start_cpus boot l started).
Proof.
  induction l as [|[c id] l IH]; intros started H; [by eexists|]. apply list.Forall_cons in H as [E H]. cbn [fst snd] in E. subst id.
  cbn [start_cpus]. destruct (c =? boot); [by apply IH|]. rewrite bool_decide_eq_true_2 by (by left). by apply IH.
Qed.
(** When the controllers are numbered in the order of the firmware's table, every
    processor is started. *)
Theorem startothers_ends boot ids : (forall i id, ids !! i = Some id -> id = Z.of_nat i) -> is_Some (startothers_waits boot ids).
Proof.
  intros H. apply start_in_order. apply list.Forall_forall. intros [c id] Hi. apply list_elem_of_lookup_1 in Hi as [i Hi].
  apply lookup_imap_Some in Hi as (x & Hx & E). injection E as -> ->. cbn. by rewrite (H i x Hx).
Qed.
(** Otherwise not: with controllers 0 and 3, [mpinit] fills entries 0 and 1, the
    second processor uses entry 3, and the first waits for entry 1 for ever.  [mycpu]
    would have found the right entry. *)
Example startothers_hangs : mpinit 5 (MpSample.firmware 0xF0010 (table_bytes MpSample.entries)) 0 mp_zero ≫= (fun s =>
    Some (take (Z.to_nat (ncpu s)) (Mp.cpus s), startothers_waits 0 (take (Z.to_nat (ncpu s)) (Mp.cpus s)), match mycpu false 3 s with Ok i _ => i | _ => 99%nat end)) =
  Some ([0; 3], None, 1%nat).
Proof. vm_compute. reflexivity. Qed.
